(* ===== verification/_CoqProject ===== *)
-Q . S2P
Prelude.v
JsNum.v
Errors.v
ErrorMap.v
Connections.v
Money.v
Ledger.v
PaymentFlow.v
Regex.v
Validation.v
Accounts.v
TxMetadata.v
Facade.v
LedgerService.v
LedgerWrites.v
LedgerWritesSpec.v
RateLimit.v
Programs.v
Effects.v
Persistence.v
AccountRepo.v
Workers.v
Payments.v
AccountHandlers.v
AccountSpec.v
PaymentsSpec.v
Protocols.v
Rewards.v
Login.v
EndToEnd.v
Invoices.v
Prices.v
Lnd.v
LndSpec.v
InvoicesSpec.v
InvoicesShared.v
PendingPayments.v
PendingPaymentsSpec.v
NodeSpec.v
LnPayments.v
FeeProbe.v
OnChain.v
Scalars.v
Treasury.v
Notifications.v
Trigger.v
Resolvers.v
OnChainSpec.v
ResolversSpec.v
Server.v
Jobs.v
History.v
Queries.v
