(* ===== verification/Prelude.v ===== *)
(** * Galoy backend: a verification library

    The back end of a Bitcoin bank: users hold wallets in satoshis or in dollar
    cents, pay and receive over the lightning network, on chain or between wallets
    of the bank, and the bank keeps a double-entry ledger of it all.  This library
    models its JavaScript ([backend/lib]) and proves what makes it correct.  Paths
    below are relative to [backend/lib].

    ** How the program is put together

    A server ([servers]) finds out whose session a request is, applies the rules of the
    field and hands the arguments, read by the scalars of [graphql], to a resolver, which
    calls a handler of [app].  A handler checks
    its input ([domain]), reads wallets and accounts from repositories
    ([services/mongoose]), builds a payment flow ([domain/payments]), checks the
    limits of the account ([domain/accounts]), locks the wallet ([services/lock]),
    checks the balance, records the payment in the ledger ([services/ledger]) and
    asks the lightning node to pay ([services/lnd]).  Functions report failure by
    returning an object of an error class; [graphql/error-map.js] turns it into what
    the client sees.  The events of the node ([servers/trigger.js]) and a cron call handlers
    too, and the clients are told by notifications and subscriptions.

    ** How it is modelled

    - A function that returns a value or an error object is a function to [result]:
      [Ok], [Er] for a returned error, [Throw] for a rejection or an exception.
      [let*] is the [instanceof Error] early return.
    - A [bigint] is a [Z].  A [number] is a binary64 number ([JsNum]) with the
      rounding of every operation.
    - A builder object that closes over its state is a record per stage.
    - The book of the ledger is a state threaded through the facade ([facade]).
    - An asynchronous handler is a tree of calls whose branches are the possible
      answers ([prog]); its executions are the paths of the tree ([exec]), so a
      theorem on executions holds whatever the other services answer, and every
      handler terminates because the tree is inductive.
    - Handlers that run at the same time are workers of a transition system whose steps
      are their calls ([Workers]); a call changes the state that the handlers share.
    - What is not in the repository is a parameter: the [medici] package through the
      classes [MediciEntry], [MediciBook], [MediciQueries] and [MediciJournals] with the
      laws it documents (the classes named [...Laws], which lists of transactions satisfy),
      a collection of [mongoose] through [Collection] and [CollectionLaws], the store of the
      rate limits through [Limiter] and [LimiterLaws], that of a cache through [TtlCache] and
      [TtlCacheLaws], the library that applies the rules of fields through [Shield] and
      [ShieldLaws], the translations of messages and the printing of numbers, the prices and the decoding of invoices through functions, and the
      daemons of the node, of bitcoin and of the swaps through calls with any answer.
    - A handler calls a repository or a service of the program through a call too, so that
      its theorems hold for any answer; where the composition matters, the calls are made by
      the modelled service ([interp], in [NodeSpec]) or answered by the modelled repository
      on a shared state ([Workers], in [AccountSpec], [Rewards], [Login], [LnPayments],
      [InvoicesShared]) or by the ledger ([EndToEnd]).
    - A loop over the pages that a service serves has fuel, and what is proved of an answer
      holds for every fuel; [LndSpec.listInvoices_all], [Connections.pages_cover] and
      [Jobs.identities_listed] give a fuel that is enough, the number of pages.
    - Spans of the tracing library and log lines are left out.

    ** Files

    - [Prelude]: scopes, tactics, the [result] monad, shared lemmas.
    - [JsNum]: the [number] type of the language.
    - [Errors]: the error classes of [domain/**/errors.js] and of
      [services/ledger/domain/errors.js]; [instanceof] and levels.  A class has at most six
      ancestors: [inheritance_depth], proved enough by [ancestors_complete].
    - [ErrorMap]: [graphql/error.js] and [graphql/error-map.js].
    - [Connections]: the pages of [graphql/connections.js].
    - [Money]: [domain/shared] (amounts, calculator), [domain/payments]
      (price ratios, checks of amounts, lightning fees), fee reimbursement, on-chain fees.
    - [Ledger]: the entry builders of [services/ledger/domain].
    - [PaymentFlow]: the payment flow builder and the flow of [domain/payments].
    - [Regex], [Validation]: regular expressions with a matcher by derivatives, and the
      checks of identifiers, names, units and amounts in [domain].
    - [Accounts]: account validation, limits, payment input, activity and imbalance.
    - [TxMetadata]: [services/ledger/tx-metadata.js], transaction types and volume groups.
    - [Facade]: [services/ledger/facade.js], [helpers.js], [caching.js].
    - [LedgerService]: the queries of [services/ledger/index.js] and [volume.js].
    - [LedgerWrites], [LedgerWritesSpec]: the operations of [services/ledger] that write to
      the book outside the facade: [send.js], [receive.js], [intraledger.js], [admin.js],
      [admin-legacy.js]; every sequence of them keeps the book balanced.
    - [RateLimit]: [domain/rate-limit] and [services/rate-limit].
    - [Programs]: programs, executions, protocols, and what calls may be made by a program.
    - [Effects]: the calls of the application layer; [services/lock/index.js].
    - [Persistence]: [services/mongoose/wallet-invoices.js] and [payment-flow.js].
    - [AccountRepo]: the other repositories of [services/mongoose]: accounts, wallets,
      addresses, users, connections, phone codes, rewards.
    - [Workers]: [runInParallel] of [utils/index.js].
    - [Payments]: [app/payments] ([helpers.js], [send-lightning.js],
      [send-intraledger.js]), [app/wallets/reimburse-fee.js], [app/shared/mid-price.js].
    - [PaymentsSpec]: the protocol of a lightning payment, of transfers, and what they
      imply of every execution.
    - [Protocols]: the protocols on the money that the other handlers are checked against.
    - [AccountHandlers], [AccountSpec]: [app/accounts], and the handlers on shared
      repositories.
    - [Rewards]: [app/accounts/add-earn.js]; [Login]: [app/users] and the addresses of
      a wallet.
    - [EndToEnd]: the payment handlers run on the ledger, with other handlers
      interleaved ([lexec] under [rely]).
    - [Invoices], [InvoicesSpec], [InvoicesShared]: invoices, from their creation
      ([domain/wallet-invoices], [app/wallets/add-invoice-for-wallet.js]) to their
      settlement ([update-pending-invoices.js]), and the handlers on a shared repository.
    - [Prices]: [services/cache], [services/price], [services/dealer-price], [app/prices],
      [app/shared/mid-price.js].
    - [Lnd], [LndSpec]: [services/lnd]; [NodeSpec]: the payment and invoice handlers with
      the calls to the node made by that service.
    - [LnPayments]: [app/lightning], [services/mongoose/ln-payments.js].
    - [PendingPayments], [PendingPaymentsSpec]: [app/payments/update-pending-payments.js],
      [translations.js], [app/wallets/reimburse-failed-usd.js].
    - [FeeProbe]: [app/payments/get-protocol-fee.js], [app/partial-result.js].
    - [OnChain], [OnChainSpec]: [domain/bitcoin/onchain] and the handlers of [app/wallets]
      that send and receive on chain.
    - [Treasury]: the cold storage ([services/cold-storage], [app/cold-storage]) and the
      swaps ([services/loopd], [app/swap]).
    - [Scalars]: [graphql/types/scalar], how the arguments of a request are read.
    - [Notifications]: [domain/notifications], [services/notifications],
      [services/pubsub.js] and the subscriptions of [graphql/root/subscription].
    - [Trigger]: the handlers and listeners of [servers/trigger.js], the active accounts and
      the daily notification of balances.
    - [Resolvers], [ResolversSpec]: the mutations of [graphql/root/mutation] and of
      [graphql/admin/root/mutation].
    - [Server]: [services/kratos], the sessions and rules of [servers/graphql-*.js], and
      [servers/middlewares].
    - [Jobs]: [servers/cron.js], [app/auth], [services/kratos/identity.js], the health route
      and the export of an account.
    - [History]: [domain/wallets/tx-history.js] and the queries that return it.
    - [Queries]: [graphql/root/query], [graphql/admin/root/query] and the fields of
      accounts, wallets, users and transactions.

    ** What the theorems show

    - Payments ([PaymentsSpec]): the answer given to the sender says what happened to
      the money; the node only pays after the debit, which follows the checks of limit,
      lock, pending payments and balance; money only moves from a wallet of the caller's
      active account; a transfer is recorded once, within the limits and the balance.
    - Payments on the ledger ([EndToEnd], [LedgerService]): no payment overdraws a wallet,
      whatever the services answer and whatever other handlers do that does not debit the
      wallet; a recorded payment shows up as pending under its hash until it is settled,
      and in the volume the limits are checked against.
    - Ledger ([Ledger], [Facade]): entries are balanced in each currency, with the exact
      cases in which they are not; they implement an abstract transfer; the legacy
      builder agrees with the current one; every sequence of writing operations keeps the
      book balanced ([LedgerWritesSpec]); reverting a send, over lightning or on chain,
      restores every balance; settling changes no balance; the escrow follows the node.
    - Invoices ([InvoicesSpec], [InvoicesShared]): a wallet is credited at most once, after
      the lock, the claim at the node and the mark in the repository; a paid invoice is
      credited when the services answer; updates one after the other on a shared
      repository credit a hash at most once, and a counterexample shows what concurrent
      ones do; the workers process every held invoice and stop.
    - Pending payments and probes ([PendingPaymentsSpec], [FeeProbe]): finding out about a
      payment settles it once and refunds what the answer of the node says; the flow rebuilt
      from the ledger is the one sent; a fee shown is that of a stored flow.
    - The node ([NodeSpec], [LndSpec], [LnPayments]): a refund, a revert and a credit are
      justified by what a node answered; a payment whose answer is late stays debited; all
      pages of invoices are listed; payments deleted at a node have a complete record,
      whatever the interleaving of the jobs.
    - Accounts ([AccountSpec], [Rewards], [Login]): under every interleaving accounts and
      wallets stay consistent, a username is given once, a reward is paid once, a session
      needs a code that was checked, and wrong codes are limited; a code that was sent is
      accepted while it is fresh.
    - Prices ([Prices]): a price is recent, and the conversions at the middle price meet the
      contract that the payment flow builder relies on, unless the dealer replied a negative
      rate, which nothing refuses.
    - Treasury ([Treasury]): what is over the reserve of the hot wallet is sent once and
      recorded.
    - On chain ([OnChainSpec]): a send debits the amount and the fees once, before the node
      pays, within the balance; a receipt credits each output of the wallet once.
    - Storage and history ([Persistence], [History]): a stored flow and a stored invoice are
      read back; the history of a wallet adds up to its balance and its pending balance, its
      pending part to the pending balance, and shows a payment from its recording to its settlement.
    - Workers ([Workers]): [runInParallel] stops under every interleaving with every item
      processed once.
    - Payment flows ([PaymentFlow]): every flow a chain of builder calls reaches is
      well-formed, no chain reaches the error object for impossible states, the price
      used depends only on the direction, the balance check is exact.
    - Money ([Money], [Validation]): conversions are ordered, monotone and within a unit
      of the exact value; fees and reimbursements are within bounds; amounts of clients
      are accepted exactly between 1 and the maximum; satoshis survive the round trip
      through bitcoins in binary64.
    - Limits and input ([Accounts], [Validation], [TxMetadata]): limit checks are exact
      and bound what can be spent, each outgoing transaction counts towards exactly one
      limit, wallet paths round-trip, usernames are what the rules say.
    - Requests ([Server], [ResolversSpec], [Scalars], [Queries]): money moves in a request
      only for the account of its token and from a wallet found to belong to it; a mutation
      of one currency never pays from a wallet of the other, and those that are not payments
      move nothing; the administration needs an editor, with the exception that is stated; a
      subject of a token is the identity of an account; scalars read back what they gave and
      agree with the checks of the handlers.
    - Events and jobs ([Trigger], [Notifications], [Jobs]): a restart takes up the held
      invoices and credits them; a transaction of the chain is settled when it is confirmed
      and the account concerned is told, by one update or one task for each wallet; a
      subscriber receives what concerns it and nothing else, except that the updates with an
      amount of type BigInt are refused by the publisher; a run of the cron performs every task; the identities are listed completely.
    - Errors and pages ([ErrorMap], [Connections]): the pages of a connection cover its
      array; every error but a listed few is mapped for the client, and details of failing services are not disclosed.

    ** Not modelled

    The gRPC clients and the code generated from protocol buffers, the clients of twilio,
    geetest, bitcoind and the address service, connecting to the databases, start-up and
    timers of the servers, tracing, logging, and the schema of the configuration file only
    pass data on or declare it.  GraphQL types without a resolver of their own and queries
    that pass on one call have no behaviour besides the call.  Left out as well are the score
    of the node and the rebalancing of its channels ([services/lnd/utils-bos.js]), which is
    the work of a third-party package, the gauges of the exporter, which print values of
    modelled functions, the upload of backups, and the alias of contacts, whose pattern uses
    the properties of Unicode characters. *)

From stdpp Require Export base list option strings pretty.
From stdpp Require Import numbers.
From Stdlib Require Export ZArith Lia.

(** ** Scopes and automation of the development *)

Declare Scope js_scope.
Delimit Scope js_scope with js.
#[global] Open Scope Z_scope.
#[global] Open Scope js_scope.

Create HintDb galoy discriminated.
Create Rewrite HintDb galoy_simpl.

(** Case analysis on the innermost scrutinee of a [match] or [if] in the goal
    or in a hypothesis, keeping the equation. *)
Ltac case_step :=
  match goal with
  | |- context [match ?x with _ => _ end] => destruct x eqn:?
  | H : context [match ?x with _ => _ end] |- _ => destruct x eqn:?
  end.

(** Exhausts the branches of a definition and closes the absurd ones. *)
Ltac branches := repeat (case_step; simplify_eq/=; try done).

(** Turns boolean tests on integers into propositions. *)
Ltac bool_prop :=
  repeat match goal with
  | H : (_ && _)%bool = true |- _ => apply andb_true_iff in H as [? ?]
  | H : (_ || _)%bool = false |- _ => apply orb_false_iff in H as [? ?]
  | H : negb _ = true |- _ => apply negb_true_iff in H
  | H : negb _ = false |- _ => apply negb_false_iff in H
  | H : (_ =? _) = true |- _ => apply Z.eqb_eq in H
  | H : (_ =? _) = false |- _ => apply Z.eqb_neq in H
  | H : (_ <? _) = true |- _ => apply Z.ltb_lt in H
  | H : (_ <? _) = false |- _ => apply Z.ltb_ge in H
  | H : (_ <=? _) = true |- _ => apply Z.leb_le in H
  | H : (_ <=? _) = false |- _ => apply Z.leb_gt in H
  | H : bool_decide _ = true |- _ => apply bool_decide_eq_true in H
  | H : bool_decide _ = false |- _ => apply bool_decide_eq_false in H
  end.

(** ** Truthiness of optional strings *)

(** A JavaScript string is falsy when it is empty; [None] is [undefined]. *)
Definition str_truthy (s : option string) : bool :=
  match s with
  | Some EmptyString | None => false
  | Some _ => true
  end.

#[global] Arguments str_truthy : simpl never.

(** [a || b] on optional strings. *)
Definition str_or (a b : option string) : option string :=
  if str_truthy a then a else b.

(** ** Sums over lists *)

Definition sumZ {A} (f : A -> Z) (l : list A) : Z :=
  fold_right (fun x acc => f x + acc) 0 l.
#[global] Arguments sumZ {A} f l : simpl never.

Section SumZ.
Context {A : Type}.
Implicit Types (f g : A -> Z) (l : list A).

Lemma sumZ_app f l1 l2 : sumZ f (l1 ++ l2) = sumZ f l1 + sumZ f l2.
Proof. induction l1; [done|]. unfold sumZ in *. simpl. lia. Qed.

Lemma sumZ_cons f x l : sumZ f (x :: l) = f x + sumZ f l.
Proof. done. Qed.

Lemma sumZ_ext f g l : (forall x, x ∈ l -> f x = g x) -> sumZ f l = sumZ g l.
Proof.
  induction l as [|x l IH]; intros H; [done|].
  rewrite !sumZ_cons, H by constructor. rewrite IH; [done|].
  intros y Hy. apply H. by constructor.
Qed.

(** Dropping elements of weight zero leaves the sum unchanged. *)
Lemma sumZ_filter_zero f (p : A -> bool) l :
  (forall x, p x = false -> f x = 0) ->
  sumZ f (List.filter p l) = sumZ f l.
Proof.
  intros H. induction l as [|x l IH]; [done|]. simpl.
  destruct (p x) eqn:E; rewrite ?sumZ_cons, IH; [done|].
  rewrite (H _ E). lia.
Qed.

Lemma sumZ_opp f l : sumZ (fun x => - f x) l = - sumZ f l.
Proof. induction l; [done|]. rewrite !sumZ_cons. lia. Qed.

Lemma sumZ_map {B} f (h : B -> A) (l : list B) :
  sumZ f (List.map h l) = sumZ (fun x => f (h x)) l.
Proof. induction l as [|x l IH]; [done|]. simpl. by rewrite !sumZ_cons, IH. Qed.

Lemma sumZ_perm f l1 l2 : l1 ≡ₚ l2 -> sumZ f l1 = sumZ f l2.
Proof. induction 1; rewrite ?sumZ_cons; lia. Qed.

Lemma sumZ_flat_map {B} f (h : B -> list A) (l : list B) :
  sumZ f (flat_map h l) = sumZ (fun x => sumZ f (h x)) l.
Proof. induction l as [|x l IH]; [done|]. simpl. by rewrite sumZ_app, IH. Qed.

Lemma sumZ_nonneg f l : (forall x, x ∈ l -> 0 <= f x) -> 0 <= sumZ f l.
Proof.
  induction l as [|x l IH]; intros H; [done|]. rewrite sumZ_cons.
  specialize (IH (fun y Hy => H y (list_elem_of_further _ _ _ Hy))).
  specialize (H x (list_elem_of_here _ _)). lia.
Qed.

Lemma sumZ_elem_le f l x : (forall y, y ∈ l -> 0 <= f y) -> x ∈ l -> f x <= sumZ f l.
Proof.
  intros Hf Hx. induction Hx as [x l|x y l Hx IH]; rewrite sumZ_cons.
  - assert (0 <= sumZ f l) by (apply sumZ_nonneg; intros z Hz; apply Hf; by right). lia.
  - assert (0 <= f y) by (apply Hf; by left). specialize (IH (fun z Hz => Hf z ltac:(by right))). lia.
Qed.
End SumZ.

#[export] Hint Rewrite @sumZ_app @sumZ_cons : galoy_simpl.
