(* ===== verification/JsNum.v ===== *)
(** * JavaScript numbers

    The fragment of the language semantics the back end computes with: the
    [number] type (IEEE 754 binary64), the conversions between [number] and
    [bigint], comparisons, [Math.floor], [Math.ceil], [Math.round] and the four
    arithmetic operations with their rounding.

    A finite number is a rational; every operation that can be inexact ends in
    [round64], which rounds to nearest, ties to even, with the exponent range
    of binary64 (gradual underflow, overflow to infinity).  The sign of zero is
    not represented: the programs modelled here never divide by a zero whose
    sign could be negative. *)

From Stdlib Require Export QArith Qround Qabs.
From Stdlib Require Import Qreduction.
From S2P Require Import Prelude.
#[global] Open Scope Z_scope.

Inductive number : Type :=
| NaN
| Inf (neg : bool)
| Fin (q : Q).

(** The number literal of an integer. *)
Definition num (z : Z) : number := Fin (inject_Z z).

(** ** Rounding to binary64 *)

Definition significand_bits : Z := 53.
Definition min_exponent : Z := -1074.
Definition max_exponent : Z := 1024.

(** Division rounding to nearest, ties to even ([den > 0]). *)
Definition div_half_even (n den : Z) : Z :=
  let q := n / den in
  let r := n mod den in
  if (2 * r <? den) || ((2 * r =? den) && Z.even q) then q else q + 1.

(** [floor (log2 (n / den))] for positive [n] and [den]. *)
Definition floor_log2 (n den : Z) : Z :=
  let k := Z.log2 n - Z.log2 den in
  if 0 <=? k
  then (if Z.shiftl den k <=? n then k else k - 1)
  else (if den <=? Z.shiftl n (- k) then k else k - 1).

(** Exponent of the unit in the last place of the binade of [n / den]. *)
Definition ulp_exponent (n den : Z) : Z :=
  Z.max (floor_log2 n den - (significand_bits - 1)) min_exponent.

Definition round64 (q : Q) : number :=
  let n := Qnum q in
  let den := Zpos (Qden q) in
  if n =? 0 then num 0
  else
    let u := ulp_exponent (Z.abs n) den in
    let v := if 0 <=? u
             then inject_Z (Z.shiftl (div_half_even n (Z.shiftl den u)) u)
             else Qred (div_half_even (Z.shiftl n (- u)) den
                        # Z.to_pos (Z.shiftl 1 (- u))) in
    if Qle_bool (inject_Z (2 ^ max_exponent)) (Qabs v)
    then Inf (n <? 0) else Fin v.

(** ** Conversions *)

(** [Number(z)] on a bigint. *)
Definition Number (z : Z) : number := round64 (inject_Z z).

Definition Q_is_int (q : Q) : bool := Qeq_bool q (inject_Z (Qfloor q)).

(** [Number.isInteger]. *)
Definition isInteger (x : number) : bool :=
  match x with Fin q => Q_is_int q | _ => false end.

(** [BigInt(x)]: [None] stands for the [RangeError] raised on a number that is
    not an integer. *)
Definition BigInt (x : number) : option Z :=
  match x with
  | Fin q => if Q_is_int q then Some (Qfloor q) else None
  | _ => None
  end.

(** A number is falsy when it is zero or [NaN]. *)
Definition num_truthy (x : number) : bool :=
  match x with
  | NaN => false
  | Inf _ => true
  | Fin q => negb (Qeq_bool q 0)
  end.

(** ** Comparisons *)

Definition num_eqb (x y : number) : bool :=
  match x, y with
  | Fin p, Fin q => Qeq_bool p q
  | Inf a, Inf b => Bool.eqb a b
  | _, _ => false
  end.

Definition num_ltb (x y : number) : bool :=
  match x, y with
  | NaN, _ | _, NaN => false
  | Inf a, Inf b => a && negb b
  | Inf a, Fin _ => a
  | Fin _, Inf b => negb b
  | Fin p, Fin q => negb (Qle_bool q p)
  end.

(** [x <= y]; false when either side is [NaN]. *)
Definition num_leb (x y : number) : bool :=
  match x, y with
  | NaN, _ | _, NaN => false
  | _, _ => negb (num_ltb y x)
  end.

(** ** Rounding functions of [Math] *)

Definition Math_floor (x : number) : number :=
  match x with Fin q => num (Qfloor q) | _ => x end.

Definition Math_ceil (x : number) : number :=
  match x with Fin q => num (Qceiling q) | _ => x end.

(** [Math.round]: ties towards positive infinity. *)
Definition Math_round (x : number) : number :=
  match x with Fin q => num (Qfloor (q + (1 # 2))) | _ => x end.

Definition Math_abs (x : number) : number :=
  match x with Fin q => Fin (Qabs q) | Inf _ => Inf false | NaN => NaN end.

Definition Math_max (x y : number) : number :=
  match x, y with
  | NaN, _ | _, NaN => NaN
  | _, _ => if num_ltb x y then y else x
  end.

Definition Math_min (x y : number) : number :=
  match x, y with
  | NaN, _ | _, NaN => NaN
  | _, _ => if num_ltb y x then y else x
  end.

(** ** Arithmetic *)

Definition num_neg (x : number) : number :=
  match x with Fin q => Fin (Qopp q) | Inf b => Inf (negb b) | NaN => NaN end.

Definition num_add (x y : number) : number :=
  match x, y with
  | NaN, _ | _, NaN => NaN
  | Inf a, Inf b => if Bool.eqb a b then Inf a else NaN
  | Inf a, Fin _ | Fin _, Inf a => Inf a
  | Fin p, Fin q => round64 (p + q)
  end.

Definition num_sub (x y : number) : number := num_add x (num_neg y).

(** Sign of a non-zero finite number. *)
Definition Q_neg (q : Q) : bool := Qnum q <? 0.

Definition num_mul (x y : number) : number :=
  match x, y with
  | NaN, _ | _, NaN => NaN
  | Inf a, Inf b => Inf (xorb a b)
  | Inf a, Fin q | Fin q, Inf a =>
      if Qeq_bool q 0 then NaN else Inf (xorb a (Q_neg q))
  | Fin p, Fin q => round64 (p * q)
  end.

Definition num_div (x y : number) : number :=
  match x, y with
  | NaN, _ | _, NaN => NaN
  | Inf _, Inf _ => NaN
  | Inf a, Fin q => Inf (xorb a (Q_neg q))
  | Fin _, Inf _ => num 0
  | Fin p, Fin q =>
      if Qeq_bool q 0
      then (if Qeq_bool p 0 then NaN else Inf (Q_neg p))
      else round64 (p / q)
  end.

(** The value of an integer number, for comparisons of a number with a
    bigint, which JavaScript makes exactly. *)
Definition num_gt_bigint (x : number) (z : Z) : bool := num_ltb (num z) x.

(** ** Safe integers *)

(** The integers whose absolute value is at most [2 ^ 53] are exactly
    represented. *)
Definition safe (z : Z) : Prop := Z.abs z <= 2 ^ significand_bits.

#[global] Instance safe_dec z : Decision (safe z).
Proof. unfold safe. apply _. Defined.

Lemma div_half_even_exact k den : 0 < den -> div_half_even (k * den) den = k.
Proof.
  intros Hd. unfold div_half_even.
  rewrite Z.div_mul, Z.mod_mul by lia.
  by replace (2 * 0 <? den) with true by (symmetry; apply Z.ltb_lt; lia).
Qed.

Lemma floor_log2_int n : 0 < n -> floor_log2 n 1 = Z.log2 n.
Proof.
  intros Hn. unfold floor_log2. simpl (Z.log2 1). rewrite Z.sub_0_r.
  pose proof (Z.log2_nonneg n) as Hl.
  rewrite (proj2 (Z.leb_le 0 (Z.log2 n)) Hl), Z.shiftl_1_l.
  by rewrite (proj2 (Z.leb_le _ _) (proj1 (Z.log2_spec n Hn))).
Qed.

Lemma Qred_int z : Qred (inject_Z z) = inject_Z z.
Proof.
  unfold inject_Z, Qred.
  generalize (Z.ggcd_gcd z 1), (Z.ggcd_correct_divisors z 1).
  destruct (Z.ggcd z 1) as [g [a b]]. simpl. rewrite Z.gcd_1_r.
  intros -> [H1 H2]. rewrite Z.mul_1_l in H1, H2. by subst.
Qed.

(** Safe integers are fixed points of the rounding. *)
Lemma round64_int z : safe z -> round64 (inject_Z z) = num z.
Proof.
  intros Hs. unfold round64, safe in *. simpl Qnum. simpl Qden.
  destruct (z =? 0) eqn:Hz; bool_prop; [by subst|].
  set (u := ulp_exponent (Z.abs z) 1).
  assert (Hu : u = Z.max (Z.log2 (Z.abs z) - 52) (-1074)).
  { unfold u, ulp_exponent. rewrite floor_log2_int by lia. done. }
  clearbody u.
  assert (Hv : (if 0 <=? u
             then inject_Z (Z.shiftl (div_half_even z (Z.shiftl 1 u)) u)
             else Qred (div_half_even (Z.shiftl z (- u)) 1
                        # Z.to_pos (Z.shiftl 1 (- u)))) = inject_Z z).
  { destruct (0 <=? u) eqn:Hu0; bool_prop.
    - assert (Hd : (2 ^ u | z)).
      { pose proof (Z.log2_le_mono _ _ Hs) as Hl.
        rewrite Z.log2_pow2 in Hl by (unfold significand_bits; lia).
        unfold significand_bits in *.
        destruct (decide (u = 0)) as [->|Hne]; [apply Z.divide_1_l|].
        assert (u = 1) as -> by lia.
        assert (Z.abs z = 2 ^ 53) as Habs.
        { assert (Z.log2 (Z.abs z) = 53) as Hl' by lia.
          pose proof (Z.log2_spec (Z.abs z) ltac:(lia)) as [Hlo _].
          rewrite Hl' in Hlo. lia. }
        apply Z.divide_abs_r. rewrite Habs. by exists (2 ^ 52). }
      destruct Hd as [k Hk]. rewrite Hk, Z.shiftl_1_l, div_half_even_exact by
        (apply Z.pow_pos_nonneg; lia).
      by rewrite Z.shiftl_mul_pow2.
    - assert (0 < 2 ^ (- u)) by (apply Z.pow_pos_nonneg; lia).
      rewrite Z.shiftl_mul_pow2, Z.shiftl_1_l by lia.
      rewrite <- (Z.mul_1_r (z * _)), div_half_even_exact by lia.
      rewrite <- (Qred_int z). apply Qred_complete.
      unfold Qeq. simpl. rewrite Z2Pos.id by lia. lia. }
  rewrite Hv.
  destruct (Qle_bool _ _) eqn:Hle; [|done]. exfalso.
  apply Qle_bool_iff in Hle. unfold Qle in Hle. simpl in Hle.
  assert (2 ^ significand_bits < 2 ^ max_exponent) by
    (apply Z.pow_lt_mono_r; unfold significand_bits, max_exponent; lia).
  lia.
Qed.

Lemma Number_safe z : safe z -> Number z = num z.
Proof. apply round64_int. Qed.

Lemma Q_is_int_inject z : Q_is_int (inject_Z z) = true.
Proof. unfold Q_is_int. rewrite Qfloor_Z. apply Qeq_bool_iff. done. Qed.

Lemma BigInt_num z : BigInt (num z) = Some z.
Proof. unfold BigInt, num. by rewrite Q_is_int_inject, Qfloor_Z. Qed.

Lemma num_add_safe a b : safe (a + b) -> num_add (num a) (num b) = num (a + b).
Proof.
  intros H. unfold num_add, num. simpl.
  replace (inject_Z a + inject_Z b)%Q with (inject_Z (a + b));
    [by rewrite round64_int|].
  unfold inject_Z, Qplus. simpl. f_equal. lia.
Qed.

Lemma num_sub_safe a b : safe (a - b) -> num_sub (num a) (num b) = num (a - b).
Proof.
  intros H. unfold num_sub. replace (num_neg (num b)) with (num (- b)) by done.
  by rewrite num_add_safe.
Qed.

Lemma num_mul_safe a b : safe (a * b) -> num_mul (num a) (num b) = num (a * b).
Proof.
  intros H. unfold num_mul, num. simpl.
  replace (inject_Z a * inject_Z b)%Q with (inject_Z (a * b));
    [by rewrite round64_int | done].
Qed.

Lemma num_ltb_num a b : num_ltb (num a) (num b) = (a <? b).
Proof.
  unfold num_ltb, num. apply eq_true_iff_eq.
  rewrite negb_true_iff, Z.ltb_lt, <- not_true_iff_false, Qle_bool_iff.
  unfold Qle. simpl. lia.
Qed.

Lemma num_eqb_num a b : num_eqb (num a) (num b) = (a =? b).
Proof.
  unfold num_eqb, num. apply eq_true_iff_eq.
  rewrite Qeq_bool_iff, Z.eqb_eq. unfold Qeq. simpl. lia.
Qed.

Lemma num_truthy_num a : num_truthy (num a) = negb (a =? 0).
Proof.
  unfold num_truthy, num. f_equal. apply eq_true_iff_eq.
  rewrite Qeq_bool_iff, Z.eqb_eq. unfold Qeq. simpl. lia.
Qed.

Lemma Math_floor_num a : Math_floor (num a) = num a.
Proof. unfold Math_floor, num. by rewrite Qfloor_Z. Qed.

Lemma Math_ceil_num a : Math_ceil (num a) = num a.
Proof. unfold Math_ceil, num. by rewrite Qceiling_Z. Qed.

#[export] Hint Rewrite BigInt_num num_ltb_num num_eqb_num num_truthy_num
  Math_floor_num Math_ceil_num Q_is_int_inject : galoy_simpl.

(** An integer number is the literal of the bigint it converts to. *)
Lemma BigInt_Some x z : BigInt x = Some z <->
  exists q, x = Fin q /\ (q == inject_Z z)%Q.
Proof.
  unfold BigInt, Q_is_int. split.
  - destruct x as [| |q]; [done..|]. destruct (Qeq_bool _ _) eqn:E; [|done].
    intros [= <-]. exists q. split; [done|]. by apply Qeq_bool_iff.
  - intros (q & -> & Hq).
    assert (Qfloor q = z) as -> by (rewrite <- (Qfloor_Z z); by apply Qfloor_comp).
    by rewrite (proj2 (Qeq_bool_iff _ _) Hq).
Qed.

(** ** Rounding below a safe integer *)

Lemma floor_log2_lower n den k : 0 < n -> 0 < den -> 0 <= k ->
  k <= floor_log2 n den -> 2 ^ k * den <= n.
Proof.
  intros Hn Hd Hk. unfold floor_log2.
  pose proof (Z.log2_spec n Hn) as [Ln _]. pose proof (Z.log2_spec den Hd) as [_ Ld].
  set (j := Z.log2 n - Z.log2 den) in *.
  assert (Hlow : 0 <= j - 1 -> 2 ^ (j - 1) * den <= n).
  { intros Hj. rewrite <- Z.add_1_r, Z.pow_add_r in Ld by (try apply Z.log2_nonneg; lia).
    assert (2 ^ (j - 1) * 2 ^ Z.log2 den * 2 = 2 ^ Z.log2 n) as E.
    { rewrite <- !Z.pow_add_r by (try apply Z.log2_nonneg; lia).
      replace 2 with (2 ^ 1) at 2 by done.
      rewrite <- Z.pow_add_r by (pose proof (Z.log2_nonneg den); lia).
      f_equal. subst j. lia. }
    pose proof (Z.pow_pos_nonneg 2 (j - 1) ltac:(lia) Hj). nia. }
  intros Hkl.
  assert (Hmono : forall i, k <= i -> 0 <= i -> 2 ^ i * den <= n -> 2 ^ k * den <= n).
  { intros i Hi Hi0 H. transitivity (2 ^ i * den); [|done].
    apply Z.mul_le_mono_nonneg_r; [lia|]. apply Z.pow_le_mono_r; lia. }
  destruct (0 <=? j) eqn:E; bool_prop.
  - destruct (Z.shiftl den j <=? n) eqn:E2; bool_prop.
    + apply (Hmono j); [done..|]. rewrite Z.shiftl_mul_pow2 in E2 by done. lia.
    + apply (Hmono (j - 1)); [done|lia|]. apply Hlow. lia.
  - exfalso. destruct (den <=? _); lia.
Qed.

Lemma div_half_even_le n den z : 0 < den -> n <= z * den -> div_half_even n den <= z.
Proof.
  intros Hd H. unfold div_half_even.
  pose proof (Z.div_mod n den ltac:(lia)) as E. pose proof (Z.mod_pos_bound n den Hd).
  destruct (_ || _) eqn:C; [nia|]. bool_prop. nia.
Qed.

Lemma div_half_even_nonneg n den : 0 < den -> 0 <= n -> 0 <= div_half_even n den.
Proof.
  intros Hd H. unfold div_half_even. pose proof (Z.div_pos n den H Hd).
  destruct (_ || _); lia.
Qed.

(** A non-negative rational below a safe integer rounds to a finite number
    between zero and that integer. *)
Lemma round64_le_safe q z : (0 <= q)%Q -> (q <= inject_Z z)%Q -> safe z ->
  exists v, round64 q = Fin v /\ (0 <= v)%Q /\ (v <= inject_Z z)%Q.
Proof.
  intros Hq0 Hqz Hs. destruct q as [n d]. unfold Qle in Hq0, Hqz. simpl in Hq0, Hqz.
  unfold round64. simpl Qnum. simpl Qden.
  destruct (n =? 0) eqn:Hn; bool_prop.
  { exists (inject_Z 0). split; [done|]. unfold Qle. simpl. lia. }
  set (u := ulp_exponent (Z.abs n) (Zpos d)).
  assert (Hbound : forall v : Q, (0 <= v)%Q -> (v <= inject_Z z)%Q ->
    exists v', (if Qle_bool (inject_Z (2 ^ max_exponent)) (Qabs v) then Inf (n <? 0)
                else Fin v) = Fin v' /\ (0 <= v')%Q /\ (v' <= inject_Z z)%Q).
  { intros v Hv0 Hvz. exists v. destruct (Qle_bool _ _) eqn:E; [|done]. exfalso.
    apply Qle_bool_iff in E. rewrite Qabs_pos in E by done.
    pose proof (Qle_trans _ _ _ E Hvz) as H. unfold Qle in H. simpl in H.
    unfold safe in Hs.
    assert (2 ^ significand_bits < 2 ^ max_exponent) by
      (apply Z.pow_lt_mono_r; unfold significand_bits, max_exponent; lia). lia. }
  apply Hbound; clear Hbound; destruct (0 <=? u) eqn:Hu; bool_prop.
  - rewrite !Z.shiftl_mul_pow2 by done.
    pose proof (Z.pow_pos_nonneg 2 u ltac:(lia) Hu).
    pose proof (div_half_even_nonneg n (Zpos d * 2 ^ u) ltac:(lia) ltac:(lia)).
    unfold Qle. simpl. nia.
  - setoid_rewrite Qred_correct. unfold Qle. simpl.
    rewrite !Z.shiftl_mul_pow2 by lia.
    pose proof (Z.pow_pos_nonneg 2 (- u) ltac:(lia) ltac:(lia)).
    pose proof (div_half_even_nonneg (n * 2 ^ (- u)) (Zpos d) ltac:(lia) ltac:(nia)). lia.
  - rewrite !Z.shiftl_mul_pow2 by done.
    destruct (decide (u = 0)) as [->|Hu1].
    + rewrite !Z.mul_1_r. unfold Qle. simpl. rewrite !Z.mul_1_r.
      apply div_half_even_le; lia.
    + assert (2 ^ 53 * Zpos d <= n) as Hbig.
      { apply (floor_log2_lower n (Zpos d) 53); [lia..|].
        unfold u, ulp_exponent, significand_bits, min_exponent in *.
        rewrite (Z.abs_eq n) in * by lia. lia. }
      unfold safe, significand_bits in Hs.
      assert (z = 2 ^ 53 /\ n = 2 ^ 53 * Zpos d) as [-> ->] by nia.
      assert (u = 1) as ->.
      { assert (~ 54 <= floor_log2 (2 ^ 53 * Zpos d) (Zpos d)).
        { intros H. apply floor_log2_lower in H; lia. }
        unfold u, ulp_exponent, significand_bits, min_exponent in *.
        rewrite (Z.abs_eq (2 ^ 53 * _)) in * by lia. lia. }
      replace (2 ^ 53 * Zpos d) with (2 ^ 52 * (Zpos d * 2 ^ 1)) by lia.
      rewrite div_half_even_exact by lia. done.
  - setoid_rewrite Qred_correct. unfold Qle. simpl.
    rewrite !Z.shiftl_mul_pow2, Z.mul_1_l by lia.
    pose proof (Z.pow_pos_nonneg 2 (- u) ltac:(lia) ltac:(lia)).
    rewrite Z2Pos.id by lia. rewrite Z.mul_1_r. apply div_half_even_le; [lia|]. nia.
Qed.

(** ** Relative error of the rounding *)

Lemma floor_log2_lower_neg n den : 0 < n -> 0 < den -> floor_log2 n den < 0 ->
  den <= n * 2 ^ (- floor_log2 n den).
Proof.
  intros Hn Hd. unfold floor_log2.
  pose proof (Z.log2_spec n Hn) as [Ln _]. pose proof (Z.log2_spec den Hd) as [_ Ld].
  set (j := Z.log2 n - Z.log2 den) in *.
  assert (Hlow : j - 1 < 0 -> den <= n * 2 ^ (- (j - 1))).
  { intros Hj. rewrite <- Z.add_1_r in Ld.
    assert (2 ^ (Z.log2 den + 1) = 2 ^ Z.log2 n * 2 ^ (- (j - 1))) as E.
    { rewrite <- Z.pow_add_r by (try apply Z.log2_nonneg; lia). f_equal. subst j. lia. }
    pose proof (Z.pow_pos_nonneg 2 (- (j - 1)) ltac:(lia) ltac:(lia)). nia. }
  destruct (0 <=? j) eqn:E; bool_prop.
  - destruct (Z.shiftl den j <=? n) eqn:E2; bool_prop; [lia|]. intros H. by apply Hlow.
  - destruct (den <=? Z.shiftl n (- j)) eqn:E2; bool_prop; intros H; [|by apply Hlow].
    rewrite Z.shiftl_mul_pow2 in E2 by lia. done.
Qed.

Lemma floor_log2_ge n den k : 0 < n -> 0 < den -> 0 <= k -> den <= n * 2 ^ k ->
  - k - 1 <= floor_log2 n den.
Proof.
  intros Hn Hd Hk H. pose proof (Z.log2_le_mono _ _ H) as Hl.
  rewrite Z.log2_mul_pow2 in Hl by lia. unfold floor_log2.
  repeat case_match; bool_prop; lia.
Qed.

Lemma div_half_even_near n den : 0 < den -> 2 * Z.abs (div_half_even n den * den - n) <= den.
Proof.
  intros Hd. unfold div_half_even.
  pose proof (Z.div_mod n den ltac:(lia)) as E. pose proof (Z.mod_pos_bound n den Hd).
  destruct (_ || _) eqn:C.
  - apply orb_true_iff in C as [C|C]; bool_prop; nia.
  - bool_prop. nia.
Qed.

(** Between [2 ^ -100] and [2 ^ 52] the rounding is off by at most half a unit
    in the last place: a relative error of [2 ^ -53]. *)
Lemma round64_relative_error n d : 0 < n -> n < 2 ^ 52 * Zpos d -> Zpos d <= n * 2 ^ 100 ->
  exists v, round64 (n # d) = Fin v /\ (Qabs (v - (n # d)) <= (n # d) * (1 # 2 ^ 53))%Q.
Proof.
  intros Hn Hhi Hlo. unfold round64. simpl Qnum. simpl Qden.
  rewrite (proj2 (Z.eqb_neq n 0)) by lia. rewrite Z.abs_eq by lia.
  set (e := floor_log2 n (Zpos d)).
  assert (He1 : e <= 51).
  { destruct (Z.le_gt_cases e 51); [done|]. exfalso.
    pose proof (floor_log2_lower n (Zpos d) 52 Hn ltac:(lia) ltac:(lia) ltac:(fold e; lia)). lia. }
  pose proof (floor_log2_ge n (Zpos d) 100 Hn ltac:(lia) ltac:(lia) Hlo) as He2. fold e in He2.
  assert (ulp_exponent n (Zpos d) = e - 52) as ->.
  { unfold ulp_exponent, significand_bits, min_exponent. fold e. lia. }
  rewrite (proj2 (Z.leb_gt 0 (e - 52))) by lia. replace (- (e - 52)) with (52 - e) by lia.
  rewrite !Z.shiftl_mul_pow2, Z.mul_1_l by lia.
  pose proof (Z.pow_pos_nonneg 2 (52 - e) ltac:(lia) ltac:(lia)) as Hp.
  set (p := 2 ^ (52 - e)) in *.
  assert (Hnorm : 2 ^ 52 * Zpos d <= n * p).
  { destruct (Z.le_gt_cases 0 e) as [H0|H0].
    - pose proof (floor_log2_lower n (Zpos d) e Hn ltac:(lia) H0 ltac:(lia)).
      assert (2 ^ e * p = 2 ^ 52) by (unfold p; rewrite <- Z.pow_add_r by lia; f_equal; lia).
      nia.
    - pose proof (floor_log2_lower_neg n (Zpos d) Hn ltac:(lia) H0) as H. fold e in H.
      assert (p = 2 ^ (- e) * 2 ^ 52) as -> by (unfold p; rewrite <- Z.pow_add_r by lia; f_equal; lia).
      nia. }
  pose proof (div_half_even_near (n * p) (Zpos d) ltac:(lia)) as Hm.
  pose proof (div_half_even_nonneg (n * p) (Zpos d) ltac:(lia) ltac:(nia)) as Hm0.
  set (m := div_half_even (n * p) (Zpos d)) in *.
  assert (Hmp : m <= 2 ^ 52 * p) by (apply div_half_even_le; nia).
  clearbody m p. exists (Qred (m # Z.to_pos p)). split.
  - destruct (Qle_bool _ _) eqn:E; [|done]. exfalso. apply Qle_bool_iff in E.
    rewrite Qabs_pos in E by (rewrite Qred_correct; unfold Qle; simpl; lia).
    rewrite Qred_correct in E. unfold Qle in E. cbn [Qnum Qden inject_Z] in E.
    rewrite Z2Pos.id, Z.mul_1_r in E by lia.
    assert (2 ^ 52 < 2 ^ max_exponent) by (apply Z.pow_lt_mono_r; unfold max_exponent; lia).
    nia.
  - rewrite Qred_correct. unfold Qle, Qabs, Qminus, Qplus, Qopp, Qmult. cbn [Qnum Qden].
    rewrite !Pos2Z.inj_mul, Z2Pos.id by lia.
    change (Zpos (2 ^ 53)) with (2 ^ 53). rewrite Z.mul_1_r.
    replace (m * Zpos d + - n * p) with (m * Zpos d - n * p) by lia.
    assert (Habs : 2 ^ 53 * Z.abs (m * Zpos d - n * p) <= n * p) by lia.
    nia.
Qed.

(** ** Signs *)

(** Not negative, when it is a number. *)
Definition nonneg (x : number) : Prop :=
  match x with NaN => True | Inf neg => neg = false | Fin q => (0 <= q)%Q end.

Lemma round64_nonneg q : (0 <= q)%Q -> nonneg (round64 q).
Proof.
  intros Hq. assert (Hn : 0 <= Qnum q) by (unfold Qle in Hq; simpl in Hq; lia).
  unfold round64. destruct (Qnum q =? 0) eqn:Hz; [by unfold Qle; simpl|]. bool_prop.
  set (u := ulp_exponent _ _).
  assert (Hs : 0 < Z.shiftl 1 (- u) \/ 0 <= u) by (destruct (Z.leb_spec 0 u); [by right|left;
    rewrite Z.shiftl_1_l; apply Z.pow_pos_nonneg; lia]).
  match goal with |- nonneg (if Qle_bool _ (Qabs ?v) then _ else _) => assert (Hv : (0 <= v)%Q) end.
  { destruct (0 <=? u) eqn:Hu; bool_prop.
    - change 0%Q with (inject_Z 0). rewrite <- Zle_Qle. apply Z.shiftl_nonneg, div_half_even_nonneg; [|done].
      rewrite Z.shiftl_mul_pow2 by done. assert (0 < 2 ^ u) by (apply Z.pow_pos_nonneg; lia). lia.
    - rewrite Qred_correct. unfold Qle. simpl. rewrite Z.mul_1_r.
      apply div_half_even_nonneg; [lia|]. by apply Z.shiftl_nonneg. }
  destruct (Qle_bool _ _); [|exact Hv]. simpl. destruct (Z.ltb_spec (Qnum q) 0); [lia|done].
Qed.

Lemma num_mul_nonneg x y : nonneg x -> nonneg y -> nonneg (num_mul x y).
Proof.
  assert (Hneg : forall q, (0 <= q)%Q -> Q_neg q = false).
  { intros q Hq. unfold Q_neg, Qle in *. simpl in Hq. destruct (Z.ltb_spec (Qnum q) 0); [lia|done]. }
  destruct x as [|a|p], y as [|b|q]; simpl; intros Hx Hy; subst; try done.
  - case_match; [done|]. simpl. by rewrite Hneg.
  - case_match; [done|]. simpl. by rewrite Hneg.
  - apply round64_nonneg. by apply Qmult_le_0_compat.
Qed.

Lemma num_div_nonneg x (z : Z) : nonneg x -> 0 < z -> nonneg (num_div x (num z)).
Proof.
  intros Hx Hz. destruct x as [|a|p]; simpl in *; [done| |].
  - subst. unfold Q_neg. simpl. destruct (Z.ltb_spec z 0); [lia|done].
  - destruct (Qeq_bool (inject_Z z) 0) eqn:He.
    + apply Qeq_bool_eq in He. unfold Qeq in He. simpl in He. lia.
    + apply round64_nonneg. apply Qle_shift_div_l; [change 0%Q with (inject_Z 0); by rewrite <- Zlt_Qlt|].
      by rewrite Qmult_0_l.
Qed.

Lemma num_ltb_nonneg x : num_ltb (num 0) x = true -> nonneg x.
Proof.
  destruct x as [|[]|q]; simpl; try done. destruct (Qle_bool q (inject_Z 0)) eqn:He; [done|]. intros _.
  apply Qnot_lt_le. intros Hl. assert (Hc : Qle_bool q (inject_Z 0) = true) by (apply Qle_bool_iff; by apply Qlt_le_weak).
  by rewrite Hc in He.
Qed.

Lemma BigInt_floor_nonneg x z : nonneg x -> BigInt (Math_floor x) = Some z -> 0 <= z.
Proof.
  destruct x as [|a|q]; intros Hx; [done..|]. cbn [Math_floor]. rewrite BigInt_num. intros [= <-].
  change 0 with (Qfloor 0). by apply Qfloor_resp_le.
Qed.

Lemma nonneg_num z : 0 <= z -> nonneg (num z).
Proof. intros Hz. simpl. change 0%Q with (inject_Z 0). by rewrite <- Zle_Qle. Qed.
