(* ===== verification/Errors.v ===== *)
(** * Error classes

    Every function of the back end reports failure by returning an [Error]
    object whose class says what happened; callers test it with [instanceof]
    and the GraphQL layer with its [name].  This file has the classes declared
    by the [errors.js] files of [lib/domain] and by
    [lib/services/ledger/domain/errors.js]: their [extends] clauses, the level
    a constructor sets, [instanceof], and the level of a freshly built error.

    The two classes the ledger facade redeclares under a name of
    [lib/domain/ledger/errors.js] carry the prefix [Facade_]. *)

From S2P Require Import Prelude.

(** The classes, with the built-in ones the code raises or catches. *)
Inductive ErrClass : Type :=
| JsError | JsRangeError | JsSyntaxError | JsTypeError
(* config/error.js *)
| ConfigError
(* domain/shared/errors.js *)
| DomainError | ValidationError | SafeWrapperError | BigIntConversionError
| BigIntFloatConversionError | UnknownBigIntConversionError
| BtcAmountTooLargeError | UsdAmountTooLargeError
(* domain/errors.js *)
| InconsistentDataError | AuthorizationError | RepositoryError
| UnknownRepositoryError | PersistError | DuplicateError
| BadInputsForFindError | CouldNotFindError | CannotConnectToDbError
| DbConnectionClosedError | CouldNotFindWalletInvoiceError
| CouldNotFindUserError | CouldNotFindUserFromIdError
| CouldNotFindUserFromPhoneError | CouldNotFindUserFromWalletIdError
| CouldNotFindPhoneCodeError | CouldNotFindWalletFromIdError
| CouldNotListWalletsFromAccountIdError | CouldNotFindWalletFromUsernameError
| CouldNotFindWalletFromUsernameAndCurrencyError
| CouldNotFindWalletFromOnChainAddressError
| CouldNotFindWalletFromOnChainAddressesError
| CouldNotListWalletsFromWalletCurrencyError | NoTransactionToUpdateError
| CouldNotFindLightningPaymentFlowError
| CouldNotUpdateLightningPaymentFlowError
| NoExpiredLightningPaymentFlowsError | CouldNotFindBtcWalletForAccountError
| CouldNotFindLnPaymentFromHashError | CouldNotFindAccountFromUsernameError
| CouldNotFindAccountFromPhoneError | CouldNotFindTransactionsForAccountError
| CouldNotFindAccountFromKratosIdError | RewardAlreadyPresentError
| NotImplementedError | NotReachableError | InvalidNegativeAmountError
| MissingPhoneError | ContactNotExistentError | InvalidWithdrawFeeError
| InvalidCurrencyBaseAmountError | InvalidSatoshiAmountError | InvalidUsdCents
| NonIntegerError | InvalidOnChainAddress | InvalidPubKeyError
| InvalidScanDepthAmount | SatoshiAmountRequiredError | InvalidUsername
| InvalidContactAlias | InvalidCoordinatesError
| InvalidBusinessTitleLengthError | InvalidPhoneNumber | InvalidKratosUserId
| InvalidEmailAddress | InvalidWalletId | InvalidLedgerTransactionId
| InvalidLedgerTransactionStateError | AlreadyPaidError | SelfPaymentError
| LessThanDustThresholdError | InsufficientBalanceError
| InvalidCurrencyForWalletError | BalanceLessThanZeroError
| InvalidTargetConfirmations | NoContactForUsernameError
| NoWalletExistsForUserError | NoBtcWalletExistsForAccountError
| RebalanceNeededError | InvalidQuizQuestionIdError
| MissingPhoneMetadataError | InvalidPhoneMetadataTypeError
| InvalidPhoneMetadataCountryError | InvalidPhoneMetadataForRewardError
| MissingIPMetadataError | InvalidIPMetadataProxyError
| InvalidIPMetadataCountryError | InvalidIPMetadataASNError
| InvalidIPMetadataForRewardError | InvalidLanguageError
| InvalidAccountLevelError | LimitsExceededError
| WithdrawalLimitsExceededError | IntraledgerLimitsExceededError
| TradeIntraAccountLimitsExceededError | TwoFALimitsExceededError
| LnRouteValidationError | BadAmountForRouteError | InvalidAccountStatusError
| InactiveAccountError | InvalidNonHodlInvoiceError
(* domain/accounts/errors.js *)
| AccountError | UsernameNotAvailableError | UsernameIsImmutableError
| InvalidAccountIdError
(* domain/authentication/errors.js *)
| AuthenticationError | KratosError | LikelyNoUserWithThisPhoneExistError
| LikelyUserAlreadyExistError | AuthenticationKratosError
| MissingExpiredAtKratosError | MissingTotpKratosError
| IncompatibleSchemaUpgradeError | UnknownKratosError
(* domain/bitcoin/lightning/errors.js *)
| LightningError | LnInvoiceDecodeError | LnInvoiceMissingPaymentSecretError
| InvalidChecksumForLnInvoiceError | UnknownLnInvoiceDecodeError
| LightningServiceError | CouldNotDecodeReturnedPaymentRequest
| UnknownLightningServiceError | SecretDoesNotMatchAnyExistingHodlInvoiceError
| InvoiceNotFoundError | LnPaymentPendingError | LnAlreadyPaidError
| OffChainServiceUnavailableError | NoValidNodeForPubkeyError
| PaymentNotFoundError | RouteNotFoundError | UnknownNextPeerError
| InsufficientBalanceForRoutingError | InsufficientBalanceForLnPaymentError
| InvoiceExpiredOrBadPaymentHashError | PaymentAttemptsTimedOutError
| ProbeForRouteTimedOutError | ProbeForRouteTimedOutFromApplicationError
| PaymentInTransitionError | TemporaryChannelFailureError
| InvalidFeeProbeStateError | UnknownRouteNotFoundError | BadPaymentDataError
| CorruptLndDbError
(* domain/bitcoin/onchain/errors.js *)
| OnChainError | TransactionDecodeError | OnChainServiceError
| CPFPAncestorLimitReachedError | InsufficientOnChainFundsError
| UnknownOnChainServiceError | CouldNotFindOnChainTransactionError
| OnChainServiceUnavailableError
(* domain/cache/errors.js *)
| CacheError | CacheServiceError | CacheNotAvailableError
| CacheUndefinedError | UnknownCacheServiceError
(* domain/captcha/errors.js *)
| CaptchaError | CaptchaUserFailToPassError | UnknownCaptchaError
(* domain/cold-storage/errors.js *)
| ColdStorageError | ColdStorageServiceError
| InvalidCurrentColdStorageWalletServiceError
| InsufficientBalanceForRebalanceError | InvalidOrNonWalletTransactionError
| UnknownColdStorageServiceError
(* domain/dealer-price/errors.js *)
| DealerPriceError | DealerPriceServiceError | DealerPriceNotAvailableError
| NoConnectionToDealerError | DealerStalePriceError
| UnknownDealerPriceServiceError
(* domain/ipfetcher/errors.js *)
| IpFetcherError | IpFetcherServiceError | UnknownIpFetcherServiceError
(* domain/ledger/errors.js *)
| LedgerError | LedgerServiceError | FeeDifferenceError
| NoTransactionToSettleError | UnknownLedgerError
| CouldNotFindTransactionError | CouldNotFindTransactionMetadataError
(* domain/lock/errors.js *)
| LockError | LockServiceError | ResourceAttemptsLockServiceError
| ResourceExpiredLockServiceError | UnknownLockServiceError
(* domain/notifications/errors.js *)
| NotificationsError | NotificationsServiceError
| InvalidDeviceNotificationsServiceError | UnknownNotificationsServiceError
(* domain/oathkeeper/errors.js *)
| OathkeeperError | OathkeeperUnauthorizedServiceError
| OathkeeperMissingAuthorizationHeaderError | OathkeeperForbiddenServiceError
| UnknownOathkeeperServiceError
(* domain/payments/errors.js *)
| InvalidBtcPaymentAmountError | InvalidUsdPaymentAmountError
| InvalidZeroAmountPriceRatioInputError | ZeroAmountForUsdRecipientError
| LnPaymentRequestNonZeroAmountRequiredError
| LnPaymentRequestZeroAmountRequiredError | LnPaymentRequestInTransitError
| LnHashPresentInIntraLedgerFlowError | IntraLedgerHashPresentInLnFlowError
| SkipProbeForPubkeyError | NonLnPaymentTransactionForPaymentFlowError
| MissingPropsInTransactionForPaymentFlowError
| InvalidLightningPaymentFlowBuilderStateError
| InvalidLightningPaymentFlowStateError
(* domain/phone-provider/errors.js *)
| PhoneProviderServiceError | InvalidPhoneNumberPhoneProviderError
| RestrictedRegionPhoneProviderError | UnsubscribedRecipientPhoneProviderError
| PhoneProviderConnectionError | UnknownPhoneProviderServiceError
(* domain/price/errors.js *)
| PriceError | PriceServiceError | PriceNotAvailableError
| PriceHistoryNotAvailableError | UnknownPriceServiceError
(* domain/pubsub/errors.js *)
| PubSubError | PubSubServiceError | UnknownPubSubError
(* domain/rate-limit/errors.js *)
| RateLimitError | RateLimitServiceError | UnknownRateLimitServiceError
| RateLimiterExceededError | UserPhoneCodeAttemptPhoneRateLimiterExceededError
| UserPhoneCodeAttemptPhoneMinIntervalRateLimiterExceededError
| UserPhoneCodeAttemptIpRateLimiterExceededError
| UserLoginIpRateLimiterExceededError | UserLoginPhoneRateLimiterExceededError
| InvoiceCreateRateLimiterExceededError
| InvoiceCreateForRecipientRateLimiterExceededError
| OnChainAddressCreateRateLimiterExceededError
(* domain/swap/errors.js *)
| SwapError | NoOutboundLiquidityForSwapError | SwapTriggerError
| SwapServiceError | SwapClientNotResponding | SwapErrorNoActiveLoopdNode
| SwapErrorHealthCheckFailed | SwapErrorChannelBalanceTooLow
| UnknownSwapServiceError
(* domain/wallet-invoices/errors.js *)
| InvalidWalletInvoiceBuilderStateError
(* services/ledger/domain/errors.js *)
| LedgerFacadeError | Facade_NoTransactionToSettleError
| Facade_UnknownLedgerError
.

(** [ErrorLevel] of [domain/shared/errors.js], in the order of
    [RankedErrorLevel]. *)
Inductive ErrorLevel : Type := Info | Warn | Critical.

Definition RankedErrorLevel : list ErrorLevel := [Info; Warn; Critical].

(** A class declaration: the class it extends and what its constructor does to
    [this.level] after the call of [super]. *)
Inductive level_effect : Type := inherited | sets_level (l : ErrorLevel).

Record class_decl : Type := extends {
  superclass : ErrClass;
  constructor_level : level_effect
}.

(** Classes of [domain/shared/errors.js]. *)
Definition shared_errors (c : ErrClass) : option class_decl :=
  match c with
  | DomainError => Some (extends JsError (sets_level Info))
  | ValidationError => Some (extends DomainError inherited)
  | SafeWrapperError => Some (extends DomainError (sets_level Critical))
  | BigIntConversionError => Some (extends SafeWrapperError inherited)
  | BigIntFloatConversionError => Some (extends BigIntConversionError inherited)
  | UnknownBigIntConversionError => Some (extends BigIntConversionError (sets_level Critical))
  | BtcAmountTooLargeError => Some (extends ValidationError inherited)
  | UsdAmountTooLargeError => Some (extends ValidationError inherited)
  | _ => None
  end.

(** Classes of [domain/errors.js], part 1. *)
Definition domain_errors_1 (c : ErrClass) : option class_decl :=
  match c with
  | InconsistentDataError => Some (extends DomainError inherited)
  | AuthorizationError => Some (extends DomainError inherited)
  | RepositoryError => Some (extends DomainError inherited)
  | UnknownRepositoryError => Some (extends RepositoryError (sets_level Critical))
  | PersistError => Some (extends RepositoryError inherited)
  | DuplicateError => Some (extends RepositoryError inherited)
  | BadInputsForFindError => Some (extends RepositoryError inherited)
  | CouldNotFindError => Some (extends RepositoryError inherited)
  | CannotConnectToDbError => Some (extends RepositoryError (sets_level Critical))
  | DbConnectionClosedError => Some (extends RepositoryError (sets_level Critical))
  | CouldNotFindWalletInvoiceError => Some (extends CouldNotFindError inherited)
  | CouldNotFindUserError => Some (extends CouldNotFindError inherited)
  | CouldNotFindUserFromIdError => Some (extends CouldNotFindError inherited)
  | CouldNotFindUserFromPhoneError => Some (extends CouldNotFindError inherited)
  | CouldNotFindUserFromWalletIdError => Some (extends CouldNotFindError inherited)
  | CouldNotFindPhoneCodeError => Some (extends CouldNotFindError inherited)
  | CouldNotFindWalletFromIdError => Some (extends CouldNotFindError inherited)
  | CouldNotListWalletsFromAccountIdError => Some (extends CouldNotFindError inherited)
  | CouldNotFindWalletFromUsernameError => Some (extends CouldNotFindError inherited)
  | CouldNotFindWalletFromUsernameAndCurrencyError => Some (extends CouldNotFindError inherited)
  | CouldNotFindWalletFromOnChainAddressError => Some (extends CouldNotFindError inherited)
  | CouldNotFindWalletFromOnChainAddressesError => Some (extends CouldNotFindError inherited)
  | CouldNotListWalletsFromWalletCurrencyError => Some (extends CouldNotFindError inherited)
  | NoTransactionToUpdateError => Some (extends CouldNotFindError inherited)
  | CouldNotFindLightningPaymentFlowError => Some (extends CouldNotFindError inherited)
  | CouldNotUpdateLightningPaymentFlowError => Some (extends CouldNotFindError inherited)
  | NoExpiredLightningPaymentFlowsError => Some (extends CouldNotFindError inherited)
  | CouldNotFindBtcWalletForAccountError => Some (extends CouldNotFindError (sets_level Critical))
  | CouldNotFindLnPaymentFromHashError => Some (extends CouldNotFindError (sets_level Critical))
  | CouldNotFindAccountFromUsernameError => Some (extends CouldNotFindError inherited)
  | CouldNotFindAccountFromPhoneError => Some (extends CouldNotFindError inherited)
  | CouldNotFindTransactionsForAccountError => Some (extends CouldNotFindError inherited)
  | CouldNotFindAccountFromKratosIdError => Some (extends CouldNotFindError inherited)
  | RewardAlreadyPresentError => Some (extends DomainError inherited)
  | NotImplementedError => Some (extends DomainError inherited)
  | NotReachableError => Some (extends DomainError inherited)
  | InvalidNegativeAmountError => Some (extends DomainError inherited)
  | MissingPhoneError => Some (extends DomainError inherited)
  | ContactNotExistentError => Some (extends DomainError inherited)
  | InvalidWithdrawFeeError => Some (extends ValidationError inherited)
  | InvalidCurrencyBaseAmountError => Some (extends ValidationError inherited)
  | InvalidSatoshiAmountError => Some (extends ValidationError inherited)
  | InvalidUsdCents => Some (extends ValidationError inherited)
  | _ => None
  end.

(** Classes of [domain/errors.js], part 2. *)
Definition domain_errors_2 (c : ErrClass) : option class_decl :=
  match c with
  | NonIntegerError => Some (extends ValidationError inherited)
  | InvalidOnChainAddress => Some (extends ValidationError inherited)
  | InvalidPubKeyError => Some (extends ValidationError inherited)
  | InvalidScanDepthAmount => Some (extends ValidationError inherited)
  | SatoshiAmountRequiredError => Some (extends ValidationError inherited)
  | InvalidUsername => Some (extends ValidationError inherited)
  | InvalidContactAlias => Some (extends ValidationError inherited)
  | InvalidCoordinatesError => Some (extends ValidationError inherited)
  | InvalidBusinessTitleLengthError => Some (extends ValidationError inherited)
  | InvalidPhoneNumber => Some (extends ValidationError inherited)
  | InvalidKratosUserId => Some (extends ValidationError inherited)
  | InvalidEmailAddress => Some (extends ValidationError inherited)
  | InvalidWalletId => Some (extends ValidationError inherited)
  | InvalidLedgerTransactionId => Some (extends ValidationError inherited)
  | InvalidLedgerTransactionStateError => Some (extends ValidationError inherited)
  | AlreadyPaidError => Some (extends ValidationError inherited)
  | SelfPaymentError => Some (extends ValidationError inherited)
  | LessThanDustThresholdError => Some (extends ValidationError inherited)
  | InsufficientBalanceError => Some (extends ValidationError inherited)
  | InvalidCurrencyForWalletError => Some (extends ValidationError inherited)
  | BalanceLessThanZeroError => Some (extends ValidationError inherited)
  | InvalidTargetConfirmations => Some (extends ValidationError inherited)
  | NoContactForUsernameError => Some (extends ValidationError inherited)
  | NoWalletExistsForUserError => Some (extends ValidationError inherited)
  | NoBtcWalletExistsForAccountError => Some (extends ValidationError inherited)
  | RebalanceNeededError => Some (extends ValidationError inherited)
  | InvalidQuizQuestionIdError => Some (extends ValidationError inherited)
  | MissingPhoneMetadataError => Some (extends ValidationError inherited)
  | InvalidPhoneMetadataTypeError => Some (extends ValidationError inherited)
  | InvalidPhoneMetadataCountryError => Some (extends ValidationError inherited)
  | InvalidPhoneMetadataForRewardError => Some (extends ValidationError inherited)
  | MissingIPMetadataError => Some (extends ValidationError inherited)
  | InvalidIPMetadataProxyError => Some (extends ValidationError inherited)
  | InvalidIPMetadataCountryError => Some (extends ValidationError inherited)
  | InvalidIPMetadataASNError => Some (extends ValidationError inherited)
  | InvalidIPMetadataForRewardError => Some (extends ValidationError inherited)
  | InvalidLanguageError => Some (extends ValidationError inherited)
  | InvalidAccountLevelError => Some (extends ValidationError inherited)
  | LimitsExceededError => Some (extends ValidationError inherited)
  | WithdrawalLimitsExceededError => Some (extends LimitsExceededError inherited)
  | IntraledgerLimitsExceededError => Some (extends LimitsExceededError inherited)
  | TradeIntraAccountLimitsExceededError => Some (extends LimitsExceededError inherited)
  | TwoFALimitsExceededError => Some (extends LimitsExceededError inherited)
  | LnRouteValidationError => Some (extends ValidationError inherited)
  | BadAmountForRouteError => Some (extends LnRouteValidationError inherited)
  | InvalidAccountStatusError => Some (extends ValidationError inherited)
  | InactiveAccountError => Some (extends InvalidAccountStatusError inherited)
  | InvalidNonHodlInvoiceError => Some (extends ValidationError (sets_level Critical))
  | _ => None
  end.

(** Classes of [domain/accounts/errors.js]. *)
Definition accounts_errors (c : ErrClass) : option class_decl :=
  match c with
  | AccountError => Some (extends DomainError inherited)
  | UsernameNotAvailableError => Some (extends AccountError inherited)
  | UsernameIsImmutableError => Some (extends AccountError inherited)
  | InvalidAccountIdError => Some (extends AccountError inherited)
  | _ => None
  end.

(** Classes of [domain/authentication/errors.js]. *)
Definition authentication_errors (c : ErrClass) : option class_decl :=
  match c with
  | AuthenticationError => Some (extends DomainError inherited)
  | KratosError => Some (extends AuthenticationError inherited)
  | LikelyNoUserWithThisPhoneExistError => Some (extends KratosError inherited)
  | LikelyUserAlreadyExistError => Some (extends KratosError inherited)
  | AuthenticationKratosError => Some (extends KratosError inherited)
  | MissingExpiredAtKratosError => Some (extends KratosError (sets_level Critical))
  | MissingTotpKratosError => Some (extends KratosError (sets_level Critical))
  | IncompatibleSchemaUpgradeError => Some (extends KratosError (sets_level Critical))
  | UnknownKratosError => Some (extends KratosError (sets_level Critical))
  | _ => None
  end.

(** Classes of [domain/bitcoin/lightning/errors.js]. *)
Definition lightning_errors (c : ErrClass) : option class_decl :=
  match c with
  | LightningError => Some (extends DomainError inherited)
  | LnInvoiceDecodeError => Some (extends LightningError inherited)
  | LnInvoiceMissingPaymentSecretError => Some (extends LnInvoiceDecodeError inherited)
  | InvalidChecksumForLnInvoiceError => Some (extends LnInvoiceDecodeError inherited)
  | UnknownLnInvoiceDecodeError => Some (extends LnInvoiceDecodeError (sets_level Critical))
  | LightningServiceError => Some (extends LightningError inherited)
  | CouldNotDecodeReturnedPaymentRequest => Some (extends LightningServiceError inherited)
  | UnknownLightningServiceError => Some (extends LightningServiceError (sets_level Critical))
  | SecretDoesNotMatchAnyExistingHodlInvoiceError => Some (extends LightningServiceError (sets_level Critical))
  | InvoiceNotFoundError => Some (extends LightningServiceError inherited)
  | LnPaymentPendingError => Some (extends LightningServiceError inherited)
  | LnAlreadyPaidError => Some (extends LightningServiceError inherited)
  | OffChainServiceUnavailableError => Some (extends LightningServiceError (sets_level Critical))
  | NoValidNodeForPubkeyError => Some (extends LightningServiceError (sets_level Critical))
  | PaymentNotFoundError => Some (extends LightningServiceError inherited)
  | RouteNotFoundError => Some (extends LightningServiceError inherited)
  | UnknownNextPeerError => Some (extends LightningServiceError inherited)
  | InsufficientBalanceForRoutingError => Some (extends LightningServiceError inherited)
  | InsufficientBalanceForLnPaymentError => Some (extends LightningServiceError inherited)
  | InvoiceExpiredOrBadPaymentHashError => Some (extends LightningServiceError inherited)
  | PaymentAttemptsTimedOutError => Some (extends LightningServiceError inherited)
  | ProbeForRouteTimedOutError => Some (extends LightningServiceError inherited)
  | ProbeForRouteTimedOutFromApplicationError => Some (extends LightningServiceError inherited)
  | PaymentInTransitionError => Some (extends LightningServiceError inherited)
  | TemporaryChannelFailureError => Some (extends LightningServiceError inherited)
  | InvalidFeeProbeStateError => Some (extends LightningServiceError (sets_level Critical))
  | UnknownRouteNotFoundError => Some (extends LightningServiceError (sets_level Critical))
  | BadPaymentDataError => Some (extends LightningServiceError inherited)
  | CorruptLndDbError => Some (extends LightningServiceError inherited)
  | _ => None
  end.

(** Classes of [domain/bitcoin/onchain/errors.js]. *)
Definition onchain_errors (c : ErrClass) : option class_decl :=
  match c with
  | OnChainError => Some (extends DomainError inherited)
  | TransactionDecodeError => Some (extends OnChainError inherited)
  | OnChainServiceError => Some (extends OnChainError inherited)
  | CPFPAncestorLimitReachedError => Some (extends OnChainServiceError (sets_level Critical))
  | InsufficientOnChainFundsError => Some (extends OnChainServiceError (sets_level Critical))
  | UnknownOnChainServiceError => Some (extends OnChainServiceError (sets_level Critical))
  | CouldNotFindOnChainTransactionError => Some (extends OnChainServiceError inherited)
  | OnChainServiceUnavailableError => Some (extends OnChainServiceError (sets_level Critical))
  | _ => None
  end.

(** Classes of [domain/cache/errors.js]. *)
Definition cache_errors (c : ErrClass) : option class_decl :=
  match c with
  | CacheError => Some (extends DomainError inherited)
  | CacheServiceError => Some (extends CacheError inherited)
  | CacheNotAvailableError => Some (extends CacheServiceError inherited)
  | CacheUndefinedError => Some (extends CacheServiceError inherited)
  | UnknownCacheServiceError => Some (extends CacheServiceError (sets_level Critical))
  | _ => None
  end.

(** Classes of [domain/captcha/errors.js]. *)
Definition captcha_errors (c : ErrClass) : option class_decl :=
  match c with
  | CaptchaError => Some (extends DomainError inherited)
  | CaptchaUserFailToPassError => Some (extends CaptchaError inherited)
  | UnknownCaptchaError => Some (extends CaptchaError (sets_level Critical))
  | _ => None
  end.

(** Classes of [domain/cold-storage/errors.js]. *)
Definition cold_storage_errors (c : ErrClass) : option class_decl :=
  match c with
  | ColdStorageError => Some (extends DomainError inherited)
  | ColdStorageServiceError => Some (extends ColdStorageError inherited)
  | InvalidCurrentColdStorageWalletServiceError => Some (extends ColdStorageServiceError inherited)
  | InsufficientBalanceForRebalanceError => Some (extends ColdStorageServiceError inherited)
  | InvalidOrNonWalletTransactionError => Some (extends ColdStorageServiceError inherited)
  | UnknownColdStorageServiceError => Some (extends ColdStorageServiceError (sets_level Critical))
  | _ => None
  end.

(** Classes of [domain/dealer-price/errors.js]. *)
Definition dealer_price_errors (c : ErrClass) : option class_decl :=
  match c with
  | DealerPriceError => Some (extends DomainError inherited)
  | DealerPriceServiceError => Some (extends DealerPriceError inherited)
  | DealerPriceNotAvailableError => Some (extends DealerPriceServiceError inherited)
  | NoConnectionToDealerError => Some (extends DealerPriceServiceError inherited)
  | DealerStalePriceError => Some (extends DealerPriceServiceError (sets_level Critical))
  | UnknownDealerPriceServiceError => Some (extends DealerPriceServiceError (sets_level Critical))
  | _ => None
  end.

(** Classes of [domain/ipfetcher/errors.js]. *)
Definition ipfetcher_errors (c : ErrClass) : option class_decl :=
  match c with
  | IpFetcherError => Some (extends DomainError inherited)
  | IpFetcherServiceError => Some (extends IpFetcherError inherited)
  | UnknownIpFetcherServiceError => Some (extends IpFetcherError (sets_level Critical))
  | _ => None
  end.

(** Classes of [domain/ledger/errors.js]. *)
Definition ledger_errors (c : ErrClass) : option class_decl :=
  match c with
  | LedgerError => Some (extends DomainError inherited)
  | LedgerServiceError => Some (extends LedgerError inherited)
  | FeeDifferenceError => Some (extends LedgerError inherited)
  | NoTransactionToSettleError => Some (extends LedgerServiceError inherited)
  | UnknownLedgerError => Some (extends LedgerServiceError (sets_level Critical))
  | CouldNotFindTransactionError => Some (extends LedgerError inherited)
  | CouldNotFindTransactionMetadataError => Some (extends CouldNotFindTransactionError inherited)
  | _ => None
  end.

(** Classes of [domain/lock/errors.js]. *)
Definition lock_errors (c : ErrClass) : option class_decl :=
  match c with
  | LockError => Some (extends DomainError inherited)
  | LockServiceError => Some (extends LockError inherited)
  | ResourceAttemptsLockServiceError => Some (extends LockServiceError (sets_level Warn))
  | ResourceExpiredLockServiceError => Some (extends LockServiceError (sets_level Critical))
  | UnknownLockServiceError => Some (extends LockServiceError (sets_level Critical))
  | _ => None
  end.

(** Classes of [domain/notifications/errors.js]. *)
Definition notifications_errors (c : ErrClass) : option class_decl :=
  match c with
  | NotificationsError => Some (extends DomainError inherited)
  | NotificationsServiceError => Some (extends NotificationsError inherited)
  | InvalidDeviceNotificationsServiceError => Some (extends NotificationsServiceError inherited)
  | UnknownNotificationsServiceError => Some (extends NotificationsError (sets_level Critical))
  | _ => None
  end.

(** Classes of [domain/oathkeeper/errors.js]. *)
Definition oathkeeper_errors (c : ErrClass) : option class_decl :=
  match c with
  | OathkeeperError => Some (extends DomainError inherited)
  | OathkeeperUnauthorizedServiceError => Some (extends OathkeeperError inherited)
  | OathkeeperMissingAuthorizationHeaderError => Some (extends OathkeeperError (sets_level Critical))
  | OathkeeperForbiddenServiceError => Some (extends OathkeeperError (sets_level Critical))
  | UnknownOathkeeperServiceError => Some (extends OathkeeperError (sets_level Critical))
  | _ => None
  end.

(** Classes of [domain/payments/errors.js]. *)
Definition payments_errors (c : ErrClass) : option class_decl :=
  match c with
  | InvalidBtcPaymentAmountError => Some (extends ValidationError inherited)
  | InvalidUsdPaymentAmountError => Some (extends ValidationError inherited)
  | InvalidZeroAmountPriceRatioInputError => Some (extends ValidationError inherited)
  | ZeroAmountForUsdRecipientError => Some (extends ValidationError inherited)
  | LnPaymentRequestNonZeroAmountRequiredError => Some (extends ValidationError inherited)
  | LnPaymentRequestZeroAmountRequiredError => Some (extends ValidationError inherited)
  | LnPaymentRequestInTransitError => Some (extends ValidationError inherited)
  | LnHashPresentInIntraLedgerFlowError => Some (extends ValidationError inherited)
  | IntraLedgerHashPresentInLnFlowError => Some (extends ValidationError inherited)
  | SkipProbeForPubkeyError => Some (extends ValidationError inherited)
  | NonLnPaymentTransactionForPaymentFlowError => Some (extends ValidationError (sets_level Critical))
  | MissingPropsInTransactionForPaymentFlowError => Some (extends ValidationError (sets_level Critical))
  | InvalidLightningPaymentFlowBuilderStateError => Some (extends ValidationError (sets_level Critical))
  | InvalidLightningPaymentFlowStateError => Some (extends ValidationError (sets_level Critical))
  | _ => None
  end.

(** Classes of [domain/phone-provider/errors.js]. *)
Definition phone_provider_errors (c : ErrClass) : option class_decl :=
  match c with
  | PhoneProviderServiceError => Some (extends DomainError inherited)
  | InvalidPhoneNumberPhoneProviderError => Some (extends PhoneProviderServiceError inherited)
  | RestrictedRegionPhoneProviderError => Some (extends PhoneProviderServiceError inherited)
  | UnsubscribedRecipientPhoneProviderError => Some (extends PhoneProviderServiceError inherited)
  | PhoneProviderConnectionError => Some (extends PhoneProviderServiceError (sets_level Warn))
  | UnknownPhoneProviderServiceError => Some (extends PhoneProviderServiceError (sets_level Critical))
  | _ => None
  end.

(** Classes of [domain/price/errors.js]. *)
Definition price_errors (c : ErrClass) : option class_decl :=
  match c with
  | PriceError => Some (extends DomainError inherited)
  | PriceServiceError => Some (extends PriceError inherited)
  | PriceNotAvailableError => Some (extends PriceServiceError inherited)
  | PriceHistoryNotAvailableError => Some (extends PriceServiceError inherited)
  | UnknownPriceServiceError => Some (extends PriceServiceError (sets_level Critical))
  | _ => None
  end.

(** Classes of [domain/pubsub/errors.js]. *)
Definition pubsub_errors (c : ErrClass) : option class_decl :=
  match c with
  | PubSubError => Some (extends DomainError inherited)
  | PubSubServiceError => Some (extends PubSubError inherited)
  | UnknownPubSubError => Some (extends PubSubError (sets_level Critical))
  | _ => None
  end.

(** Classes of [domain/rate-limit/errors.js]. *)
Definition rate_limit_errors (c : ErrClass) : option class_decl :=
  match c with
  | RateLimitError => Some (extends DomainError inherited)
  | RateLimitServiceError => Some (extends RateLimitError inherited)
  | UnknownRateLimitServiceError => Some (extends RateLimitServiceError (sets_level Critical))
  | RateLimiterExceededError => Some (extends RateLimitServiceError inherited)
  | UserPhoneCodeAttemptPhoneRateLimiterExceededError => Some (extends RateLimiterExceededError inherited)
  | UserPhoneCodeAttemptPhoneMinIntervalRateLimiterExceededError => Some (extends RateLimiterExceededError inherited)
  | UserPhoneCodeAttemptIpRateLimiterExceededError => Some (extends RateLimiterExceededError inherited)
  | UserLoginIpRateLimiterExceededError => Some (extends RateLimiterExceededError inherited)
  | UserLoginPhoneRateLimiterExceededError => Some (extends RateLimiterExceededError inherited)
  | InvoiceCreateRateLimiterExceededError => Some (extends RateLimiterExceededError inherited)
  | InvoiceCreateForRecipientRateLimiterExceededError => Some (extends RateLimiterExceededError inherited)
  | OnChainAddressCreateRateLimiterExceededError => Some (extends RateLimiterExceededError inherited)
  | _ => None
  end.

(** Classes of [domain/swap/errors.js]. *)
Definition swap_errors (c : ErrClass) : option class_decl :=
  match c with
  | SwapError => Some (extends DomainError inherited)
  | NoOutboundLiquidityForSwapError => Some (extends DomainError inherited)
  | SwapTriggerError => Some (extends SwapError inherited)
  | SwapServiceError => Some (extends SwapError inherited)
  | SwapClientNotResponding => Some (extends SwapServiceError inherited)
  | SwapErrorNoActiveLoopdNode => Some (extends SwapServiceError inherited)
  | SwapErrorHealthCheckFailed => Some (extends SwapServiceError inherited)
  | SwapErrorChannelBalanceTooLow => Some (extends SwapServiceError inherited)
  | UnknownSwapServiceError => Some (extends SwapServiceError (sets_level Critical))
  | _ => None
  end.

(** Classes of [domain/wallet-invoices/errors.js]. *)
Definition wallet_invoices_errors (c : ErrClass) : option class_decl :=
  match c with
  | InvalidWalletInvoiceBuilderStateError => Some (extends ValidationError (sets_level Critical))
  | _ => None
  end.

(** Classes of [services/ledger/domain/errors.js]. *)
Definition facade_errors (c : ErrClass) : option class_decl :=
  match c with
  | LedgerFacadeError => Some (extends DomainError inherited)
  | Facade_NoTransactionToSettleError => Some (extends LedgerFacadeError inherited)
  | Facade_UnknownLedgerError => Some (extends LedgerFacadeError (sets_level Critical))
  | _ => None
  end.

(** The built-in classes extend [Error]; [Error] itself extends nothing. *)
Definition builtin_errors (c : ErrClass) : option class_decl :=
  match c with
  | JsRangeError | JsSyntaxError | JsTypeError | ConfigError => Some (extends JsError inherited)
  | _ => None
  end.

Definition declaration (c : ErrClass) : option class_decl :=
  default (builtin_errors c) (head (omap (fun f => Some <$> f c)
    [shared_errors;
     domain_errors_1;
     domain_errors_2;
     accounts_errors;
     authentication_errors;
     lightning_errors;
     onchain_errors;
     cache_errors;
     captcha_errors;
     cold_storage_errors;
     dealer_price_errors;
     ipfetcher_errors;
     ledger_errors;
     lock_errors;
     notifications_errors;
     oathkeeper_errors;
     payments_errors;
     phone_provider_errors;
     price_errors;
     pubsub_errors;
     rate_limit_errors;
     swap_errors;
     wallet_invoices_errors;
     facade_errors])).

(** [error.name], which [DomainError] sets to the name of the class. *)
Definition error_name (c : ErrClass) : string :=
  match c with
  | JsError => "Error"
  | JsRangeError => "RangeError"
  | JsSyntaxError => "SyntaxError"
  | JsTypeError => "TypeError"
  | ConfigError => "ConfigError"
  | DomainError => "DomainError"
  | ValidationError => "ValidationError"
  | SafeWrapperError => "SafeWrapperError"
  | BigIntConversionError => "BigIntConversionError"
  | BigIntFloatConversionError => "BigIntFloatConversionError"
  | UnknownBigIntConversionError => "UnknownBigIntConversionError"
  | BtcAmountTooLargeError => "BtcAmountTooLargeError"
  | UsdAmountTooLargeError => "UsdAmountTooLargeError"
  | InconsistentDataError => "InconsistentDataError"
  | AuthorizationError => "AuthorizationError"
  | RepositoryError => "RepositoryError"
  | UnknownRepositoryError => "UnknownRepositoryError"
  | PersistError => "PersistError"
  | DuplicateError => "DuplicateError"
  | BadInputsForFindError => "BadInputsForFindError"
  | CouldNotFindError => "CouldNotFindError"
  | CannotConnectToDbError => "CannotConnectToDbError"
  | DbConnectionClosedError => "DbConnectionClosedError"
  | CouldNotFindWalletInvoiceError => "CouldNotFindWalletInvoiceError"
  | CouldNotFindUserError => "CouldNotFindUserError"
  | CouldNotFindUserFromIdError => "CouldNotFindUserFromIdError"
  | CouldNotFindUserFromPhoneError => "CouldNotFindUserFromPhoneError"
  | CouldNotFindUserFromWalletIdError => "CouldNotFindUserFromWalletIdError"
  | CouldNotFindPhoneCodeError => "CouldNotFindPhoneCodeError"
  | CouldNotFindWalletFromIdError => "CouldNotFindWalletFromIdError"
  | CouldNotListWalletsFromAccountIdError => "CouldNotListWalletsFromAccountIdError"
  | CouldNotFindWalletFromUsernameError => "CouldNotFindWalletFromUsernameError"
  | CouldNotFindWalletFromUsernameAndCurrencyError => "CouldNotFindWalletFromUsernameAndCurrencyError"
  | CouldNotFindWalletFromOnChainAddressError => "CouldNotFindWalletFromOnChainAddressError"
  | CouldNotFindWalletFromOnChainAddressesError => "CouldNotFindWalletFromOnChainAddressesError"
  | CouldNotListWalletsFromWalletCurrencyError => "CouldNotListWalletsFromWalletCurrencyError"
  | NoTransactionToUpdateError => "NoTransactionToUpdateError"
  | CouldNotFindLightningPaymentFlowError => "CouldNotFindLightningPaymentFlowError"
  | CouldNotUpdateLightningPaymentFlowError => "CouldNotUpdateLightningPaymentFlowError"
  | NoExpiredLightningPaymentFlowsError => "NoExpiredLightningPaymentFlowsError"
  | CouldNotFindBtcWalletForAccountError => "CouldNotFindBtcWalletForAccountError"
  | CouldNotFindLnPaymentFromHashError => "CouldNotFindLnPaymentFromHashError"
  | CouldNotFindAccountFromUsernameError => "CouldNotFindAccountFromUsernameError"
  | CouldNotFindAccountFromPhoneError => "CouldNotFindAccountFromPhoneError"
  | CouldNotFindTransactionsForAccountError => "CouldNotFindTransactionsForAccountError"
  | CouldNotFindAccountFromKratosIdError => "CouldNotFindAccountFromKratosIdError"
  | RewardAlreadyPresentError => "RewardAlreadyPresentError"
  | NotImplementedError => "NotImplementedError"
  | NotReachableError => "NotReachableError"
  | InvalidNegativeAmountError => "InvalidNegativeAmountError"
  | MissingPhoneError => "MissingPhoneError"
  | ContactNotExistentError => "ContactNotExistentError"
  | InvalidWithdrawFeeError => "InvalidWithdrawFeeError"
  | InvalidCurrencyBaseAmountError => "InvalidCurrencyBaseAmountError"
  | InvalidSatoshiAmountError => "InvalidSatoshiAmountError"
  | InvalidUsdCents => "InvalidUsdCents"
  | NonIntegerError => "NonIntegerError"
  | InvalidOnChainAddress => "InvalidOnChainAddress"
  | InvalidPubKeyError => "InvalidPubKeyError"
  | InvalidScanDepthAmount => "InvalidScanDepthAmount"
  | SatoshiAmountRequiredError => "SatoshiAmountRequiredError"
  | InvalidUsername => "InvalidUsername"
  | InvalidContactAlias => "InvalidContactAlias"
  | InvalidCoordinatesError => "InvalidCoordinatesError"
  | InvalidBusinessTitleLengthError => "InvalidBusinessTitleLengthError"
  | InvalidPhoneNumber => "InvalidPhoneNumber"
  | InvalidKratosUserId => "InvalidKratosUserId"
  | InvalidEmailAddress => "InvalidEmailAddress"
  | InvalidWalletId => "InvalidWalletId"
  | InvalidLedgerTransactionId => "InvalidLedgerTransactionId"
  | InvalidLedgerTransactionStateError => "InvalidLedgerTransactionStateError"
  | AlreadyPaidError => "AlreadyPaidError"
  | SelfPaymentError => "SelfPaymentError"
  | LessThanDustThresholdError => "LessThanDustThresholdError"
  | InsufficientBalanceError => "InsufficientBalanceError"
  | InvalidCurrencyForWalletError => "InvalidCurrencyForWalletError"
  | BalanceLessThanZeroError => "BalanceLessThanZeroError"
  | InvalidTargetConfirmations => "InvalidTargetConfirmations"
  | NoContactForUsernameError => "NoContactForUsernameError"
  | NoWalletExistsForUserError => "NoWalletExistsForUserError"
  | NoBtcWalletExistsForAccountError => "NoBtcWalletExistsForAccountError"
  | RebalanceNeededError => "RebalanceNeededError"
  | InvalidQuizQuestionIdError => "InvalidQuizQuestionIdError"
  | MissingPhoneMetadataError => "MissingPhoneMetadataError"
  | InvalidPhoneMetadataTypeError => "InvalidPhoneMetadataTypeError"
  | InvalidPhoneMetadataCountryError => "InvalidPhoneMetadataCountryError"
  | InvalidPhoneMetadataForRewardError => "InvalidPhoneMetadataForRewardError"
  | MissingIPMetadataError => "MissingIPMetadataError"
  | InvalidIPMetadataProxyError => "InvalidIPMetadataProxyError"
  | InvalidIPMetadataCountryError => "InvalidIPMetadataCountryError"
  | InvalidIPMetadataASNError => "InvalidIPMetadataASNError"
  | InvalidIPMetadataForRewardError => "InvalidIPMetadataForRewardError"
  | InvalidLanguageError => "InvalidLanguageError"
  | InvalidAccountLevelError => "InvalidAccountLevelError"
  | LimitsExceededError => "LimitsExceededError"
  | WithdrawalLimitsExceededError => "WithdrawalLimitsExceededError"
  | IntraledgerLimitsExceededError => "IntraledgerLimitsExceededError"
  | TradeIntraAccountLimitsExceededError => "TradeIntraAccountLimitsExceededError"
  | TwoFALimitsExceededError => "TwoFALimitsExceededError"
  | LnRouteValidationError => "LnRouteValidationError"
  | BadAmountForRouteError => "BadAmountForRouteError"
  | InvalidAccountStatusError => "InvalidAccountStatusError"
  | InactiveAccountError => "InactiveAccountError"
  | InvalidNonHodlInvoiceError => "InvalidNonHodlInvoiceError"
  | AccountError => "AccountError"
  | UsernameNotAvailableError => "UsernameNotAvailableError"
  | UsernameIsImmutableError => "UsernameIsImmutableError"
  | InvalidAccountIdError => "InvalidAccountIdError"
  | AuthenticationError => "AuthenticationError"
  | KratosError => "KratosError"
  | LikelyNoUserWithThisPhoneExistError => "LikelyNoUserWithThisPhoneExistError"
  | LikelyUserAlreadyExistError => "LikelyUserAlreadyExistError"
  | AuthenticationKratosError => "AuthenticationKratosError"
  | MissingExpiredAtKratosError => "MissingExpiredAtKratosError"
  | MissingTotpKratosError => "MissingTotpKratosError"
  | IncompatibleSchemaUpgradeError => "IncompatibleSchemaUpgradeError"
  | UnknownKratosError => "UnknownKratosError"
  | LightningError => "LightningError"
  | LnInvoiceDecodeError => "LnInvoiceDecodeError"
  | LnInvoiceMissingPaymentSecretError => "LnInvoiceMissingPaymentSecretError"
  | InvalidChecksumForLnInvoiceError => "InvalidChecksumForLnInvoiceError"
  | UnknownLnInvoiceDecodeError => "UnknownLnInvoiceDecodeError"
  | LightningServiceError => "LightningServiceError"
  | CouldNotDecodeReturnedPaymentRequest => "CouldNotDecodeReturnedPaymentRequest"
  | UnknownLightningServiceError => "UnknownLightningServiceError"
  | SecretDoesNotMatchAnyExistingHodlInvoiceError => "SecretDoesNotMatchAnyExistingHodlInvoiceError"
  | InvoiceNotFoundError => "InvoiceNotFoundError"
  | LnPaymentPendingError => "LnPaymentPendingError"
  | LnAlreadyPaidError => "LnAlreadyPaidError"
  | OffChainServiceUnavailableError => "OffChainServiceUnavailableError"
  | NoValidNodeForPubkeyError => "NoValidNodeForPubkeyError"
  | PaymentNotFoundError => "PaymentNotFoundError"
  | RouteNotFoundError => "RouteNotFoundError"
  | UnknownNextPeerError => "UnknownNextPeerError"
  | InsufficientBalanceForRoutingError => "InsufficientBalanceForRoutingError"
  | InsufficientBalanceForLnPaymentError => "InsufficientBalanceForLnPaymentError"
  | InvoiceExpiredOrBadPaymentHashError => "InvoiceExpiredOrBadPaymentHashError"
  | PaymentAttemptsTimedOutError => "PaymentAttemptsTimedOutError"
  | ProbeForRouteTimedOutError => "ProbeForRouteTimedOutError"
  | ProbeForRouteTimedOutFromApplicationError => "ProbeForRouteTimedOutFromApplicationError"
  | PaymentInTransitionError => "PaymentInTransitionError"
  | TemporaryChannelFailureError => "TemporaryChannelFailureError"
  | InvalidFeeProbeStateError => "InvalidFeeProbeStateError"
  | UnknownRouteNotFoundError => "UnknownRouteNotFoundError"
  | BadPaymentDataError => "BadPaymentDataError"
  | CorruptLndDbError => "CorruptLndDbError"
  | OnChainError => "OnChainError"
  | TransactionDecodeError => "TransactionDecodeError"
  | OnChainServiceError => "OnChainServiceError"
  | CPFPAncestorLimitReachedError => "CPFPAncestorLimitReachedError"
  | InsufficientOnChainFundsError => "InsufficientOnChainFundsError"
  | UnknownOnChainServiceError => "UnknownOnChainServiceError"
  | CouldNotFindOnChainTransactionError => "CouldNotFindOnChainTransactionError"
  | OnChainServiceUnavailableError => "OnChainServiceUnavailableError"
  | CacheError => "CacheError"
  | CacheServiceError => "CacheServiceError"
  | CacheNotAvailableError => "CacheNotAvailableError"
  | CacheUndefinedError => "CacheUndefinedError"
  | UnknownCacheServiceError => "UnknownCacheServiceError"
  | CaptchaError => "CaptchaError"
  | CaptchaUserFailToPassError => "CaptchaUserFailToPassError"
  | UnknownCaptchaError => "UnknownCaptchaError"
  | ColdStorageError => "ColdStorageError"
  | ColdStorageServiceError => "ColdStorageServiceError"
  | InvalidCurrentColdStorageWalletServiceError => "InvalidCurrentColdStorageWalletServiceError"
  | InsufficientBalanceForRebalanceError => "InsufficientBalanceForRebalanceError"
  | InvalidOrNonWalletTransactionError => "InvalidOrNonWalletTransactionError"
  | UnknownColdStorageServiceError => "UnknownColdStorageServiceError"
  | DealerPriceError => "DealerPriceError"
  | DealerPriceServiceError => "DealerPriceServiceError"
  | DealerPriceNotAvailableError => "DealerPriceNotAvailableError"
  | NoConnectionToDealerError => "NoConnectionToDealerError"
  | DealerStalePriceError => "DealerStalePriceError"
  | UnknownDealerPriceServiceError => "UnknownDealerPriceServiceError"
  | IpFetcherError => "IpFetcherError"
  | IpFetcherServiceError => "IpFetcherServiceError"
  | UnknownIpFetcherServiceError => "UnknownIpFetcherServiceError"
  | LedgerError => "LedgerError"
  | LedgerServiceError => "LedgerServiceError"
  | FeeDifferenceError => "FeeDifferenceError"
  | NoTransactionToSettleError => "NoTransactionToSettleError"
  | UnknownLedgerError => "UnknownLedgerError"
  | CouldNotFindTransactionError => "CouldNotFindTransactionError"
  | CouldNotFindTransactionMetadataError => "CouldNotFindTransactionMetadataError"
  | LockError => "LockError"
  | LockServiceError => "LockServiceError"
  | ResourceAttemptsLockServiceError => "ResourceAttemptsLockServiceError"
  | ResourceExpiredLockServiceError => "ResourceExpiredLockServiceError"
  | UnknownLockServiceError => "UnknownLockServiceError"
  | NotificationsError => "NotificationsError"
  | NotificationsServiceError => "NotificationsServiceError"
  | InvalidDeviceNotificationsServiceError => "InvalidDeviceNotificationsServiceError"
  | UnknownNotificationsServiceError => "UnknownNotificationsServiceError"
  | OathkeeperError => "OathkeeperError"
  | OathkeeperUnauthorizedServiceError => "OathkeeperUnauthorizedServiceError"
  | OathkeeperMissingAuthorizationHeaderError => "OathkeeperMissingAuthorizationHeaderError"
  | OathkeeperForbiddenServiceError => "OathkeeperForbiddenServiceError"
  | UnknownOathkeeperServiceError => "UnknownOathkeeperServiceError"
  | InvalidBtcPaymentAmountError => "InvalidBtcPaymentAmountError"
  | InvalidUsdPaymentAmountError => "InvalidUsdPaymentAmountError"
  | InvalidZeroAmountPriceRatioInputError => "InvalidZeroAmountPriceRatioInputError"
  | ZeroAmountForUsdRecipientError => "ZeroAmountForUsdRecipientError"
  | LnPaymentRequestNonZeroAmountRequiredError => "LnPaymentRequestNonZeroAmountRequiredError"
  | LnPaymentRequestZeroAmountRequiredError => "LnPaymentRequestZeroAmountRequiredError"
  | LnPaymentRequestInTransitError => "LnPaymentRequestInTransitError"
  | LnHashPresentInIntraLedgerFlowError => "LnHashPresentInIntraLedgerFlowError"
  | IntraLedgerHashPresentInLnFlowError => "IntraLedgerHashPresentInLnFlowError"
  | SkipProbeForPubkeyError => "SkipProbeForPubkeyError"
  | NonLnPaymentTransactionForPaymentFlowError => "NonLnPaymentTransactionForPaymentFlowError"
  | MissingPropsInTransactionForPaymentFlowError => "MissingPropsInTransactionForPaymentFlowError"
  | InvalidLightningPaymentFlowBuilderStateError => "InvalidLightningPaymentFlowBuilderStateError"
  | InvalidLightningPaymentFlowStateError => "InvalidLightningPaymentFlowStateError"
  | PhoneProviderServiceError => "PhoneProviderServiceError"
  | InvalidPhoneNumberPhoneProviderError => "InvalidPhoneNumberPhoneProviderError"
  | RestrictedRegionPhoneProviderError => "RestrictedRegionPhoneProviderError"
  | UnsubscribedRecipientPhoneProviderError => "UnsubscribedRecipientPhoneProviderError"
  | PhoneProviderConnectionError => "PhoneProviderConnectionError"
  | UnknownPhoneProviderServiceError => "UnknownPhoneProviderServiceError"
  | PriceError => "PriceError"
  | PriceServiceError => "PriceServiceError"
  | PriceNotAvailableError => "PriceNotAvailableError"
  | PriceHistoryNotAvailableError => "PriceHistoryNotAvailableError"
  | UnknownPriceServiceError => "UnknownPriceServiceError"
  | PubSubError => "PubSubError"
  | PubSubServiceError => "PubSubServiceError"
  | UnknownPubSubError => "UnknownPubSubError"
  | RateLimitError => "RateLimitError"
  | RateLimitServiceError => "RateLimitServiceError"
  | UnknownRateLimitServiceError => "UnknownRateLimitServiceError"
  | RateLimiterExceededError => "RateLimiterExceededError"
  | UserPhoneCodeAttemptPhoneRateLimiterExceededError => "UserPhoneCodeAttemptPhoneRateLimiterExceededError"
  | UserPhoneCodeAttemptPhoneMinIntervalRateLimiterExceededError => "UserPhoneCodeAttemptPhoneMinIntervalRateLimiterExceededError"
  | UserPhoneCodeAttemptIpRateLimiterExceededError => "UserPhoneCodeAttemptIpRateLimiterExceededError"
  | UserLoginIpRateLimiterExceededError => "UserLoginIpRateLimiterExceededError"
  | UserLoginPhoneRateLimiterExceededError => "UserLoginPhoneRateLimiterExceededError"
  | InvoiceCreateRateLimiterExceededError => "InvoiceCreateRateLimiterExceededError"
  | InvoiceCreateForRecipientRateLimiterExceededError => "InvoiceCreateForRecipientRateLimiterExceededError"
  | OnChainAddressCreateRateLimiterExceededError => "OnChainAddressCreateRateLimiterExceededError"
  | SwapError => "SwapError"
  | NoOutboundLiquidityForSwapError => "NoOutboundLiquidityForSwapError"
  | SwapTriggerError => "SwapTriggerError"
  | SwapServiceError => "SwapServiceError"
  | SwapClientNotResponding => "SwapClientNotResponding"
  | SwapErrorNoActiveLoopdNode => "SwapErrorNoActiveLoopdNode"
  | SwapErrorHealthCheckFailed => "SwapErrorHealthCheckFailed"
  | SwapErrorChannelBalanceTooLow => "SwapErrorChannelBalanceTooLow"
  | UnknownSwapServiceError => "UnknownSwapServiceError"
  | InvalidWalletInvoiceBuilderStateError => "InvalidWalletInvoiceBuilderStateError"
  | LedgerFacadeError => "LedgerFacadeError"
  | Facade_NoTransactionToSettleError => "NoTransactionToSettleError"
  | Facade_UnknownLedgerError => "UnknownLedgerError"
  end%string.

(** All classes; [class_index] is the position in the list. *)
Definition all_classes : list ErrClass :=
  [JsError; JsRangeError; JsSyntaxError; JsTypeError; ConfigError; DomainError;
   ValidationError; SafeWrapperError; BigIntConversionError;
   BigIntFloatConversionError; UnknownBigIntConversionError;
   BtcAmountTooLargeError; UsdAmountTooLargeError; InconsistentDataError;
   AuthorizationError; RepositoryError; UnknownRepositoryError; PersistError;
   DuplicateError; BadInputsForFindError; CouldNotFindError;
   CannotConnectToDbError; DbConnectionClosedError;
   CouldNotFindWalletInvoiceError; CouldNotFindUserError;
   CouldNotFindUserFromIdError; CouldNotFindUserFromPhoneError;
   CouldNotFindUserFromWalletIdError; CouldNotFindPhoneCodeError;
   CouldNotFindWalletFromIdError; CouldNotListWalletsFromAccountIdError;
   CouldNotFindWalletFromUsernameError;
   CouldNotFindWalletFromUsernameAndCurrencyError;
   CouldNotFindWalletFromOnChainAddressError;
   CouldNotFindWalletFromOnChainAddressesError;
   CouldNotListWalletsFromWalletCurrencyError; NoTransactionToUpdateError;
   CouldNotFindLightningPaymentFlowError;
   CouldNotUpdateLightningPaymentFlowError;
   NoExpiredLightningPaymentFlowsError; CouldNotFindBtcWalletForAccountError;
   CouldNotFindLnPaymentFromHashError; CouldNotFindAccountFromUsernameError;
   CouldNotFindAccountFromPhoneError;
   CouldNotFindTransactionsForAccountError;
   CouldNotFindAccountFromKratosIdError; RewardAlreadyPresentError;
   NotImplementedError; NotReachableError; InvalidNegativeAmountError;
   MissingPhoneError; ContactNotExistentError; InvalidWithdrawFeeError;
   InvalidCurrencyBaseAmountError; InvalidSatoshiAmountError;
   InvalidUsdCents; NonIntegerError; InvalidOnChainAddress;
   InvalidPubKeyError; InvalidScanDepthAmount; SatoshiAmountRequiredError;
   InvalidUsername; InvalidContactAlias; InvalidCoordinatesError;
   InvalidBusinessTitleLengthError; InvalidPhoneNumber; InvalidKratosUserId;
   InvalidEmailAddress; InvalidWalletId; InvalidLedgerTransactionId;
   InvalidLedgerTransactionStateError; AlreadyPaidError; SelfPaymentError;
   LessThanDustThresholdError; InsufficientBalanceError;
   InvalidCurrencyForWalletError; BalanceLessThanZeroError;
   InvalidTargetConfirmations; NoContactForUsernameError;
   NoWalletExistsForUserError; NoBtcWalletExistsForAccountError;
   RebalanceNeededError; InvalidQuizQuestionIdError;
   MissingPhoneMetadataError; InvalidPhoneMetadataTypeError;
   InvalidPhoneMetadataCountryError; InvalidPhoneMetadataForRewardError;
   MissingIPMetadataError; InvalidIPMetadataProxyError;
   InvalidIPMetadataCountryError; InvalidIPMetadataASNError;
   InvalidIPMetadataForRewardError; InvalidLanguageError;
   InvalidAccountLevelError; LimitsExceededError;
   WithdrawalLimitsExceededError; IntraledgerLimitsExceededError;
   TradeIntraAccountLimitsExceededError; TwoFALimitsExceededError;
   LnRouteValidationError; BadAmountForRouteError; InvalidAccountStatusError;
   InactiveAccountError; InvalidNonHodlInvoiceError; AccountError;
   UsernameNotAvailableError; UsernameIsImmutableError;
   InvalidAccountIdError; AuthenticationError; KratosError;
   LikelyNoUserWithThisPhoneExistError; LikelyUserAlreadyExistError;
   AuthenticationKratosError; MissingExpiredAtKratosError;
   MissingTotpKratosError; IncompatibleSchemaUpgradeError;
   UnknownKratosError; LightningError; LnInvoiceDecodeError;
   LnInvoiceMissingPaymentSecretError; InvalidChecksumForLnInvoiceError;
   UnknownLnInvoiceDecodeError; LightningServiceError;
   CouldNotDecodeReturnedPaymentRequest; UnknownLightningServiceError;
   SecretDoesNotMatchAnyExistingHodlInvoiceError; InvoiceNotFoundError;
   LnPaymentPendingError; LnAlreadyPaidError;
   OffChainServiceUnavailableError; NoValidNodeForPubkeyError;
   PaymentNotFoundError; RouteNotFoundError; UnknownNextPeerError;
   InsufficientBalanceForRoutingError; InsufficientBalanceForLnPaymentError;
   InvoiceExpiredOrBadPaymentHashError; PaymentAttemptsTimedOutError;
   ProbeForRouteTimedOutError; ProbeForRouteTimedOutFromApplicationError;
   PaymentInTransitionError; TemporaryChannelFailureError;
   InvalidFeeProbeStateError; UnknownRouteNotFoundError; BadPaymentDataError;
   CorruptLndDbError; OnChainError; TransactionDecodeError;
   OnChainServiceError; CPFPAncestorLimitReachedError;
   InsufficientOnChainFundsError; UnknownOnChainServiceError;
   CouldNotFindOnChainTransactionError; OnChainServiceUnavailableError;
   CacheError; CacheServiceError; CacheNotAvailableError;
   CacheUndefinedError; UnknownCacheServiceError; CaptchaError;
   CaptchaUserFailToPassError; UnknownCaptchaError; ColdStorageError;
   ColdStorageServiceError; InvalidCurrentColdStorageWalletServiceError;
   InsufficientBalanceForRebalanceError; InvalidOrNonWalletTransactionError;
   UnknownColdStorageServiceError; DealerPriceError; DealerPriceServiceError;
   DealerPriceNotAvailableError; NoConnectionToDealerError;
   DealerStalePriceError; UnknownDealerPriceServiceError; IpFetcherError;
   IpFetcherServiceError; UnknownIpFetcherServiceError; LedgerError;
   LedgerServiceError; FeeDifferenceError; NoTransactionToSettleError;
   UnknownLedgerError; CouldNotFindTransactionError;
   CouldNotFindTransactionMetadataError; LockError; LockServiceError;
   ResourceAttemptsLockServiceError; ResourceExpiredLockServiceError;
   UnknownLockServiceError; NotificationsError; NotificationsServiceError;
   InvalidDeviceNotificationsServiceError; UnknownNotificationsServiceError;
   OathkeeperError; OathkeeperUnauthorizedServiceError;
   OathkeeperMissingAuthorizationHeaderError;
   OathkeeperForbiddenServiceError; UnknownOathkeeperServiceError;
   InvalidBtcPaymentAmountError; InvalidUsdPaymentAmountError;
   InvalidZeroAmountPriceRatioInputError; ZeroAmountForUsdRecipientError;
   LnPaymentRequestNonZeroAmountRequiredError;
   LnPaymentRequestZeroAmountRequiredError; LnPaymentRequestInTransitError;
   LnHashPresentInIntraLedgerFlowError; IntraLedgerHashPresentInLnFlowError;
   SkipProbeForPubkeyError; NonLnPaymentTransactionForPaymentFlowError;
   MissingPropsInTransactionForPaymentFlowError;
   InvalidLightningPaymentFlowBuilderStateError;
   InvalidLightningPaymentFlowStateError; PhoneProviderServiceError;
   InvalidPhoneNumberPhoneProviderError; RestrictedRegionPhoneProviderError;
   UnsubscribedRecipientPhoneProviderError; PhoneProviderConnectionError;
   UnknownPhoneProviderServiceError; PriceError; PriceServiceError;
   PriceNotAvailableError; PriceHistoryNotAvailableError;
   UnknownPriceServiceError; PubSubError; PubSubServiceError;
   UnknownPubSubError; RateLimitError; RateLimitServiceError;
   UnknownRateLimitServiceError; RateLimiterExceededError;
   UserPhoneCodeAttemptPhoneRateLimiterExceededError;
   UserPhoneCodeAttemptPhoneMinIntervalRateLimiterExceededError;
   UserPhoneCodeAttemptIpRateLimiterExceededError;
   UserLoginIpRateLimiterExceededError;
   UserLoginPhoneRateLimiterExceededError;
   InvoiceCreateRateLimiterExceededError;
   InvoiceCreateForRecipientRateLimiterExceededError;
   OnChainAddressCreateRateLimiterExceededError; SwapError;
   NoOutboundLiquidityForSwapError; SwapTriggerError; SwapServiceError;
   SwapClientNotResponding; SwapErrorNoActiveLoopdNode;
   SwapErrorHealthCheckFailed; SwapErrorChannelBalanceTooLow;
   UnknownSwapServiceError; InvalidWalletInvoiceBuilderStateError;
   LedgerFacadeError; Facade_NoTransactionToSettleError;
   Facade_UnknownLedgerError].

Definition class_index (c : ErrClass) : nat :=
  match c with
  | JsError => 0
  | JsRangeError => 1
  | JsSyntaxError => 2
  | JsTypeError => 3
  | ConfigError => 4
  | DomainError => 5
  | ValidationError => 6
  | SafeWrapperError => 7
  | BigIntConversionError => 8
  | BigIntFloatConversionError => 9
  | UnknownBigIntConversionError => 10
  | BtcAmountTooLargeError => 11
  | UsdAmountTooLargeError => 12
  | InconsistentDataError => 13
  | AuthorizationError => 14
  | RepositoryError => 15
  | UnknownRepositoryError => 16
  | PersistError => 17
  | DuplicateError => 18
  | BadInputsForFindError => 19
  | CouldNotFindError => 20
  | CannotConnectToDbError => 21
  | DbConnectionClosedError => 22
  | CouldNotFindWalletInvoiceError => 23
  | CouldNotFindUserError => 24
  | CouldNotFindUserFromIdError => 25
  | CouldNotFindUserFromPhoneError => 26
  | CouldNotFindUserFromWalletIdError => 27
  | CouldNotFindPhoneCodeError => 28
  | CouldNotFindWalletFromIdError => 29
  | CouldNotListWalletsFromAccountIdError => 30
  | CouldNotFindWalletFromUsernameError => 31
  | CouldNotFindWalletFromUsernameAndCurrencyError => 32
  | CouldNotFindWalletFromOnChainAddressError => 33
  | CouldNotFindWalletFromOnChainAddressesError => 34
  | CouldNotListWalletsFromWalletCurrencyError => 35
  | NoTransactionToUpdateError => 36
  | CouldNotFindLightningPaymentFlowError => 37
  | CouldNotUpdateLightningPaymentFlowError => 38
  | NoExpiredLightningPaymentFlowsError => 39
  | CouldNotFindBtcWalletForAccountError => 40
  | CouldNotFindLnPaymentFromHashError => 41
  | CouldNotFindAccountFromUsernameError => 42
  | CouldNotFindAccountFromPhoneError => 43
  | CouldNotFindTransactionsForAccountError => 44
  | CouldNotFindAccountFromKratosIdError => 45
  | RewardAlreadyPresentError => 46
  | NotImplementedError => 47
  | NotReachableError => 48
  | InvalidNegativeAmountError => 49
  | MissingPhoneError => 50
  | ContactNotExistentError => 51
  | InvalidWithdrawFeeError => 52
  | InvalidCurrencyBaseAmountError => 53
  | InvalidSatoshiAmountError => 54
  | InvalidUsdCents => 55
  | NonIntegerError => 56
  | InvalidOnChainAddress => 57
  | InvalidPubKeyError => 58
  | InvalidScanDepthAmount => 59
  | SatoshiAmountRequiredError => 60
  | InvalidUsername => 61
  | InvalidContactAlias => 62
  | InvalidCoordinatesError => 63
  | InvalidBusinessTitleLengthError => 64
  | InvalidPhoneNumber => 65
  | InvalidKratosUserId => 66
  | InvalidEmailAddress => 67
  | InvalidWalletId => 68
  | InvalidLedgerTransactionId => 69
  | InvalidLedgerTransactionStateError => 70
  | AlreadyPaidError => 71
  | SelfPaymentError => 72
  | LessThanDustThresholdError => 73
  | InsufficientBalanceError => 74
  | InvalidCurrencyForWalletError => 75
  | BalanceLessThanZeroError => 76
  | InvalidTargetConfirmations => 77
  | NoContactForUsernameError => 78
  | NoWalletExistsForUserError => 79
  | NoBtcWalletExistsForAccountError => 80
  | RebalanceNeededError => 81
  | InvalidQuizQuestionIdError => 82
  | MissingPhoneMetadataError => 83
  | InvalidPhoneMetadataTypeError => 84
  | InvalidPhoneMetadataCountryError => 85
  | InvalidPhoneMetadataForRewardError => 86
  | MissingIPMetadataError => 87
  | InvalidIPMetadataProxyError => 88
  | InvalidIPMetadataCountryError => 89
  | InvalidIPMetadataASNError => 90
  | InvalidIPMetadataForRewardError => 91
  | InvalidLanguageError => 92
  | InvalidAccountLevelError => 93
  | LimitsExceededError => 94
  | WithdrawalLimitsExceededError => 95
  | IntraledgerLimitsExceededError => 96
  | TradeIntraAccountLimitsExceededError => 97
  | TwoFALimitsExceededError => 98
  | LnRouteValidationError => 99
  | BadAmountForRouteError => 100
  | InvalidAccountStatusError => 101
  | InactiveAccountError => 102
  | InvalidNonHodlInvoiceError => 103
  | AccountError => 104
  | UsernameNotAvailableError => 105
  | UsernameIsImmutableError => 106
  | InvalidAccountIdError => 107
  | AuthenticationError => 108
  | KratosError => 109
  | LikelyNoUserWithThisPhoneExistError => 110
  | LikelyUserAlreadyExistError => 111
  | AuthenticationKratosError => 112
  | MissingExpiredAtKratosError => 113
  | MissingTotpKratosError => 114
  | IncompatibleSchemaUpgradeError => 115
  | UnknownKratosError => 116
  | LightningError => 117
  | LnInvoiceDecodeError => 118
  | LnInvoiceMissingPaymentSecretError => 119
  | InvalidChecksumForLnInvoiceError => 120
  | UnknownLnInvoiceDecodeError => 121
  | LightningServiceError => 122
  | CouldNotDecodeReturnedPaymentRequest => 123
  | UnknownLightningServiceError => 124
  | SecretDoesNotMatchAnyExistingHodlInvoiceError => 125
  | InvoiceNotFoundError => 126
  | LnPaymentPendingError => 127
  | LnAlreadyPaidError => 128
  | OffChainServiceUnavailableError => 129
  | NoValidNodeForPubkeyError => 130
  | PaymentNotFoundError => 131
  | RouteNotFoundError => 132
  | UnknownNextPeerError => 133
  | InsufficientBalanceForRoutingError => 134
  | InsufficientBalanceForLnPaymentError => 135
  | InvoiceExpiredOrBadPaymentHashError => 136
  | PaymentAttemptsTimedOutError => 137
  | ProbeForRouteTimedOutError => 138
  | ProbeForRouteTimedOutFromApplicationError => 139
  | PaymentInTransitionError => 140
  | TemporaryChannelFailureError => 141
  | InvalidFeeProbeStateError => 142
  | UnknownRouteNotFoundError => 143
  | BadPaymentDataError => 144
  | CorruptLndDbError => 145
  | OnChainError => 146
  | TransactionDecodeError => 147
  | OnChainServiceError => 148
  | CPFPAncestorLimitReachedError => 149
  | InsufficientOnChainFundsError => 150
  | UnknownOnChainServiceError => 151
  | CouldNotFindOnChainTransactionError => 152
  | OnChainServiceUnavailableError => 153
  | CacheError => 154
  | CacheServiceError => 155
  | CacheNotAvailableError => 156
  | CacheUndefinedError => 157
  | UnknownCacheServiceError => 158
  | CaptchaError => 159
  | CaptchaUserFailToPassError => 160
  | UnknownCaptchaError => 161
  | ColdStorageError => 162
  | ColdStorageServiceError => 163
  | InvalidCurrentColdStorageWalletServiceError => 164
  | InsufficientBalanceForRebalanceError => 165
  | InvalidOrNonWalletTransactionError => 166
  | UnknownColdStorageServiceError => 167
  | DealerPriceError => 168
  | DealerPriceServiceError => 169
  | DealerPriceNotAvailableError => 170
  | NoConnectionToDealerError => 171
  | DealerStalePriceError => 172
  | UnknownDealerPriceServiceError => 173
  | IpFetcherError => 174
  | IpFetcherServiceError => 175
  | UnknownIpFetcherServiceError => 176
  | LedgerError => 177
  | LedgerServiceError => 178
  | FeeDifferenceError => 179
  | NoTransactionToSettleError => 180
  | UnknownLedgerError => 181
  | CouldNotFindTransactionError => 182
  | CouldNotFindTransactionMetadataError => 183
  | LockError => 184
  | LockServiceError => 185
  | ResourceAttemptsLockServiceError => 186
  | ResourceExpiredLockServiceError => 187
  | UnknownLockServiceError => 188
  | NotificationsError => 189
  | NotificationsServiceError => 190
  | InvalidDeviceNotificationsServiceError => 191
  | UnknownNotificationsServiceError => 192
  | OathkeeperError => 193
  | OathkeeperUnauthorizedServiceError => 194
  | OathkeeperMissingAuthorizationHeaderError => 195
  | OathkeeperForbiddenServiceError => 196
  | UnknownOathkeeperServiceError => 197
  | InvalidBtcPaymentAmountError => 198
  | InvalidUsdPaymentAmountError => 199
  | InvalidZeroAmountPriceRatioInputError => 200
  | ZeroAmountForUsdRecipientError => 201
  | LnPaymentRequestNonZeroAmountRequiredError => 202
  | LnPaymentRequestZeroAmountRequiredError => 203
  | LnPaymentRequestInTransitError => 204
  | LnHashPresentInIntraLedgerFlowError => 205
  | IntraLedgerHashPresentInLnFlowError => 206
  | SkipProbeForPubkeyError => 207
  | NonLnPaymentTransactionForPaymentFlowError => 208
  | MissingPropsInTransactionForPaymentFlowError => 209
  | InvalidLightningPaymentFlowBuilderStateError => 210
  | InvalidLightningPaymentFlowStateError => 211
  | PhoneProviderServiceError => 212
  | InvalidPhoneNumberPhoneProviderError => 213
  | RestrictedRegionPhoneProviderError => 214
  | UnsubscribedRecipientPhoneProviderError => 215
  | PhoneProviderConnectionError => 216
  | UnknownPhoneProviderServiceError => 217
  | PriceError => 218
  | PriceServiceError => 219
  | PriceNotAvailableError => 220
  | PriceHistoryNotAvailableError => 221
  | UnknownPriceServiceError => 222
  | PubSubError => 223
  | PubSubServiceError => 224
  | UnknownPubSubError => 225
  | RateLimitError => 226
  | RateLimitServiceError => 227
  | UnknownRateLimitServiceError => 228
  | RateLimiterExceededError => 229
  | UserPhoneCodeAttemptPhoneRateLimiterExceededError => 230
  | UserPhoneCodeAttemptPhoneMinIntervalRateLimiterExceededError => 231
  | UserPhoneCodeAttemptIpRateLimiterExceededError => 232
  | UserLoginIpRateLimiterExceededError => 233
  | UserLoginPhoneRateLimiterExceededError => 234
  | InvoiceCreateRateLimiterExceededError => 235
  | InvoiceCreateForRecipientRateLimiterExceededError => 236
  | OnChainAddressCreateRateLimiterExceededError => 237
  | SwapError => 238
  | NoOutboundLiquidityForSwapError => 239
  | SwapTriggerError => 240
  | SwapServiceError => 241
  | SwapClientNotResponding => 242
  | SwapErrorNoActiveLoopdNode => 243
  | SwapErrorHealthCheckFailed => 244
  | SwapErrorChannelBalanceTooLow => 245
  | UnknownSwapServiceError => 246
  | InvalidWalletInvoiceBuilderStateError => 247
  | LedgerFacadeError => 248
  | Facade_NoTransactionToSettleError => 249
  | Facade_UnknownLedgerError => 250
  end%nat.

Lemma all_classes_index c : all_classes !! class_index c = Some c.
Proof. by destruct c. Qed.

#[global] Instance ErrClass_eq_dec : EqDecision ErrClass.
Proof.
  intros a b. destruct (decide (class_index a = class_index b)) as [E|E].
  - left. pose proof (all_classes_index a) as Ha. rewrite E, all_classes_index in Ha.
    congruence.
  - right. congruence.
Defined.

Lemma elem_of_all_classes c : c ∈ all_classes.
Proof. eapply list_elem_of_lookup_2, all_classes_index. Qed.

(** A property decided on every class holds of every class. *)
Lemma all_classes_forall (p : ErrClass -> bool) :
  forallb p all_classes = true -> forall c, p c = true.
Proof.
  intros H c. rewrite forallb_forall in H. apply H.
  apply list_elem_of_In, elem_of_all_classes.
Qed.

(** ** [instanceof] *)

(** The chain of superclasses, from the class up to [Error].  No chain is
    longer than the fuel [inheritance_depth]: see [ancestors_complete]. *)
Fixpoint ancestors_upto (fuel : nat) (c : ErrClass) : list ErrClass :=
  c :: match fuel with
       | O => []
       | S n => match declaration c with
                | Some d => ancestors_upto n (superclass d)
                | None => []
                end
       end.

Definition inheritance_depth : nat := 6.

Definition ancestors (c : ErrClass) : list ErrClass :=
  ancestors_upto inheritance_depth c.

Definition instanceof (c k : ErrClass) : bool := bool_decide (k ∈ ancestors c).

(** ** Error values *)

(** [new C(message)]: the class and the message of an error object. *)
Record error : Type := mkError {
  error_class : ErrClass;
  error_message : string
}.

Definition new (c : ErrClass) : error := mkError c "".
Definition new_msg (c : ErrClass) (m : string) : error := mkError c m.

#[global] Instance error_eq_dec : EqDecision error.
Proof. solve_decision. Defined.

(** [e instanceof K]. *)
Definition is_a (e : error) (k : ErrClass) : bool := instanceof (error_class e) k.

(** The level of a new error: the constructors run from [DomainError] down, so
    the most derived class that assigns [this.level] decides; [None] for an
    error that is not a [DomainError]. *)
Definition level_of_chain (cs : list ErrClass) : option ErrorLevel :=
  head (omap (fun c => match declaration c with
                       | Some (extends _ (sets_level l)) => Some l
                       | _ => None
                       end) cs).

Definition error_level (c : ErrClass) : option ErrorLevel :=
  level_of_chain (ancestors c).

(** ** Results

    A function of the back end returns a value ([Ok]), returns an error object
    ([Er]) or raises an exception ([Throw]). *)

Inductive result (A : Type) : Type :=
| Ok (a : A)
| Er (e : error)
| Throw (e : error).
Arguments Ok {A} a.
Arguments Er {A} e.
Arguments Throw {A} e.

#[global] Instance result_eq_dec {A} `{EqDecision A} : EqDecision (result A).
Proof. solve_decision. Defined.

(** [if (x instanceof Error) return x]; exceptions propagate. *)
Definition rbind {A B} (m : result A) (k : A -> result B) : result B :=
  match m with
  | Ok a => k a
  | Er e => Er e
  | Throw e => Throw e
  end.

Notation "'let*' x ':=' c 'in' k" := (rbind c (fun x => k))
  (at level 10, x pattern, c at level 200, k at level 200)
  : js_scope.

Definition rmap {A B} (f : A -> B) (m : result A) : result B :=
  let* a := m in Ok (f a).

Definition is_ok {A} (m : result A) : bool :=
  match m with Ok _ => true | _ => false end.

(** [if (cond) return e]: a guard of an early return. *)
Definition guard_not (b : bool) (e : error) : result unit :=
  if b then Er e else Ok tt.

Lemma rbind_ok {A B} (m : result A) (k : A -> result B) b :
  rbind m k = Ok b <-> exists a, m = Ok a /\ k a = Ok b.
Proof. destruct m; simpl; split; [by eauto|by intros (? & [= ->] & ?)|done|by intros (? & ? & ?)|done|by intros (? & ? & ?)]. Qed.

Lemma rbind_assoc {A B C} (m : result A) (f : A -> result B) (g : B -> result C) :
  rbind (rbind m f) g = rbind m (fun a => rbind (f a) g).
Proof. by destruct m. Qed.

Lemma rbind_ret {A} (m : result A) : rbind m Ok = m.
Proof. by destruct m. Qed.

#[export] Hint Rewrite @rbind_assoc @rbind_ret : galoy_simpl.

(** ** Facts about the hierarchy *)

Module Hierarchy.

(** The depth [inheritance_depth] is enough: the chain of every class ends at [Error]. *)
Lemma ancestors_complete c : last (ancestors c) = Some JsError.
Proof.
  refine (proj1 (bool_decide_eq_true _) _).
  exact (all_classes_forall (fun c => bool_decide (last (ancestors c) = Some JsError))
           eq_refl c).
Qed.

End Hierarchy.
