(* ===== verification/ErrorMap.v ===== *)
(** * Errors at the GraphQL boundary

    [lib/graphql/error.js], the classes of errors shown to clients, and
    [lib/graphql/error-map.js], which turns an application error into one of
    them by a [switch] on its name. *)

From S2P Require Import Prelude Errors.
#[local] Open Scope string_scope.

(** ** [graphql/error.js] *)

Inductive GqlClass : Type :=
| G_TransactionRestrictedError | G_UnknownClientError
| G_UnexpectedClientError | G_InsufficientBalanceError | G_SelfPaymentError
| G_ValidationInternalError | G_InputValidationError | G_NotFoundError
| G_NewAccountWithdrawalError | G_TooManyRequestError | G_DbError
| G_LightningPaymentError | G_OnChainPaymentError | G_RouteFindingError
| G_RebalanceNeededError | G_DustAmountError | G_LndOfflineError
| G_DealerOfflineError | G_CaptchaFailedError | G_OnChainFeeEstimationError
| G_TwoFAError | G_InvoiceDecodeError | G_PhoneCodeError
| G_PhoneProviderError | G_InvalidCoordinatesError
| G_InvalidBusinessTitleLengthError | G_UsernameError
| G_InsufficientLiquidityError | G_AuthenticationError | G_AuthorizationError.

#[global] Instance GqlClass_eq_dec : EqDecision GqlClass.
Proof. solve_decision. Defined.

(** The object a constructor passes to [super] before [...errData]. *)
Record gql_decl : Type := mkDecl {
  d_code : string;
  d_message : option string;
  d_forwardToClient : bool;
  d_level : option string
}.

(** Part of the classes; [dustThreshold] is the configured value. *)
Definition gql_decl_1 (dustThreshold : string) (c : GqlClass) : option gql_decl :=
  match c with
  | G_TransactionRestrictedError => Some (mkDecl "TRANSACTION_RESTRICTED" None true None)
  | G_UnknownClientError => Some (mkDecl "UNKNOWN_CLIENT_ERROR" None true None)
  | G_UnexpectedClientError => Some (mkDecl "UNEXPECTED_CLIENT_ERROR" None true None)
  | G_InsufficientBalanceError =>
      Some (mkDecl "INSUFFICIENT_BALANCE" (Some "balance is too low") true None)
  | G_SelfPaymentError =>
      Some (mkDecl "CANT_PAY_SELF" (Some "User tried to pay themselves") true None)
  | G_ValidationInternalError => Some (mkDecl "INVALID_INPUT" None true None)
  | G_InputValidationError => Some (mkDecl "INVALID_INPUT" None true None)
  | G_NotFoundError => Some (mkDecl "NOT_FOUND" None true None)
  | G_NewAccountWithdrawalError => Some (mkDecl "NEW_ACCOUNT_WITHDRAWAL_RESTRICTED" None true None)
  | G_TooManyRequestError => Some (mkDecl "TOO_MANY_REQUEST" (Some "Too many requests") true None)
  | G_DbError => Some (mkDecl "DB_ERROR" None true None)
  | G_LightningPaymentError => Some (mkDecl "LIGHTNING_PAYMENT_ERROR" None true None)
  | G_OnChainPaymentError => Some (mkDecl "ONCHAIN_PAYMENT_ERROR" None true None)
  | G_RouteFindingError =>
      Some (mkDecl "ROUTE_FINDING_ERROR" (Some "Unable to find a route for payment") true None)
  | G_RebalanceNeededError =>
      Some (mkDecl "REBALANCE_NEEDED" (Some "Insufficient onchain balance on lnd") false (Some "error"))
  | G_DustAmountError =>
      Some (mkDecl "ENTERED_DUST_AMOUNT" (Some ("Use lightning to send amounts less than " +:+ dustThreshold)) true None)
  | G_LndOfflineError => Some (mkDecl "LND_OFFLINE" None true None)
  | _ => None
  end.

(** Part of the classes. *)
Definition gql_decl_2 (c : GqlClass) : option gql_decl :=
  match c with
  | G_DealerOfflineError => Some (mkDecl "DEALER_OFFLINE" None true None)
  | G_CaptchaFailedError =>
      Some (mkDecl "REJECTED_CAPTCHA_FAILED" (Some "Unable to estimate onchain fee") true None)
  | G_OnChainFeeEstimationError =>
      Some (mkDecl "ONCHAIN_FEE_ESTIMATION_ERROR" (Some "Unable to estimate onchain fee") true None)
  | G_TwoFAError => Some (mkDecl "2FA_ERROR" (Some "Incorrect code") true None)
  | G_InvoiceDecodeError =>
      Some (mkDecl "INVOICE_DECODE_ERROR" (Some "Unable to decode invoice") true None)
  | G_PhoneCodeError => Some (mkDecl "PHONE_CODE_ERROR" (Some "Incorrect phone code") true None)
  | G_PhoneProviderError =>
      Some (mkDecl "PHONE_PROVIDER_ERROR" (Some "Issue with phone provider") true None)
  | G_InvalidCoordinatesError =>
      Some (mkDecl "INVALID_COORDINATES" (Some "Latitude must be between -90 and 90 and longitude between -180 and 180") true None)
  | G_InvalidBusinessTitleLengthError =>
      Some (mkDecl "INVALID_TITLE" (Some "Title should be between 3 and 100 characters long") true None)
  | G_UsernameError => Some (mkDecl "USERNAME_ERROR" (Some "Username issue") true None)
  | G_InsufficientLiquidityError =>
      Some (mkDecl "LIQUIDITY_ERROR" (Some "Temporary funds offline issue") true None)
  | G_AuthenticationError => Some (mkDecl "NOT_AUTHENTICATED" (Some "Not authenticated") true None)
  | G_AuthorizationError => Some (mkDecl "NOT_AUTHORIZED" (Some "Not authorized") true None)
  | _ => None
  end.

Definition declaration_of (dustThreshold : string) (c : GqlClass) : option gql_decl :=
  match gql_decl_1 dustThreshold c with Some d => Some d | None => gql_decl_2 c end.

(** An error sent to a client. *)
Record ApolloError : Type := mkApollo {
  ae_class : GqlClass;
  ae_message : string;
  ae_code : string;
  ae_forwardToClient : bool;
  ae_level : string
}.

(** The arguments of a constructor: the message and the level, when given. *)
Record errData : Type := mkErrData {
  ed_class : GqlClass;
  ed_message : option string;
  ed_level : option string
}.

(** [new C(errData)]: the constructors of the class and of [CustomApolloError]:
    [errData] overrides the defaults, [message ?? code]; the level is [warn] when none is given. *)
Definition newApollo (dustThreshold : string) (d : errData) : option ApolloError :=
  decl ← declaration_of dustThreshold (ed_class d);
  let override (a b : option string) := match a with Some x => Some x | None => b end in
  Some (mkApollo (ed_class d)
    (default (d_code decl) (override (ed_message d) (d_message decl)))
    (d_code decl) (d_forwardToClient decl)
    (default "warn" (override (ed_level d) (d_level decl)))).

(** ** [graphql/error-map.js] *)

(** The statements of a [case]: from the name and the message of the error to
    the error to build. *)
Definition case_body : Type := string -> string -> errData.

(** The optional suffix with the message of the error. *)
Definition colon_message (message : string) : string :=
  match message with EmptyString => "" | _ => ": " +:+ message end.

Definition service_type (name : string) : string :=
  if String.eqb name "OffChainServiceUnavailableError" then "Offchain" else "Onchain".

(** Cases of the [switch], part 1. *)
Definition cases_1 : list (list string * case_body) :=
  [
  (["WithdrawalLimitsExceededError"],
   fun _ message => mkErrData G_TransactionRestrictedError (Some message) None);
  (["IntraledgerLimitsExceededError"],
   fun _ message => mkErrData G_TransactionRestrictedError (Some message) None);
  (["TradeIntraAccountLimitsExceededError"],
   fun _ message => mkErrData G_TransactionRestrictedError (Some message) None);
  (["TwoFALimitsExceededError"],
   fun _ _ => mkErrData G_TwoFAError (Some "Need a 2FA code to proceed with the payment") None);
  (["AlreadyPaidError"],
   fun _ _ => mkErrData G_LightningPaymentError (Some "Invoice is already paid") None);
  (["CouldNotFindWalletInvoiceError"],
   fun _ message => mkErrData G_LightningPaymentError (Some ("User tried to pay invoice with hash " +:+ message +:+ ", but it does not exist")) None);
  (["NoValidNodeForPubkeyError"],
   fun _ _ => mkErrData G_LightningPaymentError (Some "Temporary failure when trying to pay, please retry payment") None);
  (["PaymentAttemptsTimedOutError"],
   fun _ _ => mkErrData G_LightningPaymentError (Some "Temporary failure when trying to pay, please try again later") None);
  (["InvoiceExpiredOrBadPaymentHashError"],
   fun _ _ => mkErrData G_LightningPaymentError (Some "Invoice already expired, or has bad payment hash") None);
  (["CouldNotFindUserFromIdError"],
   fun _ message => mkErrData G_NotFoundError (Some ("User does not exist for id " +:+ message)) None);
  (["CouldNotFindAccountFromUsernameError"],
   fun _ message => mkErrData G_NotFoundError (Some ("Account does not exist for username " +:+ message)) None);
  (["CouldNotFindTransactionsForAccountError"],
   fun _ _ => mkErrData G_NotFoundError (Some "No transactions found for your account.") None);
  (["CouldNotFindUserFromPhoneError"],
   fun _ message => mkErrData G_NotFoundError (Some ("User does not exist for phone " +:+ message)) None);
  (["CouldNotFindUserFromWalletIdError"],
   fun _ message => mkErrData G_NotFoundError (Some ("User does not exist for wallet-id " +:+ message)) None);
  (["ContactNotExistentError"],
   fun _ message => mkErrData G_NotFoundError (Some ("Contact does not exist for account " +:+ message)) None);
  (["SelfPaymentError"],
   fun _ _ => mkErrData G_SelfPaymentError (Some "User tried to pay themselves") None);
  (["LnInvoiceMissingPaymentSecretError"],
   fun _ _ => mkErrData G_InvoiceDecodeError (Some "Invoice is missing its 'payment secret' value") None);
  (["InvalidChecksumForLnInvoiceError"],
   fun _ _ => mkErrData G_InvoiceDecodeError (Some "Invoice has an invalid checksum, please check again") None);
  (["LnPaymentRequestInTransitError"],
   fun _ _ => mkErrData G_ValidationInternalError (Some "There is a pending payment for this invoice") None);
  (["SatoshiAmountRequiredError"],
   fun _ _ => mkErrData G_ValidationInternalError (Some "An amount is required to complete payment") None);
  (["InvalidSatoshiAmountError"],
   fun _ _ => mkErrData G_ValidationInternalError (Some "A valid satoshi amount is required") None);
  (["InvalidBtcPaymentAmountError"],
   fun _ _ => mkErrData G_ValidationInternalError (Some "A valid satoshi amount is required") None);
  (["InvalidUsdPaymentAmountError"],
   fun _ _ => mkErrData G_ValidationInternalError (Some "A valid usd amount is required") None);
  (["BtcAmountTooLargeError"],
   fun _ _ => mkErrData G_ValidationInternalError (Some "Sats amount passed is too large") None);
  (["UsdAmountTooLargeError"],
   fun _ _ => mkErrData G_ValidationInternalError (Some "Usd cents amount passed is too large") None);
  (["LnPaymentRequestNonZeroAmountRequiredError"],
   fun _ _ => mkErrData G_ValidationInternalError (Some "Invoice does not have a valid amount to pay") None);
  (["LnPaymentRequestZeroAmountRequiredError"],
   fun _ _ => mkErrData G_ValidationInternalError (Some "Invoice must be a zero-amount invoice") None);
  (["InvalidPhoneNumberPhoneProviderError"],
   fun _ _ => mkErrData G_ValidationInternalError (Some "Phone number is not a valid phone number") None);
  (["RestrictedRegionPhoneProviderError"],
   fun _ _ => mkErrData G_ValidationInternalError (Some "Phone number is not from a valid region") None);
  (["PhoneProviderConnectionError"],
   fun _ _ => mkErrData G_PhoneProviderError (Some "Phone provider temporarily unreachable") None);
  (["UnsubscribedRecipientPhoneProviderError"],
   fun _ _ => mkErrData G_ValidationInternalError (Some "Phone number has opted out of receiving messages") None);
  (["InvalidContactAlias"],
   fun _ _ => mkErrData G_ValidationInternalError (Some "ContactAlias has incorrect characters or length") None);
  (["InvoiceCreateRateLimiterExceededError"; "InvoiceCreateForRecipientRateLimiterExceededError"],
   fun _ _ => mkErrData G_TooManyRequestError (Some "Too many invoices creation, please wait for a while and try again.") None);
  (["OnChainAddressCreateRateLimiterExceededError"],
   fun _ _ => mkErrData G_TooManyRequestError (Some "Too many onchain addresses creation, please wait for a while and try again.") None);
  (["UserPhoneCodeAttemptPhoneRateLimiterExceededError"],
   fun _ _ => mkErrData G_TooManyRequestError (Some "Too many phone code attempts, please wait for a while and try again.") None);
  (["UserPhoneCodeAttemptIpRateLimiterExceededError"],
   fun _ _ => mkErrData G_TooManyRequestError (Some "Too many phone code attempts on same network, please wait for a while and try again.") None);
  (["CouldNotFindPhoneCodeError"],
   fun _ _ => mkErrData G_PhoneCodeError (Some "Invalid or incorrect phone code entered.") None);
  (["CouldNotFindAccountFromPhoneError"],
   fun _ _ => mkErrData G_PhoneCodeError (Some "Invalid or incorrect phone entered.") None);
  (["UserLoginPhoneRateLimiterExceededError"],
   fun _ _ => mkErrData G_TooManyRequestError (Some "Too many login attempts, please wait for a while and try again.") None);
  (["UserLoginIpRateLimiterExceededError"],
   fun _ _ => mkErrData G_TooManyRequestError (Some "Too many login attempts on same network, please wait for a while and try again.") None);
  (["InvalidQuizQuestionIdError"],
   fun _ _ => mkErrData G_ValidationInternalError (Some "Invalid quiz question id was passed.") None);
  (["RewardAlreadyPresentError"],
   fun _ _ => mkErrData G_ValidationInternalError (Some "Reward for quiz question was already claimed.") None);
  (["ZeroAmountForUsdRecipientError"],
   fun _ _ => mkErrData G_ValidationInternalError (Some "Amount sent was too low for recipient's usd wallet.") None);
  (["InvalidPhoneMetadataForRewardError"; "InvalidIPMetadataForRewardError"],
   fun _ _ => mkErrData G_ValidationInternalError (Some "Unsupported phone carrier for rewards.") None);
  (["NoConnectionToDealerError"],
   fun _ _ => mkErrData G_DealerOfflineError (Some "No connection to dealer to perform USD operation.") None);
  (["DealerStalePriceError"],
   fun _ _ => mkErrData G_DealerOfflineError (Some "Stale dealer price, can't perform USD operation.") None);
  (["RouteNotFoundError"],
   fun _ _ => mkErrData G_RouteFindingError (Some "Unable to find a route for payment.") None);
  (["UnknownNextPeerError"],
   fun _ _ => mkErrData G_RouteFindingError (Some "Unable to find a route for payment.") None)].

(** Cases of the [switch], part 2. *)
Definition cases_2 : list (list string * case_body) :=
  [
  (["ProbeForRouteTimedOutError"; "ProbeForRouteTimedOutFromApplicationError"],
   fun _ _ => mkErrData G_RouteFindingError (Some "Unable to find a route for payment.") None);
  (["InsufficientOnChainFundsError"],
   fun _ _ => mkErrData G_InsufficientLiquidityError (Some "Onchain withdrawals halted while we replenish the hot wallet. Withdrawals will be resumed shortly, and Lightning withdrawals are still available.") None);
  (["CPFPAncestorLimitReachedError"],
   fun _ _ => mkErrData G_OnChainPaymentError (Some "Onchain payments temporarily unavailable because of busy mempool queue. Withdraw via Lightning until queue is cleared.") None);
  (["PaymentInTransitionError"],
   fun _ _ => mkErrData G_LightningPaymentError (Some "Payment was sent and is still in transition.") None);
  (["TemporaryChannelFailureError"],
   fun _ _ => mkErrData G_LightningPaymentError (Some "Issue with lightning payment, please try again.") None);
  (["UsernameNotAvailableError"],
   fun _ _ => mkErrData G_UsernameError (Some "username not available") None);
  (["UsernameIsImmutableError"],
   fun _ _ => mkErrData G_UsernameError (Some "username is immutable") None);
  (["InvalidWalletId"],
   fun _ _ => mkErrData G_ValidationInternalError (Some "Invalid walletId for account.") None);
  (["InsufficientBalanceError"],
   fun _ message => mkErrData G_InsufficientBalanceError (Some message) None);
  (["CaptchaUserFailToPassError"],
   fun _ _ => mkErrData G_ValidationInternalError (Some "Captcha validation failed.") None);
  (["LessThanDustThresholdError"],
   fun _ message => mkErrData G_ValidationInternalError (Some message) None);
  (["OffChainServiceUnavailableError"; "OnChainServiceUnavailableError"],
   fun name _ => mkErrData G_LndOfflineError (Some (service_type name +:+ " action failed, please try again in a few minutes. If the problem persists, please contact support.")) None);
  (["InactiveAccountError"],
   fun _ _ => mkErrData G_ValidationInternalError (Some "Account is inactive.") None);
  (["InvalidCoordinatesError"],
   fun _ _ => mkErrData G_InvalidCoordinatesError (None) None);
  (["InvalidBusinessTitleLengthError"],
   fun _ _ => mkErrData G_InvalidBusinessTitleLengthError (None) None);
  (["RebalanceNeededError"],
   fun _ _ => mkErrData G_RebalanceNeededError (None) None);
  (["CannotConnectToDbError"; "DbConnectionClosedError"],
   fun _ _ => mkErrData G_DbError (Some "Service offline, please try again in a few minutes. If the problem persists, please contact support.") None)].

(** Cases of the [switch], part 3. *)
Definition cases_3 : list (list string * case_body) :=
  [
  (["RateLimiterExceededError"; "RateLimitError"; "RateLimitServiceError";
    "CouldNotFindUserError"; "LedgerError"; "LedgerServiceError"; "LedgerFacadeError";
    "LightningError"; "BadPaymentDataError"; "LnInvoiceDecodeError"; "LightningServiceError";
    "CouldNotDecodeReturnedPaymentRequest"; "InvoiceNotFoundError"; "LnPaymentPendingError";
    "LnAlreadyPaidError"; "PaymentNotFoundError"; "InconsistentDataError"; "AuthorizationError";
    "RepositoryError"; "PersistError"; "DuplicateError"; "CouldNotFindError"; "ValidationError";
    "LnRouteValidationError"; "BadAmountForRouteError"; "InvalidUsername"; "InvalidPhoneNumber";
    "InvalidEmailAddress"; "InvalidTargetConfirmations"; "NoContactForUsernameError";
    "NoWalletExistsForUserError"; "NoBtcWalletExistsForAccountError"; "LimitsExceededError";
    "CouldNotFindLightningPaymentFlowError"; "NoExpiredLightningPaymentFlowsError";
    "CouldNotUpdateLightningPaymentFlowError"; "CouldNotFindWalletFromIdError";
    "CouldNotListWalletsFromAccountIdError"; "CouldNotFindWalletFromUsernameError";
    "CouldNotFindWalletFromUsernameAndCurrencyError"; "CouldNotFindWalletFromOnChainAddressError";
    "CouldNotFindWalletFromOnChainAddressesError"; "CouldNotFindBtcWalletForAccountError";
    "CouldNotListWalletsFromWalletCurrencyError"; "CouldNotFindLnPaymentFromHashError";
    "LockError"; "LockServiceError"; "ResourceAttemptsLockServiceError";
    "ResourceExpiredLockServiceError"; "PriceError"; "PriceServiceError";
    "PriceNotAvailableError"; "DealerPriceNotAvailableError"; "PriceHistoryNotAvailableError";
    "OnChainError"; "TransactionDecodeError"; "OnChainServiceError";
    "CouldNotFindOnChainTransactionError"; "NotificationsError"; "NotificationsServiceError";
    "InvalidDeviceNotificationsServiceError"; "AccountError"; "IpFetcherError";
    "IpFetcherServiceError"; "CouldNotFindTransactionError";
    "CouldNotFindTransactionMetadataError"; "InvalidLedgerTransactionId"; "CacheError";
    "CacheNotAvailableError"; "CacheServiceError"; "CacheUndefinedError";
    "UserPhoneCodeAttemptPhoneMinIntervalRateLimiterExceededError"; "PhoneProviderServiceError";
    "MissingPhoneMetadataError"; "InvalidPhoneMetadataTypeError";
    "InvalidPhoneMetadataCountryError"; "MissingIPMetadataError"; "InvalidIPMetadataProxyError";
    "InvalidIPMetadataASNError"; "InvalidIPMetadataCountryError"; "InvalidAccountStatusError";
    "InvalidOnChainAddress"; "InvalidScanDepthAmount"; "InsufficientBalanceForRoutingError";
    "InsufficientBalanceForLnPaymentError"; "InvalidLanguageError"; "InvalidAccountLevelError";
    "InvalidWithdrawFeeError"; "InvalidUsdCents"; "NonIntegerError"; "ColdStorageError";
    "ColdStorageServiceError"; "InvalidCurrentColdStorageWalletServiceError";
    "InsufficientBalanceForRebalanceError"; "InvalidOrNonWalletTransactionError";
    "FeeDifferenceError"; "NoTransactionToSettleError"; "CorruptLndDbError";
    "NotImplementedError"; "NotReachableError"; "DealerPriceError"; "DealerPriceServiceError";
    "InvalidNegativeAmountError"; "DomainError"; "ErrorLevel"; "RankedErrorLevel";
    "InvalidCurrencyBaseAmountError"; "NoTransactionToUpdateError"; "BalanceLessThanZeroError";
    "CouldNotFindAccountFromKratosIdError"; "MissingPhoneError"; "InvalidKratosUserId";
    "InvalidLightningPaymentFlowBuilderStateError"; "NonLnPaymentTransactionForPaymentFlowError";
    "MissingPropsInTransactionForPaymentFlowError"; "InvalidZeroAmountPriceRatioInputError";
    "InvalidCurrencyForWalletError"; "InvalidLightningPaymentFlowStateError";
    "InvalidLedgerTransactionStateError"; "BadInputsForFindError";
    "LnHashPresentInIntraLedgerFlowError"; "IntraLedgerHashPresentInLnFlowError"; "PubSubError";
    "PubSubServiceError"; "BigIntConversionError"; "BigIntFloatConversionError";
    "SafeWrapperError"; "InvalidFeeProbeStateError"; "InvalidPubKeyError";
    "SkipProbeForPubkeyError"; "SecretDoesNotMatchAnyExistingHodlInvoiceError"; "CaptchaError";
    "InvalidNonHodlInvoiceError"; "InvalidAccountIdError"; "AuthenticationError"; "KratosError";
    "LikelyNoUserWithThisPhoneExistError"; "LikelyUserAlreadyExistError";
    "AuthenticationKratosError"; "MissingExpiredAtKratosError"; "MissingTotpKratosError";
    "IncompatibleSchemaUpgradeError"],
   fun name message => mkErrData G_UnexpectedClientError (Some ("Unexpected error occurred, please try again or contact support if it persists (code: " +:+ name +:+ colon_message message +:+ ")")) None)].

(** Cases of the [switch], part 4. *)
Definition cases_4 : list (list string * case_body) :=
  [
  (["UnknownRouteNotFoundError"],
   fun _ _ => mkErrData G_RouteFindingError (Some "Unknown error occurred when trying to find a route for payment.") None);
  (["UnknownLnInvoiceDecodeError"],
   fun _ _ => mkErrData G_InvoiceDecodeError (Some "Invalid lightning request, couldn't decode.") None);
  (["UnknownRepositoryError"; "UnknownLedgerError"],
   fun name _ => mkErrData G_DbError (Some ("Unknown error occurred (code: " +:+ name +:+ ")")) (Some "fatal"));
  (["UnknownLightningServiceError"],
   fun name _ => mkErrData G_LightningPaymentError (Some ("Unknown error occurred (code: " +:+ name +:+ ")")) None);
  (["UnknownRateLimitServiceError"; "UnknownLockServiceError"; "UnknownPriceServiceError";
    "UnknownOnChainServiceError"; "UnknownNotificationsServiceError";
    "UnknownIpFetcherServiceError"; "UnknownCacheServiceError";
    "UnknownPhoneProviderServiceError"; "UnknownColdStorageServiceError";
    "UnknownDealerPriceServiceError"; "UnknownPubSubError"; "UnknownBigIntConversionError";
    "UnknownKratosError"],
   fun name _ => mkErrData G_UnknownClientError (Some ("Unknown error occurred (code: " +:+ name +:+ ")")) None);
  (["UnknownCaptchaError"],
   fun name message => mkErrData G_UnknownClientError (Some ("Unknown error occurred (code: " +:+ name +:+ colon_message message +:+ ")")) None)].

Definition all_cases : list (list string * case_body) := cases_1 ++ cases_2 ++ cases_3 ++ cases_4.

(** The [case] of a name: the first one that lists it. *)
Definition find_case (name : string) : option case_body :=
  snd <$> find (fun c => existsb (String.eqb name) (fst c)) all_cases.

(** [mapError]; the [default] clause calls [assertUnreachable], which throws. *)
Definition mapError (dustThreshold : string) (e : error) : result ApolloError :=
  let name := error_name (error_class e) in
  match find_case name with
  | Some body =>
      match newApollo dustThreshold (body name (error_message e)) with
      | Some a => Ok a
      | None => Throw (new JsTypeError)
      end
  | None => Throw (new_msg JsError ("This should never compile with " +:+ name))
  end.

(** [mapAndParseErrorForGqlResponse]: what the client receives.  The [path] of a
    new error is [undefined] and left out. *)
Record IError : Type := mkIError { ie_message : string; ie_code : string }.

Definition mapAndParseErrorForGqlResponse (dustThreshold : string) (e : error)
    : result IError :=
  let* mapped := mapError dustThreshold e in
  Ok (mkIError (ae_message mapped) (ae_code mapped)).

Module ErrorMapSpec.

Lemma newApollo_total dust d : is_Some (newApollo dust d).
Proof. destruct d as [[] ? ?]; simpl; eauto. Qed.

Definition handled (c : ErrClass) : bool := match find_case (error_name c) with Some _ => true | None => false end.

(** The classes no [case] names. *)
Definition unhandled_classes : list ErrClass :=
  [JsError; JsRangeError; JsSyntaxError; JsTypeError; ConfigError;
   OathkeeperError; UnknownOathkeeperServiceError; OathkeeperUnauthorizedServiceError;
   OathkeeperForbiddenServiceError; OathkeeperMissingAuthorizationHeaderError;
   SwapError; SwapServiceError; UnknownSwapServiceError; SwapErrorHealthCheckFailed;
   SwapErrorChannelBalanceTooLow; SwapErrorNoActiveLoopdNode;
   NoOutboundLiquidityForSwapError; SwapTriggerError; SwapClientNotResponding;
   InvalidWalletInvoiceBuilderStateError].

Lemma handled_spec c : handled c = negb (bool_decide (c ∈ unhandled_classes)).
Proof. destruct c; vm_compute; reflexivity. Qed.

Lemma mapError_ok dust e body : find_case (error_name (error_class e)) = Some body ->
  exists a, mapError dust e = Ok a /\
    newApollo dust (body (error_name (error_class e)) (error_message e)) = Some a.
Proof.
  intros H. unfold mapError. rewrite H.
  destruct (newApollo_total dust (body (error_name (error_class e)) (error_message e)))
    as [a Ha]. rewrite Ha. eauto.
Qed.

(** C39. mapError returns an error for the client for every class of application error
    but the listed ones (the errors of the swap and oathkeeper services,
    ConfigError, the built-in errors and InvalidWalletInvoiceBuilderStateError), for
    which its default clause raises. *)
Theorem mapError_total (dust : string) (e : error) :
  (exists a, mapError dust e = Ok a) <-> error_class e ∉ unhandled_classes.
Proof.
  pose proof (handled_spec (error_class e)) as H. unfold handled in H. split.
  - intros [a Ha] Hin. rewrite bool_decide_eq_true_2 in H by done.
    unfold mapError in Ha. by destruct (find_case _).
  - intros Hn. rewrite bool_decide_eq_false_2 in H by done.
    destruct (find_case _) as [body|] eqn:Hb; [|done].
    destruct (mapError_ok dust e body Hb) as (a & Ha & _). eauto.
Qed.

(** The classes of failures of a service whose details stay inside. *)
Definition opaque_failure (c : ErrClass) : bool :=
  String.prefix "Unknown" (error_name c) && negb (bool_decide (c = UnknownCaptchaError)).

(** What a client receives for an error whose class name starts with Unknown, the
    captcha error aside, does not depend on the message of the error: details of a
    failing service are not disclosed. *)
Theorem unknown_errors_opaque (dust : string) (c : ErrClass) (m1 m2 : string) :
  opaque_failure c = true ->
  mapAndParseErrorForGqlResponse dust (mkError c m1) =
  mapAndParseErrorForGqlResponse dust (mkError c m2).
Proof.
  intros H. destruct c; try (vm_compute in H; discriminate H); reflexivity.
Qed.

Lemma unknown_errors_opaque_witness :
  mapAndParseErrorForGqlResponse "5460" (mkError UnknownRepositoryError "E11000 duplicate key") =
  mapAndParseErrorForGqlResponse "5460" (mkError UnknownRepositoryError "").
Proof. exact (unknown_errors_opaque "5460" UnknownRepositoryError _ _ eq_refl). Defined.

End ErrorMapSpec.
