(* ===== verification/Connections.v ===== *)
(** * Pages of a list

    [lib/graphql/connections.js]: the part of an array that is between two cursors, which
    are identifiers of its elements.  A client that asks for the first elements after the
    end of the page it has, until there is no next page, gets the whole array once; and
    the same backwards. *)

From S2P Require Import Prelude Errors.
#[local] Open Scope string_scope.
#[local] Open Scope Z_scope.
#[local] Open Scope list_scope.

Section Connection.
Context {A : Type} (id : A -> string).

Record ConnectionArgs : Type := mkArgs {
  arg_after : option string;
  arg_before : option string;
  arg_first : option Z;
  arg_last : option Z
}.
Record Edge : Type := mkEdge { edge_cursor : string; edge_node : A }.
Record PageInfo : Type := mkPageInfo {
  startCursor : option string;
  endCursor : option string;
  hasPreviousPage : bool;
  hasNextPage : bool
}.
Record Connection : Type := mkConnection { edges : list Edge; pageInfo : PageInfo }.

(** [array.findIndex((obj) => obj.id === cursor)]. *)
Fixpoint findIndex (cursor : string) (array : list A) : Z :=
  match array with
  | [] => -1
  | obj :: rest =>
      if String.eqb (id obj) cursor then 0
      else let i := findIndex cursor rest in if i <? 0 then -1 else i + 1
  end.

(** [array.slice(start, end)], where neither is negative. *)
Definition slice (start stop : Z) (array : list A) : list A :=
  take (Z.to_nat stop - Z.to_nat start) (drop (Z.to_nat start) array).

(** The message of a negative number of elements. *)
Definition negative_message (name : string) : string :=
  let q := String (Ascii.ascii_of_nat 34) "" in
  "Argument " +:+ q +:+ name +:+ q +:+ " must be a non-negative integer".

Definition connectionFromArray (array : list A) (args : ConnectionArgs) : result Connection :=
  let sliceStart := 0 in
  let arrayLength := Z.of_nat (length array) in
  let sliceEnd := sliceStart + arrayLength in
  let startOffset := Z.max sliceStart 0 in
  let endOffset := Z.min sliceEnd arrayLength in
  let afterOffset := match arg_after args with
                     | Some (String _ _ as c) => findIndex c array
                     | _ => -1
                     end in
  let startOffset := if (0 <=? afterOffset) && (afterOffset <? arrayLength)
                     then Z.max startOffset (afterOffset + 1) else startOffset in
  let beforeOffset := match arg_before args with
                      | Some (String _ _ as c) => findIndex c array
                      | _ => endOffset
                      end in
  let endOffset := if (0 <=? beforeOffset) && (beforeOffset <? arrayLength)
                   then Z.min endOffset beforeOffset else endOffset in
  let* endOffset := match arg_first args with
                    | Some first =>
                        if first <? 0 then Throw (new_msg JsError (negative_message "first"))
                        else Ok (Z.min endOffset (startOffset + first))
                    | None => Ok endOffset
                    end in
  let* startOffset := match arg_last args with
                      | Some last =>
                          if last <? 0 then Throw (new_msg JsError (negative_message "last"))
                          else Ok (Z.max startOffset (endOffset - last))
                      | None => Ok startOffset
                      end in
  let slice := slice (startOffset - sliceStart) (endOffset - sliceStart) array in
  let edges := List.map (fun obj => mkEdge (id obj) obj) slice in
  let lowerBound := if arg_after args is Some _ then afterOffset + 1 else 0 in
  let upperBound := if arg_before args is Some _ then beforeOffset else arrayLength in
  Ok (mkConnection edges
        (mkPageInfo (option_map edge_cursor (head edges)) (option_map edge_cursor (last edges))
           (match arg_last args with Some _ => lowerBound <? startOffset | None => false end)
           (match arg_first args with Some _ => endOffset <? upperBound | None => false end))).

(** ** A client that pages *)

Definition nodes_of (c : Connection) : list A := List.map edge_node (edges c).

(** The pages after a cursor, [n] elements at a time; [None] after [fuel] pages, or when a
    page fails. *)
Fixpoint all_after (fuel : nat) (n : Z) (array : list A) (after : option string) : option (list A) :=
  match fuel with
  | O => None
  | S fuel =>
      match connectionFromArray array (mkArgs after None (Some n) None) with
      | Ok page =>
          if hasNextPage (pageInfo page)
          then match all_after fuel n array (endCursor (pageInfo page)) with
               | Some rest => Some (nodes_of page ++ rest)
               | None => None
               end
          else Some (nodes_of page)
      | _ => None
      end
  end.

(** The pages before a cursor. *)
Fixpoint all_before (fuel : nat) (n : Z) (array : list A) (before : option string) : option (list A) :=
  match fuel with
  | O => None
  | S fuel =>
      match connectionFromArray array (mkArgs None before None (Some n)) with
      | Ok page =>
          if hasPreviousPage (pageInfo page)
          then match all_before fuel n array (startCursor (pageInfo page)) with
               | Some rest => Some (rest ++ nodes_of page)
               | None => None
               end
          else Some (nodes_of page)
      | _ => None
      end
  end.

(** ** Properties *)

(** The elements have different identifiers, and none is empty. *)
Definition identified (array : list A) : Prop := NoDup (List.map id array) /\ "" ∉ List.map id array.

Lemma findIndex_at l1 x l2 : identified (l1 ++ x :: l2) ->
  findIndex (id x) (l1 ++ x :: l2) = Z.of_nat (length l1).
Proof.
  intros [Hn _]. rewrite List.map_app in Hn. simpl in Hn.
  induction l1 as [|y l1 IH]; simpl in *; [by rewrite String.eqb_refl|].
  apply NoDup_cons in Hn as [Hy Hn]. destruct (String.eqb_spec (id y) (id x)) as [Heq|_].
  - destruct Hy. rewrite Heq. apply elem_of_app. right. by left.
  - rewrite IH by done. destruct (_ <? _) eqn:Hl; bool_prop; lia.
Qed.

Lemma nodes_edges (l : list A) : List.map edge_node (List.map (fun obj => mkEdge (id obj) obj) l) = l.
Proof. rewrite List.map_map. apply List.map_id. Qed.

Lemma last_edges (l : list A) :
  option_map edge_cursor (last (List.map (fun obj => mkEdge (id obj) obj) l)) = option_map id (last l).
Proof.
  change (List.map (fun obj => mkEdge (id obj) obj) l) with ((fun obj => mkEdge (id obj) obj) <$> l).
  rewrite fmap_last. by destruct (last l).
Qed.

Lemma slice_after l1 l2 n : 0 <= n ->
  slice (Z.of_nat (length l1)) (Z.min (Z.of_nat (length (l1 ++ l2))) (Z.of_nat (length l1) + n)) (l1 ++ l2) =
    take (Z.to_nat n) l2.
Proof.
  intros Hn. unfold slice. rewrite Nat2Z.id, drop_app_length, length_app.
  destruct (Z.leb_spec n (Z.of_nat (length l2))) as [Hl|Hl].
  - f_equal. lia.
  - rewrite !take_ge by lia. done.
Qed.

(** The cursor of an element of the array. *)
Definition cursor_at (l1 : list A) : option string := option_map id (last l1).

(** The offset of a cursor, as the code finds it. *)
Lemma cursor_offset l1 l2 (none : Z) : identified (l1 ++ l2) ->
  match cursor_at l1 with Some (String _ _ as c) => findIndex c (l1 ++ l2) | _ => none end =
    if decide (l1 = []) then none else Z.of_nat (length l1) - 1.
Proof.
  unfold cursor_at. intros Hi. destruct l1 as [|x l0 _] using rev_ind; [done|].
  rewrite last_snoc. simpl. rewrite decide_False by (by destruct l0).
  rewrite <- app_assoc in *. simpl in *. rewrite length_app. simpl. rewrite (findIndex_at l0 x l2) by done.
  destruct Hi as [_ He]. rewrite List.map_app in He. destruct (id x) eqn:Hx; [|lia].
  destruct He. apply elem_of_app. right. simpl. rewrite Hx. by left.
Qed.

Lemma page_after l1 l2 n : identified (l1 ++ l2) -> 0 <= n ->
  exists page, connectionFromArray (l1 ++ l2) (mkArgs (cursor_at l1) None (Some n) None) = Ok page /\
    nodes_of page = take (Z.to_nat n) l2 /\
    endCursor (pageInfo page) = cursor_at (take (Z.to_nat n) l2) /\
    hasNextPage (pageInfo page) = (n <? Z.of_nat (length l2)).
Proof.
  intros Hi Hn. unfold connectionFromArray. cbn [arg_after arg_before arg_first arg_last].
  rewrite cursor_offset by done. set (off := if decide (l1 = []) then -1 else _).
  assert (Hoff : off = Z.of_nat (length l1) - 1) by (unfold off; destruct (decide _) as [->|]; simpl; lia).
  clearbody off. subst off.
  replace (if _ && _ then Z.max (Z.max 0 0) _ else Z.max 0 0) with (Z.of_nat (length l1)).
  2:{ rewrite length_app. destruct (Z.leb_spec 0 (Z.of_nat (length l1) - 1)),
        (Z.ltb_spec (Z.of_nat (length l1) - 1) (Z.of_nat (length l1 + length l2))); simpl; lia. }
  rewrite (proj2 (Z.ltb_ge n 0)) by done. rewrite Z.add_0_l, Z.min_id, Z.ltb_irrefl, andb_false_r. simpl.
  rewrite !Z.sub_0_r, slice_after by done. eexists. split; [reflexivity|]. simpl.
  split_and!; [apply nodes_edges| |].
  - apply last_edges.
  - rewrite length_app. apply eq_true_iff_eq. rewrite !Z.ltb_lt. lia.
Qed.

(** The elements from a cursor on. *)
Lemma all_after_from n (Hn : 0 < n) fuel : forall l1 l2, identified (l1 ++ l2) -> (length l2 < fuel)%nat ->
  all_after fuel n (l1 ++ l2) (cursor_at l1) = Some l2.
Proof.
  induction fuel as [|fuel IH]; intros l1 l2 Hi Hf; [lia|]. cbn [all_after].
  destruct (page_after l1 l2 n Hi ltac:(lia)) as (page & -> & Hnodes & Hcur & Hnext).
  rewrite Hnext, Hnodes, Hcur. destruct (Z.ltb_spec n (Z.of_nat (length l2))) as [Hl|Hl].
  - set (k := Z.to_nat n) in *. assert (Hcursor : cursor_at (take k l2) = cursor_at (l1 ++ take k l2)).
    { unfold cursor_at. rewrite last_app. destruct (last (take k l2)) eqn:He; [done|].
      apply last_None in He. apply (f_equal length) in He. rewrite length_take in He. simpl in He. lia. }
    assert (Hall : l1 ++ l2 = (l1 ++ take k l2) ++ drop k l2) by (by rewrite <- app_assoc, take_drop).
    rewrite Hcursor, Hall, IH; [by rewrite take_drop|by rewrite <- Hall|rewrite length_drop; lia].
  - by rewrite take_ge by lia.
Qed.

(** *** Backwards *)

Definition cursor_before (l2 : list A) : option string := option_map id (head l2).

Lemma before_offset l1 l2 : identified (l1 ++ l2) ->
  match cursor_before l2 with
  | Some (String _ _ as c) => findIndex c (l1 ++ l2)
  | _ => Z.of_nat (length (l1 ++ l2))
  end = Z.of_nat (length l1).
Proof.
  unfold cursor_before. intros Hi. destruct l2 as [|x l2]; simpl; [by rewrite app_nil_r|].
  rewrite (findIndex_at l1 x l2) by done. destruct Hi as [_ He]. rewrite List.map_app in He.
  destruct (id x) eqn:Hx; [|done]. destruct He. apply elem_of_app. right. simpl. rewrite Hx. by left.
Qed.

Lemma slice_before l1 l2 n : 0 <= n ->
  slice (Z.max 0 (Z.of_nat (length l1) - n)) (Z.of_nat (length l1)) (l1 ++ l2) =
    drop (length l1 - Z.to_nat n) l1.
Proof.
  intros Hn. unfold slice. rewrite Nat2Z.id.
  replace (Z.to_nat (Z.max 0 (Z.of_nat (length l1) - n))) with (length l1 - Z.to_nat n)%nat by lia.
  rewrite drop_app_le by lia. rewrite take_app_le by (rewrite length_drop; lia).
  apply take_ge. rewrite length_drop. lia.
Qed.

Lemma page_before l1 l2 n : identified (l1 ++ l2) -> 0 <= n ->
  exists page, connectionFromArray (l1 ++ l2) (mkArgs None (cursor_before l2) None (Some n)) = Ok page /\
    nodes_of page = drop (length l1 - Z.to_nat n) l1 /\
    startCursor (pageInfo page) = cursor_before (drop (length l1 - Z.to_nat n) l1) /\
    hasPreviousPage (pageInfo page) = (n <? Z.of_nat (length l1)).
Proof.
  intros Hi Hn. unfold connectionFromArray. cbn [arg_after arg_before arg_first arg_last].
  rewrite Z.add_0_l, Z.min_id, before_offset by done. simpl.
  replace (if _ && _ then Z.min _ _ else _) with (Z.of_nat (length l1)).
  2:{ rewrite length_app. destruct (Z.leb_spec 0 (Z.of_nat (length l1))),
        (Z.ltb_spec (Z.of_nat (length l1)) (Z.of_nat (length l1 + length l2))); simpl; lia. }
  rewrite (proj2 (Z.ltb_ge n 0)) by done. simpl. rewrite !Z.sub_0_r, slice_before by done.
  eexists. split; [reflexivity|]. simpl. split_and!; [apply nodes_edges| |].
  - by destruct (drop _ l1).
  - apply eq_true_iff_eq. rewrite !Z.ltb_lt. lia.
Qed.

Lemma all_before_from n (Hn : 0 < n) fuel : forall l1 l2, identified (l1 ++ l2) -> (length l1 < fuel)%nat ->
  all_before fuel n (l1 ++ l2) (cursor_before l2) = Some l1.
Proof.
  induction fuel as [|fuel IH]; intros l1 l2 Hi Hf; [lia|]. cbn [all_before].
  destruct (page_before l1 l2 n Hi ltac:(lia)) as (page & -> & Hnodes & Hcur & Hprev).
  rewrite Hprev, Hnodes, Hcur. destruct (Z.ltb_spec n (Z.of_nat (length l1))) as [Hl|Hl].
  - set (k := (length l1 - Z.to_nat n)%nat) in *.
    assert (Hcursor : cursor_before (drop k l1) = cursor_before (drop k l1 ++ l2)).
    { unfold cursor_before. destruct (drop k l1) eqn:He; [|done].
      apply (f_equal length) in He. rewrite length_drop in He. simpl in He. lia. }
    assert (Hall : l1 ++ l2 = take k l1 ++ (drop k l1 ++ l2)) by (by rewrite app_assoc, take_drop).
    rewrite Hcursor, Hall, IH; [by rewrite take_drop|by rewrite <- Hall|rewrite length_take; lia].
  - by replace (length l1 - Z.to_nat n)%nat with 0%nat by lia.
Qed.

(** C40. For an array whose elements have distinct, non-empty identifiers, a client that
    asks for the first n elements, n positive, after the end cursor of the page it
    has until there is no next page gets exactly the array, and so does one that
    asks for the last n elements before the start cursor until there is no previous
    page. *)
Theorem pages_cover (array : list A) (n : Z) (fuel : nat)
    (Hi : identified array) (Hn : 0 < n) (Hf : (length array < fuel)%nat) :
  all_after fuel n array None = Some array /\ all_before fuel n array None = Some array.
Proof.
  split; [exact (all_after_from n Hn fuel [] array Hi Hf)|].
  pose proof (all_before_from n Hn fuel array []) as Hb. rewrite app_nil_r in Hb. by apply Hb.
Qed.

End Connection.

Lemma pages_cover_witness :
  all_after (fun s : string => s) 6 2 ["a"; "b"; "c"; "d"; "e"] None = Some ["a"; "b"; "c"; "d"; "e"] /\
  all_before (fun s : string => s) 6 2 ["a"; "b"; "c"; "d"; "e"] None = Some ["a"; "b"; "c"; "d"; "e"].
Proof.
  apply (pages_cover (fun s : string => s)); [|reflexivity|simpl; lia].
  split; [|intros H; repeat (apply elem_of_cons in H as [H|H]; [discriminate H|]); by apply elem_of_nil in H].
  repeat (apply NoDup_cons; split;
    [intros H; repeat (apply elem_of_cons in H as [H|H]; [discriminate H|]); by apply elem_of_nil in H|]).
  apply NoDup_nil. exact I.
Defined.
