(* ===== verification/Money.v ===== *)
(** * Amounts, price ratios and fees

    [lib/domain/shared] ([primitives.js], [safe.js], [calculator.js]), the
    checks and the price arithmetic of [lib/domain/payments] ([index.js],
    [price-ratio.js], [ln-fees.js]), [lib/domain/ledger/fee-reimbursement.js]
    and the on-chain fee calculators of [lib/domain/wallets]. *)

From S2P Require Import Prelude JsNum Errors.

(** ** [domain/shared/primitives.js] *)

Inductive WalletCurrency : Type := Usd | Btc.

#[global] Instance WalletCurrency_eq_dec : EqDecision WalletCurrency.
Proof. solve_decision. Defined.

(** The string of a currency. *)
Definition currency_string (c : WalletCurrency) : string :=
  match c with Usd => "USD" | Btc => "BTC" end.

(** [ExchangeCurrencyUnit]. *)
Definition exchange_unit (c : WalletCurrency) : string :=
  match c with Usd => "USDCENT" | Btc => "BTCSAT" end.

(** An amount is a bigint and the currency it counts. *)
Record PaymentAmount : Type := mkAmount {
  amount : Z;
  currency : WalletCurrency
}.

#[global] Instance PaymentAmount_eq_dec : EqDecision PaymentAmount.
Proof. solve_decision. Defined.

Definition ZERO_SATS : PaymentAmount := mkAmount 0 Btc.
Definition ZERO_CENTS : PaymentAmount := mkAmount 0 Usd.
Definition MAX_SATS : PaymentAmount := mkAmount 10000000000000 Btc.
Definition MAX_CENTS : PaymentAmount := mkAmount 10000000000000 Usd.

Record BankFee : Type := mkBankFee {
  usdBankFee : PaymentAmount;
  btcBankFee : PaymentAmount
}.

Definition ZERO_BANK_FEE : BankFee := mkBankFee ZERO_CENTS ZERO_SATS.

(** A wallet id and its currency. *)
Record WalletDescriptor : Type := mkWallet {
  wd_id : string;
  wd_currency : WalletCurrency
}.

Definition BtcWalletDescriptor (walletId : string) : WalletDescriptor := mkWallet walletId Btc.
Definition UsdWalletDescriptor (walletId : string) : WalletDescriptor := mkWallet walletId Usd.
Definition BtcPaymentAmount (sats : Z) : PaymentAmount := mkAmount sats Btc.
Definition UsdPaymentAmount (cents : Z) : PaymentAmount := mkAmount cents Usd.

(** ** [domain/shared/safe.js] *)

(** [None] is [undefined], on which [BigInt] raises a [TypeError].  The message of
    the error, the rendering of a number that is no integer, is left out. *)
Definition safeBigInt (n : option number) : result Z :=
  match n with
  | Some x => match BigInt x with
              | Some z => Ok z
              | None => Er (new BigIntFloatConversionError)
              end
  | None => Er (new UnknownBigIntConversionError)
  end.

Definition paymentAmountFromNumber (n : option number) (c : WalletCurrency)
    : result PaymentAmount :=
  let* safeAmount := safeBigInt n in
  Ok (mkAmount safeAmount c).

Definition balanceAmountFromNumber (n : option number) (c : WalletCurrency)
    : result PaymentAmount :=
  let* safeAmount := safeBigInt n in
  Ok (mkAmount safeAmount c).

(** ** [domain/shared/calculator.js] *)

Module AmountCalculator.

(** Division and remainder of bigints truncate towards zero and raise a
    [RangeError] on a zero divisor. *)
Definition bigint_div (a b : Z) : result Z :=
  if b =? 0 then Throw (new_msg JsRangeError "Division by zero") else Ok (Z.quot a b).
Definition bigint_rem (a b : Z) : result Z :=
  if b =? 0 then Throw (new_msg JsRangeError "Division by zero") else Ok (Z.rem a b).

Definition add (a b : PaymentAmount) : PaymentAmount :=
  mkAmount (amount a + amount b) (currency a).

Definition sub (a b : PaymentAmount) : PaymentAmount :=
  mkAmount (amount a - amount b) (currency a).

Definition divRound (a : PaymentAmount) (b : Z) : result PaymentAmount :=
  let* quotient := bigint_div (amount a) b in
  let* roundDownBound := bigint_div b 2 in
  let* md := bigint_rem (amount a) b in
  Ok (if roundDownBound <? md
      then mkAmount (quotient + 1) (currency a)
      else mkAmount quotient (currency a)).

Definition divFloor (a : PaymentAmount) (b : Z) : result PaymentAmount :=
  let* quotient := bigint_div (amount a) b in
  Ok (mkAmount quotient (currency a)).

Definition divCeil (a : PaymentAmount) (b : Z) : result PaymentAmount :=
  let* quotient := bigint_div (amount a) b in
  let* md := bigint_rem (amount a) b in
  Ok (if 0 <? md
      then mkAmount (quotient + 1) (currency a)
      else mkAmount quotient (currency a)).

Definition mulBasisPoints (a : PaymentAmount) (basisPoints : Z) : result PaymentAmount :=
  divRound (mkAmount (amount a * basisPoints) (currency a)) 10000.

(** *** The quotients, as integers *)

Definition round_quot (a b : Z) : Z :=
  if Z.quot b 2 <? Z.rem a b then Z.quot a b + 1 else Z.quot a b.
Definition ceil_quot (a b : Z) : Z :=
  if 0 <? Z.rem a b then Z.quot a b + 1 else Z.quot a b.

Lemma divRound_spec a b : b <> 0 ->
  divRound a b = Ok (mkAmount (round_quot (amount a) b) (currency a)).
Proof.
  intros Hb. unfold divRound, bigint_div, bigint_rem, round_quot.
  apply Z.eqb_neq in Hb. rewrite Hb. simpl. by case_match.
Qed.

Lemma divFloor_spec a b : b <> 0 ->
  divFloor a b = Ok (mkAmount (Z.quot (amount a) b) (currency a)).
Proof. intros Hb. unfold divFloor, bigint_div. apply Z.eqb_neq in Hb. by rewrite Hb. Qed.

Lemma divCeil_spec a b : b <> 0 ->
  divCeil a b = Ok (mkAmount (ceil_quot (amount a) b) (currency a)).
Proof.
  intros Hb. unfold divCeil, bigint_div, bigint_rem, ceil_quot.
  apply Z.eqb_neq in Hb. rewrite Hb. simpl. by case_match.
Qed.

Lemma quot_rem_pos a b : 0 <= a -> 0 < b ->
  a = b * Z.quot a b + Z.rem a b /\ 0 <= Z.rem a b < b /\ 0 <= Z.quot a b.
Proof.
  intros. split; [by apply Z.quot_rem'|]. split; [by apply Z.rem_bound_pos|].
  by apply Z.quot_pos.
Qed.

(** The rounded quotient of non-negative amounts is a nearest integer, the
    lower one when two are equally near. *)
Lemma round_quot_nearest a b : 0 <= a -> 0 < b ->
  let q := round_quot a b in
  2 * (q * b - a) < b /\ 2 * (a - q * b) <= b /\ 0 <= q.
Proof.
  intros Ha Hb q. subst q. unfold round_quot.
  destruct (quot_rem_pos a b Ha Hb) as (E & Hr & Hq).
  destruct (quot_rem_pos b 2) as (E2 & Hr2 & _); [lia..|].
  destruct (_ <? _) eqn:H; bool_prop; nia.
Qed.

Lemma ceil_quot_least a b : 0 <= a -> 0 < b ->
  let q := ceil_quot a b in a <= q * b /\ q * b < a + b /\ 0 <= q.
Proof.
  intros Ha Hb q. subst q. unfold ceil_quot.
  destruct (quot_rem_pos a b Ha Hb) as (E & Hr & Hq).
  destruct (0 <? _) eqn:H; bool_prop; nia.
Qed.

Lemma round_quot_exact k b : 0 <= k -> 0 < b -> round_quot (k * b) b = k.
Proof.
  intros Hk Hb. unfold round_quot. rewrite Z.quot_mul, Z.rem_mul by lia.
  destruct (quot_rem_pos b 2) as (_ & _ & ?); [lia..|].
  destruct (_ <? 0) eqn:Hc; bool_prop; lia.
Qed.

Lemma round_quot_le_ceil a b : 0 <= a -> 0 < b -> round_quot a b <= ceil_quot a b.
Proof.
  intros Ha Hb. unfold round_quot, ceil_quot.
  destruct (quot_rem_pos b 2) as (_ & _ & ?); [lia..|].
  repeat case_match; bool_prop; lia.
Qed.

End AmountCalculator.

Import AmountCalculator.

(** ** [domain/payments/price-ratio.js] *)

Module PriceRatio.

(** The object built by [PriceRatio({usd, btc})]: its methods close over the
    two amounts. *)
Record priceRatio : Type := mkRatio {
  ratio_usd : PaymentAmount;
  ratio_btc : PaymentAmount
}.

Definition PriceRatio (usd btc : PaymentAmount) : result priceRatio :=
  if (amount usd =? 0) || (amount btc =? 0)
  then Er (new InvalidZeroAmountPriceRatioInputError)
  else Ok (mkRatio usd btc).

(** [amount.amount || 1n]. *)
Definition or_one (z : Z) : Z := if z =? 0 then 1 else z.

Definition convertFromUsd (r : priceRatio) (convert : PaymentAmount)
    : result PaymentAmount :=
  if amount convert =? 0 then Ok (mkAmount 0 Btc)
  else
    let* a := divRound (mkAmount (amount convert * amount (ratio_btc r)) Btc)
                       (amount (ratio_usd r)) in
    Ok (mkAmount (or_one (amount a)) Btc).

Definition convertFromBtc (r : priceRatio) (convert : PaymentAmount)
    : result PaymentAmount :=
  if amount convert =? 0 then Ok (mkAmount 0 Usd)
  else
    let* a := divRound (mkAmount (amount convert * amount (ratio_usd r)) Usd)
                       (amount (ratio_btc r)) in
    Ok (mkAmount (or_one (amount a)) Usd).

Definition convertFromBtcToFloor (r : priceRatio) (convert : PaymentAmount)
    : result PaymentAmount :=
  divFloor (mkAmount (amount convert * amount (ratio_usd r)) Usd) (amount (ratio_btc r)).

Definition convertFromBtcToCeil (r : priceRatio) (convert : PaymentAmount)
    : result PaymentAmount :=
  divCeil (mkAmount (amount convert * amount (ratio_usd r)) Usd) (amount (ratio_btc r)).

Definition usdPerSat (r : priceRatio) : number :=
  num_div (Number (amount (ratio_usd r))) (Number (amount (ratio_btc r))).

(** [toPriceRatio]; [precision] is the configured [RATIO_PRECISION].  [BigInt]
    raises on a ratio that is not finite. *)
Definition bigint_or_throw (x : number) : result Z :=
  match BigInt x with Some z => Ok z | None => Throw (new JsRangeError) end.

Definition toPriceRatio (precision ratio : number) : result priceRatio :=
  let* u := bigint_or_throw (Math_floor (num_mul ratio precision)) in
  let* b := bigint_or_throw precision in
  PriceRatio (mkAmount u Usd) (mkAmount b Btc).

(** The ratios of the system have positive amounts on both sides. *)
Definition positive_ratio (r : priceRatio) : Prop :=
  0 < amount (ratio_usd r) /\ 0 < amount (ratio_btc r).

Lemma PriceRatio_ok usd btc r : PriceRatio usd btc = Ok r ->
  r = mkRatio usd btc /\ amount usd <> 0 /\ amount btc <> 0.
Proof. unfold PriceRatio. case_match; [done|]. intros [= <-]. by bool_prop. Qed.

Lemma PriceRatio_positive usd btc r :
  0 <= amount usd -> 0 <= amount btc -> PriceRatio usd btc = Ok r -> positive_ratio r.
Proof.
  intros Hu Hb H. apply PriceRatio_ok in H as (-> & ? & ?).
  split; simpl; lia.
Qed.

(** The conversions as integer functions. *)
Definition round_conv (c to from : Z) : Z :=
  if c =? 0 then 0 else or_one (round_quot (c * to) from).

Lemma convertFromBtc_spec r c : amount (ratio_btc r) <> 0 ->
  convertFromBtc r c =
    Ok (mkAmount (round_conv (amount c) (amount (ratio_usd r)) (amount (ratio_btc r))) Usd).
Proof.
  intros H. unfold convertFromBtc, round_conv. case_match; [done|].
  by rewrite divRound_spec.
Qed.

Lemma convertFromUsd_spec r c : amount (ratio_usd r) <> 0 ->
  convertFromUsd r c =
    Ok (mkAmount (round_conv (amount c) (amount (ratio_btc r)) (amount (ratio_usd r))) Btc).
Proof.
  intros H. unfold convertFromUsd, round_conv. case_match; [done|].
  by rewrite divRound_spec.
Qed.

Lemma convertFromBtcToFloor_spec r c : amount (ratio_btc r) <> 0 ->
  convertFromBtcToFloor r c =
    Ok (mkAmount (Z.quot (amount c * amount (ratio_usd r)) (amount (ratio_btc r))) Usd).
Proof. intros H. unfold convertFromBtcToFloor. by rewrite divFloor_spec. Qed.

Lemma convertFromBtcToCeil_spec r c : amount (ratio_btc r) <> 0 ->
  convertFromBtcToCeil r c =
    Ok (mkAmount (ceil_quot (amount c * amount (ratio_usd r)) (amount (ratio_btc r))) Usd).
Proof. intros H. unfold convertFromBtcToCeil. by rewrite divCeil_spec. Qed.

Lemma or_one_pos z : 0 <= z -> 1 <= or_one z.
Proof. unfold or_one. case_match; bool_prop; lia. Qed.

Lemma round_conv_bounds c to from : 0 <= c -> 0 < to -> 0 < from ->
  (round_conv c to from = 0 <-> c = 0) /\
  Z.quot (c * to) from <= round_conv c to from /\
  round_conv c to from <= ceil_quot (c * to) from.
Proof.
  intros Hc Ht Hf. unfold round_conv. destruct (c =? 0) eqn:E; bool_prop.
  - subst c. rewrite Z.mul_0_l, Z.quot_0_l by lia. unfold ceil_quot.
    rewrite Z.rem_0_l, Z.quot_0_l by lia. simpl. lia.
  - assert (0 < c * to) by nia.
    pose proof (round_quot_nearest (c * to) from) as (H1 & H2 & H3); [lia..|].
    pose proof (ceil_quot_least (c * to) from) as (H4 & H5 & H6); [lia..|].
    pose proof (round_quot_le_ceil (c * to) from) as H7.
    destruct (quot_rem_pos (c * to) from) as (E1 & E2 & E3); [lia..|].
    assert (1 <= ceil_quot (c * to) from) by nia.
    assert (Z.quot (c * to) from <= round_quot (c * to) from)
      by (unfold round_quot; case_match; lia).
    unfold or_one. case_match; bool_prop; lia.
Qed.

Lemma round_conv_nonneg c to from : 0 <= c -> 0 < to -> 0 < from -> 0 <= round_conv c to from.
Proof.
  intros Hc Ht Hf. destruct (round_conv_bounds c to from Hc Ht Hf) as (_ & H & _).
  assert (0 <= Z.quot (c * to) from) by (apply Z.quot_pos; nia). lia.
Qed.

(** Rounded quotients are monotone in the dividend. *)
Lemma round_quot_mono a a' b : 0 <= a <= a' -> 0 < b -> round_quot a b <= round_quot a' b.
Proof.
  intros Ha Hb.
  pose proof (round_quot_nearest a b) as (H1 & H2 & H3); [lia..|].
  pose proof (round_quot_nearest a' b) as (H4 & H5 & H6); [lia..|].
  destruct (Z.le_gt_cases (round_quot a b) (round_quot a' b)) as [|Hgt]; [done|].
  assert (round_quot a b = round_quot a' b + 1) as E by nia. nia.
Qed.

Lemma round_conv_mono c c' to from : 0 <= c <= c' -> 0 < to -> 0 < from ->
  round_conv c to from <= round_conv c' to from.
Proof.
  intros Hc Ht Hf. unfold round_conv.
  destruct (c =? 0) eqn:E, (c' =? 0) eqn:E'; bool_prop; try lia.
  - transitivity 1; [lia|]. apply or_one_pos.
    by apply (round_quot_nearest (c' * to) from); nia.
  - pose proof (round_quot_mono (c * to) (c' * to) from ltac:(nia) Hf).
    pose proof (round_quot_nearest (c * to) from) as (? & ? & ?); [nia..|].
    unfold or_one. repeat case_match; bool_prop; lia.
Qed.

(** One thousand satoshis for 23 cents. *)
Definition sample_ratio : priceRatio := mkRatio (mkAmount 23 Usd) (mkAmount 1000 Btc).

Section Properties.
Context (r : priceRatio) (Hr : positive_ratio r).

(** For a price ratio with positive sides and a non-negative amount, the floor, rounded
    and ceiling conversions to cents are defined and ordered, the ceiling is at most
    one cent above the floor, the exact value lies between them, and the rounded
    conversion is zero only for a zero amount. *)
Theorem conversion_bounds (c : PaymentAmount) (Hc : 0 <= amount c) :
  exists f m u,
    convertFromBtcToFloor r c = Ok (mkAmount f Usd) /\
    convertFromBtc r c = Ok (mkAmount m Usd) /\
    convertFromBtcToCeil r c = Ok (mkAmount u Usd) /\
    f <= m <= u /\ u <= f + 1 /\
    f * amount (ratio_btc r) <= amount c * amount (ratio_usd r)
      <= u * amount (ratio_btc r) /\
    (m = 0 <-> amount c = 0).
Proof using Hr.
  destruct Hr as [Hu Hb]. rewrite convertFromBtcToFloor_spec, convertFromBtc_spec,
    convertFromBtcToCeil_spec by lia.
  do 3 eexists. do 3 (split; [done|]).
  set (n := amount c * amount (ratio_usd r)).
  assert (0 <= n) by (subst n; nia).
  pose proof (round_conv_bounds (amount c) _ _ Hc Hu Hb) as (H1 & H2 & H3).
  pose proof (ceil_quot_least n (amount (ratio_btc r))) as (H4 & H5 & H6); [lia..|].
  destruct (quot_rem_pos n (amount (ratio_btc r))) as (E1 & E2 & E3); [lia..|].
  fold n in H2, H3. repeat split; try done; try nia; try tauto.
Qed.

(** A price ratio with positive sides converts its own bitcoin side to its dollar side
    and back. *)
Theorem ratio_converts_itself :
  convertFromBtc r (mkAmount (amount (ratio_btc r)) Btc) =
    Ok (mkAmount (amount (ratio_usd r)) Usd) /\
  convertFromUsd r (mkAmount (amount (ratio_usd r)) Usd) =
    Ok (mkAmount (amount (ratio_btc r)) Btc).
Proof using Hr.
  destruct Hr as [Hu Hb].
  rewrite convertFromBtc_spec, convertFromUsd_spec by lia. simpl.
  unfold round_conv, or_one.
  rewrite !(Z.mul_comm (amount (ratio_btc r)) (amount (ratio_usd r))).
  rewrite round_quot_exact by lia.
  rewrite (Z.mul_comm (amount (ratio_usd r)) (amount (ratio_btc r))).
  rewrite round_quot_exact by lia.
  by rewrite !(proj2 (Z.eqb_neq _ _)) by lia.
Qed.

(** Both rounded conversions of a positive price ratio are defined on non-negative
    amounts and are monotone: a larger amount never converts to a smaller one. *)
Theorem conversion_monotone (c c' : PaymentAmount) :
  0 <= amount c <= amount c' ->
  exists u u' b b',
    convertFromBtc r c = Ok u /\ convertFromBtc r c' = Ok u' /\
    convertFromUsd r c = Ok b /\ convertFromUsd r c' = Ok b' /\
    amount u <= amount u' /\ amount b <= amount b'.
Proof using Hr.
  intros Hc. destruct Hr as [Hu Hb].
  rewrite !convertFromBtc_spec, !convertFromUsd_spec by lia.
  do 4 eexists. do 4 (split; [done|]). simpl. split; by apply round_conv_mono.
Qed.
End Properties.

Lemma sample_ratio_positive : positive_ratio sample_ratio.
Proof. by split. Qed.

Lemma conversion_bounds_witness : exists f m u,
  convertFromBtcToFloor sample_ratio (mkAmount 12345 Btc) = Ok (mkAmount f Usd) /\
  convertFromBtc sample_ratio (mkAmount 12345 Btc) = Ok (mkAmount m Usd) /\
  convertFromBtcToCeil sample_ratio (mkAmount 12345 Btc) = Ok (mkAmount u Usd) /\
  f <= m <= u.
Proof.
  destruct (conversion_bounds sample_ratio sample_ratio_positive (mkAmount 12345 Btc))
    as (f & m & u & H1 & H2 & H3 & H4 & _); [simpl; lia|].
  exists f, m, u. auto.
Defined.

Lemma ratio_converts_itself_witness :
  convertFromBtc sample_ratio (mkAmount 1000 Btc) = Ok (mkAmount 23 Usd) /\
  convertFromUsd sample_ratio (mkAmount 23 Usd) = Ok (mkAmount 1000 Btc).
Proof. exact (ratio_converts_itself sample_ratio sample_ratio_positive). Defined.

Lemma conversion_monotone_witness : exists u u' b b',
  convertFromBtc sample_ratio (mkAmount 21 Btc) = Ok u /\
  convertFromBtc sample_ratio (mkAmount 4000 Btc) = Ok u' /\
  convertFromUsd sample_ratio (mkAmount 21 Btc) = Ok b /\
  convertFromUsd sample_ratio (mkAmount 4000 Btc) = Ok b' /\
  amount u <= amount u' /\ amount b <= amount b'.
Proof.
  exact (conversion_monotone sample_ratio sample_ratio_positive (mkAmount 21 Btc)
           (mkAmount 4000 Btc) ltac:(simpl; lia)).
Defined.

End PriceRatio.

Import PriceRatio.

(** ** [domain/payments/index.js] *)

Module CheckedAmounts.

(** [None] is [null].  [amount > MAX.amount] compares a number with a bigint. *)
Definition checkedToBtcPaymentAmount (amt : option number) : result PaymentAmount :=
  match amt with
  | None => Er (new InvalidBtcPaymentAmountError)
  | Some x =>
      if num_gt_bigint x (amount MAX_SATS) then Er (new BtcAmountTooLargeError)
      else if negb (num_eqb (Math_floor x) x) then Er (new InvalidBtcPaymentAmountError)
      else if negb (num_truthy x && num_ltb (num 0) x)
      then Er (new InvalidBtcPaymentAmountError)
      else paymentAmountFromNumber (Some x) Btc
  end.

Definition checkedToUsdPaymentAmount (amt : option number) : result PaymentAmount :=
  match amt with
  | None => Er (new InvalidUsdPaymentAmountError)
  | Some x =>
      if num_gt_bigint x (amount MAX_CENTS) then Er (new UsdAmountTooLargeError)
      else if negb (num_eqb (Math_floor x) x) then Er (new InvalidUsdPaymentAmountError)
      else if negb (num_truthy x && num_ltb (num 0) x)
      then Er (new InvalidUsdPaymentAmountError)
      else paymentAmountFromNumber (Some x) Usd
  end.

(** The check of the sender's input for the currency of its wallet. *)
Definition checkedAmount (c : WalletCurrency) (amt : option number) : result PaymentAmount :=
  match c with
  | Btc => checkedToBtcPaymentAmount amt
  | Usd => checkedToUsdPaymentAmount amt
  end.

Lemma Q_floor_eq q : Qeq_bool (inject_Z (Qfloor q)) q = Q_is_int q.
Proof.
  unfold Q_is_int. apply eq_true_iff_eq. rewrite !Qeq_bool_iff. by split; intros H; symmetry.
Qed.

(** On an integer number the checks only look at the integer. *)
Lemma checkedAmount_int c q z : (q == inject_Z z)%Q ->
  checkedAmount c (Some (Fin q)) =
    if 10000000000000 <? z
    then Er (new (match c with Btc => BtcAmountTooLargeError
                             | Usd => UsdAmountTooLargeError end))
    else if z <=? 0
    then Er (new (match c with Btc => InvalidBtcPaymentAmountError
                             | Usd => InvalidUsdPaymentAmountError end))
    else Ok (mkAmount z c).
Proof.
  intros Hq.
  assert (Hgt : num_gt_bigint (Fin q) 10000000000000 = (10000000000000 <? z)).
  { unfold num_gt_bigint, num_ltb, num. setoid_rewrite Hq. apply num_ltb_num. }
  assert (Hpos : num_truthy (Fin q) && num_ltb (num 0) (Fin q) = (0 <? z)).
  { unfold num_truthy, num_ltb, num. setoid_rewrite Hq.
    pose proof (num_truthy_num z) as H1. pose proof (num_ltb_num 0 z) as H2.
    unfold num_truthy, num_ltb, num in H1, H2. rewrite H1, H2. lia. }
  assert (Hint : Q_is_int q = true).
  { unfold Q_is_int. apply Qeq_bool_iff.
    by rewrite (Qfloor_comp _ _ Hq), Qfloor_Z. }
  assert (Hfl : num_eqb (Math_floor (Fin q)) (Fin q) = true).
  { unfold num_eqb, Math_floor, num. by rewrite Q_floor_eq. }
  assert (Hb : BigInt (Fin q) = Some z) by (apply BigInt_Some; eauto).
  destruct c; unfold checkedAmount, checkedToBtcPaymentAmount, checkedToUsdPaymentAmount,
    paymentAmountFromNumber, safeBigInt; simpl amount; rewrite Hgt;
    destruct (10000000000000 <? z) eqn:?; try done;
    rewrite Hfl, Hpos, Hb; rewrite (Z.leb_antisym 0 z); by destruct (0 <? z).
Qed.

Lemma checkedAmount_ok_inv c amt a : checkedAmount c amt = Ok a ->
  currency a = c /\ 0 < amount a <= 10000000000000 /\
  exists q, amt = Some (Fin q) /\ (q == inject_Z (amount a))%Q.
Proof.
  intros H. assert (exists x z, amt = Some x /\ BigInt x = Some z) as (x & z & -> & Hz).
  { destruct amt as [x|]; [|by destruct c]. exists x.
    destruct (BigInt x) as [z|] eqn:E; [by exists z|].
    destruct c; unfold checkedAmount, checkedToBtcPaymentAmount,
      checkedToUsdPaymentAmount, paymentAmountFromNumber, safeBigInt in H;
      rewrite E in H; by branches. }
  apply BigInt_Some in Hz as (q & -> & Hq).
  rewrite (checkedAmount_int c q z Hq) in H.
  destruct (_ <? z) eqn:E1; [done|]. destruct (z <=? 0) eqn:E2; [done|].
  simplify_eq/=. bool_prop. split_and!; [done|lia..|]. by exists q.
Qed.

(** The check of an amount given by a client accepts exactly the numbers that are
    integers from 1 to the maximum of 10^13, and the amount it returns has that
    value and the currency asked for. *)
Theorem checkedAmount_spec (c : WalletCurrency) (amt : option number) (a : PaymentAmount) :
  checkedAmount c amt = Ok a <->
  currency a = c /\ 0 < amount a <= 10000000000000 /\
  exists q, amt = Some (Fin q) /\ (q == inject_Z (amount a))%Q.
Proof.
  split; [apply checkedAmount_ok_inv|].
  intros (Hc & Hb & q & -> & Hq). rewrite (checkedAmount_int c q _ Hq).
  rewrite (proj2 (Z.ltb_ge _ _)), (proj2 (Z.leb_gt _ _)) by lia.
  subst c. by destruct a.
Qed.

(** The check of an amount given by a client never raises: it returns an amount or an
    error that is a ValidationError. *)
Theorem checkedAmount_total (c : WalletCurrency) (amt : option number) :
  (exists a, checkedAmount c amt = Ok a) \/
  (exists e, checkedAmount c amt = Er e /\ is_a e ValidationError = true).
Proof.
  destruct (checkedAmount c amt) as [a|e|e] eqn:H; [by eauto|right|].
  - exists e. split; [done|]. revert H.
    destruct c, amt as [x|]; unfold checkedAmount, checkedToBtcPaymentAmount,
      checkedToUsdPaymentAmount; try (by intros [= <-]);
    (case_match; [by intros [= <-]|]; case_match; [by intros [= <-]|];
     case_match; [by intros [= <-]|]);
    unfold paymentAmountFromNumber, safeBigInt, BigInt;
    destruct x as [|[]|q]; try done;
    (match goal with H : negb (num_eqb _ _) = false |- _ =>
       unfold num_eqb, Math_floor, num in H; rewrite Q_floor_eq in H;
       apply negb_false_iff in H; rewrite H end); done.
  - exfalso. destruct c, amt as [x|]; unfold checkedAmount, checkedToBtcPaymentAmount,
      checkedToUsdPaymentAmount, paymentAmountFromNumber, safeBigInt in H; by branches.
Qed.

End CheckedAmounts.

Import CheckedAmounts.

(** ** [domain/payments/ln-fees.js] *)

Module LnFees.

(** [FEECAP_BASIS_POINTS] of [domain/bitcoin/index.js]: the default cap. *)
Definition FEECAP_BASIS_POINTS : Z := 50.

Record fee_pair : Type := mkFees { fees_btc : PaymentAmount; fees_usd : PaymentAmount }.

Definition maxProtocolFee (feeCapBasisPoints : Z) (a : PaymentAmount)
    : result PaymentAmount :=
  if amount a =? 0 then Ok a
  else
    let* maxFee := mulBasisPoints a feeCapBasisPoints in
    Ok (mkAmount (if amount maxFee =? 0 then 1 else amount maxFee) (currency a)).

Definition intraLedgerFees : fee_pair := mkFees ZERO_SATS ZERO_CENTS.

(** The fee of a probed route, in satoshis, rounded up. *)
Definition feeFromRawRoute (fee : number) : result PaymentAmount :=
  paymentAmountFromNumber (Some (Math_ceil fee)) Btc.

Definition max_fee (cap a : Z) : Z :=
  if a =? 0 then 0 else or_one (round_quot (a * cap) 10000).

Lemma maxProtocolFee_spec cap a :
  maxProtocolFee cap a = Ok (mkAmount (max_fee cap (amount a)) (currency a)).
Proof.
  unfold maxProtocolFee, max_fee, mulBasisPoints.
  destruct (amount a =? 0) eqn:E; [by destruct a; simpl in *; bool_prop; subst|].
  by rewrite divRound_spec.
Qed.

(** The maximal protocol fee of a positive amount is between one unit and the amount, is
    one unit for amounts up to 100, and above that is the nearest integer to half a
    percent of the amount. *)
Theorem maxProtocolFee_bounds (a : PaymentAmount) :
  0 < amount a ->
  exists f, maxProtocolFee FEECAP_BASIS_POINTS a = Ok (mkAmount f (currency a)) /\
    1 <= f <= amount a /\
    (100 < amount a -> 2 * (10000 * f - 50 * amount a) < 10000 /\
                        2 * (50 * amount a - 10000 * f) <= 10000) /\
    (amount a <= 100 -> f = 1).
Proof.
  intros Ha. rewrite maxProtocolFee_spec. eexists. split; [done|].
  unfold max_fee, FEECAP_BASIS_POINTS.
  rewrite (proj2 (Z.eqb_neq _ _)) by lia.
  pose proof (round_quot_nearest (amount a * 50) 10000) as (H1 & H2 & H3); [lia..|].
  unfold or_one. destruct (_ =? 0) eqn:E; bool_prop; lia.
Qed.

(** The maximal fee is monotone in the amount. *)
Lemma max_fee_mono cap a a' : 0 < cap -> 0 <= a <= a' -> max_fee cap a <= max_fee cap a'.
Proof. intros. unfold max_fee. by apply (round_conv_mono a a' cap 10000). Qed.

Lemma maxProtocolFee_bounds_witness : exists f,
  maxProtocolFee FEECAP_BASIS_POINTS (mkAmount 3100 Btc) = Ok (mkAmount f Btc) /\
  1 <= f <= 3100.
Proof.
  destruct (maxProtocolFee_bounds (mkAmount 3100 Btc)) as (f & H & Hb & _); [simpl; lia|].
  by exists f.
Defined.

End LnFees.

(** ** [domain/ledger/fee-reimbursement.js] *)

Module FeeReimbursement.

Record amounts : Type := mkAmounts { ra_btc : PaymentAmount; ra_usd : PaymentAmount }.

Definition getReimbursement (prepaidFeeAmount : amounts) (r : priceRatio)
    (actualFee : PaymentAmount) : result amounts :=
  let feeDifferenceBtc := amount (ra_btc prepaidFeeAmount) - amount actualFee in
  if feeDifferenceBtc <? 0 then Er (new FeeDifferenceError)
  else
    let feeDifferenceBtcAmount := mkAmount feeDifferenceBtc Btc in
    let* feeDifferenceUsdAmount :=
      (if amount actualFee =? 0
       then convertFromBtc r feeDifferenceBtcAmount
       else convertFromBtcToFloor r feeDifferenceBtcAmount) in
    Ok (mkAmounts feeDifferenceBtcAmount feeDifferenceUsdAmount).

(** The reimbursement of a prepaid lightning fee is an error exactly when the actual fee
    exceeds the prepaid one; otherwise it gives back the exact difference in
    satoshis, never more cents than were prepaid, and when a fee was paid the cents
    kept are worth at least that fee at the price of the payment. *)
Theorem reimbursement_bounded (r : priceRatio) (prepaid : amounts) (fee : PaymentAmount)
    (Hr : positive_ratio r) (Hfee : 0 <= amount fee) (Hbtc : 0 <= amount (ra_btc prepaid))
    (Hprepaid : convertFromBtcToCeil r (ra_btc prepaid) = Ok (ra_usd prepaid)) :
  (amount (ra_btc prepaid) < amount fee /\
     getReimbursement prepaid r fee = Er (new FeeDifferenceError)) \/
  (exists res, getReimbursement prepaid r fee = Ok res /\
     amount (ra_btc res) + amount fee = amount (ra_btc prepaid) /\
     0 <= amount (ra_usd res) <= amount (ra_usd prepaid) /\
     (0 < amount fee ->
        amount fee * amount (ratio_usd r)
          <= (amount (ra_usd prepaid) - amount (ra_usd res)) * amount (ratio_btc r))).
Proof.
  destruct Hr as [Hu Hb]. unfold getReimbursement.
  destruct (_ <? 0) eqn:E; bool_prop; [left; split; [lia|done]|right].
  set (d := amount (ra_btc prepaid) - amount fee) in *.
  rewrite convertFromBtcToCeil_spec in Hprepaid by lia. injection Hprepaid as Hp.
  assert (Hpre : amount (ra_usd prepaid) = ceil_quot (amount (ra_btc prepaid)
    * amount (ratio_usd r)) (amount (ratio_btc r))) by by rewrite <- Hp.
  pose proof (ceil_quot_least (amount (ra_btc prepaid) * amount (ratio_usd r))
    (amount (ratio_btc r))) as (C1 & C2 & C3); [nia|lia|]. rewrite <- Hpre in *.
  destruct (amount fee =? 0) eqn:E0; bool_prop.
  - rewrite convertFromBtc_spec by lia. eexists. split; [done|]. simpl.
    pose proof (round_conv_bounds d (amount (ratio_usd r)) (amount (ratio_btc r)))
      as (B1 & B2 & B3); [lia..|].
    assert (d = amount (ra_btc prepaid)) as Hd by (subst d; lia).
    rewrite Hd in *. rewrite <- Hpre in B3.
    assert (0 <= Z.quot (amount (ra_btc prepaid) * amount (ratio_usd r))
              (amount (ratio_btc r))) by (apply Z.quot_pos; nia).
    lia.
  - rewrite convertFromBtcToFloor_spec by lia. eexists. split; [done|].
    cbn [ra_btc ra_usd amount].
    destruct (quot_rem_pos (d * amount (ratio_usd r)) (amount (ratio_btc r)))
      as (Q1 & Q2 & Q3); [nia..|].
    subst d. repeat split; nia.
Qed.

Lemma reimbursement_bounded_witness :
  (1000 < 3 /\ getReimbursement (mkAmounts (mkAmount 1000 Btc) (mkAmount 23 Usd)) sample_ratio
     (mkAmount 3 Btc) = Er (new FeeDifferenceError)) \/
  (exists res, getReimbursement (mkAmounts (mkAmount 1000 Btc) (mkAmount 23 Usd)) sample_ratio
     (mkAmount 3 Btc) = Ok res /\ amount (ra_btc res) + 3 = 1000 /\
     0 <= amount (ra_usd res) <= 23).
Proof.
  destruct (reimbursement_bounded sample_ratio (mkAmounts (mkAmount 1000 Btc) (mkAmount 23 Usd))
    (mkAmount 3 Btc) sample_ratio_positive) as [H|(res & H1 & H2 & H3 & _)];
    [simpl; lia | simpl; lia | reflexivity | by left | right; by exists res].
Defined.

End FeeReimbursement.

(** ** The on-chain fee calculators of [domain/wallets] *)

Module OnChainFees.

Definition onChainDepositFee (amt ratio : number) : number :=
  Math_round (num_mul amt ratio).
Definition lnDepositFee : number := num 0.

Record withdrawal_fee : Type := mkWithdrawalFee { totalFee : number; bankFee : number }.

Definition baseAmount (thresholdImbalance amt imbalance : number) : number :=
  Math_max (Math_min (num_add (num_sub imbalance thresholdImbalance) amt) amt) (num 0).

Definition onChainWithdrawalFee (thresholdImbalance feeRatio : number)
    (minerFee amt minBankFee imbalance : number) : withdrawal_fee :=
  let base := baseAmount thresholdImbalance amt imbalance in
  let bank := Math_max minBankFee (Math_ceil (num_mul base feeRatio)) in
  mkWithdrawalFee (num_add bank minerFee) bank.

Definition onChainIntraLedgerFee : number := num 0.

Lemma Math_max_num a b : Math_max (num a) (num b) = num (Z.max a b).
Proof.
  transitivity (if num_ltb (num a) (num b) then num b else num a); [done|].
  rewrite num_ltb_num. destruct (a <? b) eqn:E; bool_prop; f_equal; lia.
Qed.

Lemma Math_min_num a b : Math_min (num a) (num b) = num (Z.min a b).
Proof.
  transitivity (if num_ltb (num b) (num a) then num b else num a); [done|].
  rewrite num_ltb_num. destruct (b <? a) eqn:E; bool_prop; f_equal; lia.
Qed.

Lemma Qceiling_range v z : (0 <= v)%Q -> (v <= inject_Z z)%Q -> 0 <= Qceiling v <= z.
Proof.
  intros H0 Hz. split.
  - apply (Qceiling_resp_le 0). done.
  - rewrite <- (Qceiling_Z z). by apply Qceiling_resp_le.
Qed.

(** A product with a ratio between 0 and 1 is finite and stays in range. *)
Lemma num_mul_ratio z q : 0 <= z -> safe z -> (0 <= q)%Q -> (q <= 1)%Q ->
  exists v, num_mul (num z) (Fin q) = Fin v /\ (0 <= v)%Q /\ (v <= inject_Z z)%Q.
Proof.
  intros Hz Hs H0 H1. unfold num_mul, num. apply round64_le_safe; [| |done].
  - apply Qmult_le_0_compat; [unfold Qle; simpl; lia|done].
  - rewrite <- (Qmult_1_r (inject_Z z)) at 2.
    destruct (Z.eq_dec z 0) as [->|Hne]; [by rewrite !Qmult_0_l|].
    apply Qmult_le_l; [unfold Qlt; simpl; lia|done].
Qed.

Lemma baseAmount_spec threshold amt imbalance :
  safe (imbalance - threshold) -> safe (imbalance - threshold + amt) ->
  baseAmount (num threshold) (num amt) (num imbalance) =
    num (Z.max 0 (Z.min amt (imbalance - threshold + amt))).
Proof.
  intros H1 H2. unfold baseAmount.
  rewrite num_sub_safe, num_add_safe, Math_min_num, Math_max_num by done. f_equal. lia.
Qed.

(** For amounts exactly representable as numbers and a fee ratio between 0 and 1, the
    bank's on-chain withdrawal fee is an integer between the minimal fee and the
    larger of that fee and the part of the amount above the threshold, and the total
    fee adds the miner fee to it. *)
Theorem withdrawal_fee_bounds (threshold miner amt minBank imbalance : Z) (ratio : Q)
    (Hamt : 0 <= amt) (Hsamt : safe amt) (Hratio : (0 <= ratio)%Q /\ (ratio <= 1)%Q)
    (Hs1 : safe (imbalance - threshold)) (Hs2 : safe (imbalance - threshold + amt)) :
  exists base bank,
    base = Z.max 0 (Z.min amt (imbalance - threshold + amt)) /\
    minBank <= bank <= Z.max minBank base /\
    onChainWithdrawalFee (num threshold) (Fin ratio) (num miner) (num amt) (num minBank)
      (num imbalance) = mkWithdrawalFee (num_add (num bank) (num miner)) (num bank).
Proof.
  set (base := Z.max 0 (Z.min amt (imbalance - threshold + amt))).
  destruct (num_mul_ratio base ratio) as (v & Hv & H0 & Hle);
    [lia | unfold safe in *; lia | tauto..|].
  pose proof (Qceiling_range v base H0 Hle).
  exists base, (Z.max minBank (Qceiling v)). split_and!; [done|lia..|].
  unfold onChainWithdrawalFee. rewrite baseAmount_spec by done. fold base.
  by rewrite Hv, <- Math_max_num.
Qed.

(** For an amount exactly representable as a number and a ratio between 0 and 1, the
    on-chain deposit fee is an integer between zero and the amount. *)
Theorem deposit_fee_bounds (amt : Z) (ratio : Q)
    (Hamt : 0 <= amt) (Hs : safe amt) (Hratio : (0 <= ratio)%Q /\ (ratio <= 1)%Q) :
  exists f, onChainDepositFee (num amt) (Fin ratio) = num f /\ 0 <= f <= amt.
Proof.
  destruct (num_mul_ratio amt ratio) as (v & Hv & H0 & Hle); [done|done|tauto..|].
  exists (Qfloor (v + (1 # 2))). unfold onChainDepositFee. rewrite Hv. split; [done|].
  split.
  - apply (Qfloor_resp_le 0). apply Qle_trans with (y := v); [done|].
    rewrite <- (Qplus_0_r v) at 1. apply Qplus_le_compat; [apply Qle_refl|done].
  - assert (Qfloor (v + (1 # 2)) < amt + 1); [|lia].
    apply Z.lt_le_trans with (m := Qceiling (inject_Z amt + (1 # 2) + (1 # 4))).
    2: { rewrite <- (Qceiling_Z (amt + 1)). apply Qceiling_resp_le.
         unfold Qle; simpl; lia. }
    rewrite Zlt_Qlt. eapply Qle_lt_trans; [apply Qfloor_le|].
    eapply Qlt_le_trans; [|apply Qle_ceiling].
    apply Qle_lt_trans with (y := (inject_Z amt + (1 # 2))%Q).
    { apply Qplus_le_compat; [done|apply Qle_refl]. }
    unfold Qlt; simpl; lia.
Qed.

Lemma withdrawal_fee_bounds_witness : exists base bank,
  base = Z.max 0 (Z.min 50000 (1200000 - 1000000 + 50000)) /\
  2000 <= bank <= Z.max 2000 base /\
  onChainWithdrawalFee (num 1000000) (Fin (1 # 200)) (num 700) (num 50000) (num 2000)
    (num 1200000) = mkWithdrawalFee (num_add (num bank) (num 700)) (num bank).
Proof.
  apply (withdrawal_fee_bounds 1000000 700 50000 2000 1200000 (1 # 200));
    [lia | by vm_compute | by split | by vm_compute | by vm_compute].
Defined.

Lemma deposit_fee_bounds_witness : exists f,
  onChainDepositFee (num 50000) (Fin (3 # 1000)) = num f /\ 0 <= f <= 50000.
Proof. apply deposit_fee_bounds; [lia | by vm_compute | by split]. Defined.

End OnChainFees.
