(* ===== verification/Ledger.v ===== *)
(** * Ledger entries

    The double-entry builders of [lib/services/ledger/domain]
    ([entry-builder.js], [legacy-entry-builder.js], [accounts.js],
    [index.js]).  A builder mutates one [Entry] object of the [medici] package;
    the package is not part of the repository, so the object is an interface:
    the operations the builders call ([MediciEntry]) and what the package
    documents of them ([MediciEntryLaws]). *)

From stdpp Require Export gmap.
From S2P Require Import Prelude JsNum Errors Money.
Import AmountCalculator.

(** ** Metadata objects *)

(** The values stored in a metadata object. *)
Inductive metaval : Type :=
| MUndefined
| MStr (s : string)
| MNum (n : number)
| MBool (b : bool)
| MStrs (l : list string).

(** An object used as a dictionary: [{...a, ...b}] is [spread a b]. *)
Abbreviation metadata := (gmap string metaval).

Definition obj (l : list (string * metaval)) : metadata := list_to_map l.
Definition spread (a b : metadata) : metadata := b ∪ a.
Definition with_currency (m : metadata) (c : WalletCurrency) : metadata :=
  <["currency" := MStr (currency_string c)]> m.

(** ** [services/ledger/domain/accounts.js] and [index.js] *)

Definition assetsMainAccount : string := "Assets".
Definition lndLedgerAccountId : string := (assetsMainAccount +:+ ":Reserve:Lightning").
Definition coldStorageAccountId : string := (assetsMainAccount +:+ ":Reserve:Bitcoind").

Record accountDescriptor : Type := mkAccount {
  ad_id : string;
  ad_currency : WalletCurrency
}.

Definition lndLedgerAccountDescriptor : accountDescriptor := mkAccount lndLedgerAccountId Btc.
Definition coldStorageAccountDescriptor : accountDescriptor :=
  mkAccount coldStorageAccountId Btc.

Definition liabilitiesMainAccount : string := "Liabilities".
Definition toLedgerAccountId (walletId : string) : string :=
  liabilitiesMainAccount +:+ ":" +:+ walletId.
Definition toLedgerAccountDescriptor (w : WalletDescriptor) : accountDescriptor :=
  mkAccount (toLedgerAccountId (wd_id w)) (wd_currency w).

Record staticAccountIds : Type := mkStatic {
  bankOwnerAccountId : string;
  dealerBtcAccountId : string;
  dealerUsdAccountId : string
}.

(** ** The entry object *)

(** A line of an entry: one side is zero. *)
Record ledgerTx : Type := mkTx {
  tx_account : string;
  tx_debit : number;
  tx_credit : number;
  tx_meta : metadata
}.

Class MediciEntry (E : Type) : Type := {
  entry_debit : E -> string -> number -> metadata -> E;
  entry_credit : E -> string -> number -> metadata -> E;
  entry_transactions : E -> list ledgerTx;
  (** [entry.transactions = l] *)
  entry_set_transactions : E -> list ledgerTx -> E
}.

Class MediciEntryLaws (E : Type) `{MediciEntry E} : Prop := {
  transactions_debit (e : E) a n m :
    entry_transactions (entry_debit e a n m) = entry_transactions e ++ [mkTx a n (num 0) m];
  transactions_credit (e : E) a n m :
    entry_transactions (entry_credit e a n m) = entry_transactions e ++ [mkTx a (num 0) n m];
  transactions_set (e : E) l :
    entry_transactions (entry_set_transactions e l) = l
}.

(** The simplest implementation: an entry is the list of its lines. *)
#[global] Instance list_entry : MediciEntry (list ledgerTx) := {
  entry_debit e a n m := e ++ [mkTx a n (num 0) m];
  entry_credit e a n m := e ++ [mkTx a (num 0) n m];
  entry_transactions e := e;
  entry_set_transactions _ l := l
}.

#[global] Instance list_entry_laws : MediciEntryLaws (list ledgerTx).
Proof. by split. Qed.

Section Builders.
Context {E : Type} `{MediciEntry E}.

(** A line whose both sides are zero. *)
Definition zero_line (t : ledgerTx) : bool :=
  num_eqb (tx_debit t) (num 0) && num_eqb (tx_credit t) (num 0).

Definition removeZeroAmountEntries (entry : E) : E :=
  entry_set_transactions entry
    (List.filter (fun t => negb (zero_line t)) (entry_transactions entry)).

Definition credit_amount (entry : E) (acc : string) (a : PaymentAmount) (m : metadata) : E :=
  entry_credit entry acc (Number (amount a)) (with_currency m (currency a)).
Definition debit_amount (entry : E) (acc : string) (a : PaymentAmount) (m : metadata) : E :=
  entry_debit entry acc (Number (amount a)) (with_currency m (currency a)).

(** *** [entry-builder.js] *)

Record amountWithFees : Type := mkWithFees {
  usdWithFees : PaymentAmount;
  btcWithFees : PaymentAmount
}.

Definition addBtcToUsdConversionToDealer (ids : staticAccountIds) (entry : E)
    (btcAmount usdAmount : PaymentAmount) (m : metadata) : E :=
  let entry := credit_amount entry (dealerBtcAccountId ids) btcAmount m in
  debit_amount entry (dealerUsdAccountId ids) usdAmount m.

Definition addUsdToBtcConversionToEntry (ids : staticAccountIds) (entry : E)
    (btcAmount usdAmount : PaymentAmount) (m : metadata) : E :=
  let entry := debit_amount entry (dealerBtcAccountId ids) btcAmount m in
  credit_amount entry (dealerUsdAccountId ids) usdAmount m.

(** The builder objects, by the method that returned them: [EntryBuilder],
    [EntryBuilderFee], [EntryBuilderDebit] and [EntryBuilderCredit] close over
    these fields. *)
Record EntryBuilder : Type := mkEntryBuilder {
  eb_ids : staticAccountIds;
  eb_entry : E;
  eb_metadata : metadata
}.
Record EntryBuilderFee : Type := mkEntryBuilderFee {
  ebf_builder : EntryBuilder;
  ebf_amount : amountWithFees
}.
Record EntryBuilderDebit : Type := mkEntryBuilderDebit {
  ebd_builder : EntryBuilder;
  ebd_amount : amountWithFees;
  ebd_fee : BankFee
}.
Record EntryBuilderCredit : Type := mkEntryBuilderCredit {
  ebc_builder : EntryBuilder;
  ebc_amount : amountWithFees;
  ebc_fee : BankFee;
  ebc_debitCurrency : WalletCurrency
}.

Definition set_entry (b : EntryBuilder) (e : E) : EntryBuilder :=
  mkEntryBuilder (eb_ids b) e (eb_metadata b).

Definition withTotalAmount (b : EntryBuilder) (a : amountWithFees) : EntryBuilderFee :=
  mkEntryBuilderFee b a.

Definition withBankFee (b : EntryBuilderFee) (fee : BankFee) : EntryBuilderDebit :=
  let eb := ebf_builder b in
  let entry :=
    if 0 <? amount (btcBankFee fee)
    then credit_amount (eb_entry eb) (bankOwnerAccountId (eb_ids eb)) (btcBankFee fee)
                       (eb_metadata eb)
    else eb_entry eb in
  mkEntryBuilderDebit (set_entry eb entry) (ebf_amount b) fee.

Definition debitAccount (b : EntryBuilderDebit) (acc : accountDescriptor)
    (additionalMetadata : option metadata) : EntryBuilderCredit :=
  let eb := ebd_builder b in
  let debitMetadata := match additionalMetadata with
                       | Some add => spread (eb_metadata eb) add
                       | None => eb_metadata eb
                       end in
  let debited := if decide (ad_currency acc = Btc) then btcWithFees (ebd_amount b)
                 else usdWithFees (ebd_amount b) in
  let entry := debit_amount (eb_entry eb) (ad_id acc) debited debitMetadata in
  mkEntryBuilderCredit (set_entry eb entry) (ebd_amount b) (ebd_fee b) (ad_currency acc).

Definition debitLnd (b : EntryBuilderDebit) : EntryBuilderCredit :=
  debitAccount b lndLedgerAccountDescriptor None.
Definition debitColdStorage (b : EntryBuilderDebit) : EntryBuilderCredit :=
  debitAccount b coldStorageAccountDescriptor None.

Definition creditAccount (b : EntryBuilderCredit) (acc : accountDescriptor) : E :=
  let eb := ebc_builder b in
  let ids := eb_ids eb in
  let m := eb_metadata eb in
  let usdFee := usdBankFee (ebc_fee b) in
  let btcFee := btcBankFee (ebc_fee b) in
  let usdTotal := usdWithFees (ebc_amount b) in
  let btcTotal := btcWithFees (ebc_amount b) in
  let usdWithOutFee := sub usdTotal usdFee in
  let btcWithOutFee := sub btcTotal btcFee in
  let entry := eb_entry eb in
  let entry :=
    match ebc_debitCurrency b, ad_currency acc with
    | Usd, Usd =>
        if 0 <? amount usdFee
        then addUsdToBtcConversionToEntry ids entry btcFee usdFee m else entry
    | Usd, Btc => addUsdToBtcConversionToEntry ids entry btcTotal usdTotal m
    | Btc, Usd => addBtcToUsdConversionToDealer ids entry btcWithOutFee usdWithOutFee m
    | Btc, Btc => entry
    end in
  let creditAmount := if decide (ad_currency acc = Usd) then usdWithOutFee
                      else btcWithOutFee in
  removeZeroAmountEntries (credit_amount entry (ad_id acc) creditAmount m).

Definition creditLnd (b : EntryBuilderCredit) : E :=
  creditAccount b lndLedgerAccountDescriptor.
Definition creditColdStorage (b : EntryBuilderCredit) : E :=
  creditAccount b coldStorageAccountDescriptor.

(** *** [legacy-entry-builder.js] *)

Record LegacyDebit : Type := mkLegacyDebit {
  ld_builder : EntryBuilder;
  ld_fee : PaymentAmount
}.
(** [LegacyEntryBuilderCreditWithBtcDebit] and [...WithUsdDebit]. *)
Record LegacyCredit : Type := mkLegacyCredit {
  lc_builder : EntryBuilder;
  lc_fee : PaymentAmount;
  lc_debitAmount : PaymentAmount
}.
Inductive legacyCredit : Type := WithBtcDebit (l : LegacyCredit) | WithUsdDebit (l : LegacyCredit).

Definition addUsdToDealer (ids : staticAccountIds) (entry : E)
    (btcAmount usdAmount : PaymentAmount) (m : metadata) : E :=
  let entry := credit_amount entry (dealerBtcAccountId ids) btcAmount m in
  debit_amount entry (dealerUsdAccountId ids) usdAmount m.

Definition withdrawUsdFromDealer (ids : staticAccountIds) (entry : E)
    (btcAmount usdAmount : PaymentAmount) (m : metadata) : E :=
  let entry := debit_amount entry (dealerBtcAccountId ids) btcAmount m in
  credit_amount entry (dealerUsdAccountId ids) usdAmount m.

Definition legacy_withFee (b : EntryBuilder) (fee : PaymentAmount) : LegacyDebit :=
  let entry :=
    if 0 <? amount fee
    then credit_amount (eb_entry b) (bankOwnerAccountId (eb_ids b)) fee (eb_metadata b)
    else eb_entry b in
  mkLegacyDebit (set_entry b entry) fee.

Definition legacy_withoutFee (b : EntryBuilder) : LegacyDebit := legacy_withFee b ZERO_SATS.

Definition legacy_debitAccount (b : LegacyDebit) (accountId : string) (a : PaymentAmount)
    (additionalMetadata : option metadata) : legacyCredit :=
  let eb := ld_builder b in
  let debitMetadata := match additionalMetadata with
                       | Some add => spread (eb_metadata eb) add
                       | None => eb_metadata eb
                       end in
  let entry := debit_amount (eb_entry eb) accountId a debitMetadata in
  let c := mkLegacyCredit (set_entry eb entry) (ld_fee b) a in
  if decide (currency a = Btc) then WithBtcDebit c else WithUsdDebit c.

Definition legacy_debitLnd (b : LegacyDebit) (a : PaymentAmount) : LegacyCredit :=
  let eb := ld_builder b in
  let entry := debit_amount (eb_entry eb) lndLedgerAccountId a (eb_metadata eb) in
  mkLegacyCredit (set_entry eb entry) (ld_fee b) a.

(** The methods of the object of a dollar debit. *)
Definition usd_creditLnd (b : LegacyCredit) (btcCreditAmount : PaymentAmount) : E :=
  let eb := lc_builder b in
  let m := eb_metadata eb in
  let entry := withdrawUsdFromDealer (eb_ids eb) (eb_entry eb) btcCreditAmount
                 (lc_debitAmount b) m in
  let creditAmount := sub btcCreditAmount (lc_fee b) in
  removeZeroAmountEntries
    (entry_credit entry lndLedgerAccountId (Number (amount creditAmount))
       (with_currency m (currency btcCreditAmount))).

Definition usd_creditAccount (b : LegacyCredit) (accountId : string)
    (a : option PaymentAmount) : E :=
  let eb := lc_builder b in
  let m := eb_metadata eb in
  let entry := match a with
               | Some a => withdrawUsdFromDealer (eb_ids eb) (eb_entry eb) a (lc_debitAmount b) m
               | None => eb_entry eb
               end in
  let creditAmount := match a with
                      | Some a => sub a (lc_fee b)
                      | None => lc_debitAmount b
                      end in
  removeZeroAmountEntries (credit_amount entry accountId creditAmount m).

(** The methods of the object of a bitcoin debit. *)
Definition btc_creditLnd (b : LegacyCredit) : E :=
  let eb := lc_builder b in
  let creditAmount := sub (lc_debitAmount b) (lc_fee b) in
  removeZeroAmountEntries
    (credit_amount (eb_entry eb) lndLedgerAccountId creditAmount (eb_metadata eb)).

Definition btc_creditAccount (b : LegacyCredit) (accountId : string)
    (a : option PaymentAmount) : E :=
  let eb := lc_builder b in
  let m := eb_metadata eb in
  let entry := match a with
               | Some a => addUsdToDealer (eb_ids eb) (eb_entry eb) (lc_debitAmount b) a m
               | None => eb_entry eb
               end in
  let creditAmount := match a with
                      | Some a => a
                      | None => sub (lc_debitAmount b) (lc_fee b)
                      end in
  removeZeroAmountEntries (credit_amount entry accountId creditAmount m).

(** [creditAccount] on the object [debitAccount] returned. *)
Definition legacy_creditAccount (b : legacyCredit) (accountId : string)
    (a : option PaymentAmount) : E :=
  match b with
  | WithBtcDebit l => btc_creditAccount l accountId a
  | WithUsdDebit l => usd_creditAccount l accountId a
  end.

End Builders.

(** ** Balances of a list of lines *)

(** The integer value of a side of a line. *)
Definition num_val (n : number) : Z := default 0 (BigInt n).

Definition tx_in_currency (c : WalletCurrency) (t : ledgerTx) : bool :=
  match tx_meta t !! "currency"%string with
  | Some (MStr s) => String.eqb s (currency_string c)
  | _ => false
  end.

(** Credit minus debit of a line, counted in one currency. *)
Definition tx_net (c : WalletCurrency) (t : ledgerTx) : Z :=
  if tx_in_currency c t then num_val (tx_credit t) - num_val (tx_debit t) else 0.

(** The same, counted for one account only. *)
Definition tx_net_account (acc : string) (c : WalletCurrency) (t : ledgerTx) : Z :=
  if String.eqb (tx_account t) acc then tx_net c t else 0.

Definition net (c : WalletCurrency) (l : list ledgerTx) : Z := sumZ (tx_net c) l.
Definition net_account (acc : string) (c : WalletCurrency) (l : list ledgerTx) : Z :=
  sumZ (tx_net_account acc c) l.

(** Double entry: in each currency, credits equal debits. *)
Definition balanced (l : list ledgerTx) : Prop := forall c, net c l = 0.

(** The effect of a line of amount [z] and currency [c']. *)
Definition cents_if (c c' : WalletCurrency) (z : Z) : Z := if decide (c = c') then z else 0.

Lemma num_val_Number z : safe z -> num_val (Number z) = z.
Proof. intros Hs. unfold num_val. by rewrite Number_safe, BigInt_num. Qed.

Lemma num_val_num z : num_val (num z) = z.
Proof. unfold num_val. by rewrite BigInt_num. Qed.

Lemma num_val_0 : num_val (num 0) = 0.
Proof. unfold num_val. by rewrite BigInt_num. Qed.

Lemma tx_in_currency_with c c' m a d k :
  tx_in_currency c (mkTx a d k (with_currency m c')) = bool_decide (c = c').
Proof.
  unfold tx_in_currency, with_currency. simpl. rewrite lookup_insert_eq.
  by destruct c, c'.
Qed.

Lemma tx_net_credit c a z c' m : safe z ->
  tx_net c (mkTx a (num 0) (Number z) (with_currency m c')) = cents_if c c' z.
Proof.
  intros Hs. unfold tx_net, cents_if. rewrite tx_in_currency_with. simpl.
  rewrite num_val_Number, num_val_0 by done. destruct c, c'; simpl; lia.
Qed.

Lemma tx_net_debit c a z c' m : safe z ->
  tx_net c (mkTx a (Number z) (num 0) (with_currency m c')) = - cents_if c c' z.
Proof.
  intros Hs. unfold tx_net, cents_if. rewrite tx_in_currency_with. simpl.
  rewrite num_val_Number, num_val_0 by done. destruct c, c'; simpl; lia.
Qed.

Lemma zero_line_net c t : negb (zero_line t) = false -> tx_net c t = 0.
Proof.
  unfold zero_line, tx_net. intros Hz. bool_prop.
  assert (Hv : forall n, num_eqb n (num 0) = true -> num_val n = 0).
  { intros [| |q] Hn; [done..|]. unfold num_eqb, num in Hn.
    apply Qeq_bool_iff in Hn. unfold num_val.
    by rewrite (proj2 (BigInt_Some (Fin q) 0)) by eauto. }
  rewrite !Hv by done. by case_match.
Qed.

Section BuilderFacts.
Context {E : Type} `{MediciEntry E} {laws : MediciEntryLaws E}.

Lemma transactions_credit_amount (e : E) acc a m :
  entry_transactions (credit_amount e acc a m) = entry_transactions e ++
    [mkTx acc (num 0) (Number (amount a)) (with_currency m (currency a))].
Proof using laws. apply transactions_credit. Qed.

Lemma transactions_debit_amount (e : E) acc a m :
  entry_transactions (debit_amount e acc a m) = entry_transactions e ++
    [mkTx acc (Number (amount a)) (num 0) (with_currency m (currency a))].
Proof using laws. apply transactions_debit. Qed.

Lemma net_credit_amount c (e : E) acc a m : safe (amount a) ->
  net c (entry_transactions (credit_amount e acc a m)) =
    net c (entry_transactions e) + cents_if c (currency a) (amount a).
Proof using laws.
  intros Hs. unfold net. rewrite transactions_credit_amount, sumZ_app, sumZ_cons.
  rewrite tx_net_credit by done. change (sumZ _ []) with 0. lia.
Qed.

Lemma net_debit_amount c (e : E) acc a m : safe (amount a) ->
  net c (entry_transactions (debit_amount e acc a m)) =
    net c (entry_transactions e) - cents_if c (currency a) (amount a).
Proof using laws.
  intros Hs. unfold net. rewrite transactions_debit_amount, sumZ_app, sumZ_cons.
  rewrite tx_net_debit by done. change (sumZ _ []) with 0. lia.
Qed.

Lemma net_account_credit_amount x c (e : E) acc a m : safe (amount a) ->
  net_account x c (entry_transactions (credit_amount e acc a m)) =
    net_account x c (entry_transactions e) +
    (if String.eqb acc x then cents_if c (currency a) (amount a) else 0).
Proof using laws.
  intros Hs. unfold net_account. rewrite transactions_credit_amount, sumZ_app, sumZ_cons.
  unfold tx_net_account at 2. simpl tx_account. rewrite tx_net_credit by done.
  change (sumZ _ []) with 0. lia.
Qed.

Lemma net_account_debit_amount x c (e : E) acc a m : safe (amount a) ->
  net_account x c (entry_transactions (debit_amount e acc a m)) =
    net_account x c (entry_transactions e) -
    (if String.eqb acc x then cents_if c (currency a) (amount a) else 0).
Proof using laws.
  intros Hs. unfold net_account. rewrite transactions_debit_amount, sumZ_app, sumZ_cons.
  unfold tx_net_account at 2. simpl tx_account. rewrite tx_net_debit by done.
  change (sumZ _ []) with 0. case_match; lia.
Qed.

Lemma net_account_removeZero x c (e : E) :
  net_account x c (entry_transactions (removeZeroAmountEntries e)) =
    net_account x c (entry_transactions e).
Proof using laws.
  unfold removeZeroAmountEntries. rewrite transactions_set.
  apply sumZ_filter_zero. intros t Hz. unfold tx_net_account.
  rewrite zero_line_net by done. by case_match.
Qed.

Lemma net_removeZero c (e : E) :
  net c (entry_transactions (removeZeroAmountEntries e)) = net c (entry_transactions e).
Proof using laws.
  unfold removeZeroAmountEntries. rewrite transactions_set.
  apply sumZ_filter_zero, zero_line_net.
Qed.

Lemma removeZero_no_zero (e : E) t :
  t ∈ entry_transactions (removeZeroAmountEntries e) -> zero_line t = false.
Proof using laws.
  unfold removeZeroAmountEntries. rewrite transactions_set, list_elem_of_In, filter_In.
  intros [_ Hz]. by apply negb_true_iff.
Qed.

End BuilderFacts.

#[export] Hint Rewrite @net_credit_amount @net_debit_amount @net_removeZero
  using (try done; lia) : galoy_simpl.

(** ** The entries of the new builder *)

Module EntryBuilderSpec.
Section Spec.
Context {E : Type} `{MediciEntry E} {laws : MediciEntryLaws E}.

(** The composition every caller makes. *)
Definition build (ids : staticAccountIds) (entry : E) (m : metadata) (total : amountWithFees)
    (fee : BankFee) (from : accountDescriptor) (add : option metadata)
    (to : accountDescriptor) : E :=
  creditAccount (debitAccount
    (withBankFee (withTotalAmount (mkEntryBuilder ids entry m) total) fee) from add) to.

(** Amounts as the types of the source require: the currencies match the field
    names, the values are non-negative and exactly representable. *)
Record amounts_ok (total : amountWithFees) (fee : BankFee) : Prop := {
  ok_usd : currency (usdWithFees total) = Usd;
  ok_btc : currency (btcWithFees total) = Btc;
  ok_usd_fee : currency (usdBankFee fee) = Usd;
  ok_btc_fee : currency (btcBankFee fee) = Btc;
  ok_usd_range : 0 <= amount (usdBankFee fee) <= amount (usdWithFees total);
  ok_btc_range : 0 <= amount (btcBankFee fee) <= amount (btcWithFees total);
  ok_usd_safe : safe (amount (usdWithFees total));
  ok_btc_safe : safe (amount (btcWithFees total))
}.

(** What a build adds to the total of a currency. *)
Definition imbalance (c : WalletCurrency) (fee : BankFee) (from to : accountDescriptor) : Z :=
  match ad_currency from, ad_currency to with
  | Usd, Usd => if 0 <? amount (usdBankFee fee) then 0
                else cents_if c Btc (amount (btcBankFee fee))
  | _, _ => 0
  end.

Lemma build_net c ids entry m total fee from add to :
  amounts_ok total fee ->
  net c (entry_transactions (build ids entry m total fee from add to)) =
    net c (entry_transactions entry) + imbalance c fee from to.
Proof using laws.
  intros [Hu Hb Huf Hbf Hur Hbr Hus Hbs]. unfold safe in *.
  unfold build, creditAccount, debitAccount, withBankFee, withTotalAmount, imbalance,
    addUsdToBtcConversionToEntry, addBtcToUsdConversionToDealer.
  cbn [ebf_builder ebf_amount ebd_builder ebd_amount ebd_fee ebc_builder ebc_amount
       ebc_fee ebc_debitCurrency eb_ids eb_entry eb_metadata set_entry].
  destruct (ad_currency from), (ad_currency to);
    rewrite ?(decide_True (P := Usd = Usd)), ?(decide_True (P := Btc = Btc)) by done;
    rewrite ?(decide_False (P := Usd = Btc)), ?(decide_False (P := Btc = Usd)) by done;
    destruct (0 <? amount (btcBankFee fee)) eqn:E1;
    try destruct (0 <? amount (usdBankFee fee)) eqn:E2; bool_prop;
    rewrite net_removeZero;
    repeat first [rewrite net_credit_amount by (unfold safe, sub; simpl amount; lia)
                 |rewrite net_debit_amount by (unfold safe, sub; simpl amount; lia)];
    unfold sub; simpl amount; simpl currency; rewrite ?Hu, ?Hb, ?Huf, ?Hbf;
    unfold cents_if; destruct c; simpl; lia.
Qed.

(** C11. An entry made by the entry builder (total amount, bank fee, debit, credit) is
    balanced in every currency, credits equal to debits, exactly when it is not a
    payment between two dollar wallets whose bank fee is zero in cents and positive
    in satoshis; the metadata and the accounts play no role. *)
Theorem build_balanced (ids : staticAccountIds) (entry : E) (m : metadata)
    (total : amountWithFees) (fee : BankFee) (from to : accountDescriptor)
    (add : option metadata)
    (Hempty : entry_transactions entry = []) (Hok : amounts_ok total fee) :
  balanced (entry_transactions (build ids entry m total fee from add to)) <->
  ~ (ad_currency from = Usd /\ ad_currency to = Usd /\
     amount (usdBankFee fee) = 0 /\ 0 < amount (btcBankFee fee)).
Proof using laws.
  unfold balanced.
  assert (Hnet : forall c, net c (entry_transactions (build ids entry m total fee from add to))
                           = imbalance c fee from to).
  { intros c. rewrite build_net by done. rewrite Hempty. done. }
  pose proof (ok_usd_range _ _ Hok). pose proof (ok_btc_range _ _ Hok).
  unfold imbalance, cents_if in Hnet. split.
  - intros Hbal (Hf & Ht & Hu & Hb). specialize (Hbal Btc). rewrite Hnet, Hf, Ht in Hbal.
    rewrite (proj2 (Z.ltb_ge _ _)) in Hbal by lia. simpl in Hbal. lia.
  - intros Hn c. rewrite Hnet. destruct (ad_currency from), (ad_currency to); try done.
    destruct (0 <? _) eqn:E1; bool_prop; [done|]. destruct (decide _); [|done].
    destruct (Z.eq_dec (amount (btcBankFee fee)) 0); [done|]. exfalso. apply Hn.
    split_and!; try done; lia.
Qed.

(** *** The transfer an entry stands for *)

(** [effect acc c] of a set of account movements. *)
Definition move (x : string) (c : WalletCurrency) (acc : string) (a : PaymentAmount) : Z :=
  if String.eqb acc x then cents_if c (currency a) (amount a) else 0.

(** The amount of the currency of an account. *)
Definition in_currency (c : WalletCurrency) (usd btc : PaymentAmount) : PaymentAmount :=
  match c with Usd => usd | Btc => btc end.

(** The abstract transfer: the sender pays the total in its currency, the
    recipient receives the total less the fee in its own, the bank owner gets
    the fee in bitcoin, and the dealer takes the other side of a conversion: of
    the whole total when dollars are sold, of the total less the fee when they
    are bought, and of the fee alone when both wallets hold dollars. *)
Definition transfer (ids : staticAccountIds) (total : amountWithFees) (fee : BankFee)
    (from to : accountDescriptor) (x : string) (c : WalletCurrency) : Z :=
  let usdNet := sub (usdWithFees total) (usdBankFee fee) in
  let btcNet := sub (btcWithFees total) (btcBankFee fee) in
  let buy usd btc := move x c (dealerUsdAccountId ids) usd
                     - move x c (dealerBtcAccountId ids) btc in
  move x c (ad_id to) (in_currency (ad_currency to) usdNet btcNet)
  - move x c (ad_id from) (in_currency (ad_currency from) (usdWithFees total)
                             (btcWithFees total))
  + move x c (bankOwnerAccountId ids) (btcBankFee fee)
  + match ad_currency from, ad_currency to with
    | Btc, Btc => 0
    | Btc, Usd => - buy usdNet btcNet
    | Usd, Btc => buy (usdWithFees total) (btcWithFees total)
    | Usd, Usd => if 0 <? amount (usdBankFee fee)
                  then buy (usdBankFee fee) (btcBankFee fee) else 0
    end.

Lemma build_account x c ids entry m total fee from add to :
  amounts_ok total fee ->
  net_account x c (entry_transactions (build ids entry m total fee from add to)) =
    net_account x c (entry_transactions entry) + transfer ids total fee from to x c.
Proof using laws.
  intros [Hu Hb Huf Hbf Hur Hbr Hus Hbs]. unfold safe in *.
  unfold build, creditAccount, debitAccount, withBankFee, withTotalAmount, transfer,
    addUsdToBtcConversionToEntry, addBtcToUsdConversionToDealer, in_currency.
  cbn [ebf_builder ebf_amount ebd_builder ebd_amount ebd_fee ebc_builder ebc_amount
       ebc_fee ebc_debitCurrency eb_ids eb_entry eb_metadata set_entry].
  assert (Hz : amount (btcBankFee fee) <= 0 ->
    move x c (bankOwnerAccountId ids) (btcBankFee fee) = 0).
  { intros. unfold move, cents_if. repeat case_match; lia. }
  destruct (ad_currency from), (ad_currency to);
    rewrite ?(decide_True (P := Usd = Usd)), ?(decide_True (P := Btc = Btc)) by done;
    rewrite ?(decide_False (P := Usd = Btc)), ?(decide_False (P := Btc = Usd)) by done;
    destruct (0 <? amount (btcBankFee fee)) eqn:E1;
    try destruct (0 <? amount (usdBankFee fee)) eqn:E2; bool_prop;
    rewrite ?Hz by lia; rewrite net_account_removeZero;
    repeat first
      [rewrite net_account_credit_amount by (unfold safe, sub; simpl amount; lia)
      |rewrite net_account_debit_amount by (unfold safe, sub; simpl amount; lia)];
    unfold move; lia.
Qed.

(** C20. The lines of a built entry implement the abstract transfer: for every account
    and currency the net effect of the entry is that of the transfer (the sender
    pays the total, the recipient receives the total less the bank fee in its own
    currency, the bank owner receives the fee, the dealer takes the other side of a
    conversion), and no line of the entry has two zero sides. *)
Theorem build_refines_transfer (ids : staticAccountIds) (entry : E) (m : metadata)
    (total : amountWithFees) (fee : BankFee) (from to : accountDescriptor)
    (add : option metadata)
    (Hempty : entry_transactions entry = []) (Hok : amounts_ok total fee) :
  (forall x c, net_account x c (entry_transactions (build ids entry m total fee from add to))
               = transfer ids total fee from to x c) /\
  (forall t, t ∈ entry_transactions (build ids entry m total fee from add to) ->
             zero_line t = false).
Proof using laws.
  split.
  - intros x c. rewrite build_account by done. rewrite Hempty. done.
  - intros t. apply removeZero_no_zero.
Qed.

End Spec.

Definition sample_ids : staticAccountIds := mkStatic "bankowner" "dealerBtc" "dealerUsd".
Definition sample_total : amountWithFees := mkWithFees (mkAmount 230 Usd) (mkAmount 10000 Btc).
Definition sample_fee : BankFee := mkBankFee (mkAmount 2 Usd) (mkAmount 90 Btc).

Lemma sample_empty : entry_transactions ([] : list ledgerTx) = [].
Proof. done. Qed.

Lemma sample_amounts_ok : amounts_ok sample_total sample_fee.
Proof. by split. Qed.

(** A dollar wallet pays a bitcoin wallet. *)
Lemma build_balanced_witness :
  net Btc (build sample_ids ([] : list ledgerTx) ∅ sample_total sample_fee
    (mkAccount "alice" Usd) None (mkAccount "bob" Btc)) = 0.
Proof.
  refine (proj2 (build_balanced sample_ids ([] : list ledgerTx) ∅ sample_total sample_fee
    (mkAccount "alice" Usd) (mkAccount "bob" Btc) None sample_empty sample_amounts_ok) _ Btc).
  by intros (_ & ? & _).
Defined.

Definition sample_entry : list ledgerTx :=
  build sample_ids ([] : list ledgerTx) ∅ sample_total sample_fee
    (mkAccount "alice" Usd) None (mkAccount "bob" Btc).

Lemma build_refines_transfer_witness :
  net_account "bob" Btc sample_entry = 9910 /\ net_account "alice" Usd sample_entry = -230 /\
  net_account "bankowner" Btc sample_entry = 90.
Proof.
  destruct (build_refines_transfer sample_ids ([] : list ledgerTx) ∅ sample_total sample_fee
    (mkAccount "alice" Usd) (mkAccount "bob" Btc) None sample_empty sample_amounts_ok) as [H _].
  split_and!; (etransitivity; [apply H | reflexivity]).
Defined.

End EntryBuilderSpec.

(** ** The entries of the legacy builder *)

Module LegacySpec.
Import EntryBuilderSpec.
Section Spec.
Context {E : Type} `{MediciEntry E} {laws : MediciEntryLaws E}.

(** The composition of the callers: [fee], debit of [a] from an account, credit
    to another one, with the amount of the other currency when there is a
    conversion. *)
Definition legacy_build (ids : staticAccountIds) (entry : E) (m : metadata)
    (fee : PaymentAmount) (from : string) (a : PaymentAmount) (add : option metadata)
    (to : string) (other : option PaymentAmount) : E :=
  legacy_creditAccount
    (legacy_debitAccount (legacy_withFee (mkEntryBuilder ids entry m) fee) from a add)
    to other.

(** The totals and the currency of the recipient the call stands for. *)
Definition legacy_totals (a : PaymentAmount) (other : option PaymentAmount) : amountWithFees :=
  match currency a, other with
  | Btc, None => mkWithFees ZERO_CENTS a
  | Btc, Some u => mkWithFees u a
  | Usd, None => mkWithFees a ZERO_SATS
  | Usd, Some b => mkWithFees a b
  end.

Definition legacy_to_currency (a : PaymentAmount) (other : option PaymentAmount)
    : WalletCurrency :=
  match currency a, other with
  | c, None => c
  | Btc, Some _ => Usd
  | Usd, Some _ => Btc
  end.

(** A fee is only settled by the legacy builder when the recipient is paid in
    bitcoin. *)
Definition settles_fee (a : PaymentAmount) (other : option PaymentAmount) : bool :=
  bool_decide (legacy_to_currency a other = Btc).

(** The amounts of a legacy call are exactly representable. *)
Record legacy_ok (fee a : PaymentAmount) (other : option PaymentAmount) : Prop := {
  lok_fee_btc : currency fee = Btc;
  lok_fee : 0 <= amount fee;
  lok_amount : safe (amount a) /\ safe (amount a - amount fee) /\ safe (amount fee);
  lok_other : forall b, other = Some b ->
    currency b <> currency a /\ safe (amount b) /\ safe (amount b - amount fee)
}.

Ltac legacy_cases fee :=
  unfold legacy_creditAccount, legacy_debitAccount, legacy_withFee,
    btc_creditAccount, usd_creditAccount, addUsdToDealer, withdrawUsdFromDealer;
  cbn [ld_builder ld_fee lc_builder lc_fee lc_debitAmount eb_ids eb_entry eb_metadata
       set_entry];
  destruct (0 <? amount fee) eqn:?; bool_prop.

Lemma legacy_account x c ids entry m fee from a add to other :
  legacy_ok fee a other ->
  (amount fee = 0 \/ settles_fee a other = true) ->
  net_account x c (entry_transactions (legacy_build ids entry m fee from a add to other)) =
    net_account x c (entry_transactions entry) +
    transfer ids (legacy_totals a other) (mkBankFee ZERO_CENTS fee)
      (mkAccount from (currency a)) (mkAccount to (legacy_to_currency a other)) x c.
Proof using laws.
  intros [Hfc Hf (Hs1 & Hs2 & Hs3) Ho] Hset.
  unfold legacy_build, transfer, in_currency, settles_fee in *.
  unfold legacy_totals, legacy_to_currency in *.
  assert (Hz : amount fee <= 0 -> move x c (bankOwnerAccountId ids) fee = 0).
  { intros. unfold move, cents_if. repeat case_match; lia. }
  destruct (currency a) eqn:Ha, other as [b|];
    try (destruct (Ho b eq_refl) as (Hcb & Hs4 & Hs5));
    try (destruct (currency b) eqn:Hb; try done);
    legacy_cases fee; try (destruct Hset as [?|?]; [lia|done]);
    rewrite ?decide_True by done; rewrite ?decide_False by (by rewrite Ha);
    rewrite ?Hz by lia; cbn [lc_builder lc_fee lc_debitAmount eb_ids eb_entry eb_metadata
      set_entry ad_id ad_currency usdWithFees btcWithFees usdBankFee btcBankFee];
    rewrite net_account_removeZero;
    repeat first
      [rewrite net_account_credit_amount by (unfold sub, ZERO_SATS; simpl amount; done)
      |rewrite net_account_debit_amount by (unfold sub, ZERO_SATS; simpl amount; done)];
    unfold move, cents_if, sub; simpl; rewrite ?Ha, ?Hb, ?Hfc;
    repeat case_match; try done; lia.
Qed.

(** When its fee is zero or the recipient is paid in bitcoin, the legacy entry builder
    has on every account and currency the same net effect as the entry builder given
    the same totals and a bank fee in satoshis. *)
Theorem legacy_equivalent (ids : staticAccountIds) (entry : E) (m : metadata)
    (fee : PaymentAmount) (from : string) (a : PaymentAmount) (add : option metadata)
    (to : string) (other : option PaymentAmount)
    (Hok : legacy_ok fee a other)
    (Hnew : amounts_ok (legacy_totals a other) (mkBankFee ZERO_CENTS fee))
    (Hset : amount fee = 0 \/ settles_fee a other = true) :
  forall x c,
    net_account x c (entry_transactions (legacy_build ids entry m fee from a add to other)) =
    net_account x c (entry_transactions
      (build ids entry m (legacy_totals a other) (mkBankFee ZERO_CENTS fee)
         (mkAccount from (currency a)) add (mkAccount to (legacy_to_currency a other)))).
Proof using laws.
  intros x c. rewrite legacy_account, build_account by done. done.
Qed.

(** The fee stays on the entry when the recipient is not paid in bitcoin. *)
Lemma legacy_net c ids entry m fee from a add to other :
  entry_transactions entry = [] -> legacy_ok fee a other ->
  net c (entry_transactions (legacy_build ids entry m fee from a add to other)) =
    if settles_fee a other then 0 else cents_if c Btc (amount fee).
Proof using laws.
  intros Hempty [Hfc Hf (Hs1 & Hs2 & Hs3) Ho].
  unfold legacy_build, settles_fee, legacy_to_currency.
  destruct (currency a) eqn:Ha, other as [b|];
    try (destruct (Ho b eq_refl) as (Hcb & Hs4 & Hs5));
    try (destruct (currency b) eqn:Hb; try done);
    legacy_cases fee; rewrite ?decide_True by done; rewrite ?decide_False by (by rewrite Ha);
    cbn [lc_builder lc_fee lc_debitAmount eb_ids eb_entry eb_metadata set_entry];
    rewrite net_removeZero;
    repeat first
      [rewrite net_credit_amount by (unfold sub; simpl amount; done)
      |rewrite net_debit_amount by (unfold sub; simpl amount; done)];
    rewrite Hempty; unfold net, cents_if, sub; simpl; rewrite ?Ha, ?Hb, ?Hfc;
    destruct c; simpl; change (sumZ _ []) with 0; lia.
Qed.

(** An entry made by the legacy builder is balanced in every currency exactly when the
    fee is zero or the recipient is paid in bitcoin. *)
Theorem legacy_balanced (ids : staticAccountIds) (entry : E) (m : metadata)
    (fee : PaymentAmount) (from : string) (a : PaymentAmount) (add : option metadata)
    (to : string) (other : option PaymentAmount)
    (Hempty : entry_transactions entry = []) (Hok : legacy_ok fee a other) :
  balanced (entry_transactions (legacy_build ids entry m fee from a add to other)) <->
  (amount fee = 0 \/ settles_fee a other = true).
Proof using laws.
  unfold balanced. setoid_rewrite legacy_net; [|done..].
  destruct (settles_fee a other); [by split; auto|]. split.
  - intros Hb. specialize (Hb Btc). unfold cents_if in Hb. simpl in Hb. auto.
  - intros [->|?] c; [|done]. unfold cents_if. by case_match.
Qed.

End Spec.

Lemma sample_legacy_ok : legacy_ok (mkAmount 90 Btc) (mkAmount 230 Usd)
  (Some (mkAmount 10000 Btc)).
Proof. split; try done. by intros b [= <-]. Qed.

Lemma legacy_equivalent_witness :
  net_account "bob" Btc (legacy_build sample_ids ([] : list ledgerTx) ∅ (mkAmount 90 Btc) "alice"
    (mkAmount 230 Usd) None "bob" (Some (mkAmount 10000 Btc))) =
  net_account "bob" Btc (build sample_ids ([] : list ledgerTx) ∅ sample_total
    (mkBankFee ZERO_CENTS (mkAmount 90 Btc)) (mkAccount "alice" Usd) None (mkAccount "bob" Btc)).
Proof.
  refine (legacy_equivalent sample_ids ([] : list ledgerTx) ∅ (mkAmount 90 Btc) "alice"
    (mkAmount 230 Usd) None "bob" (Some (mkAmount 10000 Btc)) sample_legacy_ok _ _ "bob" Btc);
    [by split | by right].
Defined.

Lemma legacy_balanced_witness :
  net Btc (legacy_build sample_ids ([] : list ledgerTx) ∅ (mkAmount 90 Btc) "alice"
    (mkAmount 230 Usd) None "bob" (Some (mkAmount 10000 Btc))) = 0.
Proof.
  refine (proj2 (legacy_balanced sample_ids ([] : list ledgerTx) ∅ (mkAmount 90 Btc) "alice"
    (mkAmount 230 Usd) None "bob" (Some (mkAmount 10000 Btc)) sample_empty sample_legacy_ok) _ Btc).
  by right.
Defined.

End LegacySpec.
