(* ===== verification/PaymentFlow.v ===== *)
(** * Payment flows

    [lib/domain/payments]: the staged [LightningPaymentFlowBuilder]
    ([payment-flow-builder.js]), the [PaymentFlow] object it ends in
    ([payment-flow.js]) and the route check ([route-validator.js]); with
    [parseFinalHopsFromInvoice] of [lib/domain/bitcoin/lightning/index.js].

    Every stage of the builder is an object that closes over the state
    accumulated so far, [{...state, more}].  A stage is modelled by a record
    that holds the state it extends and the fields it sets or overrides. *)

From Stdlib Require Import Ascii.
From S2P Require Import Prelude JsNum Errors Money.
Import AmountCalculator PriceRatio CheckedAmounts LnFees.

(** ** Data *)

(** [SettlementMethod] and [PaymentInitiationMethod] of [domain/wallets/tx-methods.js]. *)
Inductive SettlementMethod : Type := SMIntraLedger | SMOnChain | SMLightning.
Inductive PaymentInitiationMethod : Type := PMIntraLedger | PMOnChain | PMLightning.

#[global] Instance SettlementMethod_eq_dec : EqDecision SettlementMethod.
Proof. solve_decision. Defined.
#[global] Instance PaymentInitiationMethod_eq_dec : EqDecision PaymentInitiationMethod.
Proof. solve_decision. Defined.

(** The fields of a decoded invoice that the builder reads; [None] as amount is
    [null].  A route hint is the list of the public keys of its hops. *)
Record LnInvoice : Type := mkInvoice {
  inv_destination : string;
  inv_paymentHash : string;
  inv_paymentRequest : string;
  inv_paymentAmount : option PaymentAmount;
  inv_description : string;
  inv_routeHints : list (list string)
}.

Record Wallet : Type := mkWalletRec {
  w_id : string;
  w_accountId : string;
  w_currency : WalletCurrency
}.

(** A route found by probing: [fee] and [total_mtokens]. *)
Record RawRoute : Type := mkRoute {
  route_fee : number;
  route_total_mtokens : option string
}.

(** ** [parseFinalHopsFromInvoice] *)

(** The public key of the last hop before the destination: the penultimate hop,
    or the only one; reading a property of [undefined] raises. *)
Definition final_hop (route : list string) : result string :=
  let lastIdx := (length route - 1)%nat in
  let penUltIndex := if Nat.ltb 1 (length route) then (lastIdx - 1)%nat else lastIdx in
  match route !! penUltIndex with
  | Some k => Ok k
  | None => Throw (new JsTypeError)
  end.

Fixpoint final_hops (routes : list (list string)) : result (list string) :=
  match routes with
  | [] => Ok []
  | r :: rs => let* k := final_hop r in
               let* ks := final_hops rs in
               Ok (k :: ks)
  end.

(** [Array.from(new Set(l))]: the first occurrence of every element. *)
Fixpoint set_of (l : list string) : list string :=
  match l with
  | [] => []
  | x :: xs => x :: List.filter (fun y => negb (String.eqb x y)) (set_of xs)
  end.

Definition parseFinalHopsFromInvoice (invoice : LnInvoice) : result (list string) :=
  let* pubkeys := final_hops (inv_routeHints invoice) in
  Ok (set_of pubkeys).

(** [ModifiedSet.intersect] of [utils/index.js]. *)
Definition set_intersect (a b : list string) : list string :=
  List.filter (fun x => existsb (String.eqb x) b) a.

(** ** [route-validator.js] *)

(** [parseInt(s, 10)]: leading white space, an optional sign and the longest
    prefix of decimal digits; no digit gives [NaN]. *)
Definition digit_val (c : ascii) : option Z :=
  let n := Z.of_nat (nat_of_ascii c) in
  if (48 <=? n) && (n <=? 57) then Some (n - 48) else None.

Fixpoint parse_digits (s : string) (acc : option Z) : option Z :=
  match s with
  | EmptyString => acc
  | String c s' => match digit_val c with
                   | Some d => parse_digits s' (Some (10 * default 0 acc + d))
                   | None => acc
                   end
  end.

Definition is_space (c : ascii) : bool :=
  let n := nat_of_ascii c in Nat.eqb n 32 || (Nat.leb 9 n && Nat.leb n 13).

Fixpoint trim_start (s : string) : string :=
  match s with
  | String c s' => if is_space c then trim_start s' else s
  | EmptyString => s
  end.

Definition parseInt10 (s : string) : number :=
  let '(neg, digits) := match trim_start s with
                        | String "-"%char s' => (true, s')
                        | String "+"%char s' => (false, s')
                        | s' => (false, s')
                        end in
  match parse_digits digits None with
  | Some z => Number (if (neg : bool) then - z else z)
  | None => NaN
  end.

(** The message of the error, which shows both numbers, is left out. *)
Definition RouteValidator_validate (r : RawRoute) (btcPaymentAmount : PaymentAmount)
    : result unit :=
  let tokens := if str_truthy (route_total_mtokens r)
                then default "0"%string (route_total_mtokens r) else "0"%string in
  let rawTokens := Math_floor (num_div (parseInt10 tokens) (num 1000)) in
  let amt := Number (amount btcPaymentAmount) in
  if negb (num_eqb amt rawTokens) then Er (new BadAmountForRouteError) else Ok tt.

(** ** The [PaymentFlow] object *)

Record PaymentFlow : Type := mkPaymentFlow {
  pf_paymentHash : option string;
  pf_intraLedgerHash : option string;
  pf_senderWalletId : string;
  pf_senderWalletCurrency : WalletCurrency;
  pf_senderAccountId : string;
  pf_recipientWalletId : option string;
  pf_recipientWalletCurrency : option WalletCurrency;
  pf_recipientAccountId : option string;
  pf_recipientPubkey : option string;
  pf_recipientUsername : option string;
  pf_descriptionFromInvoice : string;
  pf_skipProbeForDestination : bool;
  pf_btcPaymentAmount : PaymentAmount;
  pf_usdPaymentAmount : PaymentAmount;
  pf_inputAmount : Z;
  pf_createdAt : Z;
  pf_paymentSentAndPending : bool;
  pf_settlementMethod : SettlementMethod;
  pf_paymentInitiationMethod : PaymentInitiationMethod;
  pf_btcProtocolFee : PaymentAmount;
  pf_usdProtocolFee : PaymentAmount;
  pf_outgoingNodePubkey : option string;
  pf_cachedRoute : option RawRoute
}.

Module Flow.

Definition protocolFeeInSenderWalletCurrency (f : PaymentFlow) : PaymentAmount :=
  if decide (pf_senderWalletCurrency f = Btc) then pf_btcProtocolFee f
  else pf_usdProtocolFee f.

Record pair : Type := mkPair { p_btc : PaymentAmount; p_usd : PaymentAmount }.

Definition paymentAmounts (f : PaymentFlow) : pair :=
  mkPair (pf_btcPaymentAmount f) (pf_usdPaymentAmount f).

Definition totalAmountsForPayment (f : PaymentFlow) : pair :=
  mkPair (add (pf_btcPaymentAmount f) (pf_btcProtocolFee f))
         (add (pf_usdPaymentAmount f) (pf_usdProtocolFee f)).

(** The cached route when it is for the amount of the flow. *)
Definition routeDetails (f : PaymentFlow) : option RawRoute * option string :=
  let rawRoute :=
    match pf_cachedRoute f with
    | Some r => match RouteValidator_validate r (pf_btcPaymentAmount f) with
                | Ok _ => Some r
                | _ => None
                end
    | None => None
    end in
  (rawRoute, match rawRoute with Some _ => pf_outgoingNodePubkey f | None => None end).

Record recipient_details : Type := mkRecipientDetails {
  rd_walletId : option string;
  rd_walletCurrency : option WalletCurrency;
  rd_pubkey : option string;
  rd_username : option string
}.

Definition recipientDetails (f : PaymentFlow) : recipient_details :=
  mkRecipientDetails (pf_recipientWalletId f) (pf_recipientWalletCurrency f)
    (pf_recipientPubkey f) (pf_recipientUsername f).

(** A wallet descriptor with the account of the wallet is a [Wallet]. *)
Definition senderWalletDescriptor (f : PaymentFlow) : Wallet :=
  mkWalletRec (pf_senderWalletId f) (pf_senderAccountId f) (pf_senderWalletCurrency f).

Definition recipientWalletDescriptor (f : PaymentFlow) : option Wallet :=
  match pf_recipientWalletId f, pf_recipientWalletCurrency f, pf_recipientAccountId f with
  | Some id, Some c, Some acc =>
      if str_truthy (Some id) && str_truthy (Some acc) then Some (mkWalletRec id acc c)
      else None
  | _, _, _ => None
  end.

Definition unit_for_msg (c : WalletCurrency) : string :=
  if decide (c = Btc) then "sats" else "cents".

Definition checkBalanceForSend (f : PaymentFlow) (balance : PaymentAmount) : result unit :=
  if decide (pf_senderWalletCurrency f <> currency balance)
  then Er (new InvalidCurrencyForWalletError)
  else
    let '(a, fee) := if decide (currency balance = Btc)
                     then (pf_btcPaymentAmount f, pf_btcProtocolFee f)
                     else (pf_usdPaymentAmount f, pf_usdProtocolFee f) in
    let totalSendAmount := add a fee in
    if amount balance <? amount totalSendAmount
    then Er (new_msg InsufficientBalanceError
               ("Payment amount '" +:+ pretty (amount totalSendAmount) +:+ "' "
                +:+ unit_for_msg (pf_senderWalletCurrency f) +:+ " exceeds balance '"
                +:+ pretty (amount balance) +:+ "'"))
    else Ok tt.

Definition paymentHashForFlow (f : PaymentFlow) : result string :=
  if Bool.eqb (str_truthy (pf_paymentHash f)) (str_truthy (pf_intraLedgerHash f))
  then Er (new InvalidLightningPaymentFlowBuilderStateError)
  else match pf_paymentHash f with
       | Some h => if str_truthy (Some h) then Ok h
                   else Er (new IntraLedgerHashPresentInLnFlowError)
       | None => Er (new IntraLedgerHashPresentInLnFlowError)
       end.

Definition intraLedgerHashForFlow (f : PaymentFlow) : result string :=
  if Bool.eqb (str_truthy (pf_paymentHash f)) (str_truthy (pf_intraLedgerHash f))
  then Er (new InvalidLightningPaymentFlowBuilderStateError)
  else match pf_intraLedgerHash f with
       | Some h => if str_truthy (Some h) then Ok h
                   else Er (new LnHashPresentInIntraLedgerFlowError)
       | None => Er (new LnHashPresentInIntraLedgerFlowError)
       end.

End Flow.

(** ** The staged builder *)

Module Builder.

(** [config] of [LightningPaymentFlowBuilder]. *)
Record BuilderConfig : Type := mkConfig {
  localNodeIds : list string;
  flaggedPubkeys : list string
}.

(** A builder object: one of the stages, or [LPFBWithError]. *)
Inductive builder (S : Type) : Type :=
| Builder (s : S)
| WithError (e : error).
Arguments Builder {S} s.
Arguments WithError {S} e.

(** *** Stage 1: the invoice *)

Record InvoiceState : Type := mkInvoiceState {
  is_settlementMethod : SettlementMethod;
  is_btcProtocolFee : option PaymentAmount;
  is_usdProtocolFee : option PaymentAmount;
  is_initiation : PaymentInitiationMethod;
  is_paymentHash : option string;
  is_intraLedgerHash : option string;
  is_btcPaymentAmount : option PaymentAmount;
  is_inputAmount : option Z;
  is_uncheckedAmount : option number;
  is_description : string;
  is_skipProbe : bool
}.

Record settlement : Type := mkSettlement {
  s_method : SettlementMethod;
  s_btcFee : option PaymentAmount;
  s_usdFee : option PaymentAmount
}.

Definition settlementMethodFromDestination (cfg : BuilderConfig) (destination : option string)
    : settlement :=
  let settlementMethod :=
    match destination with
    | None => SMIntraLedger
    | Some d => if existsb (String.eqb d) (localNodeIds cfg) then SMIntraLedger
                else SMLightning
    end in
  mkSettlement settlementMethod
    (if decide (settlementMethod = SMIntraLedger) then Some (fees_btc intraLedgerFees) else None)
    (if decide (settlementMethod = SMIntraLedger) then Some (fees_usd intraLedgerFees) else None).

Definition skipProbeFromInvoice (cfg : BuilderConfig) (invoice : LnInvoice) : result bool :=
  let* invoicePubkeySet := parseFinalHopsFromInvoice invoice in
  let flaggedPubkeySet := set_of (flaggedPubkeys cfg) in
  Ok (Nat.ltb 0 (length (set_intersect invoicePubkeySet flaggedPubkeySet))).

Definition withInvoice (cfg : BuilderConfig) (invoice : LnInvoice)
    : result (builder InvoiceState) :=
  match inv_paymentAmount invoice with
  | None => Ok (WithError (new_msg InvalidLightningPaymentFlowBuilderStateError
                             "withInvoice - paymentAmount missing"))
  | Some paymentAmount =>
      let s := settlementMethodFromDestination cfg (Some (inv_destination invoice)) in
      let* skip := skipProbeFromInvoice cfg invoice in
      Ok (Builder (mkInvoiceState (s_method s) (s_btcFee s) (s_usdFee s) PMLightning
        (Some (inv_paymentHash invoice)) None (Some paymentAmount)
        (Some (amount paymentAmount)) None (inv_description invoice) skip))
  end.

Definition withNoAmountInvoice (cfg : BuilderConfig) (invoice : LnInvoice)
    (uncheckedAmount : number) : result (builder InvoiceState) :=
  let s := settlementMethodFromDestination cfg (Some (inv_destination invoice)) in
  let* skip := skipProbeFromInvoice cfg invoice in
  Ok (Builder (mkInvoiceState (s_method s) (s_btcFee s) (s_usdFee s) PMLightning
    (Some (inv_paymentHash invoice)) None None None (Some uncheckedAmount)
    (inv_description invoice) skip)).

(** [hash] is the value of [generateIntraLedgerHash()], the SHA-256 of random
    bytes. *)
Definition withoutInvoice (cfg : BuilderConfig) (hash : string) (uncheckedAmount : number)
    (description : string) : builder InvoiceState :=
  let s := settlementMethodFromDestination cfg None in
  Builder (mkInvoiceState (s_method s) (s_btcFee s) (s_usdFee s) PMIntraLedger
    None (Some hash) None None (Some uncheckedAmount) description false).

(** *** Stage 2: the sender's wallet *)

Record SenderState : Type := mkSenderState {
  ss_invoice : InvoiceState;
  ss_senderWallet : Wallet;
  ss_btcPaymentAmount : option PaymentAmount;
  ss_usdPaymentAmount : option PaymentAmount;
  ss_btcProtocolFee : option PaymentAmount;
  ss_usdProtocolFee : option PaymentAmount;
  ss_inputAmount : option Z
}.

(** [fee || LnFees().maxProtocolFee(amount)]. *)
Definition fee_or_max (fee : option PaymentAmount) (a : PaymentAmount)
    : result PaymentAmount :=
  match fee with
  | Some f => Ok f
  | None => maxProtocolFee FEECAP_BASIS_POINTS a
  end.

(** The checks only return validation errors ([checkedAmount_total]), so the
    branch that follows a failed [instanceof ValidationError] is never taken; it
    is marked by a [Throw]. *)
Definition withSenderWallet (b : builder InvoiceState) (senderWallet : Wallet)
    : result (builder SenderState) :=
  match b with
  | WithError e => Ok (WithError e)
  | Builder state =>
      match is_uncheckedAmount state with
      | Some unchecked =>
          if decide (w_currency senderWallet = Btc) then
            match checkedToBtcPaymentAmount (Some unchecked) with
            | Ok paymentAmount =>
                let* fee := fee_or_max (is_btcProtocolFee state) paymentAmount in
                Ok (Builder (mkSenderState state senderWallet (Some paymentAmount) None
                      (Some fee) (is_usdProtocolFee state) (Some (amount paymentAmount))))
            | Er e => if is_a e ValidationError then Ok (WithError e)
                      else Throw (new JsTypeError)
            | Throw e => Throw e
            end
          else
            match checkedToUsdPaymentAmount (Some unchecked) with
            | Ok paymentAmount =>
                let* fee := fee_or_max (is_usdProtocolFee state) paymentAmount in
                Ok (Builder (mkSenderState state senderWallet (is_btcPaymentAmount state)
                      (Some paymentAmount) (is_btcProtocolFee state) (Some fee)
                      (Some (amount paymentAmount))))
            | Er e => if is_a e ValidationError then Ok (WithError e)
                      else Throw (new JsTypeError)
            | Throw e => Throw e
            end
      | None =>
          match is_inputAmount state, is_btcPaymentAmount state with
          | Some inputAmount, Some btcPaymentAmount =>
              if inputAmount =? 0
              then Throw (new_msg JsError "withSenderWallet impossible")
              else
                let* fee := fee_or_max (is_btcProtocolFee state) btcPaymentAmount in
                Ok (Builder (mkSenderState state senderWallet (Some btcPaymentAmount) None
                      (Some fee) (is_usdProtocolFee state) (Some inputAmount)))
          | _, _ => Throw (new_msg JsError "withSenderWallet impossible")
          end
      end
  end.

(** *** Stage 3: the recipient's wallet *)

(** The argument of [withRecipientWallet]. *)
Record RecipientArgs : Type := mkRecipientArgs {
  ra_id : string;
  ra_currency : WalletCurrency;
  ra_accountId : string;
  ra_pubkey : option string;
  ra_usdPaymentAmount : option PaymentAmount;
  ra_username : option string
}.

Record RecipientState : Type := mkRecipientState {
  rs_sender : SenderState;
  rs_recipient : option RecipientArgs;
  rs_usdPaymentAmount : option PaymentAmount
}.

Definition withoutRecipientWallet (b : builder SenderState) : builder RecipientState :=
  match b with
  | WithError e => WithError e
  | Builder state =>
      if decide (is_settlementMethod (ss_invoice state) = SMIntraLedger)
      then WithError (new_msg InvalidLightningPaymentFlowBuilderStateError
                        "withoutRecipientWallet called but settlementMethod is IntraLedger")
      else Builder (mkRecipientState state None (ss_usdPaymentAmount state))
  end.

(** [!!x] on an optional object and on an optional number. *)
Definition is_set {A} (o : option A) : bool := match o with Some _ => true | None => false end.
Definition num_opt_truthy (o : option number) : bool :=
  match o with Some x => num_truthy x | None => false end.

Definition withRecipientWallet (b : builder SenderState) (r : RecipientArgs)
    : builder RecipientState :=
  match b with
  | WithError e => WithError e
  | Builder state =>
      if String.eqb (ra_id r) (w_id (ss_senderWallet state)) then WithError (new SelfPaymentError)
      else if bool_decide (ra_currency r = Usd) &&
              Bool.eqb (is_set (ra_usdPaymentAmount r))
                       (num_opt_truthy (is_uncheckedAmount (ss_invoice state)))
      then WithError (new_msg InvalidLightningPaymentFlowBuilderStateError
             "withRecipientWallet incorrect combination of usdPaymentAmount and uncheckedAmount")
      else Builder (mkRecipientState state (Some r)
             (match ra_usdPaymentAmount r with
              | Some a => Some a
              | None => ss_usdPaymentAmount state
              end))
  end.

Definition isIntraLedger_sender (state : SenderState) : bool :=
  bool_decide (is_settlementMethod (ss_invoice state) = SMIntraLedger).

(** *** Stage 4: the conversion *)

(** A pair of price functions, [{ usdFromBtc, btcFromUsd }]. *)
Record PriceFns : Type := mkPriceFns {
  usdFromBtc : PaymentAmount -> result PaymentAmount;
  btcFromUsd : PaymentAmount -> result PaymentAmount
}.

Record ConversionState : Type := mkConversionState {
  cs_recipient : RecipientState;
  cs_createdAt : Z;
  cs_btcPaymentAmount : PaymentAmount;
  cs_usdPaymentAmount : PaymentAmount;
  cs_btcProtocolFee : PaymentAmount;
  cs_usdProtocolFee : PaymentAmount
}.

(** [updatedStateFromBtcPaymentAmount]: the dollar side from a price function,
    the dollar fee at the resulting ratio, rounded up. *)
Definition updatedStateFromBtcPaymentAmount (state : RecipientState) (now : Z)
    (price : PaymentAmount -> result PaymentAmount)
    (btcPaymentAmount btcProtocolFee : PaymentAmount) : result ConversionState :=
  let* convertedAmount := price btcPaymentAmount in
  let* priceRatio := PriceRatio convertedAmount btcPaymentAmount in
  let* usdProtocolFee := convertFromBtcToCeil priceRatio btcProtocolFee in
  Ok (mkConversionState state now btcPaymentAmount convertedAmount btcProtocolFee
        usdProtocolFee).

Definition updatedStateFromUsdPaymentAmount (state : RecipientState) (now : Z)
    (price : PaymentAmount -> result PaymentAmount)
    (usdPaymentAmount usdProtocolFee : PaymentAmount) : result ConversionState :=
  let* convertedAmount := price usdPaymentAmount in
  let* priceRatio := PriceRatio usdPaymentAmount convertedAmount in
  let* btcProtocolFee := convertFromUsd priceRatio usdProtocolFee in
  Ok (mkConversionState state now convertedAmount usdPaymentAmount btcProtocolFee
        usdProtocolFee).

Definition sender_currency (state : RecipientState) : WalletCurrency :=
  w_currency (ss_senderWallet (rs_sender state)).
Definition settlement_of (state : RecipientState) : SettlementMethod :=
  is_settlementMethod (ss_invoice (rs_sender state)).
Definition recipient_currency (state : RecipientState) : option WalletCurrency :=
  ra_currency <$> rs_recipient state.

Definition noConversionRequired (state : RecipientState) : bool :=
  (bool_decide (sender_currency state = Btc) &&
   bool_decide (settlement_of state = SMLightning))
  || bool_decide (Some (sender_currency state) = recipient_currency state).

(** The result carries the promise of the state: [Er] is a promise of an error
    object, [Throw] a rejected one. *)
Definition withConversion (b : builder RecipientState) (now : Z)
    (mid hedgeBuyUsd hedgeSellUsd : PriceFns) : builder (result ConversionState) :=
  match b with
  | WithError e => WithError e
  | Builder state =>
      let btcA := ss_btcPaymentAmount (rs_sender state) in
      let usdA := rs_usdPaymentAmount state in
      let btcF := ss_btcProtocolFee (rs_sender state) in
      let usdF := ss_usdProtocolFee (rs_sender state) in
      let hedge := if decide (sender_currency state = Btc) then hedgeBuyUsd
                   else hedgeSellUsd in
      if noConversionRequired state then
        match btcA, btcF, usdA, usdF with
        | Some ba, Some bf, Some ua, Some uf =>
            Builder (Ok (mkConversionState state now ba ua bf uf))
        | Some ba, Some bf, _, _ =>
            Builder (updatedStateFromBtcPaymentAmount state now (usdFromBtc mid) ba bf)
        | _, _, Some ua, Some uf =>
            Builder (updatedStateFromUsdPaymentAmount state now (btcFromUsd mid) ua uf)
        | _, _, _, _ =>
            WithError (new_msg InvalidLightningPaymentFlowBuilderStateError
              "withConversion - btcPaymentAmount || btcProtocolFee not set")
        end
      else
        match btcA, btcF, usdA, usdF with
        | Some ba, Some bf, _, _ =>
            match bool_decide (recipient_currency state = Some Usd), usdA, usdF with
            | true, Some ua, Some uf =>
                Builder (Ok (mkConversionState state now ba ua bf uf))
            | _, _, _ =>
                Builder (updatedStateFromBtcPaymentAmount state now (usdFromBtc hedge) ba bf)
            end
        | _, _, Some ua, Some uf =>
            Builder (updatedStateFromUsdPaymentAmount state now (btcFromUsd hedge) ua uf)
        | _, _, _, _ =>
            WithError (new_msg InvalidLightningPaymentFlowBuilderStateError
              "withConversion - impossible withConversion state")
        end
  end.

(** *** Stage 5: the flow *)

(** Awaiting the promise held by the object. *)
Definition awaited (b : builder (result ConversionState)) : result ConversionState :=
  match b with
  | WithError e => Er e
  | Builder p => p
  end.

Definition paymentFromState (st : ConversionState) (btcProtocolFee usdProtocolFee : PaymentAmount)
    (outgoingNodePubkey : option string) (checkedRoute : option RawRoute)
    : result PaymentFlow :=
  let rs := cs_recipient st in
  let ss := rs_sender rs in
  let inv := ss_invoice ss in
  let* hash := (if str_truthy (is_paymentHash inv) then Ok (is_paymentHash inv, None)
                else if str_truthy (is_intraLedgerHash inv) then Ok (None, is_intraLedgerHash inv)
                else Er (new InvalidLightningPaymentFlowStateError)) in
  Ok (mkPaymentFlow (fst hash) (snd hash)
    (w_id (ss_senderWallet ss)) (w_currency (ss_senderWallet ss))
    (w_accountId (ss_senderWallet ss))
    (ra_id <$> rs_recipient rs) (ra_currency <$> rs_recipient rs)
    (ra_accountId <$> rs_recipient rs) (rs_recipient rs ≫= ra_pubkey)
    (rs_recipient rs ≫= ra_username)
    (is_description inv) (is_skipProbe inv)
    (cs_btcPaymentAmount st) (cs_usdPaymentAmount st) (default 0 (ss_inputAmount ss))
    (cs_createdAt st) false (is_settlementMethod inv) (is_initiation inv)
    btcProtocolFee usdProtocolFee outgoingNodePubkey checkedRoute).

Definition withoutRoute (b : builder (result ConversionState)) : result PaymentFlow :=
  let* st := awaited b in
  paymentFromState st (cs_btcProtocolFee st) (cs_usdProtocolFee st) None None.

Definition withRoute (b : builder (result ConversionState)) (pubkey : string)
    (rawRoute : RawRoute) : result PaymentFlow :=
  let* st := awaited b in
  let* priceRatio := PriceRatio (cs_usdPaymentAmount st) (cs_btcPaymentAmount st) in
  let* btcProtocolFee := feeFromRawRoute (route_fee rawRoute) in
  let* usdProtocolFee := convertFromBtcToCeil priceRatio btcProtocolFee in
  paymentFromState st btcProtocolFee usdProtocolFee (Some pubkey) (Some rawRoute).

Definition btcPaymentAmount (b : builder (result ConversionState)) : result PaymentAmount :=
  let* st := awaited b in Ok (cs_btcPaymentAmount st).
Definition usdPaymentAmount (b : builder (result ConversionState)) : result PaymentAmount :=
  let* st := awaited b in Ok (cs_usdPaymentAmount st).
Definition skipProbeForDestination (b : builder (result ConversionState)) : result bool :=
  let* st := awaited b in Ok (is_skipProbe (ss_invoice (rs_sender (cs_recipient st)))).
Definition isIntraLedger (b : builder (result ConversionState)) : result bool :=
  let* st := awaited b in
  Ok (bool_decide (settlement_of (cs_recipient st) = SMIntraLedger)).
Definition isTradeIntraAccount (b : builder (result ConversionState)) : result bool :=
  let* st := awaited b in
  let rs := cs_recipient st in
  Ok (bool_decide (Some (w_accountId (ss_senderWallet (rs_sender rs))) =
                   (ra_accountId <$> rs_recipient rs)) &&
      negb (bool_decide (Some (sender_currency rs) = recipient_currency rs))).

End Builder.

(** ** Reachable states of the builder *)

Module Reach.
Import Builder.

(** A positive amount of a currency. *)
Definition pos_of (c : WalletCurrency) (a : PaymentAmount) : Prop :=
  currency a = c /\ 0 < amount a.

(** The states a chain of calls reaches.  Invoices carry positive bitcoin
    amounts and non-empty hashes; a dollar amount is positive and comes with a
    dollar wallet. *)
Inductive invoice_reach (cfg : BuilderConfig) : InvoiceState -> Prop :=
| reach_withInvoice inv a st :
    inv_paymentAmount inv = Some a -> pos_of Btc a -> inv_paymentHash inv <> ""%string ->
    withInvoice cfg inv = Ok (Builder st) -> invoice_reach cfg st
| reach_withNoAmountInvoice inv n st :
    inv_paymentHash inv <> ""%string ->
    withNoAmountInvoice cfg inv n = Ok (Builder st) -> invoice_reach cfg st
| reach_withoutInvoice hash n d st :
    hash <> ""%string -> withoutInvoice cfg hash n d = Builder st -> invoice_reach cfg st.

Inductive sender_reach (cfg : BuilderConfig) : SenderState -> Prop :=
| reach_withSenderWallet st w ss :
    invoice_reach cfg st -> withSenderWallet (Builder st) w = Ok (Builder ss) ->
    sender_reach cfg ss.

Inductive recipient_reach (cfg : BuilderConfig) : RecipientState -> Prop :=
| reach_withoutRecipient ss rs :
    sender_reach cfg ss -> withoutRecipientWallet (Builder ss) = Builder rs ->
    recipient_reach cfg rs
| reach_withRecipient ss r rs :
    sender_reach cfg ss ->
    (forall a, ra_usdPaymentAmount r = Some a -> pos_of Usd a /\ ra_currency r = Usd) ->
    withRecipientWallet (Builder ss) r = Builder rs -> recipient_reach cfg rs.

(** *** Invariants of the stages *)

Definition zero_fees (b u : option PaymentAmount) : Prop :=
  b = Some ZERO_SATS /\ u = Some ZERO_CENTS.

Record invoice_inv (st : InvoiceState) : Prop := {
  ii_fees : (is_settlementMethod st = SMIntraLedger /\
               zero_fees (is_btcProtocolFee st) (is_usdProtocolFee st)) \/
            (is_settlementMethod st = SMLightning /\
               is_btcProtocolFee st = None /\ is_usdProtocolFee st = None);
  ii_hash : (str_truthy (is_paymentHash st) = true /\ is_intraLedgerHash st = None /\
               is_initiation st = PMLightning) \/
            (is_paymentHash st = None /\ str_truthy (is_intraLedgerHash st) = true /\
               is_initiation st = PMIntraLedger);
  ii_amount : (is_uncheckedAmount st = None /\
                 exists a, is_btcPaymentAmount st = Some a /\ pos_of Btc a /\
                           is_inputAmount st = Some (amount a)) \/
              (exists n, is_uncheckedAmount st = Some n /\ is_btcPaymentAmount st = None)
}.

Lemma settlement_fees cfg d :
  let s := settlementMethodFromDestination cfg d in
  (s_method s = SMIntraLedger /\ zero_fees (s_btcFee s) (s_usdFee s)) \/
  (s_method s = SMLightning /\ s_btcFee s = None /\ s_usdFee s = None).
Proof.
  unfold settlementMethodFromDestination, zero_fees.
  destruct d as [d|]; [destruct (existsb _ _)|]; simpl; auto.
Qed.

Lemma str_truthy_some s : s <> ""%string -> str_truthy (Some s) = true.
Proof. by destruct s. Qed.

Lemma invoice_reach_inv cfg st : invoice_reach cfg st -> invoice_inv st.
Proof.
  destruct 1 as [inv a st Ha Hp Hh H|inv n st Hh H|hash n d st Hh H].
  - unfold withInvoice in H. rewrite Ha in H. apply rbind_ok in H as (sk & _ & [= <-]).
    split; simpl; [exact (settlement_fees cfg (Some (inv_destination inv)))| |].
    + left. rewrite str_truthy_some by done. done.
    + left. split; [done|]. by exists a.
  - unfold withNoAmountInvoice in H. apply rbind_ok in H as (sk & _ & [= <-]).
    split; simpl; [exact (settlement_fees cfg (Some (inv_destination inv)))| |].
    + left. rewrite str_truthy_some by done. done.
    + right. by exists n.
  - injection H as <-. split; simpl; [exact (settlement_fees cfg None)| |].
    + right. rewrite str_truthy_some by done. done.
    + right. by exists n.
Qed.

(** After the sender's wallet: the amount of one currency is known, positive,
    and equal to the input amount; its fee is zero inside the ledger and the
    capped fee otherwise. *)
Definition fee_for (st : InvoiceState) (a fee : PaymentAmount) : Prop :=
  (is_settlementMethod st = SMIntraLedger /\ amount fee = 0 /\ currency fee = currency a) \/
  (is_settlementMethod st = SMLightning /\ maxProtocolFee FEECAP_BASIS_POINTS a = Ok fee).

Record sender_inv (ss : SenderState) : Prop := {
  si_invoice : invoice_inv (ss_invoice ss);
  si_known :
    (exists a f, ss_btcPaymentAmount ss = Some a /\ ss_btcProtocolFee ss = Some f /\
       pos_of Btc a /\ fee_for (ss_invoice ss) a f /\ ss_inputAmount ss = Some (amount a) /\
       ss_usdPaymentAmount ss = None /\
       ss_usdProtocolFee ss = is_usdProtocolFee (ss_invoice ss)) \/
    (exists a f, ss_usdPaymentAmount ss = Some a /\ ss_usdProtocolFee ss = Some f /\
       pos_of Usd a /\ fee_for (ss_invoice ss) a f /\ ss_inputAmount ss = Some (amount a) /\
       w_currency (ss_senderWallet ss) = Usd /\ ss_btcPaymentAmount ss = None /\
       num_opt_truthy (is_uncheckedAmount (ss_invoice ss)) = true /\
       ss_btcProtocolFee ss = is_btcProtocolFee (ss_invoice ss))
}.

Lemma fee_or_max_for st o a f :
  invoice_inv st -> o = is_btcProtocolFee st /\ currency a = Btc \/
                    o = is_usdProtocolFee st /\ currency a = Usd ->
  fee_or_max o a = Ok f -> fee_for st a f.
Proof.
  intros [[(Hm & Hb & Hu)|(Hm & Hb & Hu)] _ _] Ho H; unfold fee_for, fee_or_max in *.
  - left. split; [done|]. destruct Ho as [[-> Hc]|[-> Hc]]; rewrite ?Hb, ?Hu in H;
      injection H as <-; by rewrite Hc.
  - right. split; [done|]. destruct Ho as [[-> Hc]|[-> Hc]]; by rewrite ?Hb, ?Hu in H.
Qed.

Lemma checked_pos c n a : checkedAmount c (Some n) = Ok a -> pos_of c a.
Proof.
  intros H. apply checkedAmount_ok_inv in H as (? & ? & _). split; [done|lia].
Qed.

Lemma checked_truthy c n a : checkedAmount c (Some n) = Ok a -> num_truthy n = true.
Proof.
  intros H. apply checkedAmount_ok_inv in H as (_ & Hpos & q & [= ->] & Hq).
  unfold num_truthy. setoid_rewrite Hq. pose proof (num_truthy_num (amount a)) as Ht.
  unfold num_truthy, num in Ht. rewrite Ht. apply negb_true_iff, Z.eqb_neq. lia.
Qed.

Lemma sender_reach_inv cfg ss : sender_reach cfg ss -> sender_inv ss.
Proof.
  destruct 1 as [st w ss Hst H]. apply invoice_reach_inv in Hst as Hinv.
  assert (Hs : ss_invoice ss = st).
  { unfold withSenderWallet in H.
    repeat (case_match; simplify_eq/=; try done);
      apply rbind_ok in H as (f & _ & [= <-]); done. }
  split; [by rewrite Hs|]. rewrite Hs. clear Hs.
  unfold withSenderWallet in H.
  destruct (is_uncheckedAmount st) as [n|] eqn:Hu.
  - destruct (ii_amount _ Hinv) as [(Hc & _)|(m & Hm & Hb)]; [congruence|].
    destruct (decide (w_currency w = Btc)) as [Hw|Hw].
    + destruct (checkedToBtcPaymentAmount (Some n)) as [a|e|e] eqn:Ha; [|by case_match|done].
      pose proof (checked_pos Btc n a Ha) as Hp.
      apply rbind_ok in H as (f & Hf & [= <-]). left. exists a, f. simpl.
      pose proof (fee_or_max_for st _ a f Hinv (or_introl (conj eq_refl (proj1 Hp))) Hf).
      done.
    + destruct (checkedToUsdPaymentAmount (Some n)) as [a|e|e] eqn:Ha; [|by case_match|done].
      pose proof (checked_pos Usd n a Ha) as Hp.
      apply rbind_ok in H as (f & Hf & [= <-]). right. exists a, f. simpl.
      pose proof (fee_or_max_for st _ a f Hinv (or_intror (conj eq_refl (proj1 Hp))) Hf).
      destruct (w_currency w); [|done]. simpl.
      rewrite (checked_truthy Usd n a Ha). done.
  - destruct (ii_amount _ Hinv) as [(_ & a & Ha & Hp & Hi)|(m & Hm & _)]; [|congruence].
    rewrite Hi, Ha in H. case_match; [done|].
    apply rbind_ok in H as (f & Hf & [= <-]). left. exists a, f. simpl.
    pose proof (fee_or_max_for st _ a f Hinv (or_introl (conj eq_refl (proj1 Hp))) Hf).
    done.
Qed.

(** After the recipient's wallet. *)
Record recipient_inv (rs : RecipientState) : Prop := {
  ri_sender : sender_inv (rs_sender rs);
  ri_external : rs_recipient rs = None -> settlement_of rs = SMLightning;
  ri_usd : rs_usdPaymentAmount rs = ss_usdPaymentAmount (rs_sender rs) \/
           (exists r a, rs_recipient rs = Some r /\ ra_usdPaymentAmount r = Some a /\
                        rs_usdPaymentAmount rs = Some a /\ pos_of Usd a /\
                        num_opt_truthy (is_uncheckedAmount (ss_invoice (rs_sender rs))) = false)
}.

Lemma recipient_reach_inv cfg rs : recipient_reach cfg rs -> recipient_inv rs.
Proof.
  destruct 1 as [ss rs Hss H|ss r rs Hss Hr H]; apply sender_reach_inv in Hss as Hinv.
  - unfold withoutRecipientWallet in H. case_decide; [done|]. injection H as <-.
    split; simpl; [done| |by left]. intros _. unfold settlement_of. simpl.
    destruct (ii_fees _ (si_invoice _ Hinv)) as [[? _]|[? _]]; [congruence|done].
  - unfold withRecipientWallet in H. case_match; [done|].
    destruct (_ && _) eqn:Hg; [done|]. injection H as <-. split; simpl; [done|done|].
    destruct (ra_usdPaymentAmount r) as [a|] eqn:Ha; [right|by left]. exists r, a.
    destruct (Hr a eq_refl) as [Hp Hc]. rewrite Hc in Hg. simpl in Hg.
    destruct (num_opt_truthy _); [done|]. done.
Qed.

(** *** The conversion *)

(** From every state that a chain of builder calls reaches after the recipient stage,
    withConversion returns a builder that holds a promise of the converted state and
    never its error object for an impossible state. *)
Theorem reachable_conversion_defined (cfg : BuilderConfig) (rs : RecipientState) (now : Z)
    (mid buy sell : PriceFns) :
  recipient_reach cfg rs ->
  exists p, withConversion (Builder rs) now mid buy sell = Builder p.
Proof.
  intros Hrs. apply recipient_reach_inv in Hrs as [Hs Hext Husd].
  unfold withConversion.
  destruct (si_known _ Hs) as [(a & f & -> & -> & _)|(a & f & Ha & -> & Hp & _ & _ & _ & -> & _)].
  - repeat case_match; eauto.
  - assert (exists u, rs_usdPaymentAmount rs = Some u) as [u Hu].
    { destruct Husd as [->|(? & u & _ & _ & -> & _)]; eauto. }
    rewrite Hu. repeat case_match; eauto.
Qed.

(** What the builder relies on of a price service: for a positive amount it
    answers in the currency asked for, with an amount that is not negative. *)
Definition converts_to (c : WalletCurrency) (f : PaymentAmount -> result PaymentAmount) : Prop :=
  forall a b, 0 < amount a -> f a = Ok b -> currency b = c /\ 0 <= amount b.

Definition price_ok (p : PriceFns) : Prop :=
  converts_to Usd (usdFromBtc p) /\ converts_to Btc (btcFromUsd p).

(** The two sides of a converted state. *)
Record conversion_inv (rs : RecipientState) (st : ConversionState) : Prop := {
  ci_recipient : cs_recipient st = rs;
  ci_btc : pos_of Btc (cs_btcPaymentAmount st);
  ci_usd : pos_of Usd (cs_usdPaymentAmount st);
  ci_btc_fee : currency (cs_btcProtocolFee st) = Btc;
  ci_usd_fee : currency (cs_usdProtocolFee st) = Usd;
  ci_intraledger : settlement_of rs = SMIntraLedger ->
    amount (cs_btcProtocolFee st) = 0 /\ amount (cs_usdProtocolFee st) = 0;
  ci_lightning : settlement_of rs = SMLightning ->
    0 < amount (cs_btcProtocolFee st) /\ 0 < amount (cs_usdProtocolFee st);
  ci_input : ss_inputAmount (rs_sender rs) = Some (amount (cs_btcPaymentAmount st)) \/
             ss_inputAmount (rs_sender rs) = Some (amount (cs_usdPaymentAmount st))
}.

Lemma fee_for_bounds st a f : 0 < amount a -> fee_for st a f ->
  currency f = currency a /\ 0 <= amount f /\
  (is_settlementMethod st = SMIntraLedger -> amount f = 0) /\
  (is_settlementMethod st = SMLightning -> 0 < amount f).
Proof.
  intros Ha [(Hm & Hf & Hc)|(Hm & Hf)]; rewrite Hm.
  - split_and!; try done; lia.
  - rewrite maxProtocolFee_spec in Hf. injection Hf as <-. simpl.
    assert (1 <= max_fee FEECAP_BASIS_POINTS (amount a)).
    { unfold max_fee, FEECAP_BASIS_POINTS. rewrite (proj2 (Z.eqb_neq _ _)) by lia.
      apply or_one_pos, round_quot_nearest; lia. }
    split_and!; try done; lia.
Qed.

Lemma updatedFromBtc_inv rs now price a f st :
  converts_to Usd price ->
  pos_of Btc a -> fee_for (ss_invoice (rs_sender rs)) a f ->
  ss_inputAmount (rs_sender rs) = Some (amount a) ->
  updatedStateFromBtcPaymentAmount rs now price a f = Ok st -> conversion_inv rs st.
Proof.
  intros Hprice [Hac Ha] Hf Hi H. unfold updatedStateFromBtcPaymentAmount in H.
  apply rbind_ok in H as (u & Hu & H). apply rbind_ok in H as (r & Hr & H).
  apply rbind_ok in H as (uf & Huf & [= <-]).
  destruct (Hprice _ _ Ha Hu) as [Huc Hu0].
  apply PriceRatio_ok in Hr as (-> & Hun & Hbn). rewrite convertFromBtcToCeil_spec in Huf by done.
  injection Huf as <-. destruct (fee_for_bounds _ _ _ Ha Hf) as (Hfc & Hf0 & Hfi & Hfl).
  pose proof (ceil_quot_least (amount f * amount u) (amount a)) as (C1 & C2 & C3);
    [nia|done|]. simpl in *.
  split; simpl; try done; try (by left); unfold settlement_of in *.
  - split; [done|lia].
  - congruence.
  - intros Hm. specialize (Hfi Hm). split; [done|]. rewrite Hfi in *. nia.
  - intros Hm. specialize (Hfl Hm). split; [done|].
    assert (0 < amount f * amount u) by nia. nia.
Qed.

Lemma updatedFromUsd_inv rs now price a f st :
  converts_to Btc price ->
  pos_of Usd a -> fee_for (ss_invoice (rs_sender rs)) a f ->
  ss_inputAmount (rs_sender rs) = Some (amount a) ->
  updatedStateFromUsdPaymentAmount rs now price a f = Ok st -> conversion_inv rs st.
Proof.
  intros Hprice [Hac Ha] Hf Hi H. unfold updatedStateFromUsdPaymentAmount in H.
  apply rbind_ok in H as (b & Hb & H). apply rbind_ok in H as (r & Hr & H).
  apply rbind_ok in H as (bf & Hbf & [= <-]).
  destruct (Hprice _ _ Ha Hb) as [Hbc Hb0].
  apply PriceRatio_ok in Hr as (-> & Hun & Hbn). rewrite convertFromUsd_spec in Hbf by done.
  injection Hbf as <-. destruct (fee_for_bounds _ _ _ Ha Hf) as (Hfc & Hf0 & Hfi & Hfl).
  simpl in *.
  pose proof (round_conv_bounds (amount f) (amount b) (amount a)) as (R1 & R2 & R3); [lia..|].
  assert (0 <= Z.quot (amount f * amount b) (amount a)) by (apply Z.quot_pos; nia).
  split; simpl; try done; try (by right); unfold settlement_of in *.
  - split; [done|lia].
  - congruence.
  - intros Hm. specialize (Hfi Hm). split; [tauto|done].
  - intros Hm. specialize (Hfl Hm). split; [|done].
    destruct (Z.eq_dec (round_conv (amount f) (amount b) (amount a)) 0); [|lia].
    apply R1 in e. lia.
Qed.

Lemma conversion_reach_inv cfg rs now mid buy sell st :
  recipient_reach cfg rs -> price_ok mid -> price_ok buy -> price_ok sell ->
  awaited (withConversion (Builder rs) now mid buy sell) = Ok st ->
  conversion_inv rs st.
Proof.
  intros Hrs [Hm1 Hm2] [Hb1 Hb2] [Hs1 Hs2] H.
  apply recipient_reach_inv in Hrs as [Hs Hext Husd].
  assert (Hhedge : forall p, p = buy \/ p = sell -> price_ok p).
  { intros p [-> | ->]; by split. }
  specialize (Hhedge (if decide (sender_currency rs = Btc) then buy else sell)
    ltac:(destruct (decide _); auto)) as [Hh1 Hh2].
  destruct (si_known _ Hs) as [(a & f & Ha & Hf & Hp & Hfee & Hi & Hu & Huf)
    |(a & f & Ha & Hf & Hp & Hfee & Hi & Hw & Hb & Htr & Hbf)].
  - assert (Hboth : forall ua uf, rs_usdPaymentAmount rs = Some ua ->
      ss_usdProtocolFee (rs_sender rs) = Some uf ->
      conversion_inv rs (mkConversionState rs now a ua f uf)).
    { intros ua uf Hua Huf'. rewrite Hu in Husd.
      destruct Husd as [?|(r & ua' & _ & _ & Hua' & Hpu & _)]; [congruence|].
      simplify_eq. destruct (fee_for_bounds _ _ _ (proj2 Hp) Hfee) as (Hfc & Hf0 & Hfi & Hfl).
      rewrite Huf in Huf'.
      destruct (ii_fees _ (si_invoice _ Hs)) as [(Hm & Hz1 & Hz2)|(Hm & Hz1 & Hz2)];
        [|congruence]. rewrite Hz2 in Huf'. injection Huf' as <-.
      split; simpl; try done; try (by left); unfold settlement_of in *; rewrite ?Hm.
      - by rewrite Hfc, (proj1 Hp).
      - intros _. split; [by apply Hfi|done].
      - done. }
    unfold withConversion in H. rewrite Ha, Hf in H.
    repeat (case_match; simpl in H); simplify_eq;
      first [by apply Hboth | by eapply updatedFromBtc_inv, H].
  - unfold withConversion in H. rewrite Hb, Hf in H.
    assert (rs_usdPaymentAmount rs = Some a) as Hua
      by (destruct Husd as [->|(? & ? & _ & _ & _ & _ & ?)]; [done|congruence]).
    rewrite Hua in H.
    repeat (case_match; simpl in H); simplify_eq;
      by eapply updatedFromUsd_inv, H.
Qed.

(** The two ways to finish a flow: with the capped fee, or with a probed route. *)
Definition finish (b : builder (result ConversionState)) (route : option (string * RawRoute))
    : result PaymentFlow :=
  match route with
  | None => withoutRoute b
  | Some (pubkey, rawRoute) => withRoute b pubkey rawRoute
  end.

(** The protocol fees of a flow: without a route, none inside the ledger and positive ones over
    lightning; with a route, the fee of the route in satoshis, and the least number of cents
    that is not below it at the price of the flow. *)
Definition fees_of (f : PaymentFlow) (route : option (string * RawRoute)) : Prop :=
  let btcFee := amount (pf_btcProtocolFee f) in
  let usdFee := amount (pf_usdProtocolFee f) in
  match route with
  | None => (pf_settlementMethod f = SMIntraLedger -> btcFee = 0 /\ usdFee = 0) /\
            (pf_settlementMethod f = SMLightning -> 0 < btcFee /\ 0 < usdFee)
  | Some (pubkey, rawRoute) =>
      feeFromRawRoute (route_fee rawRoute) = Ok (pf_btcProtocolFee f) /\
      pf_outgoingNodePubkey f = Some pubkey /\ pf_cachedRoute f = Some rawRoute /\
      (0 <= btcFee ->
       let price := amount (pf_usdPaymentAmount f) in
       let sats := amount (pf_btcPaymentAmount f) in
       btcFee * price <= usdFee * sats < btcFee * price + sats)
  end.

(** What holds of a flow however it is finished. *)
Definition flow_shape (f : PaymentFlow) : Prop :=
  pos_of Btc (pf_btcPaymentAmount f) /\ pos_of Usd (pf_usdPaymentAmount f) /\
  (pf_paymentInitiationMethod f = PMLightning <-> is_ok (Flow.paymentHashForFlow f) = true) /\
  (pf_paymentInitiationMethod f = PMIntraLedger <->
     is_ok (Flow.intraLedgerHashForFlow f) = true) /\
  (pf_inputAmount f = amount (pf_btcPaymentAmount f) \/
   pf_inputAmount f = amount (pf_usdPaymentAmount f)).

Lemma paymentFromState_shape cfg rs st btcFee usdFee pubkey route f :
  recipient_reach cfg rs -> conversion_inv rs st ->
  paymentFromState st btcFee usdFee pubkey route = Ok f ->
  flow_shape f /\ pf_btcProtocolFee f = btcFee /\ pf_usdProtocolFee f = usdFee /\
  pf_outgoingNodePubkey f = pubkey /\ pf_cachedRoute f = route /\
  pf_btcPaymentAmount f = cs_btcPaymentAmount st /\ pf_usdPaymentAmount f = cs_usdPaymentAmount st /\
  pf_settlementMethod f = settlement_of rs.
Proof.
  intros Hreach [Hrs Hb Hu _ _ _ _ Hin] Hf.
  pose proof (ii_hash _ (si_invoice _ (ri_sender _ (recipient_reach_inv _ _ Hreach)))) as Hh.
  unfold paymentFromState in Hf. rewrite Hrs in Hf.
  apply rbind_ok in Hf as (h & Hh' & [= <-]). unfold flow_shape. simpl. split; [|done].
  split_and!; try done.
  - destruct Hh as [(Ht & Hn & ->)|(Hn & Ht & ->)]; rewrite Ht, ?Hn in Hh'.
    + injection Hh' as <-. unfold Flow.paymentHashForFlow. simpl. rewrite Ht.
      destruct (is_paymentHash _) as [p|]; [|done]. by rewrite Ht.
    + injection Hh' as <-. unfold Flow.paymentHashForFlow. simpl. by rewrite Ht.
  - destruct Hh as [(Ht & Hn & ->)|(Hn & Ht & ->)]; rewrite Ht, ?Hn in Hh'.
    + injection Hh' as <-. unfold Flow.intraLedgerHashForFlow. simpl. by rewrite Ht.
    + injection Hh' as <-. unfold Flow.intraLedgerHashForFlow. simpl. rewrite Ht.
      destruct (is_intraLedgerHash _) as [p|]; [|done]. by rewrite Ht.
  - by destruct Hin as [-> | ->]; [left|right].
Qed.

(** C12. Every payment flow that a chain of builder calls reaches has positive bitcoin
    and dollar amounts, a payment hash exactly when it was initiated over lightning
    and an intra-ledger hash exactly when it was initiated inside the ledger, and an
    input amount equal to one of its two amounts. Finished without a route it has
    zero protocol fees inside the ledger and positive ones over lightning; finished
    with a route it has that node and route, the fee of the route in satoshis, and
    the least number of cents worth at least that fee when that is not negative. The
    chain starts with a non-empty hash and a positive bitcoin amount of the invoice
    or amount of the client, a dollar amount of the recipient is positive and comes
    with a dollar wallet, and the three conversions give amounts of the right
    currency that are not negative, or errors. *)
Theorem flow_wellformed (cfg : BuilderConfig) (rs : RecipientState) (now : Z)
    (mid buy sell : PriceFns) (route : option (string * RawRoute)) (f : PaymentFlow)
    (Hreach : recipient_reach cfg rs)
    (Hmid : price_ok mid) (Hbuy : price_ok buy) (Hsell : price_ok sell)
    (Hf : finish (withConversion (Builder rs) now mid buy sell) route = Ok f) :
  flow_shape f /\ fees_of f route.
Proof.
  destruct route as [[pubkey raw]|]; simpl in Hf; apply rbind_ok in Hf as (st & Hst & Hf);
    pose proof (conversion_reach_inv _ _ _ _ _ _ _ Hreach Hmid Hbuy Hsell Hst) as Hinv.
  - apply rbind_ok in Hf as (r & Hr & Hf). apply rbind_ok in Hf as (bf & Hbf & Hf).
    apply rbind_ok in Hf as (uf & Huf & Hf).
    apply (paymentFromState_shape cfg rs) in Hf as (Hs & Eb & Eu & Ek & Er & Ebtc & Eusd & _); [|done..].
    split; [done|]. unfold fees_of. rewrite Eb, Eu, Ek, Er, Ebtc, Eusd. split_and!; [done..|]. intros H0.
    destruct Hinv as [_ [_ Hb] [_ Hu] _ _ _ _ _]. apply PriceRatio_ok in Hr as (-> & _ & _).
    rewrite convertFromBtcToCeil_spec in Huf by (simpl; lia). injection Huf as <-. simpl in *.
    pose proof (ceil_quot_least (amount bf * amount (cs_usdPaymentAmount st))
      (amount (cs_btcPaymentAmount st))) as (C1 & C2 & C3); [nia|lia|]. lia.
  - destruct Hinv as [E1 E2 E3 E4 E5 Hii Hil E8].
    apply (paymentFromState_shape cfg rs) in Hf as (Hs & Eb & Eu & _ & _ & _ & _ & Em); [|done..].
    split; [done|]. unfold fees_of. rewrite Eb, Eu, Em. by split.
Qed.

(** *** A dollar wallet pays an invoice of another node *)

Definition sample_config : BuilderConfig := mkConfig ["local"] [].
Definition sample_invoice : LnInvoice :=
  mkInvoice "remote" "hash" "lnbc1" (Some (mkAmount 10000 Btc)) "coffee" [].
Definition sample_sender : Wallet := mkWalletRec "w1" "a1" Usd.
Definition sample_price : PriceFns :=
  mkPriceFns (convertFromBtc sample_ratio) (convertFromUsd sample_ratio).

(** The state of a result that is a stage. *)
Definition stage {S} (d : S) (r : result (builder S)) : S :=
  match r with Ok (Builder s) => s | _ => d end.

Definition sample_invoice_state : InvoiceState :=
  Eval vm_compute in
    stage (mkInvoiceState SMLightning None None PMLightning None None None None None "" false)
          (withInvoice sample_config sample_invoice).
Definition sample_sender_state : SenderState :=
  Eval vm_compute in
    stage (mkSenderState sample_invoice_state sample_sender None None None None None)
          (withSenderWallet (Builder sample_invoice_state) sample_sender).
Definition sample_recipient_state : RecipientState :=
  mkRecipientState sample_sender_state None None.

Lemma sample_reach : recipient_reach sample_config sample_recipient_state.
Proof.
  apply (reach_withoutRecipient _ sample_sender_state); [|reflexivity].
  apply (reach_withSenderWallet _ sample_invoice_state sample_sender); [|reflexivity].
  apply (reach_withInvoice _ sample_invoice (mkAmount 10000 Btc)); [reflexivity|by split|done|reflexivity].
Qed.

Lemma sample_price_ok : price_ok sample_price.
Proof.
  split; intros a b Ha; simpl; intros H.
  - rewrite convertFromBtc_spec in H by done. injection H as <-. split; [done|].
    apply (round_conv_nonneg (amount a) 23 1000); lia.
  - rewrite convertFromUsd_spec in H by done. injection H as <-. split; [done|].
    apply (round_conv_nonneg (amount a) 1000 23); lia.
Qed.

Lemma reachable_conversion_defined_witness : exists p,
  withConversion (Builder sample_recipient_state) 0 sample_price sample_price sample_price
    = Builder p.
Proof.
  exact (reachable_conversion_defined sample_config sample_recipient_state 0 sample_price
           sample_price sample_price sample_reach).
Defined.

Definition sample_flow (route : option (string * RawRoute)) : result PaymentFlow :=
  finish (withConversion (Builder sample_recipient_state) 0 sample_price sample_price sample_price) route.

(** The flow of a payment with the capped fee, and with a route of 20 satoshis. *)
Lemma flow_wellformed_witness :
  (exists f, sample_flow None = Ok f /\ flow_shape f /\ fees_of f None) /\
  exists f, sample_flow (Some ("node"%string, mkRoute (num 20) None)) = Ok f /\
    fees_of f (Some ("node"%string, mkRoute (num 20) None)).
Proof.
  split.
  - destruct (sample_flow None) as [f| |] eqn:Hf; [|vm_compute in Hf; discriminate Hf..].
    exists f. split; [reflexivity|].
    exact (flow_wellformed sample_config sample_recipient_state 0 sample_price sample_price
      sample_price None f sample_reach sample_price_ok sample_price_ok sample_price_ok Hf).
  - destruct (sample_flow (Some ("node"%string, mkRoute (num 20) None))) as [f| |] eqn:Hf;
      [|vm_compute in Hf; discriminate Hf..].
    exists f. split; [reflexivity|].
    exact (proj2 (flow_wellformed sample_config sample_recipient_state 0 sample_price sample_price
      sample_price _ f sample_reach sample_price_ok sample_price_ok sample_price_ok Hf)).
Defined.

End Reach.

(** ** Properties of the flow object and of the choice of price *)

Module FlowSpec.
Import Builder.

(** The amount and the fee in the currency of the sender's wallet. *)
Definition sender_total (f : PaymentFlow) : Z :=
  match pf_senderWalletCurrency f with
  | Btc => amount (pf_btcPaymentAmount f) + amount (pf_btcProtocolFee f)
  | Usd => amount (pf_usdPaymentAmount f) + amount (pf_usdProtocolFee f)
  end.

(** A balance passes the check of a payment flow exactly when it is in the currency of
    the sender's wallet and covers the amount and the fee in that currency;
    otherwise the error is InvalidCurrencyForWalletError when the currency differs
    and InsufficientBalanceError when the balance is too small. *)
Theorem checkBalanceForSend_spec (f : PaymentFlow) (balance : PaymentAmount) :
  (Flow.checkBalanceForSend f balance = Ok tt <->
     currency balance = pf_senderWalletCurrency f /\ sender_total f <= amount balance) /\
  (forall e, Flow.checkBalanceForSend f balance = Er e ->
     error_class e = (if decide (currency balance = pf_senderWalletCurrency f)
                      then InsufficientBalanceError else InvalidCurrencyForWalletError)).
Proof.
  unfold Flow.checkBalanceForSend, sender_total.
  destruct (pf_senderWalletCurrency f), (currency balance); simpl;
    try (split; [split; [done|by intros [? _]]|by intros e [= <-]]);
    (destruct (_ <? _) eqn:Hlt; bool_prop; split;
     [split; [done|intros [_ ?]; lia] | by intros e [= <-] | split; [done|done] | done]).
Qed.

(** The price a conversion uses depends only on the direction: without a conversion the
    buy and sell prices are never used, a bitcoin sender's conversion only uses the
    price for buying dollars and a dollar sender's only the price for selling them. *)
Theorem conversion_price_source (rs : RecipientState) (now : Z)
    (mid buy sell mid' buy' sell' : PriceFns) :
  let conv := fun m b s => withConversion (Builder rs) now m b s in
  (noConversionRequired rs = true -> conv mid buy sell = conv mid buy' sell') /\
  (noConversionRequired rs = false -> sender_currency rs = Btc ->
     conv mid buy sell = conv mid' buy sell') /\
  (noConversionRequired rs = false -> sender_currency rs = Usd ->
     conv mid buy sell = conv mid' buy' sell).
Proof.
  unfold withConversion. split_and!; intros H; rewrite H; [done| |];
    intros Hc; rewrite Hc; done.
Qed.

Lemma conversion_price_source_witness :
  withConversion (Builder Reach.sample_recipient_state) 0 Reach.sample_price Reach.sample_price
    Reach.sample_price =
  withConversion (Builder Reach.sample_recipient_state) 0
    (mkPriceFns (fun _ => Er (new PriceNotAvailableError))
                (fun _ => Er (new PriceNotAvailableError)))
    (mkPriceFns (fun _ => Er (new PriceNotAvailableError))
                (fun _ => Er (new PriceNotAvailableError)))
    Reach.sample_price.
Proof.
  refine (proj2 (proj2 (conversion_price_source Reach.sample_recipient_state 0
    Reach.sample_price Reach.sample_price Reach.sample_price _ _ Reach.sample_price)) _ _);
  reflexivity.
Defined.

End FlowSpec.
