(* ===== verification/Regex.v ===== *)
(** * Regular expressions

    The back end validates its inputs with regular expressions anchored at both
    ends.  This file has their syntax, what it means for a string to match
    ([matches]), and an executable matcher by derivatives ([accepts]) proved
    equivalent to it.  A string is a sequence of code units; units of 256 and
    more, which no pattern of the back end accepts, are not represented. *)

From Stdlib Require Import Ascii.
From S2P Require Import Prelude.

Inductive regex : Type :=
| Never
| Eps
| Cls (p : ascii -> bool)
| Cat (r s : regex)
| Alt (r s : regex)
| Star (r : regex).

Inductive matches : regex -> string -> Prop :=
| m_eps : matches Eps ""
| m_cls p c : p c = true -> matches (Cls p) (String c "")
| m_cat r s a b : matches r a -> matches s b -> matches (Cat r s) (a +:+ b)
| m_alt_l r s a : matches r a -> matches (Alt r s) a
| m_alt_r r s a : matches s a -> matches (Alt r s) a
| m_star_nil r : matches (Star r) ""
| m_star_cons r c a b :
    matches r (String c a) -> matches (Star r) b -> matches (Star r) (String c a +:+ b).

(** ** The matcher *)

Fixpoint nullable (r : regex) : bool :=
  match r with
  | Never | Cls _ => false
  | Eps | Star _ => true
  | Cat r s => nullable r && nullable s
  | Alt r s => nullable r || nullable s
  end.

Fixpoint deriv (c : ascii) (r : regex) : regex :=
  match r with
  | Never | Eps => Never
  | Cls p => if p c then Eps else Never
  | Cat r s => if nullable r then Alt (Cat (deriv c r) s) (deriv c s) else Cat (deriv c r) s
  | Alt r s => Alt (deriv c r) (deriv c s)
  | Star r => Cat (deriv c r) (Star r)
  end.

Fixpoint accepts (r : regex) (s : string) : bool :=
  match s with
  | EmptyString => nullable r
  | String c s' => accepts (deriv c r) s'
  end.

(** ** Correctness of the matcher *)

Lemma app_eq_nil_str (a b : string) : a +:+ b = ""%string -> a = ""%string /\ b = ""%string.
Proof. by destruct a; destruct b. Qed.

Lemma nullable_spec r : nullable r = true <-> matches r "".
Proof.
  split.
  - induction r; simpl; intros H; try done; try by constructor.
    + bool_prop. apply (m_cat _ _ "" ""); auto.
    + apply orb_true_iff in H as [H|H]; [apply m_alt_l|apply m_alt_r]; auto.
  - intros H. remember ""%string as e eqn:E. revert E.
    induction H; intros E; simpl; try done.
    + apply app_eq_nil_str in E as [-> ->]. by rewrite IHmatches1, IHmatches2.
    + by rewrite IHmatches.
    + rewrite IHmatches by done. apply orb_true_r.
Qed.

Lemma deriv_sound c r s : matches (deriv c r) s -> matches r (String c s).
Proof.
  revert s. induction r as [| |p|r1 IH1 r2 IH2|r1 IH1 r2 IH2|r IH]; intros s H; simpl in H.
  - inversion H.
  - inversion H.
  - destruct (p c) eqn:E; inversion H; subst. by constructor.
  - destruct (nullable r1) eqn:E.
    + inversion H as [| | |? ? ? H1|? ? ? H2| |]; subst.
      * inversion H1 as [| |? ? a b Ha Hb| | | |]; subst.
        apply IH1 in Ha. exact (m_cat _ _ _ _ Ha Hb).
      * apply nullable_spec in E. exact (m_cat _ _ _ _ E (IH2 _ H2)).
    + inversion H as [| |? ? a b Ha Hb| | | |]; subst.
      apply IH1 in Ha. exact (m_cat _ _ _ _ Ha Hb).
  - inversion H; subst; [apply m_alt_l|apply m_alt_r]; auto.
  - inversion H as [| |? ? a b Ha Hb| | | |]; subst.
    exact (m_star_cons _ _ _ _ (IH _ Ha) Hb).
Qed.

Lemma deriv_complete c r s : matches r (String c s) -> matches (deriv c r) s.
Proof.
  revert s. induction r as [| |p|r1 IH1 r2 IH2|r1 IH1 r2 IH2|r IH]; intros s H; simpl.
  - inversion H.
  - inversion H.
  - inversion H as [|? ? Hp| | | | |]; subst. rewrite Hp. constructor.
  - inversion H as [| |? ? a b Ha Hb E1 E2| | | |]. subst.
    destruct a as [|c' a]; [change (b = String c s) in E2; subst b|
      change (String c' (a +:+ b) = String c s) in E2; injection E2 as -> <-].
    + rewrite (proj2 (nullable_spec r1) Ha). apply m_alt_r, IH2, Hb.
    + apply IH1 in Ha. destruct (nullable r1); [apply m_alt_l|]; by constructor.
  - inversion H; subst; [apply m_alt_l|apply m_alt_r]; auto.
  - inversion H as [| | | | | |? ? a b Ha Hb]; subst.
    apply IH in Ha. by constructor.
Qed.

Lemma accepts_spec r s : accepts r s = true <-> matches r s.
Proof.
  revert r. induction s as [|c s IH]; intros r; simpl; [apply nullable_spec|].
  rewrite IH. split; [apply deriv_sound|apply deriv_complete].
Qed.

(** ** Notation of patterns *)

(** [r{m,n}] as [m] copies followed by at most [n] more: [rep m n r] is
    [r{m,m+n}]. *)
Fixpoint optional (n : nat) (r : regex) : regex :=
  match n with
  | O => Eps
  | S n => Alt Eps (Cat r (optional n r))
  end.

Fixpoint rep (m n : nat) (r : regex) : regex :=
  match m with
  | O => optional n r
  | S m => Cat r (rep m n r)
  end.

Definition exactly (m : nat) (r : regex) : regex := rep m 0 r.
Definition one_or_more (r : regex) : regex := Cat r (Star r).

(** Literal text. *)
Fixpoint lit (s : string) : regex :=
  match s with
  | EmptyString => Eps
  | String c s' => Cat (Cls (Ascii.eqb c)) (lit s')
  end.

(** ** Character classes *)

Definition in_range (lo hi c : ascii) : bool :=
  Nat.leb (nat_of_ascii lo) (nat_of_ascii c) && Nat.leb (nat_of_ascii c) (nat_of_ascii hi).

Definition is_digit : ascii -> bool := in_range "0" "9".
Definition is_lower : ascii -> bool := in_range "a" "z".
Definition is_upper : ascii -> bool := in_range "A" "Z".

(** The lower case form of a letter, used by the [i] flag. *)
Definition to_lower (c : ascii) : ascii :=
  if is_upper c then ascii_of_nat (nat_of_ascii c + 32) else c.

(** A class under the [i] flag; the class is given on lower case letters. *)
Definition nocase (p : ascii -> bool) (c : ascii) : bool := p (to_lower c).

Definition is_hex : ascii -> bool := nocase (fun c => is_digit c || in_range "a" "f" c).
(** [[0-9a-z_]] under the [i] flag, which is also [\w]. *)
Definition is_word : ascii -> bool :=
  nocase (fun c => is_digit c || is_lower c || Ascii.eqb c "_").

(** ** Properties of all characters of a match *)

Fixpoint str_forall (p : ascii -> bool) (s : string) : bool :=
  match s with
  | EmptyString => true
  | String c s' => p c && str_forall p s'
  end.

Lemma str_forall_app p a b : str_forall p (a +:+ b) = str_forall p a && str_forall p b.
Proof.
  induction a as [|c a IH]; [done|]. change (String c a +:+ b) with (String c (a +:+ b)).
  simpl. by rewrite IH, andb_assoc.
Qed.

(** Every class of the pattern only has characters of [q]. *)
Fixpoint classes_within (q : ascii -> Prop) (r : regex) : Prop :=
  match r with
  | Never | Eps => True
  | Cls p => forall c, p c = true -> q c
  | Cat r s | Alt r s => classes_within q r /\ classes_within q s
  | Star r => classes_within q r
  end.

Lemma matches_forall (q : ascii -> bool) r s :
  classes_within (fun c => q c = true) r -> matches r s -> str_forall q s = true.
Proof.
  intros Hr H. induction H; simpl in Hr; rewrite ?str_forall_app; try done.
  - simpl. by rewrite Hr.
  - destruct Hr. by rewrite IHmatches1, IHmatches2.
  - destruct Hr. auto.
  - destruct Hr. auto.
  - by rewrite IHmatches1, IHmatches2.
Qed.

Lemma optional_within q n r : classes_within q r -> classes_within q (optional n r).
Proof. intros H. induction n; simpl; auto. Qed.

Lemma rep_within q m n r : classes_within q r -> classes_within q (rep m n r).
Proof. intros H. induction m; simpl; [by apply optional_within|auto]. Qed.

(** Repetitions of a class are the strings of the class of the right lengths. *)
Lemma optional_cls n p s :
  matches (optional n (Cls p)) s <-> str_forall p s = true /\ (String.length s <= n)%nat.
Proof.
  revert s. induction n as [|n IH]; intros s; simpl.
  - split; [intros H; inversion H; subst; simpl; auto|].
    intros [_ H]. destruct s; simpl in H; [constructor|lia].
  - split.
    + intros H. inversion H as [| | |? ? ? H1|? ? ? H1| |]; subst.
      * inversion H1; subst. simpl. split; [done|lia].
      * inversion H1 as [| |? ? a b Ha Hb| | | |]; subst.
        inversion Ha as [|? c Hc| | | | |]; subst. apply IH in Hb as [Hb1 Hb2].
        change (String c "" +:+ b) with (String c b). simpl. rewrite Hc, Hb1.
        split; [done|lia].
    + intros [H1 H2]. destruct s as [|c s]; simpl in *; [apply m_alt_l; constructor|].
      bool_prop. apply m_alt_r. change (String c s) with (String c "" +:+ s).
      constructor; [by constructor|]. apply IH. split; [done|lia].
Qed.

Lemma rep_cls m n p s :
  matches (rep m n (Cls p)) s <->
  str_forall p s = true /\ (m <= String.length s <= m + n)%nat.
Proof.
  revert s. induction m as [|m IH]; intros s; simpl.
  - rewrite optional_cls. split; intros []; split; auto; lia.
  - split.
    + intros H. inversion H as [| |? ? a b Ha Hb| | | |]; subst.
      inversion Ha as [|? c Hc| | | | |]; subst. apply IH in Hb as [Hb1 Hb2].
      change (String c "" +:+ b) with (String c b). simpl. rewrite Hc, Hb1. split; [done|lia].
    + intros [H1 H2]. destruct s as [|c s]; simpl in *; [lia|].
      bool_prop. change (String c s) with (String c "" +:+ s).
      constructor; [by constructor|]. apply IH. split; [done|lia].
Qed.
