(* ===== verification/Validation.v ===== *)
(** * Validation of inputs

    The checks of [lib/domain/accounts/index.js], [lib/domain/wallets/index.js],
    [lib/domain/users/index.js], [lib/domain/bitcoin/index.js],
    [lib/domain/bitcoin/lightning/index.js], [lib/domain/fiat] and
    [lib/domain/ledger/index.js].

    [None] stands for [undefined] or [null].  An error carries the offending text
    where the source puts the text itself in the message; messages that render a
    number are left out. *)

From Stdlib Require Import Ascii Lqa.
From S2P Require Import Prelude JsNum Errors Regex Money Ledger PaymentFlow.
#[local] Open Scope string_scope.

(** ** Patterns *)

(** [/^[0-9a-f]{8}-[0-9a-f]{4}-[1-5][0-9a-f]{3}-[89ab][0-9a-f]{3}-[0-9a-f]{12}$/i] *)
Definition UuidRegex : regex :=
  Cat (exactly 8 (Cls is_hex)) (Cat (lit "-")
  (Cat (exactly 4 (Cls is_hex)) (Cat (lit "-")
  (Cat (Cls (in_range "1" "5")) (Cat (exactly 3 (Cls is_hex)) (Cat (lit "-")
  (Cat (Cls (nocase (fun c => Ascii.eqb c "8" || Ascii.eqb c "9" || Ascii.eqb c "a"
                              || Ascii.eqb c "b")))
  (Cat (exactly 3 (Cls is_hex)) (Cat (lit "-") (exactly 12 (Cls is_hex))))))))))).

Definition KratosUserIdRegex : regex := UuidRegex.
Definition WalletIdRegex : regex := UuidRegex.

(** [/^[0-9A-Za-z_]{3,50}$/i] *)
Definition ContactAliasRegex : regex := rep 3 47 (Cls is_word).

(** Literal lower case text under the [i] flag. *)
Fixpoint lit_nocase (s : string) : regex :=
  match s with
  | EmptyString => Eps
  | String c s' => Cat (Cls (fun x => Ascii.eqb c (to_lower x))) (lit_nocase s')
  end.

Definition any_char : regex := Cls (fun _ => true).

(** [/(?!^(1|3|bc1|lnbc1))^[0-9a-z_]{3,50}$/i]: the look-ahead rejects the
    strings that start with one of the prefixes. *)
Definition reserved_prefix : regex :=
  Alt (lit_nocase "1") (Alt (lit_nocase "3") (Alt (lit_nocase "bc1") (lit_nocase "lnbc1"))).
Definition username_body : regex := rep 3 47 (Cls is_word).
Definition UsernameRegex (s : string) : bool :=
  negb (accepts (Cat reserved_prefix (Star any_char)) s) && accepts username_body s.

(** [/^[a-f0-9]{66}$/i] *)
Definition pubkeyRegex : regex := exactly 66 (Cls is_hex).
(** [/^[a-f0-9]{64}$/i] *)
Definition sha256Regex : regex := exactly 64 (Cls is_hex).
(** [/^[0-9a-fA-F]{24}$/i] *)
Definition LedgerTransactionIdRegex : regex := exactly 24 (Cls is_hex).
(** [/^\+\d{7,14}$/i] *)
Definition PhoneNumberRegex : regex := Cat (lit "+") (rep 7 7 (Cls is_digit)).

(** [/^[\w-.+]+@([\w-]+\.)+[\w-]{2,4}$/i] *)
Definition word_or (l : list ascii) (c : ascii) : bool :=
  is_word c || existsb (Ascii.eqb c) l.
Definition EmailAddressRegex : regex :=
  Cat (one_or_more (Cls (word_or ["-"%char; "."%char; "+"%char]))) (Cat (lit "@")
  (Cat (one_or_more (Cat (one_or_more (Cls (word_or ["-"%char]))) (lit ".")))
       (rep 2 2 (Cls (word_or ["-"%char]))))).

(** ** [domain/accounts/index.js] *)

Definition checkedToKratosUserId (userId : string) : result string :=
  if negb (accepts KratosUserIdRegex userId) then Er (new_msg InvalidKratosUserId userId)
  else Ok userId.

(** Comparisons with [NaN] are false. *)
Definition checkedCoordinates (latitude longitude : number) : result (number * number) :=
  if num_ltb latitude (num (-90)) || num_ltb (num 90) latitude
     || num_ltb longitude (num (-180)) || num_ltb (num 180) longitude
  then Er (new InvalidCoordinatesError)
  else Ok (latitude, longitude).

Definition checkedMapTitle (title : string) : result string :=
  if Nat.ltb (String.length title) 3 || Nat.ltb 100 (String.length title)
  then Er (new InvalidBusinessTitleLengthError)
  else Ok title.

(** [AccountStatus] and [AccountLevel] of [primitives.js]. *)
Inductive AccountStatus : Type := StatusNew | StatusPending | StatusActive | StatusLocked.

#[global] Instance AccountStatus_eq_dec : EqDecision AccountStatus.
Proof. solve_decision. Defined.

Definition status_string (s : AccountStatus) : string :=
  match s with
  | StatusNew => "new" | StatusPending => "pending"
  | StatusActive => "active" | StatusLocked => "locked"
  end.

Definition all_statuses : list AccountStatus :=
  [StatusNew; StatusPending; StatusActive; StatusLocked].

Definition checkedAccountStatus (status : string) : result AccountStatus :=
  match List.find (fun s => String.eqb (status_string s) status) all_statuses with
  | Some s => Ok s
  | None => Er (new_msg InvalidAccountStatusError status)
  end.

Definition checkedToUsername (username : string) : result string :=
  if negb (UsernameRegex username) then Er (new_msg InvalidUsername username)
  else Ok username.

Definition checkedToContactAlias (alias : string) : result string :=
  if negb (accepts ContactAliasRegex alias) then Er (new_msg InvalidContactAlias alias)
  else Ok alias.

Definition minWithdrawalFeeAccount : number := num 0.
Definition maxWithdrawalFeeAccount : number := num 100000.

Definition sanityCheckedDefaultAccountWithdrawFee (fee : number) : result number :=
  if num_ltb fee minWithdrawalFeeAccount || num_ltb maxWithdrawalFeeAccount fee
  then Er (new InvalidWithdrawFeeError)
  else Ok fee.

Definition checkedToAccountId (accountId : string) : result string :=
  if negb (Nat.eqb (String.length accountId) 24)
  then Er (new_msg InvalidAccountIdError accountId)
  else Ok accountId.

(** ** [domain/wallets/index.js] *)

Definition checkedToWalletId (walletId : string) : result string :=
  if negb (accepts WalletIdRegex walletId) then Er (new_msg InvalidWalletId walletId)
  else Ok walletId.

(** ** [domain/users] *)

Definition Languages : list string :=
  ["af"; "af-ZA"; "ar"; "ar-AE"; "ar-BH"; "ar-DZ"; "ar-EG"; "ar-IQ"; "ar-JO"; "ar-KW";
   "ar-LB"; "ar-LY"; "ar-MA"; "ar-OM"; "ar-QA"; "ar-SA"; "ar-SY"; "ar-TN"; "ar-YE";
   "az"; "az-AZ"; "az-AZ"; "be"; "be-BY"; "bg"; "bg-BG"; "bs-BA"; "ca"; "ca-ES"; "cs";
   "cs-CZ"; "cy"; "cy-GB"; "da"; "da-DK"; "de"; "de-AT"; "de-CH"; "de-DE"; "de-LI"; "de-
   LU"; "dv"; "dv-MV"; "el"; "el-GR"; "en"; "en-AU"; "en-BZ"; "en-CA"; "en-CB"; "en-GB";
   "en-IE"; "en-JM"; "en-NZ"; "en-PH"; "en-TT"; "en-US"; "en-ZA"; "en-ZW"; "eo"; "es";
   "es-AR"; "es-BO"; "es-CL"; "es-CO"; "es-CR"; "es-DO"; "es-EC"; "es-ES"; "es-ES"; "es-
   GT"; "es-HN"; "es-MX"; "es-NI"; "es-PA"; "es-PE"; "es-PR"; "es-PY"; "es-SV"; "es-UY";
   "es-VE"; "et"; "et-EE"; "eu"; "eu-ES"; "fa"; "fa-IR"; "fi"; "fi-FI"; "fo"; "fo-FO";
   "fr"; "fr-BE"; "fr-CA"; "fr-CH"; "fr-FR"; "fr-LU"; "fr-MC"; "gl"; "gl-ES"; "gu"; "gu-
   IN"; "he"; "he-IL"; "hi"; "hi-IN"; "hr"; "hr-BA"; "hr-HR"; "hu"; "hu-HU"; "hy"; "hy-
   AM"; "id"; "id-ID"; "is"; "is-IS"; "it"; "it-CH"; "it-IT"; "ja"; "ja-JP"; "ka"; "ka-
   GE"; "kk"; "kk-KZ"; "kn"; "kn-IN"; "ko"; "ko-KR"; "kok"; "kok-IN"; "ky"; "ky-KG";
   "lt"; "lt-LT"; "lv"; "lv-LV"; "mi"; "mi-NZ"; "mk"; "mk-MK"; "mn"; "mn-MN"; "mr"; "mr-
   IN"; "ms"; "ms-BN"; "ms-MY"; "mt"; "mt-MT"; "nb"; "nb-NO"; "nl"; "nl-BE"; "nl-NL";
   "nn-NO"; "ns"; "ns-ZA"; "pa"; "pa-IN"; "pl"; "pl-PL"; "ps"; "ps-AR"; "pt"; "pt-BR";
   "pt-PT"; "qu"; "qu-BO"; "qu-EC"; "qu-PE"; "ro"; "ro-RO"; "ru"; "ru-RU"; "sa"; "sa-
   IN"; "se"; "se-FI"; "se-FI"; "se-FI"; "se-NO"; "se-NO"; "se-NO"; "se-SE"; "se-SE";
   "se-SE"; "sk"; "sk-SK"; "sl"; "sl-SI"; "sq"; "sq-AL"; "sr-BA"; "sr-BA"; "sr-SP"; "sr-
   SP"; "sv"; "sv-FI"; "sv-SE"; "sw"; "sw-KE"; "syr"; "syr-SY"; "ta"; "ta-IN"; "te";
   "te-IN"; "th"; "th-TH"; "tl"; "tl-PH"; "tn"; "tn-ZA"; "tr"; "tr-TR"; "tt"; "tt-RU";
   "ts"; "uk"; "uk-UA"; "ur"; "ur-PK"; "uz"; "uz-UZ"; "uz-UZ"; "vi"; "vi-VN"; "xh"; "xh-
   ZA"; "zh"; "zh-CN"; "zh-HK"; "zh-MO"; "zh-SG"; "zh-TW"; "zu"; "zu-ZA"].

Definition checkedToPhoneNumber (phoneNumber : string) : result string :=
  if negb (accepts PhoneNumberRegex phoneNumber)
  then Er (new_msg InvalidPhoneNumber phoneNumber) else Ok phoneNumber.

Definition checkedToEmailAddress (emailAddress : string) : result string :=
  if negb (accepts EmailAddressRegex emailAddress)
  then Er (new_msg InvalidEmailAddress emailAddress) else Ok emailAddress.

Definition checkedToLanguage (language : string) : result string :=
  if String.eqb language "DEFAULT" || String.eqb language "" then Ok ""
  else if existsb (String.eqb language) Languages then Ok language
  else Er (new InvalidLanguageError).

Definition AccountLevel : list number := [num 1; num 2].

Definition checkedToAccountLevel (level : number) : result number :=
  if existsb (num_eqb level) AccountLevel then Ok level else Er (new InvalidAccountLevelError).

(** ** [domain/bitcoin/index.js] *)

Definition SATS_PER_BTC : number := num 100000000.
Definition btc2sat (btc : number) : number := Math_round (num_mul btc SATS_PER_BTC).
Definition sat2btc (sat : number) : number := num_div sat SATS_PER_BTC.

Definition positive_number (a : option number) : bool :=
  match a with Some x => num_truthy x && num_ltb (num 0) x | None => false end.

Definition checkedToCurrencyBaseAmount (a : option number) : result number :=
  match a with
  | Some x => if negb (positive_number a) then Er (new InvalidCurrencyBaseAmountError) else Ok x
  | None => Er (new InvalidCurrencyBaseAmountError)
  end.

Definition checkedToSats (a : option number) : result number :=
  match a with
  | Some x =>
      if negb (positive_number a) then Er (new InvalidSatoshiAmountError)
      else if num_gt_bigint x (amount MAX_SATS) then Er (new BtcAmountTooLargeError)
      else Ok x
  | None => Er (new InvalidSatoshiAmountError)
  end.

Definition checkedToTargetConfs (confs : option number) : result number :=
  match confs with
  | Some x => if negb (positive_number confs && isInteger x)
              then Er (new InvalidTargetConfirmations) else Ok x
  | None => Er (new InvalidTargetConfirmations)
  end.

Definition isSha256Hash (value : string) : bool := accepts sha256Regex value.

(** ** [domain/bitcoin/lightning/index.js] *)

Definition checkedToPubkey (pubkey : string) : result string :=
  if accepts pubkeyRegex pubkey then Ok pubkey
  else Er (new_msg InvalidPubKeyError "Pubkey conversion error").

(** ** [domain/fiat] *)

Definition checkedtoCents (a : option number) : result number :=
  match a with
  | Some x =>
      if negb (positive_number a) then Er (new InvalidUsdCents)
      else if negb (isInteger x) then Er (new NonIntegerError)
      else Ok x
  | None => Er (new InvalidUsdCents)
  end.

Definition cents_add (a b : number) : number := num_add a b.
Definition cents_sub (a b : number) : result number :=
  let r := num_sub a b in
  if num_ltb r (num 0) then Er (new InvalidNegativeAmountError) else Ok r.

(** [DisplayCurrencyConverter(price)]. *)
Definition CENTS_PER_USD : number := num 100.
Definition fromSats (price amt : number) : number := num_mul amt price.
Definition fromCents (amt : number) : number := amt.
Definition fromSatsToCents (price amt : number) : number :=
  Math_floor (num_mul amt (num_mul price CENTS_PER_USD)).
Definition fromCentsToSats (price amt : number) : number :=
  Math_floor (num_div amt (num_mul price CENTS_PER_USD)).

(** [NewDisplayCurrencyConverter(displayCurrencyPrice)]. *)
Definition fromBtcAmount (displayCurrencyPrice : number) (btc : PaymentAmount) : number :=
  num_mul (Number (amount btc)) displayCurrencyPrice.
Definition fromUsdAmount (usd : PaymentAmount) : number := Number (amount usd).

(** ** [domain/ledger/index.js] *)

Definition toLiabilitiesWalletId (walletId : string) : string :=
  liabilitiesMainAccount +:+ ":" +:+ walletId.

(** [s.split(c)]. *)
Fixpoint split_on (c : ascii) (s : string) : list string :=
  match s with
  | EmptyString => [""]
  | String x s' =>
      if Ascii.eqb x c then "" :: split_on c s'
      else match split_on c s' with
           | p :: ps => String x p :: ps
           | [] => [String x ""]
           end
  end.

Definition toWalletId (walletIdPath : string) : option string :=
  match split_on ":" walletIdPath with
  | [p0; p1] =>
      if String.eqb p0 liabilitiesMainAccount && str_truthy (Some p1) then Some p1 else None
  | _ => None
  end.

Definition checkedToLedgerTransactionId (id : option string) : result string :=
  match id with
  | Some s => if str_truthy id && accepts LedgerTransactionIdRegex s then Ok s
              else Er (new_msg InvalidLedgerTransactionId s)
  | None => Er (new InvalidLedgerTransactionId)
  end.

(** The input amount of a payment, from the side debited and the fee of the
    currency of the transaction. *)
Definition inputAmountFromLedgerTransaction (c : WalletCurrency) (debit : number)
    (centsFee satsFee : option number) : result Z :=
  match (if decide (c = Usd) then centsFee else satsFee) with
  | None => Er (new InvalidLedgerTransactionStateError)
  | Some fee => safeBigInt (Some (num_sub debit fee))
  end.

(** ** Paths of ledger accounts *)

Module AccountPath.

Definition no_colon (s : string) : bool := str_forall (fun c => negb (Ascii.eqb c ":")) s.

Lemma split_on_nil c s : split_on c s <> [].
Proof. destruct s; simpl; [done|]. repeat case_match; done. Qed.

Lemma split_single c s p : split_on c s = [p] ->
  s = p /\ str_forall (fun x => negb (Ascii.eqb x c)) p = true.
Proof.
  revert p. induction s as [|x s IH]; intros p H; simpl in H.
  - by injection H as <-.
  - destruct (Ascii.eqb x c) eqn:E.
    + injection H as _ H. by apply split_on_nil in H.
    + destruct (split_on c s) as [|q [|]] eqn:Hs; simplify_eq.
      * by apply split_on_nil in Hs.
      * destruct (IH _ eq_refl) as [-> Hq]. simpl. by rewrite E, Hq.
Qed.

Lemma split_no_sep c s : str_forall (fun x => negb (Ascii.eqb x c)) s = true ->
  split_on c s = [s].
Proof.
  induction s as [|x s IH]; [done|]. simpl. intros H. bool_prop.
  match goal with H : Ascii.eqb _ _ = false |- _ => rewrite H end. by rewrite IH.
Qed.

Lemma split_two c s p q : split_on c s = [p; q] ->
  s = p +:+ String c q /\ str_forall (fun x => negb (Ascii.eqb x c)) q = true.
Proof.
  revert p. induction s as [|x s IH]; intros p H; simpl in H; [done|].
  destruct (Ascii.eqb x c) eqn:E.
  - injection H as <- H. apply split_single in H as [-> Hq].
    apply Ascii.eqb_eq in E as ->. done.
  - destruct (split_on c s) as [|a l] eqn:Hs; [by apply split_on_nil in Hs|].
    injection H as <- ->. destruct (IH a eq_refl) as [-> Hq]. done.
Qed.

Lemma split_join c p q : str_forall (fun x => negb (Ascii.eqb x c)) p = true ->
  str_forall (fun x => negb (Ascii.eqb x c)) q = true ->
  split_on c (p +:+ String c q) = [p; q].
Proof.
  intros Hp Hq. induction p as [|x p IH].
  - change ("" +:+ String c q) with (String c q). simpl.
    rewrite Ascii.eqb_refl, split_no_sep by done. done.
  - change (String x p +:+ String c q) with (String x (p +:+ String c q)).
    simpl in *. bool_prop. rewrite IH by done.
    match goal with H : Ascii.eqb _ _ = false |- _ => by rewrite H end.
Qed.

Lemma split_path w : no_colon w = true ->
  split_on ":" (toLiabilitiesWalletId w) = [liabilitiesMainAccount; w].
Proof. intros H. by apply (split_join ":" liabilitiesMainAccount w). Qed.

Lemma toWalletId_spec p w :
  toWalletId p = Some w <-> p = toLiabilitiesWalletId w /\ w <> "" /\ no_colon w = true.
Proof.
  split.
  - unfold toWalletId. destruct (split_on ":" p) as [|p0 [|p1 [|]]] eqn:H; try done.
    destruct (String.eqb p0 _) eqn:E; [|done]. destruct (str_truthy _) eqn:Ht; [|done].
    intros [= <-]. apply String.eqb_eq in E as ->.
    apply split_two in H as [-> Hc]. split_and!; [done|by destruct p1|done].
  - intros (-> & Hne & Hc). unfold toWalletId. rewrite split_path by done.
    simpl. by destruct w.
Qed.

Definition not_colon (c : ascii) : bool := negb (Ascii.eqb c ":").

(** The classes of the pattern of a wallet id, checked on all characters. *)
Lemma hex_not_colon c : is_hex c = true -> not_colon c = true.
Proof.
  intros H. unfold not_colon. destruct (Ascii.eqb c ":") eqn:E; [|done].
  apply Ascii.eqb_eq in E as ->. by vm_compute in H.
Qed.

Lemma uuid_no_colon w : accepts UuidRegex w = true -> no_colon w = true.
Proof.
  intros H. apply accepts_spec in H. refine (matches_forall not_colon _ _ _ H).
  assert (Hhex : forall m, classes_within (fun c => not_colon c = true) (exactly m (Cls is_hex))).
  { intros m. apply rep_within. exact hex_not_colon. }
  assert (Hdash : classes_within (fun c => not_colon c = true) (lit "-")).
  { split; [|done]. intros c Hc. by apply Ascii.eqb_eq in Hc as <-. }
  assert (Hone : forall p, (forall c, p c = true -> not_colon c = true) ->
    classes_within (fun c => not_colon c = true) (Cls p)) by auto.
  unfold UuidRegex. repeat (split; [first [apply Hhex|apply Hdash|apply Hone]|]); try apply Hhex;
    intros c Hc; unfold not_colon; destruct (Ascii.eqb c ":") eqn:E; try done;
    apply Ascii.eqb_eq in E as ->; by vm_compute in Hc.
Qed.

Lemma uuid_nonempty w : accepts UuidRegex w = true -> w <> "".
Proof. by intros H ->. Qed.

Lemma checkedToWalletId_ok id w : checkedToWalletId id = Ok w ->
  w = id /\ accepts UuidRegex w = true.
Proof.
  unfold checkedToWalletId, WalletIdRegex.
  destruct (accepts UuidRegex id) eqn:E; simpl; [|done]. by intros [= <-].
Qed.

(** The ledger account of a valid wallet id is parsed back to that wallet id, no other
    account path is, and the two functions that make the path of a wallet agree. *)
Theorem wallet_account_roundtrip (id w : string) :
  checkedToWalletId id = Ok w ->
  toWalletId (toLiabilitiesWalletId w) = Some id /\
  toLedgerAccountId w = toLiabilitiesWalletId w /\
  (forall p, toWalletId p = Some w -> p = toLiabilitiesWalletId id).
Proof.
  intros H. apply checkedToWalletId_ok in H as [-> H]. split_and!.
  - apply toWalletId_spec. split_and!; [done|by apply uuid_nonempty|by apply uuid_no_colon].
  - done.
  - intros p Hp. by apply toWalletId_spec in Hp as [-> _].
Qed.

Lemma wallet_account_roundtrip_witness :
  toWalletId (toLiabilitiesWalletId "f4a2c8d0-3b1e-4c6f-9a7b-0123456789ab") =
    Some "f4a2c8d0-3b1e-4c6f-9a7b-0123456789ab".
Proof.
  refine (proj1 (wallet_account_roundtrip "f4a2c8d0-3b1e-4c6f-9a7b-0123456789ab" _ _)).
  reflexivity.
Defined.

End AccountPath.

(** ** User names *)

Module Usernames.

Fixpoint str_map (f : ascii -> ascii) (s : string) : string :=
  match s with
  | EmptyString => ""
  | String c s' => String (f c) (str_map f s')
  end.

Definition starts_with (p s : string) : bool := String.prefix p (str_map to_lower s).

Definition reserved (s : string) : bool :=
  existsb (fun p => starts_with p s) ["1"; "3"; "bc1"; "lnbc1"].

Lemma star_any s : matches (Star any_char) s.
Proof.
  induction s as [|c s IH]; [constructor|].
  change (String c s) with (String c "" +:+ s). constructor; [by constructor|done].
Qed.

Lemma lit_nocase_prefix p s :
  matches (Cat (lit_nocase p) (Star any_char)) s <-> starts_with p s = true.
Proof.
  unfold starts_with. revert s. induction p as [|c p IH]; intros s; simpl.
  - split; [by destruct (str_map _ _)|]. intros _.
    change s with ("" +:+ s). constructor; [constructor|apply star_any].
  - split.
    + intros H. inversion H as [| |? ? a b Ha Hb E1 E2| | | |]; subst.
      inversion Ha as [| |? ? a1 a2 Ha1 Ha2| | | |]; subst.
      inversion Ha1 as [|? x Hx| | | | |]; subst.
      change ((String x "" +:+ a2) +:+ b) with (String x (a2 +:+ b)). simpl.
      apply Ascii.eqb_eq in Hx as Hx'. subst c.
      destruct (ascii_dec (to_lower x) (to_lower x)); [|done].
      apply IH. by constructor.
    + destruct s as [|x s]; simpl; [done|].
      destruct (ascii_dec c (to_lower x)) as [->|]; [|done]. intros H.
      apply IH in H. inversion H as [| |? ? a b Ha Hb| | | |]; subst.
      change (String x (a +:+ b)) with ((String x "" +:+ a) +:+ b).
      constructor; [|done]. constructor; [|done]. constructor. apply Ascii.eqb_refl.
Qed.

Lemma lit_nocase_spec p s : accepts (lit_nocase p) s = true <-> str_map to_lower s = p.
Proof.
  rewrite accepts_spec. revert s. induction p as [|c p IH]; intros s; simpl.
  - split; [by inversion 1|]. destruct s; [constructor|done].
  - split.
    + intros H. inversion H as [| |? ? a b Ha Hb| | | |]; subst.
      inversion Ha as [|? x Hx| | | | |]; subst. apply IH in Hb.
      apply Ascii.eqb_eq in Hx. subst c.
      change (String (to_lower x) (str_map to_lower b) = String (to_lower x) p). by rewrite Hb.
    + destruct s as [|x s]; simpl; [done|]. intros [= <- Hs]. apply IH in Hs.
      change (String x s) with (String x "" +:+ s). constructor; [|done].
      constructor. apply Ascii.eqb_refl.
Qed.

Lemma cat_alt r1 r2 r s :
  matches (Cat (Alt r1 r2) r) s <-> matches (Cat r1 r) s \/ matches (Cat r2 r) s.
Proof.
  split.
  - intros H. inversion H as [| |? ? a b Ha Hb| | | |]; subst.
    inversion Ha; subst; [left|right]; by constructor.
  - intros [H|H]; inversion H as [| |? ? a b Ha Hb| | | |]; subst; constructor; try done;
      [by apply m_alt_l|by apply m_alt_r].
Qed.

Lemma reserved_spec s :
  accepts (Cat reserved_prefix (Star any_char)) s = reserved s.
Proof.
  apply eq_true_iff_eq. rewrite accepts_spec. unfold reserved_prefix, reserved.
  rewrite !cat_alt, !lit_nocase_prefix. simpl. rewrite !orb_true_iff. intuition discriminate.
Qed.

Lemma UsernameRegex_spec u : UsernameRegex u = true <->
  (3 <= String.length u <= 50)%nat /\ str_forall is_word u = true /\ reserved u = false.
Proof.
  unfold UsernameRegex. rewrite reserved_spec, andb_true_iff, negb_true_iff, accepts_spec.
  unfold username_body. rewrite rep_cls. split; [intros (? & ? & ?)|intros (? & ? & ?)];
    split_and!; try done; lia.
Qed.

Lemma to_lower_idem c : to_lower (to_lower c) = to_lower c.
Proof. by destruct c as [[] [] [] [] [] [] [] []]. Qed.

Lemma str_map_lower_idem s : str_map to_lower (str_map to_lower s) = str_map to_lower s.
Proof. induction s; simpl; [done|]. by rewrite IHs, to_lower_idem. Qed.

Lemma length_str_map f s : String.length (str_map f s) = String.length s.
Proof. induction s; simpl; auto. Qed.

Lemma str_forall_lower s : str_forall is_word (str_map to_lower s) = str_forall is_word s.
Proof.
  induction s as [|c s IH]; [done|]. simpl. rewrite IH. unfold is_word at 1, nocase.
  by rewrite to_lower_idem.
Qed.

(** A username is accepted, unchanged, exactly when it has 3 to 50 letters, digits or
    underscores and does not start, in any case, with 1, 3, bc1 or lnbc1; acceptance
    does not depend on case. *)
Theorem checkedToUsername_spec (u : string) :
  (forall v, checkedToUsername u = Ok v <->
     v = u /\ (3 <= String.length u <= 50)%nat /\ str_forall is_word u = true /\
     reserved u = false) /\
  is_ok (checkedToUsername (str_map to_lower u)) = is_ok (checkedToUsername u).
Proof.
  unfold checkedToUsername. split.
  - intros v. destruct (UsernameRegex u) eqn:E; simpl.
    + apply UsernameRegex_spec in E. split; [by intros [= <-]|by intros [-> _]].
    + split; [done|]. intros [_ H]. apply UsernameRegex_spec in H. congruence.
  - assert (UsernameRegex (str_map to_lower u) = UsernameRegex u) as ->; [|by case_match].
    apply eq_true_iff_eq. rewrite !UsernameRegex_spec, length_str_map, str_forall_lower.
    unfold reserved, starts_with. by rewrite str_map_lower_idem.
Qed.

End Usernames.

(** ** Satoshis and bitcoins *)

Module Units.
#[local] Open Scope Z_scope.

Lemma Qfloor_unique q z : (inject_Z z <= q)%Q -> (q < inject_Z (z + 1))%Q -> Qfloor q = z.
Proof.
  intros H1 H2. apply Qfloor_resp_le in H1. rewrite Qfloor_Z in H1.
  pose proof (Qfloor_le q) as H3. pose proof (Qle_lt_trans _ _ _ H3 H2) as H4.
  rewrite <- Zlt_Qlt in H4. lia.
Qed.

(** [round64_relative_error] on a rational. *)
Lemma round64_near q : (1 # 2 <= q * 1152921504606846976)%Q -> (q < 4503599627370496)%Q ->
  exists v, round64 q = Fin v /\ (q - q * (1 # 9007199254740992) <= v)%Q /\
    (v <= q + q * (1 # 9007199254740992))%Q.
Proof.
  intros Hlo Hhi. destruct q as [n d]. unfold Qle, Qlt in Hlo, Hhi. cbn in Hlo, Hhi.
  destruct (round64_relative_error n d) as (v & Hv & Herr); [lia..|].
  exists v. split; [done|]. change (2 ^ 53)%positive with 9007199254740992%positive in Herr.
  apply Qabs_Qle_condition in Herr as [H1 H2].
  split; Lqa.lra.
Qed.

(** Converting any number of satoshis up to the 21 million bitcoins to bitcoins and
    back, in binary64 arithmetic, gives the same number. *)
Theorem sat_btc_roundtrip (s : Z) :
  0 <= s <= 2100000000000000 -> btc2sat (sat2btc (num s)) = num s.
Proof.
  intros Hs. destruct (decide (s = 0)) as [->|Hne]; [by vm_compute|].
  unfold btc2sat, sat2btc, SATS_PER_BTC, num_div, num_mul, num.
  change (Qeq_bool (inject_Z 100000000) 0) with false.
  set (q := (inject_Z s / inject_Z 100000000)%Q).
  assert (Hq : (q * 100000000 == inject_Z s)%Q) by (unfold q; field; done).
  clearbody q. change (inject_Z 100000000) with 100000000%Q.
  assert (H1 : (1 <= inject_Z s)%Q) by (unfold Qle; simpl; lia).
  assert (H2 : (inject_Z s <= 2100000000000000)%Q) by (unfold Qle; simpl; lia).
  destruct (round64_near q) as (v & -> & V1 & V2); [Lqa.lra..|].
  destruct (round64_near (v * 100000000)) as (w & -> & W1 & W2);
    [Lqa.lra..|].
  unfold Math_round, num. do 2 f_equal. apply Qfloor_unique.
  - Lqa.lra.
  - rewrite inject_Z_plus. change (inject_Z 1) with 1%Q. Lqa.lra.
Qed.

Lemma sat_btc_roundtrip_witness : btc2sat (sat2btc (num 123456789012345)) = num 123456789012345.
Proof. apply sat_btc_roundtrip. lia. Defined.

End Units.
