(* ===== verification/Accounts.v ===== *)
(** * Accounts and limits

    [lib/domain/accounts] ([account-validator.js], [limits-checker.js],
    [new-limits-checker.js], [test-accounts-checker.js]), the validation of the
    input of a payment ([lib/domain/wallets/payment-input-validator.js]), the
    activity and imbalance calculators of [lib/domain/ledger] and
    [getAccountLimits] of [lib/config/yaml.js]. *)

From S2P Require Import Prelude JsNum Errors Money PaymentFlow Validation.
Import AmountCalculator PriceRatio.
#[local] Open Scope string_scope.
#[local] Open Scope Z_scope.

(** The fields of an account the checks read. *)
(** A contact of an account, an entry of its history of statuses, and its roles. *)
Record Contact : Type := mkContact {
  ct_id : string;
  ct_username : string;
  ct_alias : string;
  ct_transactionsCount : number
}.

Record StatusEntry : Type := mkStatusEntry {
  st_status : AccountStatus;
  st_updatedByUserId : option string;
  st_comment : option string
}.

Inductive Role : Type := RoleUser | RoleEditor | RoleDealer | RoleBankowner | RoleFunder.

#[global] Instance Role_eq_dec : EqDecision Role.
Proof. solve_decision. Defined.

(** An account as the repository gives it.  [acc_role] is a property that only the
    creation of an account sets on the object. *)
Record Account : Type := mkAccount {
  acc_id : string;
  acc_status : AccountStatus;
  acc_level : Z;
  acc_username : option string;
  acc_ownerId : string;
  acc_contactEnabled : bool;
  acc_withdrawFee : number;
  acc_depositFeeRatio : number;
  acc_defaultWalletId : option string;
  acc_statusHistory : list StatusEntry;
  acc_title : option string;
  acc_coordinates : option (number * number);
  acc_contacts : list Contact;
  acc_isEditor : bool;
  acc_quizQuestions : list string;
  acc_kratosUserId : option string;
  acc_createdAt : Z;
  acc_role : option Role
}.

(** An account with the fields that payments read, and no others. *)
Definition mkAcc (id : string) (status : AccountStatus) (level : Z) (username : option string)
    (ownerId : string) (contactEnabled : bool) (withdrawFee depositFeeRatio : number) : Account :=
  mkAccount id status level username ownerId contactEnabled withdrawFee depositFeeRatio
    None [mkStatusEntry status None None] None None [] false [] None 0 None.

(** ** [account-validator.js] *)

(** [AccountValidator(account)]: the object closes over the id of an active
    account. *)
Definition AccountValidator (account : Account) : result string :=
  if decide (acc_status account <> StatusActive)
  then Er (new_msg InactiveAccountError (acc_id account))
  else Ok (acc_id account).

(** The message, a JSON object with both ids, is left out. *)
Definition validateWalletForAccount (accountId : string) (wallet : Wallet) : result unit :=
  if negb (String.eqb (w_accountId wallet) accountId) then Er (new InvalidWalletId) else Ok tt.

(** ** [config/index.js] *)

(** The rewards of the onboarding, by the name of the question. *)
Definition onboardingEarn : list (string * Z) :=
  [("walletDownloaded", 1); ("walletActivated", 1); ("whatIsBitcoin", 1); ("sat", 2);
   ("whereBitcoinExist", 5); ("whoControlsBitcoin", 5); ("copyBitcoin", 5);
   ("moneyImportantGovernement", 10); ("moneyIsImportant", 10); ("whyStonesShellGold", 10);
   ("moneyEvolution", 10); ("coincidenceOfWants", 10); ("moneySocialAggrement", 10);
   ("WhatIsFiat", 10); ("whyCareAboutFiatMoney", 10); ("GovernementCanPrintMoney", 10);
   ("FiatLosesValueOverTime", 10); ("OtherIssues", 10); ("LimitedSupply", 20);
   ("Decentralized", 20); ("NoCounterfeitMoney", 20); ("HighlyDivisible", 20);
   ("securePartOne", 20); ("securePartTwo", 20)].

(** ** [test-accounts-checker.js] *)

Record TestAccount : Type := mkTestAccount {
  ta_phone : string;
  ta_code : string;
  ta_role : option Role
}.

Definition isPhoneValid (testAccounts : list TestAccount) (phone : string) : bool :=
  existsb (fun item => String.eqb (ta_phone item) phone) testAccounts.

Definition isPhoneAndCodeValid (testAccounts : list TestAccount) (code phone : string) : bool :=
  match List.filter (fun item => String.eqb (ta_phone item) phone) testAccounts with
  | item :: _ => String.eqb (ta_code item) code
  | [] => false
  end.

(** ** Limits *)

(** [accountLimits] of the configuration: integers by account level. *)
Record LimitsConfig : Type := mkLimitsConfig {
  lc_intraLedger : Z -> Z;
  lc_withdrawal : Z -> Z;
  lc_tradeIntraAccount : Z -> Z
}.

Record AccountLimits : Type := mkLimits {
  intraLedgerLimit : Z;
  withdrawalLimit : Z;
  tradeIntraAccountLimit : Z
}.

Definition getAccountLimits (cfg : LimitsConfig) (level : Z) : AccountLimits :=
  mkLimits (lc_intraLedger cfg level) (lc_withdrawal cfg level)
           (lc_tradeIntraAccount cfg level).

Definition limit_message (limit : Z) : string :=
  "Cannot transfer more than " +:+ pretty limit +:+ " cents in 24 hours".

(** *** [limits-checker.js]: on numbers *)

Definition legacy_check (limitError : ErrClass) (limit : Z) (amt volume : number) : result unit :=
  let remainingLimit := num_sub (num limit) volume in
  if num_ltb remainingLimit amt then Er (new_msg limitError (limit_message limit)) else Ok tt.

Definition legacy_checkIntraledger (l : AccountLimits) (amt volume : number) : result unit :=
  legacy_check IntraledgerLimitsExceededError (intraLedgerLimit l) amt volume.
Definition legacy_checkWithdrawal (l : AccountLimits) (amt volume : number) : result unit :=
  legacy_check WithdrawalLimitsExceededError (withdrawalLimit l) amt volume.

(** *** [new-limits-checker.js]: on amounts *)

Definition checkLimitBase (limitAmount : number) (limitError : ErrClass)
    (limitErrMsg : option string) (r : priceRatio) (amt outgoingBaseAmount : PaymentAmount)
    : result unit :=
  let* volumeInUsdAmount :=
    (if decide (currency outgoingBaseAmount = Btc) then convertFromBtc r outgoingBaseAmount
     else Ok outgoingBaseAmount) in
  let* limit := paymentAmountFromNumber (Some limitAmount) Usd in
  let remainingLimit := amount limit - amount volumeInUsdAmount in
  if remainingLimit <? amount amt then Er (new_msg limitError (default "" limitErrMsg))
  else Ok tt.

Definition checkIntraledger (l : AccountLimits) (r : priceRatio)
    (amt outgoing : PaymentAmount) : result unit :=
  checkLimitBase (num (intraLedgerLimit l)) IntraledgerLimitsExceededError
    (Some (limit_message (intraLedgerLimit l))) r amt outgoing.
Definition checkWithdrawal (l : AccountLimits) (r : priceRatio)
    (amt outgoing : PaymentAmount) : result unit :=
  checkLimitBase (num (withdrawalLimit l)) WithdrawalLimitsExceededError
    (Some (limit_message (withdrawalLimit l))) r amt outgoing.
Definition checkTradeIntraAccount (l : AccountLimits) (r : priceRatio)
    (amt outgoing : PaymentAmount) : result unit :=
  checkLimitBase (num (tradeIntraAccountLimit l)) TradeIntraAccountLimitsExceededError
    (Some (limit_message (tradeIntraAccountLimit l))) r amt outgoing.
Definition checkTwoFA (threshold : number) (r : priceRatio)
    (amt outgoing : PaymentAmount) : result unit :=
  checkLimitBase threshold TwoFALimitsExceededError None r amt outgoing.

(** ** [payment-input-validator.js] *)

Record ValidatedInput : Type := mkValidated {
  vi_amount : number;
  vi_senderWallet : Wallet;
  vi_recipientWallet : option Wallet
}.

(** [getWalletFn] is the argument of [PaymentInputValidator]. *)
Definition validatePaymentInput (getWalletFn : string -> result Wallet)
    (amt : option number) (uncheckedSenderWalletId : string) (senderAccount : Account)
    (uncheckedRecipientWalletId : option string) : result ValidatedInput :=
  let* validAmount := checkedToCurrencyBaseAmount amt in
  if decide (acc_status senderAccount <> StatusActive)
  then Er (new_msg InactiveAccountError (acc_id senderAccount))
  else
    let* senderWalletId := checkedToWalletId uncheckedSenderWalletId in
    let* senderWallet := getWalletFn senderWalletId in
    if negb (String.eqb (w_accountId senderWallet) (acc_id senderAccount))
    then Er (new InvalidWalletId)
    else
      match uncheckedRecipientWalletId with
      | Some (String _ _ as rid) =>
          let* recipientWalletId := checkedToWalletId rid in
          let* recipientWallet := getWalletFn recipientWalletId in
          if String.eqb (w_id recipientWallet) (w_id senderWallet)
          then Er (new SelfPaymentError)
          else Ok (mkValidated validAmount senderWallet (Some recipientWallet))
      | _ => Ok (mkValidated validAmount senderWallet None)
      end.

(** ** [activity-checker.js] *)

Record Volume : Type := mkVolume { outgoingBaseAmount : number; incomingBaseAmount : number }.

(** The loop over the wallets; [getVolumeFn] already has its timestamp. *)
Fixpoint volume_cum (price : number) (getVolumeFn : string -> result Volume)
    (wallets : list Wallet) (outgoingCents incomingCents : number) : result (number * number) :=
  match wallets with
  | [] => Ok (outgoingCents, incomingCents)
  | w :: ws =>
      let* volume := getVolumeFn (w_id w) in
      let to_cents x := if decide (w_currency w = Btc) then fromSatsToCents price x else x in
      volume_cum price getVolumeFn ws
        (num_add outgoingCents (to_cents (outgoingBaseAmount volume)))
        (num_add incomingCents (to_cents (incomingBaseAmount volume)))
  end.

Definition aboveThreshold (price monthlyVolumeThreshold : number)
    (getVolumeFn : string -> result Volume) (wallets : list Wallet) : result bool :=
  let* v := volume_cum price getVolumeFn wallets (num 0) (num 0) in
  Ok (num_ltb monthlyVolumeThreshold (fst v) || num_ltb monthlyVolumeThreshold (snd v)).

(** ** [imbalance-calculator.js] *)

Inductive WithdrawalFeePriceMethod : Type := flat | proportionalOnImbalance.

Definition getNetInboundFlow (volumeFn : string -> result Volume) (walletId : string)
    : result number :=
  let* v := volumeFn walletId in
  Ok (num_sub (incomingBaseAmount v) (outgoingBaseAmount v)).

Definition getSwapOutImbalance (method : WithdrawalFeePriceMethod)
    (volumeLightningFn volumeOnChainFn : string -> result Volume) (walletId : string)
    : result number :=
  match method with
  | flat => Ok (num 0)
  | proportionalOnImbalance =>
      let* lnNetInbound := getNetInboundFlow volumeLightningFn walletId in
      let* onChainNetInbound := getNetInboundFlow volumeOnChainFn walletId in
      Ok (num_sub lnNetInbound onChainNetInbound)
  end.

(** ** Properties of the limits *)

Module LimitsSpec.

(** The cents a volume counts for. *)
Definition volume_cents (r : priceRatio) (outgoing : PaymentAmount) : Z :=
  match currency outgoing with
  | Btc => round_conv (amount outgoing) (amount (ratio_usd r)) (amount (ratio_btc r))
  | Usd => amount outgoing
  end.

Lemma checkLimitBase_spec limit err msg r amt outgoing : amount (ratio_btc r) <> 0 ->
  checkLimitBase (num limit) err msg r amt outgoing =
    if limit <? volume_cents r outgoing + amount amt
    then Er (new_msg err (default "" msg)) else Ok tt.
Proof.
  intros Hr. unfold checkLimitBase, volume_cents, paymentAmountFromNumber, safeBigInt.
  rewrite BigInt_num.
  assert (H : forall v, (limit - v <? amount amt) = (limit <? v + amount amt)).
  { intros v. apply eq_true_iff_eq. rewrite !Z.ltb_lt. lia. }
  destruct (currency outgoing); simpl; [by rewrite H|].
  rewrite convertFromBtc_spec by done. simpl. by rewrite H.
Qed.

(** The three checks of an account and the limit each one enforces. *)
Inductive check_kind : Type := KIntraledger | KWithdrawal | KTradeIntraAccount.

Definition check_of (k : check_kind) :=
  match k with
  | KIntraledger => checkIntraledger
  | KWithdrawal => checkWithdrawal
  | KTradeIntraAccount => checkTradeIntraAccount
  end.
Definition limit_of (k : check_kind) (l : AccountLimits) : Z :=
  match k with
  | KIntraledger => intraLedgerLimit l
  | KWithdrawal => withdrawalLimit l
  | KTradeIntraAccount => tradeIntraAccountLimit l
  end.
Definition limit_error (k : check_kind) : ErrClass :=
  match k with
  | KIntraledger => IntraledgerLimitsExceededError
  | KWithdrawal => WithdrawalLimitsExceededError
  | KTradeIntraAccount => TradeIntraAccountLimitsExceededError
  end.

Lemma check_of_spec k l r amt outgoing : amount (ratio_btc r) <> 0 ->
  check_of k l r amt outgoing =
    if limit_of k l <? volume_cents r outgoing + amount amt
    then Er (new_msg (limit_error k) (limit_message (limit_of k l))) else Ok tt.
Proof. intros Hr. destruct k; simpl; by apply checkLimitBase_spec. Qed.

(** For each of the three account limits, the check passes exactly when the outgoing
    volume of the day, converted to cents, plus the amount is within the limit;
    otherwise it returns the error of that limit, a LimitsExceededError, and it
    never raises. *)
Theorem limit_check_exact (k : check_kind) (l : AccountLimits) (r : priceRatio)
    (amt outgoing : PaymentAmount) (Hr : amount (ratio_btc r) <> 0) :
  (check_of k l r amt outgoing = Ok tt <->
     volume_cents r outgoing + amount amt <= limit_of k l) /\
  (forall e, check_of k l r amt outgoing = Er e ->
     error_class e = limit_error k /\ limit_of k l < volume_cents r outgoing + amount amt /\
     is_a e LimitsExceededError = true) /\
  (forall e, check_of k l r amt outgoing <> Throw e).
Proof.
  rewrite check_of_spec by done. destruct (_ <? _) eqn:E; bool_prop; split_and!; try done.
  - split; [done|lia].
  - intros e [= <-]. split_and!; try done. by destruct k.
Qed.

(** Sequences of payments from a dollar wallet within the window of a limit:
    each one passes the check at the volume so far, of which it then becomes a
    part, with the fee that was debited with it. *)
Inductive spent (k : check_kind) (l : AccountLimits) : Z -> Z -> Prop :=
| spent_none : spent k l 0 0
| spent_pay v fee0 r amt fee :
    spent k l v fee0 -> positive_ratio r -> 0 <= amount amt -> 0 <= fee ->
    check_of k l r amt (mkAmount v Usd) = Ok tt ->
    spent k l (v + amount amt + fee) fee.

(** Over any sequence of payments from a dollar wallet that each pass the check of a
    limit at the volume spent so far, the volume spent never exceeds the limit by
    more than the fee of the last payment, which the check does not count. *)
Theorem limit_never_exceeded (k : check_kind) (l : AccountLimits) (v lastFee : Z)
    (Hl : 0 <= limit_of k l) (Hv : spent k l v lastFee) :
  v <= limit_of k l + lastFee.
Proof.
  destruct Hv as [|v fee0 r amt fee _ [_ Hr] Ha Hf H]; [lia|].
  rewrite check_of_spec in H by lia. destruct (_ <? _) eqn:E; [done|]. bool_prop.
  unfold volume_cents in E. simpl in E. lia.
Qed.

(** On dollar volumes whose difference with the limit is exactly representable, the
    checker on numbers and the checker on amounts give the same answer for the
    intra-ledger and the withdrawal limit. *)
Theorem limit_checkers_agree (l : AccountLimits) (r : priceRatio) (a v : Z)
    (Hr : amount (ratio_btc r) <> 0)
    (Hi : safe (intraLedgerLimit l - v)) (Hw : safe (withdrawalLimit l - v)) :
  legacy_checkIntraledger l (num a) (num v) =
    checkIntraledger l r (mkAmount a Usd) (mkAmount v Usd) /\
  legacy_checkWithdrawal l (num a) (num v) =
    checkWithdrawal l r (mkAmount a Usd) (mkAmount v Usd).
Proof.
  pose proof (check_of_spec KIntraledger l r (mkAmount a Usd) (mkAmount v Usd) Hr) as H1.
  pose proof (check_of_spec KWithdrawal l r (mkAmount a Usd) (mkAmount v Usd) Hr) as H2.
  simpl in H1, H2. rewrite H1, H2. unfold volume_cents. simpl.
  unfold legacy_checkIntraledger, legacy_checkWithdrawal, legacy_check.
  rewrite !num_sub_safe, !num_ltb_num by done.
  assert (H : forall z, (z - v <? a) = (z <? v + a)).
  { intros z. apply eq_true_iff_eq. rewrite !Z.ltb_lt. lia. }
  by rewrite !H.
Qed.

Definition sample_limits : AccountLimits := mkLimits 200000 100000 5000000.

Lemma sample_ratio_btc : amount (ratio_btc sample_ratio) <> 0.
Proof. done. Qed.

Lemma limit_check_exact_witness :
  checkWithdrawal sample_limits sample_ratio (mkAmount 5000 Usd) (mkAmount 4000000 Btc) = Ok tt.
Proof.
  apply (proj1 (limit_check_exact KWithdrawal sample_limits sample_ratio (mkAmount 5000 Usd)
    (mkAmount 4000000 Btc) sample_ratio_btc)).
  by vm_compute.
Defined.

Lemma limit_never_exceeded_witness : 60000 + 35000 + 40 <= 100000 + 40.
Proof.
  apply (limit_never_exceeded KWithdrawal sample_limits (0 + 60000 + 0 + 35000 + 40) 40);
    [done|].
  apply (spent_pay KWithdrawal sample_limits (0 + 60000 + 0) 0 sample_ratio
           (mkAmount 35000 Usd) 40); try done.
  by apply (spent_pay KWithdrawal sample_limits 0 0 sample_ratio (mkAmount 60000 Usd) 0);
    [constructor|..].
Defined.

Lemma limit_checkers_agree_witness :
  legacy_checkIntraledger sample_limits (num 5000) (num 198000) =
    checkIntraledger sample_limits sample_ratio (mkAmount 5000 Usd) (mkAmount 198000 Usd).
Proof.
  apply (limit_checkers_agree sample_limits sample_ratio 5000 198000 sample_ratio_btc);
    by vm_compute.
Defined.

End LimitsSpec.

(** ** Properties of the input validation *)

Module InputSpec.

(** What a stored wallet satisfies: it is found under its own id. *)
Definition repo_ok (getWalletFn : string -> result Wallet) : Prop :=
  forall id w, getWalletFn id = Ok w -> w_id w = id.

Lemma checkedToCurrencyBaseAmount_ok a x : checkedToCurrencyBaseAmount a = Ok x ->
  a = Some x /\ num_ltb (num 0) x = true.
Proof.
  unfold checkedToCurrencyBaseAmount. destruct a as [y|]; [|done].
  destruct (positive_number _) eqn:E; simpl; [|done]. intros [= <-].
  unfold positive_number in E. by bool_prop.
Qed.

(** A payment input that is accepted has a positive amount, the account is active, the
    wallet of the sender is the one asked for and belongs to the account, and the
    wallet of the recipient, present exactly when one was given, is another wallet. *)
Theorem validatePaymentInput_sound (getWalletFn : string -> result Wallet)
    (amt : option number) (sender : string) (account : Account) (recipient : option string)
    (v : ValidatedInput)
    (Hrepo : repo_ok getWalletFn)
    (Hv : validatePaymentInput getWalletFn amt sender account recipient = Ok v) :
  amt = Some (vi_amount v) /\ num_ltb (num 0) (vi_amount v) = true /\
  acc_status account = StatusActive /\
  w_id (vi_senderWallet v) = sender /\ w_accountId (vi_senderWallet v) = acc_id account /\
  w_id <$> vi_recipientWallet v = (if str_truthy recipient then recipient else None) /\
  (forall w, vi_recipientWallet v = Some w -> w_id w <> w_id (vi_senderWallet v)).
Proof.
  unfold validatePaymentInput in Hv. apply rbind_ok in Hv as (a & Ha & Hv).
  apply checkedToCurrencyBaseAmount_ok in Ha as [-> Hpos].
  destruct (decide _) as [|Hact]; [done|]. apply dec_stable in Hact.
  apply rbind_ok in Hv as (sid & Hsid & Hv). apply AccountPath.checkedToWalletId_ok in Hsid as [-> _].
  apply rbind_ok in Hv as (sw & Hsw & Hv). apply Hrepo in Hsw as Hid.
  destruct (String.eqb (w_accountId sw) _) eqn:Hacc; [|done]. apply String.eqb_eq in Hacc.
  simpl in Hv. destruct recipient as [[|c rid]|]; simplify_eq; simpl.
  - split_and!; done.
  - apply rbind_ok in Hv as (r & Hr & Hv). apply AccountPath.checkedToWalletId_ok in Hr as [-> _].
    apply rbind_ok in Hv as (rw & Hrw & Hv). apply Hrepo in Hrw.
    destruct (String.eqb (w_id rw) _) eqn:Hself; [done|]. apply String.eqb_neq in Hself.
    injection Hv as <-. simpl. split_and!; try done; [by rewrite Hrw|]. by intros w [= <-].
  - split_and!; done.
Qed.

Definition sample_repo (id : string) : result Wallet := Ok (mkWalletRec id "acc1" Btc).
Definition sample_account : Account := mkAcc "acc1" StatusActive 1 (Some "alice") "user1" true (num 0) (num 0).

Lemma validatePaymentInput_sound_witness : exists v,
  validatePaymentInput sample_repo (Some (num 1000)) "f4a2c8d0-3b1e-4c6f-9a7b-0123456789ab"
    sample_account (Some "04a2c8d0-3b1e-4c6f-9a7b-0123456789ab") = Ok v /\
  w_accountId (vi_senderWallet v) = "acc1".
Proof.
  destruct (validatePaymentInput sample_repo (Some (num 1000))
    "f4a2c8d0-3b1e-4c6f-9a7b-0123456789ab" sample_account
    (Some "04a2c8d0-3b1e-4c6f-9a7b-0123456789ab")) as [v| |] eqn:Hv;
    [|vm_compute in Hv; discriminate Hv..].
  exists v. split; [reflexivity|].
  apply (validatePaymentInput_sound sample_repo (Some (num 1000))
    "f4a2c8d0-3b1e-4c6f-9a7b-0123456789ab" sample_account
    (Some "04a2c8d0-3b1e-4c6f-9a7b-0123456789ab") v); [|exact Hv].
  by intros id w [= <-].
Defined.

End InputSpec.
