(* ===== verification/TxMetadata.v ===== *)
(** * Metadata of ledger transactions

    [lib/services/ledger/tx-metadata.js], the transaction types and groups of
    [lib/domain/ledger/index.js] and [lib/services/ledger/volume.js].  A metadata
    object is a dictionary; a property set to [undefined] is present with the
    value [MUndefined], and a spread copies it. *)

From Stdlib Require Import Lqa.
From S2P Require Import Prelude JsNum Errors Money Ledger PaymentFlow Validation.
#[local] Open Scope string_scope.
#[local] Open Scope Z_scope.

(** ** Types of transactions *)

Inductive LedgerTransactionType : Type :=
| Invoice | Payment | LnFeeReimbursement | OnchainReceipt | OnchainPayment
| IntraLedger | LnIntraLedger | OnchainIntraLedger
| WalletIdTradeIntraAccount | LnTradeIntraAccount | OnChainTradeIntraAccount
| Fee | ToColdStorage | ToHotWallet | Escrow | RoutingRevenue.

#[global] Instance LedgerTransactionType_eq_dec : EqDecision LedgerTransactionType.
Proof. solve_decision. Defined.

Definition type_string (t : LedgerTransactionType) : string :=
  match t with
  | Invoice => "invoice"
  | Payment => "payment"
  | LnFeeReimbursement => "fee_reimbursement"
  | OnchainReceipt => "onchain_receipt"
  | OnchainPayment => "onchain_payment"
  | IntraLedger => "on_us"
  | LnIntraLedger => "ln_on_us"
  | OnchainIntraLedger => "onchain_on_us"
  | WalletIdTradeIntraAccount => "self_trade"
  | LnTradeIntraAccount => "ln_self_trade"
  | OnChainTradeIntraAccount => "onchain_self_trade"
  | Fee => "fee"
  | ToColdStorage => "to_cold_storage"
  | ToHotWallet => "to_hot_wallet"
  | Escrow => "escrow"
  | RoutingRevenue => "routing_fee"
  end.

Definition all_types : list LedgerTransactionType :=
  [Invoice; Payment; LnFeeReimbursement; OnchainReceipt; OnchainPayment; IntraLedger;
   LnIntraLedger; OnchainIntraLedger; WalletIdTradeIntraAccount; LnTradeIntraAccount;
   OnChainTradeIntraAccount; Fee; ToColdStorage; ToHotWallet; Escrow; RoutingRevenue].

Definition isOnChainTransaction (t : LedgerTransactionType) : bool :=
  match t with
  | OnchainIntraLedger | OnChainTradeIntraAccount | OnchainReceipt | OnchainPayment => true
  | _ => false
  end.

(** [TxnGroups] of [volume.js]. *)
Inductive TxnGroup : Type :=
| allPaymentVolumeSince | externalPaymentVolumeSince | intraledgerTxBaseVolumeSince
| tradeIntraAccountTxBaseVolumeSince | lightningTxBaseVolumeSince | onChainTxBaseVolumeSince
| allTxBaseVolumeSince.

Definition TxnGroups (g : TxnGroup) : list LedgerTransactionType :=
  match g with
  | allPaymentVolumeSince =>
      [IntraLedger; OnchainIntraLedger; LnIntraLedger; Payment; OnchainPayment]
  | externalPaymentVolumeSince => [Payment; OnchainPayment]
  | intraledgerTxBaseVolumeSince => [IntraLedger; OnchainIntraLedger; LnIntraLedger]
  | tradeIntraAccountTxBaseVolumeSince =>
      [WalletIdTradeIntraAccount; OnChainTradeIntraAccount; LnTradeIntraAccount]
  | lightningTxBaseVolumeSince => [Payment; Invoice; LnFeeReimbursement]
  | onChainTxBaseVolumeSince => [OnchainPayment; OnchainReceipt]
  | allTxBaseVolumeSince => all_types
  end.

(** ** Pieces of the objects *)

Definition opt_str (s : option string) : metaval :=
  match s with Some s => MStr s | None => MUndefined end.
Definition opt_bool (b : option bool) : metaval :=
  match b with Some b => MBool b | None => MUndefined end.

(** [toSats] and [toCents] on a bigint. *)
Definition toNum (a : PaymentAmount) : metaval := MNum (Number (amount a)).

Definition hundredth (x : number) : number := num_div x (num 100).

(** The fields copied from the amounts of a flow and the display amounts. *)
Definition flow_amounts (f : PaymentFlow) (feeDisplay amountDisplay : number)
    (displayCurrency : string) : list (string * metaval) :=
  [("satsFee", toNum (pf_btcProtocolFee f));
   ("displayFee", MNum feeDisplay);
   ("displayAmount", MNum amountDisplay);
   ("displayCurrency", MStr displayCurrency);
   ("centsAmount", toNum (pf_usdPaymentAmount f));
   ("satsAmount", toNum (pf_btcPaymentAmount f));
   ("centsFee", toNum (pf_usdProtocolFee f))].

Definition typed (t : LedgerTransactionType) (pending : bool) : list (string * metaval) :=
  [("type", MStr (type_string t)); ("pending", MBool pending)].

(** ** The constructors *)

Definition LnSendLedgerMetadata (paymentHash pubkey : string) (f : PaymentFlow)
    (feeDisplay amountDisplay : number) (displayCurrency : string) (feeKnownInAdvance : bool)
    : metadata :=
  obj (typed Payment true ++
    [("hash", MStr paymentHash);
     ("pubkey", MStr pubkey);
     ("feeKnownInAdvance", MBool feeKnownInAdvance);
     ("fee", toNum (pf_btcProtocolFee f));
     ("feeUsd", MNum (hundredth feeDisplay));
     ("usd", MNum (hundredth (num_add amountDisplay feeDisplay)))]
    ++ flow_amounts f feeDisplay amountDisplay displayCurrency).

Definition OnChainSendLedgerMetadata (onChainTxHash : string) (fee : PaymentAmount)
    (feeDisplay amountDisplay : number) (payeeAddresses : list string) (sendAll : bool)
    : metadata :=
  obj (typed OnchainPayment true ++
    [("hash", MStr onChainTxHash);
     ("payee_addresses", MStrs payeeAddresses);
     ("fee", toNum fee);
     ("feeUsd", MNum feeDisplay);
     ("usd", MNum amountDisplay);
     ("sendAll", MBool sendAll)]).

Definition OnChainReceiveLedgerMetadata (onChainTxHash : string) (fee : PaymentAmount)
    (feeDisplay amountDisplay : number) (payeeAddresses : list string) : metadata :=
  obj (typed OnchainReceipt false ++
    [("hash", MStr onChainTxHash);
     ("fee", toNum fee);
     ("feeUsd", MNum feeDisplay);
     ("usd", MNum amountDisplay);
     ("payee_addresses", MStrs payeeAddresses)]).

(** [Number(x.toFixed(2))]: the nearest multiple of a hundredth, the one of larger
    magnitude when two are equally near, read back as a number; at [10 ^ 21] and
    beyond [toFixed] writes the number itself. *)
Definition fixed2 (q : Q) : Z := Qfloor (q * inject_Z 100 + (1 # 2)).
Definition Number_toFixed2 (x : number) : number :=
  match x with
  | Fin q =>
      if Qle_bool (inject_Z (10 ^ 21)) (Qabs q) then x
      else if Qle_bool 0 q then round64 (fixed2 q # 100)
      else num_neg (round64 (fixed2 (- q) # 100))
  | _ => x
  end.

Definition convertCentsToUsdAsDollars (cents : number) : number :=
  Number_toFixed2 (num_div cents (num 100)).

Definition LnReceiveLedgerMetadata (paymentHash : string) (fee : PaymentAmount)
    (feeDisplay amountDisplay : number) : metadata :=
  obj (typed Invoice false ++
    [("hash", MStr paymentHash);
     ("fee", toNum fee);
     ("feeUsd", MNum (convertCentsToUsdAsDollars feeDisplay));
     ("usd", MNum (convertCentsToUsdAsDollars amountDisplay))]).

Definition LnFeeReimbursementReceiveLedgerMetadata (f : PaymentFlow)
    (paymentHash journalId : string) (feeDisplay amountDisplay : number)
    (displayCurrency : string) : metadata :=
  obj ([("type", MStr (type_string LnFeeReimbursement));
        ("hash", MStr paymentHash);
        ("related_journal", MStr journalId);
        ("pending", MBool false);
        ("usd", MNum (hundredth (num_add amountDisplay feeDisplay)))]
       ++ flow_amounts f feeDisplay amountDisplay displayCurrency).

(** An object for the entry and one for the side of the debit only. *)
Definition metadata_pair : Type := metadata * metadata.

Definition OnChainIntraledgerLedgerMetadata (amountDisplay : number)
    (payeeAddresses : list string) (sendAll : bool)
    (memoOfPayer senderUsername recipientUsername : option string) : metadata_pair :=
  (obj (typed OnchainIntraLedger false ++
     [("usd", MNum amountDisplay);
      ("memoPayer", MUndefined);
      ("username", opt_str senderUsername);
      ("payee_addresses", MStrs payeeAddresses);
      ("sendAll", MBool sendAll)]),
   obj [("memoPayer", opt_str memoOfPayer); ("username", opt_str recipientUsername)]).

Definition WalletIdIntraledgerLedgerMetadata (f : PaymentFlow)
    (feeDisplay amountDisplay : number) (displayCurrency : string)
    (memoOfPayer senderUsername recipientUsername : option string) : metadata_pair :=
  (obj (typed IntraLedger false ++
     [("memoPayer", opt_str memoOfPayer);
      ("username", opt_str senderUsername);
      ("usd", MNum (hundredth amountDisplay))]
     ++ flow_amounts f feeDisplay amountDisplay displayCurrency),
   obj [("username", opt_str recipientUsername)]).

Definition LnIntraledgerLedgerMetadata (paymentHash pubkey : string) (f : PaymentFlow)
    (feeDisplay amountDisplay : number) (displayCurrency : string)
    (memoOfPayer senderUsername recipientUsername : option string) : metadata_pair :=
  (obj (typed LnIntraLedger false ++
     [("memoPayer", MUndefined);
      ("username", opt_str senderUsername);
      ("hash", MStr paymentHash);
      ("pubkey", MStr pubkey);
      ("usd", MNum (hundredth amountDisplay))]
     ++ flow_amounts f feeDisplay amountDisplay displayCurrency),
   obj [("memoPayer", opt_str memoOfPayer); ("username", opt_str recipientUsername)]).

Definition OnChainTradeIntraAccountLedgerMetadata (amountDisplay : number)
    (payeeAddresses : list string) (sendAll : bool) (memoOfPayer : option string)
    : metadata_pair :=
  (obj (typed OnChainTradeIntraAccount false ++
     [("usd", MNum amountDisplay);
      ("memoPayer", MUndefined);
      ("payee_addresses", MStrs payeeAddresses);
      ("sendAll", MBool sendAll)]),
   obj [("memoPayer", opt_str memoOfPayer)]).

Definition WalletIdTradeIntraAccountLedgerMetadata (f : PaymentFlow)
    (feeDisplay amountDisplay : number) (displayCurrency : string)
    (memoOfPayer : option string) : metadata :=
  obj (typed WalletIdTradeIntraAccount false ++
    [("memoPayer", opt_str memoOfPayer); ("usd", MNum (hundredth amountDisplay))]
    ++ flow_amounts f feeDisplay amountDisplay displayCurrency).

Definition LnTradeIntraAccountLedgerMetadata (paymentHash pubkey : string) (f : PaymentFlow)
    (feeDisplay amountDisplay : number) (displayCurrency : string)
    (memoOfPayer : option string) : metadata_pair :=
  (obj (typed LnTradeIntraAccount false ++
     [("memoPayer", MUndefined);
      ("hash", MStr paymentHash);
      ("pubkey", MStr pubkey);
      ("usd", MNum (hundredth amountDisplay))]
     ++ flow_amounts f feeDisplay amountDisplay displayCurrency),
   obj [("memoPayer", opt_str memoOfPayer)]).

Definition LnChannelOpenOrClosingFee (txId : string) : metadata :=
  obj (typed Fee false ++ [("txid", MStr txId)]).

Definition EscrowMetadata : metadata := obj (typed Escrow false).

(** [collectedOn] is the text of [toDateString()]. *)
Definition LnRoutingRevenue (collectedOn : string) : metadata :=
  obj (typed RoutingRevenue false ++ [("feesCollectedOn", MStr collectedOn)]).

(** ** Properties *)

Module MetadataSpec.

(** Every type of outgoing transaction is counted by exactly one of the three volumes
    that limits are checked against, no other type is counted by any of them, and
    the volume of all payments is that of the external and intra-ledger ones. *)
Theorem limit_groups_partition (t : LedgerTransactionType) :
  let outgoing := [Payment; OnchainPayment; IntraLedger; OnchainIntraLedger; LnIntraLedger;
                   WalletIdTradeIntraAccount; OnChainTradeIntraAccount; LnTradeIntraAccount] in
  let groups := [externalPaymentVolumeSince; intraledgerTxBaseVolumeSince;
                 tradeIntraAccountTxBaseVolumeSince] in
  length (List.filter (fun g => bool_decide (t ∈ TxnGroups g)) groups) =
    (if bool_decide (t ∈ outgoing) then 1 else 0)%nat /\
  t ∈ TxnGroups allTxBaseVolumeSince /\
  (t ∈ TxnGroups allPaymentVolumeSince <->
   t ∈ TxnGroups externalPaymentVolumeSince \/ t ∈ TxnGroups intraledgerTxBaseVolumeSince).
Proof.
  cbv zeta. split; [by destruct t|]. split.
  - apply (proj1 (bool_decide_eq_true _)). by destruct t.
  - unfold TxnGroups. rewrite !list_elem_of_In. simpl. tauto.
Qed.

(** Who sees a memo: the side of the debit carries the additional metadata, the
    side of the credit does not. *)
Definition debit_view (p : metadata_pair) : metadata := spread (fst p) (snd p).
Definition credit_view (p : metadata_pair) : metadata := fst p.

(** In transfers between accounts each side sees the username of the other one, the
    sender sees his memo, and the recipient sees it only in transfers by wallet id,
    never in those by invoice or on chain. *)
Theorem memo_and_usernames (hash pubkey : string) (f : PaymentFlow) (fd ad : number)
    (dc : string) (addresses : list string) (sendAll : bool)
    (memo sender recipient : option string) :
  let ln := LnIntraledgerLedgerMetadata hash pubkey f fd ad dc memo sender recipient in
  let chain := OnChainIntraledgerLedgerMetadata ad addresses sendAll memo sender recipient in
  let wallet := WalletIdIntraledgerLedgerMetadata f fd ad dc memo sender recipient in
  Forall (fun p => debit_view p !! "username" = Some (opt_str recipient) /\
                   credit_view p !! "username" = Some (opt_str sender) /\
                   debit_view p !! "memoPayer" = Some (opt_str memo)) [ln; chain; wallet] /\
  credit_view ln !! "memoPayer" = Some MUndefined /\
  credit_view chain !! "memoPayer" = Some MUndefined /\
  credit_view wallet !! "memoPayer" = Some (opt_str memo).
Proof. by repeat constructor. Qed.

Lemma near_cents c v : 0 <= c <= 2 ^ 51 ->
  ((c # 100) - (c # 100) * (1 # 9007199254740992) <= v)%Q ->
  (v <= (c # 100) + (c # 100) * (1 # 9007199254740992))%Q ->
  Qfloor (v * inject_Z 100 + (1 # 2)) = c.
Proof.
  intros Hc H1 H2. change (inject_Z 100) with 100%Q.
  assert (E : ((c # 100) * 100 == inject_Z c)%Q) by (unfold Qeq; simpl; lia).
  assert (B : (0 <= inject_Z c /\ inject_Z c <= 2251799813685248)%Q) by (unfold Qle; simpl; lia).
  set (k := (c # 100)%Q) in *. clearbody k. apply Units.Qfloor_unique.
  - Lqa.lra.
  - rewrite inject_Z_plus. change (inject_Z 1) with 1%Q. Lqa.lra.
Qed.

(** For every whole number of cents up to 2^51, the dollars recorded for a receipt by
    rounding to two decimals are the same number as those recorded for a send by
    dividing by 100. *)
Theorem dollars_of_cents (c : Z) :
  0 <= c <= 2 ^ 51 -> convertCentsToUsdAsDollars (num c) = hundredth (num c).
Proof.
  intros Hc. unfold convertCentsToUsdAsDollars, hundredth, num_div, num.
  change (Qeq_bool (inject_Z 100) 0) with false.
  replace (inject_Z c / inject_Z 100)%Q with (c # 100)%Q
    by (unfold Qdiv, Qinv, Qmult; simpl; f_equal; lia).
  destruct (decide (c = 0)) as [->|Hne]; [by vm_compute|].
  assert (Hk : ((c # 100) <= 22517998136852.48)%Q) by (unfold Qle; simpl; lia).
  assert (Hk1 : (1 # 100 <= (c # 100))%Q) by (unfold Qle; simpl; lia).
  destruct (Units.round64_near (c # 100)) as (v & Hv & H1 & H2); [Lqa.lra..|].
  rewrite Hv. unfold Number_toFixed2.
  destruct (Qle_bool (inject_Z (10 ^ 21)) _) eqn:E; [done|].
  rewrite (proj2 (Qle_bool_iff 0 v)) by Lqa.lra.
  unfold fixed2. rewrite (near_cents c v) by done. by rewrite Hv.
Qed.

Lemma dollars_of_cents_witness :
  convertCentsToUsdAsDollars (num 123457) = hundredth (num 123457).
Proof. apply dollars_of_cents. lia. Defined.

End MetadataSpec.
