(* ===== verification/Facade.v ===== *)
(** * The ledger facade

    [lib/services/ledger/facade.js], [helpers.js] and [caching.js]: recording,
    settling and reverting payments in the book of the [medici] package.  The
    book and its collection of transactions are not part of the repository:
    [MediciBook] has the operations the facade calls, [MediciBookLaws] what the
    package documents of them.  A call that rejects leaves the book as it was. *)

From S2P Require Import Prelude JsNum Errors Money Ledger.
Import AmountCalculator.
#[local] Open Scope string_scope.
#[local] Open Scope Z_scope.
#[local] Open Scope list_scope.

(** ** [caching.js] *)

Module Caching.

(** The module variables: the cached ids and the resolvers, each represented by
    what its promise gives. *)
Record cache : Type := mkCache {
  cacheBankOwnerWalletId : option string;
  cacheDealerBtcWalletId : option string;
  cacheDealerUsdWalletId : option string;
  cacheFunderWalletId : option string;
  bankOwnerResolver : result string;
  dealerBtcResolver : result string;
  dealerUsdResolver : result string;
  funderResolver : result string
}.

(** The resolvers set at start reject with a text. *)
Definition throwError (wallet : string) : result string :=
  Throw (new_msg JsError ("Invalid " +:+ wallet +:+ "WalletPath")).

Definition initial_cache : cache :=
  mkCache None None None None (throwError "bankOwner") (throwError "dealerBtc")
    (throwError "dealerUsd") (throwError "funder").

Definition setBankOwnerWalletResolver (r : result string) (c : cache) : cache :=
  mkCache (cacheBankOwnerWalletId c) (cacheDealerBtcWalletId c) (cacheDealerUsdWalletId c)
    (cacheFunderWalletId c) r (dealerBtcResolver c) (dealerUsdResolver c) (funderResolver c).
Definition setDealerBtcWalletResolver (r : result string) (c : cache) : cache :=
  mkCache (cacheBankOwnerWalletId c) (cacheDealerBtcWalletId c) (cacheDealerUsdWalletId c)
    (cacheFunderWalletId c) (bankOwnerResolver c) r (dealerUsdResolver c) (funderResolver c).
Definition setDealerUsdWalletResolver (r : result string) (c : cache) : cache :=
  mkCache (cacheBankOwnerWalletId c) (cacheDealerBtcWalletId c) (cacheDealerUsdWalletId c)
    (cacheFunderWalletId c) (bankOwnerResolver c) (dealerBtcResolver c) r (funderResolver c).
Definition setFunderWalletResolver (r : result string) (c : cache) : cache :=
  mkCache (cacheBankOwnerWalletId c) (cacheDealerBtcWalletId c) (cacheDealerUsdWalletId c)
    (cacheFunderWalletId c) (bankOwnerResolver c) (dealerBtcResolver c) (dealerUsdResolver c) r.

(** The cached id when there is one, otherwise the id of the resolver, with the
    new value of the variable. *)
Definition cached (c : option string) (resolver : result string)
    : result string * option string :=
  match c with
  | Some (String _ _ as id) => (Ok id, c)
  | _ => match resolver with
         | Ok id => (Ok id, Some id)
         | r => (r, c)
         end
  end.

Definition getBankOwnerWalletId (c : cache) : result string * cache :=
  let '(r, v) := cached (cacheBankOwnerWalletId c) (bankOwnerResolver c) in
  (r, mkCache v (cacheDealerBtcWalletId c) (cacheDealerUsdWalletId c) (cacheFunderWalletId c)
        (bankOwnerResolver c) (dealerBtcResolver c) (dealerUsdResolver c) (funderResolver c)).
Definition getDealerBtcWalletId (c : cache) : result string * cache :=
  let '(r, v) := cached (cacheDealerBtcWalletId c) (dealerBtcResolver c) in
  (r, mkCache (cacheBankOwnerWalletId c) v (cacheDealerUsdWalletId c) (cacheFunderWalletId c)
        (bankOwnerResolver c) (dealerBtcResolver c) (dealerUsdResolver c) (funderResolver c)).
Definition getDealerUsdWalletId (c : cache) : result string * cache :=
  let '(r, v) := cached (cacheDealerUsdWalletId c) (dealerUsdResolver c) in
  (r, mkCache (cacheBankOwnerWalletId c) (cacheDealerBtcWalletId c) v (cacheFunderWalletId c)
        (bankOwnerResolver c) (dealerBtcResolver c) (dealerUsdResolver c) (funderResolver c)).
Definition getFunderWalletId (c : cache) : result string * cache :=
  let '(r, v) := cached (cacheFunderWalletId c) (funderResolver c) in
  (r, mkCache (cacheBankOwnerWalletId c) (cacheDealerBtcWalletId c) (cacheDealerUsdWalletId c) v
        (bankOwnerResolver c) (dealerBtcResolver c) (dealerUsdResolver c) (funderResolver c)).

(** Sequencing of functions of the cache: an error object is a value here, only
    a rejection stops. *)
Definition cbind {A B} (m : cache -> result A * cache) (k : A -> cache -> result B * cache)
    (c : cache) : result B * cache :=
  match m c with
  | (Ok a, c') => k a c'
  | (Er e, c') => (Er e, c')
  | (Throw e, c') => (Throw e, c')
  end.

Definition getDealerWalletIds : cache -> result (string * string) * cache :=
  cbind getDealerBtcWalletId (fun dealerBtc =>
  cbind getDealerUsdWalletId (fun dealerUsd c => (Ok (dealerBtc, dealerUsd), c))).

(** The dealer's ids, the bank owner's and the funder's. *)
Definition getNonEndUserWalletIds
    : cache -> result (string * string * string * string) * cache :=
  cbind getDealerWalletIds (fun d =>
  cbind getBankOwnerWalletId (fun bankOwner =>
  cbind getFunderWalletId (fun funder c => (Ok (fst d, snd d, bankOwner, funder), c)))).

(** [staticAccountIds] of [facade.js]. *)
Definition get_staticAccountIds : cache -> result staticAccountIds * cache :=
  cbind getBankOwnerWalletId (fun bankOwner =>
  cbind getDealerBtcWalletId (fun dealerBtc =>
  cbind getDealerUsdWalletId (fun dealerUsd c =>
    (Ok (mkStatic (toLedgerAccountId bankOwner) (toLedgerAccountId dealerBtc)
           (toLedgerAccountId dealerUsd)), c)))).

End Caching.
Import Caching.

(** ** The book *)

(** A stored transaction: its id, its journal and the line. *)
Record storedTx : Type := mkStored {
  st_id : string;
  st_journal : string;
  st_tx : ledgerTx
}.

(** What [commit] and [void] resolve to. *)
Record savedJournal : Type := mkSaved {
  saved_id : string;
  saved_voided : bool;
  saved_transactions : list string
}.

(** Credit minus debit of the lines of an account, whatever their currency. *)
Definition raw_net (acc : string) (l : list ledgerTx) : Z :=
  sumZ (fun t => if String.eqb (tx_account t) acc
                 then num_val (tx_credit t) - num_val (tx_debit t) else 0) l.

Class MediciBook (S E : Type) : Type := {
  book_txs : S -> list storedTx;
  (** [MainBook.entry(description)] *)
  book_entry : string -> E;
  (** [entry.commit()]; [None] is a rejection *)
  book_commit : S -> E -> option (savedJournal * S);
  (** [MainBook.void(journalId, reason)] *)
  book_void : S -> string -> string -> option (savedJournal * S);
  (** [Transaction.updateMany({field: v}, {field': v'})] and its [modifiedCount] *)
  book_updateMany : S -> string * metaval -> string * metaval -> option (nat * S);
  (** [MainBook.balance({account})] *)
  book_balance : S -> string -> option number
}.

(** The line that takes a line back. *)
Definition reversed (t : ledgerTx) : ledgerTx :=
  mkTx (tx_account t) (tx_credit t) (tx_debit t) (tx_meta t).

Definition has_field (kv : string * metaval) (t : storedTx) : Prop :=
  tx_meta (st_tx t) !! fst kv = Some (snd kv).

Definition set_field (kv : string * metaval) (t : storedTx) : storedTx :=
  mkStored (st_id t) (st_journal t)
    (mkTx (tx_account (st_tx t)) (tx_debit (st_tx t)) (tx_credit (st_tx t))
       (<[fst kv := snd kv]> (tx_meta (st_tx t)))).

Class MediciBookLaws (S E : Type) `{MediciEntry E, MediciBook S E} : Prop := {
  entry_empty d : entry_transactions (book_entry (S := S) (E := E) d) = [];
  (** a commit appends the lines of the entry under a new journal *)
  commit_appends (s : S) (e : E) j s' : book_commit s e = Some (j, s') ->
    exists new, book_txs (E := E) s' = book_txs (E := E) s ++ new /\ st_tx <$> new = entry_transactions e /\
      st_id <$> new = saved_transactions j /\
      Forall (fun t => st_journal t = saved_id j) new /\
      Forall (fun t => st_journal t <> saved_id j) (book_txs (E := E) s);
  (** voiding a journal appends the reversed lines of it under a new journal *)
  void_appends (s : S) jid reason j s' : book_void (E := E) s jid reason = Some (j, s') ->
    exists new, book_txs (E := E) s' = book_txs (E := E) s ++ new /\
      st_tx <$> new = (fun t => reversed (st_tx t)) <$>
        List.filter (fun t => String.eqb (st_journal t) jid) (book_txs (E := E) s) /\
      st_id <$> new = saved_transactions j /\
      Forall (fun t => st_journal t = saved_id j) new /\
      Forall (fun t => st_journal t <> saved_id j) (book_txs (E := E) s);
  (** an update sets the field of the matching documents *)
  updateMany_maps (s : S) kv kv' n s' : book_updateMany (E := E) s kv kv' = Some (n, s') ->
    Forall2 (fun t t' => (has_field kv t /\ t' = set_field kv' t) \/
                         (~ has_field kv t /\ t' = t)) (book_txs (E := E) s) (book_txs (E := E) s');
  (** the count is of the documents that changed *)
  updateMany_count (s : S) kv kv' n s' : book_updateMany (E := E) s kv kv' = Some (n, s') ->
    (n = O <-> Forall (fun t => has_field kv t -> has_field kv' t) (book_txs (E := E) s))
}.

(** ** The operations *)

(** A journal as the facade returns it. *)
Record LedgerJournal : Type := mkJournal {
  journalId : string;
  voided : bool;
  transactionIds : list string
}.

(** A document handed to the repository of transaction metadata. *)
Record TxMetadataRequest : Type := mkRequest {
  rq_id : string;
  rq_hash : option string;
  rq_revealedPreImage : option string
}.

(** Total amounts in both currencies. *)
Record BothAmounts : Type := mkBoth { both_usd : PaymentAmount; both_btc : PaymentAmount }.

Definition translateToLedgerJournal (saved : savedJournal) : LedgerJournal :=
  mkJournal (saved_id saved) (saved_voided saved) (saved_transactions saved).

(** [metadata.hash]. *)
Definition hash_of (m : metadata) : option string :=
  match m !! "hash" with Some (MStr h) => Some h | _ => None end.

Section Facade.
Context {S E : Type} `{MediciEntry E} `{MediciBook S E}.

(** The book, the module variables of the cache, and the documents handed to
    the metadata repository, which are not awaited. *)
Record LedgerState : Type := mkState {
  ls_book : S;
  ls_cache : cache;
  ls_requests : list TxMetadataRequest
}.

Definition facade (A : Type) : Type := LedgerState -> result A * LedgerState.

(** [await staticAccountIds()], then the rest. *)
Definition with_static_ids {A} (k : staticAccountIds -> facade A) : facade A := fun st =>
  match get_staticAccountIds (ls_cache st) with
  | (Ok ids, c) => k ids (mkState (ls_book st) c (ls_requests st))
  | (Er e, c) => (Er e, mkState (ls_book st) c (ls_requests st))
  | (Throw e, c) => (Throw e, mkState (ls_book st) c (ls_requests st))
  end.

Definition requests_of (ids : list string) (hash preImage : option string)
    : list TxMetadataRequest :=
  (fun id => mkRequest id hash preImage) <$> ids.

Definition persistAndReturnEntry (entry : E) (hash revealedPreImage : option string)
    : facade LedgerJournal := fun st =>
  match book_commit (ls_book st) entry with
  | Some (savedEntry, book') =>
      let journalEntry := translateToLedgerJournal savedEntry in
      (Ok journalEntry,
       mkState book' (ls_cache st)
         (ls_requests st ++ requests_of (transactionIds journalEntry) hash revealedPreImage))
  | None => (Er (new Facade_UnknownLedgerError), st)
  end.

(** The bank fee of an optional argument. *)
Definition actual_fee (bankFee : option BothAmounts) : BankFee :=
  match bankFee with
  | Some f => mkBankFee (both_usd f) (both_btc f)
  | None => mkBankFee ZERO_CENTS ZERO_SATS
  end.

Definition new_builder (ids : staticAccountIds) (description : string) (m : metadata)
    : EntryBuilder :=
  mkEntryBuilder ids (book_entry (S := S) (E := E) description) m.

Definition recordSend (description : string) (senderWalletDescriptor : WalletDescriptor)
    (amountToDebitSender : BothAmounts) (bankFee : option BothAmounts) (m : metadata)
    : facade LedgerJournal :=
  with_static_ids (fun ids =>
    let entry :=
      creditLnd
        (debitAccount
           (withBankFee
              (withTotalAmount (new_builder ids description m)
                 (mkWithFees (both_usd amountToDebitSender) (both_btc amountToDebitSender)))
              (actual_fee bankFee))
           (toLedgerAccountDescriptor senderWalletDescriptor) None) in
    persistAndReturnEntry entry (hash_of m) None).

Definition recordReceive (description : string) (recipientWalletDescriptor : WalletDescriptor)
    (amountToCreditReceiver : BothAmounts) (bankFee : option BothAmounts) (m : metadata)
    (txHash revealedPreImage : option string) : facade LedgerJournal :=
  with_static_ids (fun ids =>
    let fee := actual_fee bankFee in
    let amountWithFees :=
      mkWithFees (add (both_usd amountToCreditReceiver) (usdBankFee fee))
                 (add (both_btc amountToCreditReceiver) (btcBankFee fee)) in
    let entry :=
      creditAccount
        (debitLnd
           (withBankFee (withTotalAmount (new_builder ids description m) amountWithFees) fee))
        (toLedgerAccountDescriptor recipientWalletDescriptor) in
    persistAndReturnEntry entry txHash revealedPreImage).

Definition recordIntraledger (description : string)
    (senderWalletDescriptor recipientWalletDescriptor : WalletDescriptor)
    (amt : BothAmounts) (m : metadata) (additionalDebitMetadata : option metadata)
    : facade LedgerJournal :=
  with_static_ids (fun ids =>
    let entry :=
      creditAccount
        (debitAccount
           (withBankFee
              (withTotalAmount (new_builder ids description m)
                 (mkWithFees (both_usd amt) (both_btc amt)))
              ZERO_BANK_FEE)
           (toLedgerAccountDescriptor senderWalletDescriptor) additionalDebitMetadata)
        (toLedgerAccountDescriptor recipientWalletDescriptor) in
    persistAndReturnEntry entry (hash_of m) None).

Definition getLedgerAccountBalanceForWalletId (w : WalletDescriptor) : facade PaymentAmount :=
  fun st =>
  match book_balance (E := E) (ls_book st) (toLedgerAccountId (wd_id w)) with
  | Some balance => (paymentAmountFromNumber (Some balance) (wd_currency w), st)
  | None => (Er (new Facade_UnknownLedgerError), st)
  end.

Definition settlePendingLnSend (paymentHash : string) : facade unit := fun st =>
  match book_updateMany (E := E) (ls_book st) ("hash", MStr paymentHash)
          ("pending", MBool false) with
  | Some (modifiedCount, book') =>
      let st' := mkState book' (ls_cache st) (ls_requests st) in
      if negb (Nat.ltb 0 modifiedCount) then (Er (new Facade_NoTransactionToSettleError), st')
      else (Ok tt, st')
  | None => (Er (new Facade_UnknownLedgerError), st)
  end.

Definition recordLnSendRevert (jid paymentHash : string) : facade unit := fun st =>
  match book_void (E := E) (ls_book st) jid "Payment canceled" with
  | Some (savedEntry, book') =>
      let journalEntry := translateToLedgerJournal savedEntry in
      (Ok tt, mkState book' (ls_cache st)
                (ls_requests st ++
                 requests_of (transactionIds journalEntry) (Some paymentHash) None))
  | None => (Er (new Facade_UnknownLedgerError), st)
  end.

(** ** Lines of the book *)

Definition lines (s : S) : list ledgerTx := st_tx <$> book_txs (E := E) s.

End Facade.

Arguments LedgerState : clear implicits.
Arguments facade : clear implicits.

(** ** Properties *)

Module FacadeSpec.
Import EntryBuilderSpec.
Section Spec.
Context {S E : Type} `{MediciEntry E} `{MediciBook S E}.
Context {elaws : MediciEntryLaws E} {blaws : MediciBookLaws S E}.

Definition balance_of (st : LedgerState S) (x : string) (c : WalletCurrency) : Z :=
  net_account x c (lines (ls_book st)).

Definition book_balanced (st : LedgerState S) : Prop := balanced (lines (ls_book st)).

Lemma net_app c l1 l2 : net c (l1 ++ l2) = net c l1 + net c l2.
Proof. apply sumZ_app. Qed.
Lemma net_account_app x c l1 l2 :
  net_account x c (l1 ++ l2) = net_account x c l1 + net_account x c l2.
Proof. apply sumZ_app. Qed.

Lemma commit_lines s e j s' : book_commit s e = Some (j, s') ->
  lines s' = lines s ++ entry_transactions e.
Proof using blaws.
  intros Hc. destruct (commit_appends _ _ _ _ Hc) as (new & Hs & Hn & _).
  unfold lines. by rewrite Hs, fmap_app, Hn.
Qed.

(** What a successful call of [persistAndReturnEntry] did. *)
Lemma persist_ok entry hash pre st j st' :
  persistAndReturnEntry entry hash pre st = (Ok j, st') ->
  exists saved, book_commit (ls_book st) entry = Some (saved, ls_book st') /\
                journalId j = saved_id saved.
Proof.
  unfold persistAndReturnEntry. destruct (book_commit _ _) as [[saved b]|] eqn:Hc; [|done].
  intros [= <- <-]. by exists saved.
Qed.

Lemma with_static_ids_ok {A} (k : staticAccountIds -> facade S A) st a st' :
  with_static_ids k st = (Ok a, st') ->
  exists ids st1, get_staticAccountIds (ls_cache st) = (Ok ids, ls_cache st1) /\
                  ls_book st1 = ls_book st /\ k ids st1 = (Ok a, st').
Proof.
  unfold with_static_ids. destruct (get_staticAccountIds _) as [[ids| |] c]; try done.
  intros Hk. by exists ids, (mkState (ls_book st) c (ls_requests st)).
Qed.

(** A send that succeeds commits the entry the builder makes of it. *)
Lemma recordSend_ok d w total fee m st j st' :
  recordSend d w total fee m st = (Ok j, st') ->
  exists ids saved,
    book_commit (ls_book st)
      (build ids (book_entry (S := S) (E := E) d) m
         (mkWithFees (both_usd total) (both_btc total)) (actual_fee fee)
         (toLedgerAccountDescriptor w) None lndLedgerAccountDescriptor)
      = Some (saved, ls_book st') /\ journalId j = saved_id saved.
Proof.
  intros Hr. apply with_static_ids_ok in Hr as (ids & st1 & _ & Hb & Hp).
  apply persist_ok in Hp as (saved & Hc & Hj). rewrite Hb in Hc. by exists ids, saved.
Qed.

Definition send_total (total : BothAmounts) : amountWithFees :=
  mkWithFees (both_usd total) (both_btc total).

Lemma filter_eq_all jid (l : list storedTx) : Forall (fun t => st_journal t = jid) l ->
  List.filter (fun t => String.eqb (st_journal t) jid) l = l.
Proof.
  induction 1 as [|t l Ht Hl IH]; [done|]. simpl. by rewrite Ht, String.eqb_refl, IH.
Qed.

Lemma filter_eq_none jid i (l : list storedTx) : Forall (fun t => st_journal t = jid) l ->
  jid <> i -> List.filter (fun t => String.eqb (st_journal t) i) l = [].
Proof.
  intros Hl Hne. induction Hl as [|t l Ht Hl IH]; [done|]. simpl.
  by rewrite Ht, (proj2 (String.eqb_neq _ _) Hne).
Qed.

Lemma net_account_reversed x c l : net_account x c (reversed <$> l) = - net_account x c l.
Proof.
  induction l as [|t l IH]; [done|]. rewrite fmap_cons. unfold net_account in *.
  rewrite !sumZ_cons, IH. unfold tx_net_account, tx_net, tx_in_currency, reversed. simpl.
  repeat case_match; lia.
Qed.

Lemma net_reversed c l : net c (reversed <$> l) = - net c l.
Proof.
  induction l as [|t l IH]; [done|]. rewrite fmap_cons. unfold net in *.
  rewrite !sumZ_cons, IH. unfold tx_net, tx_in_currency, reversed. simpl.
  repeat case_match; lia.
Qed.

(** After a commit the lines under its journal are the lines of the entry. *)
Lemma journal_lines s e j s' : book_commit s e = Some (j, s') ->
  st_tx <$> List.filter (fun t => String.eqb (st_journal t) (saved_id j)) (book_txs (E := E) s') =
    entry_transactions e.
Proof using blaws.
  intros Hc. destruct (commit_appends _ _ _ _ Hc) as (new & Hs & Hn & _ & Hnew & Hold).
  rewrite Hs, List.filter_app, fmap_app, <- Hn.
  assert (List.filter (fun t => String.eqb (st_journal t) (saved_id j)) (book_txs (E := E) s) = [])
    as ->.
  { clear -Hold. induction Hold as [|t l Ht Hl IH]; [done|]. simpl.
    by rewrite (proj2 (String.eqb_neq _ _) Ht). }
  by rewrite filter_eq_all.
Qed.

Lemma revert_ok jid h st st' : recordLnSendRevert (E := E) jid h st = (Ok tt, st') ->
  lines (ls_book st') = lines (ls_book st) ++
    (reversed <$> (st_tx <$> List.filter (fun t => String.eqb (st_journal t) jid)
                               (book_txs (E := E) (ls_book st)))).
Proof using blaws.
  unfold recordLnSendRevert. destruct (book_void _ _ _) as [[saved b]|] eqn:Hv; [|done].
  intros [= <-]. simpl. destruct (void_appends _ _ _ _ _ Hv) as (new & Hs & Hn & _).
  unfold lines. rewrite Hs, fmap_app, Hn. f_equal. by rewrite <- list_fmap_compose.
Qed.

(** The lines under a journal. *)
Definition journal (s : S) (jid : string) : list ledgerTx :=
  st_tx <$> List.filter (fun t => String.eqb (st_journal t) jid) (book_txs (E := E) s).

(** An update of a field other than the currency leaves every sum as it is. *)
Lemma update_nets (p : storedTx -> bool) kv k v l l' : k <> "currency" ->
  (forall t, p (set_field (k, v) t) = p t) ->
  Forall2 (fun t t' => (has_field kv t /\ t' = set_field (k, v) t) \/
                       (~ has_field kv t /\ t' = t)) l l' ->
  forall x c,
    net_account x c (st_tx <$> List.filter p l') = net_account x c (st_tx <$> List.filter p l) /\
    net c (st_tx <$> List.filter p l') = net c (st_tx <$> List.filter p l).
Proof.
  intros Hk Hp Hm x c.
  induction Hm as [|t t' l l' [[_ ->]|[_ ->]] _ [IH1 IH2]]; [done| |]; simpl; rewrite ?Hp;
    (destruct (p t); [|done]); rewrite !fmap_cons; unfold net_account, net in *;
    rewrite !sumZ_cons, IH1, IH2; [|done].
  unfold tx_net_account, tx_net, tx_in_currency, set_field. simpl.
  by rewrite lookup_insert_ne.
Qed.

Lemma settle_book h st r st' : settlePendingLnSend (E := E) h st = (r, st') ->
  (r = Er (new Facade_UnknownLedgerError) /\ st' = st) \/
  exists n, book_updateMany (E := E) (ls_book st) ("hash", MStr h) ("pending", MBool false)
              = Some (n, ls_book st') /\
            r = (if Nat.ltb 0 n then Ok tt else Er (new Facade_NoTransactionToSettleError)).
Proof.
  unfold settlePendingLnSend. destruct (book_updateMany _ _ _) as [[n b]|] eqn:Hu.
  - intros Hs. right. exists n. destruct (Nat.ltb 0 n); by injection Hs as <- <-.
  - intros [= <- <-]. by left.
Qed.

Lemma settle_nets (p : storedTx -> bool) h st r st' :
  (forall t, p (set_field ("pending", MBool false) t) = p t) ->
  settlePendingLnSend (E := E) h st = (r, st') ->
  forall x c,
    net_account x c (st_tx <$> List.filter p (book_txs (E := E) (ls_book st'))) =
      net_account x c (st_tx <$> List.filter p (book_txs (E := E) (ls_book st))) /\
    net c (st_tx <$> List.filter p (book_txs (E := E) (ls_book st'))) =
      net c (st_tx <$> List.filter p (book_txs (E := E) (ls_book st))).
Proof using blaws.
  intros Hp Hs x c. apply settle_book in Hs as [[_ ->]|(n & Hu & _)]; [done|].
  refine (update_nets p ("hash", MStr h) "pending" (MBool false) _ _ _ Hp _ x c); [done|].
  by eapply updateMany_maps.
Qed.

Lemma filter_all {A} (l : list A) : List.filter (fun _ => true) l = l.
Proof. induction l; simpl; congruence. Qed.

Lemma settle_lines h st r st' : settlePendingLnSend (E := E) h st = (r, st') ->
  forall x c, net_account x c (lines (ls_book st')) = net_account x c (lines (ls_book st)) /\
              net c (lines (ls_book st')) = net c (lines (ls_book st)).
Proof using blaws.
  intros Hs x c. pose proof (settle_nets (fun _ => true) h st r st' (fun _ => eq_refl) Hs x c) as Hn.
  by rewrite !filter_all in Hn.
Qed.

(** What a committed entry of the builder does to the balances, and what its journal
    holds. *)
Lemma commit_nets st entry ids m total fee from add to saved st' :
  entry_transactions entry = [] -> amounts_ok total fee ->
  book_commit (ls_book st) (build ids entry m total fee from add to) = Some (saved, ls_book st') ->
  forall x c,
    balance_of st' x c = balance_of st x c + transfer ids total fee from to x c /\
    net_account x c (journal (ls_book st') (saved_id saved)) = transfer ids total fee from to x c.
Proof using blaws elaws.
  intros He Hok Hc x c. unfold balance_of, journal.
  rewrite (commit_lines _ _ _ _ Hc), net_account_app, (journal_lines _ _ _ _ Hc).
  rewrite build_account by done. by rewrite He.
Qed.

Lemma recordSend_nets d w total fee m st j st' :
  amounts_ok (send_total total) (actual_fee fee) ->
  recordSend d w total fee m st = (Ok j, st') ->
  exists ids, forall x c,
    balance_of st' x c = balance_of st x c +
      transfer ids (send_total total) (actual_fee fee) (toLedgerAccountDescriptor w)
        lndLedgerAccountDescriptor x c /\
    net_account x c (journal (ls_book st') (journalId j)) =
      transfer ids (send_total total) (actual_fee fee) (toLedgerAccountDescriptor w)
        lndLedgerAccountDescriptor x c.
Proof using blaws elaws.
  intros Hok Hr. apply recordSend_ok in Hr as (ids & saved & Hc & ->). exists ids.
  apply (commit_nets _ _ _ _ _ _ _ _ _ _ _ (entry_empty (S := S) d) Hok Hc).
Qed.

Lemma recordReceive_nets d w amt m h pre st j st' :
  amounts_ok (send_total amt) ZERO_BANK_FEE ->
  recordReceive d w amt None m h pre st = (Ok j, st') ->
  exists ids, forall x c,
    balance_of st' x c = balance_of st x c +
      transfer ids (send_total amt) ZERO_BANK_FEE lndLedgerAccountDescriptor
        (toLedgerAccountDescriptor w) x c.
Proof using blaws elaws.
  intros Hok Hr. apply with_static_ids_ok in Hr as (ids & st1 & _ & Hb & Hp).
  apply persist_ok in Hp as (saved & Hc & _). rewrite Hb in Hc. exists ids. intros x c.
  assert (Ht : mkWithFees (add (both_usd amt) ZERO_CENTS) (add (both_btc amt) ZERO_SATS)
               = send_total amt).
  { unfold add, send_total. simpl. rewrite !Z.add_0_r. destruct amt as [[? ?] [? ?]]. simpl. done. }
  simpl in Hc. rewrite Ht in Hc.
  apply (commit_nets st _ ids m _ _ lndLedgerAccountDescriptor None
    (toLedgerAccountDescriptor w) saved st' (entry_empty (S := S) d) Hok Hc x c).
Qed.

Lemma recordIntraledger_nets d w1 w2 amt m md st j st' :
  amounts_ok (send_total amt) ZERO_BANK_FEE ->
  recordIntraledger d w1 w2 amt m md st = (Ok j, st') ->
  exists ids, forall x c,
    balance_of st' x c = balance_of st x c +
      transfer ids (send_total amt) ZERO_BANK_FEE (toLedgerAccountDescriptor w1)
        (toLedgerAccountDescriptor w2) x c.
Proof using blaws elaws.
  intros Hok Hr. apply with_static_ids_ok in Hr as (ids & st1 & _ & Hb & Hp).
  apply persist_ok in Hp as (saved & Hc & _). rewrite Hb in Hc. exists ids. intros x c.
  apply (commit_nets st _ ids m _ _ (toLedgerAccountDescriptor w1) md
    (toLedgerAccountDescriptor w2) saved st' (entry_empty (S := S) d) Hok Hc x c).
Qed.

Lemma revert_nets jid h st st' : recordLnSendRevert (E := E) jid h st = (Ok tt, st') ->
  forall x c, balance_of st' x c = balance_of st x c - net_account x c (journal (ls_book st) jid).
Proof using blaws.
  intros Hr x c. unfold balance_of. rewrite (revert_ok _ _ _ _ Hr), net_account_app,
    net_account_reversed. unfold journal. lia.
Qed.

Lemma settle_journal h st r st' jid : settlePendingLnSend (E := E) h st = (r, st') ->
  forall x c, net_account x c (journal (ls_book st') jid) =
              net_account x c (journal (ls_book st) jid).
Proof using blaws.
  intros Hs x c. by destruct (settle_nets (fun t => String.eqb (st_journal t) jid) _ _ _ _
    (fun _ => eq_refl) Hs x c).
Qed.

(** C15. A lightning send recorded by the facade, settled and then reverted leaves the
    balance of every account in every currency as it was before, whatever the
    settlement answered. *)
Theorem revert_restores_balances (d : string) (w : WalletDescriptor) (total : BothAmounts)
    (fee : option BothAmounts) (m : metadata) (hash : string)
    (st st1 st2 st3 : LedgerState S) (j : LedgerJournal) (r : result unit)
    (Hsend : recordSend d w total fee m st = (Ok j, st1))
    (Hsettle : settlePendingLnSend (E := E) hash st1 = (r, st2))
    (Hrevert : recordLnSendRevert (E := E) (journalId j) hash st2 = (Ok tt, st3)) :
  forall x c, balance_of st3 x c = balance_of st x c.
Proof using blaws.
  intros x c. apply recordSend_ok in Hsend as (ids & saved & Hc & Hj).
  rewrite (revert_nets _ _ _ _ Hrevert), (settle_journal _ _ _ _ _ Hsettle).
  unfold balance_of, journal. destruct (settle_lines _ _ _ _ Hsettle x c) as [-> _].
  rewrite Hj, (journal_lines _ _ _ _ Hc), (commit_lines _ _ _ _ Hc), net_account_app. lia.
Qed.

(** A send recorded by the facade changes the balances of all accounts by exactly the
    abstract transfer from the wallet of the sender to the lightning node, with the
    bank fee to the bank owner and the dealer in between for a dollar wallet. *)
Theorem recordSend_effect (d : string) (w : WalletDescriptor) (total : BothAmounts)
    (fee : option BothAmounts) (m : metadata) (st st' : LedgerState S) (j : LedgerJournal)
    (Hok : amounts_ok (send_total total) (actual_fee fee))
    (Hsend : recordSend d w total fee m st = (Ok j, st')) :
  exists ids, forall x c,
    balance_of st' x c = balance_of st x c +
      transfer ids (send_total total) (actual_fee fee) (toLedgerAccountDescriptor w)
        lndLedgerAccountDescriptor x c.
Proof using blaws elaws.
  destruct (recordSend_nets _ _ _ _ _ _ _ _ Hok Hsend) as [ids Hn]. exists ids.
  intros x c. apply Hn.
Qed.

(** Every document of the hash has left the pending state. *)
Definition all_settled (hash : string) (s : S) : Prop :=
  Forall (fun t => has_field ("hash", MStr hash) t -> has_field ("pending", MBool false) t)
    (book_txs (E := E) s).

(** A settlement leaves every document of the hash settled. *)
Lemma settle_all h st r st' : settlePendingLnSend (E := E) h st = (r, st') ->
  r <> Er (new Facade_UnknownLedgerError) -> all_settled h (ls_book st').
Proof using blaws.
  intros Hs Hr. apply settle_book in Hs as [[-> _]|(n & Hu & _)]; [done|].
  pose proof (updateMany_maps _ _ _ _ _ Hu) as Hm. unfold all_settled. clear -Hm.
  induction Hm as [|t t' l l' Ht _ IH]; constructor; [|done].
  destruct Ht as [[Hf ->]|[Hf ->]]; [|done]. intros _.
  unfold has_field, set_field. simpl. by rewrite lookup_insert_eq.
Qed.

(** Settling a payment hash changes no balance; it succeeds only when some transaction
    of the hash was not settled and then all of them are, and it answers
    NoTransactionToSettleError only when all of them already were. *)
Theorem settle_effect (hash : string) (st st' : LedgerState S) (r : result unit) :
  settlePendingLnSend (E := E) hash st = (r, st') ->
  (forall x c, balance_of st' x c = balance_of st x c) /\
  (r = Ok tt -> all_settled hash (ls_book st') /\ ~ all_settled hash (ls_book st)) /\
  (r = Er (new Facade_NoTransactionToSettleError) -> all_settled hash (ls_book st)).
Proof using blaws.
  intros Hs. split; [intros x c; by destruct (settle_lines _ _ _ _ Hs x c)|].
  pose proof (settle_all _ _ _ _ Hs) as Hall. apply settle_book in Hs as [[-> ->]|(n & Hu & ->)]; [done|].
  pose proof (updateMany_count _ _ _ _ _ Hu) as Hn. fold (all_settled hash (ls_book st)) in Hn.
  destruct n as [|n]; simpl; split; try done; intros _.
  - by apply Hn.
  - split; [by apply Hall|by intros ?%Hn].
Qed.

(** *** The book stays balanced *)

(** A call of the facade, with the amounts its types promise, whatever its
    outcome. *)
Inductive facade_step (st : LedgerState S) : LedgerState S -> Prop :=
| step_send d w total fee m r st' :
    amounts_ok (send_total total) (actual_fee fee) ->
    recordSend d w total fee m st = (r, st') -> facade_step st st'
| step_receive d w amt fee m h pre r st' :
    amounts_ok (mkWithFees (add (both_usd amt) (usdBankFee (actual_fee fee)))
                           (add (both_btc amt) (btcBankFee (actual_fee fee)))) (actual_fee fee) ->
    recordReceive d w amt fee m h pre st = (r, st') -> facade_step st st'
| step_intraledger d w1 w2 amt m add r st' :
    amounts_ok (send_total amt) ZERO_BANK_FEE ->
    recordIntraledger d w1 w2 amt m add st = (r, st') -> facade_step st st'
| step_settle h r st' :
    settlePendingLnSend (E := E) h st = (r, st') -> facade_step st st'
| step_revert jid h r st' :
    recordLnSendRevert (E := E) jid h st = (r, st') -> facade_step st st'.

(** The invariant: the book is balanced, and so is each of its journals. *)
Definition book_inv (s : S) : Prop :=
  balanced (lines s) /\ forall jid, balanced (journal s jid).

Lemma append_inv s s' new jid l :
  book_inv s -> book_txs (E := E) s' = book_txs (E := E) s ++ new -> st_tx <$> new = l ->
  Forall (fun t => st_journal t = jid) new -> balanced l -> book_inv s'.
Proof.
  intros [Hb Hj] Hs Hn Hid Hl. split.
  - intros c. unfold lines. rewrite Hs, fmap_app, net_app, Hn.
    pose proof (Hb c) as E1. pose proof (Hl c) as E2. unfold lines in E1. lia.
  - intros i c. unfold journal. rewrite Hs, List.filter_app, fmap_app, net_app.
    pose proof (Hj i c) as E1. unfold journal in E1. rewrite E1.
    destruct (decide (jid = i)) as [->|Hne].
    + rewrite (filter_eq_all i new Hid), Hn. pose proof (Hl c). lia.
    + rewrite (filter_eq_none jid i new Hid Hne). done.
Qed.

Lemma persist_inv entry hash pre st r st' :
  book_inv (ls_book st) -> balanced (entry_transactions entry) ->
  persistAndReturnEntry entry hash pre st = (r, st') -> book_inv (ls_book st').
Proof using blaws.
  intros Hi Hb. unfold persistAndReturnEntry.
  destruct (book_commit _ _) as [[saved b]|] eqn:Hc; intros [= <- <-]; [|done]. simpl.
  destruct (commit_appends _ _ _ _ Hc) as (new & Hs & Hn & _ & Hid & _).
  by eapply append_inv.
Qed.

Lemma with_static_ids_inv {A} (k : staticAccountIds -> facade S A) st r st' :
  book_inv (ls_book st) ->
  (forall ids st1 r st', book_inv (ls_book st1) -> k ids st1 = (r, st') -> book_inv (ls_book st')) ->
  with_static_ids k st = (r, st') -> book_inv (ls_book st').
Proof.
  intros Hi Hk. unfold with_static_ids.
  destruct (get_staticAccountIds _) as [[ids| |] c]; [|by intros [= <- <-]..].
  intros H'. by eapply Hk, H'.
Qed.

Lemma build_balanced_net ids d m total fee from add to :
  amounts_ok total fee -> imbalance Btc fee from to = 0 ->
  balanced (entry_transactions (build ids (book_entry (S := S) (E := E) d) m total fee from add to)).
Proof using elaws blaws.
  intros Hok Hi c. rewrite build_net, (entry_empty (S := S)) by done.
  assert (imbalance c fee from to = 0) as ->; [|done].
  destruct c; [|done]. unfold imbalance in *. unfold cents_if in *.
  repeat case_match; done.
Qed.

Lemma step_inv st st' : facade_step st st' -> book_inv (ls_book st) -> book_inv (ls_book st').
Proof using elaws blaws.
  intros Hs Hi. destruct Hs as [d w total fee m r st' Hok H'|d w amt fee m h pre r st' Hok H'
    |d w1 w2 amt m add r st' Hok H'|h r st' H'|jid h r st' H'].
  1-3: eapply with_static_ids_inv, H'; [exact Hi|]; intros ids st1 r' st'' Hi1 Hp;
    eapply persist_inv, Hp; [exact Hi1|].
  - apply (build_balanced_net ids d m (send_total total) (actual_fee fee)
      (toLedgerAccountDescriptor w) None lndLedgerAccountDescriptor Hok).
    unfold imbalance. simpl. by case_match.
  - by apply (build_balanced_net ids d m _ (actual_fee fee) lndLedgerAccountDescriptor None
      (toLedgerAccountDescriptor w) Hok).
  - apply (build_balanced_net ids d m (send_total amt) ZERO_BANK_FEE
      (toLedgerAccountDescriptor w1) add (toLedgerAccountDescriptor w2) Hok).
    unfold imbalance. by repeat case_match.
  - destruct Hi as [Hb Hj]. split.
    + intros c. destruct (settle_lines _ _ _ _ H' "" c) as [_ ->]. apply Hb.
    + intros i c. destruct (settle_nets (fun t => String.eqb (st_journal t) i) _ _ _ _
        (fun _ => eq_refl) H' "" c) as [_ E1]. unfold journal. rewrite E1. apply Hj.
  - unfold recordLnSendRevert in H'. destruct (book_void _ _ _) as [[saved b]|] eqn:Hv;
      injection H' as <- <-; [|done]. simpl.
    destruct (void_appends _ _ _ _ _ Hv) as (new & Hn1 & Hn2 & _ & Hid & _).
    eapply append_inv; [exact Hi|exact Hn1|exact Hn2|exact Hid|].
    intros c. rewrite (list_fmap_compose st_tx reversed), net_reversed.
    pose proof (proj2 Hi jid c) as E1. unfold journal in E1. lia.
Qed.

(** After any sequence of calls of the ledger facade (sends, receipts, transfers,
    settlements, reverts), successful or not, on a book that starts empty, credits
    equal debits in each currency over the whole book and within every journal. *)
Theorem facade_keeps_book_balanced (st st' : LedgerState S)
    (Hsteps : rtc facade_step st st') (Hempty : book_txs (E := E) (ls_book st) = []) :
  balanced (lines (ls_book st')) /\ forall jid, balanced (journal (ls_book st') jid).
Proof using elaws blaws.
  assert (Hi : book_inv (ls_book st)).
  { split; [intros c|intros jid c]; unfold lines, journal; by rewrite Hempty. }
  fold (book_inv (ls_book st')). clear Hempty. revert Hi.
  induction Hsteps as [|st1 st2 st3 Hs _ IH]; [done|]. intros Hi. by apply IH, (step_inv _ _ Hs).
Qed.

End Spec.
(** *** A book as the list of its transactions *)

#[global] Instance Q_eq_dec : EqDecision Q.
Proof. solve_decision. Defined.
#[global] Instance number_eq_dec : EqDecision number.
Proof. solve_decision. Defined.
#[global] Instance metaval_eq_dec : EqDecision metaval.
Proof. solve_decision. Defined.
#[global] Instance has_field_dec kv t : Decision (has_field kv t).
Proof. unfold has_field. apply _. Defined.

Definition fresh_journal (s : list storedTx) : string :=
  fresh (st_journal <$> s).

Lemma fresh_journal_new s : Forall (fun t => st_journal t <> fresh_journal s) s.
Proof.
  apply Forall_forall. intros t Ht E. apply (infinite_is_fresh (st_journal <$> s)).
  change (fresh_journal s ∈ st_journal <$> s). rewrite <- E. by apply list_elem_of_fmap_2.
Qed.

Definition store (jid : string) (l : list ledgerTx) : list storedTx :=
  imap (fun i t => mkStored (jid +:+ "." +:+ pretty i) jid t) l.

Lemma store_txs jid l : st_tx <$> store jid l = l.
Proof.
  unfold store. rewrite fmap_imap. apply list_eq. intros i. rewrite list_lookup_imap.
  by destruct (l !! i).
Qed.

Lemma store_journal jid l : Forall (fun t => st_journal t = jid) (store jid l).
Proof.
  unfold store. apply Forall_lookup. intros i t Ht. rewrite list_lookup_imap in Ht.
  destruct (l !! i); simpl in Ht; by simplify_eq.
Qed.

Definition changed (kv kv' : string * metaval) (t : storedTx) : bool :=
  bool_decide (has_field kv t) && negb (bool_decide (has_field kv' t)).

#[global] Instance list_book : MediciBook (list storedTx) (list ledgerTx) := {
  book_txs s := s;
  book_entry _ := [];
  book_commit s e :=
    let jid := fresh_journal s in
    Some (mkSaved jid false (st_id <$> store jid e), s ++ store jid e);
  book_void s jid _ :=
    let new := store (fresh_journal s)
      ((fun t => reversed (st_tx t)) <$> List.filter (fun t => String.eqb (st_journal t) jid) s) in
    Some (mkSaved (fresh_journal s) false (st_id <$> new), s ++ new);
  book_updateMany s kv kv' :=
    Some (length (List.filter (changed kv kv') s),
          (fun t => if decide (has_field kv t) then set_field kv' t else t) <$> s);
  book_balance s acc := Some (num (raw_net acc (st_tx <$> s)))
}.

#[global] Instance list_book_laws : MediciBookLaws (list storedTx) (list ledgerTx).
Proof.
  split; simpl.
  - done.
  - intros s e j s' [= <- <-]. exists (store (fresh_journal s) e). simpl.
    split_and!; [done|apply store_txs|done|apply store_journal|apply fresh_journal_new].
  - intros s jid _ j s' [= <- <-]. eexists.
    split_and!; [done|apply store_txs|done|apply store_journal|apply fresh_journal_new].
  - intros s kv kv' n s' [= <- <-]. apply Forall2_fmap_r, Forall_Forall2_diag, Forall_true.
    intros t. simpl. destruct (decide (has_field kv t)); auto.
  - intros s kv kv' n s' [= <- <-]. split.
    + intros Hn. apply Forall_forall. intros t Ht Hf.
      destruct (decide (has_field kv' t)) as [|Hno]; [done|].
      assert (Hin : In t (List.filter (changed kv kv') s)).
      { apply filter_In. split; [by apply list_elem_of_In|]. unfold changed.
        by rewrite bool_decide_eq_true_2, bool_decide_eq_false_2. }
      by destruct (List.filter (changed kv kv') s).
    + induction 1 as [|t l Ht Hl IH]; [done|]. simpl. unfold changed at 1.
      destruct (decide (has_field kv t)) as [Hf|Hf].
      * rewrite (bool_decide_eq_true_2 (has_field kv' t)) by auto.
        by rewrite andb_false_r.
      * by rewrite (bool_decide_eq_false_2 (has_field kv t)).
Qed.

(** *** Witnesses *)

Definition sample_cache : cache :=
  setDealerUsdWalletResolver (Ok "dealerUsd") (setDealerBtcWalletResolver (Ok "dealerBtc")
    (setBankOwnerWalletResolver (Ok "bankowner") initial_cache)).
Definition sample_state : LedgerState (list storedTx) := mkState [] sample_cache [].
Definition sample_both : BothAmounts := mkBoth (mkAmount 230 Usd) (mkAmount 10000 Btc).
Definition sample_meta : metadata := obj [("hash", MStr "h1"); ("pending", MBool true)].

Definition sent := recordSend "coffee" (mkWallet "alice" Usd) sample_both None sample_meta
  sample_state.
Definition sent_state : LedgerState (list storedTx) := snd sent.
Definition sent_journal : LedgerJournal :=
  match fst sent with Ok j => j | _ => mkJournal "" false [] end.
Definition settled_state : LedgerState (list storedTx) :=
  snd (settlePendingLnSend (E := list ledgerTx) "h1" sent_state).
Definition reverted_state : LedgerState (list storedTx) :=
  snd (recordLnSendRevert (E := list ledgerTx) (journalId sent_journal) "h1" settled_state).

Lemma sample_both_ok : amounts_ok (send_total sample_both) (actual_fee None).
Proof. by split. Qed.

Lemma revert_restores_balances_witness :
  balance_of (E := list ledgerTx) sent_state "Liabilities:alice" Usd = -230 /\
  balance_of (E := list ledgerTx) reverted_state "Liabilities:alice" Usd = 0.
Proof.
  split; [by vm_compute|].
  refine (revert_restores_balances "coffee" (mkWallet "alice" Usd) sample_both None sample_meta
    "h1" sample_state sent_state settled_state reverted_state sent_journal (Ok tt) _ _ _
    "Liabilities:alice" Usd); by vm_compute.
Defined.

Lemma recordSend_effect_witness : exists ids,
  balance_of (E := list ledgerTx) sent_state "Liabilities:alice" Usd =
  balance_of (E := list ledgerTx) sample_state "Liabilities:alice" Usd +
    transfer ids (send_total sample_both) (actual_fee None)
      (toLedgerAccountDescriptor (mkWallet "alice" Usd)) lndLedgerAccountDescriptor
      "Liabilities:alice" Usd.
Proof.
  destruct (recordSend_effect "coffee" (mkWallet "alice" Usd) sample_both None sample_meta
    sample_state sent_state sent_journal sample_both_ok) as [ids Hids]; [by vm_compute|].
  exists ids. apply Hids.
Defined.

Lemma settle_effect_witness : all_settled (E := list ledgerTx) "h1" (ls_book settled_state).
Proof.
  destruct (settle_effect "h1" sent_state settled_state (Ok tt)) as (_ & Hs & _);
    [by vm_compute|]. by apply Hs.
Defined.

Lemma facade_keeps_book_balanced_witness :
  net Btc (lines (E := list ledgerTx) (ls_book sent_state)) = 0.
Proof.
  refine (proj1 (facade_keeps_book_balanced sample_state sent_state _ eq_refl) Btc).
  eapply rtc_once, (step_send _ "coffee" (mkWallet "alice" Usd) sample_both None sample_meta
    (Ok sent_journal)); [exact sample_both_ok|by vm_compute].
Defined.

End FacadeSpec.

(** ** The cache of wallet ids *)

Module CachingSpec.

(** A resolver never gives an empty id. *)
Definition resolves_nonempty (r : result string) : Prop := r <> Ok "".

Lemma cached_stable c r id v : resolves_nonempty r -> cached c r = (Ok id, v) ->
  v = Some id /\ forall r', cached v r' = (Ok id, v).
Proof.
  intros Hr. unfold cached.
  destruct c as [[|a c]|]; [|intros [= <- <-]; by split|];
    destruct r as [x| |]; try done; intros [= <- <-];
    (split; [done|]); intros r'; by destruct x.
Qed.

Definition set_resolvers (b db du f : result string) (c : cache) : cache :=
  setFunderWalletResolver f (setDealerUsdWalletResolver du
    (setDealerBtcWalletResolver db (setBankOwnerWalletResolver b c))).

(** Once the accounts of the bank owner and of the dealer were resolved, to non-empty
    ids, they stay the same whatever resolvers are set later. *)
Theorem static_ids_stable (c c' : cache) (ids : staticAccountIds) (b db du f : result string)
    (Hb : resolves_nonempty (bankOwnerResolver c))
    (Hdb : resolves_nonempty (dealerBtcResolver c))
    (Hdu : resolves_nonempty (dealerUsdResolver c))
    (Hget : get_staticAccountIds c = (Ok ids, c')) :
  get_staticAccountIds (set_resolvers b db du f c') = (Ok ids, set_resolvers b db du f c').
Proof.
  unfold get_staticAccountIds, cbind, getBankOwnerWalletId, getDealerBtcWalletId,
    getDealerUsdWalletId in *.
  destruct (cached (cacheBankOwnerWalletId c) _) as [[x| |] v1] eqn:E1; simpl in Hget; try done.
  destruct (cached (cacheDealerBtcWalletId c) _) as [[y| |] v2] eqn:E2; simpl in Hget; try done.
  destruct (cached (cacheDealerUsdWalletId c) _) as [[z| |] v3] eqn:E3; simpl in Hget; try done.
  injection Hget as <- <-. simpl.
  apply cached_stable in E1 as [_ ->], E2 as [_ ->], E3 as [_ ->]; done.
Qed.

Lemma static_ids_stable_witness :
  fst (get_staticAccountIds (set_resolvers (throwError "bankOwner") (throwError "dealerBtc")
         (throwError "dealerUsd") (throwError "funder")
         (snd (get_staticAccountIds FacadeSpec.sample_cache)))) =
  Ok (mkStatic "Liabilities:bankowner" "Liabilities:dealerBtc" "Liabilities:dealerUsd").
Proof.
  rewrite (static_ids_stable FacadeSpec.sample_cache
    (snd (get_staticAccountIds FacadeSpec.sample_cache))
    (mkStatic "Liabilities:bankowner" "Liabilities:dealerBtc" "Liabilities:dealerUsd"));
    by vm_compute.
Defined.

End CachingSpec.
