(* ===== verification/LedgerService.v ===== *)
(** * Queries of the ledger service

    [lib/services/ledger/index.js] and [volume.js]: the balances, the transactions and
    the volumes the handlers read from the book.  [MediciQueries] has the queries of
    the [medici] package and of its collection of transactions, [MediciQueriesLaws]
    what is documented of them.  The critical errors recorded in the tracing span, for
    a negative balance or one that is no integer, are left out. *)

From S2P Require Import Prelude JsNum Errors Money Ledger PaymentFlow Validation TxMetadata Facade.
Import AmountCalculator Caching.
#[local] Open Scope string_scope.
#[local] Open Scope Z_scope.
#[local] Open Scope list_scope.

(** ** Documents and queries *)

(** The account of a line is [a] or an account below it. *)
Definition under_account (a : string) (t : storedTx) : bool :=
  String.eqb (tx_account (st_tx t)) a || String.prefix (a +:+ ":") (tx_account (st_tx t)).

(** The field [accounts] of a line is [a]. *)
Definition has_account (a : string) (t : storedTx) : bool :=
  String.eqb (tx_account (st_tx t)) a.

(** A field of the metadata has a value. *)
Definition field_is (k : string) (v : metaval) (t : storedTx) : bool :=
  bool_decide (tx_meta (st_tx t) !! k = Some v).

Definition type_is (ty : LedgerTransactionType) : storedTx -> bool :=
  field_is "type" (MStr (type_string ty)).

Class MediciQueries (S E : Type) `{MediciEntry E, MediciBook S E} : Type := {
  (** the results of [MainBook.ledger(query)]; [None] is a rejection *)
  book_ledger : S -> (storedTx -> bool) -> option (list storedTx);
  (** [Transaction.countDocuments(query)] *)
  book_count : S -> (storedTx -> bool) -> option nat;
  (** the sums of [debit] and [credit] over the matching documents, nothing when no
      document matches *)
  book_sums : S -> (storedTx -> bool) -> option (option (number * number));
  (** the time a document was written *)
  tx_timestamp : storedTx -> Z;
  (** a text that [new ObjectId] accepts *)
  is_object_id : string -> bool
}.

Definition raw_debit (q : storedTx -> bool) (l : list storedTx) : Z :=
  sumZ (fun t => if q t then num_val (tx_debit (st_tx t)) else 0) l.

Class MediciQueriesLaws (S E : Type) `{MediciQueries S E} : Prop := {
  ledger_results (s : S) q l : book_ledger s q = Some l ->
    l ≡ₚ List.filter q (book_txs (E := E) s);
  count_results (s : S) q n : book_count s q = Some n ->
    n = length (List.filter q (book_txs (E := E) s));
  (** the balance of an account without accounts below it, when it is exact *)
  balance_sums (s : S) acc n : book_balance (E := E) s acc = Some n ->
    Forall (fun t => String.prefix (acc +:+ ":") (tx_account (st_tx t)) = false)
      (book_txs (E := E) s) ->
    safe (raw_net acc (lines (E := E) s)) -> n = num (raw_net acc (lines (E := E) s));
  sums_debit (s : S) q r : book_sums s q = Some r ->
    safe (raw_debit q (book_txs (E := E) s)) ->
    fst (default (num 0, num 0) r) = num (raw_debit q (book_txs (E := E) s))
}.

(** ** Documents as transactions of the ledger *)

Definition meta_of (t : storedTx) (k : string) : metaval :=
  default MUndefined (tx_meta (st_tx t) !! k).

(** [x || undefined] on a text. *)
Definition str_or_undefined (v : metaval) : option string :=
  match v with MStr (String _ _ as s) => Some s | _ => None end.
Definition as_str (v : metaval) : option string := match v with MStr s => Some s | _ => None end.
Definition as_num (v : metaval) : option number := match v with MNum n => Some n | _ => None end.
(** [x || 0] on a number. *)
Definition num_or_zero (v : metaval) : number :=
  match v with MNum n => if num_truthy n then n else num 0 | _ => num 0 end.
Definition truthy (v : metaval) : bool :=
  match v with
  | MUndefined => false
  | MStr s => negb (String.eqb s "")
  | MNum n => num_truthy n
  | MBool b => b
  | MStrs _ => true
  end.

Record LedgerTx : Type := mkLedgerTx {
  ltx_id : string;
  ltx_walletId : option string;
  ltx_type : metaval;
  ltx_debit : number;
  ltx_credit : number;
  ltx_fee : number;
  ltx_usd : number;
  ltx_feeUsd : number;
  ltx_currency : metaval;
  ltx_timestamp : Z;
  ltx_pendingConfirmation : bool;
  ltx_journalId : string;
  ltx_lnMemo : option string;
  ltx_username : option string;
  ltx_memoFromPayer : option string;
  ltx_paymentHash : option string;
  ltx_pubkey : option string;
  ltx_address : option string;
  ltx_txHash : option string;
  ltx_feeKnownInAdvance : bool;
  ltx_satsAmount : option number;
  ltx_centsAmount : option number;
  ltx_satsFee : option number;
  ltx_centsFee : option number;
  ltx_displayAmount : option number;
  ltx_displayFee : option number;
  ltx_displayCurrency : option string
}.

Section LedgerService.
Context {S E : Type} `{MediciQueries S E}.

Definition translateToLedgerTx (tx : storedTx) : LedgerTx :=
  let m := meta_of tx in
  mkLedgerTx (st_id tx) (toWalletId (tx_account (st_tx tx))) (m "type")
    (tx_debit (st_tx tx)) (tx_credit (st_tx tx)) (num_or_zero (m "fee")) (num_or_zero (m "usd"))
    (num_or_zero (m "feeUsd")) (m "currency") (tx_timestamp tx) (truthy (m "pending"))
    (st_journal tx) (as_str (m "memo")) (str_or_undefined (m "username"))
    (as_str (m "memoPayer")) (str_or_undefined (m "hash")) (str_or_undefined (m "pubkey"))
    (match m "payee_addresses" with MStrs (a :: _) => Some a | _ => None end)
    (str_or_undefined (m "hash")) (truthy (m "feeKnownInAdvance"))
    (as_num (m "satsAmount")) (as_num (m "centsAmount")) (as_num (m "satsFee"))
    (as_num (m "centsFee")) (as_num (m "displayAmount")) (as_num (m "displayFee"))
    (as_str (m "displayCurrency")).

(** [try { ... } catch (err) { return new UnknownLedgerError(err) }] around a query. *)
Definition queried {A B} (r : option A) (k : A -> result B) : result B :=
  match r with Some a => k a | None => Er (new UnknownLedgerError) end.

Definition getTransactionById (s : S) (id : string) : result LedgerTx :=
  if is_object_id id then
    queried (book_ledger s (fun t => under_account liabilitiesMainAccount t && String.eqb (st_id t) id))
      (fun results => match results with
                      | [t] => Ok (translateToLedgerTx t)
                      | _ => Er (new CouldNotFindTransactionError)
                      end)
  else Er (new UnknownLedgerError).

Definition transactions_where (s : S) (q : storedTx -> bool) : result (list LedgerTx) :=
  queried (book_ledger s q) (fun results => Ok (map translateToLedgerTx results)).

Definition getTransactionsByHash (s : S) (hash : string) : result (list LedgerTx) :=
  transactions_where s (fun t => field_is "hash" (MStr hash) t && under_account liabilitiesMainAccount t).

Definition getTransactionsByWalletId (s : S) (walletId : string) : result (list LedgerTx) :=
  transactions_where s (under_account (toLiabilitiesWalletId walletId)).

Definition getTransactionsByWalletIds (s : S) (walletIds : list string) : result (list LedgerTx) :=
  transactions_where s (fun t => existsb (fun a => under_account a t)
                                   (map toLiabilitiesWalletId walletIds)).

Definition getTransactionsByWalletIdAndContactUsername (s : S) (walletId contactUsername : string)
    : result (list LedgerTx) :=
  transactions_where s (fun t => under_account (toLiabilitiesWalletId walletId) t
                                 && field_is "username" (MStr contactUsername) t).

Definition listPendingPayments (s : S) (walletId : string) : result (list LedgerTx) :=
  transactions_where s (fun t => under_account (toLiabilitiesWalletId walletId) t
                                 && type_is Payment t && field_is "pending" (MBool true) t).

(** The query is not in a [try]: a rejection passes through. *)
Definition getPendingPaymentsCount (s : S) (walletId : string) : result nat :=
  match book_count s (fun t => has_account (toLiabilitiesWalletId walletId) t
                               && type_is Payment t && field_is "pending" (MBool true) t) with
  | Some n => Ok n
  | None => Throw (new JsError)
  end.

(** For a negative balance the dealer's wallets are resolved, which may reject. *)
Definition getWalletBalance (walletId : string) : facade S number := fun st =>
  match book_balance (E := E) (ls_book st) (toLiabilitiesWalletId walletId) with
  | None => (Er (new UnknownLedgerError), st)
  | Some balance =>
      if num_ltb balance (num 0) then
        match cbind getDealerUsdWalletId (fun _ => getDealerBtcWalletId) (ls_cache st) with
        | (Ok _, c) => (Ok balance, mkState (ls_book st) c (ls_requests st))
        | (_, c) => (Er (new UnknownLedgerError), mkState (ls_book st) c (ls_requests st))
        end
      else (Ok balance, st)
  end.

(** A balance that is no integer is rounded down. *)
Definition balance_amount (balance : number) (c : WalletCurrency) : result PaymentAmount :=
  match balanceAmountFromNumber (Some balance) c with
  | Er e => if is_a e BigIntFloatConversionError
            then balanceAmountFromNumber (Some (Math_floor balance)) c else Er e
  | r => r
  end.

Definition getWalletBalanceAmount (w : WalletDescriptor) : facade S PaymentAmount := fun st =>
  match book_balance (E := E) (ls_book st) (toLiabilitiesWalletId (wd_id w)) with
  | None => (Er (new UnknownLedgerError), st)
  | Some balance =>
      if num_ltb balance (num 0) then
        match getDealerWalletIds (ls_cache st) with
        | (Ok _, c) => (balance_amount balance (wd_currency w),
                        mkState (ls_book st) c (ls_requests st))
        | (_, c) => (Er (new UnknownLedgerError), mkState (ls_book st) c (ls_requests st))
        end
      else (balance_amount balance (wd_currency w), st)
  end.

Definition isOnChainTxRecorded (s : S) (walletId txHash : string) : result bool :=
  queried (book_count s (fun t => has_account (toLiabilitiesWalletId walletId) t
                                  && type_is OnchainReceipt t && field_is "hash" (MStr txHash) t))
    (fun n => Ok (negb (Nat.eqb n 0))).

Definition isLnTxRecorded (s : S) (paymentHash : string) : result bool :=
  queried (book_ledger s (fun t => field_is "pending" (MBool false) t
                                   && field_is "hash" (MStr paymentHash) t))
    (fun results => Ok (negb (Nat.eqb (length results) 0))).

(** ** [volume.js] *)

Definition in_group (g : TxnGroup) (t : storedTx) : bool :=
  existsb (fun ty => type_is ty t) (TxnGroups g).

Definition volume_query (g : TxnGroup) (walletId : string) (timestamp : Z) (t : storedTx) : bool :=
  has_account (toLiabilitiesWalletId walletId) t && in_group g t && (timestamp <=? tx_timestamp t).

(** Outgoing and incoming base amounts. *)
Definition txVolumeSince (s : S) (g : TxnGroup) (walletId : string) (timestamp : Z)
    : result (number * number) :=
  queried (book_sums s (volume_query g walletId timestamp))
    (fun r => Ok (default (num 0, num 0) r)).

Definition volumeAmountFn (s : S) (g : TxnGroup) (w : WalletDescriptor) (timestamp : Z)
    : result (PaymentAmount * PaymentAmount) :=
  let* volume := txVolumeSince s g (wd_id w) timestamp in
  let* outgoingBaseAmount := paymentAmountFromNumber (Some (fst volume)) (wd_currency w) in
  let* incomingBaseAmount := paymentAmountFromNumber (Some (snd volume)) (wd_currency w) in
  Ok (outgoingBaseAmount, incomingBaseAmount).

End LedgerService.

(** ** Properties *)

Module QuerySpec.
Import EntryBuilderSpec FacadeSpec.
Section Spec.
Context {S E : Type} `{MediciQueries S E}.
Context {elaws : MediciEntryLaws E} {blaws : MediciBookLaws S E} {qlaws : MediciQueriesLaws S E}.

(** The lines a builder has when the recipient is credited are kept, but the empty
    ones. *)
Lemma creditAccount_keeps (b : EntryBuilderCredit (E := E)) acc t :
  In t (entry_transactions (eb_entry (ebc_builder b))) -> zero_line t = false ->
  In t (entry_transactions (creditAccount b acc)).
Proof using elaws.
  intros Hin Hz. unfold creditAccount, removeZeroAmountEntries,
    addUsdToBtcConversionToEntry, addBtcToUsdConversionToDealer.
  rewrite transactions_set. apply filter_In. split; [|by rewrite Hz].
  rewrite transactions_credit_amount. apply in_or_app. left.
  destruct (ebc_debitCurrency b), (ad_currency acc); try done;
    try (destruct (0 <? _); [|done]);
    repeat (rewrite ?transactions_credit_amount, ?transactions_debit_amount; apply in_or_app; left);
    done.
Qed.

(** The line that debits the sender. *)
Definition sender_line (w : WalletDescriptor) (total : BothAmounts) (m : metadata) : ledgerTx :=
  let a := in_currency (wd_currency w) (both_usd total) (both_btc total) in
  mkTx (toLedgerAccountId (wd_id w)) (Number (amount a)) (num 0) (with_currency m (currency a)).

Definition debited (w : WalletDescriptor) (total : BothAmounts) : Z :=
  amount (in_currency (wd_currency w) (both_usd total) (both_btc total)).

Lemma build_sender_line ids entry m total fee w to :
  safe (debited w total) -> debited w total <> 0 ->
  In (sender_line w total m)
    (entry_transactions (build ids entry m (send_total total) fee
       (toLedgerAccountDescriptor w) None to)).
Proof using elaws.
  intros Hs Hn. apply creditAccount_keeps.
  - unfold debitAccount. simpl. rewrite transactions_debit_amount. apply in_or_app. right. left.
    unfold sender_line, in_currency. by destruct (wd_currency w).
  - unfold zero_line, sender_line. simpl. unfold debited in *.
    rewrite Number_safe, num_eqb_num by done. by rewrite (proj2 (Z.eqb_neq _ _) Hn).
Qed.

(** After a send the book has the line of the sender under the journal of the send. *)
Lemma recordSend_line d w total fee m st j st' :
  recordSend d w total fee m st = (Ok j, st') ->
  safe (debited w total) -> debited w total <> 0 ->
  exists t, In t (book_txs (E := E) (ls_book st')) /\ st_tx t = sender_line w total m /\
            st_journal t = journalId j.
Proof using elaws blaws.
  intros Hr Hs Hn. apply recordSend_ok in Hr as (ids & saved & Hc & ->).
  destruct (commit_appends _ _ _ _ Hc) as (new & -> & Hnew & _ & Hj & _).
  assert (Hin : In (sender_line w total m) (st_tx <$> new))
    by (rewrite Hnew; by apply build_sender_line).
  apply in_map_iff in Hin as (t & Ht & Hin). exists t.
  split; [apply in_or_app; by right|split; [done|]].
  apply (proj1 (Forall_forall _ _) Hj). by apply list_elem_of_In.
Qed.

(** What a query for the transactions of a hash shows of the book. *)
Lemma by_hash_pending s h l :
  getTransactionsByHash s h = Ok l ->
  existsb ltx_pendingConfirmation l = true <->
  exists t, In t (book_txs (E := E) s) /\ field_is "hash" (MStr h) t = true /\
            under_account liabilitiesMainAccount t = true /\ truthy (meta_of t "pending") = true.
Proof using qlaws.
  unfold getTransactionsByHash, transactions_where, queried.
  destruct (book_ledger s _) as [res|] eqn:Hl; [|done]. intros [= <-].
  pose proof (ledger_results _ _ _ Hl) as Hp. rewrite existsb_exists. split.
  - intros (x & Hx & Hpend). apply in_map_iff in Hx as (t & <- & Ht).
    apply list_elem_of_In in Ht. rewrite Hp in Ht. apply list_elem_of_In in Ht.
    apply filter_In in Ht as [Ht Hq]. bool_prop. by exists t.
  - intros (t & Ht & Hh & Hu & Hpend). exists (translateToLedgerTx t). split; [|done].
    apply in_map, list_elem_of_In. rewrite Hp. apply list_elem_of_In, filter_In.
    split; [done|]. by rewrite Hh, Hu.
Qed.

Lemma recorded_iff s h b :
  isLnTxRecorded s h = Ok b ->
  b = true <-> exists t, In t (book_txs (E := E) s) /\ has_field ("hash", MStr h) t /\
                         has_field ("pending", MBool false) t.
Proof using qlaws.
  unfold isLnTxRecorded, queried. destruct (book_ledger s _) as [res|] eqn:Hl; [|done].
  intros [= <-]. pose proof (ledger_results _ _ _ Hl) as Hp. rewrite (Permutation_length Hp).
  rewrite negb_true_iff, Nat.eqb_neq. split.
  - destruct (List.filter _ _) as [|t l] eqn:Hf; [done|]. intros _.
    assert (Ht : In t (t :: l)) by by left. rewrite <- Hf in Ht. apply filter_In in Ht as [Ht Hq].
    apply andb_true_iff in Hq as [Hq1 Hq2]. apply bool_decide_eq_true_1 in Hq1, Hq2. by exists t.
  - intros (t & Ht & Hh & Hpend) Hz. apply nil_length_inv in Hz.
    assert (Hin : In t (List.filter (fun t => field_is "pending" (MBool false) t
                                    && field_is "hash" (MStr h) t) (book_txs (E := E) s))).
    { apply filter_In. split; [done|]. unfold field_is. by rewrite !bool_decide_eq_true_2. }
    by rewrite Hz in Hin.
Qed.

Lemma sender_line_meta w total m k : k <> "currency" ->
  tx_meta (sender_line w total m) !! k = m !! k.
Proof. intros Hk. unfold sender_line, with_currency. simpl. by rewrite lookup_insert_ne. Qed.

Lemma sender_line_liability w total m t : st_tx t = sender_line w total m ->
  under_account liabilitiesMainAccount t = true.
Proof.
  intros Ht. unfold under_account. rewrite Ht. apply orb_true_iff. right.
  destruct w as [id c]. vm_compute. by destruct id.
Qed.

(** C31. After a lightning send of a positive amount was recorded, the transactions
    found by its payment hash include a pending one, which is what stops a second
    attempt; after it was settled none of them is pending and the hash counts as
    recorded, which is what stops a second settlement inside the ledger. *)
Theorem payment_guard d w total hash pubkey f fd ad dc known st j st1
    (Hsafe : safe (debited w total)) (Hpos : 0 < debited w total)
    (Hsend : recordSend d w total None (LnSendLedgerMetadata hash pubkey f fd ad dc known) st
             = (Ok j, st1)) :
  (forall l, getTransactionsByHash (ls_book st1) hash = Ok l ->
     existsb ltx_pendingConfirmation l = true) /\
  (forall st2, settlePendingLnSend (E := E) hash st1 = (Ok tt, st2) ->
     (forall l, getTransactionsByHash (ls_book st2) hash = Ok l ->
        existsb ltx_pendingConfirmation l = false) /\
     (forall b, isLnTxRecorded (ls_book st2) hash = Ok b -> b = true)).
Proof using elaws blaws qlaws.
  destruct (recordSend_line _ _ _ _ _ _ _ _ Hsend Hsafe) as (t & Hin & Ht & _); [lia|].
  assert (Hh : has_field ("hash", MStr hash) t)
    by (unfold has_field; rewrite Ht; by apply sender_line_meta).
  split.
  - intros l Hl. apply (by_hash_pending _ _ _ Hl). exists t. split; [done|].
    split; [by apply bool_decide_eq_true_2|]. split; [by eapply sender_line_liability|].
    unfold meta_of. rewrite Ht. by rewrite sender_line_meta.
  - intros st2 Hs. pose proof (settle_all _ _ _ _ Hs) as Hall. specialize (Hall ltac:(done)).
    unfold all_settled in Hall. rewrite Forall_forall in Hall. split.
    + intros l Hl. apply not_true_is_false. intros Hp. apply (by_hash_pending _ _ _ Hl) in Hp
        as (u & Hu & Huh & _ & Hup). apply bool_decide_eq_true_1 in Huh.
      assert (Hf : has_field ("pending", MBool false) u) by (apply Hall; [by apply list_elem_of_In|done]).
      unfold has_field in Hf. simpl in Hf. unfold meta_of in Hup. by rewrite Hf in Hup.
    + intros b Hb. apply (recorded_iff _ _ _ Hb).
      apply settle_book in Hs as [[? _]|(n & Hu & _)]; [done|].
      pose proof (updateMany_maps _ _ _ _ _ Hu) as Hm.
      apply list_elem_of_In, list_elem_of_lookup in Hin as (i & Hi).
      destruct (Forall2_lookup_l _ _ _ _ _ Hm Hi) as (t' & Hi' & [[_ ->]|[Hno _]]); [|done].
      eexists. split; [by eapply list_elem_of_In, list_elem_of_lookup_2|].
      unfold has_field, set_field. simpl. by rewrite lookup_insert_eq, lookup_insert_ne.
Qed.

Lemma volume_amount s g w ts out inc :
  volumeAmountFn s g w ts = Ok (out, inc) ->
  safe (raw_debit (volume_query g (wd_id w) ts) (book_txs (E := E) s)) ->
  amount out = raw_debit (volume_query g (wd_id w) ts) (book_txs (E := E) s).
Proof using qlaws.
  unfold volumeAmountFn, txVolumeSince, queried.
  destruct (book_sums s _) as [r|] eqn:Hr; [|done]. intros Hv Hs. simpl in Hv.
  unfold paymentAmountFromNumber, safeBigInt in Hv.
  rewrite (sums_debit _ _ _ Hr Hs), BigInt_num in Hv. simpl in Hv.
  destruct (BigInt _) as [z|]; [|done]. by injection Hv as <- _.
Qed.

Lemma sender_line_counted w total hash pubkey f fd ad dc known ts t :
  st_tx t = sender_line w total (LnSendLedgerMetadata hash pubkey f fd ad dc known) ->
  ts <= tx_timestamp t -> volume_query externalPaymentVolumeSince (wd_id w) ts t = true.
Proof.
  intros Ht Hts. unfold volume_query, has_account, in_group. rewrite Ht.
  rewrite (proj2 (Z.leb_le _ _) Hts), andb_true_r. apply andb_true_iff. split.
  - apply String.eqb_eq. done.
  - unfold type_is, field_is. simpl. rewrite Ht. apply orb_true_iff. left.
    apply bool_decide_eq_true_2. by rewrite sender_line_meta.
Qed.

(** A lightning send recorded within the window of a limit raises the outgoing external
    volume of the wallet, as the ledger reports it for the limit check, by at least
    the total debited. *)
Theorem volume_counts_send d w total hash pubkey f fd ad dc known st j st1 ts out0 inc0 out1 inc1
    (Hsafe : safe (debited w total)) (Hpos : 0 < debited w total)
    (Hsend : recordSend d w total None (LnSendLedgerMetadata hash pubkey f fd ad dc known) st
             = (Ok j, st1))
    (Hnow : forall t, t ∈ book_txs (E := E) (ls_book st1) ->
              st_journal t = journalId j -> ts <= tx_timestamp t)
    (Hdebits : forall t, t ∈ book_txs (E := E) (ls_book st1) -> 0 <= num_val (tx_debit (st_tx t)))
    (Hs0 : safe (raw_debit (volume_query externalPaymentVolumeSince (wd_id w) ts)
                   (book_txs (E := E) (ls_book st))))
    (Hs1 : safe (raw_debit (volume_query externalPaymentVolumeSince (wd_id w) ts)
                   (book_txs (E := E) (ls_book st1))))
    (Hv0 : volumeAmountFn (ls_book st) externalPaymentVolumeSince w ts = Ok (out0, inc0))
    (Hv1 : volumeAmountFn (ls_book st1) externalPaymentVolumeSince w ts = Ok (out1, inc1)) :
  amount out0 + debited w total <= amount out1.
Proof using elaws blaws qlaws.
  rewrite (volume_amount _ _ _ _ _ _ Hv0 Hs0), (volume_amount _ _ _ _ _ _ Hv1 Hs1).
  destruct (recordSend_line _ _ _ _ _ _ _ _ Hsend Hsafe) as (t & Hin & Ht & Hj); [lia|].
  apply recordSend_ok in Hsend as (ids & saved & Hc & Hid).
  destruct (commit_appends _ _ _ _ Hc) as (new & Hs & _ & _ & Hnew & Hold).
  rewrite Hs in *. unfold raw_debit. rewrite sumZ_app.
  assert (Hnewt : t ∈ new).
  { apply list_elem_of_In, elem_of_app in Hin as [Hin|Hin]; [|done]. exfalso.
    apply (proj1 (Forall_forall _ _) Hold t Hin). congruence. }
  pose proof (sumZ_elem_le (fun t => if volume_query externalPaymentVolumeSince (wd_id w) ts t
    then num_val (tx_debit (st_tx t)) else 0) new t) as Hle. cbn beta in Hle.
  rewrite (sender_line_counted _ _ _ _ _ _ _ _ _ _ _ Ht) in Hle
    by (apply Hnow; [apply elem_of_app; by right|congruence]).
  rewrite Ht in Hle. simpl in Hle. fold (debited w total) in Hle.
  rewrite num_val_Number in Hle by done.
  assert (debited w total <= sumZ (fun t => if volume_query externalPaymentVolumeSince (wd_id w) ts t
    then num_val (tx_debit (st_tx t)) else 0) new); [|lia].
  apply Hle; [|done]. intros u Hu. destruct (volume_query _ _ _ _); [|lia].
  apply Hdebits, elem_of_app. by right.
Qed.

End Spec.
(** *** A book as the list of its transactions, all written at one time *)

#[global] Instance list_queries : MediciQueries (list storedTx) (list ledgerTx) := {
  book_ledger s q := Some (List.filter q s);
  book_count s q := Some (length (List.filter q s));
  book_sums s q :=
    Some (match List.filter q s with
          | [] => None
          | _ => Some (num (raw_debit q s),
                       num (sumZ (fun t => if q t then num_val (tx_credit (st_tx t)) else 0) s))
          end);
  tx_timestamp _ := 1700000000000;
  is_object_id _ := true
}.

Lemma raw_debit_none q l : List.filter q l = [] -> raw_debit q l = 0.
Proof.
  unfold raw_debit. induction l as [|t l IH]; [done|]. simpl. rewrite sumZ_cons.
  destruct (q t); [done|]. intros Hf. by rewrite (IH Hf).
Qed.

#[global] Instance list_queries_laws : MediciQueriesLaws (list storedTx) (list ledgerTx).
Proof.
  split; simpl.
  - by intros s q l [= <-].
  - by intros s q n [= <-].
  - by intros s acc n [= <-].
  - intros s q r [= <-] _. destruct (List.filter q s) eqn:Hf; [|done].
    simpl. by rewrite raw_debit_none.
Qed.

Definition sample_pay_meta : metadata :=
  LnSendLedgerMetadata "h1" "pk"
    (mkPaymentFlow (Some "h1") None "alice" Usd "a1" None None None None None "coffee" false
       (mkAmount 9900 Btc) (mkAmount 227 Usd) 227 0 false SMLightning PMLightning
       (mkAmount 100 Btc) (mkAmount 3 Usd) None None)
    (num 3) (num 227) "USD" false.

Definition sample_sent := recordSend (E := list ledgerTx) "coffee" (mkWallet "alice" Usd) sample_both
  None sample_pay_meta sample_state.
Definition sample_sent_state : LedgerState (list storedTx) := snd sample_sent.
Definition sample_sent_journal : LedgerJournal :=
  match fst sample_sent with Ok j => j | _ => mkJournal "" false [] end.

Lemma sample_sent_ok : sample_sent = (Ok sample_sent_journal, sample_sent_state).
Proof. vm_compute. reflexivity. Qed.

Lemma payment_guard_witness : exists l,
  getTransactionsByHash (ls_book sample_sent_state) "h1" = Ok l /\
  existsb ltx_pendingConfirmation l = true.
Proof.
  eexists. split; [vm_compute; reflexivity|].
  refine (proj1 (payment_guard "coffee" (mkWallet "alice" Usd) sample_both "h1" "pk" _
    (num 3) (num 227) "USD" false sample_state sample_sent_journal sample_sent_state
    _ _ sample_sent_ok) _ _).
  - vm_compute. discriminate.
  - vm_compute. reflexivity.
  - vm_compute. reflexivity.
Defined.

Lemma volume_counts_send_witness :
  amount (mkAmount 0 Usd) + debited (mkWallet "alice" Usd) sample_both <= amount (mkAmount 230 Usd).
Proof.
  refine (volume_counts_send "coffee" (mkWallet "alice" Usd) sample_both "h1" "pk" _
    (num 3) (num 227) "USD" false sample_state sample_sent_journal sample_sent_state
    1600000000000 (mkAmount 0 Usd) (mkAmount 0 Usd) (mkAmount 230 Usd) (mkAmount 0 Usd)
    _ _ sample_sent_ok _ _ _ _ _ _).
  - vm_compute. discriminate.
  - vm_compute. reflexivity.
  - intros t _ _. vm_compute. discriminate.
  - apply Forall_forall. refine (bool_decide_unpack _ _). vm_compute. exact I.
  - vm_compute. discriminate.
  - vm_compute. discriminate.
  - vm_compute. reflexivity.
  - vm_compute. reflexivity.
Defined.

End QuerySpec.
