(* ===== verification/LedgerWrites.v ===== *)
(** * Entries of the ledger service

    The operations of [lib/services/ledger] that write to the book outside the facade:
    [send.js], [receive.js], [intraledger.js], [admin.js] and [admin-legacy.js].  They use
    the legacy entry builder of [Ledger] and the book of [Facade]. *)

From S2P Require Import Prelude JsNum Errors Money Ledger PaymentFlow Validation TxMetadata Facade LedgerService.
Import AmountCalculator Caching.
#[local] Open Scope string_scope.
#[local] Open Scope Z_scope.
#[local] Open Scope list_scope.

(** What medici offers beyond the operations of [Facade]: an update of the documents of
    a journal, and the balance of an account in one currency. *)
Class MediciJournals (S E : Type) `{MediciEntry E, MediciBook S E} : Type := {
  (** [Transaction.updateMany({ _journal: toObjectId(journalId) }, {field: v})] *)
  book_updateJournal : S -> string -> string * metaval -> option (nat * S);
  (** [MainBook.balance({ account, currency })] *)
  book_balanceIn : S -> string -> WalletCurrency -> option number
}.

Class MediciJournalsLaws (S E : Type) `{MediciJournals S E} : Prop := {
  updateJournal_maps (s : S) jid kv n s' : book_updateJournal s jid kv = Some (n, s') ->
    book_txs (E := E) s' =
      (fun t => if String.eqb (st_journal t) jid then set_field kv t else t) <$> book_txs (E := E) s;
  balanceIn_net (s : S) acc c n : book_balanceIn s acc c = Some n ->
    Forall (fun t => String.prefix (acc +:+ ":") (tx_account (st_tx t)) = false)
      (book_txs (E := E) s) ->
    safe (net_account acc c (lines (E := E) s)) ->
    n = num (net_account acc c (lines (E := E) s))
}.

(** ** The arguments of the operations *)

Record OnChainSend : Type := mkOnChainSend {
  os_walletId : string;
  os_walletCurrency : WalletCurrency;
  os_txHash : string;
  os_payeeAddress : string;
  os_description : string;
  os_sats : number;
  os_bankFee : number;
  os_amountDisplay : number;
  os_totalFee : number;
  os_totalFeeDisplay : number;
  os_sendAll : bool
}.

Record OnChainReceive : Type := mkOnChainReceive {
  or_walletId : string;
  or_walletCurrency : WalletCurrency;
  or_txHash : string;
  or_sats : number;
  or_fee : number;
  or_amountDisplay : number;
  or_feeDisplay : number;
  or_receivingAddress : string
}.

Record IntraTransfer : Type := mkIntraTransfer {
  it_sender : WalletDescriptor;
  it_senderUsername : option string;
  it_description : string;
  it_sats : option number;
  it_cents : option number;
  it_recipient : WalletDescriptor;
  it_recipientUsername : option string;
  it_memoPayer : option string
}.

Record ColdStorageTx : Type := mkColdStorageTx {
  cs_txHash : string;
  cs_payeeAddress : string;
  cs_description : string;
  cs_sats : number;
  cs_fee : number;
  cs_amountDisplay : number;
  cs_feeDisplay : number
}.

Record LnReceive : Type := mkLnReceive {
  lr_walletId : string;
  lr_walletCurrency : WalletCurrency;
  lr_paymentHash : string;
  lr_description : string;
  lr_sats : number;
  lr_feeDisplay : number;
  lr_amountDisplay : number;
  lr_feeInboundLiquidity : number;
  lr_cents : option number
}.

Record LnFeeReimbursed : Type := mkLnFeeReimbursed {
  lf_walletId : string;
  lf_walletCurrency : WalletCurrency;
  lf_paymentHash : string;
  lf_journalId : string;
  lf_sats : number;
  lf_cents : option number;
  lf_revealedPreImage : option string;
  lf_paymentFlow : PaymentFlow;
  lf_feeDisplay : number;
  lf_amountDisplay : number;
  lf_displayCurrency : string
}.

(** The amounts as the numbers that [Number] makes of them. *)
Record SwapResult : Type := mkSwapResult {
  sw_id : string;
  sw_amt : number;
  sw_htlcAddress : string;
  sw_onchainMinerFee : number;
  sw_offchainRoutingFee : number;
  sw_serviceProviderFee : number
}.

Section Writes.
Context {S E : Type} `{MediciQueries S E} `{!MediciJournals S E}.

(** The [try] block around a commit. *)
Definition commit_entry (entry : E) (hash preImage : option string) : facade S LedgerJournal :=
  fun st =>
  match persistAndReturnEntry entry hash preImage st with
  | (Er _, st') => (Er (new UnknownLedgerError), st')
  | r => r
  end.

(** [const x = f(); if (x instanceof Error) return x]. *)
Definition checked {A B} (r : result A) (k : A -> facade S B) : facade S B := fun st =>
  match r with
  | Ok a => k a st
  | Er e => (Er e, st)
  | Throw e => (Throw e, st)
  end.

Definition fail {A} (e : error) : facade S A := fun st => (Er e, st).

(** [creditLnd] on the object [debitAccount] returned. *)
Definition legacy_creditLnd (b : legacyCredit) (btc : PaymentAmount) : E :=
  match b with
  | WithBtcDebit l => btc_creditLnd l
  | WithUsdDebit l => usd_creditLnd l btc
  end.

(** ** [send.js] *)

Definition addSendNoInternalFee (m : metadata) (walletId : string) (walletCurrency : WalletCurrency)
    (sats : number) (cents : option number) (description : string) : facade S LedgerJournal :=
  with_static_ids (fun ids =>
    let md := spread m (obj [("currency", MStr (currency_string walletCurrency))]) in
    let builder := legacy_withoutFee (new_builder (S := S) (E := E) ids description md) in
    let accountId := toLedgerAccountId walletId in
    checked (paymentAmountFromNumber (Some sats) Btc) (fun satsAmount =>
    match walletCurrency with
    | Btc => commit_entry (legacy_creditLnd (legacy_debitAccount builder accountId satsAmount None)
                             satsAmount) (hash_of md) None
    | Usd =>
        match cents with
        | Some c =>
            if num_truthy c then
              checked (paymentAmountFromNumber cents Usd) (fun centsAmount =>
                commit_entry (legacy_creditLnd
                  (legacy_debitAccount builder accountId centsAmount None) satsAmount)
                  (hash_of md) None)
            else fail (new_msg UnknownLedgerError "Cents are required")
        | None => fail (new_msg UnknownLedgerError "Cents are required")
        end
    end)).

Definition addSendInternalFee (m : metadata) (walletId : string) (walletCurrency : WalletCurrency)
    (sats fee : number) (description : string) : facade S LedgerJournal :=
  if decide (walletCurrency <> Btc) then fail (new_msg NotImplementedError "USD Intraledger")
  else
    with_static_ids (fun ids =>
      checked (paymentAmountFromNumber (Some fee) Btc) (fun feeSatsAmount =>
      checked (paymentAmountFromNumber (Some sats) Btc) (fun satsAmount =>
      commit_entry
        (legacy_creditLnd
           (legacy_debitAccount
              (legacy_withFee (new_builder (S := S) (E := E) ids description m) feeSatsAmount)
              (toLedgerAccountId walletId) satsAmount None) satsAmount) (hash_of m) None))).

Definition onchain_send_metadata (a : OnChainSend) : metadata :=
  obj [("type", MStr (type_string OnchainPayment));
       ("pending", MBool true);
       ("hash", MStr (os_txHash a));
       ("payee_addresses", MStrs [os_payeeAddress a]);
       ("fee", MNum (os_totalFee a));
       ("feeUsd", MNum (os_totalFeeDisplay a));
       ("usd", MNum (os_amountDisplay a));
       ("sendAll", MBool (os_sendAll a))].

Definition addOnChainTxSend (a : OnChainSend) : facade S LedgerJournal :=
  let m := onchain_send_metadata a in
  if num_ltb (num 0) (os_bankFee a)
  then addSendInternalFee m (os_walletId a) (os_walletCurrency a) (os_sats a) (os_bankFee a)
         (os_description a)
  else addSendNoInternalFee m (os_walletId a) (os_walletCurrency a) (os_sats a) None
         (os_description a).

Definition setOnChainTxSendHash (jid newTxHash : string) : facade S unit := fun st =>
  match book_updateJournal (E := E) (ls_book st) jid ("hash", MStr newTxHash) with
  | Some (modifiedCount, book') =>
      let st' := mkState book' (ls_cache st) (ls_requests st) in
      if negb (Nat.ltb 0 modifiedCount) then (Er (new NoTransactionToUpdateError), st')
      else (Ok tt, st')
  | None => (Er (new UnknownLedgerError), st)
  end.

Definition settlePendingLnPayment (paymentHash : string) : facade S unit := fun st =>
  match book_updateMany (E := E) (ls_book st) ("hash", MStr paymentHash)
          ("pending", MBool false) with
  | Some (modifiedCount, book') =>
      let st' := mkState book' (ls_cache st) (ls_requests st) in
      if negb (Nat.ltb 0 modifiedCount) then (Er (new NoTransactionToSettleError), st')
      else (Ok tt, st')
  | None => (Er (new UnknownLedgerError), st)
  end.

(** The same text as [settlePendingLnPayment]. *)
Definition settlePendingOnChainPayment (hash : string) : facade S unit := settlePendingLnPayment hash.

Definition revertLightningPayment (jid paymentHash : string) : facade S unit := fun st =>
  match book_void (E := E) (ls_book st) jid "Payment canceled" with
  | Some (savedEntry, book') =>
      let journalEntry := translateToLedgerJournal savedEntry in
      (Ok tt, mkState book' (ls_cache st)
                (ls_requests st ++
                 requests_of (transactionIds journalEntry) (Some paymentHash) None))
  | None => (Er (new UnknownLedgerError), st)
  end.

(** The documents are settled before the journal is voided. *)
Definition revertOnChainPayment (jid description : string) : facade S unit := fun st =>
  match book_updateJournal (E := E) (ls_book st) jid ("pending", MBool false) with
  | None => (Er (new UnknownLedgerError), st)
  | Some (_, book1) =>
      match book_void (E := E) book1 jid description with
      | Some (_, book2) => (Ok tt, mkState book2 (ls_cache st) (ls_requests st))
      | None => (Er (new UnknownLedgerError), mkState book1 (ls_cache st) (ls_requests st))
      end
  end.

(** ** [receive.js] *)

Definition addReceiptNoFee (m : metadata) (walletId : string) (walletCurrency : WalletCurrency)
    (sats : number) (cents : option number) (description : string) (preImage : option string)
    : facade S LedgerJournal :=
  with_static_ids (fun ids =>
    checked (paymentAmountFromNumber (Some sats) Btc) (fun satsAmount =>
    let builder := legacy_debitLnd (legacy_withoutFee (new_builder (S := S) (E := E) ids description m)) satsAmount in
    let accountId := toLedgerAccountId walletId in
    match walletCurrency with
    | Btc => commit_entry (btc_creditAccount builder accountId None) (hash_of m) preImage
    | Usd =>
        match cents with
        | None => fail (new_msg NotReachableError "cents should be defined here")
        | Some _ =>
            checked (paymentAmountFromNumber cents Usd) (fun centsAmount =>
              commit_entry (btc_creditAccount builder accountId (Some centsAmount)) (hash_of m) preImage)
        end
    end)).

Definition addReceiptFee (m : metadata) (walletId : string) (walletCurrency : WalletCurrency)
    (sats fee : number) (description : string) : facade S LedgerJournal :=
  with_static_ids (fun ids =>
    if decide (walletCurrency <> Btc) then fail (new_msg NotImplementedError "USD Intraledger")
    else
      checked (paymentAmountFromNumber (Some fee) Btc) (fun feeSatsAmount =>
      checked (paymentAmountFromNumber (Some sats) Btc) (fun satsAmount =>
      commit_entry
        (btc_creditAccount
           (legacy_debitLnd
              (legacy_withFee (new_builder (S := S) (E := E) ids description m) feeSatsAmount) satsAmount)
           (toLedgerAccountId walletId) None) (hash_of m) None))).

Definition onchain_receive_metadata (a : OnChainReceive) : metadata :=
  obj [("type", MStr (type_string OnchainReceipt));
       ("pending", MBool false);
       ("hash", MStr (or_txHash a));
       ("fee", MNum (or_fee a));
       ("feeUsd", MNum (or_feeDisplay a));
       ("usd", MNum (or_amountDisplay a));
       ("payee_addresses", MStrs [or_receivingAddress a])].

Definition addOnChainTxReceive (a : OnChainReceive) : facade S LedgerJournal :=
  let m := onchain_receive_metadata a in
  if num_ltb (num 0) (or_fee a)
  then addReceiptFee m (or_walletId a) (or_walletCurrency a) (or_sats a) (or_fee a) ""
  else addReceiptNoFee m (or_walletId a) (or_walletCurrency a) (or_sats a) None "" None.

Definition ln_receive_metadata (a : LnReceive) : metadata :=
  obj [("type", MStr (type_string Invoice));
       ("pending", MBool false);
       ("hash", MStr (lr_paymentHash a));
       ("fee", MNum (lr_feeInboundLiquidity a));
       ("feeUsd", MNum (lr_feeDisplay a));
       ("usd", MNum (lr_amountDisplay a))].

Definition addLnTxReceive (a : LnReceive) : facade S LedgerJournal :=
  let m := ln_receive_metadata a in
  if num_ltb (num 0) (lr_feeInboundLiquidity a)
  then addReceiptFee m (lr_walletId a) (lr_walletCurrency a) (lr_sats a) (lr_feeInboundLiquidity a)
         (lr_description a)
  else addReceiptNoFee m (lr_walletId a) (lr_walletCurrency a) (lr_sats a) (lr_cents a)
         (lr_description a) None.

Definition addLnFeeReimbursementReceive (a : LnFeeReimbursed) : facade S LedgerJournal :=
  let m := LnFeeReimbursementReceiveLedgerMetadata (lf_paymentFlow a) (lf_paymentHash a)
             (lf_journalId a) (lf_feeDisplay a) (lf_amountDisplay a) (lf_displayCurrency a) in
  addReceiptNoFee m (lf_walletId a) (lf_walletCurrency a) (lf_sats a) (lf_cents a)
    "fee reimbursement" (lf_revealedPreImage a).

(** ** [intraledger.js] *)

Definition addIntraledgerTxTransfer (a : IntraTransfer) (shareMemoWithPayee : bool) (m : metadata)
    (paymentHash : option string) : facade S LedgerJournal :=
  with_static_ids (fun ids =>
    let shared := spread m
      (obj [("username", opt_str (it_senderUsername a));
            ("memoPayer", if shareMemoWithPayee then opt_str (it_memoPayer a) else MUndefined)]) in
    let builder := legacy_withoutFee (new_builder (S := S) (E := E) ids (it_description a) shared) in
    let additional := Some (obj [("memoPayer", opt_str (it_memoPayer a));
                                 ("username", opt_str (it_recipientUsername a))]) in
    let debited amt := legacy_debitAccount builder (toLedgerAccountId (wd_id (it_sender a))) amt additional in
    let to := toLedgerAccountId (wd_id (it_recipient a)) in
    let sats k := checked (paymentAmountFromNumber (it_sats a) Btc) k in
    let cents k := checked (paymentAmountFromNumber (it_cents a) Usd) k in
    let commit entry := commit_entry entry paymentHash None in
    match wd_currency (it_recipient a), wd_currency (it_sender a), it_sats a, it_cents a with
    | Btc, Btc, None, _ => fail (new_msg NotReachableError "sats undefined implementation error")
    | Btc, Btc, Some _, _ => sats (fun s => commit (legacy_creditAccount (debited s) to None))
    | Usd, Usd, _, None => fail (new_msg JsError "cents undefined implementation error")
    | Usd, Usd, _, Some _ => cents (fun c => commit (legacy_creditAccount (debited c) to None))
    | Btc, Usd, Some _, Some _ =>
        cents (fun c => sats (fun s => commit (legacy_creditAccount (debited c) to (Some s))))
    | Usd, Btc, Some _, Some _ =>
        cents (fun c => sats (fun s => commit (legacy_creditAccount (debited s) to (Some c))))
    | _, _, _, _ => fail (new_msg JsError "cents or sats undefined implementation error")
    end).

Definition addOnChainIntraledgerTxTransfer (a : IntraTransfer) (amountDisplay : number)
    (payeeAddresses : list string) (sendAll : bool) : facade S LedgerJournal :=
  addIntraledgerTxTransfer
    (mkIntraTransfer (it_sender a) (it_senderUsername a) (it_description a) (it_sats a) None
       (it_recipient a) (it_recipientUsername a) (it_memoPayer a)) false
    (obj [("type", MStr (type_string OnchainIntraLedger));
          ("pending", MBool false);
          ("usd", MNum amountDisplay);
          ("memoPayer", MUndefined);
          ("username", MUndefined);
          ("payee_addresses", MStrs payeeAddresses);
          ("sendAll", MBool sendAll)]) None.

Definition addWalletIdIntraledgerTxTransfer (a : IntraTransfer) (amountDisplay : number)
    : facade S LedgerJournal :=
  addIntraledgerTxTransfer
    (mkIntraTransfer (it_sender a) (it_senderUsername a) (it_description a) (it_sats a) None
       (it_recipient a) (it_recipientUsername a) (it_memoPayer a)) true
    (obj [("type", MStr (type_string IntraLedger));
          ("pending", MBool false);
          ("usd", MNum amountDisplay);
          ("memoPayer", MUndefined);
          ("username", MUndefined)]) None.

Definition addLnIntraledgerTxTransfer (a : IntraTransfer) (paymentHash pubkey : string)
    (amountDisplay : number) : facade S LedgerJournal :=
  addIntraledgerTxTransfer a false
    (obj [("type", MStr (type_string IntraLedger));
          ("pending", MBool false);
          ("hash", MStr paymentHash);
          ("usd", MNum amountDisplay);
          ("pubkey", MStr pubkey);
          ("memoPayer", MUndefined);
          ("username", MUndefined)]) (Some paymentHash).

(** ** [accounts.js] *)

Definition legacy_assetsMainAccount : string := "Assets".
Definition bitcoindAccountingPath : string := legacy_assetsMainAccount +:+ ":Reserve:Bitcoind".
Definition lndAccountingPath : string := legacy_assetsMainAccount +:+ ":Reserve:Lightning".
Definition escrowAccountingPath : string := legacy_assetsMainAccount +:+ ":Reserve:Escrow".

(** ** [admin.js] *)

Definition isToHotWalletTxRecorded (s : S) (txHash : string) : result bool :=
  queried (book_count s (fun t => type_is ToHotWallet t && field_is "hash" (MStr txHash) t))
    (fun n => Ok (Nat.ltb 0 n)).

(** The path of the bank owner, read inside a [try]. *)
Definition with_bank_owner {A} (k : string -> facade S A) : facade S A := fun st =>
  match getBankOwnerWalletId (ls_cache st) with
  | (Ok id, c) => k (toLiabilitiesWalletId id) (mkState (ls_book st) c (ls_requests st))
  | (_, c) => (Er (new UnknownLedgerError), mkState (ls_book st) c (ls_requests st))
  end.

(** The entry is committed; nothing is handed to the metadata repository. *)
Definition commit_only (entry : E) : facade S LedgerJournal := fun st =>
  match book_commit (ls_book st) entry with
  | Some (savedEntry, book') =>
      (Ok (translateToLedgerJournal savedEntry), mkState book' (ls_cache st) (ls_requests st))
  | None => (Er (new UnknownLedgerError), st)
  end.

Definition cold_storage_metadata (ty : LedgerTransactionType) (a : ColdStorageTx) : metadata :=
  obj [("type", MStr (type_string ty));
       ("pending", MBool false);
       ("hash", MStr (cs_txHash a));
       ("payee_addresses", MStrs [cs_payeeAddress a]);
       ("fee", MNum (cs_fee a));
       ("feeUsd", MNum (cs_feeDisplay a));
       ("usd", MNum (cs_amountDisplay a));
       ("currency", MStr (currency_string Btc))].

Definition addColdStorageTxReceive (a : ColdStorageTx) : facade S LedgerJournal :=
  let m := cold_storage_metadata ToColdStorage a in
  with_bank_owner (fun bankOwnerPath =>
    let entry := book_entry (S := S) (E := E) (cs_description a) in
    let entry := entry_credit entry lndAccountingPath (num_add (cs_sats a) (cs_fee a)) m in
    let entry := entry_debit entry bankOwnerPath (cs_fee a) m in
    let entry := entry_debit entry bitcoindAccountingPath (cs_sats a) m in
    commit_only entry).

Definition addColdStorageTxSend (a : ColdStorageTx) : facade S LedgerJournal :=
  let m := cold_storage_metadata ToHotWallet a in
  with_bank_owner (fun bankOwnerPath =>
    let entry := book_entry (S := S) (E := E) (cs_description a) in
    let entry := entry_credit entry bitcoindAccountingPath (num_add (cs_sats a) (cs_fee a)) m in
    let entry := entry_debit entry bankOwnerPath (cs_fee a) m in
    let entry := entry_debit entry lndAccountingPath (cs_sats a) m in
    commit_only entry).

Definition swap_fee_metadata (sha256 : string -> string) (r : SwapResult) : metadata :=
  obj [("hash", MStr (sha256 (sw_id r)));
       ("swapId", MStr (sw_id r));
       ("swapAmount", MNum (sw_amt r));
       ("htlcAddress", MStr (sw_htlcAddress r));
       ("onchainMinerFee", MNum (sw_onchainMinerFee r));
       ("offchainRoutingFee", MNum (sw_offchainRoutingFee r));
       ("serviceProviderFee", MNum (sw_serviceProviderFee r));
       ("serviceProvider", MStr "Loop");
       ("currency", MStr (currency_string Btc));
       ("type", MStr (type_string Fee))].

Definition totalSwapFee (r : SwapResult) : number :=
  num_add (num_add (sw_offchainRoutingFee r) (sw_onchainMinerFee r)) (sw_serviceProviderFee r).

Definition swap_line_metadata : metadata :=
  obj [("currency", MStr (currency_string Btc));
       ("pending", MBool false);
       ("type", MStr (type_string Fee))].

(** [findByHash] and [persistAll] are the awaited answers of the metadata repository. *)
Definition addSwapFeeTxSend (sha256 : string -> string) (findByHash : string -> result unit)
    (persistAll : list string -> metadata -> result unit) (r : SwapResult)
    : facade S LedgerJournal := fun st =>
  match findByHash (sha256 (sw_id r)) with
  | Er e =>
      if is_a e CouldNotFindTransactionMetadataError then
        match with_bank_owner (fun bankOwnerPath =>
                let entry := book_entry (S := S) (E := E)
                               ("Swap out fee for swapId " +:+ sw_id r) in
                let entry := entry_credit entry lndAccountingPath (totalSwapFee r) swap_line_metadata in
                let entry := entry_debit entry bankOwnerPath (totalSwapFee r) swap_line_metadata in
                commit_only entry) st with
        | (Ok journalEntry, st') =>
            match persistAll (transactionIds journalEntry) (swap_fee_metadata sha256 r) with
            | Ok _ => (Ok journalEntry, st')
            | Er e' => (Er e', st')
            | Throw _ => (Er (new UnknownLedgerError), st')
            end
        | failed => failed
        end
      else (Er (new DuplicateError), st)
  | Ok _ => (Er (new DuplicateError), st)
  | Throw _ => (Er (new UnknownLedgerError), st)
  end.

(** ** [admin-legacy.js] *)

Definition getAssetsBalance (s : S) (currency : WalletCurrency) : option number :=
  book_balanceIn (E := E) s legacy_assetsMainAccount currency.
Definition getLiabilitiesBalance (s : S) (currency : WalletCurrency) : option number :=
  book_balanceIn (E := E) s liabilitiesMainAccount currency.
Definition getLndBalance (s : S) : option number := book_balanceIn (E := E) s lndAccountingPath Btc.
Definition getLndEscrowBalance (s : S) : option number :=
  book_balanceIn (E := E) s escrowAccountingPath Btc.
Definition getBitcoindBalance (s : S) : option number :=
  book_balanceIn (E := E) s bitcoindAccountingPath Btc.

(** A rejection of the balance or of the commit passes through. *)
Definition rejects {A B} (o : option A) (k : A -> facade S B) : facade S B := fun st =>
  match o with Some a => k a st | None => (Throw (new JsError), st) end.

Record escrowData : Type := mkEscrow {
  ledgerPrevAmount : number;
  lndAmount : number;
  escrow_diff : number;
  escrow_updated : bool
}.

Definition escrow_metadata : metadata :=
  obj [("type", MStr (type_string Escrow));
       ("currency", MStr (currency_string Btc));
       ("pending", MBool false)].

Definition updateLndEscrow (amt : number) : facade S escrowData := fun st =>
  rejects (getLndEscrowBalance (ls_book st)) (fun ledgerEscrow st =>
    let diff := num_add amt ledgerEscrow in
    if num_eqb diff (num 0) then (Ok (mkEscrow ledgerEscrow amt diff false), st)
    else
      let entry := book_entry (S := S) (E := E) "escrow" in
      let entry :=
        if num_ltb (num 0) diff
        then entry_debit (entry_credit entry lndAccountingPath diff escrow_metadata)
               escrowAccountingPath diff escrow_metadata
        else if num_ltb diff (num 0)
        then entry_credit (entry_debit entry lndAccountingPath (num_neg diff) escrow_metadata)
               escrowAccountingPath (num_neg diff) escrow_metadata
        else entry in
      match book_commit (ls_book st) entry with
      | Some (_, book') =>
          (Ok (mkEscrow ledgerEscrow amt diff true), mkState book' (ls_cache st) (ls_requests st))
      | None => (Throw (new JsError), st)
      end) st.

(** [getBankOwnerWalletId] outside a [try]. *)
Definition bank_owner_path {A} (k : string -> facade S A) : facade S A := fun st =>
  match getBankOwnerWalletId (ls_cache st) with
  | (Ok id, c) => k (toLiabilitiesWalletId id) (mkState (ls_book st) c (ls_requests st))
  | (Er e, c) => (Er e, mkState (ls_book st) c (ls_requests st))
  | (Throw e, c) => (Throw e, mkState (ls_book st) c (ls_requests st))
  end.

Definition getBankOwnerBalance (currency : WalletCurrency) : facade S number :=
  bank_owner_path (fun bankOwnerPath st =>
    rejects (book_balanceIn (E := E) (ls_book st) bankOwnerPath currency)
      (fun balance st => (Ok balance, st)) st).

Definition as_true {A} (f : facade S A) : facade S unit := fun st =>
  match f st with
  | (Ok _, st') => (Ok tt, st')
  | (Er e, st') => (Er e, st')
  | (Throw e, st') => (Throw e, st')
  end.

Definition addLndChannelOpeningOrClosingFee (description : string) (fee : number) (m : metadata)
    : facade S unit :=
  let txMetadata := spread (obj [("currency", MStr (currency_string Btc));
                                 ("type", MStr (type_string Fee));
                                 ("pending", MBool false)]) m in
  bank_owner_path (fun bankOwnerPath =>
    as_true (commit_only
      (entry_credit (entry_debit (book_entry (S := S) (E := E) description) bankOwnerPath fee txMetadata)
         lndAccountingPath fee txMetadata))).

Definition addLndRoutingRevenue (amt : number) (collectedOn : string) : facade S unit :=
  let m := obj [("type", MStr (type_string RoutingRevenue));
                ("currency", MStr (currency_string Btc));
                ("feesCollectedOn", MStr collectedOn);
                ("pending", MBool false)] in
  bank_owner_path (fun bankOwnerPath =>
    as_true (commit_only
      (entry_debit (entry_credit (book_entry (S := S) (E := E) "routing fee") bankOwnerPath amt m)
         lndAccountingPath amt m))).

(** The two agree with the operations of the facade but for the class of the error. *)
Lemma settlePendingLnPayment_facade h st :
  snd (settlePendingLnPayment h st) = snd (settlePendingLnSend (E := E) h st) /\
  is_ok (fst (settlePendingLnPayment h st)) = is_ok (fst (settlePendingLnSend (E := E) h st)).
Proof.
  unfold settlePendingLnPayment, settlePendingLnSend.
  destruct (book_updateMany _ _ _) as [[n b]|]; [|done]. by destruct (negb _).
Qed.

Lemma revertLightningPayment_facade jid h st :
  snd (revertLightningPayment jid h st) = snd (recordLnSendRevert (E := E) jid h st) /\
  is_ok (fst (revertLightningPayment jid h st)) = is_ok (fst (recordLnSendRevert (E := E) jid h st)).
Proof.
  unfold revertLightningPayment, recordLnSendRevert.
  by destruct (book_void _ _ _) as [[n b]|].
Qed.

End Writes.
