(* ===== verification/LedgerWritesSpec.v ===== *)
(** * Properties of the entries of the ledger service

    Every operation of the ledger that writes to the book, those of the facade and those
    of [LedgerWrites], keeps the book balanced; what the operations on the escrow, on
    on-chain sends and on their reversal do to the balances. *)

From S2P Require Import Prelude JsNum Errors Money Ledger PaymentFlow Validation TxMetadata Facade LedgerService LedgerWrites.
Import AmountCalculator Caching EntryBuilderSpec LegacySpec FacadeSpec.
#[local] Open Scope string_scope.
#[local] Open Scope Z_scope.
#[local] Open Scope list_scope.

Module WritesSpec.
Section Spec.
Context {S E : Type} `{MediciQueries S E} {elaws : MediciEntryLaws E}
  {blaws : MediciBookLaws S E} `{!MediciJournals S E} {jlaws : MediciJournalsLaws S E}.

(** An operation that keeps the book and its journals balanced. *)
Definition keeps {A} (f : facade S A) : Prop := forall st r st',
  book_inv (E := E) (ls_book st) -> f st = (r, st') -> book_inv (E := E) (ls_book st').

Lemma keeps_static {A} (k : staticAccountIds -> facade S A) :
  (forall ids, keeps (k ids)) -> keeps (with_static_ids k).
Proof.
  intros Hk st r st' Hi Hs. eapply with_static_ids_inv; [exact Hi| |exact Hs].
  intros ids st1 r1 st2 Hi1 Hs1. by eapply Hk.
Qed.

Lemma keeps_fail {A} e : keeps (fail (A := A) e).
Proof. by intros st r st' Hi [= <- <-]. Qed.

Lemma keeps_checked {A B} (x : result A) (k : A -> facade S B) :
  (forall a, x = Ok a -> keeps (k a)) -> keeps (checked x k).
Proof.
  intros Hk st r st' Hi. unfold checked. destruct x; [by apply Hk|by intros [= <- <-]..].
Qed.

Lemma keeps_commit_entry entry h pre :
  balanced (entry_transactions entry) -> keeps (commit_entry entry h pre).
Proof using blaws.
  intros Hb st r st' Hi. unfold commit_entry.
  destruct (persistAndReturnEntry entry h pre st) as [r1 st1] eqn:Hp.
  pose proof (persist_inv _ _ _ _ _ _ Hi Hb Hp) as Hi1. by destruct r1; intros [= <- <-].
Qed.

Lemma commit_inv s s' entry j :
  book_inv (E := E) s -> balanced (entry_transactions entry) -> book_commit s entry = Some (j, s') ->
  book_inv (E := E) s'.
Proof using blaws.
  intros Hi Hb Hc. destruct (commit_appends _ _ _ _ Hc) as (new & Hs & Hn & _ & Hid & _).
  by eapply append_inv.
Qed.

Lemma keeps_commit_only entry : balanced (entry_transactions entry) -> keeps (commit_only entry).
Proof using blaws.
  intros Hb st r st' Hi. unfold commit_only.
  destruct (book_commit _ _) as [[j b]|] eqn:Hc; intros [= <- <-]; [|done]. by eapply commit_inv.
Qed.

Lemma keeps_bank_owner {A} (k : string -> facade S A) :
  (forall id, keeps (k id)) -> keeps (with_bank_owner k) /\ keeps (bank_owner_path k).
Proof.
  intros Hk. split; intros st r st' Hi; unfold with_bank_owner, bank_owner_path;
    destruct (getBankOwnerWalletId _) as [[id|e|e] c]; try (by intros [= <- <-]);
    by apply Hk.
Qed.

Lemma keeps_as_true {A} (f : facade S A) : keeps f -> keeps (as_true f).
Proof.
  intros Hf st r st' Hi. unfold as_true. destruct (f st) as [r1 st1] eqn:Hr.
  apply Hf in Hr; [|done]. by destruct r1; intros [= <- <-].
Qed.

(** *** Entries of the legacy builder *)

Lemma legacy_entry_balanced ids d m fee from a add to other :
  legacy_ok fee a other -> amount fee = 0 \/ settles_fee a other = true ->
  balanced (entry_transactions
    (legacy_build ids (book_entry (S := S) (E := E) d) m fee from a add to other)).
Proof using elaws blaws.
  intros Hok Hset c. rewrite legacy_net; [|apply (entry_empty (S := S))|done].
  destruct (settles_fee a other); [done|]. destruct Hset as [->|?]; [|done].
  unfold cents_if. by case_match.
Qed.

(** A payment to the node is a payment to its account. *)
Lemma creditLnd_build ids d m fee from a btc :
  currency btc = Btc ->
  legacy_creditLnd (legacy_debitAccount (legacy_withFee (new_builder (S := S) (E := E) ids d m) fee)
    from a None) btc =
  legacy_build ids (book_entry (S := S) (E := E) d) m fee from a None lndLedgerAccountId
    (if decide (currency a = Btc) then None else Some btc).
Proof.
  intros Hc. unfold legacy_build, legacy_creditAccount, legacy_debitAccount, legacy_creditLnd.
  destruct (decide _); [done|]. unfold usd_creditLnd, usd_creditAccount, credit_amount. done.
Qed.

Lemma debitLnd_build ids d m fee a to other :
  currency a = Btc ->
  btc_creditAccount (legacy_debitLnd (legacy_withFee (new_builder (S := S) (E := E) ids d m) fee) a)
    to other =
  legacy_build ids (book_entry (S := S) (E := E) d) m fee lndLedgerAccountId a None to other.
Proof.
  intros Hc. unfold legacy_build, legacy_creditAccount, legacy_debitAccount.
  by rewrite decide_True.
Qed.

(** *** The amounts the types of the operations promise *)

(** Satoshis and a fee taken from them. *)
Definition sats_ok (sats fee : number) : Prop :=
  exists s f, sats = num s /\ fee = num f /\ 0 <= f /\ safe s /\ safe f /\ safe (s - f).

Definition exact (n : number) : Prop := exists z, n = num z /\ safe z.
Definition exact_opt (n : option number) : Prop := forall x, n = Some x -> exact x.

Lemma safe_0 : safe 0.
Proof. done. Qed.

Lemma amount_of_num z c : paymentAmountFromNumber (Some (num z)) c = Ok (mkAmount z c).
Proof. unfold paymentAmountFromNumber, safeBigInt. by rewrite BigInt_num. Qed.

Lemma amount_of_exact n c a :
  exact_opt n -> paymentAmountFromNumber n c = Ok a -> exists z, a = mkAmount z c /\ safe z.
Proof.
  intros He. destruct n as [x|]; [|done]. destruct (He x eq_refl) as (z & -> & Hz).
  rewrite amount_of_num. intros [= <-]. eauto.
Qed.

Lemma no_fee_ok a other : safe (amount a) ->
  (forall b, other = Some b -> currency b <> currency a /\ safe (amount b)) ->
  legacy_ok ZERO_SATS a other.
Proof.
  intros Ha Ho. split; [done|done| |].
  - simpl. rewrite Z.sub_0_r. split; [done|]. split; [done|]. apply safe_0.
  - intros b Hb. destruct (Ho b Hb). simpl. by rewrite Z.sub_0_r.
Qed.

Lemma keeps_send_no_fee m id c sats cents d :
  exact sats -> exact_opt cents -> keeps (addSendNoInternalFee m id c sats cents d).
Proof using elaws blaws.
  intros (s & -> & Hs) Hc. apply keeps_static. intros ids. apply keeps_checked. intros a.
  rewrite amount_of_num. intros [= <-]. destruct c.
  - destruct cents as [x|]; [|apply keeps_fail]. destruct (num_truthy x); [|apply keeps_fail].
    apply keeps_checked. intros b Hb. destruct (amount_of_exact _ _ _ Hc Hb) as (z & -> & Hz).
    apply keeps_commit_entry. unfold legacy_withoutFee. rewrite creditLnd_build by done.
    apply legacy_entry_balanced; [|by left]. apply no_fee_ok; [done|]. by intros b' [= <-].
  - apply keeps_commit_entry. unfold legacy_withoutFee. rewrite creditLnd_build by done.
    apply legacy_entry_balanced; [|by left]. by apply no_fee_ok.
Qed.

Lemma keeps_send_fee m id c sats fee d :
  sats_ok sats fee -> keeps (addSendInternalFee m id c sats fee d).
Proof using elaws blaws.
  intros (s & f & -> & -> & Hf & Hs & Hsf & Hd). unfold addSendInternalFee.
  destruct (decide _); [apply keeps_fail|]. apply keeps_static. intros ids.
  apply keeps_checked. intros a. rewrite amount_of_num. intros [= <-].
  apply keeps_checked. intros a. rewrite amount_of_num. intros [= <-].
  apply keeps_commit_entry. rewrite creditLnd_build by done. simpl.
  apply legacy_entry_balanced; [|by right]. by split.
Qed.

Lemma keeps_receipt_no_fee m id c sats cents d pre :
  exact sats -> exact_opt cents -> keeps (addReceiptNoFee m id c sats cents d pre).
Proof using elaws blaws.
  intros (s & -> & Hs) Hc. apply keeps_static. intros ids. apply keeps_checked. intros a.
  rewrite amount_of_num. intros [= <-]. destruct c.
  - destruct cents as [x|]; [|apply keeps_fail]. apply keeps_checked. intros b Hb.
    destruct (amount_of_exact _ _ _ Hc Hb) as (z & -> & Hz).
    apply keeps_commit_entry. unfold legacy_withoutFee. rewrite debitLnd_build by done.
    apply legacy_entry_balanced; [|by left]. apply no_fee_ok; [done|]. by intros b' [= <-].
  - apply keeps_commit_entry. unfold legacy_withoutFee. rewrite debitLnd_build by done.
    apply legacy_entry_balanced; [|by left]. by apply no_fee_ok.
Qed.

Lemma keeps_receipt_fee m id c sats fee d :
  sats_ok sats fee -> keeps (addReceiptFee m id c sats fee d).
Proof using elaws blaws.
  intros (s & f & -> & -> & Hf & Hs & Hsf & Hd). apply keeps_static. intros ids.
  destruct (decide _); [apply keeps_fail|].
  apply keeps_checked. intros a. rewrite amount_of_num. intros [= <-].
  apply keeps_checked. intros a. rewrite amount_of_num. intros [= <-].
  apply keeps_commit_entry. rewrite debitLnd_build by done.
  apply legacy_entry_balanced; [|by right]. by split.
Qed.

Lemma keeps_transfer a share m h :
  exact_opt (it_sats a) -> exact_opt (it_cents a) -> keeps (addIntraledgerTxTransfer a share m h).
Proof using elaws blaws.
  intros Hs Hc. apply keeps_static. intros ids. cbv zeta.
  destruct (wd_currency (it_recipient a)), (wd_currency (it_sender a)), (it_sats a) as [x|],
    (it_cents a) as [y|]; try apply keeps_fail;
    repeat (apply keeps_checked; let b := fresh "b" in let Hb := fresh "Hb" in
            intros b Hb; first [destruct (amount_of_exact _ _ _ Hs Hb) as (? & -> & ?)
                               |destruct (amount_of_exact _ _ _ Hc Hb) as (? & -> & ?)]; clear Hb);
    apply keeps_commit_entry, legacy_entry_balanced; try (by left);
    apply no_fee_ok; try done; by intros b' [= <-].
Qed.

(** *** Lines written without the builders *)

Lemma net_raw_credit c (e : E) acc n m :
  net c (entry_transactions (entry_credit e acc n m)) =
    net c (entry_transactions e) + tx_net c (mkTx acc (num 0) n m).
Proof using elaws.
  unfold net. rewrite transactions_credit, sumZ_app, sumZ_cons. change (sumZ _ []) with 0. lia.
Qed.

Lemma net_raw_debit c (e : E) acc n m :
  net c (entry_transactions (entry_debit e acc n m)) =
    net c (entry_transactions e) + tx_net c (mkTx acc n (num 0) m).
Proof using elaws.
  unfold net. rewrite transactions_debit, sumZ_app, sumZ_cons. change (sumZ _ []) with 0. lia.
Qed.

(** Numbers whose sum is exact. *)
Definition sum_ok (a b : number) : Prop :=
  exists x y, a = num x /\ b = num y /\ safe (x + y).

Lemma cold_balanced d m a1 a2 a3 sats fee : sum_ok sats fee ->
  balanced (entry_transactions
    (entry_debit (entry_debit (entry_credit (book_entry (S := S) (E := E) d) a1
       (num_add sats fee) m) a2 fee m) a3 sats m)).
Proof using elaws blaws.
  intros (s & f & -> & -> & Hs) c. rewrite num_add_safe by done.
  rewrite !net_raw_debit, net_raw_credit, (entry_empty (S := S)).
  unfold tx_net, tx_in_currency. simpl. change (net c []) with 0.
  repeat case_match; rewrite ?num_val_num; lia.
Qed.

Lemma pair_balanced d m a1 a2 n :
  balanced (entry_transactions
    (entry_debit (entry_credit (book_entry (S := S) (E := E) d) a1 n m) a2 n m)) /\
  balanced (entry_transactions
    (entry_credit (entry_debit (book_entry (S := S) (E := E) d) a1 n m) a2 n m)).
Proof using elaws blaws.
  split; intros c; rewrite ?net_raw_debit, ?net_raw_credit, ?net_raw_debit, (entry_empty (S := S));
    unfold tx_net, tx_in_currency; simpl; change (net c []) with 0;
    repeat case_match; rewrite ?num_val_num; lia.
Qed.

(** *** Updates of the documents of a journal *)

Lemma updateJournal_nets (p : storedTx -> bool) s jid k v n s' : k <> "currency" ->
  (forall t, p (set_field (k, v) t) = p t) ->
  book_updateJournal s jid (k, v) = Some (n, s') ->
  forall x c,
    net_account x c (st_tx <$> List.filter p (book_txs (E := E) s')) =
      net_account x c (st_tx <$> List.filter p (book_txs (E := E) s)) /\
    net c (st_tx <$> List.filter p (book_txs (E := E) s')) =
      net c (st_tx <$> List.filter p (book_txs (E := E) s)).
Proof using jlaws.
  intros Hk Hp Hu x c. rewrite (updateJournal_maps _ _ _ _ _ Hu). clear Hu.
  induction (book_txs s) as [|t l [IH1 IH2]]; [done|]. rewrite fmap_cons. cbn [List.filter].
  assert (Ht : p (if String.eqb (st_journal t) jid then set_field (k, v) t else t) = p t)
    by by case_match.
  rewrite Ht. destruct (p t); [|done]. rewrite !fmap_cons. unfold net_account, net in *.
  rewrite !sumZ_cons, IH1, IH2. case_match; [|done].
  unfold tx_net_account, tx_net, tx_in_currency, set_field. simpl. by rewrite lookup_insert_ne.
Qed.

Lemma updateJournal_inv s jid k v n s' : k <> "currency" ->
  book_updateJournal s jid (k, v) = Some (n, s') -> book_inv (E := E) s -> book_inv (E := E) s'.
Proof using jlaws.
  intros Hk Hu [Hb Hj]. split.
  - intros c. pose proof (updateJournal_nets (fun _ => true) _ _ _ _ _ _ Hk (fun _ => eq_refl) Hu "" c)
      as [_ He]. rewrite !filter_all in He. unfold lines in *. rewrite He. apply Hb.
  - intros i c. pose proof (updateJournal_nets (fun t => String.eqb (st_journal t) i) _ _ _ _ _ _ Hk
      (fun _ => eq_refl) Hu "" c) as [_ He]. unfold journal in *. rewrite He. apply Hj.
Qed.

Lemma void_inv s jid d j s' :
  book_void (E := E) s jid d = Some (j, s') -> book_inv (E := E) s -> book_inv (E := E) s'.
Proof using blaws.
  intros Hv Hi. destruct (void_appends _ _ _ _ _ Hv) as (new & Hn1 & Hn2 & _ & Hid & _).
  eapply append_inv; [exact Hi|exact Hn1|exact Hn2|exact Hid|].
  intros c. rewrite (list_fmap_compose st_tx reversed), net_reversed.
  pose proof (proj2 Hi jid c) as E1. unfold journal in E1. lia.
Qed.

(** ** Every operation of the ledger *)

(** A call of an operation that writes to the book, with the amounts its types promise,
    whatever its outcome. *)
Inductive ledger_step (st : LedgerState S) : LedgerState S -> Prop :=
| l_facade st' : facade_step (E := E) st st' -> ledger_step st st'
| l_onchain_send a r st' : exact (os_sats a) -> sats_ok (os_sats a) (os_bankFee a) ->
    addOnChainTxSend (E := E) a st = (r, st') -> ledger_step st st'
| l_set_hash jid h r st' : setOnChainTxSendHash (E := E) jid h st = (r, st') -> ledger_step st st'
| l_settle h r st' : settlePendingLnPayment (E := E) h st = (r, st') -> ledger_step st st'
| l_revert_ln jid h r st' : revertLightningPayment (E := E) jid h st = (r, st') -> ledger_step st st'
| l_revert_onchain jid d r st' :
    revertOnChainPayment (E := E) jid d st = (r, st') -> ledger_step st st'
| l_onchain_receive a r st' : exact (or_sats a) -> sats_ok (or_sats a) (or_fee a) ->
    addOnChainTxReceive (E := E) a st = (r, st') -> ledger_step st st'
| l_ln_receive a r st' : exact (lr_sats a) -> exact_opt (lr_cents a) ->
    sats_ok (lr_sats a) (lr_feeInboundLiquidity a) ->
    addLnTxReceive (E := E) a st = (r, st') -> ledger_step st st'
| l_reimburse a r st' : exact (lf_sats a) -> exact_opt (lf_cents a) ->
    addLnFeeReimbursementReceive (E := E) a st = (r, st') -> ledger_step st st'
| l_swap_fee sha256 find persist sw r st' :
    addSwapFeeTxSend (E := E) sha256 find persist sw st = (r, st') -> ledger_step st st'
| l_transfer a share m h r st' : exact_opt (it_sats a) -> exact_opt (it_cents a) ->
    addIntraledgerTxTransfer (E := E) a share m h st = (r, st') -> ledger_step st st'
| l_cold_receive a r st' : sum_ok (cs_sats a) (cs_fee a) ->
    addColdStorageTxReceive (E := E) a st = (r, st') -> ledger_step st st'
| l_cold_send a r st' : sum_ok (cs_sats a) (cs_fee a) ->
    addColdStorageTxSend (E := E) a st = (r, st') -> ledger_step st st'
| l_escrow amt r st' : updateLndEscrow (E := E) amt st = (r, st') -> ledger_step st st'
| l_channel_fee d fee m r st' :
    addLndChannelOpeningOrClosingFee (E := E) d fee m st = (r, st') -> ledger_step st st'
| l_routing amt on r st' : addLndRoutingRevenue (E := E) amt on st = (r, st') -> ledger_step st st'.

Lemma keeps_set_hash jid h : keeps (setOnChainTxSendHash (E := E) jid h).
Proof using jlaws.
  intros st r st' Hi. unfold setOnChainTxSendHash.
  destruct (book_updateJournal _ _ _) as [[n b]|] eqn:Hu; [|by intros [= <- <-]].
  apply updateJournal_inv in Hu; [|done..]. by destruct (negb _); intros [= <- <-].
Qed.

Lemma keeps_settle h : keeps (settlePendingLnPayment (E := E) h).
Proof using elaws blaws.
  intros st r st' Hi Hs. pose proof (settlePendingLnPayment_facade (E := E) h st) as [Hst _].
  rewrite Hs in Hst. simpl in Hst. destruct (settlePendingLnSend h st) as [r1 st1] eqn:Hf.
  simpl in Hst. subst st1. by eapply step_inv; [eapply step_settle, Hf|].
Qed.

Lemma keeps_revert_ln jid h : keeps (revertLightningPayment (E := E) jid h).
Proof using elaws blaws.
  intros st r st' Hi Hs. pose proof (revertLightningPayment_facade (E := E) jid h st) as [Hst _].
  rewrite Hs in Hst. simpl in Hst. destruct (recordLnSendRevert jid h st) as [r1 st1] eqn:Hf.
  simpl in Hst. subst st1. by eapply step_inv; [eapply step_revert, Hf|].
Qed.

Lemma keeps_revert_onchain jid d : keeps (revertOnChainPayment (E := E) jid d).
Proof using blaws jlaws.
  intros st r st' Hi. unfold revertOnChainPayment.
  destruct (book_updateJournal _ _ _) as [[n b]|] eqn:Hu; [|by intros [= <- <-]].
  apply updateJournal_inv in Hu; [|done..].
  destruct (book_void _ _ _) as [[j b2]|] eqn:Hv; intros [= <- <-]; [|done]. by eapply void_inv.
Qed.

Lemma keeps_escrow amt : keeps (updateLndEscrow (E := E) amt).
Proof using elaws blaws.
  intros st r st' Hi. unfold updateLndEscrow, rejects, getLndEscrowBalance.
  destruct (book_balanceIn _ _ _) as [b|]; [|by intros [= <- <-]].
  destruct (num_eqb _ _); [by intros [= <- <-]|].
  match goal with |- context [book_commit ?s ?e] => destruct (book_commit s e) as [[j b2]|] eqn:Hc end;
    intros [= <- <-]; [|done].
  eapply commit_inv; [exact Hi| |exact Hc].
  destruct (num_ltb (num 0) _); [apply pair_balanced|].
  destruct (num_ltb _ (num 0)); [apply pair_balanced|]. intros c. by rewrite (entry_empty (S := S)).
Qed.

Lemma keeps_swap_fee sha256 find persist sw :
  keeps (addSwapFeeTxSend (E := E) sha256 find persist sw).
Proof using elaws blaws.
  intros st r st' Hi. unfold addSwapFeeTxSend.
  destruct (find _) as [|e|]; [by intros [= <- <-]| |by intros [= <- <-]].
  destruct (is_a e _); [|by intros [= <- <-]].
  destruct (with_bank_owner _ st) as [r1 st1] eqn:Hw.
  assert (Hi1 : book_inv (E := E) (ls_book st1)).
  { revert Hw. eapply (fun (f : facade S _) (Hk : keeps f) => Hk st r1 st1 Hi).
    apply keeps_bank_owner. intros id. apply keeps_commit_only, pair_balanced. }
  destruct r1; [destruct (persist _ _)|..]; by intros [= <- <-].
Qed.

Lemma ledger_step_inv st st' :
  ledger_step st st' -> book_inv (E := E) (ls_book st) -> book_inv (E := E) (ls_book st').
Proof using elaws blaws jlaws.
  intros Hs Hi.
  destruct Hs as [st' Hf|a r st' He Hok Hr|jid h r st' Hr|h r st' Hr|jid h r st' Hr|jid d r st' Hr
    |a r st' He Hok Hr|a r st' He Hc Hok Hr|a r st' He Hc Hr|sha find persist sw r st' Hr
    |a share m h r st' Hs Hc Hr|a r st' Hok Hr|a r st' Hok Hr|amt r st' Hr
    |d fee m r st' Hr|amt on r st' Hr]; [by eapply step_inv|..];
    revert Hr; eapply (fun (f : facade S _) (Hk : keeps f) => Hk st r st' Hi).
  - unfold addOnChainTxSend. by destruct (num_ltb _ _); [apply keeps_send_fee|apply keeps_send_no_fee].
  - apply keeps_set_hash.
  - apply keeps_settle.
  - apply keeps_revert_ln.
  - apply keeps_revert_onchain.
  - unfold addOnChainTxReceive.
    by destruct (num_ltb _ _); [apply keeps_receipt_fee|apply keeps_receipt_no_fee].
  - unfold addLnTxReceive.
    by destruct (num_ltb _ _); [apply keeps_receipt_fee|apply keeps_receipt_no_fee].
  - by apply keeps_receipt_no_fee.
  - apply keeps_swap_fee.
  - by apply keeps_transfer.
  - apply keeps_bank_owner. intros id. by apply keeps_commit_only, cold_balanced.
  - apply keeps_bank_owner. intros id. by apply keeps_commit_only, cold_balanced.
  - apply keeps_escrow.
  - apply keeps_bank_owner. intros id. apply keeps_as_true, keeps_commit_only, pair_balanced.
  - apply keeps_bank_owner. intros id. apply keeps_as_true, keeps_commit_only, pair_balanced.
Qed.

(** C3. After any sequence of calls of operations that write to the book (those of the
    facade, on-chain sends and receipts, transfers, receipts and reimbursements over
    lightning, cold storage movements, swap fees, channel fees, routing revenue,
    escrow updates, settlements and reverts), successful or not, on a book that
    starts empty and with amounts that numbers represent exactly, credits equal
    debits in each currency over the whole book and within every journal. *)
Theorem ledger_keeps_book_balanced (st st' : LedgerState S)
    (Hsteps : rtc ledger_step st st') (Hempty : book_txs (E := E) (ls_book st) = []) :
  balanced (lines (ls_book st')) /\ forall jid, balanced (journal (ls_book st') jid).
Proof using elaws blaws jlaws.
  assert (Hi : book_inv (E := E) (ls_book st)).
  { split; [intros c|intros jid c]; unfold lines, journal; by rewrite Hempty. }
  fold (book_inv (E := E) (ls_book st')). clear Hempty. revert Hi.
  induction Hsteps as [|st1 st2 st3 Hs _ IH]; [done|]. intros Hi.
  by apply IH, (ledger_step_inv _ _ Hs).
Qed.

(** ** On-chain sends *)

Lemma checked_ok {A B} (x : result A) (k : A -> facade S B) st b st' :
  checked x k st = (Ok b, st') -> exists a, x = Ok a /\ k a st = (Ok b, st').
Proof. unfold checked. destruct x; [eauto|done..]. Qed.

Lemma commit_entry_ok entry h pre st j st' : commit_entry entry h pre st = (Ok j, st') ->
  exists saved, book_commit (ls_book st) entry = Some (saved, ls_book st') /\ journalId j = saved_id saved.
Proof.
  unfold commit_entry, persistAndReturnEntry.
  destruct (book_commit _ _) as [[saved b]|]; [|done]. intros [= <- <-]. by exists saved.
Qed.

(** What a bitcoin wallet's on-chain send commits. *)
Lemma onchain_send_entry a st j st' :
  addOnChainTxSend (E := E) a st = (Ok j, st') -> os_walletCurrency a = Btc ->
  sats_ok (os_sats a) (os_bankFee a) ->
  exists ids saved md s f, os_sats a = num s /\ os_bankFee a = num f /\
    legacy_ok (mkAmount f Btc) (mkAmount s Btc) None /\
    journalId j = saved_id saved /\
    book_commit (ls_book st) (legacy_build ids (book_entry (S := S) (E := E) (os_description a)) md
      (mkAmount f Btc) (toLedgerAccountId (os_walletId a)) (mkAmount s Btc) None lndLedgerAccountId None)
    = Some (saved, ls_book st').
Proof.
  intros Hr Hcur (s & f & Hs & Hf & Hf0 & Hss & Hsf & Hd). unfold addOnChainTxSend in Hr.
  assert (Hok : legacy_ok (mkAmount f Btc) (mkAmount s Btc) None) by by split.
  rewrite Hs, Hf, Hcur, num_ltb_num in Hr. destruct (0 <? f) eqn:Hpos.
  - unfold addSendInternalFee in Hr. rewrite decide_False in Hr by (intros Hn; by apply Hn).
    apply with_static_ids_ok in Hr as (ids & st1 & _ & Hb & Hr).
    apply checked_ok in Hr as (fa & Hfa & Hr). rewrite amount_of_num in Hfa. injection Hfa as <-.
    apply checked_ok in Hr as (sa & Hsa & Hr). rewrite amount_of_num in Hsa. injection Hsa as <-.
    rewrite creditLnd_build in Hr by done. simpl in Hr.
    apply commit_entry_ok in Hr as (saved & Hc & Hj). rewrite Hb in Hc.
    by eexists ids, saved, _, s, f.
  - apply Z.ltb_ge in Hpos. assert (f = 0) as -> by lia.
    apply with_static_ids_ok in Hr as (ids & st1 & _ & Hb & Hr).
    apply checked_ok in Hr as (sa & Hsa & Hr). rewrite amount_of_num in Hsa. injection Hsa as <-.
    unfold legacy_withoutFee in Hr. rewrite creditLnd_build in Hr by done. simpl in Hr.
    apply commit_entry_ok in Hr as (saved & Hc & Hj). rewrite Hb in Hc.
    by eexists ids, saved, _, s, 0.
Qed.

(** The sums over the book and over its journals are the same. *)
Definition same_sums (s s' : S) : Prop := forall x c jid,
  net_account x c (lines (E := E) s') = net_account x c (lines (E := E) s) /\
  net_account x c (journal (E := E) s' jid) = net_account x c (journal (E := E) s jid).

Lemma updateJournal_sums s jid k v n s' : k <> "currency" ->
  book_updateJournal s jid (k, v) = Some (n, s') -> same_sums s s'.
Proof using jlaws.
  intros Hk Hu x c i. split.
  - pose proof (updateJournal_nets (fun _ => true) _ _ _ _ _ _ Hk (fun _ => eq_refl) Hu x c)
      as [He _]. by rewrite !filter_all in He.
  - by destruct (updateJournal_nets (fun t => String.eqb (st_journal t) i) _ _ _ _ _ _ Hk
      (fun _ => eq_refl) Hu x c).
Qed.

Lemma set_hash_sums jid h st r st' :
  setOnChainTxSendHash (E := E) jid h st = (r, st') -> same_sums (ls_book st) (ls_book st').
Proof using jlaws.
  unfold setOnChainTxSendHash. destruct (book_updateJournal _ _ _) as [[n b]|] eqn:Hu;
    [|by intros [= _ <-]].
  apply updateJournal_sums in Hu; [|done]. by destruct (negb _); intros [= _ <-].
Qed.

Lemma revert_onchain_nets jid d st st' : revertOnChainPayment (E := E) jid d st = (Ok tt, st') ->
  forall x c, balance_of st' x c = balance_of st x c - net_account x c (journal (ls_book st) jid).
Proof using blaws jlaws.
  unfold revertOnChainPayment. destruct (book_updateJournal _ _ _) as [[n b]|] eqn:Hu; [|done].
  apply updateJournal_sums in Hu; [|done].
  destruct (book_void _ _ _) as [[j b2]|] eqn:Hv; [|done]. intros [= <-] x c.
  destruct (void_appends _ _ _ _ _ Hv) as (new & Hn1 & Hn2 & _). destruct (Hu x c jid) as [Hlines Hjour].
  unfold balance_of, lines, journal in *. simpl.
  rewrite Hn1, fmap_app, net_account_app, Hn2, (list_fmap_compose st_tx reversed), net_account_reversed.
  lia.
Qed.

(** An on-chain send from a bitcoin wallet changes the balances of all accounts by
    exactly the abstract transfer of the satoshis from the wallet to the node with
    the bank fee to the bank owner, and after the hash of its transactions was set,
    with any outcome, and the send was reverted, every balance is what it was
    before. *)
Theorem onchain_send_reverted (a : OnChainSend) (hash reason : string)
    (st st1 st2 st3 : LedgerState S) (j : LedgerJournal) (r : result unit) (s f : Z)
    (Hcur : os_walletCurrency a = Btc) (Hs : os_sats a = num s) (Hf : os_bankFee a = num f)
    (Hok : 0 <= f /\ safe s /\ safe f /\ safe (s - f))
    (Hsend : addOnChainTxSend (E := E) a st = (Ok j, st1))
    (Hhash : setOnChainTxSendHash (E := E) (journalId j) hash st1 = (r, st2))
    (Hrevert : revertOnChainPayment (E := E) (journalId j) reason st2 = (Ok tt, st3)) :
  (exists ids, forall x c, balance_of st1 x c = balance_of st x c +
     transfer ids (mkWithFees ZERO_CENTS (mkAmount s Btc)) (mkBankFee ZERO_CENTS (mkAmount f Btc))
       (mkAccount (toLedgerAccountId (os_walletId a)) Btc) lndLedgerAccountDescriptor x c) /\
  forall x c, balance_of st3 x c = balance_of st x c.
Proof using elaws blaws jlaws.
  assert (Hsats : sats_ok (os_sats a) (os_bankFee a)) by (rewrite Hs, Hf; exists s, f; tauto).
  destruct (onchain_send_entry _ _ _ _ Hsend Hcur Hsats)
    as (ids & saved & md & s' & f' & Hs' & Hf' & Hl & Hj & Hc).
  rewrite Hs in Hs'. rewrite Hf in Hf'.
  assert (s' = s) as -> by (pose proof (BigInt_num s); pose proof (BigInt_num s'); congruence).
  assert (f' = f) as -> by (pose proof (BigInt_num f); pose proof (BigInt_num f'); congruence).
  split.
  - exists ids. intros x c. unfold balance_of. rewrite (commit_lines _ _ _ _ Hc), net_account_app.
    rewrite legacy_account by (done || by right). by rewrite (entry_empty (S := S)).
  - intros x c. destruct (set_hash_sums _ _ _ _ _ Hhash x c (journalId j)) as [Hlines Hjour].
    rewrite (revert_onchain_nets _ _ _ _ Hrevert), Hjour. unfold balance_of, journal. rewrite Hlines.
    rewrite Hj, (journal_lines _ _ _ _ Hc), (commit_lines _ _ _ _ Hc), net_account_app. lia.
Qed.

(** ** The escrow *)

Lemma raw_account x c (e : E) acc n m :
  net_account x c (entry_transactions (entry_credit e acc n m)) =
    net_account x c (entry_transactions e) + tx_net_account x c (mkTx acc (num 0) n m) /\
  net_account x c (entry_transactions (entry_debit e acc n m)) =
    net_account x c (entry_transactions e) + tx_net_account x c (mkTx acc n (num 0) m).
Proof using elaws.
  unfold net_account. rewrite transactions_credit, transactions_debit, !sumZ_app, !sumZ_cons.
  change (sumZ _ []) with 0. lia.
Qed.

Lemma escrow_currency acc x y : tx_in_currency Btc (mkTx acc x y escrow_metadata) = true.
Proof. done. Qed.

(** An update of the escrow that succeeds leaves the escrow account at minus the amount
    the node has in escrow, moves the difference to or from the account of the node
    and nothing else between the two, and says that it updated exactly when the
    amounts differed. *)
Theorem escrow_follows_node (amt : Z) (st st' : LedgerState S) (d : escrowData)
    (Hleaf : Forall (fun t => String.prefix (escrowAccountingPath +:+ ":") (tx_account (st_tx t)) = false)
               (book_txs (E := E) (ls_book st)))
    (Hsafe : safe (balance_of st escrowAccountingPath Btc))
    (Hsum : safe (amt + balance_of st escrowAccountingPath Btc))
    (Hrun : updateLndEscrow (E := E) (num amt) st = (Ok d, st')) :
  balance_of st' escrowAccountingPath Btc = - amt /\
  balance_of st' lndAccountingPath Btc + balance_of st' escrowAccountingPath Btc =
    balance_of st lndAccountingPath Btc + balance_of st escrowAccountingPath Btc /\
  escrow_updated d = negb (balance_of st escrowAccountingPath Btc =? - amt).
Proof using elaws blaws jlaws.
  revert Hrun. unfold updateLndEscrow, rejects, getLndEscrowBalance.
  destruct (book_balanceIn _ _ _) as [b|] eqn:Hb; [|done].
  apply balanceIn_net in Hb; [|done..]. fold (balance_of st escrowAccountingPath Btc) in Hb. subst b.
  set (e := balance_of st escrowAccountingPath Btc) in *.
  rewrite num_add_safe by done. rewrite num_eqb_num.
  destruct (amt + e =? 0) eqn:Hz.
  - intros [= <- <-]. fold e. simpl. apply Z.eqb_eq in Hz.
    replace (e =? - amt) with true by (symmetry; apply Z.eqb_eq; lia). split; [lia|done].
  - apply Z.eqb_neq in Hz. rewrite !num_ltb_num.
    change (num_neg (num (amt + e))) with (num (- (amt + e))).
    match goal with |- context [book_commit ?s ?e] => destruct (book_commit s e) as [[j b2]|] eqn:Hc end;
      [|done].
    intros [= <- <-]. unfold balance_of. simpl. rewrite !(commit_lines _ _ _ _ Hc), !net_account_app.
    fold (balance_of st escrowAccountingPath Btc) (balance_of st lndAccountingPath Btc). fold e.
    replace (e =? - amt) with false by (symmetry; apply Z.eqb_neq; lia).
    destruct (0 <? amt + e) eqn:Hp; [|destruct (amt + e <? 0) eqn:Hp2; [|lia]];
      repeat first [rewrite (proj1 (raw_account _ _ _ _ _ _))|rewrite (proj2 (raw_account _ _ _ _ _ _))];
      rewrite (entry_empty (S := S));
      unfold tx_net_account, tx_net, escrowAccountingPath, lndAccountingPath; simpl;
      rewrite !escrow_currency, !num_val_num; change (net_account _ _ []) with 0; lia.
Qed.

End Spec.

(** *** A book as the list of its transactions *)

#[global] Instance list_journals : MediciJournals (list storedTx) (list ledgerTx) := {
  book_updateJournal s jid kv :=
    Some (length (List.filter (fun t => String.eqb (st_journal t) jid && bool_decide (~ has_field kv t)) s),
          (fun t => if String.eqb (st_journal t) jid then set_field kv t else t) <$> s);
  book_balanceIn s acc c := Some (num (net_account acc c (lines (E := list ledgerTx) s)))
}.

#[global] Instance list_journals_laws : MediciJournalsLaws (list storedTx) (list ledgerTx).
Proof. split; simpl; [by intros s jid kv n s' [= _ <-]|by intros s acc c n [= <-]]. Qed.

(** An on-chain send of 9,000 sats with fees of 300 for the miner and 700 for the bank. *)
Definition sample_onchain : OnChainSend :=
  mkOnChainSend "alice" Btc "tmp" "bc1q" "rent" (num 10000) (num 700) (num 3) (num 1000) (num 1) false.

Definition onchain_sent := addOnChainTxSend (E := list ledgerTx) sample_onchain sample_state.
Definition onchain_journal : LedgerJournal :=
  match fst onchain_sent with Ok j => j | _ => mkJournal "" false [] end.
Definition onchain_hashed : LedgerState (list storedTx) :=
  snd (setOnChainTxSendHash (E := list ledgerTx) (journalId onchain_journal) "tx1" (snd onchain_sent)).
Definition onchain_reverted : LedgerState (list storedTx) :=
  snd (revertOnChainPayment (E := list ledgerTx) (journalId onchain_journal) "Protocol error" onchain_hashed).

Lemma onchain_send_reverted_witness :
  balance_of (E := list ledgerTx) (snd onchain_sent) "Liabilities:alice" Btc = -10000 /\
  balance_of (E := list ledgerTx) (snd onchain_sent) "Liabilities:bankowner" Btc = 700 /\
  balance_of (E := list ledgerTx) onchain_reverted "Liabilities:alice" Btc = 0.
Proof.
  split; [vm_compute; reflexivity|]. split; [vm_compute; reflexivity|].
  refine (proj2 (onchain_send_reverted sample_onchain "tx1" "Protocol error" sample_state
    (snd onchain_sent) onchain_hashed onchain_reverted onchain_journal (Ok tt) 10000 700
    eq_refl eq_refl eq_refl _ _ _ _) "Liabilities:alice" Btc); [done|vm_compute; reflexivity..].
Defined.

Lemma escrow_follows_node_witness :
  balance_of (E := list ledgerTx) (snd (updateLndEscrow (E := list ledgerTx) (num 5000) sample_state))
    escrowAccountingPath Btc = -5000.
Proof.
  refine (proj1 (escrow_follows_node 5000 sample_state
    (snd (updateLndEscrow (E := list ledgerTx) (num 5000) sample_state))
    (mkEscrow (num 0) (num 5000) (num 5000) true) _ _ _ _)).
  - constructor.
  - done.
  - done.
  - vm_compute. reflexivity.
Defined.

Lemma ledger_keeps_book_balanced_witness :
  net Btc (lines (E := list ledgerTx) (ls_book onchain_reverted)) = 0.
Proof.
  refine (proj1 (ledger_keeps_book_balanced sample_state onchain_reverted _ eq_refl) Btc).
  apply (rtc_l _ _ (snd onchain_sent)).
  { apply (l_onchain_send _ sample_onchain (Ok onchain_journal));
      [by exists 10000|by exists 10000, 700|vm_compute; reflexivity]. }
  apply (rtc_l _ _ onchain_hashed).
  { apply (l_set_hash _ (journalId onchain_journal) "tx1" (Ok tt)). vm_compute. reflexivity. }
  apply rtc_once, (l_revert_onchain _ (journalId onchain_journal) "Protocol error" (Ok tt)).
  vm_compute. reflexivity.
Defined.

End WritesSpec.
