(* ===== verification/RateLimit.v ===== *)
(** * Rate limits

    [lib/domain/rate-limit/index.js], [lib/services/rate-limit/index.js] and the limits
    of [lib/config/yaml.js].  The counters are kept by the package
    [rate-limiter-flexible]: [Limiter] has the operations the service calls and
    [LimiterLaws] what the package documents of them while the window of a key lasts. *)

From S2P Require Import Prelude Errors.
#[local] Open Scope string_scope.
#[local] Open Scope Z_scope.

(** ** [domain/rate-limit/index.js] *)

Inductive RateLimitName : Type :=
| requestPhoneCodeAttemptPerPhone
| requestPhoneCodeAttemptPerPhoneMinInterval
| requestPhoneCodeAttemptPerIp
| failedLoginAttemptPerPhone
| failedLoginAttemptPerEmailAddress
| failedLoginAttemptPerIp
| invoiceCreate
| invoiceCreateForRecipient
| onChainAddressCreate.

#[global] Instance RateLimitName_eq_dec : EqDecision RateLimitName.
Proof. solve_decision. Defined.

Definition RateLimitPrefix (n : RateLimitName) : string :=
  match n with
  | requestPhoneCodeAttemptPerPhone => "phone_code_attempt_phone_code"
  | requestPhoneCodeAttemptPerPhoneMinInterval => "phone_code_attempt_phone_code_min_interval"
  | requestPhoneCodeAttemptPerIp => "phone_code_attempt_ip"
  | failedLoginAttemptPerPhone => "login_attempt_phone"
  | failedLoginAttemptPerEmailAddress => "login_attempt_email"
  | failedLoginAttemptPerIp => "login_attempt_ip"
  | invoiceCreate => "invoice_create"
  | invoiceCreateForRecipient => "invoice_create_for_recipient"
  | onChainAddressCreate => "onchain_address_create"
  end.

(** [getRateLimits] of the configuration. *)
Record LimitOptions : Type := mkLimitOptions {
  points : Z;
  duration : Z;
  blockDuration : Z
}.

(** The limits of the configuration file, one per getter of [config/yaml.js]. *)
Record RateLimitSettings : Type := mkRateLimits {
  requestPhoneCodePerPhone : LimitOptions;
  requestPhoneCodePerPhoneMinInterval : LimitOptions;
  requestPhoneCodePerIp : LimitOptions;
  loginPerPhone : LimitOptions;
  loginPerEmailAddress : LimitOptions;
  loginPerIp : LimitOptions;
  invoiceCreateAttempt : LimitOptions;
  invoiceCreateForRecipientAttempt : LimitOptions;
  onChainAddressCreateAttempt : LimitOptions
}.

Record RateLimitEntry : Type := mkRateLimitEntry {
  rl_key : string;
  rl_limits : LimitOptions;
  rl_error : ErrClass
}.

(** The limit per email address is that of phones, and so is its error. *)
Definition RateLimitConfig (cfg : RateLimitSettings) (n : RateLimitName) : RateLimitEntry :=
  let entry := mkRateLimitEntry (RateLimitPrefix n) in
  match n with
  | requestPhoneCodeAttemptPerPhone =>
      entry (requestPhoneCodePerPhone cfg) UserPhoneCodeAttemptPhoneRateLimiterExceededError
  | requestPhoneCodeAttemptPerPhoneMinInterval =>
      entry (requestPhoneCodePerPhoneMinInterval cfg)
        UserPhoneCodeAttemptPhoneMinIntervalRateLimiterExceededError
  | requestPhoneCodeAttemptPerIp =>
      entry (requestPhoneCodePerIp cfg) UserPhoneCodeAttemptIpRateLimiterExceededError
  | failedLoginAttemptPerPhone =>
      entry (loginPerPhone cfg) UserLoginPhoneRateLimiterExceededError
  | failedLoginAttemptPerEmailAddress =>
      entry (loginPerPhone cfg) UserLoginPhoneRateLimiterExceededError
  | failedLoginAttemptPerIp =>
      entry (loginPerIp cfg) UserLoginIpRateLimiterExceededError
  | invoiceCreate => entry (invoiceCreateAttempt cfg) InvoiceCreateRateLimiterExceededError
  | invoiceCreateForRecipient =>
      entry (invoiceCreateForRecipientAttempt cfg)
        InvoiceCreateForRecipientRateLimiterExceededError
  | onChainAddressCreate =>
      entry (onChainAddressCreateAttempt cfg) OnChainAddressCreateRateLimiterExceededError
  end.

(** ** The limiter of the package

    A call resolves ([true]) or rejects ([false]).  [lim_used] is the number of points
    consumed for a key in its current window. *)

Class Limiter (S : Type) : Type := {
  lim_consume : LimitOptions -> string -> string -> S -> bool * S;
  lim_delete : string -> string -> S -> bool * S;
  lim_reward : string -> string -> S -> bool * S;
  lim_used : S -> string -> string -> Z
}.

(** Documented: a consumption resolves when a point is left, and then uses it; it is
    rejected otherwise; a reward gives a point back; the keys of a prefix are
    independent of each other and of other prefixes. *)
Class LimiterLaws (S : Type) `{Limiter S} : Prop := {
  consume_resolved o prefix key s s' : lim_consume o prefix key s = (true, s') ->
    lim_used s prefix key < points o /\ lim_used s' prefix key = lim_used s prefix key + 1;
  consume_rejected o prefix key s s' : lim_consume o prefix key s = (false, s') ->
    lim_used s prefix key <= lim_used s' prefix key;
  consume_other o prefix key s b s' p k : lim_consume o prefix key s = (b, s') ->
    (p, k) <> (prefix, key) -> lim_used s' p k = lim_used s p k;
  reward_used prefix key s b s' : lim_reward prefix key s = (b, s') ->
    lim_used s prefix key - 1 <= lim_used s' prefix key;
  reward_other prefix key s b s' p k : lim_reward prefix key s = (b, s') ->
    (p, k) <> (prefix, key) -> lim_used s' p k = lim_used s p k;
  delete_used prefix key s s' : lim_delete prefix key s = (true, s') ->
    lim_used s' prefix key = 0
}.

(** ** [services/rate-limit/index.js] *)

Section Service.
Context {S : Type} `{Limiter S}.

Definition consume (keyPrefix : string) (o : LimitOptions) (key : string) (s : S)
    : result unit * S :=
  let '(resolved, s') := lim_consume o keyPrefix key s in
  (if resolved then Ok tt else Er (new RateLimiterExceededError), s').

(** The message of the error of the store is left out, here and below. *)
Definition reset (keyPrefix key : string) (s : S) : result unit * S :=
  let '(resolved, s') := lim_delete keyPrefix key s in
  (if resolved then Ok tt else Er (new UnknownRateLimitServiceError), s').

Definition reward (keyPrefix key : string) (s : S) : result unit * S :=
  let '(resolved, s') := lim_reward keyPrefix key s in
  (if resolved then Ok tt else Er (new UnknownRateLimitServiceError), s').

Definition consumeLimiter (c : RateLimitEntry) (keyToConsume : string) (s : S)
    : result unit * S :=
  let '(r, s') := consume (rl_key c) (rl_limits c) keyToConsume s in
  (match r with Ok _ => r | _ => Er (new (rl_error c)) end, s').

Definition resetLimiter (c : RateLimitEntry) (keyToConsume : string) (s : S)
    : result unit * S := reset (rl_key c) keyToConsume s.

End Service.

(** Counters of the points of each key satisfy the laws. *)
Definition counters : Type := list (string * string * Z).

Fixpoint counter (s : counters) (prefix key : string) : Z :=
  match s with
  | [] => 0
  | (p, k, n) :: s => if String.eqb p prefix && String.eqb k key then n else counter s prefix key
  end.

#[global] Instance counters_limiter : Limiter counters := {
  lim_consume o prefix key s :=
    if counter s prefix key <? points o
    then (true, (prefix, key, counter s prefix key + 1) :: s) else (false, s);
  lim_delete prefix key s := (true, (prefix, key, 0) :: s);
  lim_reward prefix key s := (true, (prefix, key, counter s prefix key - 1) :: s);
  lim_used := counter
}.

Lemma counter_here s p k n : counter ((p, k, n) :: s) p k = n.
Proof. simpl. by rewrite !String.eqb_refl. Qed.

Lemma counter_other s p k n p' k' : (p', k') <> (p, k) ->
  counter ((p, k, n) :: s) p' k' = counter s p' k'.
Proof.
  intros Hn. simpl. destruct (String.eqb_spec p p') as [->|]; [|done].
  destruct (String.eqb_spec k k') as [->|]; [by destruct Hn|done].
Qed.

#[global] Instance counters_laws : LimiterLaws counters.
Proof.
  split; cbn [lim_consume lim_delete lim_reward lim_used counters_limiter]; intros.
  - destruct (_ <? _) eqn:Hp; simplify_eq. bool_prop. by rewrite counter_here.
  - by destruct (_ <? _); simplify_eq.
  - destruct (_ <? _); simplify_eq; [by rewrite counter_other|done].
  - simplify_eq. by rewrite counter_here.
  - simplify_eq. by rewrite counter_other.
  - simplify_eq. apply counter_here.
Qed.
