(* ===== verification/Programs.v ===== *)
(** * Programs with effects

    An asynchronous program calls services: it is a tree of calls whose branches are the
    possible answers.  The calls are those of a signature [E]: the type of a call is that
    of its answer.  [exec] gives the executions of a program, whatever is answered,
    [follows] says that it respects a protocol, and [interp] runs it with the services
    implemented by programs of another signature. *)

From S2P Require Import Prelude Errors.
#[local] Open Scope list_scope.

(** ** Programs *)

Inductive program (E : Type -> Type) (A : Type) : Type :=
| Ret (a : A)
| Call {X : Type} (c : E X) (k : X -> program E A).
Arguments Ret {E A} a.
Arguments Call {E A X} c k.

Fixpoint pbind {E A B} (p : program E A) (k : A -> program E B) : program E B :=
  match p with
  | Ret a => k a
  | Call c f => Call c (fun x => pbind (f x) k)
  end.

(** [const x = await p; if (x instanceof Error) return x]; a rejection passes
    through. *)
Definition rpbind {E A B} (p : program E (result A)) (k : A -> program E (result B))
    : program E (result B) :=
  pbind p (fun r => match r with
                    | Ok a => k a
                    | Er e => Ret (Er e)
                    | Throw e => Ret (Throw e)
                    end).

Definition do_call {E X} (c : E X) : program E X := Call c Ret.

Notation "'await' x '<-' p ';;' k" := (rpbind p (fun x => k))
  (at level 100, x pattern, p at level 99, k at level 200, right associativity) : js_scope.
Notation "'let!' x '<-' p ';;' k" := (pbind p (fun x => k))
  (at level 100, x pattern, p at level 99, k at level 200, right associativity) : js_scope.

(** ** Executions *)

Inductive happening (E : Type -> Type) : Type :=
| Ev (X : Type) (c : E X) (x : X).
Arguments Ev {E X} c x.

Inductive exec {E A} : program E A -> list (happening E) -> A -> Prop :=
| exec_ret a : exec (Ret a) [] a
| exec_call {X} (c : E X) (x : X) k tr a :
    exec (k x) tr a -> exec (Call c k) (Ev c x :: tr) a.

(** The execution with the answers of an environment. *)
Fixpoint run {E A} (env : forall X, E X -> X) (p : program E A) : list (happening E) * A :=
  match p with
  | Ret a => ([], a)
  | @Call _ _ X c k => let '(tr, a) := run env (k (env X c)) in (Ev c (env X c) :: tr, a)
  end.

Lemma run_exec {E A} (env : forall X, E X -> X) (p : program E A) : exec p (fst (run env p)) (snd (run env p)).
Proof.
  induction p as [a|X c k IH]; simpl; [constructor|].
  specialize (IH (env X c)). destruct (run env (k (env X c))) as [tr a]. by constructor.
Qed.

Lemma run_bind {E A B} (env : forall X, E X -> X) (p : program E A) (k : A -> program E B) :
  run env (pbind p k) =
    (fst (run env p) ++ fst (run env (k (snd (run env p)))), snd (run env (k (snd (run env p))))).
Proof.
  induction p as [a|X c f IH]; simpl; [by destruct (run env (k a))|].
  rewrite IH. by destruct (run env (f (env X c))) as [tr a].
Qed.

(** The first step of an execution. *)
Lemma exec_inv {E A} (p : program E A) tr a :
  exec p tr a ->
  match p with
  | Ret b => tr = [] /\ a = b
  | Call c k => exists x tr', tr = Ev c x :: tr' /\ exec (k x) tr' a
  end.
Proof. destruct 1; eauto. Qed.

(** ** Protocols

    A protocol is a relation between phases and events.  A program follows a
    protocol from a phase when every call it makes is a step of it, whatever is
    answered. *)

Section Protocol.
Context {E : Type -> Type} {P : Type} (step : P -> happening E -> P -> Prop).

Inductive path : P -> list (happening E) -> P -> Prop :=
| path_nil ph : path ph [] ph
| path_cons ph ev ph1 tr ph2 : step ph ev ph1 -> path ph1 tr ph2 -> path ph (ev :: tr) ph2.

Lemma path_app ph tr1 ph1 tr2 ph2 : path ph tr1 ph1 -> path ph1 tr2 ph2 -> path ph (tr1 ++ tr2) ph2.
Proof. induction 1; simpl; [done|]. intros Hp. econstructor; eauto. Qed.

Fixpoint follows {A} (p : program E A) (ph : P) (out : P -> A -> Prop) : Prop :=
  match p with
  | Ret a => out ph a
  | Call c k => forall x, exists ph', step ph (Ev c x) ph' /\ follows (k x) ph' out
  end.

Lemma follows_exec {A} (p : program E A) ph out tr a :
  follows p ph out -> exec p tr a -> exists ph', path ph tr ph' /\ out ph' a.
Proof.
  intros Hf He. revert ph Hf. induction He as [a|X c x k tr a _ IH]; intros ph Hf; simpl in Hf.
  - exists ph. split; [constructor|done].
  - destruct (Hf x) as (ph1 & Hs & Hf1). destruct (IH _ Hf1) as (ph2 & Hp & Ho).
    exists ph2. split; [by econstructor|done].
Qed.

Lemma follows_bind {A B} (p : program E A) (k : A -> program E B) ph mid out :
  follows p ph mid -> (forall ph' a, mid ph' a -> follows (k a) ph' out) ->
  follows (pbind p k) ph out.
Proof.
  revert ph. induction p as [a|X c f IH]; intros ph Hp Hk; simpl in *; [by apply Hk|].
  intros x. destruct (Hp x) as (ph1 & Hs & Hf). exists ph1. split; [done|]. by apply IH.
Qed.

Lemma follows_mono {A} (p : program E A) ph (out out' : P -> A -> Prop) :
  follows p ph out -> (forall ph a, out ph a -> out' ph a) -> follows p ph out'.
Proof.
  revert ph. induction p as [a|X c f IH]; intros ph Hp Hk; simpl in *; [by apply Hk|].
  intros x. destruct (Hp x) as (ph1 & Hs & Hf). exists ph1. split; [done|]. by apply IH.
Qed.

(** The continuation of an awaited program only runs on a value. *)
Lemma follows_rpbind {A B} (p : program E (result A)) (k : A -> program E (result B)) ph mid
    (out : P -> result B -> Prop) :
  follows p ph mid ->
  (forall ph' a, mid ph' (Ok a) -> follows (k a) ph' out) ->
  (forall ph' e, mid ph' (Er e) -> out ph' (Er e)) ->
  (forall ph' e, mid ph' (Throw e) -> out ph' (Throw e)) ->
  follows (rpbind p k) ph out.
Proof.
  intros Hp H1 H2 H3. eapply follows_bind; [exact Hp|]. intros ph' [a|e|e] Hm; simpl; auto.
Qed.

End Protocol.

(** ** Services implemented by programs *)

(** The calls of [p] made by programs of another signature. *)
Fixpoint interp {E F A} (h : forall X, E X -> program F X) (p : program E A) : program F A :=
  match p with
  | Ret a => Ret a
  | @Call _ _ X c k => pbind (h X c) (fun x => interp h (k x))
  end.

(** A program that follows a protocol still does when each call is made by a program
    that takes the step of the call. *)
Lemma follows_interp {E F P A} (stepE : P -> happening E -> P -> Prop)
    (stepF : P -> happening F -> P -> Prop) (h : forall X, E X -> program F X)
    (Hh : forall X (c : E X) ph (Q : X -> P -> Prop),
       (forall x, exists ph', stepE ph (Ev c x) ph' /\ Q x ph') ->
       follows stepF (h X c) ph (fun ph' x => Q x ph'))
    (p : program E A) ph out :
  follows stepE p ph out -> follows stepF (interp h p) ph out.
Proof.
  revert ph. induction p as [a|X c k IH]; intros ph Hf; simpl in *; [done|].
  eapply follows_bind; [apply (Hh X c ph (fun x ph' => follows stepE (k x) ph' out) Hf)|].
  intros ph' x Hk. by apply IH.
Qed.

(** An execution of a program and of what follows it. *)
Lemma exec_bind_inv {E A B} (p : program E A) (k : A -> program E B) tr b :
  exec (pbind p k) tr b -> exists tr1 a tr2, tr = tr1 ++ tr2 /\ exec p tr1 a /\ exec (k a) tr2 b.
Proof.
  revert tr. induction p as [a|X c f IH]; intros tr He; simpl in He.
  - exists [], a, tr. split_and!; [done|constructor|done].
  - apply exec_inv in He as (x & tr' & -> & He). apply IH in He as (tr1 & a & tr2 & -> & H1 & H2).
    exists (Ev c x :: tr1), a, tr2. split_and!; [done|by constructor|done].
Qed.

(** An awaited program ends in an error, which is returned, or goes on. *)
Lemma exec_await_inv {E A B} (p : program E (result A)) (k : A -> program E (result B)) tr r :
  exec (rpbind p k) tr r ->
  (exists r', exec p tr r' /\ is_ok r' = false /\ is_ok r = false) \/
  (exists tr1 a tr2, tr = tr1 ++ tr2 /\ exec p tr1 (Ok a) /\ exec (k a) tr2 r).
Proof.
  unfold rpbind. intros He. apply exec_bind_inv in He as (tr1 & r' & tr2 & -> & H1 & H2).
  destruct r' as [a|e|e]; [right; by exists tr1, a, tr2|left..];
    apply exec_inv in H2 as [-> ->]; rewrite app_nil_r; eauto.
Qed.

(** The trace of a program whose calls are made by the programs of [h]: each call is
    replaced by an execution of its program that gives its answer. *)
Inductive unfolds {E F} (h : forall X, E X -> program F X)
    : list (happening E) -> list (happening F) -> Prop :=
| unfolds_nil : unfolds h [] []
| unfolds_cons X (c : E X) x sub tr tr' :
    exec (h X c) sub x -> unfolds h tr tr' -> unfolds h (Ev c x :: tr) (sub ++ tr').

Lemma exec_interp {E F A} (h : forall X, E X -> program F X) (p : program E A) tr a :
  exec (interp h p) tr a -> exists tr0, exec p tr0 a /\ unfolds h tr0 tr.
Proof.
  revert tr. induction p as [b|X c k IH]; intros tr He; simpl in He.
  - apply exec_inv in He as [-> ->]. exists []. split; constructor.
  - apply exec_bind_inv in He as (tr1 & x & tr2 & -> & H1 & H2).
    apply IH in H2 as (tr0 & He & Hu). exists (Ev c x :: tr0). split; by constructor.
Qed.

Definition made {E F} (h : forall X, E X -> program F X) (sub : list (happening F))
    (ev : happening E) : Prop :=
  match ev with @Ev _ X c x => exec (h X c) sub x end.

Lemma unfolds_in {E F} (h : forall X, E X -> program F X) tr tr' ev :
  unfolds h tr tr' -> ev ∈ tr -> exists sub, made h sub ev /\ forall ev', ev' ∈ sub -> ev' ∈ tr'.
Proof.
  induction 1 as [|Y d y sub tr tr' He Hu IH]; [by intros H%elem_of_nil|].
  rewrite elem_of_cons. intros [->|Hin].
  - exists sub. split; [done|]. intros ev' Hev. apply elem_of_app. by left.
  - destruct (IH Hin) as (sub' & H1 & H2). exists sub'. split; [done|].
    intros ev' Hev. apply elem_of_app. right. auto.
Qed.

(** ** The calls that a program can make *)

Fixpoint calls_only {E A} (P : forall X, E X -> bool) (p : program E A) : Prop :=
  match p with
  | Ret _ => True
  | @Call _ _ X c k => P X c = true /\ forall x, calls_only P (k x)
  end.

Lemma calls_only_bind {E A B} P (p : program E A) (k : A -> program E B) :
  calls_only P p -> (forall a, calls_only P (k a)) -> calls_only P (pbind p k).
Proof. induction p as [a|X c f IH]; simpl; [auto|]. intros [Hc Hf] Hk. split; [done|]. auto. Qed.

Lemma calls_only_mono {E A} (P Q : forall X, E X -> bool) (p : program E A) :
  (forall X c, P X c = true -> Q X c = true) -> calls_only P p -> calls_only Q p.
Proof. intros HPQ. induction p as [a|X c f IH]; simpl; [done|]. intros [Hc Hf]. auto. Qed.

Lemma exec_calls {E A} P (p : program E A) tr a : calls_only P p -> exec p tr a ->
  Forall (fun ev => match ev with @Ev _ X c _ => P X c = true end) tr.
Proof. intros Hp He. induction He; simpl in Hp; constructor; [by destruct Hp|]. destruct Hp. auto. Qed.

(** Takes a program apart, down to its calls. *)
Ltac calls_only_tac :=
  repeat (intros; first
    [ exact I
    | apply calls_only_bind
    | split; [reflexivity|]
    | match goal with
      | |- calls_only _ (match ?r with _ => _ end) => destruct r
      | |- calls_only _ (let '(_, _) := ?r in _) => destruct r
      end
    | progress simpl ]).
