(* ===== verification/Effects.v ===== *)
(** * Effects of the application layer

    The handlers of [lib/app] are asynchronous programs that call repositories,
    the ledger, the lightning node, the lock service and the notifications.  A
    handler is modelled by a tree of calls ([prog]) whose branches are the
    possible answers; prices are read through functions given to the handlers.  An
    execution is a path of the tree with the list of calls
    and answers along it
    ([exec]).  Nothing is assumed of the answers, so what is
    proved of every execution holds whatever the other services do. *)

From S2P Require Import Prelude JsNum Errors Money Ledger PaymentFlow Accounts TxMetadata Facade LedgerService LedgerWrites RateLimit Programs.
#[local] Open Scope string_scope.
#[local] Open Scope list_scope.

(** ** Data exchanged with the services *)

Inductive PaymentSendStatus : Type := Success | Failure | Pending | AlreadyPaid.

#[global] Instance PaymentSendStatus_eq_dec : EqDecision PaymentSendStatus.
Proof. solve_decision. Defined.

(** What the lightning node answers to a payment. *)
Record PayInvoiceResult : Type := mkPayResult {
  roundedUpFee : number;
  revealedPreImage : option string
}.

(** The node service: the public keys of its nodes and the default one. *)
Record LndInfo : Type := mkLnd {
  lnd_pubkeys : list string;
  lnd_defaultPubkey : string
}.

(** The fields of a user the handlers read. *)
Record PhoneMetadata : Type := mkPhoneMetadata {
  pm_carrierType : option (option string);   (* the type of the carrier, when there is one *)
  pm_countryCode : option string
}.
Record User : Type := mkUserRecord {
  u_deviceTokens : list string;
  u_language : string;
  u_id : string;
  u_phone : option string;
  u_phoneMetadata : option PhoneMetadata;
  u_createdAt : Z
}.
(** A user with the fields that payments read, and no others. *)
Definition mkUser (deviceTokens : list string) (language : string) : User :=
  mkUserRecord deviceTokens language "" None None 0.

(** An invoice of a wallet of the bank. *)
Record WalletInvoice : Type := mkWalletInvoice {
  wi_paymentHash : string;
  wi_secret : string;
  wi_selfGenerated : bool;
  wi_pubkey : string;
  wi_usdAmount : option PaymentAmount;
  wi_recipient : WalletDescriptor;
  wi_paid : bool
}.

(** What the node knows of an invoice: [lnInvoiceLookup]. *)
Record LnInvoiceLookup : Type := mkInvoiceLookup {
  il_paymentHash : string;
  il_isSettled : bool;
  il_isHeld : bool;
  il_isCanceled : bool;
  il_roundedDownReceived : number;
  il_description : string
}.

(** An invoice asked of the node, and its answer. *)
Record RegisterInvoiceArgs : Type := mkRegisterArgs {
  ra_paymentHash : string;
  ra_description : string;
  ra_descriptionHash : option string;
  ra_btcPaymentAmount : PaymentAmount;
  ra_sats : number;
  ra_expiresAt : Z
}.
Record RegisteredInvoice : Type := mkRegistered {
  reg_invoice : LnInvoice;
  reg_pubkey : string
}.

(** What the node knows of a payment: [lnPaymentLookup]. *)
Inductive PaymentStatus : Type := PaymentSettled | PaymentFailed | PaymentPending.

#[global] Instance PaymentStatus_eq_dec : EqDecision PaymentStatus.
Proof. solve_decision. Defined.

Record LnPaymentLookup : Type := mkPaymentLookup {
  pl_status : PaymentStatus;
  pl_confirmedDetails : option PayInvoiceResult
}.

(** A transaction of the chain: its outputs in satoshis, with their addresses. *)
Record TxOut : Type := mkTxOut { out_sats : number; out_address : option string }.
Record OnChainTx : Type := mkOnChainTx {
  oct_confirmations : number;
  oct_txHash : string;
  oct_outs : list TxOut;
  oct_fee : number;
  oct_createdAt : Z
}.

(** A wallet with its addresses. *)
Record AddressedWallet : Type := mkAddressed {
  aw_wallet : Wallet;
  aw_onChainAddresses : list string
}.

(** The volume of a wallet, as amounts. *)
Record VolumeAmount : Type := mkVolumeAmount {
  va_outgoing : PaymentAmount;
  va_incoming : PaymentAmount
}.

(** How [redlock] ends acquiring or releasing a lock. *)
Inductive lock_outcome : Type := LockOk | LockExecutionError | LockOtherError.

(** ** Calls *)

Inductive call : Type -> Type :=
(* repositories *)
| WalletFindById (id : string) : call (result Wallet)
| AccountFindById (id : string) : call (result Account)
| UserFindById (id : string) : call (result User)
| InvoiceFindByPaymentHash (hash : string) : call (result WalletInvoice)
| InvoiceMarkAsPaid (hash : string) : call (result unit)
| InvoicePersistNew (i : WalletInvoice) : call (result WalletInvoice)
| InvoiceDeleteByPaymentHash (hash : string) : call (result unit)
| InvoiceYieldPending : call (list WalletInvoice)
| WalletListByAccountId (accountId : string) : call (result (list Wallet))
| WalletFindByAddress (address : string) : call (result Wallet)
| WalletListByAddresses (addresses : list string) : call (result (list AddressedWallet))
| FlowMarkNotPending (walletId hash : string) (inputAmount : Z) : call (result PaymentFlow)
| FlowFindLightning (walletId hash : string) (inputAmount : Z) : call (result PaymentFlow)
| FlowPersistNew (f : PaymentFlow) : call (result PaymentFlow)
| FlowUpdate (f : PaymentFlow) : call unit
| LnPaymentsPersistNew (hash paymentRequest sentFromPubkey : string) : call unit
| AddNewContact (accountId contactUsername : string) : call (result unit)
(* the lightning node *)
| LndService : call (result LndInfo)
| LndPayViaRoutes (hash : string) (rawRoute : RawRoute) (pubkey : option string)
    : call (result PayInvoiceResult)
| LndPayViaPaymentDetails (invoice : LnInvoice) (btcPaymentAmount maxFeeAmount : PaymentAmount)
    : call (result PayInvoiceResult)
| LndCancelInvoice (pubkey hash : string) : call (result unit)
| LndLookupInvoice (pubkey hash : string) : call (result LnInvoiceLookup)
| LndSettleInvoice (pubkey secret : string) : call (result unit)
| LndRegisterInvoice (args : RegisterInvoiceArgs) : call (result RegisteredInvoice)
| LndLookupPayment (pubkey hash : string) : call (result LnPaymentLookup)
| LndFindRouteForInvoice (invoice : LnInvoice) (amt : PaymentAmount)
    : call (result (string * RawRoute))
(* the on-chain wallet of the node, the cold storage and the price *)
| OnChainService : call (result unit)
| OnChainGetBalance : call (result number)
| OnChainGetFeeEstimate (amt : number) (address : string) (targetConfirmations : number)
    : call (result number)
| OnChainPayToAddress (address : string) (amt targetConfirmations : number) (description : string)
    : call (result string)
| OnChainLookupFee (txHash : string) : call (result number)
| OnChainListIncoming (scanDepth : number) : call (result (list OnChainTx))
| ColdStorageService : call (result unit)
| ColdStorageIsWithdrawal (txHash : string) : call (result bool)
| ColdStorageIsDerivedAddress (address : string) : call (result bool)
| ColdStorageLookupFee (txHash : string) : call (result number)
| GetCurrentPrice : call (result number)
(* random bytes, in hexadecimal, and the limits of requests *)
| RandomSecret : call string
| ConsumeLimiter (limit : RateLimitName) (key : string) : call (result unit)
(* the lock service *)
| LockAcquire (resource : string) : call lock_outcome
| LockRelease (resource : string) : call lock_outcome
| SignalAborted : call (option string)
(* the ledger *)
| LedgerVolumeSince (group : TxnGroup) (w : WalletDescriptor) (timestamp : Z)
    : call (result VolumeAmount)
| LedgerIsLnTxRecorded (hash : string) : call (result bool)
| LedgerTransactionsByHash (hash : string) : call (result (list LedgerTx))
| LedgerPendingPaymentsCount (walletId : string) : call (result nat)
| LedgerListPendingPayments (walletId : string) : call (result (list LedgerTx))
| LedgerWalletIdsWithPendingPayments : call (list (option string))
| LedgerNonEndUserWalletIds : call (result (list string))
| LedgerSettlePendingLnPayment (hash : string) : call (result unit)
| LedgerRevertLightningPayment (jid hash : string) : call (result unit)
| LedgerTxVolumeSince (group : TxnGroup) (walletId : string) (timestamp : Z)
    : call (result Volume)
| LedgerBalance (walletId : string) : call (result number)
| LedgerIsOnChainTxRecorded (walletId txHash : string) : call (result bool)
| LedgerIsToHotWalletTxRecorded (txHash : string) : call (result bool)
| LedgerAddOnChainTxSend (a : OnChainSend) : call (result LedgerJournal)
| LedgerSetOnChainTxSendHash (jid newTxHash : string) : call (result unit)
| LedgerRevertOnChainPayment (jid : string) : call (result unit)
| LedgerAddOnChainIntraledger (a : IntraTransfer) (amountDisplay : number)
    (payeeAddresses : list string) (sendAll : bool) : call (result LedgerJournal)
| LedgerAddOnChainTxReceive (a : OnChainReceive) : call (result LedgerJournal)
| LedgerAddColdStorageTxSend (a : ColdStorageTx) : call (result LedgerJournal)
| LedgerWalletBalance (w : WalletDescriptor) : call (result PaymentAmount)
| FacadeRecordSend (description : string) (w : WalletDescriptor) (total : BothAmounts)
    (bankFee : option BothAmounts) (m : metadata) : call (result LedgerJournal)
| FacadeRecordReceive (description : string) (w : WalletDescriptor) (amt : BothAmounts)
    (bankFee : option BothAmounts) (m : metadata) (hash preImage : option string)
    : call (result LedgerJournal)
| FacadeRecordIntraledger (description : string) (sender recipient : WalletDescriptor)
    (amt : BothAmounts) (m : metadata) (additional : option metadata)
    : call (result LedgerJournal)
| FacadeSettlePendingLnSend (hash : string) : call (result unit)
| FacadeRecordLnSendRevert (jid hash : string) : call (result unit)
| FacadeUpdateMetadataByHash (hash : string) (preImage : option string) : call unit
(* notifications, not awaited *)
| NotifyTxReceived (accountId walletId : string) (amt : PaymentAmount) (display : number)
    (hash : option string) (u : User) : call unit.

Abbreviation prog := (program call).
Abbreviation event := (happening call).

(** ** [services/lock/index.js] *)

Definition lock_error {A} (o : lock_outcome) : option (result A) :=
  match o with
  | LockOk => None
  | LockExecutionError => Some (Er (new ResourceAttemptsLockServiceError))
  | LockOtherError => Some (Er (new UnknownLockServiceError))
  end.

(** [redlockClient.using] and the [catch] around it: a rejection of the body is
    turned into an error, and an error of the lock replaces the result. *)
Definition using_lock {A} (path : string) (body : prog (result A)) : prog (result A) :=
  let! acquired <- do_call (LockAcquire path) ;;
  match lock_error acquired with
  | Some r => Ret r
  | None =>
      let! r <- body ;;
      let! released <- do_call (LockRelease path) ;;
      match r, lock_error released with
      | _, Some r' => Ret r'
      | Throw _, None => Ret (Er (new UnknownLockServiceError))
      | _, None => Ret r
      end
  end.

(** A [signal] is given when the lock is already held; it carries the message of its
    error when it is aborted. *)
Definition redlock {A} (path : string) (signal : option (option string))
    (asyncFn : prog (result A)) : prog (result A) :=
  match signal with
  | Some (Some message) => Ret (Er (new_msg ResourceExpiredLockServiceError message))
  | Some None => asyncFn
  | None => using_lock path asyncFn
  end.

Definition getWalletLockResource (path : string) : string := "locks:wallet:" +:+ path.
Definition getPaymentHashLockResource (path : string) : string := "locks:paymenthash:" +:+ path.
Definition getOnChainTxHashLockResource (path : string) : string :=
  "locks:onchaintxhash:" +:+ path.

Definition lockWalletId {A} (walletId : string) (asyncFn : prog (result A))
    : prog (result A) :=
  redlock (getWalletLockResource walletId) None asyncFn.
Definition lockPaymentHash {A} (paymentHash : string) (asyncFn : prog (result A))
    : prog (result A) :=
  redlock (getPaymentHashLockResource paymentHash) None asyncFn.
Definition lockOnChainTxHash {A} (txHash : string) (asyncFn : prog (result A))
    : prog (result A) :=
  redlock (getOnChainTxHashLockResource txHash) None asyncFn.

(** The environment in which every call fails; other environments say what they
    answer and leave the rest to it. *)
Definition failing_env (X : Type) (c : call X) : X :=
  match c in call X return X with
  | FlowUpdate _ | LnPaymentsPersistNew _ _ _ | FacadeUpdateMetadataByHash _ _
  | NotifyTxReceived _ _ _ _ _ _ => tt
  | InvoiceYieldPending => []
  | LedgerWalletIdsWithPendingPayments => []
  | RandomSecret => ""
  | LockAcquire _ | LockRelease _ => LockOtherError
  | SignalAborted => None
  | _ => Er (new UnknownRepositoryError)
  end.

(** A call answered without failure. *)
Definition answered {X} (c : call X) : X -> bool :=
  match c in call X return X -> bool with
  | FlowUpdate _ | LnPaymentsPersistNew _ _ _ | FacadeUpdateMetadataByHash _ _
  | NotifyTxReceived _ _ _ _ _ _ | RandomSecret => fun _ => true
  | InvoiceYieldPending => fun _ => true
  | LedgerWalletIdsWithPendingPayments => fun _ => true
  | LockAcquire _ | LockRelease _ => fun o => match o with LockOk => true | _ => false end
  | SignalAborted => fun a => match a with None => true | Some _ => false end
  | _ => fun x => is_ok x
  end.

(** A section that does not reject, under a lock that is granted. *)
Lemma run_redlock {A} (env : forall X, call X -> X) path (body : prog (result A)) :
  env _ (LockAcquire path) = LockOk -> env _ (LockRelease path) = LockOk ->
  (forall e, snd (run env body) <> Throw e) ->
  run env (redlock path None body) =
    (Ev (LockAcquire path) LockOk :: fst (run env body) ++ [Ev (LockRelease path) LockOk],
     snd (run env body)).
Proof.
  intros Ha Hr Hn. unfold redlock, using_lock. simpl. rewrite Ha. simpl.
  rewrite run_bind. destruct (run env body) as [tr r]. simpl. rewrite Hr.
  destruct r as [a|e|e]; [done..|]. by destruct (Hn e).
Qed.

Lemma run_lockPaymentHash {A} (env : forall X, call X -> X) h (body : prog (result A)) :
  env _ (LockAcquire (getPaymentHashLockResource h)) = LockOk ->
  env _ (LockRelease (getPaymentHashLockResource h)) = LockOk ->
  (forall e, snd (run env body) <> Throw e) ->
  run env (lockPaymentHash h body) =
    (Ev (LockAcquire (getPaymentHashLockResource h)) LockOk ::
     fst (run env body) ++ [Ev (LockRelease (getPaymentHashLockResource h)) LockOk],
     snd (run env body)).
Proof. apply run_redlock. Qed.

(** An execution of a section under a lock. *)
Lemma exec_redlock_inv {A} path (body : prog (result A)) tr r : exec (redlock path None body) tr r ->
  (exists o, tr = [Ev (LockAcquire path) o] /\ is_ok r = false) \/
  exists tr' r' o, tr = Ev (LockAcquire path) LockOk :: tr' ++ [Ev (LockRelease path) o] /\
    exec body tr' r' /\ (r = r' \/ is_ok r = false).
Proof.
  unfold redlock, using_lock. intros He. apply exec_inv in He as (o & tr1 & -> & He). simpl in He.
  destruct o; [right|left; apply exec_inv in He as [-> ->]; by eexists..].
  simpl in He. apply exec_bind_inv in He as (tr' & r' & tr2 & -> & Hb & He).
  apply exec_inv in He as (o & tr3 & -> & He). simpl in He. exists tr', r', o.
  assert (tr3 = [] /\ (r = r' \/ is_ok r = false)) as [-> Hr]; [|by split_and!].
  destruct r' as [x|e|e], o; simpl in He; apply exec_inv in He as [-> ->]; auto.
Qed.

(** ** Protocols of programs with locks *)

Section LockProtocol.
Context {P : Type} (step : P -> event -> P -> Prop).

(** A section under a lock: the lock is acquired or the section is not entered, and
    the lock is released whatever the section answers. *)
Lemma follows_redlock {A} (resource : string) (body : prog (result A)) ph ph1
    (mid out : P -> result A -> Prop) :
  step ph (Ev (LockAcquire resource) LockOk) ph1 ->
  follows step body ph1 mid ->
  (forall o, o <> LockOk -> exists ph', step ph (Ev (LockAcquire resource) o) ph' /\
     forall r, is_ok r = false -> out ph' r) ->
  (forall ph2 a o, mid ph2 a -> exists ph', step ph2 (Ev (LockRelease resource) o) ph' /\
     forall r, (r = a /\ o = LockOk) \/
       (is_ok r = false /\ (o <> LockOk \/ exists e, a = Throw e)) -> out ph' r) ->
  follows step (redlock resource None body) ph out.
Proof.
  intros Ha Hb Hno Hrel. unfold redlock, using_lock. simpl. intros [| |]; simpl.
  2-3: match goal with |- context [Ev _ ?o] => destruct (Hno o) as (ph' & Hs & Ho) end;
       [done|exists ph'; split; [done|by apply Ho]].
  exists ph1. split; [done|]. eapply follows_bind; [exact Hb|]. intros ph2 a Hm. simpl.
  intros o. destruct (Hrel ph2 a o Hm) as (ph' & Hs & Ho). exists ph'. split; [done|].
  destruct a, o; simpl; apply Ho; eauto.
Qed.

End LockProtocol.
