(* ===== verification/Persistence.v ===== *)
(** * Repositories of invoices and of payment flows

    [lib/services/mongoose/wallet-invoices.js], [payment-flow.js] and [utils.js].  A
    collection of the [mongoose] package is a parameter: [Collection] has the operations
    the repositories call, [CollectionLaws] what the package documents of them.  A
    rejected call carries the message of its error and leaves the documents as they
    were. *)

From S2P Require Import Prelude JsNum Errors Money Regex PaymentFlow Ledger Validation Accounts TxMetadata Facade LedgerService Programs Effects.
#[local] Open Scope string_scope.
#[local] Open Scope Z_scope.
#[local] Open Scope list_scope.

(** ** Collections *)

Inductive db (A : Type) : Type :=
| Done (a : A)
| Rejected (message : string).
Arguments Done {A} a.
Arguments Rejected {A} message.

Class Collection (C D : Type) : Type := {
  coll_docs : C -> list D;
  (** [new Model(doc).save()] *)
  coll_save : C -> D -> db C;
  (** [Model.findOne(query)] *)
  coll_findOne : C -> (D -> bool) -> db (option D);
  (** [Model.findOneAndUpdate(query, update, { new: true })] *)
  coll_findOneAndUpdate : C -> (D -> bool) -> (D -> D) -> db (option D * C);
  (** [Model.findOneAndUpdate(query, update)]: the document before the update *)
  coll_findOneAndUpdateOld : C -> (D -> bool) -> (D -> D) -> db (option D * C);
  (** [Model.findOneAndUpdate(query, doc, { upsert: true, new: true })]: the update of a
      document and the one inserted when there is none *)
  coll_upsert : C -> (D -> bool) -> (D -> D) -> D -> db (D * C);
  (** [Model.updateOne(query, update)] with [matchedCount] and [modifiedCount] *)
  coll_updateOne : C -> (D -> bool) -> (D -> D) -> db (nat * nat * C);
  (** [Model.find(query)], the documents of its cursor, or awaited as a list *)
  coll_find : C -> (D -> bool) -> list D;
  coll_list : C -> (D -> bool) -> db (list D);
  (** [Model.deleteOne(query)] and [Model.deleteMany(query)] with [deletedCount] *)
  coll_deleteOne : C -> (D -> bool) -> db (nat * C);
  coll_deleteMany : C -> (D -> bool) -> db (nat * C)
}.

Class CollectionLaws (C D : Type) `{Collection C D} : Prop := {
  save_adds (c : C) (d : D) c' : coll_save c d = Done c' -> coll_docs c' = coll_docs c ++ [d];
  findOne_some (c : C) q (d : D) : coll_findOne c q = Done (Some d) ->
    In d (coll_docs c) /\ q d = true;
  findOne_none (c : C) q : coll_findOne c q = Done (@None D) ->
    forall d, In d (coll_docs c) -> q d = false;
  find_docs (c : C) q : coll_find c q = List.filter q (coll_docs c);
  update_some (c : C) q u (d' : D) c' : coll_findOneAndUpdate c q u = Done (Some d', c') ->
    exists l1 d l2, coll_docs c = l1 ++ d :: l2 /\ q d = true /\ d' = u d /\
      coll_docs c' = l1 ++ d' :: l2;
  update_none (c : C) q u c' : coll_findOneAndUpdate c q u = Done (@None D, c') ->
    coll_docs c' = coll_docs c /\ forall d, In d (coll_docs c) -> q d = false;
  list_docs (c : C) q (l : list D) : coll_list c q = Done l -> l = List.filter q (coll_docs c);
  updateOld_some (c : C) q u (d : D) c' : coll_findOneAndUpdateOld c q u = Done (Some d, c') ->
    exists l1 l2, coll_docs c = l1 ++ d :: l2 /\ q d = true /\ coll_docs c' = l1 ++ u d :: l2;
  updateOld_none (c : C) q u c' : coll_findOneAndUpdateOld c q u = Done (@None D, c') ->
    coll_docs c' = coll_docs c /\ forall d, In d (coll_docs c) -> q d = false;
  upsert_docs (c : C) q u d0 (d' : D) c' : coll_upsert c q u d0 = Done (d', c') ->
    (exists l1 d l2, coll_docs c = l1 ++ d :: l2 /\ q d = true /\ d' = u d /\
       coll_docs c' = l1 ++ d' :: l2) \/
    (d' = d0 /\ coll_docs c' = coll_docs c ++ [d0] /\
     forall d, In d (coll_docs c) -> q d = false);
  updateOne_docs (c : C) (q : D -> bool) u matched modified c' :
    coll_updateOne c q u = Done (matched, modified, c') ->
    (matched = O /\ coll_docs c' = coll_docs c /\ forall d, In d (coll_docs c) -> q d = false) \/
    exists l1 d l2, matched = 1%nat /\ coll_docs c = l1 ++ d :: l2 /\ q d = true /\
      coll_docs c' = l1 ++ u d :: l2;
  deleteOne_docs (c : C) (q : D -> bool) n c' : coll_deleteOne c q = Done (n, c') ->
    (n = O /\ coll_docs c' = coll_docs c /\ forall d, In d (coll_docs c) -> q d = false) \/
    exists l1 d l2, n = 1%nat /\ coll_docs c = l1 ++ d :: l2 /\ q d = true /\
      coll_docs c' = l1 ++ l2;
  deleteMany_docs (c : C) (q : D -> bool) n c' : coll_deleteMany c q = Done (n, c') ->
    coll_docs c' = List.filter (fun d => negb (q d)) (coll_docs c) /\
    n = length (List.filter q (coll_docs c))
}.

(** ** [utils.js] *)

(** [message.includes(part)]. *)
Fixpoint str_includes (part s : string) : bool :=
  String.prefix part s ||
  match s with EmptyString => false | String _ s' => str_includes part s' end.

(** [/connection .+ to .+ closed/.test(message)]; a dot is no line break. *)
Definition dot : regex :=
  Cls (fun c => negb (Ascii.eqb c (Ascii.ascii_of_nat 10)) && negb (Ascii.eqb c (Ascii.ascii_of_nat 13))).
Definition closedRegex : regex :=
  Cat (Star (Cls (fun _ => true)))
    (Cat (lit "connection ") (Cat (one_or_more dot) (Cat (lit " to ")
      (Cat (one_or_more dot) (Cat (lit " closed") (Star (Cls (fun _ => true)))))))).

Definition parseRepositoryError (message : string) : error :=
  if str_includes "MongoNetworkTimeoutError: connection timed out" message
     || str_includes "MongooseServerSelectionError: connection timed out" message
     || str_includes "MongooseServerSelectionError: getaddrinfo ENOTFOUND" message
     || str_includes "MongooseServerSelectionError: connect ECONNREFUSED" message
  then new CannotConnectToDbError
  else if accepts closedRegex message then new DbConnectionClosedError
  else new_msg UnknownRepositoryError message.

(** ** [wallet-invoices.js] *)

Module InvoiceRepo.

(** A stored invoice; [timestamp] is set when it is created. *)
Record RawInvoice : Type := mkRaw {
  raw_id : string;
  raw_secret : string;
  raw_walletId : string;
  raw_selfGenerated : bool;
  raw_pubkey : string;
  raw_paid : bool;
  raw_cents : option number;
  raw_currency : WalletCurrency;
  raw_timestamp : Z
}.

(** [BigInt(result.cents)] raises on a number that is no integer. *)
Definition walletInvoiceFromRaw (r : RawInvoice) : result WalletInvoice :=
  let invoice usd := mkWalletInvoice (raw_id r) (raw_secret r) (raw_selfGenerated r) (raw_pubkey r)
                       usd (mkWallet (raw_walletId r) (raw_currency r)) (raw_paid r) in
  match raw_cents r with
  | Some c => if num_truthy c then
                match BigInt c with
                | Some z => Ok (invoice (Some (UsdPaymentAmount z)))
                | None => Throw (new JsRangeError)
                end
              else Ok (invoice None)
  | None => Ok (invoice None)
  end.

(** What a [try] block of the repository gives: the message of the error of
    [BigInt], which [parseRepositoryError] does not know, is left out. *)
Definition caught (r : result WalletInvoice) : result WalletInvoice :=
  match r with Throw _ => Er (new UnknownRepositoryError) | r => r end.

Definition raw_of (now : Z) (i : WalletInvoice) : RawInvoice :=
  mkRaw (wi_paymentHash i) (wi_secret i) (wd_id (wi_recipient i)) (wi_selfGenerated i)
    (wi_pubkey i) (wi_paid i)
    (match wi_usdAmount i with Some a => Some (Number (amount a)) | None => None end)
    (wd_currency (wi_recipient i)) now.

Definition with_id (hash : string) (r : RawInvoice) : bool := String.eqb (raw_id r) hash.
Definition set_paid (r : RawInvoice) : RawInvoice :=
  mkRaw (raw_id r) (raw_secret r) (raw_walletId r) (raw_selfGenerated r) (raw_pubkey r) true
    (raw_cents r) (raw_currency r) (raw_timestamp r).

Section Repo.
Context {C : Type} `{Collection C RawInvoice}.

Definition persistNew (now : Z) (i : WalletInvoice) (c : C) : result WalletInvoice * C :=
  match coll_save c (raw_of now i) with
  | Done c' => (caught (walletInvoiceFromRaw (raw_of now i)), c')
  | Rejected m => (Er (parseRepositoryError m), c)
  end.

Definition markAsPaid (paymentHash : string) (c : C) : result WalletInvoice * C :=
  match coll_findOneAndUpdate c (with_id paymentHash) set_paid with
  | Done (None, c') => (Er (new CouldNotFindWalletInvoiceError), c')
  | Done (Some d, c') => (caught (walletInvoiceFromRaw d), c')
  | Rejected m => (Er (parseRepositoryError m), c)
  end.

Definition findByPaymentHash (paymentHash : string) (c : C) : result WalletInvoice * C :=
  match coll_findOne c (with_id paymentHash) with
  | Done None => (Er (new_msg CouldNotFindWalletInvoiceError paymentHash), c)
  | Done (Some d) => (caught (walletInvoiceFromRaw d), c)
  | Rejected m => (Er (parseRepositoryError m), c)
  end.

(** The invoices yielded; the generator stops where a document cannot be read. *)
Fixpoint yield_all (l : list RawInvoice) : list WalletInvoice :=
  match l with
  | [] => []
  | r :: l => match walletInvoiceFromRaw r with Ok i => i :: yield_all l | _ => [] end
  end.

Definition yieldPending (c : C) : list WalletInvoice :=
  yield_all (coll_find c (fun r => negb (raw_paid r))).

Definition deleteByPaymentHash (paymentHash : string) (c : C) : result unit * C :=
  match coll_deleteOne c (with_id paymentHash) with
  | Done (deletedCount, c') =>
      if Nat.eqb deletedCount 0 then (Er (new_msg CouldNotFindWalletInvoiceError paymentHash), c')
      else (Ok tt, c')
  | Rejected _ => (Er (new RepositoryError), c)
  end.

Definition deleteUnpaidOlderThan (before : Z) (c : C) : result nat * C :=
  match coll_deleteMany c (fun r => (raw_timestamp r <? before) && negb (raw_paid r)) with
  | Done (deletedCount, c') => (Ok deletedCount, c')
  | Rejected _ => (Er (new RepositoryError), c)
  end.
End Repo.

End InvoiceRepo.

(** ** [payment-flow.js] *)

Module FlowRepo.

(** A stored flow, with the fields of the schema: [skipProbeForDestination] is not one
    of them, so that it is not stored and is undefined, hence falsy, when a document is
    read back. *)
Record RawFlow : Type := mkRawFlow {
  rf_paymentHash : option string;
  rf_intraLedgerHash : option string;
  rf_senderWalletId : string;
  rf_senderWalletCurrency : WalletCurrency;
  rf_senderAccountId : string;
  rf_settlementMethod : SettlementMethod;
  rf_paymentInitiationMethod : PaymentInitiationMethod;
  rf_descriptionFromInvoice : string;
  rf_createdAt : Z;
  rf_paymentSentAndPending : bool;
  rf_btcPaymentAmount : number;
  rf_usdPaymentAmount : number;
  rf_inputAmount : number;
  rf_btcProtocolFee : number;
  rf_usdProtocolFee : number;
  rf_recipientWalletId : option string;
  rf_recipientWalletCurrency : option WalletCurrency;
  rf_recipientAccountId : option string;
  rf_recipientPubkey : option string;
  rf_recipientUsername : option string;
  rf_outgoingNodePubkey : option string;
  rf_cachedRoute : option RawRoute
}.

(** The hash of an object: the payment hash when it is truthy, otherwise the other. *)
Definition hash_pair (paymentHash intraLedgerHash : option string)
    : result (option string * option string) :=
  if str_truthy paymentHash then Ok (paymentHash, None)
  else if str_truthy intraLedgerHash then Ok (None, intraLedgerHash)
  else Er (new_msg InvalidLightningPaymentFlowStateError
             "Missing valid 'paymentHash' or 'intraLedgerHash'").

(** [x || undefined]. *)
Definition or_undefined (s : option string) : option string := if str_truthy s then s else None.

Definition paymentFlowFromRaw (r : RawFlow) : result PaymentFlow :=
  let* inputAmount := safeBigInt (Some (rf_inputAmount r)) in
  let* hash := hash_pair (rf_paymentHash r) (rf_intraLedgerHash r) in
  let* btcPaymentAmount := paymentAmountFromNumber (Some (rf_btcPaymentAmount r)) Btc in
  let* usdPaymentAmount := paymentAmountFromNumber (Some (rf_usdPaymentAmount r)) Usd in
  let* btcProtocolFee := paymentAmountFromNumber (Some (rf_btcProtocolFee r)) Btc in
  let* usdProtocolFee := paymentAmountFromNumber (Some (rf_usdProtocolFee r)) Usd in
  Ok (mkPaymentFlow (fst hash) (snd hash) (rf_senderWalletId r) (rf_senderWalletCurrency r)
        (rf_senderAccountId r) (or_undefined (rf_recipientWalletId r))
        (rf_recipientWalletCurrency r) (or_undefined (rf_recipientAccountId r))
        (or_undefined (rf_recipientPubkey r)) (or_undefined (rf_recipientUsername r))
        (rf_descriptionFromInvoice r) false btcPaymentAmount
        usdPaymentAmount inputAmount (rf_createdAt r) (rf_paymentSentAndPending r)
        (rf_settlementMethod r) (rf_paymentInitiationMethod r) btcProtocolFee usdProtocolFee
        (or_undefined (rf_outgoingNodePubkey r)) (rf_cachedRoute r)).

Definition rawFromPaymentFlow (f : PaymentFlow) : result RawFlow :=
  let* hash := hash_pair (pf_paymentHash f) (pf_intraLedgerHash f) in
  Ok (mkRawFlow (fst hash) (snd hash) (pf_senderWalletId f) (pf_senderWalletCurrency f)
        (pf_senderAccountId f) (pf_settlementMethod f) (pf_paymentInitiationMethod f)
        (pf_descriptionFromInvoice f) (pf_createdAt f)
        (pf_paymentSentAndPending f) (Number (amount (pf_btcPaymentAmount f)))
        (Number (amount (pf_usdPaymentAmount f))) (Number (pf_inputAmount f))
        (Number (amount (pf_btcProtocolFee f))) (Number (amount (pf_usdProtocolFee f)))
        (pf_recipientWalletId f) (pf_recipientWalletCurrency f) (pf_recipientAccountId f)
        (pf_recipientPubkey f) (pf_recipientUsername f) (pf_outgoingNodePubkey f)
        (pf_cachedRoute f)).

(** A query by hash, wallet and amount: a field that is not in the query matches. *)
Definition field_matches (q v : option string) : bool :=
  match q with Some _ => bool_decide (v = q) | None => true end.

Definition index_query (hash : option string * option string) (walletId : string)
    (inputAmount : Z) (r : RawFlow) : bool :=
  field_matches (fst hash) (rf_paymentHash r) && field_matches (snd hash) (rf_intraLedgerHash r)
  && String.eqb (rf_senderWalletId r) walletId
  && num_eqb (rf_inputAmount r) (Number inputAmount).

(** [elapsedSinceTimestamp] of [utils/index.js], in seconds. *)
Definition elapsedSinceTimestamp (now date : Z) : number :=
  num_div (num (now - date)) (num 1000).

Definition isExpired (now expiryTimeInSeconds : Z) (f : PaymentFlow) : bool :=
  if pf_paymentSentAndPending f then false
  else num_ltb (num expiryTimeInSeconds) (elapsedSinceTimestamp now (pf_createdAt f)).

Definition set_not_pending (r : RawFlow) : RawFlow :=
  mkRawFlow (rf_paymentHash r) (rf_intraLedgerHash r) (rf_senderWalletId r)
    (rf_senderWalletCurrency r) (rf_senderAccountId r) (rf_settlementMethod r)
    (rf_paymentInitiationMethod r) (rf_descriptionFromInvoice r)
    (rf_createdAt r) false (rf_btcPaymentAmount r) (rf_usdPaymentAmount r) (rf_inputAmount r)
    (rf_btcProtocolFee r) (rf_usdProtocolFee r) (rf_recipientWalletId r)
    (rf_recipientWalletCurrency r) (rf_recipientAccountId r) (rf_recipientPubkey r)
    (rf_recipientUsername r) (rf_outgoingNodePubkey r) (rf_cachedRoute r).

(** The update by a document: fields that are undefined in it are left as they were. *)
Definition keep {A} (new old : option A) : option A := match new with Some _ => new | None => old end.
Definition update_with (n r : RawFlow) : RawFlow :=
  mkRawFlow (keep (rf_paymentHash n) (rf_paymentHash r))
    (keep (rf_intraLedgerHash n) (rf_intraLedgerHash r)) (rf_senderWalletId n)
    (rf_senderWalletCurrency n) (rf_senderAccountId n) (rf_settlementMethod n)
    (rf_paymentInitiationMethod n) (rf_descriptionFromInvoice n)
    (rf_createdAt n) (rf_paymentSentAndPending n) (rf_btcPaymentAmount n) (rf_usdPaymentAmount n)
    (rf_inputAmount n) (rf_btcProtocolFee n) (rf_usdProtocolFee n)
    (keep (rf_recipientWalletId n) (rf_recipientWalletId r))
    (keep (rf_recipientWalletCurrency n) (rf_recipientWalletCurrency r))
    (keep (rf_recipientAccountId n) (rf_recipientAccountId r))
    (keep (rf_recipientPubkey n) (rf_recipientPubkey r))
    (keep (rf_recipientUsername n) (rf_recipientUsername r))
    (keep (rf_outgoingNodePubkey n) (rf_outgoingNodePubkey r))
    (keep (rf_cachedRoute n) (rf_cachedRoute r)).

Section Repo.
Context {C : Type} `{Collection C RawFlow} (now expiryTimeInSeconds : Z).

Definition persistNewFlow (f : PaymentFlow) (c : C) : result PaymentFlow * C :=
  match rawFromPaymentFlow f with
  | Ok raw =>
      match coll_save c raw with
      | Done c' => (paymentFlowFromRaw raw, c')
      | Rejected m => (Er (parseRepositoryError m), c)
      end
  | Er e => (Er e, c)
  | Throw e => (Throw e, c)
  end.

Definition deleteLightningPaymentFlow (walletId : string) (hash : option string * option string)
    (inputAmount : Z) (c : C) : result unit * C :=
  match coll_deleteOne c (index_query hash walletId inputAmount) with
  | Done (deletedCount, c') =>
      if Nat.eqb deletedCount 0 then (Er (new CouldNotFindLightningPaymentFlowError), c')
      else (Ok tt, c')
  | Rejected _ => (Er (new UnknownRepositoryError), c)
  end.

(** The deletion of an expired flow is not awaited: its outcome is ignored.  The
    message of [BadInputsForFindError], the arguments in JSON, is left out. *)
Definition findLightningPaymentFlow (walletId : string) (paymentHash intraLedgerHash : option string)
    (inputAmount : Z) (c : C) : result PaymentFlow * C :=
  match hash_pair paymentHash intraLedgerHash with
  | Er _ => (Er (new BadInputsForFindError), c)
  | Throw e => (Throw e, c)
  | Ok hash =>
      match coll_findOne c (index_query hash walletId inputAmount) with
      | Rejected m => (Er (parseRepositoryError m), c)
      | Done None => (Er (new CouldNotFindLightningPaymentFlowError), c)
      | Done (Some raw) =>
          match paymentFlowFromRaw raw with
          | Ok f =>
              if isExpired now expiryTimeInSeconds f
              then (Er (new CouldNotFindLightningPaymentFlowError),
                    snd (deleteLightningPaymentFlow walletId hash inputAmount c))
              else (Ok f, c)
          | Er e => (Er e, c)
          | Throw e => (Throw e, c)
          end
      end
  end.

(** [{ paymentHash: undefined }] in a query of [updateLightningPaymentFlow] matches
    documents without the field. *)
Definition updateLightningPaymentFlow (f : PaymentFlow) (c : C) : result unit * C :=
  match rawFromPaymentFlow f with
  | Er e => (Er e, c)
  | Throw e => (Throw e, c)
  | Ok raw =>
      match coll_findOneAndUpdate c
              (fun r => bool_decide (rf_paymentHash r = pf_paymentHash f)
                        && String.eqb (rf_senderWalletId r) (pf_senderWalletId f)
                        && num_eqb (rf_inputAmount r) (Number (pf_inputAmount f)))
              (update_with raw) with
      | Rejected m => (Er (parseRepositoryError m), c)
      | Done (None, c') => (Er (new CouldNotUpdateLightningPaymentFlowError), c')
      | Done (Some _, c') => (Ok tt, c')
      end
  end.

Definition markLightningPaymentFlowNotPending (walletId : string)
    (paymentHash intraLedgerHash : option string) (inputAmount : Z) (c : C)
    : result PaymentFlow * C :=
  match hash_pair paymentHash intraLedgerHash with
  | Er e => (Er e, c)
  | Throw e => (Throw e, c)
  | Ok hash =>
      match coll_findOneAndUpdate c (index_query hash walletId inputAmount) set_not_pending with
      | Rejected m => (Er (parseRepositoryError m), c)
      | Done (None, c') => (Er (new CouldNotUpdateLightningPaymentFlowError), c')
      | Done (Some raw, c') => (paymentFlowFromRaw raw, c')
      end
  end.

Definition deleteExpiredLightningPaymentFlows (c : C) : result nat * C :=
  let timestampExpired := now - expiryTimeInSeconds * 1000 in
  match coll_deleteMany c (fun r => (rf_createdAt r <=? timestampExpired)
                                    && negb (rf_paymentSentAndPending r)) with
  | Done (deletedCount, c') =>
      if Nat.eqb deletedCount 0 then (Er (new NoExpiredLightningPaymentFlowsError), c')
      else (Ok deletedCount, c')
  | Rejected _ => (Er (new UnknownRepositoryError), c)
  end.
End Repo.

End FlowRepo.

(** ** Properties *)

Module RepoSpec.
#[local] Arguments Number : simpl never.
#[local] Arguments safeBigInt : simpl never.
#[local] Arguments paymentAmountFromNumber : simpl never.
#[local] Arguments FlowRepo.hash_pair : simpl never.

(** *** Payment flows *)

(** Flows whose amounts are exactly representable, with one hash and no empty text. *)
Record storable (f : PaymentFlow) : Prop := {
  sto_hash : (str_truthy (pf_paymentHash f) = true /\ pf_intraLedgerHash f = None) \/
             (pf_paymentHash f = None /\ str_truthy (pf_intraLedgerHash f) = true);
  sto_btc : currency (pf_btcPaymentAmount f) = Btc /\ safe (amount (pf_btcPaymentAmount f));
  sto_usd : currency (pf_usdPaymentAmount f) = Usd /\ safe (amount (pf_usdPaymentAmount f));
  sto_btcFee : currency (pf_btcProtocolFee f) = Btc /\ safe (amount (pf_btcProtocolFee f));
  sto_usdFee : currency (pf_usdProtocolFee f) = Usd /\ safe (amount (pf_usdProtocolFee f));
  sto_input : safe (pf_inputAmount f);
  sto_texts : Forall (fun s => s <> Some ""%string)
    [pf_recipientWalletId f; pf_recipientAccountId f; pf_recipientPubkey f;
     pf_recipientUsername f; pf_outgoingNodePubkey f]
}.

(** The flow as it is read back. *)
Definition reread (f : PaymentFlow) : PaymentFlow :=
  mkPaymentFlow (pf_paymentHash f) (pf_intraLedgerHash f) (pf_senderWalletId f)
    (pf_senderWalletCurrency f) (pf_senderAccountId f) (pf_recipientWalletId f)
    (pf_recipientWalletCurrency f) (pf_recipientAccountId f) (pf_recipientPubkey f)
    (pf_recipientUsername f) (pf_descriptionFromInvoice f) false
    (pf_btcPaymentAmount f) (pf_usdPaymentAmount f) (pf_inputAmount f) (pf_createdAt f)
    (pf_paymentSentAndPending f) (pf_settlementMethod f) (pf_paymentInitiationMethod f)
    (pf_btcProtocolFee f) (pf_usdProtocolFee f) (pf_outgoingNodePubkey f) (pf_cachedRoute f).

Lemma safeBigInt_Number z : safe z -> safeBigInt (Some (Number z)) = Ok z.
Proof. intros Hs. unfold safeBigInt. by rewrite Number_safe, BigInt_num. Qed.

Lemma amount_Number a c : currency a = c /\ safe (amount a) ->
  paymentAmountFromNumber (Some (Number (amount a))) c = Ok a.
Proof.
  intros [<- Hs]. unfold paymentAmountFromNumber. rewrite safeBigInt_Number by done.
  by destruct a.
Qed.

Lemma or_undefined_id s : s <> Some ""%string -> FlowRepo.or_undefined s = s.
Proof. by destruct s as [[|]|]. Qed.

Lemma hash_pair_id f : storable f ->
  FlowRepo.hash_pair (pf_paymentHash f) (pf_intraLedgerHash f) =
    Ok (pf_paymentHash f, pf_intraLedgerHash f).
Proof.
  intros [[[H1 ->]|[-> H1]] _ _ _ _ _ _]; unfold FlowRepo.hash_pair; by rewrite H1.
Qed.

Lemma flow_raw f : storable f -> exists raw,
  FlowRepo.rawFromPaymentFlow f = Ok raw /\ FlowRepo.paymentFlowFromRaw raw = Ok (reread f) /\
  FlowRepo.index_query (pf_paymentHash f, pf_intraLedgerHash f) (pf_senderWalletId f)
    (pf_inputAmount f) raw = true.
Proof.
  intros Hf. pose proof (hash_pair_id f Hf) as Hh. destruct Hf as [_ Hb Hu Hbf Huf Hi Ht].
  unfold FlowRepo.rawFromPaymentFlow. rewrite Hh. eexists. split; [done|].
  split.
  - unfold FlowRepo.paymentFlowFromRaw. simpl.
    rewrite safeBigInt_Number by done. simpl. rewrite Hh. simpl.
    rewrite !amount_Number by done. simpl.
    repeat (apply Forall_cons in Ht as [? Ht]). by rewrite !or_undefined_id.
  - unfold FlowRepo.index_query. simpl. rewrite String.eqb_refl, Number_safe, num_eqb_num by done.
    rewrite Z.eqb_refl. unfold FlowRepo.field_matches.
    destruct (pf_paymentHash f), (pf_intraLedgerHash f); simpl; by rewrite ?bool_decide_eq_true_2.
Qed.

Section Flows.
Context {C : Type} `{Collection C FlowRepo.RawFlow} {laws : CollectionLaws C FlowRepo.RawFlow}.

(** A payment flow that was stored in a collection without another one of its hash,
    wallet and amount is found again by them with every field as it was but the flag
    to skip the probe, which is read as false, until it expires, after which it is
    not found; the stored document is what persistNew returns. *)
Theorem stored_flow_found (now expiry : Z) (f g : PaymentFlow) (c c1 : C)
    (Hf : storable f)
    (Hnew : forall r, In r (coll_docs c) ->
       FlowRepo.index_query (pf_paymentHash f, pf_intraLedgerHash f) (pf_senderWalletId f)
         (pf_inputAmount f) r = false)
    (Hsave : FlowRepo.persistNewFlow f c = (Ok g, c1)) :
  g = reread f /\
  forall q, coll_findOne c1 (FlowRepo.index_query (pf_paymentHash f, pf_intraLedgerHash f)
    (pf_senderWalletId f) (pf_inputAmount f)) = Done q ->
  fst (FlowRepo.findLightningPaymentFlow now expiry (pf_senderWalletId f) (pf_paymentHash f)
    (pf_intraLedgerHash f) (pf_inputAmount f) c1) =
  if FlowRepo.isExpired now expiry (reread f) then Er (new CouldNotFindLightningPaymentFlowError)
  else Ok (reread f).
Proof using laws.
  destruct (flow_raw f Hf) as (raw & Hraw & Hback & Hq).
  unfold FlowRepo.persistNewFlow in Hsave. rewrite Hraw in Hsave.
  destruct (coll_save c raw) as [c'|m] eqn:Hs; [|done].
  rewrite Hback in Hsave. injection Hsave as <- ->. split; [done|].
  intros q Hfind. unfold FlowRepo.findLightningPaymentFlow. rewrite (hash_pair_id f Hf), Hfind.
  pose proof (save_adds _ _ _ Hs) as Hdocs. destruct q as [d|].
  - destruct (findOne_some _ _ _ Hfind) as [Hin Hd]. rewrite Hdocs in Hin.
    apply in_app_or in Hin as [Hin|[<-|[]]]; [by rewrite (Hnew _ Hin) in Hd|].
    rewrite Hback. by destruct (FlowRepo.isExpired _ _ _).
  - exfalso. pose proof (findOne_none _ _ Hfind raw) as Hn. rewrite Hdocs in Hn.
    rewrite Hn in Hq; [done|]. apply in_or_app. right. by left.
Qed.
End Flows.

(** *** Invoices *)

(** An invoice with a quote in dollars has a positive one. *)
Definition quoted (i : WalletInvoice) : Prop :=
  forall a, wi_usdAmount i = Some a -> currency a = Usd /\ 0 < amount a /\ safe (amount a).

Definition paid (i : WalletInvoice) : WalletInvoice :=
  mkWalletInvoice (wi_paymentHash i) (wi_secret i) (wi_selfGenerated i) (wi_pubkey i)
    (wi_usdAmount i) (wi_recipient i) true.

Lemma invoice_raw now i : quoted i ->
  InvoiceRepo.walletInvoiceFromRaw (InvoiceRepo.raw_of now i) = Ok i /\
  InvoiceRepo.walletInvoiceFromRaw (InvoiceRepo.set_paid (InvoiceRepo.raw_of now i)) = Ok (paid i).
Proof.
  intros Hq. destruct i as [h s g p u [id cur] pd]. unfold InvoiceRepo.walletInvoiceFromRaw. simpl.
  destruct u as [a|]; [|done]. destruct (Hq a eq_refl) as (Hc & Hp & Hs).
  rewrite Number_safe, num_truthy_num, BigInt_num by done.
  rewrite (proj2 (Z.eqb_neq _ _)) by lia. simpl. destruct a as [z ?]. simpl in *. by subst.
Qed.

Lemma last_match {D} (q : D -> bool) l d l1 d0 l2 :
  (forall x, In x l -> q x = false) -> q d0 = true -> l ++ [d] = l1 ++ d0 :: l2 ->
  d0 = d /\ l1 = l /\ l2 = [].
Proof.
  intros Hold Hd0 Heq. apply app_eq_inv in Heq as [(k & E1 & E2)|(k & E1 & E2)].
  - destruct k as [|x k]; [rewrite app_nil_r in E1; simpl in E2; by injection E2 as <- <-|].
    injection E2 as <- E2. exfalso. rewrite E1 in Hold.
    rewrite (Hold d0) in Hd0; [done|]. apply in_or_app. right. by left.
  - destruct k as [|x k]; [simpl in *|by destruct k].
    rewrite app_nil_r in E1. by injection E2 as <- <-.
Qed.

Section Invoices.
Context {C : Type} `{Collection C InvoiceRepo.RawInvoice}
  {laws : CollectionLaws C InvoiceRepo.RawInvoice}.

(** Cleaning up keeps the invoices that are paid, and adds none. *)
Lemma cleaned before (c c' : C) r : InvoiceRepo.deleteUnpaidOlderThan before c = (r, c') ->
  (forall d, In d (coll_docs c) -> InvoiceRepo.raw_paid d = true -> In d (coll_docs c')) /\
  (forall d, In d (coll_docs c') -> In d (coll_docs c)).
Proof using laws.
  unfold InvoiceRepo.deleteUnpaidOlderThan.
  destruct (coll_deleteMany _ _) as [[n x]|m] eqn:Hd; intros [= _ <-]; [|done].
  apply deleteMany_docs in Hd as [-> _]. split.
  - intros d Hin Hp. apply filter_In. split; [done|]. by rewrite Hp, andb_false_r.
  - by intros d [? _]%filter_In.
Qed.

(** An invoice stored under a new hash, marked as paid and then spared by the deletion
    of old unpaid invoices, whatever the date and the answer of that deletion, is
    found by its hash as the stored invoice with the paid flag set. *)
Theorem invoice_stored_and_paid (now before : Z) (i j k : WalletInvoice) (c c1 c2 c3 : C)
    (r : result nat) (Hi : quoted i)
    (Hnew : forall d, In d (coll_docs c) -> InvoiceRepo.raw_id d <> wi_paymentHash i)
    (Hsave : InvoiceRepo.persistNew now i c = (Ok j, c1))
    (Hpaid : InvoiceRepo.markAsPaid (wi_paymentHash i) c1 = (Ok k, c2))
    (Hclean : InvoiceRepo.deleteUnpaidOlderThan before c2 = (r, c3)) :
  j = i /\ k = paid i /\
  forall q, coll_findOne c3 (InvoiceRepo.with_id (wi_paymentHash i)) = Done q ->
  InvoiceRepo.findByPaymentHash (wi_paymentHash i) c3 = (Ok (paid i), c3).
Proof using laws.
  destruct (invoice_raw now i Hi) as [Hraw Hraw']. set (raw := InvoiceRepo.raw_of now i) in *.
  assert (Hid : InvoiceRepo.with_id (wi_paymentHash i) raw = true) by apply String.eqb_refl.
  assert (Hid' : InvoiceRepo.with_id (wi_paymentHash i) (InvoiceRepo.set_paid raw) = true)
    by apply String.eqb_refl.
  assert (Hold : forall d, In d (coll_docs c) -> InvoiceRepo.with_id (wi_paymentHash i) d = false)
    by (intros d Hd; by apply String.eqb_neq, Hnew).
  unfold InvoiceRepo.persistNew in Hsave. fold raw in Hsave.
  destruct (coll_save c raw) as [c'|m] eqn:Hs; [|done].
  rewrite Hraw in Hsave. injection Hsave as <- ->. apply save_adds in Hs.
  unfold InvoiceRepo.markAsPaid in Hpaid.
  destruct (coll_findOneAndUpdate _ _ _) as [[[d|] c']|m] eqn:Hu; [|done..].
  destruct (update_some _ _ _ _ _ Hu) as (l1 & d0 & l2 & Hdocs & Hd0 & -> & Hdocs').
  rewrite Hs in Hdocs.
  apply (last_match _ _ _ _ _ _ Hold Hd0) in Hdocs as (-> & -> & ->).
  rewrite Hraw' in Hpaid. injection Hpaid as <- ->. split; [done|]. split; [done|].
  destruct (cleaned _ _ _ _ Hclean) as [Hkeep Hsub].
  assert (Hin3 : In (InvoiceRepo.set_paid raw) (coll_docs c3)).
  { apply Hkeep; [|done]. rewrite Hdocs'. apply in_or_app. right. by left. }
  assert (Honly : forall d, In d (coll_docs c3) ->
    InvoiceRepo.with_id (wi_paymentHash i) d = true -> d = InvoiceRepo.set_paid raw).
  { intros d Hd%Hsub Hw. rewrite Hdocs' in Hd. apply in_app_or in Hd as [Hd|[<-|[]]]; [|done].
    by rewrite (Hold d Hd) in Hw. }
  intros q Hf. unfold InvoiceRepo.findByPaymentHash. rewrite Hf. destruct q as [d|].
  - destruct (findOne_some _ _ _ Hf) as [Hin Hd]. rewrite (Honly d Hin Hd). by rewrite Hraw'.
  - pose proof (findOne_none _ _ Hf _ Hin3) as Hn. by rewrite Hid' in Hn.
Qed.
End Invoices.

(** *** A collection as the list of its documents *)

Fixpoint update_first {D} (q : D -> bool) (u : D -> D) (l : list D) : option (D * list D) :=
  match l with
  | [] => None
  | d :: l => if q d then Some (u d, u d :: l)
              else match update_first q u l with
                   | Some (d', l') => Some (d', d :: l')
                   | None => None
                   end
  end.

Fixpoint delete_first {D} (q : D -> bool) (l : list D) : option (list D) :=
  match l with
  | [] => None
  | d :: l => if q d then Some l
              else match delete_first q l with Some l' => Some (d :: l') | None => None end
  end.

#[global] Instance list_collection {D} : Collection (list D) D := {
  coll_docs l := l;
  coll_save l d := Done (l ++ [d]);
  coll_findOne l q := Done (List.find q l);
  coll_findOneAndUpdate l q u :=
    Done (match update_first q u l with Some (d, l') => (Some d, l') | None => (None, l) end);
  coll_findOneAndUpdateOld l q u :=
    Done (match update_first q u l with Some (d, l') => (List.find q l, l') | None => (None, l) end);
  coll_upsert l q u d0 :=
    Done (match update_first q u l with Some (d, l') => (d, l') | None => (d0, l ++ [d0]) end);
  coll_updateOne l q u :=
    Done (match update_first q u l with Some (_, l') => (1%nat, 1%nat, l') | None => (0%nat, 0%nat, l) end);
  coll_find l q := List.filter q l;
  coll_list l q := Done (List.filter q l);
  coll_deleteOne l q :=
    Done (match delete_first q l with Some l' => (1%nat, l') | None => (0%nat, l) end);
  coll_deleteMany l q :=
    Done (length (List.filter q l), List.filter (fun d => negb (q d)) l)
}.

Lemma update_first_some {D} (q : D -> bool) u l d' l' : update_first q u l = Some (d', l') ->
  exists l1 d l2, l = l1 ++ d :: l2 /\ q d = true /\ d' = u d /\ l' = l1 ++ d' :: l2.
Proof.
  revert l'. induction l as [|x l IH]; intros l'; simpl; [done|].
  destruct (q x) eqn:Hq; [intros [= <- <-]; by exists [], x, l|].
  destruct (update_first q u l) as [[y m]|]; [|done]. intros [= <- <-].
  destruct (IH m eq_refl) as (l1 & d & l2 & -> & Hd & Hy & ->). by exists (x :: l1), d, l2.
Qed.

Lemma update_first_none {D} (q : D -> bool) u l : update_first q u l = None ->
  forall d, In d l -> q d = false.
Proof.
  induction l as [|x l IH]; simpl; [done|]. destruct (q x) eqn:Hq; [done|].
  destruct (update_first q u l) as [[y m]|]; [done|]. intros _ d [<-|Hd]; auto.
Qed.

Lemma update_first_old {D} (q : D -> bool) u l d' l' : update_first q u l = Some (d', l') ->
  exists l1 d l2, List.find q l = Some d /\ l = l1 ++ d :: l2 /\ q d = true /\
    d' = u d /\ l' = l1 ++ u d :: l2.
Proof.
  revert l'. induction l as [|x l IH]; intros l'; simpl; [done|].
  destruct (q x) eqn:Hq; [intros [= <- <-]; by exists [], x, l|].
  destruct (update_first q u l) as [[y m]|]; [|done]. intros [= <- <-].
  destruct (IH m eq_refl) as (l1 & d & l2 & ? & -> & Hd & Hy & ->). by exists (x :: l1), d, l2.
Qed.

Lemma delete_first_spec {D} (q : D -> bool) l :
  match delete_first q l with
  | Some l' => exists l1 d l2, l = l1 ++ d :: l2 /\ q d = true /\ l' = l1 ++ l2
  | None => forall d, In d l -> q d = false
  end.
Proof.
  induction l as [|x l IH]; simpl; [done|]. destruct (q x) eqn:Hq; [by exists [], x, l|].
  destruct (delete_first q l) as [m|].
  - destruct IH as (l1 & d & l2 & -> & Hd & ->). by exists (x :: l1), d, l2.
  - intros d [<-|Hd]; auto.
Qed.

#[global] Instance list_collection_laws {D} : CollectionLaws (list D) D.
Proof.
  split; simpl.
  - by intros c d c' [= <-].
  - intros c q d [= Hf]. by apply find_some in Hf.
  - intros c q [= Hf] d Hd. by eapply find_none.
  - done.
  - intros c q u d' c'. destruct (update_first q u c) as [[x m]|] eqn:Hu; [|done].
    intros [= <- <-]. by apply update_first_some.
  - intros c q u c'. destruct (update_first q u c) as [[x m]|] eqn:Hu; [done|].
    intros [= <-]. split; [done|]. by eapply update_first_none.
  - by intros c q l [= <-].
  - intros c q u d c'. destruct (update_first q u c) as [[x m]|] eqn:Hu; [|done].
    apply update_first_old in Hu as (l1 & d' & l2 & -> & H1 & H2 & _ & H3).
    intros [= <- <-]. by exists l1, l2.
  - intros c q u c'. destruct (update_first q u c) as [[x m]|] eqn:Hu.
    + apply update_first_old in Hu as (? & ? & ? & -> & _). done.
    + intros [= <-]. split; [done|]. by eapply update_first_none.
  - intros c q u d0 d' c'. destruct (update_first q u c) as [[x m]|] eqn:Hu; intros [= <- <-].
    + left. by apply update_first_some.
    + right. split; [done|]. split; [done|]. by eapply update_first_none.
  - intros c q u mt md c'. destruct (update_first q u c) as [[x m]|] eqn:Hu; intros [= <- <- <-].
    + right. apply update_first_old in Hu as (l1 & d & l2 & _ & ? & ? & _ & ?). by exists l1, d, l2.
    + left. split; [done|]. split; [done|]. by eapply update_first_none.
  - intros c q n c'. pose proof (delete_first_spec q c) as Hd.
    destruct (delete_first q c) as [m|]; intros [= <- <-]; [right|by left].
    destruct Hd as (l1 & d & l2 & H1 & H2 & H3). by exists l1, d, l2.
  - by intros c q n c' [= <- <-].
Qed.

(** *** A flow and an invoice *)

Definition sample_stored_flow : PaymentFlow :=
  mkPaymentFlow (Some "h1") None "alice" Usd "a1" None None None None None "coffee" true
    (mkAmount 9900 Btc) (mkAmount 227 Usd) 227 1700000000000 false SMLightning PMLightning
    (mkAmount 100 Btc) (mkAmount 3 Usd) None None.

Lemma stored_flow_found_witness :
  fst (FlowRepo.findLightningPaymentFlow 1700000300000 300 "alice" (Some "h1") None 227
    (snd (FlowRepo.persistNewFlow sample_stored_flow []))) = Ok (reread sample_stored_flow).
Proof.
  refine (proj2 (stored_flow_found 1700000300000 300 sample_stored_flow
    (reread sample_stored_flow) [] (snd (FlowRepo.persistNewFlow sample_stored_flow [])) _ _ _) _ _).
  - constructor; [by left|split; [done|vm_compute; discriminate]..| |by repeat constructor].
    vm_compute; discriminate.
  - done.
  - vm_compute. reflexivity.
  - vm_compute. reflexivity.
Defined.

Definition sample_wallet_invoice : WalletInvoice :=
  mkWalletInvoice "h2" "secret" true "pk" (Some (mkAmount 500 Usd)) (mkWallet "alice" Usd) false.

Lemma invoice_stored_and_paid_witness :
  InvoiceRepo.findByPaymentHash "h2"
    (snd (InvoiceRepo.deleteUnpaidOlderThan 2000
      (snd (InvoiceRepo.markAsPaid "h2" (snd (InvoiceRepo.persistNew 1000 sample_wallet_invoice []))))))
  = (Ok (paid sample_wallet_invoice), [InvoiceRepo.set_paid (InvoiceRepo.raw_of 1000 sample_wallet_invoice)]).
Proof.
  refine (proj2 (proj2 (invoice_stored_and_paid 1000 2000 sample_wallet_invoice
    sample_wallet_invoice (paid sample_wallet_invoice) []
    (snd (InvoiceRepo.persistNew 1000 sample_wallet_invoice []))
    (snd (InvoiceRepo.markAsPaid "h2" (snd (InvoiceRepo.persistNew 1000 sample_wallet_invoice []))))
    _ (Ok 0%nat) _ _ _ _ _)) _ _).
  - intros a [= <-]. split; [done|]. split; [done|vm_compute; discriminate].
  - done.
  - vm_compute. reflexivity.
  - vm_compute. reflexivity.
  - vm_compute. reflexivity.
  - vm_compute. reflexivity.
Defined.

End RepoSpec.
