(* ===== verification/AccountRepo.v ===== *)
(** * Repositories of accounts, users and wallets

    [lib/services/mongoose]: [accounts.js], [users.js], [users-ips.js], [rewards.js],
    [wallets.js], [wallet-on-chain-addresses.js] and [phone-code.js].  Accounts and users
    are one document of the collection of accounts.  A field that is undefined in an
    update leaves the document as it is, as [mongoose] documents. *)

From S2P Require Import Prelude JsNum Errors Money Regex PaymentFlow Validation Accounts TxMetadata Facade LedgerService LedgerWrites RateLimit Programs Effects Persistence.
#[local] Open Scope string_scope.
#[local] Open Scope Z_scope.
#[local] Open Scope list_scope.

(** ** Documents *)

Record RawContact : Type := mkRawContact {
  rc_id : option string;
  rc_name : option string;
  rc_transactionsCount : number
}.

(** What is kept of the address of a connection: the fields of its metadata that are
    read, and its dates. *)
Record IPInfo : Type := mkIPInfo {
  ip_ip : string;
  ip_isoCode : option string;
  ip_asn : option string;
  ip_proxy : bool;
  ip_firstConnection : Z;
  ip_lastConnection : Z
}.

(** The fields of the schema; its validators and indexes are those of the collection. *)
Record RawAccount : Type := mkRawAccount {
  ra_id : string;
  ra_created_at : Z;
  ra_defaultWalletId : option string;
  ra_username : option string;
  ra_level : option Z;
  ra_statusHistory : list StatusEntry;
  ra_title : option string;
  ra_coordinates : option (number * number);
  ra_contactEnabled : option bool;
  ra_contacts : list RawContact;
  ra_depositFeeRatio : number;
  ra_withdrawFee : number;
  ra_role : Role;
  ra_earn : list string;
  ra_kratosUserId : option string;
  ra_phone : option string;
  ra_twilio : option PhoneMetadata;
  ra_language : string;
  ra_deviceToken : list string;
  ra_lastIPs : list IPInfo
}.

(** What a [try] block makes of an exception raised while a document is read: its
    message is left out. *)
Definition caught {A} (r : result A) : result A :=
  match r with Throw _ => Er (new UnknownRepositoryError) | r => r end.

(** ** [accounts.js] *)

Module AccountsRepo.

(** [contacts.reduce(...)] drops the contacts without an id. *)
Fixpoint translate_contacts (l : list RawContact) : list Contact :=
  match l with
  | [] => []
  | c :: l =>
      match rc_id c with
      | Some id =>
          if str_truthy (Some id) then
            let alias := if str_truthy (rc_name c)
                         then match rc_name c with Some n => n | None => id end else id in
            mkContact id id alias (rc_transactionsCount c) :: translate_contacts l
          else translate_contacts l
      | None => translate_contacts l
      end
  end.

(** [statusHistory.slice(-1)[0].status] raises on an empty history. *)
Definition translateToAccount (r : RawAccount) : result Account :=
  match last (ra_statusHistory r) with
  | None => Throw (new JsTypeError)
  | Some entry =>
      Ok (mkAccount (ra_id r) (st_status entry)
            (match ra_level r with Some l => if l =? 0 then 1 else l | None => 1 end)
            (ra_username r) (ra_id r)
            (match ra_contactEnabled r with Some b => b | None => false end)
            (ra_withdrawFee r) (ra_depositFeeRatio r) (ra_defaultWalletId r)
            (ra_statusHistory r) (ra_title r) (ra_coordinates r)
            (translate_contacts (ra_contacts r)) (bool_decide (ra_role r = RoleEditor))
            (ra_earn r) (ra_kratosUserId r) (ra_created_at r) None)
  end.

Definition raw_contact (c : Contact) : RawContact :=
  mkRawContact (Some (ct_username c)) (Some (ct_alias c)) (ct_transactionsCount c).

(** The update of a document by the fields of an account. *)
Definition set_fields (a : Account) (r : RawAccount) : RawAccount :=
  mkRawAccount (ra_id r) (ra_created_at r)
    (FlowRepo.keep (acc_defaultWalletId a) (ra_defaultWalletId r))
    (FlowRepo.keep (acc_username a) (ra_username r))
    (Some (acc_level a)) (acc_statusHistory a)
    (FlowRepo.keep (acc_title a) (ra_title r))
    (FlowRepo.keep (acc_coordinates a) (ra_coordinates r))
    (Some (acc_contactEnabled a)) (List.map raw_contact (acc_contacts a))
    (ra_depositFeeRatio r) (acc_withdrawFee a)
    (match acc_role a with Some role => role | None => ra_role r end)
    (ra_earn r) (FlowRepo.keep (acc_kratosUserId a) (ra_kratosUserId r))
    (ra_phone r) (ra_twilio r) (ra_language r) (ra_deviceToken r) (ra_lastIPs r).

(** [new RegExp(`^${input}$`, "i")] of a username, whose characters stand for
    themselves in a pattern. *)
Definition caseInsensitiveRegex (input : string) : regex :=
  lit_nocase (Usernames.str_map to_lower input).

Definition has_id (id : string) (r : RawAccount) : bool := String.eqb (ra_id r) id.
Definition has_username (username : string) (r : RawAccount) : bool :=
  match ra_username r with
  | Some u => accepts (caseInsensitiveRegex username) u
  | None => false
  end.
Definition is_active (r : RawAccount) : bool :=
  match last (ra_statusHistory r) with
  | Some e => bool_decide (st_status e = StatusActive)
  | None => false
  end.

(** The document of [new User()], with the defaults of the schema. *)
Record SchemaDefaults : Type := mkDefaults {
  def_initialStatus : AccountStatus;
  def_depositFeeRatio : number;
  def_withdrawFee : number
}.

Definition new_account (def : SchemaDefaults) (id : string) (now : Z) (kratosUserId : string)
    (phone : option string) (phoneMetadata : option PhoneMetadata) : RawAccount :=
  mkRawAccount id now None None (Some 1)
    [mkStatusEntry (def_initialStatus def) None (Some "Initial Status")] None None (Some true) []
    (def_depositFeeRatio def) (def_withdrawFee def) RoleUser [] (Some kratosUserId)
    (if str_truthy phone then phone else None) phoneMetadata "" [] [].

Fixpoint translate_all (l : list RawAccount) : result (list Account) :=
  match l with
  | [] => Ok []
  | r :: l => let* a := translateToAccount r in
              let* l' := translate_all l in Ok (a :: l')
  end.

Record BusinessMarker : Type := mkMarker {
  bm_username : option string;
  bm_title : option string;
  bm_coordinates : option (number * number)
}.

(** [toObjectId]: an identifier that is not one of the database raises, with a
    message. *)
Section Repo.
Context {C : Type} `{Collection C RawAccount} (toObjectId : string -> db string).

Definition with_oid {A} (id : string) (c : C) (k : string -> result A * C) : result A * C :=
  match toObjectId id with
  | Done oid => k oid
  | Rejected m => (Er (parseRepositoryError m), c)
  end.

Definition listUnlockedAccounts (c : C) : result (list Account) * C :=
  match coll_list c is_active with
  | Rejected m => (Er (parseRepositoryError m), c)
  | Done [] => (Er (new CouldNotFindError), c)
  | Done l => (caught (translate_all l), c)
  end.

Definition findById (accountId : string) (c : C) : result Account * C :=
  with_oid accountId c (fun oid =>
  match coll_findOne c (has_id oid) with
  | Rejected m => (Er (parseRepositoryError m), c)
  | Done None => (Er (new CouldNotFindError), c)
  | Done (Some r) => (caught (translateToAccount r), c)
  end).

Definition findByUserId (userId : string) (c : C) : result Account * C := findById userId c.

Definition findByUsername (username : string) (c : C) : result Account * C :=
  match coll_findOne c (has_username username) with
  | Rejected m => (Er (parseRepositoryError m), c)
  | Done None => (Er (new_msg CouldNotFindAccountFromUsernameError username), c)
  | Done (Some r) => (caught (translateToAccount r), c)
  end.

Definition findByKratosUserId (kratosUserId : string) (c : C) : result Account * C :=
  match coll_findOne c (fun r => bool_decide (ra_kratosUserId r = Some kratosUserId)) with
  | Rejected m => (Er (parseRepositoryError m), c)
  | Done None => (Er (new_msg CouldNotFindAccountFromKratosIdError kratosUserId), c)
  | Done (Some r) => (caught (translateToAccount r), c)
  end.

Definition listBusinessesForMap (c : C) : result (list BusinessMarker) * C :=
  match coll_list c (fun r => match ra_title r, ra_coordinates r with
                              | Some _, Some _ => true | _, _ => false end) with
  | Rejected m => (Er (parseRepositoryError m), c)
  | Done l => (Ok (List.map (fun r => mkMarker (ra_username r) (ra_title r) (ra_coordinates r)) l), c)
  end.

Definition update (a : Account) (c : C) : result Account * C :=
  with_oid (acc_id a) c (fun oid =>
  match coll_findOneAndUpdate c (has_id oid) (set_fields a) with
  | Rejected m => (Er (parseRepositoryError m), c)
  | Done (None, c') => (Er (new_msg RepositoryError "Couldn't update account"), c')
  | Done (Some r, c') => (caught (translateToAccount r), c')
  end).

(** [id] is the identifier that the database gives the document. *)
Definition persistNewAccount (def : SchemaDefaults) (id : string) (now : Z) (kratosUserId : string)
    (phone : option string) (phoneMetadata : option PhoneMetadata) (c : C) : result Account * C :=
  let r := new_account def id now kratosUserId phone phoneMetadata in
  match coll_save c r with
  | Rejected m => (Er (parseRepositoryError m), c)
  | Done c' => (caught (translateToAccount r), c')
  end.

(** ** [rewards.js] *)

Definition push_earn (quizQuestionId : string) (r : RawAccount) : RawAccount :=
  mkRawAccount (ra_id r) (ra_created_at r) (ra_defaultWalletId r) (ra_username r) (ra_level r)
    (ra_statusHistory r) (ra_title r) (ra_coordinates r) (ra_contactEnabled r) (ra_contacts r)
    (ra_depositFeeRatio r) (ra_withdrawFee r) (ra_role r) (ra_earn r ++ [quizQuestionId])
    (ra_kratosUserId r) (ra_phone r) (ra_twilio r) (ra_language r) (ra_deviceToken r)
    (ra_lastIPs r).

(** The question is pushed whether it was there or not; the answer tells by the document
    before the update. *)
Definition rewards_add (accountId quizQuestionId : string) (c : C) : result unit * C :=
  match toObjectId accountId with
  | Rejected _ => (Er (new_msg UnknownRepositoryError "reward issue"), c)
  | Done oid =>
      match coll_findOneAndUpdateOld c (has_id oid) (push_earn quizQuestionId) with
      | Rejected _ => (Er (new_msg UnknownRepositoryError "reward issue"), c)
      | Done (None, c') => (Er (new_msg UnknownRepositoryError "account not found"), c')
      | Done (Some oldState, c') =>
          if bool_decide (quizQuestionId ∈ ra_earn oldState)
          then (Er (new RewardAlreadyPresentError), c') else (Ok tt, c')
      end
  end.

(** ** [users.js] *)

Definition userFromRaw (r : RawAccount) : User :=
  mkUserRecord (ra_deviceToken r) (ra_language r) (ra_id r) (ra_phone r) (ra_twilio r)
    (ra_created_at r).

Definition users_findById (userId : string) (c : C) : result User * C :=
  with_oid userId c (fun oid =>
  match coll_findOne c (has_id oid) with
  | Rejected m => (Er (parseRepositoryError m), c)
  | Done None => (Er (new_msg CouldNotFindUserFromIdError userId), c)
  | Done (Some r) => (Ok (userFromRaw r), c)
  end).

Definition users_findByPhone (phone : string) (c : C) : result User * C :=
  match coll_findOne c (fun r => bool_decide (ra_phone r = Some phone)) with
  | Rejected m => (Er (parseRepositoryError m), c)
  | Done None => (Er (new_msg CouldNotFindUserFromPhoneError phone), c)
  | Done (Some r) => (Ok (userFromRaw r), c)
  end.

Definition set_user (u : User) (r : RawAccount) : RawAccount :=
  mkRawAccount (ra_id r) (ra_created_at r) (ra_defaultWalletId r) (ra_username r) (ra_level r)
    (ra_statusHistory r) (ra_title r) (ra_coordinates r) (ra_contactEnabled r) (ra_contacts r)
    (ra_depositFeeRatio r) (ra_withdrawFee r) (ra_role r) (ra_earn r) (ra_kratosUserId r)
    (FlowRepo.keep (u_phone u) (ra_phone r)) (ra_twilio r) (u_language u) (u_deviceTokens u)
    (ra_lastIPs r).

Definition users_update (u : User) (c : C) : result User * C :=
  with_oid (u_id u) c (fun oid =>
  match coll_findOneAndUpdate c (has_id oid) (set_user u) with
  | Rejected m => (Er (parseRepositoryError m), c)
  | Done (None, c') => (Er (new_msg RepositoryError "Couldn't update user"), c')
  | Done (Some r, c') => (Ok (userFromRaw r), c')
  end).

(** ** [users-ips.js] *)

Definition set_ips (ips : list IPInfo) (r : RawAccount) : RawAccount :=
  mkRawAccount (ra_id r) (ra_created_at r) (ra_defaultWalletId r) (ra_username r) (ra_level r)
    (ra_statusHistory r) (ra_title r) (ra_coordinates r) (ra_contactEnabled r) (ra_contacts r)
    (ra_depositFeeRatio r) (ra_withdrawFee r) (ra_role r) (ra_earn r) (ra_kratosUserId r)
    (ra_phone r) (ra_twilio r) (ra_language r) (ra_deviceToken r) ips.

Definition ips_update (userId : string) (lastIPs : list IPInfo) (c : C) : result unit * C :=
  with_oid userId c (fun oid =>
  match coll_updateOne c (has_id oid) (set_ips lastIPs) with
  | Rejected m => (Er (parseRepositoryError m), c)
  | Done (matchedCount, modifiedCount, c') =>
      if Nat.eqb matchedCount 0 then (Er (new_msg CouldNotFindError "Couldn't find user"), c')
      else if negb (Nat.eqb modifiedCount 1)
      then (Er (new_msg PersistError "Couldn't update ip for user"), c')
      else (Ok tt, c')
  end).

Definition ips_findById (userId : string) (c : C) : result (list IPInfo) * C :=
  with_oid userId c (fun oid =>
  match coll_findOne c (has_id oid) with
  | Rejected m => (Er (parseRepositoryError m), c)
  | Done None => (Er (new_msg CouldNotFindUserFromIdError userId), c)
  | Done (Some r) => (Ok (ra_lastIPs r), c)
  end).

End Repo.

End AccountsRepo.

(** ** [wallets.js] and [wallet-on-chain-addresses.js] *)

Module WalletsRepo.

Record OnChainAddressId : Type := mkAddressId { ad_pubkey : string; ad_address : string }.

Record RawWallet : Type := mkRawWallet {
  rw_id : string;
  rw_accountId : string;
  rw_currency : WalletCurrency;
  rw_onchain : list OnChainAddressId
}.

(** The one type of wallets: [WalletType] of [domain/wallets/primitives.js]. *)
Inductive WalletType : Type := Checking.

Definition resultToWallet (r : RawWallet) : AddressedWallet :=
  mkAddressed (mkWalletRec (rw_id r) (rw_accountId r) (rw_currency r))
    (List.map ad_address (rw_onchain r)).

Definition wallet_of (r : RawWallet) : Wallet := aw_wallet (resultToWallet r).
Definition has_wallet_id (id : string) (r : RawWallet) : bool := String.eqb (rw_id r) id.
Definition of_account (accountId : string) (r : RawWallet) : bool :=
  String.eqb (rw_accountId r) accountId.
Definition has_address (address : string) (r : RawWallet) : bool :=
  bool_decide (address ∈ List.map ad_address (rw_onchain r)).

Section Repo.
Context {C W : Type} `{Collection C RawAccount} `{Collection W RawWallet}
  (toObjectId : string -> db string).

(** The account must exist; [id] is the random identifier of the new wallet. *)
Definition persistNewWallet (id accountId : string) (currency : WalletCurrency) (c : C) (w : W)
    : result Wallet * W :=
  match fst (AccountsRepo.findById toObjectId accountId c) with
  | Er e => (Er e, w)
  | Throw e => (Throw e, w)
  | Ok _ =>
      match toObjectId accountId with
      | Rejected m => (Er (parseRepositoryError m), w)
      | Done oid =>
          let r := mkRawWallet id oid currency [] in
          match coll_save w r with
          | Rejected m => (Er (parseRepositoryError m), w)
          | Done w' => (Ok (wallet_of r), w')
          end
      end
  end.

Definition findWalletById (walletId : string) (w : W) : result Wallet * W :=
  match coll_findOne w (has_wallet_id walletId) with
  | Rejected m => (Er (parseRepositoryError m), w)
  | Done None => (Er (new CouldNotFindWalletFromIdError), w)
  | Done (Some r) => (Ok (wallet_of r), w)
  end.

Definition listByAccountId (accountId : string) (w : W) : result (list Wallet) * W :=
  match toObjectId accountId with
  | Rejected m => (Er (parseRepositoryError m), w)
  | Done oid =>
      match coll_list w (of_account oid) with
      | Rejected m => (Er (parseRepositoryError m), w)
      | Done [] => (Er (new CouldNotListWalletsFromAccountIdError), w)
      | Done l => (Ok (List.map wallet_of l), w)
      end
  end.

Definition findByAddress (address : string) (w : W) : result Wallet * W :=
  match coll_findOne w (has_address address) with
  | Rejected m => (Er (parseRepositoryError m), w)
  | Done None => (Er (new CouldNotFindWalletFromOnChainAddressError), w)
  | Done (Some r) => (Ok (wallet_of r), w)
  end.

Definition listByAddresses (addresses : list string) (w : W) : result (list AddressedWallet) * W :=
  match coll_list w (fun r => existsb (fun a => has_address a r) addresses) with
  | Rejected m => (Er (parseRepositoryError m), w)
  | Done [] => (Er (new CouldNotFindWalletFromOnChainAddressesError), w)
  | Done l => (Ok (List.map resultToWallet l), w)
  end.

Definition listByWalletCurrency (currency : WalletCurrency) (w : W) : result (list Wallet) * W :=
  match coll_list w (fun r => bool_decide (rw_currency r = currency)) with
  | Rejected m => (Er (parseRepositoryError m), w)
  | Done l => (Ok (List.map wallet_of l), w)
  end.

Definition push_address (a : OnChainAddressId) (r : RawWallet) : RawWallet :=
  mkRawWallet (rw_id r) (rw_accountId r) (rw_currency r) (rw_onchain r ++ [a]).

Definition address_persistNew (walletId : string) (onChainAddress : OnChainAddressId) (w : W)
    : result OnChainAddressId * W :=
  match coll_updateOne w (has_wallet_id walletId) (push_address onChainAddress) with
  | Rejected m => (Er (parseRepositoryError m), w)
  | Done (matchedCount, modifiedCount, w') =>
      if Nat.eqb matchedCount 0 then (Er (new_msg CouldNotFindError "Couldn't find wallet"), w')
      else if negb (Nat.eqb modifiedCount 1)
      then (Er (new_msg PersistError "Couldn't add onchain address for wallet"), w')
      else (Ok onChainAddress, w')
  end.

(** [Wallet.aggregate] with [$match] and [$last]: the last address of the first wallet
    with the identifier. *)
Definition findLastByWalletId (id : string) (w : W) : result OnChainAddressId * W :=
  match coll_list w (has_wallet_id id) with
  | Rejected m => (Er (parseRepositoryError m), w)
  | Done l =>
      match head l with
      | Some r => match last (rw_onchain r) with
                  | Some a => (Ok a, w)
                  | None => (Er (new_msg CouldNotFindError "Couldn't find address for wallet"), w)
                  end
      | None => (Er (new_msg CouldNotFindError "Couldn't find address for wallet"), w)
      end
  end.

End Repo.
End WalletsRepo.

(** ** [phone-code.js] *)

Module PhoneCodesRepo.

(** The schema stores the code as a number: [castNumber] is the conversion that the
    package applies to documents and queries, which rejects what is no number. *)
Record RawPhoneCode : Type := mkRawPhoneCode {
  rp_phone : string;
  rp_code : Z;
  rp_created_at : Z
}.

Section Repo.
Context {C : Type} `{Collection C RawPhoneCode} (castNumber : string -> db Z).

Definition existNewerThan (now : Z) (phone code : string) (age : Z) (c : C) : result unit * C :=
  let timestamp := now - age * 1000 in
  match castNumber code with
  | Rejected m => (Er (parseRepositoryError m), c)
  | Done n =>
      match coll_findOne c (fun r => String.eqb (rp_phone r) phone && (rp_code r =? n)
                                     && (timestamp <=? rp_created_at r)) with
      | Rejected m => (Er (parseRepositoryError m), c)
      | Done None => (Er (new CouldNotFindPhoneCodeError), c)
      | Done (Some _) => (Ok tt, c)
      end
  end.

Definition code_persistNew (now : Z) (phone code : string) (c : C) : result unit * C :=
  match castNumber code with
  | Rejected m => (Er (parseRepositoryError m), c)
  | Done n =>
      match coll_save c (mkRawPhoneCode phone n now) with
      | Rejected m => (Er (parseRepositoryError m), c)
      | Done c' => (Ok tt, c')
      end
  end.

End Repo.
End PhoneCodesRepo.
