(* ===== verification/Workers.v ===== *)
(** * Programs that share a world

    [runInParallel] of [lib/utils/index.js] starts workers that take items from one
    iterator and process them, errors of an item being logged.  Here workers are
    programs of [Effects] whose calls are answered from a world they all change, one
    call at a time in any order; [wexec] is the execution of one program alone in the
    world. *)

From S2P Require Import Prelude Errors Programs Effects.
From stdpp Require Import list relations.
#[local] Open Scope list_scope.

Section World.
Context {E : Type -> Type} {W : Type} (ans : forall X, E X -> W -> X -> W -> Prop).

(** ** One program in the world *)

Inductive wexec {A} : W -> program E A -> list (happening E) -> A -> W -> Prop :=
| wx_ret w a : wexec w (Ret a) [] a w
| wx_call {X} w (c : E X) x w1 k tr a w2 :
    ans X c w x w1 -> wexec w1 (k x) tr a w2 -> wexec w (Call c k) (Ev c x :: tr) a w2.

Lemma wexec_exec {A} w (p : program E A) tr a w' : wexec w p tr a w' -> exec p tr a.
Proof. induction 1; by constructor. Qed.

(** The first call of an execution. *)
Lemma wexec_call_inv {A X} w (c : E X) (k : X -> program E A) tr a w' :
  wexec w (Call c k) tr a w' ->
  exists x w1 tr', ans X c w x w1 /\ wexec w1 (k x) tr' a w'.
Proof.
  intros He. refine (match He in wexec w p _ a w' return
    match p with
    | Ret _ => True
    | @Call _ _ Y c k => exists x w1 tr', ans Y c w x w1 /\ wexec w1 (k x) tr' a w'
    end with wx_ret _ _ => I | wx_call _ _ x w1 _ _ _ _ Ha Hk => _ end).
  eauto.
Qed.

Definition ev_ans (ev : happening E) (w w' : W) : Prop := match ev with @Ev _ X c x => ans X c w x w' end.

(** An invariant of the phases of a protocol that every answer preserves holds in the
    end. *)
Lemma wexec_inv {A P} (step : P -> happening E -> P -> Prop) (inv : P -> W -> Prop)
    (out : P -> A -> Prop) :
  (forall ph w ev ph' w', inv ph w -> ev_ans ev w w' -> step ph ev ph' -> inv ph' w') ->
  forall w p tr a w', wexec w p tr a w' ->
  forall ph, follows step p ph out -> inv ph w -> exists ph', inv ph' w' /\ out ph' a.
Proof.
  intros Hstep w p tr a w' He.
  induction He as [w a|X w c x w1 k tr a w2 Ha _ IH]; intros ph Hf Hi; simpl in Hf; [by exists ph|].
  destruct (Hf x) as (ph1 & Hs & Hk). apply (IH ph1 Hk).
  by eapply (Hstep ph w (Ev c x)).
Qed.

(** What holds of every execution: the weakest condition on the world before. *)
Fixpoint always {A} (p : program E A) (w : W) (Q : A -> W -> Prop) : Prop :=
  match p with
  | Ret a => Q a w
  | @Call _ _ X c k => forall x w', ans X c w x w' -> always (k x) w' Q
  end.

Lemma always_wexec {A} w (p : program E A) tr a w' Q :
  wexec w p tr a w' -> always p w Q -> Q a w'.
Proof. induction 1; simpl; [done|]. intros Hq. eauto. Qed.

Lemma always_bind {A B} (p : program E A) (k : A -> program E B) w Q :
  always p w (fun a w' => always (k a) w' Q) -> always (pbind p k) w Q.
Proof. revert w. induction p as [a|X c f IH]; simpl; intros w Hp; [done|]. eauto. Qed.

Lemma always_mono {A} (p : program E A) w (Q Q' : A -> W -> Prop) :
  always p w Q -> (forall a w', Q a w' -> Q' a w') -> always p w Q'.
Proof. revert w. induction p as [a|X c f IH]; simpl; intros w Hp HQ; eauto. Qed.

(** The early return of an error. *)
Lemma always_await {A B} (p : program E (result A)) (k : A -> program E (result B)) w
    (Q : result B -> W -> Prop) :
  always p w (fun r w' => match r with
                          | Ok a => always (k a) w' Q
                          | Er e => Q (Er e) w'
                          | Throw e => Q (Throw e) w'
                          end) ->
  always (rpbind p k) w Q.
Proof.
  intros Hp. apply always_bind. eapply always_mono; [exact Hp|]. by intros [a|e|e] w' Hq.
Qed.

(** ** Workers *)

Context {I A : Type} (processor : I -> program E (result A)).

Inductive worker : Type :=
| WIdle
| WBusy (item : I) (p : program E (result A))
| WDone.

Record config : Type := mkConfig {
  remaining : list I;           (* what the iterator still gives *)
  workers : list worker;
  processed : list I;           (* the items whose processing has ended *)
  world : W
}.

Inductive wstep : config -> config -> Prop :=
| w_take i x rest ws pr w : ws !! i = Some WIdle ->
    wstep (mkConfig (x :: rest) ws pr w) (mkConfig rest (<[i := WBusy x (processor x)]> ws) pr w)
| w_call i x X (c : E X) k a rest ws pr w w' :
    ws !! i = Some (WBusy x (Call c k)) -> ans X c w a w' ->
    wstep (mkConfig rest ws pr w) (mkConfig rest (<[i := WBusy x (k a)]> ws) pr w')
| w_finish i x r rest ws pr w : ws !! i = Some (WBusy x (Ret r)) ->
    wstep (mkConfig rest ws pr w) (mkConfig rest (<[i := WIdle]> ws) (pr ++ [x]) w)
| w_stop i ws pr w : ws !! i = Some WIdle ->
    wstep (mkConfig [] ws pr w) (mkConfig [] (<[i := WDone]> ws) pr w).

(** [new Array(workers).fill(iterator).map(runWorkerInParallel)].  The iterator yields the items of
    a list and does not raise; the callers give a logger. *)
Definition runInParallel (iterator : list I) (n : nat) (w : W) : config :=
  mkConfig iterator (replicate n WIdle) [] w.

(** ** Termination *)

(** What a worker does by itself. *)
Definition own_step (wk wk' : worker) : Prop :=
  match wk with
  | WBusy x (Ret _) => wk' = WIdle
  | WBusy x (Call c k) => exists a, wk' = WBusy x (k a)
  | WIdle => wk' = WDone
  | WDone => False
  end.

Definition after {T} (R : T -> T -> Prop) (t' t : T) : Prop := R t t'.

Lemma worker_acc wk : Acc (after own_step) wk.
Proof.
  assert (Hdone : Acc (after own_step) WDone) by (constructor; intros y []).
  assert (Hidle : Acc (after own_step) WIdle) by (constructor; by intros y ->).
  destruct wk as [|x p|]; [done| |done].
  induction p as [r|X c k IH]; constructor.
  - by intros y ->.
  - intros y [a ->]. apply IH.
Qed.

(** One element of a list moves. *)
Definition one_step {T} (R : T -> T -> Prop) (l l' : list T) : Prop :=
  exists i x y, l !! i = Some x /\ R x y /\ l' = <[i := y]> l.

Lemma one_step_acc {T} (R : T -> T -> Prop) :
  (forall t, Acc (after R) t) -> forall l, Acc (after (one_step R)) l.
Proof.
  intros HR l. induction l as [|t l IHl]; [by constructor; intros y (i & x & z & Hi & _)|].
  revert l IHl. induction (HR t) as [t _ IHt]. intros l Hl.
  induction (id Hl) as [l _ IHl]. constructor. intros l' ([|i] & x & y & Hi & Hxy & ->); simpl in *.
  - simplify_eq. by apply IHt.
  - assert (Hs : after (one_step R) (<[i := y]> l) l) by by exists i, x, y.
    apply IHl; [done|]. by apply (Acc_inv Hl).
Qed.

Lemma config_acc rest : forall ws pr w, Acc (after wstep) (mkConfig rest ws pr w).
Proof.
  induction rest as [|x rest IHrest]; intros ws;
    induction (one_step_acc own_step worker_acc ws) as [ws _ IHws]; intros pr w;
    constructor; intros cf Hcf; unfold after in Hcf; inversion Hcf; subst; auto;
    apply IHws; unfold after, one_step; do 3 eexists;
    (split; [eassumption|split; [|reflexivity]]); simpl; eauto.
Qed.

(** ** Every item is processed *)

Definition in_hand (wk : worker) : list I := match wk with WBusy x _ => [x] | _ => [] end.

Definition keeps (items : list I) (cf : config) : Prop :=
  processed cf ++ (workers cf ≫= in_hand) ++ remaining cf ≡ₚ items /\
  (WDone ∈ workers cf -> remaining cf = []).

Lemma hands_insert ws i wk wk' :
  ws !! i = Some wk ->
  in_hand wk ++ (<[i := wk']> ws ≫= in_hand) ≡ₚ in_hand wk' ++ (ws ≫= in_hand).
Proof.
  revert i. induction ws as [|v ws IH]; intros [|i] Hi; simpl in *; [done..| |].
  - simplify_eq. rewrite !app_assoc. f_equiv. apply Permutation_app_comm.
  - rewrite (Permutation_app_swap_app (in_hand wk)), (IH i Hi).
    apply Permutation_app_swap_app.
Qed.

Lemma done_insert (ws : list worker) i wk :
  wk <> WDone -> WDone ∈ <[i := wk]> ws -> WDone ∈ ws.
Proof.
  intros Hwk [j Hj]%list_elem_of_lookup. apply list_lookup_insert_Some in Hj as [(_ & ? & _)|[_ Hj]];
    [congruence|]. by eapply list_elem_of_lookup_2.
Qed.

Lemma keeps_step items cf cf' : keeps items cf -> wstep cf cf' -> keeps items cf'.
Proof.
  intros [Hp Hd] Hs. unfold keeps in *.
  inversion Hs as [i x rest ws pr w Hi|i x X c k a rest ws pr w w' Hi Ha
                  |i x r rest ws pr w Hi|i ws pr w Hi]; subst; simpl in *.
  - pose proof (hands_insert ws i _ (WBusy x (processor x)) Hi) as Hh. simpl in Hh. split.
    + rewrite <- Hp, Hh. simpl. by rewrite Permutation_middle.
    + intros Hin%done_insert; [|done]. by apply Hd in Hin.
  - pose proof (hands_insert ws i _ (WBusy x (k a)) Hi) as Hh. simpl in Hh.
    apply Permutation_cons_inv in Hh. split; [by rewrite <- Hp, Hh|].
    intros Hin%done_insert; [auto|done].
  - pose proof (hands_insert ws i _ WIdle Hi) as Hh. simpl in Hh. split.
    + rewrite <- Hp, <- Hh. by rewrite <- app_assoc.
    + intros Hin%done_insert; [auto|done].
  - pose proof (hands_insert ws i _ WDone Hi) as Hh. simpl in Hh. split; [|done].
    by rewrite <- Hp, Hh.
Qed.

Lemma keeps_steps items cf cf' : keeps items cf -> rtc wstep cf cf' -> keeps items cf'.
Proof. intros Hk Hr. induction Hr; eauto using keeps_step. Qed.

Lemma keeps_start items n w : keeps items (runInParallel items n w).
Proof.
  split; simpl.
  - induction n as [|n IH]; simpl; [done|exact IH].
  - intros [Hx _]%elem_of_replicate. done.
Qed.

(** A worker that has not ended can move. *)
Lemma progress cf :
  (forall X (c : E X) w, exists a w', ans X c w a w') ->
  (exists cf', wstep cf cf') \/ (forall wk, wk ∈ workers cf -> wk = WDone).
Proof.
  intros Hans. destruct cf as [rest ws pr w]. simpl.
  assert (Hd : (exists i wk, ws !! i = Some wk /\ wk <> WDone) \/ forall wk, wk ∈ ws -> wk = WDone).
  { induction ws as [|[| |] ws [(i & wk & Hi & Hwk)|IH]];
      try (by left; exists 0%nat; eexists); try (by left; exists (S i), wk).
    - right. by intros wk Hwk%not_elem_of_nil.
    - right. intros wk Hwk. apply elem_of_cons in Hwk as [->|Hwk]; [done|auto]. }
  destruct Hd as [(i & wk & Hi & Hwk)|]; [left|by right].
  destruct wk as [|x [r|X c k]|]; [| | |done].
  - destruct rest; eexists; by econstructor.
  - eexists. by eapply w_finish.
  - destruct (Hans X c w) as (a & w' & Ha). eexists. by eapply w_call.
Qed.

Lemma workers_length cf cf' : wstep cf cf' -> length (workers cf') = length (workers cf).
Proof. destruct 1; simpl; apply length_insert. Qed.

Lemma done_all_processed items n w cf :
  (0 < n)%nat -> rtc wstep (runInParallel items n w) cf ->
  (forall wk, wk ∈ workers cf -> wk = WDone) -> processed cf ≡ₚ items.
Proof.
  intros Hn Hr Hall.
  destruct (keeps_steps items _ _ (keeps_start items n w) Hr) as [Hp Hd].
  assert (Hlen : length (workers cf) = n).
  { transitivity (length (workers (runInParallel items n w))); [|apply length_replicate].
    clear -Hr. induction Hr as [|cf1 cf2 cf3 Hs _ IH]; [done|].
    by rewrite IH, (workers_length _ _ Hs). }
  assert (Hnil : (workers cf ≫= in_hand) = []).
  { clear -Hall. induction (workers cf) as [|v ws IH]; [done|].
    rewrite bind_cons, IH by (intros wk Hwk; apply Hall; by constructor).
    by rewrite (Hall v) by constructor. }
  rewrite Hd, Hnil, !app_nil_r in Hp; [done|].
  destruct (workers cf) as [|v ws]; [simpl in Hlen; lia|].
  rewrite (Hall v) by constructor. constructor.
Qed.

End World.

(** ** Schedules

    Executions of workers whose calls have one answer in each world: a schedule says
    which worker moves next. *)

Section Schedule.
Context {E : Type -> Type} {W I A : Type} (answer : forall X, E X -> W -> X * W)
  (processor : I -> program E (result A)).

Definition answers (X : Type) (c : E X) (w : W) (x : X) (w' : W) : Prop :=
  answer X c w = (x, w').

Definition move (i : nat) (cf : config) : option config :=
  match workers cf !! i with
  | Some WIdle =>
      match remaining cf with
      | x :: rest => Some (mkConfig rest (<[i := WBusy x (processor x)]> (workers cf))
                             (processed cf) (world cf))
      | [] => Some (mkConfig [] (<[i := WDone]> (workers cf)) (processed cf) (world cf))
      end
  | Some (WBusy x (Ret _)) =>
      Some (mkConfig (remaining cf) (<[i := WIdle]> (workers cf)) (processed cf ++ [x]) (world cf))
  | Some (WBusy x (@Call _ _ X c k)) =>
      let '(a, w') := answer X c (world cf) in
      Some (mkConfig (remaining cf) (<[i := WBusy x (k a)]> (workers cf)) (processed cf) w')
  | _ => None
  end.

Fixpoint scheduled (order : list nat) (cf : config) : option config :=
  match order with
  | [] => Some cf
  | i :: order => match move i cf with Some cf' => scheduled order cf' | None => None end
  end.

(** One program alone. *)
Fixpoint wrun {B} (p : program E B) (w : W) : list (happening E) * B * W :=
  match p with
  | Ret b => ([], b, w)
  | @Call _ _ X c k => let '(x, w1) := answer X c w in
                     let '(tr, b, w2) := wrun (k x) w1 in (Ev c x :: tr, b, w2)
  end.

Lemma wrun_wexec {B} (p : program E B) (P : forall X, E X -> W -> X -> W -> Prop) :
  (forall X c w, P X c w (fst (answer X c w)) (snd (answer X c w))) ->
  forall w, wexec P w p (fst (fst (wrun p w))) (snd (fst (wrun p w))) (snd (wrun p w)).
Proof.
  intros HP. induction p as [b|X c k IH]; intros w; simpl; [constructor|].
  pose proof (HP X c w) as Hc. destruct (answer X c w) as [x w1]. simpl in Hc.
  specialize (IH x w1). destruct (wrun (k x) w1) as [[tr b] w2]. by econstructor.
Qed.

Lemma move_step i cf cf' : move i cf = Some cf' -> wstep answers processor cf cf'.
Proof.
  unfold move. destruct cf as [rest ws pr w]. simpl.
  destruct (ws !! i) as [[|x [r|X c k]|]|] eqn:Hi; try done.
  - destruct rest; intros [= <-]; by constructor.
  - intros [= <-]. by eapply w_finish.
  - destruct (answer X c w) as [a w'] eqn:Ha. intros [= <-]. by eapply w_call.
Qed.

Lemma scheduled_steps order cf cf' :
  scheduled order cf = Some cf' -> rtc (wstep answers processor) cf cf'.
Proof.
  revert cf. induction order as [|i order IH]; intros cf; simpl; [intros [= ->]; constructor|].
  destruct (move i cf) as [cf1|] eqn:Hm; [|done]. intros Hs.
  eapply rtc_l; [by eapply move_step|by apply IH].
Qed.

End Schedule.

(** ** Rights earned and spent

    An answer can give a right for a key or use one up.  When no program uses a right
    that it was not given, and deals with one key only, no interleaving of the workers
    uses more rights for a key than were given for it. *)

(** A program with [n] rights that earns them and uses them up. *)
Definition budget {E} (gain cost : happening E -> nat) (n : nat) (ev : happening E) (n' : nat)
    : Prop := (n' + cost ev = n + gain ev)%nat.

Lemma sum_list_insert (l : list nat) j a b :
  l !! j = Some a -> (sum_list (<[j := b]> l) + a = sum_list l + b)%nat.
Proof.
  revert j. induction l as [|x l IH]; intros [|j] Hj; simpl in *; simplify_eq; [lia|].
  specialize (IH j Hj). lia.
Qed.

Section OwnBudget.
Context {E : Type -> Type} {K : Type} (gain cost : K -> happening E -> nat).

Definition own (k : K) (ev : happening E) : Prop :=
  forall j, j <> k -> gain j ev = 0%nat /\ cost j ev = 0%nat.
Definition own_budget (k : K) (n : nat) (ev : happening E) (n' : nat) : Prop :=
  own k ev /\ budget (gain k) (cost k) n ev n'.
End OwnBudget.

Section Rights.
Context {E : Type -> Type} {W I K A : Type} `{EqDecision K} (key : I -> K)
  (ans : forall X, E X -> W -> X -> W -> Prop)
  (job : I -> program E (result A)) (gain cost : K -> happening E -> nat)
  (given used : W -> K -> nat).

Context (Hans : forall ev w w', ev_ans ans ev w w' -> forall j,
  given w' j = (given w j + gain j ev)%nat /\ used w' j = (used w j + cost j ev)%nat).
Context (Hjob : forall i, follows (own_budget gain cost (key i)) (job i) 0%nat (fun _ _ => True)).

(** The rights that a worker holds for a key. *)
Definition holds (wk : @worker E I A) (h : option K * nat) : Prop :=
  match wk with
  | WBusy i p => h.1 = Some (key i) /\ follows (own_budget gain cost (key i)) p h.2 (fun _ _ => True)
  | _ => h.2 = 0%nat
  end.
Definition share (j : K) (h : option K * nat) : nat := if decide (h.1 = Some j) then h.2 else 0%nat.
Definition within_rights (cf : @config E W I A) : Prop :=
  exists hs, Forall2 holds (workers cf) hs /\
    forall j, (used (world cf) j + sum_list (share j <$> hs) <= given (world cf) j)%nat.

Lemma share_insert j hs k h h' : hs !! k = Some h ->
  (sum_list (share j <$> <[k := h']> hs) + share j h = sum_list (share j <$> hs) + share j h')%nat.
Proof.
  intros Hk. rewrite list_fmap_insert. apply sum_list_insert. by rewrite list_lookup_fmap, Hk.
Qed.

(** A worker and its rights replaced by others. *)
Lemma rights_replace hs ws k wk wk' (wd wd' : W) :
  Forall2 holds ws hs -> ws !! k = Some wk ->
  (forall j, used wd j + sum_list (share j <$> hs) <= given wd j)%nat ->
  (forall h, holds wk h -> exists h', holds wk' h' /\
     forall j, (used wd' j + share j h' + given wd j <= used wd j + share j h + given wd' j)%nat) ->
  exists hs', Forall2 holds (<[k := wk']> ws) hs' /\
    forall j, (used wd' j + sum_list (share j <$> hs') <= given wd' j)%nat.
Proof.
  intros Hf Hk Hcov Hle. destruct (Forall2_lookup_l _ _ _ _ _ Hf Hk) as (h & Hh & Hwk).
  destruct (Hle h Hwk) as (h' & Hh' & Hj). exists (<[k := h']> hs).
  split; [by apply Forall2_insert|]. intros j.
  pose proof (share_insert j hs k h h' Hh). specialize (Hj j). specialize (Hcov j). lia.
Qed.

Lemma share_zero j i : share j (i, 0%nat) = 0%nat.
Proof. unfold share. by case_decide. Qed.

Lemma rights_step cf cf' : wstep ans job cf cf' -> within_rights cf -> within_rights cf'.
Proof.
  intros Hs (hs & Hf & Hcov).
  destruct Hs as [k x rest ws pr w Hk|k x X c kk a rest ws pr w w' Hk Ha|k x r rest ws pr w Hk
                 |k ws pr w Hk]; unfold within_rights; simpl in *;
    (eapply rights_replace; [exact Hf|exact Hk|exact Hcov|]); intros h Hh; simpl in Hh.
  - exists (Some (key x), 0%nat). split; [split; [done|]; by apply Hjob|].
    intros j. rewrite share_zero. lia.
  - destruct h as [i n], Hh as [Hi Hfq]. simpl in Hi, Hfq. subst i.
    destruct (Hfq a) as (n' & [Ho Hb] & Hk').
    exists (Some (key x), n'). split; [by split|]. intros j. destruct (Hans (Ev c a) w w' Ha j) as [-> ->].
    unfold share, budget in *. cbn [fst snd]. case_decide; simplify_eq; [lia|].
    destruct (Ho j) as [-> ->]; [congruence|lia].
  - exists (Some (key x), 0%nat). split; [done|]. intros j. rewrite share_zero. lia.
  - exists (None, 0%nat). split; [done|]. intros j. rewrite share_zero. lia.
Qed.

(** No interleaving uses more rights than were given. *)
Lemma rights_respected (items : list I) (n : nat) (w : W) cf :
  (forall j, used w j <= given w j)%nat ->
  rtc (wstep ans job) (runInParallel items n w) cf ->
  forall j, (used (world cf) j <= given (world cf) j)%nat.
Proof.
  intros Hw Hr. assert (Hc : within_rights cf).
  { assert (H0 : within_rights (runInParallel items n w)).
    { exists (replicate n (None, 0%nat)). split; [by apply Forall2_replicate|]. intros j.
      rewrite fmap_replicate, share_zero, sum_list_replicate. specialize (Hw j). simpl. lia. }
    revert H0. clear Hw. induction Hr; eauto using rights_step. }
  destruct Hc as (hs & _ & Hj). intros j. specialize (Hj j). lia.
Qed.
End Rights.

(** *** Calls tagged with a key

    Calls that do not tell the key they are made for are tagged with it. *)

Inductive tagged (I : Type) (E : Type -> Type) : Type -> Type :=
| Tag {X} (i : I) (c : E X) : tagged I E X.
Arguments Tag {I E X} i c.

Definition tag {I E A} (i : I) (p : program E A) : program (tagged I E) A :=
  interp (fun X c => do_call (Tag i c)) p.

Definition untag {I E} (ev : happening (tagged I E)) : happening E :=
  match ev with
  | @Ev _ X c x => match c in tagged _ _ X return X -> happening E with
                   | Tag _ c => fun x => Ev c x
                   end x
  end.
Definition tag_of {I E} (ev : happening (tagged I E)) : I :=
  match ev with @Ev _ X c x => match c with Tag i _ => i end end.

Section Tags.
Context {E : Type -> Type} {K : Type} `{EqDecision K} (gain cost : K -> happening E -> nat).

Definition only (n : K -> happening E -> nat) (j : K) (ev : happening (tagged K E)) : nat :=
  if decide (tag_of ev = j) then n j (untag ev) else 0%nat.

Lemma tag_follows {A} i (p : program E A) n :
  follows (budget (gain i) (cost i)) p n (fun _ _ => True) ->
  follows (own_budget (only gain) (only cost) i) (tag i p) n (fun _ _ => True).
Proof.
  apply follows_interp. intros X c ph Q HQ x. destruct (HQ x) as (ph' & Hs & Hq).
  exists ph'. split; [|done]. unfold own_budget, own, budget, only. simpl. split.
  - intros j Hj. by rewrite !decide_False by congruence.
  - rewrite !decide_True by done. exact Hs.
Qed.
End Tags.

(** ** Contracts

    Workers that only know what the steps of the others leave true.  [grows] relates a
    world to those that follow it; a call is made when its precondition is known, and its
    answer tells its postcondition. *)

Section Contracts.
Context {E : Type -> Type} {W I A : Type} (ans : forall X, E X -> W -> X -> W -> Prop)
  (inv : W -> Prop) (grows : W -> W -> Prop) `{!PreOrder grows}
  (pre : forall X, E X -> W -> Prop) (post : forall X, E X -> X -> W -> Prop).

(** The calls of a program are made when they may, whatever the others do. *)
Fixpoint keeps_to {B} (p : program E B) (w : W) (Q : B -> W -> Prop) : Prop :=
  match p with
  | Ret b => Q b w
  | @Call _ _ X c k => pre X c w /\
      forall x w', grows w w' -> inv w' -> post X c x w' -> keeps_to (k x) w' Q
  end.

Lemma keeps_to_mono {B} (p : program E B) w (Q Q' : B -> W -> Prop) :
  keeps_to p w Q -> (forall b w', Q b w' -> Q' b w') -> keeps_to p w Q'.
Proof.
  revert w. induction p as [b|X c k IH]; intros w Hp HQ; simpl in *; [auto|].
  destruct Hp as [Hc Hk]. split; [done|]. eauto.
Qed.

Lemma keeps_to_bind {B D} (p : program E B) (k : B -> program E D) w (Q : D -> W -> Prop) :
  keeps_to p w (fun b w' => keeps_to (k b) w' Q) -> keeps_to (pbind p k) w Q.
Proof.
  revert w. induction p as [b|X c f IH]; intros w Hp; simpl in *; [done|].
  destruct Hp as [Hc Hk]. split; [done|]. eauto.
Qed.

(** The next call of a handler that returns the errors it is answered. *)
Lemma keeps_to_await {X B} (c : E (result X)) (k : X -> program E (result B)) w
    (Q : result B -> W -> Prop) :
  pre _ c w ->
  (forall x w', grows w w' -> inv w' -> post _ c (Ok x) w' -> keeps_to (k x) w' Q) ->
  (forall e w', Q (Er e) w') -> (forall e w', Q (Throw e) w') ->
  keeps_to (rpbind (do_call c) k) w Q.
Proof. intros Hp Hk He Ht. split; [done|]. intros [x|e|e] w' Hg Hi Hq; simpl; auto. Qed.

(** A check without calls. *)
Lemma keeps_to_check {X B} (r : result X) (k : X -> program E (result B)) w
    (Q : result B -> W -> Prop) :
  (forall x, r = Ok x -> keeps_to (k x) w Q) ->
  (forall e w', Q (Er e) w') -> (forall e w', Q (Throw e) w') ->
  keeps_to (rpbind (Ret r) k) w Q.
Proof. intros Hk He Ht. destruct r as [x|e|e]; [by apply Hk|apply He|apply Ht]. Qed.

Context (Hstable : forall X (c : E X) w w', pre X c w -> grows w w' -> pre X c w')
  (Hans : forall X (c : E X) w x w', inv w -> pre X c w -> ans X c w x w' ->
     inv w' /\ grows w w' /\ post X c x w').

Definition sure {B} (_ : B) (_ : W) : Prop := True.

Lemma keeps_to_grows {B} (p : program E B) w w' :
  keeps_to p w sure -> grows w w' -> keeps_to p w' sure.
Proof.
  destruct p as [b|X c k]; simpl; [done|]. intros [Hc Hk] Hg. split; [by eapply Hstable|].
  intros x w2 Hg2 Hi Hp. apply Hk; [by etransitivity|done..].
Qed.

Context (job : I -> program E (result A)) (Hjob : forall i w, inv w -> keeps_to (job i) w sure).

Definition under_contract (w0 : W) (cf : @config E W I A) : Prop :=
  inv (world cf) /\ grows w0 (world cf) /\
  Forall (fun wk => match wk with WBusy _ p => keeps_to p (world cf) sure | _ => True end)
    (workers cf).

Lemma contract_step w0 cf cf' : under_contract w0 cf -> wstep ans job cf cf' ->
  under_contract w0 cf'.
Proof.
  intros (Hi & Hg & Hf) Hs. unfold under_contract. destruct Hs as [k x rest ws pr w Hk
    |k x X c kk a rest ws pr w w' Hk Ha|k x r rest ws pr w Hk|k ws pr w Hk]; simpl in *.
  - split_and!; [done..|]. apply Forall_insert; [done|by apply Hjob].
  - destruct (Forall_lookup_1 _ _ _ _ Hf Hk) as [Hc Hkk].
    destruct (Hans _ _ _ _ _ Hi Hc Ha) as (Hi' & Hg' & Hp). split_and!; [done|by etransitivity|].
    apply Forall_insert; [|by apply Hkk]. eapply Forall_impl; [exact Hf|].
    intros [|y p|] Hy; [done|by eapply keeps_to_grows|done].
  - split_and!; [done..|]. by apply Forall_insert.
  - split_and!; [done..|]. by apply Forall_insert.
Qed.

(** Handlers that keep to their contracts preserve the invariant in every interleaving. *)
Lemma contracts_kept (items : list I) (n : nat) (w : W) cf :
  inv w -> rtc (wstep ans job) (runInParallel items n w) cf ->
  inv (world cf) /\ grows w (world cf).
Proof.
  intros Hw Hr. assert (H0 : under_contract w (runInParallel items n w)).
  { split_and!; [done|reflexivity|]. simpl. apply Forall_replicate. exact Logic.I. }
  assert (Hc : under_contract w cf) by (induction Hr; eauto using contract_step).
  by destruct Hc as (? & ? & _).
Qed.

(** One handler alone. *)
Lemma keeps_to_always {B} (p : program E B) w Q :
  inv w -> keeps_to p w Q -> always ans p w (fun b w' => inv w' /\ Q b w').
Proof.
  revert w. induction p as [b|X c k IH]; intros w Hi Hp; simpl in *; [done|].
  destruct Hp as [Hc Hk]. intros x w' Ha. destruct (Hans _ _ _ _ _ Hi Hc Ha) as (? & ? & ?).
  apply IH; auto.
Qed.

(** One handler among others, which may move before each of its calls. *)
Definition amid (X : Type) (c : E X) (w : W) (x : X) (w' : W) : Prop :=
  exists w1, grows w w1 /\ inv w1 /\ ans X c w1 x w'.

Lemma keeps_to_amid {B} (p : program E B) w Q :
  keeps_to p w Q -> always amid p w Q.
Proof.
  revert w. induction p as [b|X c k IH]; intros w Hp; simpl in *; [done|].
  destruct Hp as [Hc Hk]. intros x w' (w1 & Hg & Hi & Ha).
  destruct (Hans _ _ _ _ _ Hi (Hstable _ _ _ _ Hc Hg) Ha) as (Hi' & Hg' & Hp).
  apply IH, Hk; [by transitivity w1|done..].
Qed.
End Contracts.

(** What every answer preserves is an invariant. *)
Lemma world_invariant {E W I A} (ans : forall X, E X -> W -> X -> W -> Prop)
    (processor : I -> program E (result A)) (P : W -> Prop) items n w cf :
  (forall X (c : E X) w x w', P w -> ans X c w x w' -> P w') -> P w ->
  rtc (wstep ans processor) (runInParallel items n w) cf -> P (world cf).
Proof.
  intros Hans Hw Hr. assert (Hstart : P (world (@runInParallel E W I A items n w))) by exact Hw.
  revert Hstart. clear Hw. induction Hr as [cf|cf cf1 cf2 Hs _ IH]; [done|]. intros Hp. apply IH.
  destruct Hs; simpl in *; try exact Hp. by eapply Hans.
Qed.

Lemma wstep_mono {E W I A} (ans1 ans2 : forall X, E X -> W -> X -> W -> Prop)
    (processor : I -> program E (result A)) cf cf' :
  (forall X c w x w', ans1 X c w x w' -> ans2 X c w x w') ->
  wstep ans1 processor cf cf' -> wstep ans2 processor cf cf'.
Proof. intros Ha Hs. destruct Hs; econstructor; eauto. Qed.

Lemma scheduled_runs {E W I A} (answer : forall X, E X -> W -> X * W)
    (ans : forall X, E X -> W -> X -> W -> Prop) (processor : I -> program E (result A))
    order cf cf' :
  (forall X c w, ans X c w (fst (answer X c w)) (snd (answer X c w))) ->
  scheduled answer processor order cf = Some cf' -> rtc (wstep ans processor) cf cf'.
Proof.
  intros Ha Hs. apply scheduled_steps in Hs. induction Hs as [|cf cf1 cf2 Hs _ IH]; [constructor|].
  eapply rtc_l; [|exact IH]. eapply wstep_mono; [|exact Hs].
  intros X c w x w' Hx. unfold answers in Hx. specialize (Ha X c w). by rewrite Hx in Ha.
Qed.

Module WorkersClaims.
Section Claims.
Context {E : Type -> Type} {W I A : Type} (ans : forall X, E X -> W -> X -> W -> Prop)
  (processor : I -> program E (result A)).

(** C32. With at least one worker and services that answer every call, runInParallel
    terminates under every interleaving of its workers: there is no infinite run,
    and a state in which no worker can move is one in which all workers are done and
    every item of the iterator was processed exactly once. *)
Theorem runInParallel_processes_all (items : list I) (n : nat) (w : W)
    (Hn : (0 < n)%nat) (Hans : forall X (c : E X) w, exists a w', ans X c w a w') :
  Acc (after (wstep ans processor)) (runInParallel items n w) /\
  forall cf, rtc (wstep ans processor) (runInParallel items n w) cf ->
    (exists cf', wstep ans processor cf cf') \/
    ((forall wk, wk ∈ workers cf -> wk = WDone) /\ processed cf ≡ₚ items).
Proof.
  split; [apply config_acc|]. intros cf Hr.
  destruct (progress ans processor cf Hans) as [Hs|Hall]; [by left|right].
  split; [done|]. by eapply done_all_processed.
Qed.
End Claims.

Lemma runInParallel_processes_all_witness :
  Acc (after (wstep (answers (fun X c (w : unit) => (failing_env X c, w)))
         (fun h => do_call (InvoiceMarkAsPaid h)))) (runInParallel ["h1"; "h2"; "h3"]%string 2 tt).
Proof.
  apply (runInParallel_processes_all (answers (fun X c (w : unit) => (failing_env X c, w)))
           (fun h => do_call (InvoiceMarkAsPaid h)) ["h1"; "h2"; "h3"]%string 2 tt); [lia|].
  intros X c w. by exists (failing_env X c), w.
Defined.
End WorkersClaims.
