(* ===== verification/Payments.v ===== *)
(** * Sending payments

    The handlers of [lib/app/payments] ([helpers.js], [send-lightning.js],
    [send-intraledger.js]), of [lib/app/wallets/reimburse-fee.js] and the mid
    price of [lib/app/shared/mid-price.js], as programs of [Effects].  Attributes
    added to the tracing span and log lines are left out. *)

From S2P Require Import Prelude JsNum Errors Money Ledger PaymentFlow Validation Accounts TxMetadata Facade LedgerService Programs Effects.
Import AmountCalculator PriceRatio CheckedAmounts.
#[local] Open Scope string_scope.
#[local] Open Scope Z_scope.
#[local] Open Scope list_scope.

(** ** [app/shared/mid-price.js] *)

Module MidPrice.

(** [dealerMid] is the answer of [getCentsPerSatsExchangeMidRate], [price] the one
    of [getCurrentPrice] and [precision] the configured [RATIO_PRECISION]. *)
Definition getCurrentPriceInCentsPerSat (precision : number) (price : result number)
    : result priceRatio :=
  let* p := price in
  toPriceRatio precision (num_mul p CENTS_PER_USD).

Definition getMidPriceRatio (precision : number) (usdHedgeEnabled : bool)
    (dealerMid : result priceRatio) (price : result number) : result priceRatio :=
  if usdHedgeEnabled then
    match dealerMid with
    | Er _ => getCurrentPriceInCentsPerSat precision price
    | r => r
    end
  else getCurrentPriceInCentsPerSat precision price.

Definition usdFromBtcMidPriceFn (mid : result priceRatio) (a : PaymentAmount)
    : result PaymentAmount :=
  let* midPriceRatio := mid in convertFromBtc midPriceRatio a.

Definition btcFromUsdMidPriceFn (mid : result priceRatio) (a : PaymentAmount)
    : result PaymentAmount :=
  let* midPriceRatio := mid in convertFromUsd midPriceRatio a.

End MidPrice.
Import MidPrice.

(** ** Settings of the handlers *)

(** [ONE_DAY], [MS_PER_DAY] and [MIN_SATS_FOR_PRICE_RATIO_PRECISION] of
    [config/index.js]. *)
Definition ONE_DAY : number := num 1.
Definition MS_PER_DAY : Z := 24 * (60 * 60 * 1000).
Definition MIN_SATS_FOR_PRICE_RATIO_PRECISION : Z := 5000.

(** [timestampDaysAgo] and [checkedInteger] of [utils/index.js]. *)
Definition checkedInteger (n : number) : result number :=
  if isInteger n then Ok n else Er (new NonIntegerError).

Definition timestampDaysAgo (now : Z) (days : number) : result Z :=
  let* d := checkedInteger days in
  Ok (now - num_val d * MS_PER_DAY).

Record Settings : Type := mkSettings {
  set_now : Z;
  set_limits : LimitsConfig;
  set_pubkeysToSkipProbe : list string;
  set_mid : Builder.PriceFns;
  set_hedgeBuyUsd : Builder.PriceFns;
  set_hedgeSellUsd : Builder.PriceFns;
  set_futureBuyUsd : Builder.PriceFns;
  set_futureSellUsd : Builder.PriceFns;
  set_decodeInvoice : string -> result LnInvoice
}.

Definition descriptor (w : Wallet) : WalletDescriptor := mkWallet (w_id w) (w_currency w).

Section Handlers.
Context (cfg : Settings).

(** ** [app/payments/helpers.js] *)

(** The common body of the three checks: the volume of the last day, the account
    and its limits, then the check. *)
Definition check_limits (group : TxnGroup)
    (check : AccountLimits -> priceRatio -> PaymentAmount -> PaymentAmount -> result unit)
    (amt : PaymentAmount) (wallet : Wallet) (r : priceRatio) : prog (result unit) :=
  await timestamp1Day <- Ret (timestampDaysAgo (set_now cfg) ONE_DAY) ;;
  await walletVolume <- do_call (LedgerVolumeSince group (descriptor wallet) timestamp1Day) ;;
  await account <- do_call (AccountFindById (w_accountId wallet)) ;;
  let accountLimits := getAccountLimits (set_limits cfg) (acc_level account) in
  Ret (check accountLimits r amt (va_outgoing walletVolume)).

Definition newCheckIntraledgerLimits : PaymentAmount -> Wallet -> priceRatio -> prog (result unit) :=
  check_limits intraledgerTxBaseVolumeSince checkIntraledger.
Definition newCheckTradeIntraAccountLimits
    : PaymentAmount -> Wallet -> priceRatio -> prog (result unit) :=
  check_limits tradeIntraAccountTxBaseVolumeSince checkTradeIntraAccount.
Definition newCheckWithdrawalLimits : PaymentAmount -> Wallet -> priceRatio -> prog (result unit) :=
  check_limits externalPaymentVolumeSince checkWithdrawal.

Definition getPriceRatioForLimits (f : PaymentFlow) : result priceRatio :=
  let amt := MIN_SATS_FOR_PRICE_RATIO_PRECISION in
  if amount (pf_btcPaymentAmount f) <? amt then
    let btcPaymentAmountForRatio := mkAmount amt Btc in
    let* usdPaymentAmountForRatio :=
      Builder.usdFromBtc (set_mid cfg) btcPaymentAmountForRatio in
    PriceRatio usdPaymentAmountForRatio btcPaymentAmountForRatio
  else PriceRatio (pf_usdPaymentAmount f) (pf_btcPaymentAmount f).

Definition recipientDetailsFromInvoice (invoice : LnInvoice)
    : prog (result Builder.RecipientArgs) :=
  await walletInvoice <- do_call (InvoiceFindByPaymentHash (inv_paymentHash invoice)) ;;
  if wi_paid walletInvoice
  then Ret (Er (new_msg AlreadyPaidError (wi_paymentHash walletInvoice)))
  else
    await recipientWallet <- do_call (WalletFindById (wd_id (wi_recipient walletInvoice))) ;;
    await recipientAccount <- do_call (AccountFindById (w_accountId recipientWallet)) ;;
    Ret (Ok (Builder.mkRecipientArgs (wd_id (wi_recipient walletInvoice))
               (wd_currency (wi_recipient walletInvoice)) (acc_id recipientAccount)
               (Some (wi_pubkey walletInvoice)) (wi_usdAmount walletInvoice)
               (acc_username recipientAccount))).

(** [builder.isIntraLedger()] as a condition: on the object of an error the method
    returns a promise, which is truthy. *)
Definition isIntraLedger_truthy (b : Builder.builder Builder.SenderState) : bool :=
  match b with
  | Builder.Builder s => Builder.isIntraLedger_sender s
  | Builder.WithError _ => true
  end.

(** [builder.isIntraLedger() === true]. *)
Definition isIntraLedger_is_true (b : Builder.builder Builder.SenderState) : bool :=
  match b with
  | Builder.Builder s => Builder.isIntraLedger_sender s
  | Builder.WithError _ => false
  end.

Definition conversion := Builder.builder (result Builder.ConversionState).

Definition constructPaymentFlowBuilder (senderWallet : Wallet) (invoice : LnInvoice)
    (uncheckedAmount : option number) : prog (result conversion) :=
  await lnd <- do_call LndService ;;
  let bcfg := Builder.mkConfig (lnd_pubkeys lnd) (set_pubkeysToSkipProbe cfg) in
  await builderWithInvoice <- Ret
    (match uncheckedAmount with
     | Some a => if num_truthy a then Builder.withNoAmountInvoice bcfg invoice a
                 else Builder.withInvoice bcfg invoice
     | None => Builder.withInvoice bcfg invoice
     end) ;;
  await builderWithSenderWallet <- Ret
    (Builder.withSenderWallet builderWithInvoice senderWallet) ;;
  await builderAfterRecipientStep <-
    (if isIntraLedger_truthy builderWithSenderWallet then
       await recipientDetails <- recipientDetailsFromInvoice invoice ;;
       Ret (Ok (Builder.withRecipientWallet builderWithSenderWallet recipientDetails))
     else Ret (Ok (Builder.withoutRecipientWallet builderWithSenderWallet))) ;;
  let builderWithConversion :=
    Builder.withConversion builderAfterRecipientStep (set_now cfg) (set_mid cfg)
      (set_hedgeBuyUsd cfg) (set_hedgeSellUsd cfg) in
  match Builder.usdPaymentAmount builderWithConversion with
  | Throw e => Ret (Throw e)
  | Er e => if is_a e InvalidZeroAmountPriceRatioInputError
               && isIntraLedger_is_true builderWithSenderWallet
            then Ret (Er (new ZeroAmountForUsdRecipientError))
            else Ret (Ok builderWithConversion)
  | Ok _ => Ret (Ok builderWithConversion)
  end.

(** ** [app/wallets/reimburse-fee.js] *)

Definition reimburse_metadata (hash journalId : string) (usdDisplay : number)
    (diff : FeeReimbursement.amounts) : metadata :=
  obj [("hash", MStr hash);
       ("type", MStr (type_string LnFeeReimbursement));
       ("pending", MBool false);
       ("related_journal", MStr journalId);
       ("usd", MNum (hundredth usdDisplay));
       ("satsAmount", toNum (FeeReimbursement.ra_btc diff));
       ("centsAmount", toNum (FeeReimbursement.ra_usd diff));
       ("satsFee", MNum (num 0));
       ("centsFee", MNum (num 0));
       ("displayAmount", MNum usdDisplay);
       ("displayFee", MNum (num 0));
       ("displayCurrency", MStr "USD")].

Definition reimburseFee (f : PaymentFlow) (jid : string) (actualFee : number)
    (preImage : option string) : prog (result unit) :=
  await actualFeeAmount <- Ret (paymentAmountFromNumber (Some actualFee) Btc) ;;
  let maxFeeAmounts :=
    FeeReimbursement.mkAmounts (pf_btcProtocolFee f) (pf_usdProtocolFee f) in
  await r <- Ret (PriceRatio (pf_usdPaymentAmount f) (pf_btcPaymentAmount f)) ;;
  match FeeReimbursement.getReimbursement maxFeeAmounts r actualFeeAmount with
  | Throw e => Ret (Throw e)
  | Er _ => Ret (Ok tt)
  | Ok feeDifference =>
      if amount (FeeReimbursement.ra_btc feeDifference) =? 0 then Ret (Ok tt)
      else
        let display := fromUsdAmount (FeeReimbursement.ra_usd feeDifference) in
        await paymentHash <- Ret (Flow.paymentHashForFlow f) ;;
        await _ <- do_call (FacadeRecordReceive "fee reimbursement"
                              (descriptor (Flow.senderWalletDescriptor f))
                              (mkBoth (FeeReimbursement.ra_usd feeDifference)
                                      (FeeReimbursement.ra_btc feeDifference)) None
                              (reimburse_metadata paymentHash jid display feeDifference)
                              (Some paymentHash) preImage) ;;
        Ret (Ok tt)
  end.

(** ** [app/payments/send-lightning.js] *)

Record InvoiceInputs : Type := mkInputs {
  ii_senderWallet : Wallet;
  ii_decodedInvoice : LnInvoice;
  ii_inputPaymentAmount : PaymentAmount;
  ii_uncheckedAmount : option number
}.

(** The sender's wallet, found and validated for the account. *)
Definition validated_wallet (senderWalletId : string) (senderAccount : Account)
    : prog (result Wallet) :=
  await senderWallet <- do_call (WalletFindById senderWalletId) ;;
  await accountValidator <- Ret (AccountValidator senderAccount) ;;
  await _ <- Ret (validateWalletForAccount accountValidator senderWallet) ;;
  Ret (Ok senderWallet).

Definition validateInvoicePaymentInputs (uncheckedPaymentRequest uncheckedSenderWalletId : string)
    (senderAccount : Account) : prog (result InvoiceInputs) :=
  await senderWalletId <- Ret (checkedToWalletId uncheckedSenderWalletId) ;;
  await decodedInvoice <- Ret (set_decodeInvoice cfg uncheckedPaymentRequest) ;;
  match inv_paymentAmount decodedInvoice with
  | Some lnInvoiceAmount =>
      if 0 <? amount lnInvoiceAmount then
        await senderWallet <- validated_wallet senderWalletId senderAccount ;;
        Ret (Ok (mkInputs senderWallet decodedInvoice lnInvoiceAmount None))
      else Ret (Er (new LnPaymentRequestNonZeroAmountRequiredError))
  | None => Ret (Er (new LnPaymentRequestNonZeroAmountRequiredError))
  end.

Definition has_positive_amount (invoice : LnInvoice) : bool :=
  match inv_paymentAmount invoice with Some a => 0 <? amount a | None => false end.

Definition validateNoAmountInvoicePaymentInputs
    (uncheckedPaymentRequest : string) (amt : number) (uncheckedSenderWalletId : string)
    (senderAccount : Account) : prog (result InvoiceInputs) :=
  await senderWalletId <- Ret (checkedToWalletId uncheckedSenderWalletId) ;;
  await decodedInvoice <- Ret (set_decodeInvoice cfg uncheckedPaymentRequest) ;;
  if has_positive_amount decodedInvoice
  then Ret (Er (new LnPaymentRequestZeroAmountRequiredError))
  else
    await senderWallet <- validated_wallet senderWalletId senderAccount ;;
    await inputPaymentAmount <- Ret
      (if decide (w_currency senderWallet = Btc) then checkedToBtcPaymentAmount (Some amt)
       else checkedToUsdPaymentAmount (Some amt)) ;;
    Ret (Ok (mkInputs senderWallet decodedInvoice inputPaymentAmount (Some amt))).

(** The stored flow of a probe, or a new one. *)
Definition getPaymentFlow (i : InvoiceInputs) : prog (result PaymentFlow) :=
  let! found <- do_call (FlowFindLightning (w_id (ii_senderWallet i))
                           (inv_paymentHash (ii_decodedInvoice i))
                           (amount (ii_inputPaymentAmount i))) ;;
  match found with
  | Er e =>
      if is_a e CouldNotFindLightningPaymentFlowError then
        await builderWithConversion <-
          constructPaymentFlowBuilder (ii_senderWallet i) (ii_decodedInvoice i)
            (ii_uncheckedAmount i) ;;
        await paymentFlow <- Ret (Builder.withoutRoute builderWithConversion) ;;
        await _ <- do_call (FlowPersistNew paymentFlow) ;;
        Ret (Ok paymentFlow)
      else Ret (Er e)
  | r => Ret r
  end.

(** [if (signal.aborted) return new ResourceExpiredLockServiceError(...)]. *)
Definition unless_aborted {A} (k : prog (result A)) : prog (result A) :=
  let! aborted <- do_call SignalAborted ;;
  match aborted with
  | Some message => Ret (Er (new_msg ResourceExpiredLockServiceError message))
  | None => k
  end.

(** [memo || undefined]. *)
Definition memo_or_undefined (memo : option string) : option string :=
  if str_truthy memo then memo else None.

(** The amount in the currency of the recipient. *)
Definition amount_for (c : WalletCurrency) (btc usd : PaymentAmount) : PaymentAmount :=
  mkAmount (if decide (c = Usd) then amount usd else amount btc) c.

Definition ln_intraledger_metadata (f : PaymentFlow) (hash pubkey : string) (same_account : bool)
    (memo senderUsername recipientUsername : option string) : metadata_pair :=
  let display := fromUsdAmount (pf_usdPaymentAmount f) in
  if same_account
  then LnTradeIntraAccountLedgerMetadata hash pubkey f (num 0) display "USD"
         (memo_or_undefined memo)
  else LnIntraledgerLedgerMetadata hash pubkey f (num 0) display "USD" (memo_or_undefined memo)
         senderUsername recipientUsername.

(** The value of the [usd] property of a metadata object. *)
Definition usd_of (m : metadata) : number :=
  match m !! "usd" with Some (MNum n) => n | _ => NaN end.

(** The section of [executePaymentViaIntraledger] under the lock of the wallet. *)
Definition ln_intraledger_body (f : PaymentFlow) (senderWallet recipientWallet : Wallet)
    (paymentHash recipientPubkey recipientWalletId : string) (recipientCurrency : WalletCurrency)
    (senderUsername recipientUsername memo : option string) : prog (result PaymentSendStatus) :=
  await recorded <- do_call (LedgerIsLnTxRecorded paymentHash) ;;
  if (recorded : bool) then Ret (Ok AlreadyPaid)
  else
    await balance <- do_call (LedgerWalletBalance (descriptor senderWallet)) ;;
    await _ <- Ret (Flow.checkBalanceForSend f balance) ;;
    await _ <- Ret (PriceRatio (pf_usdPaymentAmount f) (pf_btcPaymentAmount f)) ;;
    unless_aborted (
      let md := ln_intraledger_metadata f paymentHash recipientPubkey
                  (String.eqb (w_accountId senderWallet) (w_accountId recipientWallet))
                  memo senderUsername recipientUsername in
      match Flow.recipientWalletDescriptor f with
      | None => Ret (Er (new InvalidLightningPaymentFlowBuilderStateError))
      | Some recipientWalletDescriptor =>
          await _ <- do_call (FacadeRecordIntraledger (pf_descriptionFromInvoice f)
                                (descriptor (Flow.senderWalletDescriptor f))
                                (descriptor recipientWalletDescriptor)
                                (mkBoth (pf_usdPaymentAmount f) (pf_btcPaymentAmount f))
                                (fst md) (Some (snd md))) ;;
          await _ <- do_call LndService ;;
          await _ <- do_call (LndCancelInvoice recipientPubkey paymentHash) ;;
          await _ <- do_call (InvoiceMarkAsPaid paymentHash) ;;
          await recipientAccount <- do_call (AccountFindById (w_accountId recipientWallet)) ;;
          await recipientUser <- do_call (UserFindById (acc_ownerId recipientAccount)) ;;
          let! _ <- do_call (NotifyTxReceived (w_accountId recipientWallet) recipientWalletId
                       (amount_for recipientCurrency (pf_btcPaymentAmount f)
                          (pf_usdPaymentAmount f))
                       (usd_of (fst md)) (Some paymentHash) recipientUser) ;;
          Ret (Ok Success)
      end).

Definition executePaymentViaIntraledger (f : PaymentFlow) (senderWallet : Wallet)
    (senderUsername memo : option string) : prog (result PaymentSendStatus) :=
  await priceRatioForLimits <- Ret (getPriceRatioForLimits f) ;;
  await paymentHash <- Ret (Flow.paymentHashForFlow f) ;;
  let d := Flow.recipientDetails f in
  match Flow.rd_walletId d, Flow.rd_walletCurrency d, Flow.rd_pubkey d with
  | Some (String _ _ as recipientWalletId), Some recipientCurrency,
    Some (String _ _ as recipientPubkey) =>
      await recipientWallet <- do_call (WalletFindById recipientWalletId) ;;
      let checkLimits :=
        if String.eqb (w_accountId senderWallet) (w_accountId recipientWallet)
        then newCheckTradeIntraAccountLimits else newCheckIntraledgerLimits in
      await _ <- checkLimits (pf_usdPaymentAmount f) senderWallet priceRatioForLimits ;;
      lockWalletId (w_id senderWallet)
        (ln_intraledger_body f senderWallet recipientWallet paymentHash recipientPubkey
           recipientWalletId recipientCurrency senderUsername (Flow.rd_username d) memo)
  | _, _, _ => Ret (Er (new_msg InvalidLightningPaymentFlowBuilderStateError
                          "Expected recipient details missing"))
  end.

(** What the sender is debited: the amount and the maximal fee. *)
Definition total_of (f : PaymentFlow) : BothAmounts :=
  mkBoth (mkAmount (amount (pf_usdPaymentAmount f) + amount (pf_usdProtocolFee f))
                   (currency (pf_usdPaymentAmount f)))
         (mkAmount (amount (pf_btcPaymentAmount f) + amount (pf_btcProtocolFee f))
                   (currency (pf_btcPaymentAmount f))).

(** [paymentFlow.paymentSentAndPending = true]. *)
Definition mark_pending (f : PaymentFlow) : PaymentFlow :=
  mkPaymentFlow (pf_paymentHash f) (pf_intraLedgerHash f) (pf_senderWalletId f)
    (pf_senderWalletCurrency f) (pf_senderAccountId f) (pf_recipientWalletId f)
    (pf_recipientWalletCurrency f) (pf_recipientAccountId f) (pf_recipientPubkey f)
    (pf_recipientUsername f) (pf_descriptionFromInvoice f) (pf_skipProbeForDestination f)
    (pf_btcPaymentAmount f) (pf_usdPaymentAmount f) (pf_inputAmount f) (pf_createdAt f) true
    (pf_settlementMethod f) (pf_paymentInitiationMethod f) (pf_btcProtocolFee f)
    (pf_usdProtocolFee f) (pf_outgoingNodePubkey f) (pf_cachedRoute f).

(** The call that pays: over the probed route when there is one. *)
Definition pay_call (f : PaymentFlow) (invoice : LnInvoice) : call (result PayInvoiceResult) :=
  let '(rawRoute, outgoingNodePubkey) := Flow.routeDetails f in
  match rawRoute with
  | Some r => LndPayViaRoutes (inv_paymentHash invoice) r outgoingNodePubkey
  | None => LndPayViaPaymentDetails invoice (pf_btcPaymentAmount f) (pf_btcProtocolFee f)
  end.

(** After the node has answered. *)
Definition after_payment (f : PaymentFlow) (invoice : LnInvoice) (jid sentFrom : string)
    (payResult : result PayInvoiceResult) : prog (result PaymentSendStatus) :=
  let paymentHash := inv_paymentHash invoice in
  let finish : prog (result PaymentSendStatus) :=
    match payResult with
    | Er e =>
        if is_a e LnPaymentPendingError then
          let! _ <- do_call (FlowUpdate (mark_pending f)) ;;
          Ret (Ok Pending)
        else
          await _ <- do_call (FacadeSettlePendingLnSend paymentHash) ;;
          await _ <- do_call (FacadeRecordLnSendRevert jid paymentHash) ;;
          if is_a e LnAlreadyPaidError then Ret (Ok AlreadyPaid) else Ret (Er e)
    | Ok res =>
        await _ <- do_call (FacadeSettlePendingLnSend paymentHash) ;;
        match fst (Flow.routeDetails f) with
        | Some _ => Ret (Ok Success)
        | None =>
            await _ <- reimburseFee f jid (roundedUpFee res) (revealedPreImage res) ;;
            Ret (Ok Success)
        end
    | Throw e => Ret (Throw e)
    end in
  match payResult with
  | Throw e => Ret (Throw e)
  | Er e =>
      if is_a e LnAlreadyPaidError then finish
      else let! _ <- do_call (LnPaymentsPersistNew paymentHash (inv_paymentRequest invoice)
                                sentFrom) ;;
           finish
  | Ok res =>
      let! _ <- do_call (LnPaymentsPersistNew paymentHash (inv_paymentRequest invoice)
                           sentFrom) ;;
      let! _ <- do_call (FacadeUpdateMetadataByHash paymentHash (revealedPreImage res)) ;;
      finish
  end.

Definition or_default (o : option string) (d : string) : string :=
  match o with Some (String _ _ as s) => s | _ => d end.

Definition is_some {A} (o : option A) : bool := match o with Some _ => true | None => false end.

(** The section of [executePaymentViaLn] under the lock of the wallet. *)
Definition ln_body (f : PaymentFlow) (invoice : LnInvoice) (senderWallet : Wallet)
    : prog (result PaymentSendStatus) :=
  let paymentHash := inv_paymentHash invoice in
  let '(rawRoute, outgoingNodePubkey) := Flow.routeDetails f in
  await ledgerTransactions <- do_call (LedgerTransactionsByHash paymentHash) ;;
  if existsb ltx_pendingConfirmation ledgerTransactions
  then Ret (Er (new LnPaymentRequestInTransitError))
  else
    await balance <- do_call (LedgerWalletBalance (descriptor senderWallet)) ;;
    await _ <- Ret (Flow.checkBalanceForSend f balance) ;;
    await lnd <- do_call LndService ;;
    await _ <- Ret (PriceRatio (pf_usdPaymentAmount f) (pf_btcPaymentAmount f)) ;;
    unless_aborted (
      let sentFrom := or_default outgoingNodePubkey (lnd_defaultPubkey lnd) in
      let md := LnSendLedgerMetadata paymentHash sentFrom f
                  (fromUsdAmount (pf_usdProtocolFee f)) (fromUsdAmount (pf_usdPaymentAmount f))
                  "USD" (is_some rawRoute) in
      await journal <- do_call (FacadeRecordSend (pf_descriptionFromInvoice f)
                                  (descriptor (Flow.senderWalletDescriptor f)) (total_of f)
                                  None md) ;;
      let! payResult <- do_call (pay_call f invoice) ;;
      after_payment f invoice (journalId journal) sentFrom payResult).

Definition executePaymentViaLn (invoice : LnInvoice) (f : PaymentFlow) (senderWallet : Wallet)
    : prog (result PaymentSendStatus) :=
  await priceRatioForLimits <- Ret (getPriceRatioForLimits f) ;;
  await _ <- newCheckWithdrawalLimits (pf_usdPaymentAmount f) senderWallet priceRatioForLimits ;;
  lockWalletId (w_id senderWallet) (ln_body f invoice senderWallet).

(** The common end of the two entry points. *)
Definition pay_validated (i : result InvoiceInputs) (senderAccount : Account)
    (memo : option string) : prog (result PaymentSendStatus) :=
  match i with
  | Er e => if is_a e AlreadyPaidError then Ret (Ok AlreadyPaid) else Ret (Er e)
  | Throw e => Ret (Throw e)
  | Ok inputs =>
      await f <- getPaymentFlow inputs ;;
      if decide (pf_settlementMethod f = SMIntraLedger)
      then executePaymentViaIntraledger f (ii_senderWallet inputs) (acc_username senderAccount) memo
      else executePaymentViaLn (ii_decodedInvoice inputs) f (ii_senderWallet inputs)
  end.

Definition payInvoiceByWalletId (uncheckedPaymentRequest : string) (memo : option string)
    (uncheckedSenderWalletId : string) (senderAccount : Account)
    : prog (result PaymentSendStatus) :=
  let! validated <- validateInvoicePaymentInputs uncheckedPaymentRequest
                      uncheckedSenderWalletId senderAccount ;;
  pay_validated validated senderAccount memo.

Definition payNoAmountInvoiceByWalletId (uncheckedPaymentRequest : string) (amt : number)
    (memo : option string) (uncheckedSenderWalletId : string) (senderAccount : Account)
    : prog (result PaymentSendStatus) :=
  let! validated <- validateNoAmountInvoicePaymentInputs uncheckedPaymentRequest amt
                      uncheckedSenderWalletId senderAccount ;;
  pay_validated validated senderAccount memo.

(** ** [app/payments/send-intraledger.js] *)

Record IntraledgerInputs : Type := mkIntraledgerInputs {
  il_senderWallet : Wallet;
  il_recipientWallet : Wallet;
  il_recipientAccount : Account
}.

Definition validateIntraledgerPaymentInputs
    (uncheckedSenderWalletId uncheckedRecipientWalletId : string) (senderAccount : Account)
    : prog (result IntraledgerInputs) :=
  await senderWalletId <- Ret (checkedToWalletId uncheckedSenderWalletId) ;;
  await senderWallet <- validated_wallet senderWalletId senderAccount ;;
  await recipientWalletId <- Ret (checkedToWalletId uncheckedRecipientWalletId) ;;
  await recipientWallet <- do_call (WalletFindById recipientWalletId) ;;
  await recipientAccount <- do_call (AccountFindById (w_accountId recipientWallet)) ;;
  Ret (Ok (mkIntraledgerInputs senderWallet recipientWallet recipientAccount)).

Definition walletId_metadata (f : PaymentFlow) (same_account : bool)
    (memo senderUsername recipientUsername : option string) : metadata_pair :=
  let display := fromUsdAmount (pf_usdPaymentAmount f) in
  if same_account
  then (WalletIdTradeIntraAccountLedgerMetadata f (num 0) display "USD" (memo_or_undefined memo),
        obj [])
  else WalletIdIntraledgerLedgerMetadata f (num 0) display "USD" (memo_or_undefined memo)
         senderUsername recipientUsername.

(** The section of its [executePaymentViaIntraledger] under the lock. *)
Definition walletId_body (f : PaymentFlow) (senderAccount : Account)
    (senderWallet : Wallet) (recipientAccount : Account) (recipientWallet : Wallet)
    (recipientCurrency : WalletCurrency) (recipientUsername memo : option string)
    : prog (result PaymentSendStatus) :=
  await balance <- do_call (LedgerWalletBalance (descriptor senderWallet)) ;;
  await _ <- Ret (Flow.checkBalanceForSend f balance) ;;
  await _ <- Ret (PriceRatio (pf_usdPaymentAmount f) (pf_btcPaymentAmount f)) ;;
  unless_aborted (
    let md := walletId_metadata f
                (String.eqb (w_accountId senderWallet) (w_accountId recipientWallet))
                memo (acc_username senderAccount) recipientUsername in
    match Flow.recipientWalletDescriptor f with
    | None => Ret (Er (new InvalidLightningPaymentFlowBuilderStateError))
    | Some recipientWalletDescriptor =>
        await _ <- do_call (FacadeRecordIntraledger (pf_descriptionFromInvoice f)
                              (descriptor (Flow.senderWalletDescriptor f))
                              (descriptor recipientWalletDescriptor)
                              (mkBoth (pf_usdPaymentAmount f) (pf_btcPaymentAmount f))
                              (fst md) (Some (snd md))) ;;
        let totalSendAmounts := Flow.totalAmountsForPayment f in
        await recipientUser <- do_call (UserFindById (acc_ownerId recipientAccount)) ;;
        let amt := if decide (recipientCurrency = Usd)
                   then amount (Flow.p_usd totalSendAmounts)
                   else amount (Flow.p_btc totalSendAmounts) in
        let! _ <- do_call (NotifyTxReceived (w_accountId recipientWallet) (w_id recipientWallet)
                     (mkAmount amt (w_currency recipientWallet)) (usd_of (fst md)) None
                     recipientUser) ;;
        Ret (Ok Success)
    end).

(** [executePaymentViaIntraledger] of [send-intraledger.js]. *)
Definition executeWalletIdPayment (f : PaymentFlow) (senderAccount : Account)
    (senderWallet : Wallet) (recipientAccount : Account) (recipientWallet : Wallet)
    (memo : option string) : prog (result PaymentSendStatus) :=
  await priceRatioForLimits <- Ret (getPriceRatioForLimits f) ;;
  let checkLimits :=
    if String.eqb (w_accountId senderWallet) (w_accountId recipientWallet)
    then newCheckTradeIntraAccountLimits else newCheckIntraledgerLimits in
  await _ <- checkLimits (pf_usdPaymentAmount f) senderWallet priceRatioForLimits ;;
  let d := Flow.recipientDetails f in
  match Flow.rd_walletId d, Flow.rd_walletCurrency d with
  | Some (String _ _), Some recipientCurrency =>
      lockWalletId (w_id senderWallet)
        (walletId_body f senderAccount senderWallet recipientAccount recipientWallet
           recipientCurrency (Flow.rd_username d) memo)
  | _, _ => Ret (Er (new_msg InvalidLightningPaymentFlowBuilderStateError
                       "Expected recipient details missing"))
  end.

(** Each party with a username becomes a contact of the other. *)
Definition add_contact (accountId : string) (username : option string) : prog (result unit) :=
  match username with
  | Some (String _ _ as u) =>
      await _ <- do_call (AddNewContact accountId u) ;; Ret (Ok tt)
  | _ => Ret (Ok tt)
  end.

Definition addContactsAfterSend (senderAccount recipientAccount : Account) : prog (result unit) :=
  if negb (acc_contactEnabled senderAccount && acc_contactEnabled recipientAccount)
  then Ret (Ok tt)
  else
    await _ <- add_contact (acc_id senderAccount) (acc_username recipientAccount) ;;
    await _ <- add_contact (acc_id recipientAccount) (acc_username senderAccount) ;;
    Ret (Ok tt).

(** [hash] is the random hash made for the payment by [withoutInvoice]. *)
Definition intraledgerPaymentSendWalletId (hash uncheckedRecipientWalletId : string)
    (senderAccount : Account) (uncheckedAmount : number) (memo : option string)
    (uncheckedSenderWalletId : string) : prog (result PaymentSendStatus) :=
  await i <- validateIntraledgerPaymentInputs uncheckedSenderWalletId
               uncheckedRecipientWalletId senderAccount ;;
  let recipientWallet := il_recipientWallet i in
  let recipientAccount := il_recipientAccount i in
  let bcfg := Builder.mkConfig [] (set_pubkeysToSkipProbe cfg) in
  let builderWithInvoice :=
    Builder.withoutInvoice bcfg hash uncheckedAmount (match memo with Some m => m | None => "" end) in
  await builderWithSenderWallet <- Ret
    (Builder.withSenderWallet builderWithInvoice (il_senderWallet i)) ;;
  let builderAfterRecipientStep :=
    Builder.withRecipientWallet builderWithSenderWallet
      (Builder.mkRecipientArgs (w_id recipientWallet) (w_currency recipientWallet)
         (acc_id recipientAccount) None None (acc_username recipientAccount)) in
  let builderWithConversion :=
    Builder.withConversion builderAfterRecipientStep (set_now cfg) (set_mid cfg)
      (set_hedgeBuyUsd cfg) (set_hedgeSellUsd cfg) in
  match Builder.withoutRoute builderWithConversion with
  | Throw e => Ret (Throw e)
  | Er e => if is_a e InvalidZeroAmountPriceRatioInputError
            then Ret (Er (new ZeroAmountForUsdRecipientError)) else Ret (Er e)
  | Ok paymentFlow =>
      await paymentSendStatus <-
        executeWalletIdPayment paymentFlow senderAccount (il_senderWallet i) recipientAccount
          recipientWallet memo ;;
      if String.eqb (acc_id senderAccount) (acc_id recipientAccount)
      then Ret (Ok paymentSendStatus)
      else
        let! addContactResult <- addContactsAfterSend senderAccount recipientAccount ;;
        match addContactResult with
        | Throw e => Ret (Throw e)
        | _ => Ret (Ok paymentSendStatus)
        end
  end.

End Handlers.
