(* ===== verification/AccountHandlers.v ===== *)
(** * Handlers of accounts

    [lib/app/accounts] with the checks of [lib/domain/users] and [lib/domain/users-ips]
    for rewards.  The handlers are programs over [acall], which has the calls of
    payments and those of the repositories of accounts, users and wallets, of the phone
    provider and of the identity service. *)

From S2P Require Import Prelude JsNum Errors Money Regex PaymentFlow Validation Accounts TxMetadata Facade LedgerService LedgerWrites RateLimit Programs Effects Persistence AccountRepo Payments.
Import AccountsRepo WalletsRepo.
#[local] Open Scope string_scope.
#[local] Open Scope Z_scope.
#[local] Open Scope list_scope.

(** ** Calls *)

(** [AuthWithPhonePasswordlessService]: a session of an identity. *)
Record KratosSession : Type := mkKratosSession {
  ks_sessionToken : string;
  ks_kratosUserId : string
}.

Inductive acall : Type -> Type :=
| Base {X} (c : call X) : acall X
(* repositories *)
| AccountListUnlocked : acall (result (list Account))
| AccountFindByUsername (username : string) : acall (result Account)
| AccountFindByKratosUserId (kratosUserId : string) : acall (result Account)
| AccountListBusinesses : acall (result (list BusinessMarker))
| AccountUpdate (a : Account) : acall (result Account)
| AccountPersistNew (kratosUserId : string) (phone : option string)
    (phoneMetadata : option PhoneMetadata) : acall (result Account)
| WalletPersistNew (accountId : string) (type : WalletType) (currency : WalletCurrency)
    : acall (result Wallet)
| UserFindByPhone (phone : string) : acall (result User)
| UserUpdate (u : User) : acall (result User)
| UserIpsFindById (userId : string) : acall (result (list IPInfo))
| UserIpsUpdate (userId : string) (lastIPs : list IPInfo) : acall (result unit)
| RewardsAdd (accountId quizQuestionId : string) : acall (result unit)
| PhoneCodeExistNewerThan (phone code : string) (age : Z) : acall (result unit)
| PhoneCodePersistNew (phone code : string) : acall (result unit)
| AddressPersistNew (walletId : string) (a : OnChainAddressId) : acall (result OnChainAddressId)
| AddressFindLast (walletId : string) : acall (result OnChainAddressId)
(* the wallet of the funder, which is cached; an error is a rejection *)
| FunderWalletId : acall (result string)
(* the node, the limits, the phone provider, captchas, identities and connections *)
| OnChainCreateAddress : acall (result OnChainAddressId)
| LimiterReward (limit : RateLimitName) (key : string) : acall (result unit)
| RandomInt (min max : Z) : acall Z
| SendText (to body : string) : acall (result unit)
| GetCarrier (phone : string) : acall (result PhoneMetadata)
| GeetestValidate (challenge validate seccode : string) : acall (result unit)
| KratosLogin (phone : string) : acall (result KratosSession)
| KratosCreateIdentityWithSession (phone : string) : acall (result KratosSession)
| FetchIPInfo (ip : string) : acall (result IPInfo)
| SendBalance (balance : PaymentAmount) (deviceTokens : list string)
    (display : option number) (language : string) : acall (result unit)
| Now : acall Z.

Abbreviation aprog := (program acall).

(** The programs of payments. *)
Definition lift {A} (p : prog A) : aprog A := interp (fun X c => do_call (Base c)) p.
Definition base {X} (c : call X) : aprog X := do_call (Base c).

(** ** Changes of an account *)

Definition set_username (u : string) (a : Account) : Account :=
  mkAccount (acc_id a) (acc_status a) (acc_level a) (Some u) (acc_ownerId a)
    (acc_contactEnabled a) (acc_withdrawFee a) (acc_depositFeeRatio a) (acc_defaultWalletId a)
    (acc_statusHistory a) (acc_title a) (acc_coordinates a) (acc_contacts a) (acc_isEditor a)
    (acc_quizQuestions a) (acc_kratosUserId a) (acc_createdAt a) (acc_role a).
Definition set_level (level : Z) (a : Account) : Account :=
  mkAccount (acc_id a) (acc_status a) level (acc_username a) (acc_ownerId a)
    (acc_contactEnabled a) (acc_withdrawFee a) (acc_depositFeeRatio a) (acc_defaultWalletId a)
    (acc_statusHistory a) (acc_title a) (acc_coordinates a) (acc_contacts a) (acc_isEditor a)
    (acc_quizQuestions a) (acc_kratosUserId a) (acc_createdAt a) (acc_role a).
Definition set_statusHistory (h : list StatusEntry) (a : Account) : Account :=
  mkAccount (acc_id a) (acc_status a) (acc_level a) (acc_username a) (acc_ownerId a)
    (acc_contactEnabled a) (acc_withdrawFee a) (acc_depositFeeRatio a) (acc_defaultWalletId a)
    h (acc_title a) (acc_coordinates a) (acc_contacts a) (acc_isEditor a)
    (acc_quizQuestions a) (acc_kratosUserId a) (acc_createdAt a) (acc_role a).
Definition set_map_info (title : string) (coordinates : number * number) (a : Account) : Account :=
  mkAccount (acc_id a) (acc_status a) (acc_level a) (acc_username a) (acc_ownerId a)
    (acc_contactEnabled a) (acc_withdrawFee a) (acc_depositFeeRatio a) (acc_defaultWalletId a)
    (acc_statusHistory a) (Some title) (Some coordinates) (acc_contacts a) (acc_isEditor a)
    (acc_quizQuestions a) (acc_kratosUserId a) (acc_createdAt a) (acc_role a).
Definition set_contacts (l : list Contact) (a : Account) : Account :=
  mkAccount (acc_id a) (acc_status a) (acc_level a) (acc_username a) (acc_ownerId a)
    (acc_contactEnabled a) (acc_withdrawFee a) (acc_depositFeeRatio a) (acc_defaultWalletId a)
    (acc_statusHistory a) (acc_title a) (acc_coordinates a) l (acc_isEditor a)
    (acc_quizQuestions a) (acc_kratosUserId a) (acc_createdAt a) (acc_role a).
Definition set_defaultWalletId (id : string) (a : Account) : Account :=
  mkAccount (acc_id a) (acc_status a) (acc_level a) (acc_username a) (acc_ownerId a)
    (acc_contactEnabled a) (acc_withdrawFee a) (acc_depositFeeRatio a) (Some id)
    (acc_statusHistory a) (acc_title a) (acc_coordinates a) (acc_contacts a) (acc_isEditor a)
    (acc_quizQuestions a) (acc_kratosUserId a) (acc_createdAt a) (acc_role a).
Definition set_role (role : Role) (contactEnabled : bool) (a : Account) : Account :=
  mkAccount (acc_id a) (acc_status a) (acc_level a) (acc_username a) (acc_ownerId a)
    contactEnabled (acc_withdrawFee a) (acc_depositFeeRatio a) (acc_defaultWalletId a)
    (acc_statusHistory a) (acc_title a) (acc_coordinates a) (acc_contacts a) (acc_isEditor a)
    (acc_quizQuestions a) (acc_kratosUserId a) (acc_createdAt a) (Some role).
Definition set_kratosUserId (id : string) (a : Account) : Account :=
  mkAccount (acc_id a) (acc_status a) (acc_level a) (acc_username a) (acc_ownerId a)
    (acc_contactEnabled a) (acc_withdrawFee a) (acc_depositFeeRatio a) (acc_defaultWalletId a)
    (acc_statusHistory a) (acc_title a) (acc_coordinates a) (acc_contacts a) (acc_isEditor a)
    (acc_quizQuestions a) (Some id) (acc_createdAt a) (acc_role a).

(** ** [username-available.js], [set-username.js] *)

Definition usernameAvailable (username : string) : aprog (result bool) :=
  await checkedUsername <- Ret (checkedToUsername username) ;;
  let! account <- do_call (AccountFindByUsername checkedUsername) ;;
  match account with
  | Er e => if is_a e CouldNotFindError then Ret (Ok true) else Ret (Er e)
  | Throw e => Ret (Throw e)
  | Ok _ => Ret (Ok false)
  end.

Definition setUsername (id username : string) : aprog (result Account) :=
  await checkedUsername <- Ret (checkedToUsername username) ;;
  await account <- base (AccountFindById id) ;;
  if str_truthy (acc_username account) then Ret (Er (new UsernameIsImmutableError))
  else
    await isAvailable <- usernameAvailable checkedUsername ;;
    if (isAvailable : bool)
    then do_call (AccountUpdate (set_username checkedUsername account))
    else Ret (Er (new UsernameNotAvailableError)).

(** ** [update-account-level.js], [update-account-status.js], [update-business-map-info.js] *)

Definition updateAccountLevel (id : string) (level : Z) : aprog (result Account) :=
  await account <- base (AccountFindById id) ;;
  do_call (AccountUpdate (set_level level account)).

Definition updateAccountStatus (id status : string) (updatedByUserId comment : option string)
    : aprog (result Account) :=
  await account <- base (AccountFindById id) ;;
  await statusChecked <- Ret (checkedAccountStatus status) ;;
  do_call (AccountUpdate (set_statusHistory
    (acc_statusHistory account ++ [mkStatusEntry statusChecked updatedByUserId comment]) account)).

Definition updateBusinessMapInfo (username : string) (latitude longitude : number) (title : string)
    : aprog (result Account) :=
  await usernameChecked <- Ret (checkedToUsername username) ;;
  await account <- do_call (AccountFindByUsername usernameChecked) ;;
  await coordinates <- Ret (checkedCoordinates latitude longitude) ;;
  await titleChecked <- Ret (checkedMapTitle title) ;;
  do_call (AccountUpdate (set_map_info titleChecked coordinates account)).

(** ** Contacts *)

(** [l[findIndex(p)]] changed by [f], when there is one. *)
Fixpoint change_first (p : Contact -> bool) (f : Contact -> Contact) (l : list Contact)
    : option (Contact * list Contact) :=
  match l with
  | [] => None
  | c :: l => if p c then Some (f c, f c :: l)
              else match change_first p f l with
                   | Some (d, l') => Some (d, c :: l')
                   | None => None
                   end
  end.

Definition named (username : string) (c : Contact) : bool := String.eqb (ct_username c) username.
Definition count_transaction (c : Contact) : Contact :=
  mkContact (ct_id c) (ct_username c) (ct_alias c) (num_add (ct_transactionsCount c) (num 1)).
Definition set_alias (alias : string) (c : Contact) : Contact :=
  mkContact (ct_id c) (ct_username c) alias (ct_transactionsCount c).

(** The account answered is the one changed here, not the one stored. *)
Definition addNewContact (accountId contactUsername : string) : aprog (result Account) :=
  await _ <- do_call (AccountFindByUsername contactUsername) ;;
  await account <- base (AccountFindById accountId) ;;
  let contacts :=
    match change_first (named contactUsername) count_transaction (acc_contacts account) with
    | Some (_, l) => l
    | None => acc_contacts account ++ [mkContact contactUsername contactUsername "" (num 1)]
    end in
  let account' := set_contacts contacts account in
  await _ <- do_call (AccountUpdate account') ;;
  Ret (Ok account').

Definition updateContactAlias (accountId username alias : string) : aprog (result Contact) :=
  await aliasChecked <- Ret (checkedToContactAlias alias) ;;
  await account <- base (AccountFindById accountId) ;;
  match change_first (named username) (set_alias aliasChecked) (acc_contacts account) with
  | None => Ret (Er (new ContactNotExistentError))
  | Some (contact, l) =>
      await _ <- do_call (AccountUpdate (set_contacts l account)) ;;
      Ret (Ok contact)
  end.

Definition getContactByUsername (account : Account) (contactUsername : string) : result Contact :=
  match List.find (fun c => String.eqb (Usernames.str_map to_lower (ct_username c)) contactUsername)
          (acc_contacts account) with
  | None => Er (new NoContactForUsernameError)
  | Some c => Ok c
  end.

(** ** Wallets of an account *)

Definition updateDefaultWalletId (accountId walletId : string) : aprog (result Account) :=
  await account <- base (AccountFindById accountId) ;;
  await wallets <- base (WalletListByAccountId (acc_id account)) ;;
  if negb (existsb (fun w => String.eqb (w_id w) walletId) wallets)
  then Ret (Er (new InvalidWalletId))
  else do_call (AccountUpdate (set_defaultWalletId walletId account)).

Definition addWallet (accountId : string) (type : WalletType) (currency : WalletCurrency)
    : aprog (result Wallet) :=
  do_call (WalletPersistNew accountId type currency).

(** Every wallet has the one type. *)
Definition addWalletIfNonexistent (accountId : string) (type : WalletType)
    (currency : WalletCurrency) : aprog (result Wallet) :=
  await wallets <- base (WalletListByAccountId accountId) ;;
  match List.find (fun w => bool_decide (w_currency w = currency)) wallets with
  | Some w => Ret (Ok w)
  | None => do_call (WalletPersistNew accountId type currency)
  end.

(** [app/accounts/index.js] *)
Definition getAccount (accountId : string) : aprog (result Account) :=
  base (AccountFindById accountId).
Definition getAccountFromKratosUserId (kratosUserId : string) : aprog (result Account) :=
  do_call (AccountFindByKratosUserId kratosUserId).
Definition getBusinessMapMarkers : aprog (result (list BusinessMarker)) :=
  do_call AccountListBusinesses.

Definition hasPermissions (accountId walletId : string) : aprog (result bool) :=
  await wallet <- base (WalletFindById walletId) ;;
  Ret (Ok (String.eqb accountId (w_accountId wallet))).

Definition getUsernameFromWalletId (walletId : string) : aprog (result (option string)) :=
  await wallet <- base (WalletFindById walletId) ;;
  await account <- base (AccountFindById (w_accountId wallet)) ;;
  Ret (Ok (acc_username account)).

(** ** [create-account.js] *)

(** [enabledWallets]: the wallet of a currency is that of its last occurrence. *)
Fixpoint create_wallets (accountId : string) (l : list WalletCurrency)
    (enabled : WalletCurrency -> option Wallet)
    : aprog (result (WalletCurrency -> option Wallet)) :=
  match l with
  | [] => Ret (Ok enabled)
  | c :: l =>
      await wallet <- do_call (WalletPersistNew accountId Checking c) ;;
      create_wallets accountId l
        (fun c' => if decide (c' = c) then Some wallet else enabled c')
  end.

(** [enabledWallets[Btc]?.id || enabledWallets[walletsEnabledConfig[0]]?.id] *)
Definition default_wallet (initialWallets : list WalletCurrency)
    (enabled : WalletCurrency -> option Wallet) : option string :=
  let id c := match enabled c with Some w => Some (w_id w) | None => None end in
  if str_truthy (id Btc) then id Btc
  else match initialWallets with [] => None | c :: _ => id c end.

Definition test_role (testAccounts : list TestAccount) (phone : option string) : Role :=
  match phone with
  | Some p =>
      match List.find (fun t => String.eqb (ta_phone t) p) testAccounts with
      | Some t => match ta_role t with Some r => r | None => RoleUser end
      | None => RoleUser
      end
  | None => RoleUser
  end.

Definition contacts_enabled (role : Role) : bool :=
  match role with RoleUser | RoleEditor => true | _ => false end.

Section Creation.
Context (testAccounts : list TestAccount).

Definition initializeCreatedAccount (account : Account) (initialWallets : list WalletCurrency)
    (phoneNumberValid : option string) : aprog (result Account) :=
  await enabledWallets <- create_wallets (acc_id account) initialWallets (fun _ => None) ;;
  match default_wallet initialWallets enabledWallets with
  | None => Ret (Er (new_msg ConfigError "NoWalletsEnabledInConfigError"))
  | Some defaultWalletId =>
      let role := test_role testAccounts phoneNumberValid in
      do_call (AccountUpdate
        (set_role role (contacts_enabled role) (set_defaultWalletId defaultWalletId account)))
  end.

Definition createAccountWithPhoneIdentifier (kratosUserId phone : string)
    (phoneMetadata : option PhoneMetadata) (initialWallets : list WalletCurrency)
    : aprog (result Account) :=
  let! metadata <-
    match phoneMetadata with
    | Some _ => Ret (Ok phoneMetadata)
    | None =>
        if str_truthy (Some phone) then
          let! carrierInfo <- do_call (GetCarrier phone) ;;
          match carrierInfo with
          | Throw e => Ret (Throw e)
          | Er _ => Ret (Ok None)
          | Ok info => Ret (Ok (Some info))
          end
        else Ret (Ok None)
    end ;;
  await phoneMetadata' <- Ret metadata ;;
  await account <- do_call (AccountPersistNew kratosUserId (Some phone) phoneMetadata') ;;
  initializeCreatedAccount account initialWallets (Some phone).

Definition createAccountForEmailIdentifier (kratosUserId : string)
    (initialWallets : list WalletCurrency) : aprog (result Account) :=
  await account <- do_call (AccountPersistNew kratosUserId None None) ;;
  initializeCreatedAccount account initialWallets None.

End Creation.
