(* ===== verification/AccountSpec.v ===== *)
(** * Accounts and their wallets stay consistent

    The handlers of [AccountHandlers] run at the same time on one store of accounts and
    wallets.  Whatever their interleaving, every account keeps a status and a default
    wallet of its own, and every wallet keeps its account; a username is given once, to
    an account that has none and when no account has it in any case. *)

From S2P Require Import Prelude JsNum Errors Money Regex PaymentFlow Validation Accounts TxMetadata Facade LedgerService LedgerWrites RateLimit Programs Effects Persistence AccountRepo Workers Payments AccountHandlers.
From stdpp Require Import list relations.
Import WalletsRepo.
Import AccountsRepo.
#[local] Open Scope string_scope.
#[local] Open Scope Z_scope.
#[local] Open Scope list_scope.

(** ** Lists that grow *)

(** Elements change in place, along [R], and others are added at the end. *)
Definition evolves {T} (R : T -> T -> Prop) (l l' : list T) : Prop :=
  exists l1 l2, l' = l1 ++ l2 /\ Forall2 R l l1.

#[global] Instance evolves_preorder {T} (R : T -> T -> Prop) `{!PreOrder R} : PreOrder (evolves R).
Proof.
  split.
  - intros l. exists l, []. rewrite app_nil_r. split; [done|reflexivity].
  - intros l l' l'' (l1 & l2 & -> & H1) (l3 & l4 & -> & H2).
    apply Forall2_app_inv_l in H2 as (m1 & m2 & Hm1 & _ & ->).
    exists m1, (m2 ++ l4). rewrite app_assoc. split; [done|]. by transitivity l1.
Qed.

Section Evolves.
Context {T : Type} (R : T -> T -> Prop) `{!PreOrder R}.

Lemma evolves_update l1 l2 (d d' : T) : R d d' -> evolves R (l1 ++ d :: l2) (l1 ++ d' :: l2).
Proof.
  intros Hd. exists (l1 ++ d' :: l2), []. rewrite app_nil_r. split; [done|].
  apply Forall2_app; [reflexivity|]. by constructor.
Qed.

Lemma evolves_snoc l (d : T) : evolves R l (l ++ [d]).
Proof. exists l, [d]. split; [done|reflexivity]. Qed.

Lemma evolves_in l l' d : evolves R l l' -> In d l -> exists d', In d' l' /\ R d d'.
Proof.
  intros (l1 & l2 & -> & Hf) [i Hi]%list_elem_of_In%list_elem_of_lookup.
  destruct (Forall2_lookup_l _ _ _ _ _ Hf Hi) as (d' & Hd' & HR). exists d'. split; [|done].
  apply in_or_app. left. apply list_elem_of_In. by eapply list_elem_of_lookup_2.
Qed.
End Evolves.

Lemma in_middle {T} (x d d' : T) l1 l2 : In x (l1 ++ d' :: l2) -> x = d' \/ In x (l1 ++ d :: l2).
Proof. rewrite !in_app_iff. simpl. intuition. Qed.

Lemma map_middle {T U} (f : T -> U) l1 l2 d d' : f d' = f d ->
  List.map f (l1 ++ d' :: l2) = List.map f (l1 ++ d :: l2).
Proof. intros Hf. by rewrite !map_app, !map_cons, Hf. Qed.

Lemma map_injective {T U} (f : T -> U) l x y : NoDup (List.map f l) -> In x l -> In y l ->
  f x = f y -> x = y.
Proof.
  induction l as [|z l IH]; [done|]. simpl. intros [Hz Hl]%NoDup_cons.
  assert (Hno : forall t, In t l -> f t <> f z).
  { intros t Ht He. apply Hz. rewrite <- He. apply list_elem_of_In. by apply in_map. }
  intros [->|Hx] [->|Hy] He; [done| | |by apply IH].
  - by destruct (Hno y Hy).
  - by destruct (Hno x Hx).
Qed.

(** ** The store *)

Section Store.
Context {C W : Type} `{Collection C RawAccount} `{Collection W RawWallet}
  {account_laws : CollectionLaws C RawAccount} {wallet_laws : CollectionLaws W RawWallet}
  (toObjectId : string -> db string) (defaults : SchemaDefaults).

Record store : Type := mkStore { sto_accounts : C; sto_wallets : W }.

Definition account_docs (s : store) : list RawAccount := coll_docs (sto_accounts s).
Definition wallet_docs (s : store) : list RawWallet := coll_docs (sto_wallets s).

(** A new identifier is one of the database that no document has. *)
Definition new_account_id (s : store) (id : string) : Prop :=
  toObjectId id = Done id /\ id ∉ List.map ra_id (account_docs s).

(** ** Consistency *)

Definition owned (s : store) (accountId walletId : string) : Prop :=
  exists r, In r (wallet_docs s) /\ rw_id r = walletId /\ rw_accountId r = accountId.

Definition account_ok (s : store) (d : RawAccount) : Prop :=
  toObjectId (ra_id d) = Done (ra_id d) /\ ra_statusHistory d <> [] /\
  forall id, ra_defaultWalletId d = Some id -> owned s (ra_id d) id.

Definition store_ok (s : store) : Prop :=
  NoDup (List.map ra_id (account_docs s)) /\ (forall d, In d (account_docs s) -> account_ok s d) /\
  NoDup (List.map rw_id (wallet_docs s)) /\
  forall r, In r (wallet_docs s) -> exists d, In d (account_docs s) /\ ra_id d = rw_accountId r.

(** What no update takes back. *)
Definition account_grows (d d' : RawAccount) : Prop :=
  ra_id d' = ra_id d /\ ra_created_at d' = ra_created_at d /\
  (ra_username d <> None -> ra_username d' <> None) /\
  (ra_defaultWalletId d <> None -> ra_defaultWalletId d' <> None) /\
  ra_earn d ⊆ ra_earn d'.
Definition wallet_grows (r r' : RawWallet) : Prop :=
  rw_id r' = rw_id r /\ rw_accountId r' = rw_accountId r /\ rw_currency r' = rw_currency r /\
  rw_onchain r ⊆ rw_onchain r'.

#[global] Instance account_grows_preorder : PreOrder account_grows.
Proof.
  split; [by intros d|]. intros d d' d'' (? & ? & ? & ? & ?) (? & ? & ? & ? & ?).
  unfold account_grows. split_and!; try congruence; try (by auto); by etransitivity.
Qed.
#[global] Instance wallet_grows_preorder : PreOrder wallet_grows.
Proof.
  split; [by intros r|]. intros r r' r'' (? & ? & ? & ?) (? & ? & ? & ?).
  unfold wallet_grows. split_and!; try congruence; by etransitivity.
Qed.

Definition store_grows (s s' : store) : Prop :=
  evolves account_grows (account_docs s) (account_docs s') /\
  evolves wallet_grows (wallet_docs s) (wallet_docs s').

#[global] Instance store_grows_preorder : PreOrder store_grows.
Proof.
  split; [by intros s|]. intros s s' s'' [? ?] [? ?]. split; by etransitivity.
Qed.

(** ** Answers *)

(** The repositories answer from the store, and the other services do not change it; a
    payment that adds contacts runs the handler [addNewContact]. *)
Definition base_ans (X : Type) (c : call X) (s : store) : X -> store -> Prop :=
  match c in call X return X -> store -> Prop with
  | AccountFindById id => fun x s' => x = fst (findById toObjectId id (sto_accounts s)) /\ s' = s
  | UserFindById id => fun x s' => x = fst (users_findById toObjectId id (sto_accounts s)) /\ s' = s
  | WalletFindById id => fun x s' => x = fst (findWalletById id (sto_wallets s)) /\ s' = s
  | WalletListByAccountId id => fun x s' =>
      x = fst (WalletsRepo.listByAccountId toObjectId id (sto_wallets s)) /\ s' = s
  | WalletFindByAddress a => fun x s' => x = fst (WalletsRepo.findByAddress a (sto_wallets s)) /\ s' = s
  | WalletListByAddresses l => fun x s' =>
      x = fst (WalletsRepo.listByAddresses l (sto_wallets s)) /\ s' = s
  | AddNewContact _ _ => fun _ s' => (store_ok s -> store_ok s') /\ store_grows s s'
  | _ => fun _ s' => s' = s
  end.

Definition store_ans (X : Type) (c : acall X) (s : store) : X -> store -> Prop :=
  match c in acall X return X -> store -> Prop with
  | Base c => base_ans _ c s
  | AccountListUnlocked => fun x s' => x = fst (listUnlockedAccounts (sto_accounts s)) /\ s' = s
  | AccountListBusinesses => fun x s' => x = fst (listBusinessesForMap (sto_accounts s)) /\ s' = s
  | AccountFindByUsername u => fun x s' => x = fst (findByUsername u (sto_accounts s)) /\ s' = s
  | AccountFindByKratosUserId k => fun x s' =>
      x = fst (findByKratosUserId k (sto_accounts s)) /\ s' = s
  | UserFindByPhone p => fun x s' => x = fst (users_findByPhone p (sto_accounts s)) /\ s' = s
  | UserIpsFindById u => fun x s' => x = fst (ips_findById toObjectId u (sto_accounts s)) /\ s' = s
  | AddressFindLast id => fun x s' =>
      x = fst (WalletsRepo.findLastByWalletId id (sto_wallets s)) /\ s' = s
  | AccountUpdate a => fun x s' => exists c',
      update toObjectId a (sto_accounts s) = (x, c') /\ s' = mkStore c' (sto_wallets s)
  | UserUpdate u => fun x s' => exists c',
      users_update toObjectId u (sto_accounts s) = (x, c') /\ s' = mkStore c' (sto_wallets s)
  | UserIpsUpdate u ips => fun x s' => exists c',
      ips_update toObjectId u ips (sto_accounts s) = (x, c') /\ s' = mkStore c' (sto_wallets s)
  | RewardsAdd a q => fun x s' => exists c',
      rewards_add toObjectId a q (sto_accounts s) = (x, c') /\ s' = mkStore c' (sto_wallets s)
  | AccountPersistNew k p m => fun x s' => exists id now c', new_account_id s id /\
      persistNewAccount defaults id now k p m (sto_accounts s) = (x, c') /\ s' = mkStore c' (sto_wallets s)
  | WalletPersistNew a _ currency => fun x s' => exists id w',
      (id ∉ List.map rw_id (wallet_docs s)) /\
      persistNewWallet toObjectId id a currency (sto_accounts s) (sto_wallets s) = (x, w') /\
      s' = mkStore (sto_accounts s) w'
  | AddressPersistNew id a => fun x s' => exists w',
      address_persistNew id a (sto_wallets s) = (x, w') /\ s' = mkStore (sto_accounts s) w'
  | _ => fun _ s' => s' = s
  end.

(** ** Documents that change *)

Lemma owned_grows s s' a id : owned s a id -> store_grows s s' -> owned s' a id.
Proof.
  intros (r & Hr & <- & <-) [_ Hw]. destruct (evolves_in _ _ _ _ Hw Hr) as (r' & Hr' & Hi & Ha & _).
  by exists r'.
Qed.

Lemma account_grows_ok s s' d : account_ok s d -> store_grows s s' -> account_ok s' d.
Proof. intros (? & ? & Ho) Hg. split_and!; [done..|]. intros id Hid. eapply owned_grows; eauto. Qed.

Lemma accounts_changed s c' l1 l2 d d' : store_ok s ->
  account_docs s = l1 ++ d :: l2 -> coll_docs c' = l1 ++ d' :: l2 ->
  account_grows d d' -> account_ok s d' ->
  store_ok (mkStore c' (sto_wallets s)) /\ store_grows s (mkStore c' (sto_wallets s)).
Proof.
  intros (Hu & Hok & Hw & Hr) Hd Hd' Hg Hdo.
  assert (Hgrow : store_grows s (mkStore c' (sto_wallets s))).
  { split; [|done]. unfold account_docs at 2. simpl. rewrite Hd, Hd'.
    apply evolves_update; [apply _|done]. }
  split; [|done]. unfold store_ok, account_docs. simpl. rewrite Hd'. split_and!.
  - destruct Hg as [Hid _]. rewrite (map_middle ra_id l1 l2 d d' Hid), <- Hd. exact Hu.
  - intros x [->|Hx]%(in_middle x d d'); (eapply account_grows_ok; [|exact Hgrow]); [done|].
    apply Hok. by rewrite Hd.
  - exact Hw.
  - intros r Hin. destruct (Hr r Hin) as (x & Hx & Hxr). rewrite <- Hd'.
    destruct Hgrow as [Hga _]. destruct (evolves_in _ _ _ _ Hga Hx) as (x' & Hx' & Hi & _).
    exists x'. split; [done|congruence].
Qed.

Lemma accounts_same s c' : store_ok s -> coll_docs c' = account_docs s ->
  store_ok (mkStore c' (sto_wallets s)) /\ store_grows s (mkStore c' (sto_wallets s)).
Proof.
  intros Hs Hc. assert (Hg : store_grows s (mkStore c' (sto_wallets s))).
  { split; [|done]. unfold account_docs at 2. simpl. by rewrite Hc. }
  split; [|done]. destruct Hs as (Hu & Hok & Hw & Hr). unfold store_ok.
  change (account_docs (mkStore c' (sto_wallets s))) with (coll_docs c'). rewrite Hc.
  split_and!; [done| |done..]. intros d Hd. eapply account_grows_ok; eauto.
Qed.

Lemma accounts_added s c' d : store_ok s -> new_account_id s (ra_id d) ->
  coll_docs c' = account_docs s ++ [d] -> ra_statusHistory d <> [] -> ra_defaultWalletId d = None ->
  store_ok (mkStore c' (sto_wallets s)) /\ store_grows s (mkStore c' (sto_wallets s)).
Proof.
  intros (Hu & Hok & Hw & Hr) [Hid Hnew] Hc Hh Hn.
  assert (Hg : store_grows s (mkStore c' (sto_wallets s))).
  { split; [|done]. unfold account_docs at 2. simpl. rewrite Hc. apply evolves_snoc, _. }
  split; [|done]. unfold store_ok, account_docs. simpl. rewrite Hc. split_and!.
  - rewrite map_app. apply NoDup_app. split; [done|]. split; [|apply NoDup_singleton].
    intros x Hx Hin. apply list_elem_of_singleton in Hin as ->. done.
  - intros x [Hx|[<-|[]]]%in_app_or.
    + eapply account_grows_ok; [by apply Hok|done].
    + split_and!; [done..|]. by rewrite Hn.
  - done.
  - intros r Hin. destruct (Hr r Hin) as (x & Hx & Hxr). exists x. rewrite in_app_iff. auto.
Qed.

(** The wallets change in place, or one is added for an account that exists. *)
Lemma wallets_changed s w' l1 l2 r r' : store_ok s ->
  wallet_docs s = l1 ++ r :: l2 -> coll_docs w' = l1 ++ r' :: l2 -> wallet_grows r r' ->
  store_ok (mkStore (sto_accounts s) w') /\ store_grows s (mkStore (sto_accounts s) w').
Proof.
  intros (Hu & Hok & Hw & Hr) Hd Hd' Hg.
  assert (Hgrow : store_grows s (mkStore (sto_accounts s) w')).
  { split; [done|]. unfold wallet_docs at 2. simpl. rewrite Hd, Hd'.
    apply evolves_update; [apply _|done]. }
  split; [|done]. unfold store_ok. change (wallet_docs (mkStore (sto_accounts s) w')) with (coll_docs w').
  rewrite Hd'. destruct Hg as (Hi & Ha & _). split_and!.
  - done.
  - intros d Hin. eapply account_grows_ok; [by apply Hok|done].
  - rewrite (map_middle rw_id l1 l2 r r' Hi), <- Hd. exact Hw.
  - intros x [->|Hx]%(in_middle x r r'); [rewrite Ha|]; apply Hr; rewrite Hd; [|done].
    apply in_or_app. right. by left.
Qed.

Lemma wallets_same s w' : store_ok s -> coll_docs w' = wallet_docs s ->
  store_ok (mkStore (sto_accounts s) w') /\ store_grows s (mkStore (sto_accounts s) w').
Proof.
  intros Hs Hc. assert (Hg : store_grows s (mkStore (sto_accounts s) w')).
  { split; [done|]. unfold wallet_docs at 2. simpl. by rewrite Hc. }
  split; [|done]. destruct Hs as (Hu & Hok & Hw & Hr). unfold store_ok.
  change (wallet_docs (mkStore (sto_accounts s) w')) with (coll_docs w'). rewrite Hc.
  split_and!; [done| |done..]. intros d Hd. eapply account_grows_ok; eauto.
Qed.

Lemma wallets_added s w' r : store_ok s -> rw_id r ∉ List.map rw_id (wallet_docs s) ->
  coll_docs w' = wallet_docs s ++ [r] ->
  (exists d, In d (account_docs s) /\ ra_id d = rw_accountId r) ->
  store_ok (mkStore (sto_accounts s) w') /\ store_grows s (mkStore (sto_accounts s) w').
Proof.
  intros (Hu & Hok & Hw & Hr) Hnew Hc Hd.
  assert (Hg : store_grows s (mkStore (sto_accounts s) w')).
  { split; [done|]. unfold wallet_docs at 2. simpl. rewrite Hc. apply evolves_snoc, _. }
  split; [|done]. unfold store_ok. change (wallet_docs (mkStore (sto_accounts s) w')) with (coll_docs w').
  rewrite Hc. split_and!.
  - done.
  - intros d' Hin. eapply account_grows_ok; [by apply Hok|done].
  - rewrite map_app. apply NoDup_app. split; [done|]. split; [|apply NoDup_singleton].
    intros x Hx Hin. apply list_elem_of_singleton in Hin as ->. done.
  - intros x [Hx|[<-|[]]]%in_app_or; auto.
Qed.

(** ** What the answers tell *)

(** An account as a handler holds it. *)
Definition known (s : store) (a : Account) : Prop :=
  toObjectId (acc_id a) = Done (acc_id a) /\ acc_statusHistory a <> [] /\
  (exists d, In d (account_docs s) /\ ra_id d = acc_id a) /\
  forall id, acc_defaultWalletId a = Some id -> owned s (acc_id a) id.

Definition told_wallet (s : store) (accountId : string) (w : Wallet) : Prop :=
  exists oid, toObjectId accountId = Done oid /\ owned s oid (w_id w).

Definition told {T} (P : T -> Prop) (x : result T) : Prop :=
  match x with Ok a => P a | _ => True end.

Definition store_pre (X : Type) (c : acall X) (s : store) : Prop :=
  match c with AccountUpdate a => known s a | _ => True end.

Definition store_post (X : Type) (c : acall X) : X -> store -> Prop :=
  match c in acall X return X -> store -> Prop with
  | Base c =>
      match c in call X return X -> store -> Prop with
      | AccountFindById _ => fun x s => told (known s) x
      | WalletListByAccountId a => fun x s => told (Forall (told_wallet s a)) x
      | _ => fun _ _ => True
      end
  | AccountFindByUsername _ | AccountFindByKratosUserId _ => fun x s => told (known s) x
  | AccountPersistNew _ _ _ => fun x s => told (known s) x
  | AccountUpdate a => fun x s => told (fun b => known s b /\ acc_id b = acc_id a /\
      (acc_defaultWalletId a <> None -> acc_defaultWalletId b = acc_defaultWalletId a)) x
  | WalletPersistNew a _ _ => fun x s => told (told_wallet s a) x
  | _ => fun _ _ => True
  end.

Lemma known_grows s s' a : known s a -> store_grows s s' -> known s' a.
Proof.
  intros (? & ? & (d & Hd & He) & Ho) Hg. split_and!; [done..| |].
  - destruct Hg as [Hg _]. destruct (evolves_in _ _ _ _ Hg Hd) as (d' & Hd' & Hi & _).
    exists d'. split; [done|congruence].
  - intros id Hid. eapply owned_grows; eauto.
Qed.

Lemma store_pre_grows X (c : acall X) s s' : store_pre X c s -> store_grows s s' -> store_pre X c s'.
Proof. destruct c; simpl; eauto using known_grows. Qed.

Lemma translated r a : caught (translateToAccount r) = Ok a ->
  acc_id a = ra_id r /\ acc_statusHistory a = ra_statusHistory r /\
  acc_defaultWalletId a = ra_defaultWalletId r /\ acc_username a = ra_username r.
Proof. unfold translateToAccount. destruct (last _); [|done]. by intros [= <-]. Qed.

Lemma known_doc s r a : store_ok s -> In r (account_docs s) ->
  caught (translateToAccount r) = Ok a -> known s a.
Proof.
  intros (_ & Hok & _) Hr (Hi & Hh & Hd & _)%translated. destruct (Hok r Hr) as (? & ? & Ho).
  unfold known. rewrite Hi, Hh, Hd. eauto 6.
Qed.

Lemma told_docs s (x : result Account) : store_ok s ->
  (forall a, x = Ok a -> exists r, In r (account_docs s) /\ caught (translateToAccount r) = Ok a) ->
  told (known s) x.
Proof.
  intros Hs Hx. destruct x as [a|e|e]; [|done..]. destruct (Hx a eq_refl) as (r & Hr & Ha).
  by eapply known_doc.
Qed.

(** An account found by a query. *)
Lemma found_one s q (x : result Account) : store_ok s ->
  match coll_findOne (sto_accounts s) q with
  | Done (Some r) => x = caught (translateToAccount r)
  | _ => exists e, x = Er e
  end -> told (known s) x.
Proof.
  intros Hs. destruct (coll_findOne _ q) as [[r|]|m] eqn:Hf; [|by intros [e ->]..].
  intros ->. apply findOne_some in Hf as [Hr _]. apply told_docs; [done|]. intros a Ha. by exists r.
Qed.

(** A change of one document that keeps the account consistent. *)
Lemma update_told s q u r' c' : store_ok s ->
  coll_findOneAndUpdate (sto_accounts s) q u = Done (r', c') ->
  (forall d, q d = true -> In d (account_docs s) -> account_ok s d ->
     account_grows d (u d) /\ account_ok s (u d)) ->
  store_ok (mkStore c' (sto_wallets s)) /\ store_grows s (mkStore c' (sto_wallets s)) /\
  (forall d', r' = Some d' -> In d' (coll_docs c') /\ exists d, q d = true /\ d' = u d).
Proof.
  intros Hs Hu Hd. destruct r' as [d'|].
  - apply update_some in Hu as (l1 & d & l2 & Hl & Hq & -> & Hl').
    assert (Hin : In d (account_docs s)) by (unfold account_docs; rewrite Hl, in_app_iff; simpl; auto).
    destruct (Hd d Hq Hin (proj1 (proj2 Hs) d Hin)) as [Hg Hok].
    destruct (accounts_changed s c' l1 l2 d (u d) Hs Hl Hl' Hg Hok). split_and!; [done..|].
    intros d' [= <-]. split; [|by exists d]. rewrite Hl', in_app_iff. simpl. auto.
  - apply update_none in Hu as [Hc _]. destruct (accounts_same s c' Hs Hc). by split_and!.
Qed.

(** *** Each update *)

Definition sound_step (s s' : store) : Prop := store_ok s' /\ store_grows s s'.

Lemma store_eta s : mkStore (sto_accounts s) (sto_wallets s) = s.
Proof. by destruct s. Qed.

Lemma sound_refl s : store_ok s -> sound_step s s.
Proof. by split. Qed.

Lemma account_at s l1 l2 d : store_ok s -> account_docs s = l1 ++ d :: l2 -> account_ok s d.
Proof. intros (_ & Hok & _) Hl. apply Hok. rewrite Hl, in_app_iff. right. by left. Qed.

Lemma keeps_default a d id : FlowRepo.keep (acc_defaultWalletId a) (ra_defaultWalletId d) = Some id ->
  acc_defaultWalletId a = Some id \/ ra_defaultWalletId d = Some id.
Proof. unfold FlowRepo.keep. destruct (acc_defaultWalletId a); auto. Qed.

Lemma keep_some {T} (x y : option T) : y <> None -> FlowRepo.keep x y <> None.
Proof. unfold FlowRepo.keep. by destruct x. Qed.

Lemma update_sound s a x c' : store_ok s -> known s a ->
  update toObjectId a (sto_accounts s) = (x, c') ->
  sound_step s (mkStore c' (sto_wallets s)) /\
  store_post _ (AccountUpdate a) x (mkStore c' (sto_wallets s)).
Proof.
  intros Hs (Hid & Hh & _ & Ho). unfold update, with_oid. rewrite Hid.
  destruct (coll_findOneAndUpdate _ _ _) as [[r' c1]|m] eqn:Hu;
    [|intros [= <- <-]; rewrite store_eta; by split].
  destruct (update_told s _ _ _ _ Hs Hu) as (Hok & Hg & Hr').
  { intros d Hd Hin (Hc & Hhd & Hdw). apply String.eqb_eq in Hd. split.
    - split_and!; [done..|apply keep_some|apply keep_some|done].
    - split_and!; [done..|]. intros id Hk. simpl in *. rewrite Hd.
      destruct (keeps_default _ _ _ Hk) as [Hk'|Hk']; [by apply Ho|]. rewrite <- Hd. auto. }
  destruct r' as [d'|]; intros [= <- <-]; (split; [by split|]); [|done].
  destruct (Hr' d' eq_refl) as (Hin & d & Hd & ->). apply String.eqb_eq in Hd.
  unfold store_post, told. destruct (caught _) as [b| |] eqn:Hb; [|done..].
  assert (Hkn : known (mkStore c1 (sto_wallets s)) b) by by eapply known_doc.
  split; [done|]. apply translated in Hb as (Hbi & _ & Hbd & _). rewrite Hbi, Hbd. simpl.
  split; [done|]. unfold FlowRepo.keep. by destruct (acc_defaultWalletId a).
Qed.

Lemma user_update_sound s u x c' : store_ok s ->
  users_update toObjectId u (sto_accounts s) = (x, c') -> sound_step s (mkStore c' (sto_wallets s)).
Proof.
  intros Hs. unfold users_update, with_oid.
  destruct (toObjectId _) as [oid|m]; [|intros [= _ <-]; rewrite store_eta; by apply sound_refl].
  destruct (coll_findOneAndUpdate _ _ _) as [[r' c1]|m] eqn:Hu;
    [|intros [= _ <-]; rewrite store_eta; by apply sound_refl].
  destruct (update_told s _ _ _ _ Hs Hu) as (Hok & Hg & _); [by intros d _ _ Hd|].
  destruct r'; intros [= _ <-]; by split.
Qed.

Lemma ips_update_sound s u ips x c' : store_ok s ->
  ips_update toObjectId u ips (sto_accounts s) = (x, c') -> sound_step s (mkStore c' (sto_wallets s)).
Proof.
  intros Hs. unfold ips_update, with_oid.
  destruct (toObjectId _) as [oid|m]; [|intros [= _ <-]; rewrite store_eta; by apply sound_refl].
  destruct (coll_updateOne _ _ _) as [[[n1 n2] c1]|m] eqn:Hu;
    [|intros [= _ <-]; rewrite store_eta; by apply sound_refl].
  intros Hx. assert (c' = c1) as -> by (by destruct (Nat.eqb n1 0), (Nat.eqb n2 1); inversion Hx).
  apply updateOne_docs in Hu as [(_ & Hc & _)|(l1 & d & l2 & _ & Hc & _ & Hc')].
  - by apply accounts_same.
  - apply (accounts_changed s c1 l1 l2 d _ Hs Hc Hc'); [done|].
    exact (account_at s l1 l2 d Hs Hc).
Qed.

Lemma rewards_add_sound s a q x c' : store_ok s ->
  rewards_add toObjectId a q (sto_accounts s) = (x, c') -> sound_step s (mkStore c' (sto_wallets s)).
Proof.
  intros Hs. unfold rewards_add.
  destruct (toObjectId _) as [oid|m]; [|intros [= _ <-]; rewrite store_eta; by apply sound_refl].
  destruct (coll_findOneAndUpdateOld _ _ _) as [[[d|] c1]|m] eqn:Hu;
    [| |intros [= _ <-]; rewrite store_eta; by apply sound_refl]; intros Hx.
  - assert (c' = c1) as -> by (by case_bool_decide; inversion Hx).
    apply updateOld_some in Hu as (l1 & l2 & Hc & _ & Hc').
    apply (accounts_changed s c1 l1 l2 d _ Hs Hc Hc').
    + split_and!; [done..|]. intros y Hy. apply elem_of_app. by left.
    + exact (account_at s l1 l2 d Hs Hc).
  - apply updateOld_none in Hu as [Hc _]. injection Hx as _ <-. by apply accounts_same.
Qed.

Lemma account_persist_sound s id now k p m x c' : store_ok s -> new_account_id s id ->
  persistNewAccount defaults id now k p m (sto_accounts s) = (x, c') ->
  sound_step s (mkStore c' (sto_wallets s)) /\ told (known (mkStore c' (sto_wallets s))) x.
Proof.
  intros Hs Hid. unfold persistNewAccount.
  destruct (coll_save _ _) as [c1|msg] eqn:Hc;
    [|intros [= <- <-]; rewrite store_eta; by split; [apply sound_refl|]].
  apply save_adds in Hc. intros [= <- <-].
  destruct (accounts_added s c1 (new_account defaults id now k p m) Hs Hid Hc) as [Hok Hg]; [done..|]. split; [by split|].
  apply told_docs; [done|]. intros a Ha. exists (new_account defaults id now k p m).
  split; [|by rewrite Ha].
  unfold account_docs. simpl. rewrite Hc, in_app_iff. right. by left.
Qed.

Lemma found_account s a b : fst (findById toObjectId a (sto_accounts s)) = Ok b ->
  exists oid d, toObjectId a = Done oid /\ In d (account_docs s) /\ ra_id d = oid /\
    caught (translateToAccount d) = Ok b.
Proof.
  unfold findById, with_oid. destruct (toObjectId a) as [oid|m]; [|done].
  destruct (coll_findOne _ _) as [[d|]|m] eqn:Hf; [|done..]. intros Hb.
  apply findOne_some in Hf as [Hd Hq]. apply String.eqb_eq in Hq. by exists oid, d.
Qed.

Lemma wallet_persist_sound s id a t currency x w' : store_ok s ->
  id ∉ List.map rw_id (wallet_docs s) ->
  persistNewWallet toObjectId id a currency (sto_accounts s) (sto_wallets s) = (x, w') ->
  sound_step s (mkStore (sto_accounts s) w') /\
  store_post _ (WalletPersistNew a t currency) x (mkStore (sto_accounts s) w').
Proof.
  intros Hs Hid. unfold persistNewWallet.
  destruct (fst (findById toObjectId a (sto_accounts s))) as [b|e|e] eqn:Hb;
    [|intros [= <- <-]; rewrite store_eta; by split; [apply sound_refl|]..].
  destruct (found_account _ _ _ Hb) as (oid & d & Ho & Hd & He & _). rewrite Ho.
  destruct (coll_save _ _) as [w1|m] eqn:Hw;
    [|intros [= <- <-]; rewrite store_eta; by split; [apply sound_refl|]].
  apply save_adds in Hw. intros [= <- <-].
  destruct (wallets_added s w1 (mkRawWallet id oid currency []) Hs Hid Hw) as [Hok Hg]; [by exists d|]. split; [by split|].
  exists oid. split; [done|]. eexists. unfold wallet_docs. simpl. rewrite Hw, in_app_iff.
  split; [right; by left|done].
Qed.

Lemma address_persist_sound s id a x w' : store_ok s ->
  address_persistNew id a (sto_wallets s) = (x, w') ->
  sound_step s (mkStore (sto_accounts s) w').
Proof.
  intros Hs. unfold address_persistNew.
  destruct (coll_updateOne _ _ _) as [[[n1 n2] w1]|m] eqn:Hu;
    [|intros [= _ <-]; rewrite store_eta; by apply sound_refl].
  intros Hx. assert (w' = w1) as -> by (by destruct (Nat.eqb n1 0), (Nat.eqb n2 1); inversion Hx).
  apply updateOne_docs in Hu as [(_ & Hc & _)|(l1 & r & l2 & _ & Hc & _ & Hc')].
  - by apply wallets_same.
  - apply (wallets_changed s w1 l1 l2 r _ Hs Hc Hc'). split_and!; [done..|].
    intros y Hy. apply elem_of_app. by left.
Qed.

Lemma listed_wallets s a : told (Forall (told_wallet s a))
  (fst (WalletsRepo.listByAccountId toObjectId a (sto_wallets s))).
Proof.
  unfold WalletsRepo.listByAccountId. destruct (toObjectId a) as [oid|m] eqn:Ho; [|done].
  destruct (coll_list _ _) as [l|m] eqn:Hl; [|done]. apply list_docs in Hl.
  assert (Hall : Forall (told_wallet s a) (List.map wallet_of l)).
  { subst l. apply List.Forall_map, List.Forall_forall. intros r [Hr Hq]%filter_In.
    apply String.eqb_eq in Hq. exists oid. split; [done|]. by exists r. }
  by destruct l.
Qed.

(** Every answer keeps the store consistent and tells what it should. *)
Lemma store_sound X (c : acall X) s x s' : store_ok s -> store_pre X c s ->
  store_ans X c s x s' -> store_ok s' /\ store_grows s s' /\ store_post X c x s'.
Proof.
  intros Hs Hp Ha.
  assert (Hsame : forall P : Prop, (s' = s -> P) -> s' = s -> store_ok s' /\ store_grows s s' /\ P)
    by (intros P HP ->; split_and!; auto; done).
  assert (Hstep : forall P : Prop, sound_step s s' -> P -> store_ok s' /\ store_grows s s' /\ P)
    by (intros P [? ?] ?; done).
  destruct c; simpl in Ha;
    try (by apply Hsame); try (destruct Ha as [-> ->]; apply Hsame; [intros _|done]; try done).
  - destruct c; simpl in Ha; try (by apply Hsame);
      try (destruct Ha as [-> ->]; apply Hsame; [intros _|done]); try done.
    + apply told_docs; [done|]. intros a (oid & d & _ & ? & _ & ?)%found_account. by exists d.
    + apply listed_wallets.
    + destruct Ha as [Hok Hg]. split_and!; by auto.
  - apply (found_one s (has_username username)); [done|]. unfold findByUsername.
    by destruct (coll_findOne _ _) as [[]|]; eauto.
  - apply (found_one s (fun r => bool_decide (ra_kratosUserId r = Some kratosUserId))); [done|].
    unfold findByKratosUserId. by destruct (coll_findOne _ _) as [[]|]; eauto.
  - destruct Ha as (c' & Hu & ->). by apply and_assoc, update_sound.
  - destruct Ha as (id & now & c' & Hid & Hu & ->). by apply and_assoc; eapply account_persist_sound.
  - destruct Ha as (id & w' & Hid & Hu & ->). by apply and_assoc; eapply wallet_persist_sound.
  - destruct Ha as (c' & Hu & ->). apply Hstep; [by eapply user_update_sound|done].
  - destruct Ha as (c' & Hu & ->). apply Hstep; [by eapply ips_update_sound|done].
  - destruct Ha as (c' & Hu & ->). apply Hstep; [by eapply rewards_add_sound|done].
  - destruct Ha as (w' & Hu & ->). apply Hstep; [by eapply address_persist_sound|done].
Qed.

(** ** The handlers keep to their contracts *)

Definition held {A} (p : aprog A) (s : store) (Q : A -> store -> Prop) : Prop :=
  keeps_to store_ok store_grows store_pre store_post p s Q.

(** The fields that consistency is about are those of a known account, or its default
    wallet is another of its wallets. *)
Lemma known_same s a a' : known s a -> acc_id a' = acc_id a ->
  acc_defaultWalletId a' = acc_defaultWalletId a -> acc_statusHistory a' <> [] -> known s a'.
Proof. intros (? & ? & ? & ?) Hi Hd Hh. unfold known. by rewrite Hi, Hd. Qed.

Lemma known_history s a : known s a -> acc_statusHistory a <> [].
Proof. by intros (_ & ? & _). Qed.

Lemma known_default s a a' id : known s a -> acc_id a' = acc_id a ->
  acc_defaultWalletId a' = Some id -> acc_statusHistory a' = acc_statusHistory a ->
  owned s (acc_id a) id -> known s a'.
Proof.
  intros (? & ? & ? & _) Hi Hd Hh Ho. unfold known. rewrite Hi, Hd, Hh. split_and!; [done..|].
  by intros id' [= <-].
Qed.

Lemma told_owned s a w : known s a -> told_wallet s (acc_id a) w -> owned s (acc_id a) (w_id w).
Proof. intros (Hid & _) (oid & Ho & Hw). congruence. Qed.

(** The last update of a handler. *)
Lemma held_update s a : known s a -> held (do_call (AccountUpdate a)) s sure.
Proof. by split. Qed.

(** The next call of a handler, and its next check. *)
Ltac next x s' Hg Hx :=
  apply keeps_to_await; [exact Logic.I|intros x s' Hg ? Hx; simpl in Hx|done..].
Ltac checked := apply keeps_to_check; [intros ? ?|done..].

Lemma held_discard {A} (p : aprog (result A)) s :
  held p s sure -> held (rpbind p (fun _ => Ret (Ok tt))) s sure.
Proof. intros Hp. apply keeps_to_bind. eapply keeps_to_mono; [exact Hp|]. by intros [a|e|e] s' _. Qed.

Lemma available_held s u : held (usernameAvailable u) s sure.
Proof.
  unfold usernameAvailable. checked. split; [done|]. intros [a|e|e] s' _ _ _; simpl; [done| |done].
  by destruct (is_a e _).
Qed.

(** What is known stays known while a handler that needs nothing runs. *)
Lemma held_frame {A B} (p : aprog (result A)) (k : A -> aprog (result B)) s a :
  known s a -> held p s sure -> (forall x s', known s' a -> held (k x) s' sure) ->
  held (rpbind p k) s sure.
Proof.
  intros Ha Hp Hk. apply keeps_to_bind. revert s Ha Hp.
  induction p as [r|X c f IH]; intros s Ha Hp; simpl in *.
  - destruct r as [x|e|e]; [by apply Hk|done..].
  - destruct Hp as [Hc Hf]. split; [done|]. intros x s' Hg Hi Hq.
    apply IH; [by eapply known_grows|by apply Hf].
Qed.

Lemma setUsername_held s id u : held (setUsername id u) s sure.
Proof.
  unfold setUsername. checked. next a s1 Hg Ha. destruct (str_truthy _); [done|].
  apply (held_frame _ _ _ a); [done|apply available_held|]. intros [] s' Hs'; [|done].
  apply held_update. by apply (known_same s' a); [..|eapply known_history].
Qed.

Lemma updateAccountLevel_held s id l : held (updateAccountLevel id l) s sure.
Proof.
  unfold updateAccountLevel. next a s1 Hg Ha. apply held_update.
  by eapply known_same; [..|eapply known_history].
Qed.

Lemma updateAccountStatus_held s id st u c : held (updateAccountStatus id st u c) s sure.
Proof.
  unfold updateAccountStatus. next a s1 Hg Ha. checked. apply held_update.
  eapply known_same; [exact Ha|done..|]. simpl. by intros [_ ?]%app_eq_nil.
Qed.

Lemma updateBusinessMapInfo_held s u x y t : held (updateBusinessMapInfo u x y t) s sure.
Proof.
  unfold updateBusinessMapInfo. checked. next a s1 Hg Ha. checked. checked. apply held_update.
  by eapply known_same; [..|eapply known_history].
Qed.

Lemma addNewContact_held s id u : held (addNewContact id u) s sure.
Proof.
  unfold addNewContact. next b s1 Hg Hb. next a s2 Hg' Ha. cbv zeta.
  apply held_frame with (a := a); [done| |done]. apply held_update.
  by eapply known_same; [..|eapply known_history].
Qed.

Lemma updateContactAlias_held s id u al : held (updateContactAlias id u al) s sure.
Proof.
  unfold updateContactAlias. checked. next a s1 Hg Ha. destruct (change_first _ _ _) as [[ct l]|]; [|done].
  apply held_frame with (a := a); [done| |done]. apply held_update.
  by eapply known_same; [..|eapply known_history].
Qed.

Lemma updateDefaultWalletId_held s id w : held (updateDefaultWalletId id w) s sure.
Proof.
  unfold updateDefaultWalletId. next a s1 Hg Ha. next l s2 Hg' Hl.
  destruct (existsb _ l) eqn:He; [|done]. apply existsb_exists in He as (x & Hx & Hw).
  apply String.eqb_eq in Hw. subst w. apply held_update.
  assert (Ha' : known s2 a) by by eapply known_grows.
  eapply known_default; [exact Ha'|done..|]. apply told_owned; [done|].
  rewrite List.Forall_forall in Hl. by apply Hl.
Qed.

Lemma addWallet_held s id t c : held (addWallet id t c) s sure.
Proof. by split. Qed.

Lemma addWalletIfNonexistent_held s id t c : held (addWalletIfNonexistent id t c) s sure.
Proof.
  unfold addWalletIfNonexistent. next l s1 Hg Hl. destruct (List.find _ l); [done|]. by split.
Qed.

(** *** New accounts *)

Definition all_owned (s : store) (id : string) (enabled : WalletCurrency -> option Wallet) : Prop :=
  forall c w, enabled c = Some w -> owned s id (w_id w).

Lemma create_wallets_held a l : forall s enabled, known s a -> all_owned s (acc_id a) enabled ->
  held (create_wallets (acc_id a) l enabled) s
    (fun r s' => known s' a /\ told (all_owned s' (acc_id a)) r).
Proof.
  induction l as [|c l IH]; intros s enabled Ha He; simpl; [done|].
  split; [done|]. intros r s' Hg Hi Hp. assert (Ha' : known s' a) by by eapply known_grows.
  destruct r as [w|e|e]; [|done..]. simpl. apply IH; [done|]. intros c' w'. case_decide.
  - intros [= <-]. by apply told_owned.
  - intros Hw. eapply owned_grows; eauto.
Qed.

Lemma default_wallet_owned s id l enabled w : all_owned s id enabled ->
  default_wallet l enabled = Some w -> owned s id w.
Proof.
  intros He. assert (Hc : forall c, match enabled c with Some w => Some (w_id w) | None => None end
    = Some w -> owned s id w).
  { intros c. destruct (enabled c) as [x|] eqn:Hx; [|done]. intros [= <-]. by eapply He. }
  unfold default_wallet. destruct (str_truthy _); [apply Hc|]. destruct l; [done|apply Hc].
Qed.

(** A new account that is answered has a default wallet of its own. *)
Definition created (r : result Account) (s : store) : Prop :=
  told (fun b => known s b /\ exists id, acc_defaultWalletId b = Some id) r.

Lemma initialize_held ta a l phone s : known s a ->
  held (initializeCreatedAccount ta a l phone) s created.
Proof.
  intros Ha. unfold initializeCreatedAccount. apply keeps_to_bind.
  eapply keeps_to_mono; [by apply create_wallets_held|]. intros [en|e|e] s1 [Ha1 Hen]; [|done..].
  destruct (default_wallet l en) as [id|] eqn:Hd; [|done]. simpl in Hen.
  split.
  - eapply known_default; [exact Ha1|done..|]. by eapply default_wallet_owned.
  - intros [b|e|e] s2 Hg Hi; [|done..]. simpl. intros (Hk & _ & Hdef). split; [done|].
    exists id. by apply Hdef.
Qed.

Lemma createWithPhone_held ta k p m l s :
  held (createAccountWithPhoneIdentifier ta k p m l) s created.
Proof.
  assert (Hnew : forall m' s, held (rpbind (do_call (AccountPersistNew k (Some p) m'))
    (fun account => initializeCreatedAccount ta account l (Some p))) s created)
    by (intros m' s0; next a s1 Hg Ha; by apply initialize_held).
  unfold createAccountWithPhoneIdentifier. destruct m as [m|]; [apply Hnew|].
  destruct (str_truthy (Some p)); [|apply Hnew]. split; [done|].
  intros [i|e|e] s1 _ _ _; [apply Hnew..|done].
Qed.

Lemma createForEmail_held ta k l s : held (createAccountForEmailIdentifier ta k l) s created.
Proof. unfold createAccountForEmailIdentifier. next a s1 Hg Ha. by apply initialize_held. Qed.

(** ** Every operation *)

Inductive account_op : Type :=
| OpSetUsername (id username : string)
| OpUpdateLevel (id : string) (level : Z)
| OpUpdateStatus (id status : string) (updatedByUserId comment : option string)
| OpBusinessMapInfo (username : string) (latitude longitude : number) (title : string)
| OpAddContact (accountId contactUsername : string)
| OpContactAlias (accountId username alias : string)
| OpDefaultWallet (accountId walletId : string)
| OpAddWallet (accountId : string) (type : WalletType) (currency : WalletCurrency)
| OpAddWalletIfNonexistent (accountId : string) (type : WalletType) (currency : WalletCurrency)
| OpCreateWithPhone (kratosUserId phone : string) (m : option PhoneMetadata) (l : list WalletCurrency)
| OpCreateForEmail (kratosUserId : string) (l : list WalletCurrency).

Definition run_op (ta : list TestAccount) (op : account_op) : aprog (result unit) :=
  let done {A} (p : aprog (result A)) := rpbind p (fun _ => Ret (Ok tt)) in
  match op with
  | OpSetUsername id u => done (setUsername id u)
  | OpUpdateLevel id l => done (updateAccountLevel id l)
  | OpUpdateStatus id st u c => done (updateAccountStatus id st u c)
  | OpBusinessMapInfo u x y t => done (updateBusinessMapInfo u x y t)
  | OpAddContact a u => done (addNewContact a u)
  | OpContactAlias a u al => done (updateContactAlias a u al)
  | OpDefaultWallet a w => done (updateDefaultWalletId a w)
  | OpAddWallet a t c => done (addWallet a t c)
  | OpAddWalletIfNonexistent a t c => done (addWalletIfNonexistent a t c)
  | OpCreateWithPhone k p m l => done (createAccountWithPhoneIdentifier ta k p m l)
  | OpCreateForEmail k l => done (createAccountForEmailIdentifier ta k l)
  end.

Lemma run_op_held ta op s : held (run_op ta op) s sure.
Proof.
  destruct op; apply held_discard;
    [apply setUsername_held|apply updateAccountLevel_held|apply updateAccountStatus_held
    |apply updateBusinessMapInfo_held|apply addNewContact_held|apply updateContactAlias_held
    |apply updateDefaultWalletId_held|apply addWallet_held|apply addWalletIfNonexistent_held
    |eapply keeps_to_mono; [apply createWithPhone_held|done]
    |eapply keeps_to_mono; [apply createForEmail_held|done]].
Qed.

(** C24. However the handlers of accounts and wallets are interleaved by workers that
    share the repositories, identifiers stay unique, every account keeps a status
    history and, if it has one, a default wallet that it owns, and every wallet
    keeps an account; no account or wallet disappears, and an account never loses
    its username, its default wallet or a reward it earned, nor a wallet its
    account, its currency or an address. *)
Theorem accounts_stay_consistent (testAccounts : list TestAccount) (ops : list account_op)
    (n : nat) (s : store) cf
    (Hs : store_ok s)
    (Hruns : rtc (wstep store_ans (run_op testAccounts)) (runInParallel ops n s) cf) :
  store_ok (world cf) /\ store_grows s (world cf).
Proof.
  eapply (contracts_kept store_ans store_ok store_grows store_pre store_post
    store_pre_grows store_sound); [|exact Hs|exact Hruns].
  intros op s' _. apply run_op_held.
Qed.

(** *** An account created alone *)

(** An account that createAccountWithPhoneIdentifier answers is stored, and its default
    wallet is a stored wallet that belongs to it. *)
Theorem created_account_has_wallet (testAccounts : list TestAccount) (kratosUserId phone : string)
    (m : option PhoneMetadata) (initialWallets : list WalletCurrency) (s : store)
    (Hs : store_ok s) :
  always store_ans (createAccountWithPhoneIdentifier testAccounts kratosUserId phone m initialWallets) s
    (fun r s' => store_ok s' /\ forall a, r = Ok a ->
       exists d id, In d (account_docs s') /\ ra_id d = acc_id a /\
         acc_defaultWalletId a = Some id /\ owned s' (acc_id a) id).
Proof.
  eapply always_mono; [eapply (keeps_to_always _ _ _ _ _ store_sound); [exact Hs|apply createWithPhone_held]|].
  intros r s' [Hok Hc]. split; [done|]. intros a ->. simpl in Hc.
  destruct Hc as [(_ & _ & (d & Hd & He) & Ho) [id Hid]]. exists d, id. auto.
Qed.

(** ** Usernames *)

(** The names taken, in lower case. *)
Definition lower_name (d : RawAccount) : option string :=
  match ra_username d with Some u => Some (Usernames.str_map to_lower u) | None => None end.
Definition names (l : list RawAccount) : list string := omap lower_name l.

Lemma has_username_spec u d :
  has_username u d = true <-> lower_name d = Some (Usernames.str_map to_lower u).
Proof.
  unfold has_username, lower_name, caseInsensitiveRegex. destruct (ra_username d) as [v|]; [|done].
  rewrite Usernames.lit_nocase_spec. split; [by intros ->|by intros [= ->]].
Qed.

Lemma name_taken l u : Usernames.str_map to_lower u ∈ names l <->
  exists d, In d l /\ has_username u d = true.
Proof.
  unfold names. rewrite list_elem_of_omap. split.
  - intros (d & Hd & Hn). exists d. by rewrite has_username_spec, <- list_elem_of_In.
  - intros (d & Hd & Hn). exists d. by rewrite <- has_username_spec, list_elem_of_In.
Qed.

Lemma names_changed l1 l2 d d' n : lower_name d' = Some n -> n ∉ names (l1 ++ d :: l2) ->
  NoDup (names (l1 ++ d :: l2)) -> NoDup (names (l1 ++ d' :: l2)).
Proof.
  intros Hn. unfold names. rewrite !omap_app. simpl. rewrite Hn.
  set (A := omap lower_name l1). set (B := omap lower_name l2).
  assert (Hsub : n ∉ A ++ B -> NoDup (A ++ B) -> NoDup (A ++ n :: B)).
  { intros Hin Hd. rewrite <- Permutation_middle. by constructor. }
  destruct (lower_name d) as [m|]; [|done]. intros Hin Hd. apply Hsub.
  - intros Hin'. apply Hin, elem_of_app. apply elem_of_app in Hin' as [?|?];
    [by left|right; by constructor].
  - rewrite <- Permutation_middle in Hd. by apply NoDup_cons in Hd as [_ Hd].
Qed.

Lemma repository_error_found m : is_a (parseRepositoryError m) CouldNotFindError = false.
Proof. unfold parseRepositoryError. by repeat case_match. Qed.

(** The name is free when the search fails because there is none. *)
Lemma available_always s u :
  always store_ans (usernameAvailable u) s (fun r s' => s' = s /\
    (r = Ok true -> checkedToUsername u = Ok u /\ Usernames.str_map to_lower u ∉ names (account_docs s))).
Proof.
  unfold usernameAvailable. destruct (checkedToUsername u) as [v|e|e] eqn:Hv; [|done..].
  assert (v = u) as -> by (unfold checkedToUsername in Hv; destruct (UsernameRegex u); [by injection Hv|done]).
  simpl. intros x s' [-> ->]. unfold findByUsername.
  destruct (coll_findOne _ _) as [[r|]|m] eqn:Hf; simpl.
  - unfold translateToAccount. by destruct (last _).
  - split; [done|]. intros _. split; [done|]. rewrite name_taken. intros (d & Hd & Hn).
    rewrite (findOne_none _ _ Hf d Hd) in Hn. done.
  - rewrite repository_error_found. done.
Qed.

(** What an update does to the documents. *)
Lemma update_docs s a x s' : known s a -> store_ans _ (AccountUpdate a) s x s' ->
  (exists l1 d l2, account_docs s = l1 ++ d :: l2 /\ ra_id d = acc_id a /\
     account_docs s' = l1 ++ set_fields a d :: l2 /\ x = caught (translateToAccount (set_fields a d))) \/
  (account_docs s' = account_docs s /\ is_ok x = false).
Proof.
  intros (Hid & _) (c' & Hu & ->). unfold update, with_oid in Hu. rewrite Hid in Hu.
  destruct (coll_findOneAndUpdate _ _ _) as [[[d'|] c1]|m] eqn:Hf; injection Hu as <- <-.
  - left. apply update_some in Hf as (l1 & d & l2 & Hl & Hq & -> & Hl'). exists l1, d, l2.
    apply String.eqb_eq in Hq. done.
  - right. apply update_none in Hf as [Hc _]. done.
  - right. by rewrite store_eta.
Qed.

(** A document with a history is read. *)
Lemma translated_ok a d : acc_statusHistory a <> [] ->
  exists b, translateToAccount (set_fields a d) = Ok b /\ acc_id b = ra_id d /\
    acc_username b = ra_username (set_fields a d).
Proof.
  intros Hh. unfold translateToAccount. cbn [ra_statusHistory set_fields].
  destruct (last (acc_statusHistory a)) as [e|] eqn:Hl; [by eexists|]. by apply last_None in Hl.
Qed.

Definition unset (d : RawAccount) : Prop := str_truthy (ra_username d) = false.

(** C30. setUsername either changes no account and answers an error, or sets the name of
    exactly the account asked for, which had none; the name is a valid one, no
    account had it in any case before, and names that were distinct up to case stay
    so. *)
Theorem setUsername_takes_free_name (id username : string) (s : store) (Hs : store_ok s) :
  always store_ans (setUsername id username) s (fun r s' =>
    match r with
    | Ok a => exists l1 d l2 d', account_docs s = l1 ++ d :: l2 /\ account_docs s' = l1 ++ d' :: l2 /\
        toObjectId id = Done (ra_id d) /\ unset d /\ ra_id d' = ra_id d /\
        ra_username d' = Some username /\ acc_username a = Some username /\
        checkedToUsername username = Ok username /\
        (Usernames.str_map to_lower username ∉ names (account_docs s)) /\
        (NoDup (names (account_docs s)) -> NoDup (names (account_docs s')))
    | _ => account_docs s' = account_docs s
    end).
Proof.
  unfold setUsername. destruct (checkedToUsername username) as [u|e|e] eqn:Hu; [|done..].
  apply always_await. simpl. intros x s' [-> ->].
  destruct (fst (findById _ _ _)) as [a|e|e] eqn:Hf; [|done..].
  destruct (found_account _ _ _ Hf) as (oid & d & Ho & Hd & Hid & Ha).
  assert (Hk : known s a) by by eapply known_doc. apply translated in Ha as (Hai & _ & _ & Hau).
  destruct (str_truthy (acc_username a)) eqn:Ht; [done|].
  apply always_await. eapply always_mono; [apply available_always|].
  intros r s' [-> Hr]. destruct r as [[]|e|e]; [|done..].
  destruct (Hr eq_refl) as [Hc Hfree].
  assert (u = username) as -> by (unfold checkedToUsername in Hu; destruct (UsernameRegex username); [by injection Hu|done]).
  simpl. intros x s1 Hx. apply (update_docs s (set_username username a)) in Hx;
    [|by apply (known_same s a); [..|eapply known_history]].
  destruct Hx as [(l1 & d1 & l2 & Hl & Hd1 & Hl' & ->)|[Hsame Hx]]; [|by destruct x].
  destruct (translated_ok (set_username username a) d1) as (b & Hb & _ & Hbu);
    [by eapply known_history|]. rewrite Hb. simpl.
  assert (d1 = d) as ->.
  { destruct Hs as (Hnd & _). simpl in Hd1. apply (map_injective ra_id (account_docs s)); [done| |done|congruence].
    rewrite Hl, in_app_iff. right. by left. }
  exists l1, d, l2, (set_fields (set_username username a) d). rewrite Hl, Hl'. split_and!; try done.
  - congruence.
  - unfold unset. by rewrite <- Hau.
  - by rewrite <- Hl.
  - eapply names_changed; [done|]. by rewrite <- Hl.
Qed.
End Store.

(** ** Handlers on a concrete store *)

Module AccountsExample.

Definition sample_store : Type := @store (list RawAccount) (list RawWallet).
Definition sample_defaults : SchemaDefaults := mkDefaults StatusActive (num 0) (num 0).

Definition sample_account (id wallet username : string) : RawAccount :=
  mkRawAccount id 0 (Some wallet) (if String.eqb username "" then None else Some username) (Some 1)
    [mkStatusEntry StatusActive None None] None None (Some true) [] (num 0) (num 0) RoleUser [] None
    (Some "+50370000000") None "" [] [].
Definition sample_start : sample_store :=
  mkStore [sample_account "acc1" "w1" ""; sample_account "acc2" "w2" "Bob"]
    [mkRawWallet "w1" "acc1" Btc []; mkRawWallet "w2" "acc2" Btc []].

(** New identifiers are longer than those in use. *)
Definition fresh_id (l : list string) : string := ("n" ++ fold_right String.append "" l)%string.

Definition base_answer (X : Type) (c : call X) (s : sample_store) : X :=
  match c in call X return X with
  | AccountFindById id => fst (findById Done id (sto_accounts s))
  | UserFindById id => fst (users_findById Done id (sto_accounts s))
  | WalletFindById id => fst (findWalletById id (sto_wallets s))
  | WalletListByAccountId id => fst (WalletsRepo.listByAccountId Done id (sto_wallets s))
  | WalletFindByAddress a => fst (WalletsRepo.findByAddress a (sto_wallets s))
  | WalletListByAddresses l => fst (WalletsRepo.listByAddresses l (sto_wallets s))
  | c => failing_env _ c
  end.

Definition on_accounts {X} (r : X * list RawAccount) (s : sample_store) : X * sample_store :=
  (r.1, mkStore r.2 (sto_wallets s)).
Definition on_wallets {X} (r : X * list RawWallet) (s : sample_store) : X * sample_store :=
  (r.1, mkStore (sto_accounts s) r.2).

Definition store_answer (X : Type) (c : acall X) (s : sample_store) : X * sample_store :=
  match c in acall X return X * sample_store with
  | Base c => (base_answer _ c s, s)
  | AccountListUnlocked => (fst (listUnlockedAccounts (sto_accounts s)), s)
  | AccountListBusinesses => (fst (listBusinessesForMap (sto_accounts s)), s)
  | AccountFindByUsername u => (fst (findByUsername u (sto_accounts s)), s)
  | AccountFindByKratosUserId k => (fst (findByKratosUserId k (sto_accounts s)), s)
  | UserFindByPhone p => (fst (users_findByPhone p (sto_accounts s)), s)
  | UserIpsFindById u => (fst (ips_findById Done u (sto_accounts s)), s)
  | AddressFindLast id => (fst (WalletsRepo.findLastByWalletId id (sto_wallets s)), s)
  | AccountUpdate a => on_accounts (update Done a (sto_accounts s)) s
  | UserUpdate u => on_accounts (users_update Done u (sto_accounts s)) s
  | UserIpsUpdate u ips => on_accounts (ips_update Done u ips (sto_accounts s)) s
  | RewardsAdd a q => on_accounts (rewards_add Done a q (sto_accounts s)) s
  | AccountPersistNew k p m =>
      on_accounts (persistNewAccount sample_defaults (fresh_id (List.map ra_id (sto_accounts s))) 0 k p m
                     (sto_accounts s)) s
  | WalletPersistNew a _ currency =>
      on_wallets (persistNewWallet Done (fresh_id (List.map rw_id (sto_wallets s))) a currency
                    (sto_accounts s) (sto_wallets s)) s
  | AddressPersistNew id a => on_wallets (address_persistNew id a (sto_wallets s)) s
  | RandomInt min _ => (min, s)
  | Now => (0, s)
  | _ => (Er (new UnknownRepositoryError), s)
  end.

Lemma length_append (x y : string) : String.length (x ++ y)%string = (String.length x + String.length y)%nat.
Proof. induction x; simpl; auto. Qed.

Lemma concat_length (l : list string) x : x ∈ l ->
  (String.length x <= String.length (fold_right String.append "" l))%nat.
Proof.
  induction l as [|y l IH]; [by intros ?%elem_of_nil|]. simpl. rewrite length_append.
  intros [->|Hx]%elem_of_cons; [lia|]. specialize (IH Hx). lia.
Qed.

Lemma fresh_id_new l : fresh_id l ∉ l.
Proof. intros Hin%concat_length. unfold fresh_id in Hin. rewrite length_append in Hin.
  simpl in Hin. lia. Qed.

Lemma store_answers X c s :
  store_ans Done sample_defaults X c s (fst (store_answer X c s)) (snd (store_answer X c s)).
Proof.
  destruct c; simpl; try done; try (by eexists; split; [apply surjective_pairing|]).
  - by destruct c.
  - exists (fresh_id (List.map ra_id (sto_accounts s))), 0. eexists.
    split; [split; [done|apply fresh_id_new]|]. by split.
  - exists (fresh_id (List.map rw_id (sto_wallets s))). eexists.
    split; [apply fresh_id_new|]. split; [apply surjective_pairing|done].
Qed.

Lemma sample_start_ok : store_ok Done sample_start.
Proof.
  split_and!; try (by apply (bool_decide_unpack _)); simpl.
  - intros d [<-|[<-|[]]]; (split; [done|split; [done|]]); intros id [= <-].
    + eexists. split; [by left|done].
    + eexists. split; [right; by left|done].
  - intros r [<-|[<-|[]]]; eexists; [split; [by left|done]|split; [right; by left|done]].
Qed.

(** The account is locked while a request adds a contact. *)
Definition sample_ops : list account_op :=
  [OpUpdateStatus "acc1" "locked" None None; OpAddContact "acc1" "bob";
   OpSetUsername "acc1" "alice"; OpCreateForEmail "k1" [Btc; Usd];
   OpDefaultWallet "acc1" "w1"].
Definition sample_run : @config acall sample_store account_op unit := runInParallel sample_ops 2 sample_start.
Definition lock_order : list nat := [0; 1; 1; 1; 0; 0; 0; 1; 1]%nat.
Definition sample_order : list nat := lock_order ++ concat (replicate 7 [0; 1]%nat) ++ replicate 4 0%nat.
Definition sample_end := default sample_run (scheduled store_answer (run_op []) sample_order sample_run).

Lemma accounts_stay_consistent_witness :
  store_ok Done (world sample_end) /\ length (account_docs (world sample_end)) = 3%nat.
Proof.
  assert (Hl : length (account_docs (world sample_end)) = 3%nat) by (vm_compute; reflexivity).
  split; [|exact Hl].
  apply (accounts_stay_consistent Done sample_defaults [] sample_ops 2 sample_start sample_end sample_start_ok).
  apply (scheduled_runs store_answer _ _ sample_order); [exact store_answers|vm_compute; reflexivity].
Defined.

Lemma created_account_has_wallet_witness :
  always (store_ans Done sample_defaults)
    (createAccountWithPhoneIdentifier [] "k2" "+50370000001" None [Btc; Usd]) sample_start
    (fun r s' => store_ok Done s').
Proof.
  eapply always_mono; [apply (created_account_has_wallet Done sample_defaults [] "k2" "+50370000001"
    None [Btc; Usd] sample_start sample_start_ok)|]. by intros r s' [Hok _].
Defined.

Lemma setUsername_takes_free_name_witness :
  always (store_ans Done sample_defaults) (setUsername "acc1" "bob") sample_start
    (fun r s' => is_ok r = false).
Proof.
  eapply always_mono; [apply (setUsername_takes_free_name Done sample_defaults "acc1" "bob" sample_start
    sample_start_ok)|].
  intros [a|e|e] s' Hr; [|done..]. destruct Hr as (l1 & d & l2 & d' & _ & _ & _ & _ & _ & _ & _ & _ & Hn & _).
  by destruct Hn; apply (bool_decide_unpack _); vm_compute.
Defined.

(** A request that read the account before it was locked writes it back unlocked. *)
Example lock_is_lost :
  match scheduled store_answer (run_op []) lock_order sample_run with
  | Some cf => processed cf = firstn 2 sample_ops /\
      List.map ra_statusHistory (account_docs (world cf)) =
        List.map ra_statusHistory (account_docs sample_start)
  | None => False
  end.
Proof. vm_compute. by split. Qed.

(** The same requests one after the other. *)
Example lock_is_kept :
  match scheduled store_answer (run_op []) [0; 0; 0; 0; 1; 1; 1; 1; 1]%nat sample_run with
  | Some cf => processed cf = firstn 2 sample_ops /\
      List.map (fun d => List.map st_status (ra_statusHistory d)) (account_docs (world cf)) =
        [[StatusActive; StatusLocked]; [StatusActive]]
  | None => False
  end.
Proof. vm_compute. by split. Qed.
End AccountsExample.
