(* ===== verification/PaymentsSpec.v ===== *)
(** * Properties of the payment handlers

    The protocol a lightning payment follows with the ledger and the node, as a
    step relation on phases, and what it implies of every execution of
    [executePaymentViaLn]. *)

From S2P Require Import Prelude JsNum Errors Money Ledger PaymentFlow Validation Accounts TxMetadata Facade LedgerService LedgerWrites Programs Effects Payments.
Import AmountCalculator PriceRatio.
#[local] Open Scope string_scope.
#[local] Open Scope Z_scope.
#[local] Open Scope list_scope.

Arguments rpbind {E A B} p k /.
Arguments do_call {E X} c /.
Arguments unless_aborted {A} k /.
Arguments pay_call : simpl never.
Arguments redlock : simpl never.
Arguments Flow.routeDetails : simpl never.
Arguments Flow.checkBalanceForSend : simpl never.
Arguments PriceRatio.PriceRatio : simpl never.
Arguments getPriceRatioForLimits : simpl never.
Arguments total_of : simpl never.
Arguments is_a : simpl never.
Arguments FeeReimbursement.getReimbursement : simpl never.
Arguments paymentAmountFromNumber : simpl never.
Arguments Flow.paymentHashForFlow : simpl never.
Arguments checkWithdrawal : simpl never.
Arguments timestampDaysAgo : simpl never.

(** Calls that move money or change its state, and those on locks. *)
Definition sensitive {X} (c : call X) : bool :=
  match c with
  | FacadeRecordSend _ _ _ _ _ | FacadeRecordReceive _ _ _ _ _ _ _
  | FacadeRecordIntraledger _ _ _ _ _ _ | FacadeSettlePendingLnSend _
  | FacadeRecordLnSendRevert _ _ | LndPayViaRoutes _ _ _ | LndPayViaPaymentDetails _ _ _
  | LedgerSettlePendingLnPayment _ | LedgerRevertLightningPayment _ _ | LndSettleInvoice _ _
  | LndCancelInvoice _ _ | InvoiceMarkAsPaid _ | LockAcquire _ | LockRelease _
  | LedgerAddOnChainTxSend _ | LedgerSetOnChainTxSendHash _ _ | LedgerRevertOnChainPayment _
  | LedgerAddOnChainIntraledger _ _ _ _ | LedgerAddOnChainTxReceive _
  | LedgerAddColdStorageTxSend _ | OnChainPayToAddress _ _ _ _ => true
  | _ => false
  end.

Definition is_pay {X} (c : call X) : bool :=
  match c with LndPayViaRoutes _ _ _ | LndPayViaPaymentDetails _ _ _ => true | _ => false end.

(** ** What a trace does to the money

    The steps that took effect: debits, payments of the node, settlements, reverts,
    reimbursements and transfers. *)
Inductive money : Type :=
| Debited (jid : string) (w : WalletDescriptor) (total : BothAmounts)
| PayAnswered (r : result PayInvoiceResult)
| Settled (hash : string)
| Reverted (jid hash : string)
| Credited (w : WalletDescriptor) (amt : BothAmounts)
| Transferred (sender recipient : WalletDescriptor) (amt : BothAmounts)
| OnChainDebited (jid : string) (a : OnChainSend)
| OnChainPaid (address : string) (amt : number) (r : result string)
| OnChainReverted (jid : string)
| OnChainTransferred (a : IntraTransfer)
| OnChainReceived (a : OnChainReceive)
| ToHotWalletRecorded (a : ColdStorageTx).

Definition on_ok {A B} (r : result A) (b : A -> list B) : list B :=
  match r with Ok a => b a | _ => [] end.

Definition money_of (ev : event) : list money :=
  match ev with
  | Ev c x =>
      match c in call X return X -> list money with
      | FacadeRecordSend _ w total _ _ => fun x => on_ok x (fun j => [Debited (journalId j) w total])
      | FacadeRecordReceive _ w amt _ _ _ _ => fun x => on_ok x (fun _ => [Credited w amt])
      | FacadeRecordIntraledger _ s r amt _ _ => fun x => on_ok x (fun _ => [Transferred s r amt])
      | FacadeSettlePendingLnSend h => fun x => on_ok x (fun _ => [Settled h])
      | FacadeRecordLnSendRevert j h => fun x => on_ok x (fun _ => [Reverted j h])
      | LndPayViaRoutes _ _ _ => fun x => [PayAnswered x]
      | LndPayViaPaymentDetails _ _ _ => fun x => [PayAnswered x]
      | LedgerSettlePendingLnPayment h => fun x => on_ok x (fun _ => [Settled h])
      | LedgerRevertLightningPayment j h => fun x => on_ok x (fun _ => [Reverted j h])
      | LedgerAddOnChainTxSend a => fun x => on_ok x (fun j => [OnChainDebited (journalId j) a])
      | OnChainPayToAddress address amt _ _ => fun x => [OnChainPaid address amt x]
      | LedgerRevertOnChainPayment j => fun x => on_ok x (fun _ => [OnChainReverted j])
      | LedgerAddOnChainIntraledger a _ _ _ => fun x => on_ok x (fun _ => [OnChainTransferred a])
      | LedgerAddOnChainTxReceive a => fun x => on_ok x (fun _ => [OnChainReceived a])
      | LedgerAddColdStorageTxSend a => fun x => on_ok x (fun _ => [ToHotWalletRecorded a])
      | _ => fun _ => []
      end x
  end.

Definition money_trace (tr : list event) : list money := tr ≫= money_of.

(** A call of the facade or of the lock service that did not succeed. *)
Definition is_lock_ok (o : lock_outcome) : bool := match o with LockOk => true | _ => false end.

Definition service_failed (ev : event) : bool :=
  match ev with
  | Ev c x =>
      match c in call X return X -> bool with
      | FacadeRecordSend _ _ _ _ _ => fun x => negb (is_ok x)
      | FacadeRecordReceive _ _ _ _ _ _ _ => fun x => negb (is_ok x)
      | FacadeRecordIntraledger _ _ _ _ _ _ => fun x => negb (is_ok x)
      | FacadeSettlePendingLnSend _ => fun x => negb (is_ok x)
      | FacadeRecordLnSendRevert _ _ => fun x => negb (is_ok x)
      | LockAcquire _ => fun o => negb (is_lock_ok o)
      | LockRelease _ => fun o => negb (is_lock_ok o)
      | _ => fun _ => false
      end x
  end.

Lemma quiet_money {X} (c : call X) x : sensitive c = false -> money_of (Ev c x) = [].
Proof. by destruct c. Qed.

Lemma money_trace_cons ev tr : money_trace (ev :: tr) = money_of ev ++ money_trace tr.
Proof. done. Qed.

Lemma money_trace_app tr1 tr2 : money_trace (tr1 ++ tr2) = money_trace tr1 ++ money_trace tr2.
Proof. apply bind_app. Qed.

Module LnProtocol.
Section Ln.
Context (cfg : Settings) (f : PaymentFlow) (invoice : LnInvoice) (wallet : Wallet).

Definition hash : string := inv_paymentHash invoice.
Definition lock_path : string := getWalletLockResource (w_id wallet).
Definition sender : WalletDescriptor := descriptor (Flow.senderWalletDescriptor f).

Inductive phase : Type :=
| PStart                                  (* nothing checked *)
| PVolume (v : VolumeAmount)              (* the volume of the day is known *)
| PAllowed                                (* within the limits *)
| PLocked                                 (* the wallet is locked *)
| PClear                                  (* no pending payment of the hash *)
| PFunded                                 (* the balance covers amount and fee *)
| PRecorded (jid : string)                (* the sender is debited *)
| PPaid (jid : string) (r : result PayInvoiceResult)     (* the node has answered *)
| PSettled (jid : string) (r : result PayInvoiceResult)  (* no longer pending *)
| PReverted (jid : string) (e : error)    (* the debit is taken back *)
| PReimbursed (jid : string) (res : PayInvoiceResult) (amt : BothAmounts)
                                          (* the unused fee was given back *)
| PFailed (last : phase)                  (* a call failed, nothing more is recorded *)
| PReleased (last : phase) (o : lock_outcome).   (* the lock is released *)

(** The node did not report a payment still in flight. *)
Definition conclusive (r : result PayInvoiceResult) : Prop :=
  match r with
  | Ok _ => True
  | Er e => is_a e LnPaymentPendingError = false
  | Throw _ => False
  end.

(** A reimbursement gives back the fee prepaid and not used. *)
Definition reimburses (res : PayInvoiceResult) (amt : BothAmounts) : Prop :=
  exists fee diff r,
    paymentAmountFromNumber (Some (roundedUpFee res)) Btc = Ok fee /\
    PriceRatio (pf_usdPaymentAmount f) (pf_btcPaymentAmount f) = Ok r /\
    FeeReimbursement.getReimbursement
      (FeeReimbursement.mkAmounts (pf_btcProtocolFee f) (pf_usdProtocolFee f)) r fee = Ok diff /\
    amt = mkBoth (FeeReimbursement.ra_usd diff) (FeeReimbursement.ra_btc diff).

Inductive ln_step : phase -> event -> phase -> Prop :=
| s_quiet ph X (c : call X) x : sensitive c = false -> ln_step ph (Ev c x) ph
| s_volume ts v :
    timestampDaysAgo (set_now cfg) ONE_DAY = Ok ts ->
    ln_step PStart (Ev (LedgerVolumeSince externalPaymentVolumeSince (descriptor wallet) ts) (Ok v))
      (PVolume v)
| s_allowed v acc r :
    getPriceRatioForLimits cfg f = Ok r ->
    checkWithdrawal (getAccountLimits (set_limits cfg) (acc_level acc)) r
      (pf_usdPaymentAmount f) (va_outgoing v) = Ok tt ->
    ln_step (PVolume v) (Ev (AccountFindById (w_accountId wallet)) (Ok acc)) PAllowed
| s_lock : ln_step PAllowed (Ev (LockAcquire lock_path) LockOk) PLocked
| s_no_lock o : o <> LockOk -> ln_step PAllowed (Ev (LockAcquire lock_path) o) (PFailed PAllowed)
| s_clear txs :
    existsb ltx_pendingConfirmation txs = false ->
    ln_step PLocked (Ev (LedgerTransactionsByHash hash) (Ok txs)) PClear
| s_funded b :
    Flow.checkBalanceForSend f b = Ok tt ->
    ln_step PClear (Ev (LedgerWalletBalance (descriptor wallet)) (Ok b)) PFunded
| s_record d md j :
    ln_step PFunded (Ev (FacadeRecordSend d sender (total_of f) None md) (Ok j))
      (PRecorded (journalId j))
| s_no_record d md x : is_ok x = false ->
    ln_step PFunded (Ev (FacadeRecordSend d sender (total_of f) None md) x) (PFailed PFunded)
| s_pay jid r : ln_step (PRecorded jid) (Ev (pay_call f invoice) r) (PPaid jid r)
| s_settle jid r : conclusive r ->
    ln_step (PPaid jid r) (Ev (FacadeSettlePendingLnSend hash) (Ok tt)) (PSettled jid r)
| s_no_settle jid r x : conclusive r -> is_ok x = false ->
    ln_step (PPaid jid r) (Ev (FacadeSettlePendingLnSend hash) x)
      (PFailed (PPaid jid r))
| s_revert jid e :
    ln_step (PSettled jid (Er e)) (Ev (FacadeRecordLnSendRevert jid hash) (Ok tt))
      (PReverted jid e)
| s_no_revert jid e x : is_ok x = false ->
    ln_step (PSettled jid (Er e)) (Ev (FacadeRecordLnSendRevert jid hash) x)
      (PFailed (PSettled jid (Er e)))
| s_reimburse jid res amt md h pre j :
    fst (Flow.routeDetails f) = None -> reimburses res amt ->
    ln_step (PSettled jid (Ok res))
      (Ev (FacadeRecordReceive "fee reimbursement" sender amt None md h pre) (Ok j))
      (PReimbursed jid res amt)
| s_no_reimburse jid res amt md h pre x : is_ok x = false ->
    ln_step (PSettled jid (Ok res))
      (Ev (FacadeRecordReceive "fee reimbursement" sender amt None md h pre) x)
      (PFailed (PSettled jid (Ok res)))
| s_release ph o : ln_step ph (Ev (LockRelease lock_path) o) (PReleased ph o).

(** What the caller is told in the phase in which the section under the lock
    ends. *)
Definition body_outcome (ph : phase) (r : result PaymentSendStatus) : Prop :=
  match ph with
  | PPaid _ (Er e) => is_a e LnPaymentPendingError = true /\ r = Ok Pending
  | PPaid _ (Throw e) => r = Throw e
  | PSettled _ (Ok _) => r = Ok Success \/ is_ok r = false
  | PReimbursed _ _ _ => r = Ok Success
  | PReverted _ e => r = if is_a e LnAlreadyPaidError then Ok AlreadyPaid else Er e
  | PLocked | PClear | PFunded | PFailed _ => is_ok r = false
  | _ => False
  end.

(** What the caller is told when the handler ends. *)
Definition ln_outcome (ph : phase) (r : result PaymentSendStatus) : Prop :=
  match ph with
  | PStart | PVolume _ | PAllowed | PFailed _ => is_ok r = false
  | PReleased last o => exists r0, body_outcome last r0 /\
      (r = r0 \/ (is_ok r = false /\ (o <> LockOk \/ exists e, r0 = Throw e)))
  | _ => False
  end.

(** Handles a call: the answers, then the step. *)
Ltac quiet := eexists; split; [by apply s_quiet|]; simpl.
Ltac stop := quiet; done.

Lemma reimburse_follows jid res :
  fst (Flow.routeDetails f) = None ->
  follows ln_step (await _ <- reimburseFee f jid (roundedUpFee res) (revealedPreImage res) ;;
                   Ret (Ok Success)) (PSettled jid (Ok res)) body_outcome.
Proof.
  intros Hr. unfold reimburseFee.
  destruct (paymentAmountFromNumber _ _) as [fee| |] eqn:Hfee; simpl; auto.
  destruct (PriceRatio _ _) as [r| |] eqn:Hratio; simpl; auto.
  destruct (FeeReimbursement.getReimbursement _ _ _) as [diff| |] eqn:Hdiff; simpl; auto.
  destruct (_ =? 0); simpl; auto.
  destruct (Flow.paymentHashForFlow f) as [h| |]; simpl; auto.
  intros [j|e|e]; eexists.
  - split; [apply s_reimburse; [done|]|done]. by exists fee, diff, r.
  - split; [by apply s_no_reimburse|done].
  - split; [by apply s_no_reimburse|done].
Qed.

(** The end of [after_payment] on an error of the node. *)
Definition failed_payment (jid : string) (e : error) : prog (result PaymentSendStatus) :=
  if is_a e LnPaymentPendingError then
    let! _ <- do_call (FlowUpdate (mark_pending f)) ;; Ret (Ok Pending)
  else
    await _ <- do_call (FacadeSettlePendingLnSend (inv_paymentHash invoice)) ;;
    await _ <- do_call (FacadeRecordLnSendRevert jid (inv_paymentHash invoice)) ;;
    (if is_a e LnAlreadyPaidError then Ret (Ok AlreadyPaid) else Ret (Er e)).

Lemma failed_payment_follows jid e :
  follows ln_step (failed_payment jid e) (PPaid jid (Er e)) body_outcome.
Proof.
  unfold failed_payment. destruct (is_a e LnPaymentPendingError) eqn:Hp; simpl.
  - intros []. by quiet.
  - intros [[]|x|x]; eexists; (split; [first [by apply s_settle|by apply s_no_settle]|simpl]);
      [|done..].
    intros [[]|x|x]; eexists; (split; [first [apply s_revert|by apply s_no_revert]|simpl]);
      [|done..].
    by destruct (is_a e LnAlreadyPaidError) eqn:Ha; simpl; rewrite Ha.
Qed.

Lemma after_payment_follows jid sentFrom r :
  follows ln_step (after_payment f invoice jid sentFrom r) (PPaid jid r) body_outcome.
Proof.
  unfold after_payment. destruct (fst (Flow.routeDetails f)) as [rt|] eqn:Hr;
    destruct r as [res|e|e]; simpl; try done.
  2, 4: pose proof (failed_payment_follows jid e) as Hend; unfold failed_payment in Hend;
    simpl in Hend; destruct (is_a e LnAlreadyPaidError) eqn:Ha; simpl; [exact Hend|];
    intros []; quiet; exact Hend.
  all: intros []; quiet; intros []; quiet; intros [[]|e|e]; eexists;
    (split; [first [by apply s_settle|by apply s_no_settle]|simpl; try done]).
  - by left.
  - by apply reimburse_follows.
Qed.

Lemma ln_body_follows : follows ln_step (ln_body f invoice wallet) PLocked body_outcome.
Proof.
  unfold ln_body. destruct (Flow.routeDetails f) as [rawRoute out] eqn:Hrd. simpl.
  intros [txs|e|e]; [|stop..].
  destruct (existsb ltx_pendingConfirmation txs) eqn:Hp.
  { by quiet. }
  eexists. split; [by apply s_clear|]. simpl. intros [b|e|e]; [|stop..].
  destruct (Flow.checkBalanceForSend f b) as [[]|e|e] eqn:Hb; simpl; [|stop..].
  eexists. split; [by apply s_funded|]. simpl. intros [lnd|e|e]; [|stop..]. quiet.
  destruct (PriceRatio _ _) as [r|e|e]; simpl; [|done..].
  intros [m|]; [by quiet|]. quiet.
  intros [j|e|e]; eexists; (split; [first [apply s_record|by apply s_no_record]|simpl]); [|done..].
  intros r0. eexists. split; [apply s_pay|]. apply after_payment_follows.
Qed.

Arguments ln_body : simpl never.

Lemma ln_follows : follows ln_step (executePaymentViaLn cfg invoice f wallet) PStart ln_outcome.
Proof.
  unfold executePaymentViaLn, lockWalletId.
  destruct (getPriceRatioForLimits cfg f) as [r|e|e] eqn:Hr; simpl; [|done..].
  intros [v|e|e]; [|stop..]. eexists. split; [by apply s_volume|]. simpl.
  intros [acc|e|e]; [|stop..].
  destruct (checkWithdrawal _ _ _ _) as [[]|e|e] eqn:Hc; simpl.
  2-3: eexists; split; [by apply s_quiet|done].
  eexists. split; [by eapply s_allowed|].
  change (follows ln_step (redlock lock_path None (ln_body f invoice wallet)) PAllowed ln_outcome).
  eapply follows_redlock; [apply s_lock|exact ln_body_follows| |].
  - intros o Ho. eexists. split; [by apply s_no_lock|done].
  - intros ph a o Ha. eexists. split; [apply s_release|]. simpl. intros r' [[-> _]|Hr']; eauto.
Qed.

(** *** The money along a path *)

(** The steps a phase stands for. *)
Fixpoint done_in (ph : phase) : list money :=
  match ph with
  | PStart | PVolume _ | PAllowed | PLocked | PClear | PFunded => []
  | PRecorded jid => [Debited jid sender (total_of f)]
  | PPaid jid r => [Debited jid sender (total_of f); PayAnswered r]
  | PSettled jid r => [Debited jid sender (total_of f); PayAnswered r; Settled hash]
  | PReverted jid e =>
      [Debited jid sender (total_of f); PayAnswered (Er e); Settled hash; Reverted jid hash]
  | PReimbursed jid res amt =>
      [Debited jid sender (total_of f); PayAnswered (Ok res); Settled hash; Credited sender amt]
  | PFailed last => done_in last
  | PReleased last _ => done_in last
  end.

(** A phase entered because a call failed. *)
Fixpoint has_failed (ph : phase) : bool :=
  match ph with
  | PFailed _ => true
  | PReleased last o => has_failed last || negb (is_lock_ok o)
  | _ => false
  end.

Lemma pay_money r : money_of (Ev (pay_call f invoice) r) = [PayAnswered r].
Proof. unfold pay_call. by destruct (Flow.routeDetails f) as [[rt|] out]. Qed.

Lemma ln_step_money ph ev ph' : ln_step ph ev ph' -> done_in ph' = done_in ph ++ money_of ev.
Proof.
  destruct 1; rewrite ?pay_money, ?quiet_money by done; simpl; rewrite ?app_nil_r; auto;
    by destruct x.
Qed.

Lemma ln_path_money ph tr ph' :
  path ln_step ph tr ph' -> done_in ph' = done_in ph ++ money_trace tr.
Proof.
  induction 1 as [ph|ph ev ph1 tr ph2 Hs _ IH]; [by rewrite app_nil_r|].
  by rewrite IH, (ln_step_money _ _ _ Hs), <-app_assoc.
Qed.

Lemma ln_step_failed ph ev ph' :
  ln_step ph ev ph' -> has_failed ph' = true -> has_failed ph = true \/ service_failed ev = true.
Proof.
  destruct 1 as [| | | | | | | | | | | | | | | |ph o]; simpl; auto; intros Hf;
    try discriminate; try (right; by destruct x); try (right; by destruct o).
  destruct (has_failed ph); auto.
Qed.

Lemma ln_path_failed ph tr ph' :
  path ln_step ph tr ph' -> has_failed ph' = true ->
  has_failed ph = true \/ existsb service_failed tr = true.
Proof.
  induction 1 as [ph|ph ev ph1 tr ph2 Hs _ IH]; intros Hf; [auto|]. simpl.
  destruct (IH Hf) as [H1 | ->]; [|rewrite orb_true_r; auto].
  destruct (ln_step_failed _ _ _ Hs H1) as [| ->]; auto.
Qed.

(** The amount given back along a path is the unused fee. *)
Fixpoint refund_right (ph : phase) : Prop :=
  match ph with
  | PReimbursed _ res amt => reimburses res amt
  | PFailed last => refund_right last
  | PReleased last _ => refund_right last
  | _ => True
  end.

Lemma ln_path_refund ph tr ph' : path ln_step ph tr ph' -> refund_right ph -> refund_right ph'.
Proof.
  induction 1 as [|ph ev ph1 tr ph2 Hs _ IH]; [done|]. intros Hr. apply IH. destruct Hs; simpl in *; auto.
Qed.

(** The node's answer is conclusive once the payment is settled in the ledger. *)
Fixpoint answer_known (ph : phase) : Prop :=
  match ph with
  | PSettled _ r => conclusive r
  | PReverted _ e => conclusive (Er e)
  | PFailed last | PReleased last _ => answer_known last
  | _ => True
  end.

Lemma ln_path_known ph tr ph' : path ln_step ph tr ph' -> answer_known ph -> answer_known ph'.
Proof.
  induction 1 as [|ph ev ph1 tr ph2 Hs _ IH]; [done|]. intros Hr. apply IH. destruct Hs; simpl in *; auto.
Qed.

(** An error of the handler: a service failed, or nothing was recorded, or the debit
    was taken back, or the node's answer is unknown, or the fee to give back after the
    payment could not be computed. *)
Definition error_outcome (tr : list event) : Prop :=
  existsb service_failed tr = true \/ money_trace tr = [] \/
  exists jid r, (money_trace tr = [Debited jid sender (total_of f); PayAnswered r;
                                   Settled hash; Reverted jid hash] /\ is_ok r = false) \/
    (money_trace tr = [Debited jid sender (total_of f); PayAnswered r] /\
     exists e, r = Throw e) \/
    (money_trace tr = [Debited jid sender (total_of f); PayAnswered r; Settled hash] /\
     is_ok r = true).

(** What the answer to the sender says of the money. *)
Definition money_outcome (tr : list event) (r : result PaymentSendStatus) : Prop :=
  match r with
  | Ok Success =>
      exists jid res, money_trace tr = [Debited jid sender (total_of f); PayAnswered (Ok res);
                                        Settled hash] \/
        exists amt, reimburses res amt /\
          money_trace tr = [Debited jid sender (total_of f); PayAnswered (Ok res); Settled hash;
                            Credited sender amt]
  | Ok Pending =>
      exists jid e, is_a e LnPaymentPendingError = true /\
        money_trace tr = [Debited jid sender (total_of f); PayAnswered (Er e)]
  | Ok AlreadyPaid =>
      exists jid e, is_a e LnAlreadyPaidError = true /\
        money_trace tr = [Debited jid sender (total_of f); PayAnswered (Er e); Settled hash;
                          Reverted jid hash]
  | Ok Failure => False
  | _ => error_outcome tr
  end.

Lemma error_money tr r : is_ok r = false -> error_outcome tr -> money_outcome tr r.
Proof. by destruct r. Qed.

(** The error that replaces the answer of the section. *)
Lemma replaced_money tr (r r0 : result PaymentSendStatus) :
  is_ok r = false /\ (existsb service_failed tr = true \/ exists e : error, r0 = Throw e) ->
  is_ok r0 = true -> money_outcome tr r.
Proof. intros [Hr [Hs|[e ->]]] Hok; [|done]. apply error_money; [done|by left]. Qed.

Lemma body_money ph tr r0 r :
  done_in ph = money_trace tr -> refund_right ph -> body_outcome ph r0 ->
  r = r0 \/ (is_ok r = false /\ (existsb service_failed tr = true \/ exists e, r0 = Throw e)) ->
  (has_failed ph = true -> existsb service_failed tr = true) -> money_outcome tr r.
Proof.
  intros Hd Hr Ho Hr0 Hf.
  assert (Herr : is_ok r0 = false -> is_ok r = false) by (by destruct Hr0 as [->|[? _]]).
  destruct ph as [| | | | | | |jid [res|e|e]|jid [res|e|e]|jid e|jid res amt|ph|];
    simpl in *; try done.
  1-3: apply error_money; [auto|]; right; left; done.
  - destruct Ho as [Hp ->], Hr0 as [->|Hr0]; [by exists jid, e|by eapply replaced_money].
  - subst r0. apply error_money; [auto|]. right; right. exists jid, (Throw e); eauto.
  - destruct Ho as [->|Ho].
    + destruct Hr0 as [->|Hr0]; [exists jid, res; by left|by eapply replaced_money].
    + apply error_money; [auto|]. right; right. exists jid, (Ok res); auto.
  - destruct (is_a e LnAlreadyPaidError) eqn:Ha; subst r0.
    + destruct Hr0 as [->|Hr0]; [by exists jid, e|by eapply replaced_money].
    + apply error_money; [auto|]. right; right. exists jid, (Er e); auto.
  - subst r0. destruct Hr0 as [->|Hr0]; [exists jid, res; eauto|by eapply replaced_money].
  - apply error_money; [auto|left; auto].
Qed.

(** The phase in which the handler ends. *)
Lemma ln_money ph tr r :
  path ln_step PStart tr ph -> ln_outcome ph r -> money_outcome tr r.
Proof.
  intros Hp Ho. pose proof (ln_path_money _ _ _ Hp) as Hm. simpl in Hm.
  pose proof (ln_path_failed _ _ _ Hp) as Hf. pose proof (ln_path_refund _ _ _ Hp I) as Hr.
  assert (Hf' : has_failed ph = true -> existsb service_failed tr = true)
    by (intros H; by destruct (Hf H)).
  destruct ph as [| | | | | | | | | | |last|last o]; simpl in Ho; try done.
  1-3: apply error_money; [done|right; left; done].
  - apply error_money; [done|left; auto].
  - destruct Ho as (r0 & Ho & Hr0). eapply (body_money last); [done..| |].
    + destruct Hr0 as [->|[H1 [H2|H2]]]; [auto|right|right]; (split; [done|]); [left|auto].
      apply Hf'. simpl. destruct o; try done; apply orb_true_r.
    + intros H. apply Hf'. simpl. by rewrite H.
Qed.

End Ln.
End LnProtocol.

(** ** Transfers between wallets of the bank

    A trace is summed up by its notes: the volume, the account and the balance that
    were read and of what, the lock, what happened to the money, and the calls that
    failed. *)
Inductive note : Type :=
| NWallet (id : string) (w : Wallet)
| NVolume (group : TxnGroup) (w : WalletDescriptor) (since : Z) (v : VolumeAmount)
| NAccount (id : string) (a : Account)
| NBalance (w : WalletDescriptor) (b : PaymentAmount)
| NLocked (path : string)
| NUnlocked (path : string)
| NMoney (m : money)
| NFailed.

(** A call that answers an error, rejects, or does not get or release the lock. *)
Definition call_failed (ev : event) : bool :=
  match ev with
  | Ev c x =>
      match c in call X return X -> bool with
      | WalletFindById _ => fun x => negb (is_ok x)
      | AccountFindById _ => fun x => negb (is_ok x)
      | UserFindById _ => fun x => negb (is_ok x)
      | InvoiceFindByPaymentHash _ => fun x => negb (is_ok x)
      | InvoiceMarkAsPaid _ => fun x => negb (is_ok x)
      | FlowFindLightning _ _ _ => fun x => negb (is_ok x)
      | FlowPersistNew _ => fun x => negb (is_ok x)
      | AddNewContact _ _ => fun x => negb (is_ok x)
      | LndService => fun x => negb (is_ok x)
      | LndPayViaRoutes _ _ _ => fun x => negb (is_ok x)
      | LndPayViaPaymentDetails _ _ _ => fun x => negb (is_ok x)
      | LndCancelInvoice _ _ => fun x => negb (is_ok x)
      | LedgerVolumeSince _ _ _ => fun x => negb (is_ok x)
      | LedgerIsLnTxRecorded _ => fun x => negb (is_ok x)
      | LedgerTransactionsByHash _ => fun x => negb (is_ok x)
      | LedgerWalletBalance _ => fun x => negb (is_ok x)
      | _ => fun x => service_failed ev
      end x
  end.

Definition reads_of (ev : event) : list note :=
  match ev with
  | Ev c x =>
      match c in call X return X -> list note with
      | WalletFindById id => fun x => on_ok x (fun w => [NWallet id w])
      | LedgerVolumeSince group w since => fun x => on_ok x (fun v => [NVolume group w since v])
      | AccountFindById id => fun x => on_ok x (fun a => [NAccount id a])
      | LedgerWalletBalance w => fun x => on_ok x (fun b => [NBalance w b])
      | LockAcquire path => fun o => if is_lock_ok o then [NLocked path] else []
      | LockRelease path => fun o => if is_lock_ok o then [NUnlocked path] else []
      | _ => fun _ => []
      end x
  end.

Definition notes_of (ev : event) : list note :=
  (if call_failed ev then [NFailed] else []) ++ reads_of ev ++ map NMoney (money_of ev).

Definition notes (tr : list event) : list note := tr ≫= notes_of.

Definition money_in (n : list note) : list money :=
  n ≫= fun x => match x with NMoney m => [m] | _ => [] end.

Inductive logs : list note -> event -> list note -> Prop :=
| logs_step n ev : logs n ev (n ++ notes_of ev).

Lemma logs_path n tr n' : path logs n tr n' -> n' = n ++ notes tr.
Proof.
  induction 1 as [n|n ev n1 tr n2 Hs _ IH]; [by rewrite app_nil_r|].
  destruct Hs. by rewrite IH, <-app_assoc.
Qed.

Module Transfers.
Section Transfer.
Context (cfg : Settings) (f : PaymentFlow) (wallet : Wallet) (same_account : bool).

(** What was noted before the limits are checked. *)
Context (pre : list note) (Hpre : money_in pre = []).

Definition sender : WalletDescriptor := descriptor (Flow.senderWalletDescriptor f).
Definition amounts : BothAmounts := mkBoth (pf_usdPaymentAmount f) (pf_btcPaymentAmount f).

(** The limit that applies to the transfer, given the account and the volume. *)
Definition allowed (v : VolumeAmount) (acc : Account) : Prop :=
  exists r, getPriceRatioForLimits cfg f = Ok r /\
    (if same_account then checkTradeIntraAccount else checkIntraledger)
      (getAccountLimits (set_limits cfg) (acc_level acc)) r
      (pf_usdPaymentAmount f) (va_outgoing v) = Ok tt.

(** The volume that the limit is about: that of the wallet, of transfers within the account
    or between accounts, over the last day. *)
Definition volume_group : TxnGroup :=
  if same_account then tradeIntraAccountTxBaseVolumeSince else intraledgerTxBaseVolumeSince.
Definition a_day_ago : Z := set_now cfg - 24 * 60 * 60 * 1000.
Definition lock_path : string := getWalletLockResource (w_id wallet).

(** What is noted by the check of the limit, and by the section up to the transfer. *)
Definition limit_notes (v : VolumeAmount) (acc : Account) : list note :=
  [NVolume volume_group (descriptor wallet) a_day_ago v; NAccount (w_accountId wallet) acc].
Definition section_notes (b : PaymentAmount) (m : money) : list note :=
  [NBalance (descriptor wallet) b; NMoney m].

Definition moved (rw : Wallet) : money := Transferred sender (descriptor rw) amounts.

(** An error: nothing moved, or a call failed after the transfer was recorded. *)
Definition error_notes (n : list note) : Prop :=
  money_in n = [] \/
  exists rw, Flow.recipientWalletDescriptor f = Some rw /\ money_in n = [moved rw] /\ NFailed ∈ n.

(** What the answer says of the notes. *)
Definition transfer_outcome (n : list note) (r : result PaymentSendStatus) : Prop :=
  match r with
  | Ok Success =>
      exists v acc b rw late,
        n = pre ++ limit_notes v acc ++ [NLocked lock_path] ++ section_notes b (moved rw)
            ++ late ++ [NUnlocked lock_path]
        /\ allowed v acc /\ Flow.checkBalanceForSend f b = Ok tt
        /\ Flow.recipientWalletDescriptor f = Some rw
        /\ (late = [] \/ exists id a, late = [NAccount id a])
  | Ok AlreadyPaid => money_in n = []
  | Ok _ => False
  | _ => error_notes n
  end.

(** The same for the section under the lock, entered with the notes [n0]. *)
Definition section_outcome (n0 n : list note) (r : result PaymentSendStatus) : Prop :=
  match r with
  | Ok Success =>
      exists b rw late,
        n = n0 ++ section_notes b (moved rw) ++ late
        /\ Flow.checkBalanceForSend f b = Ok tt
        /\ Flow.recipientWalletDescriptor f = Some rw
        /\ (late = [] \/ exists id a, late = [NAccount id a])
  | Ok AlreadyPaid => money_in n = []
  | Ok _ => False
  | _ => error_notes n
  end.

Arguments transfer_outcome : simpl never.
Arguments section_outcome : simpl never.

Lemma money_in_app n1 n2 : money_in (n1 ++ n2) = money_in n1 ++ money_in n2.
Proof. apply bind_app. Qed.

Lemma error_notes_app n1 n2 : error_notes n1 -> money_in n2 = [] -> error_notes (n1 ++ n2).
Proof.
  unfold error_notes. rewrite money_in_app. intros [->|(rw & ? & -> & ?)] ->; [by left|].
  right. exists rw. rewrite app_nil_r. split; [done|split; [done|]]. apply elem_of_app. by left.
Qed.

Lemma transfer_error n r : is_ok r = false -> error_notes n -> transfer_outcome n r.
Proof. by destruct r. Qed.

Lemma section_error n0 n r : is_ok r = false -> error_notes n -> section_outcome n0 n r.
Proof. by destruct r. Qed.

(** The section answered, and its lock was not released in order. *)
Lemma section_interrupted n0 n r :
  money_in n0 = [] -> section_outcome n0 n r -> error_notes (n ++ [NFailed]).
Proof.
  intros Hn0 Hs. destruct r as [[| | |]|e|e]; unfold section_outcome in Hs; try done.
  2: left; by rewrite money_in_app, Hs.
  2-3: by apply error_notes_app.
  destruct Hs as (b & rw & late & -> & Hb & Hrw & Hl). right. exists rw.
  rewrite !money_in_app, Hn0. simpl. split; [done|split].
  - by destruct Hl as [->|(id & a & ->)].
  - apply elem_of_app. right. by left.
Qed.

(** The notes of a section, and those of its lock. *)
Lemma section_release v acc n r o r' :
  allowed v acc -> section_outcome (pre ++ limit_notes v acc ++ [NLocked lock_path]) n r ->
  (r' = r /\ o = LockOk) \/ (is_ok r' = false /\ (o <> LockOk \/ exists e, r = Throw e)) ->
  transfer_outcome (n ++ notes_of (Ev (LockRelease lock_path) o)) r'.
Proof.
  intros Hal Hs [[-> ->]|[Hno Hwhy]].
  - destruct r as [[| | |]|e|e]; unfold section_outcome in Hs; try done.
    + destruct Hs as (b & rw & late & -> & Hb & Hrw & Hl).
      exists v, acc, b, rw, late. split; [by rewrite <-!app_assoc|done].
    + unfold transfer_outcome. by rewrite money_in_app, Hs.
    + apply transfer_error; [done|]. by apply error_notes_app.
    + apply transfer_error; [done|]. by apply error_notes_app.
  - apply transfer_error; [done|]. destruct o.
    2-3: by eapply (section_interrupted (pre ++ limit_notes v acc ++ [NLocked lock_path])); [rewrite money_in_app, Hpre|].
    destruct Hwhy as [?|[e ->]]; [done|]. by apply error_notes_app.
Qed.

Lemma locked_section v acc body :
  allowed v acc ->
  follows logs body (pre ++ limit_notes v acc ++ [NLocked lock_path])
    (section_outcome (pre ++ limit_notes v acc ++ [NLocked lock_path])) ->
  follows logs (lockWalletId (w_id wallet) body) (pre ++ limit_notes v acc) transfer_outcome.
Proof.
  intros Hal Hb. eapply follows_redlock; [apply logs_step|rewrite <-app_assoc; exact Hb| |].
  - intros o Ho. eexists. split; [apply logs_step|]. intros r Hr. apply transfer_error; [done|].
    left. rewrite !money_in_app, Hpre. by destruct o.
  - intros n r o Hs. eexists. split; [apply logs_step|]. intros r' Hr.
    by eapply section_release.
Qed.

(** The limits of the account, then the transfer. *)
Lemma limited check (k : prog (result PaymentSendStatus)) :
  (forall r v acc, getPriceRatioForLimits cfg f = Ok r ->
     check (getAccountLimits (set_limits cfg) (acc_level acc)) r (pf_usdPaymentAmount f)
       (va_outgoing v) = Ok tt ->
     follows logs k (pre ++ limit_notes v acc) transfer_outcome) ->
  forall r, getPriceRatioForLimits cfg f = Ok r ->
  follows logs (await _ <- check_limits cfg volume_group check (pf_usdPaymentAmount f) wallet r ;; k) pre
    transfer_outcome.
Proof.
  intros Hk r Hr. unfold check_limits.
  assert (timestampDaysAgo (set_now cfg) ONE_DAY = Ok a_day_ago) as -> by done. simpl.
  intros [v|e|e]; eexists; (split; [apply logs_step|simpl]);
    [|apply transfer_error; [done|left; by rewrite ?money_in_app, Hpre]..].
  intros [acc|e|e]; eexists; (split; [apply logs_step|simpl]);
    [|apply transfer_error; [done|left; by rewrite ?money_in_app, Hpre]..].
  destruct (check _ _ _ _) as [[]|e|e] eqn:Hc; simpl;
    [by rewrite <-app_assoc; eapply Hk
    |apply transfer_error; [done|left; by rewrite ?money_in_app, Hpre]..].
Qed.

(** Steps of a body: the note of the answer, and the two ways to stop. *)
Ltac noted := eexists; split; [apply logs_step|simpl].
Ltac nothing Hn := apply section_error; [done|left; by rewrite ?money_in_app, Hn].
Ltac too_late Hn rw Hrw := apply section_error; [done|]; right; exists rw;
  split; [exact Hrw|split; [by rewrite ?money_in_app, Hn|apply elem_of_app; right; by left]].

Lemma ln_intraledger_follows n0 recipientWallet h pk id c su ru memo :
  money_in n0 = [] ->
  follows logs (ln_intraledger_body f wallet recipientWallet h pk id c su ru memo)
    n0 (section_outcome n0).
Proof.
  intros Hn. unfold ln_intraledger_body. simpl.
  intros [[|]|e|e]; noted; [by unfold section_outcome; rewrite money_in_app, Hn| |nothing Hn..].
  intros [b|e|e]; noted; [|nothing Hn..].
  destruct (Flow.checkBalanceForSend f b) as [[]|e|e] eqn:Hb; simpl; [|nothing Hn..].
  destruct (PriceRatio _ _) as [r|e|e]; simpl; [|nothing Hn..].
  intros [m|]; noted; [nothing Hn|].
  destruct (Flow.recipientWalletDescriptor f) as [rw|] eqn:Hrw; [|nothing Hn].
  simpl. intros [j|e|e]; noted; [|nothing Hn..].
  intros [lnd|e|e]; noted; [|too_late Hn rw Hrw..].
  intros [[]|e|e]; noted; [|too_late Hn rw Hrw..].
  intros [[]|e|e]; noted; [|too_late Hn rw Hrw..].
  intros [a|e|e]; noted; [|too_late Hn rw Hrw..].
  intros [u|e|e]; noted; [|too_late Hn rw Hrw..].
  intros []. noted. exists b, rw, [NAccount (w_accountId recipientWallet) a].
  split; [by rewrite <-!app_assoc|eauto 6].
Qed.

Lemma walletId_follows n0 senderAccount recipientAccount recipientWallet c ru memo :
  money_in n0 = [] ->
  follows logs (walletId_body f senderAccount wallet recipientAccount recipientWallet c ru memo)
    n0 (section_outcome n0).
Proof.
  intros Hn. unfold walletId_body. simpl.
  intros [b|e|e]; noted; [|nothing Hn..].
  destruct (Flow.checkBalanceForSend f b) as [[]|e|e] eqn:Hb; simpl; [|nothing Hn..].
  destruct (PriceRatio _ _) as [r|e|e]; simpl; [|nothing Hn..].
  intros [m|]; noted; [nothing Hn|].
  destruct (Flow.recipientWalletDescriptor f) as [rw|] eqn:Hrw; [|nothing Hn].
  simpl. intros [j|e|e]; noted; [|nothing Hn..].
  intros [u|e|e]; noted; [|too_late Hn rw Hrw..].
  intros []. noted. exists b, rw, [].
  split; [by rewrite <-!app_assoc|eauto].
Qed.

End Transfer.

Definition same_account (w1 w2 : Wallet) : bool := String.eqb (w_accountId w1) (w_accountId w2).

(** Both handlers check the limit of transfers within the account or between accounts. *)
Lemma limited_transfer cfg f wallet recipientWallet pre (Hpre : money_in pre = [])
    (k : prog (result PaymentSendStatus)) r :
  (forall v acc, allowed cfg f (same_account wallet recipientWallet) v acc ->
     follows logs k (pre ++ limit_notes cfg wallet (same_account wallet recipientWallet) v acc)
       (transfer_outcome cfg f wallet (same_account wallet recipientWallet) pre)) ->
  getPriceRatioForLimits cfg f = Ok r ->
  follows logs
    (await _ <- (if same_account wallet recipientWallet
                 then newCheckTradeIntraAccountLimits cfg else newCheckIntraledgerLimits cfg)
                  (pf_usdPaymentAmount f) wallet r ;; k) pre
    (transfer_outcome cfg f wallet (same_account wallet recipientWallet) pre).
Proof.
  unfold newCheckTradeIntraAccountLimits, newCheckIntraledgerLimits. intros Hk Hr.
  destruct (same_account wallet recipientWallet) eqn:Hs;
    [refine (limited cfg f wallet true pre Hpre _ k _ r Hr)
    |refine (limited cfg f wallet false pre Hpre _ k _ r Hr)];
    intros r' v acc Hr' Hc; apply Hk; by exists r'.
Qed.

Lemma walletId_transfer_follows cfg f sa wallet ra rw memo :
  follows logs (executeWalletIdPayment cfg f sa wallet ra rw memo) []
    (transfer_outcome cfg f wallet (same_account wallet rw) []).
Proof.
  unfold executeWalletIdPayment.
  destruct (getPriceRatioForLimits cfg f) as [r|e|e] eqn:Hr; [|by left..].
  eapply limited_transfer; [done| |exact Hr]. intros v acc Hal.
  destruct (Flow.rd_walletId _) as [[|ch id]|]; [by left| |by left].
  destruct (Flow.rd_walletCurrency _) as [c|]; [|by left].
  apply locked_section; [done..|]. by apply walletId_follows.
Qed.

(** An error before the wallet of the recipient is known. *)
Definition ln_transfer_outcome (cfg : Settings) (f : PaymentFlow) (wallet : Wallet)
    (n : list note) (r : result PaymentSendStatus) : Prop :=
  (is_ok r = false /\ money_in n = []) \/
  exists id rw, pf_recipientWalletId f = Some id /\
    transfer_outcome cfg f wallet (same_account wallet rw) [NWallet id rw] n r.

Lemma ln_transfer_follows cfg f wallet username memo :
  follows logs (executePaymentViaIntraledger cfg f wallet username memo) []
    (ln_transfer_outcome cfg f wallet).
Proof.
  unfold executePaymentViaIntraledger.
  destruct (getPriceRatioForLimits cfg f) as [r|e|e] eqn:Hr; [|by left..]. simpl.
  destruct (Flow.paymentHashForFlow f) as [h|e|e]; simpl; [|by left..].
  destruct (pf_recipientWalletId f) as [[|ch id]|] eqn:Hid; [by left| |by left].
  destruct (pf_recipientWalletCurrency f) as [c|]; [|by left].
  destruct (pf_recipientPubkey f) as [[|ch' pk]|]; [by left| |by left]. simpl.
  intros [rw|e|e]; (eexists; split; [apply logs_step|]); [|by left..].
  eapply follows_mono with
    (out := transfer_outcome cfg f wallet (same_account wallet rw) [NWallet (String ch id) rw]);
    [|intros ph a Ha; right; by exists (String ch id), rw].
  eapply (limited_transfer _ _ _ _ [NWallet (String ch id) rw]); [done| |exact Hr]. intros v acc Hal.
  apply locked_section; [done..|]. by apply ln_intraledger_follows.
Qed.

End Transfers.

(** ** The three entry points *)

Inductive entry : Type :=
| EInvoice (request : string) (memo : option string) (walletId : string)
| ENoAmountInvoice (request : string) (amt : number) (memo : option string) (walletId : string)
| EIntraledger (hash recipientWalletId : string) (amt : number) (memo : option string)
    (walletId : string).

Definition handler (cfg : Settings) (senderAccount : Account) (e : entry)
    : prog (result PaymentSendStatus) :=
  match e with
  | EInvoice request memo walletId =>
      payInvoiceByWalletId cfg request memo walletId senderAccount
  | ENoAmountInvoice request amt memo walletId =>
      payNoAmountInvoiceByWalletId cfg request amt memo walletId senderAccount
  | EIntraledger hash recipientWalletId amt memo walletId =>
      intraledgerPaymentSendWalletId cfg hash recipientWalletId senderAccount amt memo walletId
  end.

Definition entry_walletId (e : entry) : string :=
  match e with
  | EInvoice _ _ w | ENoAmountInvoice _ _ _ w | EIntraledger _ _ _ _ w => w
  end.

(** The money only moves after the wallet was found and is one of the active
    account. *)
Definition owner_found (senderAccount : Account) (walletId : string) (tr : list event) : Prop :=
  exists w tr', tr = Ev (WalletFindById walletId) (Ok w) :: tr' /\
    w_accountId w = acc_id senderAccount /\ acc_status senderAccount = StatusActive.

(** A program that first looks for the wallet, and fails unless it is one of the
    active account. *)
Inductive owner_first {A} (acc : Account) (id : string) : prog (result A) -> Prop :=
| first_ret a : is_ok a = false -> owner_first acc id (Ret a)
| first_call k :
    (forall x, (exists w, x = Ok w /\ w_accountId w = acc_id acc /\
                acc_status acc = StatusActive) \/
               exists a, is_ok a = false /\ k x = Ret a) ->
    owner_first acc id (Call (WalletFindById id) k).

Ltac ends := right; eexists; split; [|reflexivity]; reflexivity.

Lemma validated_wallet_first acc id : owner_first acc id (validated_wallet id acc).
Proof.
  apply first_call. intros [w|e|e]; simpl; [|ends..].
  unfold AccountValidator, validateWalletForAccount.
  destruct (decide (acc_status acc <> StatusActive)) as [Hs|Hs]; simpl; [ends|].
  destruct (String.eqb_spec (w_accountId w) (acc_id acc)) as [Heq|Hne]; simpl; [|ends].
  left. exists w. split; [done|]. split; [done|].
  destruct (decide (acc_status acc = StatusActive)); [done|by destruct Hs].
Qed.

Lemma owner_first_rpbind {A B} acc id (p : prog (result A)) (k : A -> prog (result B)) :
  owner_first acc id p -> owner_first acc id (rpbind p k).
Proof.
  destruct 1 as [[a|e|e] Ha|h Hh]; simpl; [done|by apply first_ret..|].
  apply first_call. intros x. destruct (Hh x) as [?|([a|e|e] & Ha & ->)]; [by left|done|ends..].
Qed.

Lemma owner_first_checked {A B} acc id (r : result A) (k : A -> prog (result B)) :
  (forall a, r = Ok a -> owner_first acc id (k a)) -> owner_first acc id (rpbind (Ret r) k).
Proof. intros Hk. destruct r; simpl; [by apply Hk|by apply first_ret..]. Qed.

(** What follows such a program only moves money for the owner. *)
Lemma owner_first_money {A B} acc id (p : prog (result A)) (k : result A -> prog B) tr b :
  owner_first acc id p -> (forall r, is_ok r = false -> exists b, k r = Ret b) ->
  exec (pbind p k) tr b -> money_trace tr <> [] -> owner_found acc id tr.
Proof.
  intros Hp Hk He Hm. destruct Hp as [a Ha|h Hh]; simpl in He.
  - destruct (Hk a Ha) as [c Hc]. rewrite Hc in He. by apply exec_inv in He as [-> _].
  - apply exec_inv in He as (x & tr' & -> & He).
    destruct (Hh x) as [(w & -> & Hw)|(a & Ha & Hx)]; [by exists w, tr'|].
    rewrite Hx in He. simpl in He. destruct (Hk a Ha) as [c Hc]. rewrite Hc in He.
    by apply exec_inv in He as [-> _].
Qed.

Lemma validated_invoice_first cfg request walletId acc :
  owner_first acc walletId (validateInvoicePaymentInputs cfg request walletId acc).
Proof.
  unfold validateInvoicePaymentInputs. apply owner_first_checked.
  intros i [-> _]%AccountPath.checkedToWalletId_ok. apply owner_first_checked. intros inv _.
  destruct (inv_paymentAmount inv) as [a|]; [|by apply first_ret].
  destruct (0 <? amount a); [|by apply first_ret].
  apply owner_first_rpbind, validated_wallet_first.
Qed.

Lemma validated_no_amount_first cfg request amt walletId acc :
  owner_first acc walletId (validateNoAmountInvoicePaymentInputs cfg request amt walletId acc).
Proof.
  unfold validateNoAmountInvoicePaymentInputs. apply owner_first_checked.
  intros i [-> _]%AccountPath.checkedToWalletId_ok. apply owner_first_checked. intros inv _.
  destruct (has_positive_amount inv); [by apply first_ret|].
  apply owner_first_rpbind, validated_wallet_first.
Qed.

Lemma validated_intraledger_first walletId recipientId acc :
  owner_first acc walletId (validateIntraledgerPaymentInputs walletId recipientId acc).
Proof.
  unfold validateIntraledgerPaymentInputs. apply owner_first_checked.
  intros i [-> _]%AccountPath.checkedToWalletId_ok.
  apply owner_first_rpbind, validated_wallet_first.
Qed.

Lemma pay_validated_stops cfg acc memo r :
  is_ok r = false -> exists b, pay_validated cfg r acc memo = Ret b.
Proof. destruct r as [i|e|e]; simpl; [done| |eauto]. destruct (is_a e _); eauto. Qed.

Lemma handler_owner cfg senderAccount e tr r :
  exec (handler cfg senderAccount e) tr r -> money_trace tr <> [] ->
  owner_found senderAccount (entry_walletId e) tr.
Proof.
  destruct e as [request memo id|request amt memo id|hash rid amt memo id]; simpl.
  - apply owner_first_money; [apply validated_invoice_first|apply pay_validated_stops].
  - apply owner_first_money; [apply validated_no_amount_first|apply pay_validated_stops].
  - apply owner_first_money; [apply validated_intraledger_first|].
    intros [i|x|x]; simpl; eauto; done.
Qed.

(** ** Properties *)

Module PaymentClaims.

(** C16. Every execution of executePaymentViaLn refines the payment protocol: the volume
    is read and within the withdrawal limit before the wallet is locked, under the
    lock there is no pending payment of the hash and the balance covers amount and
    fee before the sender is debited, the node pays only after the debit, the
    settlement only follows a conclusive answer, the revert only a settled failure,
    the refund is the prepaid fee less the actual one and only follows a settled
    payment without a probed route, and the answer is the one of the phase in which
    the handler ends. *)
Theorem ln_payment_protocol cfg invoice f wallet tr r :
  exec (executePaymentViaLn cfg invoice f wallet) tr r ->
  exists ph, path (LnProtocol.ln_step cfg f invoice wallet) LnProtocol.PStart tr ph /\
             LnProtocol.ln_outcome ph r.
Proof. apply follows_exec, LnProtocol.ln_follows. Qed.

(** C1. In every execution of executePaymentViaLn, whatever the services answer, what
    happened to the money matches the answer given to the sender: Success means
    exactly one debit of amount and maximal fee, one payment by the node that
    succeeded, the settlement of the payment hash and possibly one refund of the
    unused fee; Pending means the debit and an answer of the node that the payment
    is in flight; AlreadyPaid means the debit was settled and taken back; an error
    means that nothing was recorded, or that the debit was taken back, or that the
    lock or the ledger failed, or that the node's answer was lost, or that the
    payment succeeded and only the refund could not be computed. *)
Theorem ln_payment_money cfg invoice f wallet tr r :
  exec (executePaymentViaLn cfg invoice f wallet) tr r ->
  LnProtocol.money_outcome f invoice tr r.
Proof.
  intros He.
  destruct (follows_exec _ _ _ _ _ _ (LnProtocol.ln_follows cfg f invoice wallet) He)
    as (ph & Hp & Ho).
  by eapply LnProtocol.ln_money.
Qed.

(** C14. In every execution of the transfer between two wallets of the bank, the sender
    is told Success only after exactly this: the volume over the last day of the
    sender's wallet, in the group of the limit that applies (within the account or
    between accounts), and the account of that wallet were read and pass that limit,
    the wallet was locked, its balance read under the lock covered the payment,
    exactly one transfer of the amounts of the flow from the sender to the recipient
    was recorded, and that lock was released. After AlreadyPaid nothing moved; after
    an error nothing moved, unless a call failed after the transfer was recorded. *)
Theorem walletId_transfer cfg f senderAccount wallet recipientAccount recipientWallet memo tr r :
  exec (executeWalletIdPayment cfg f senderAccount wallet recipientAccount recipientWallet memo)
    tr r ->
  Transfers.transfer_outcome cfg f wallet
    (Transfers.same_account wallet recipientWallet) [] (notes tr) r.
Proof.
  intros He.
  destruct (follows_exec _ _ _ _ _ _ (Transfers.walletId_transfer_follows cfg f senderAccount
    wallet recipientAccount recipientWallet memo) He) as (n & Hp & Ho).
  by rewrite (logs_path _ _ _ Hp) in Ho.
Qed.

(** In every execution of the intra-ledger settlement of a lightning invoice, Success
    means that the limit of the account was respected, the balance read under the
    lock covered the payment and exactly one transfer of the amounts of the flow to
    the recipient of the flow was recorded; AlreadyPaid means nothing moved; after
    an error nothing moved, unless a call failed after the transfer was recorded. *)
Theorem ln_intraledger_transfer cfg f wallet username memo tr r :
  exec (executePaymentViaIntraledger cfg f wallet username memo) tr r ->
  Transfers.ln_transfer_outcome cfg f wallet (notes tr) r.
Proof.
  intros He.
  destruct (follows_exec _ _ _ _ _ _ (Transfers.ln_transfer_follows cfg f wallet username memo) He)
    as (n & Hp & Ho).
  by rewrite (logs_path _ _ _ Hp) in Ho.
Qed.

(** In every execution of one of the three payment entry points in which money moves,
    the first call found the wallet of the request, it belongs to the account of the
    caller and that account is active. *)
Theorem only_own_wallets cfg senderAccount e tr r :
  exec (handler cfg senderAccount e) tr r -> money_trace tr <> [] ->
  owner_found senderAccount (entry_walletId e) tr.
Proof. apply handler_owner. Qed.

(** *** A payment of 10,000 sats from a dollar wallet, and a transfer *)

Definition sample_uuid : string := "f4a2c8d0-3b1e-4c6f-9a7b-0123456789ab".
Definition other_uuid : string := "04a2c8d0-3b1e-4c6f-9a7b-0123456789ab".

Definition sample_wallet : Wallet := mkWalletRec sample_uuid "acc1" Usd.
Definition sample_acc : Account := mkAcc "acc1" StatusActive 1 (Some "alice") "user1" true (num 0) (num 0).
Definition sample_settings : Settings :=
  mkSettings 1700000000000
    (mkLimitsConfig (fun _ => 200000) (fun _ => 100000) (fun _ => 5000000)) []
    (Builder.mkPriceFns (convertFromBtc sample_ratio) (convertFromUsd sample_ratio))
    (Builder.mkPriceFns (convertFromBtc sample_ratio) (convertFromUsd sample_ratio))
    (Builder.mkPriceFns (convertFromBtc sample_ratio) (convertFromUsd sample_ratio))
    (Builder.mkPriceFns (convertFromBtc sample_ratio) (convertFromUsd sample_ratio))
    (Builder.mkPriceFns (convertFromBtc sample_ratio) (convertFromUsd sample_ratio))
    (fun _ => Er (new LnInvoiceDecodeError)).
Definition sample_invoice : LnInvoice :=
  mkInvoice "remote" "h1" "lnbc1" (Some (mkAmount 10000 Btc)) "coffee" [].

Definition flow_to (m : SettlementMethod) (recipient : option string) (pubkey : option string)
    (btcFee usdFee : Z) : PaymentFlow :=
  mkPaymentFlow (Some "h1") None sample_uuid Usd "acc1" recipient
    (option_map (fun _ => Btc) recipient) (option_map (fun _ => "acc2") recipient) pubkey
    None "coffee" false (mkAmount 10000 Btc) (mkAmount 230 Usd) 230 1700000000000 false m
    PMLightning (mkAmount btcFee Btc) (mkAmount usdFee Usd) None None.

(** The services answer; the node pays for a fee of 20 sats. *)
Definition sample_env (X : Type) (c : call X) : X :=
  match c in call X return X with
  | WalletFindById id =>
      Ok (if String.eqb id sample_uuid then sample_wallet else mkWalletRec id "acc2" Btc)
  | AccountFindById id =>
      Ok (if String.eqb id "acc1" then sample_acc else mkAcc id StatusActive 1 None "user2" true (num 0) (num 0))
  | UserFindById _ => Ok (mkUser [] "")
  | InvoiceFindByPaymentHash _ => Er (new CouldNotFindWalletInvoiceError)
  | InvoiceMarkAsPaid _ => Ok tt
  | FlowFindLightning _ _ _ => Er (new CouldNotFindLightningPaymentFlowError)
  | FlowPersistNew f => Ok f
  | FlowUpdate _ => tt
  | LnPaymentsPersistNew _ _ _ => tt
  | AddNewContact _ _ => Ok tt
  | LndService => Ok (mkLnd ["local"] "local")
  | LndPayViaRoutes _ _ _ => Er (new LnPaymentPendingError)
  | LndPayViaPaymentDetails _ _ _ => Ok (mkPayResult (num 20) (Some "preimage"))
  | LndCancelInvoice _ _ => Ok tt
  | LockAcquire _ => LockOk
  | LockRelease _ => LockOk
  | SignalAborted => None
  | LedgerVolumeSince _ _ _ => Ok (mkVolumeAmount (mkAmount 0 Usd) (mkAmount 0 Usd))
  | LedgerIsLnTxRecorded _ => Ok false
  | LedgerTransactionsByHash _ => Ok []
  | LedgerWalletBalance _ => Ok (mkAmount 1000 Usd)
  | FacadeRecordSend _ _ _ _ _ => Ok (mkJournal "j1" false [])
  | FacadeRecordReceive _ _ _ _ _ _ _ => Ok (mkJournal "j2" false [])
  | FacadeRecordIntraledger _ _ _ _ _ _ => Ok (mkJournal "j3" false [])
  | FacadeSettlePendingLnSend _ => Ok tt
  | FacadeRecordLnSendRevert _ _ => Ok tt
  | FacadeUpdateMetadataByHash _ _ => tt
  | NotifyTxReceived _ _ _ _ _ _ => tt
  | c => failing_env _ c
  end.

Definition out_flow : PaymentFlow := flow_to SMLightning None None 500 12.
Definition in_flow : PaymentFlow := flow_to SMIntraLedger (Some other_uuid) (Some "local") 0 0.
Definition sample_payment : list event * result PaymentSendStatus :=
  run sample_env (executePaymentViaLn sample_settings sample_invoice out_flow sample_wallet).

Lemma ln_payment_protocol_witness :
  snd sample_payment = Ok Success /\
  exists ph, path (LnProtocol.ln_step sample_settings out_flow sample_invoice sample_wallet)
    LnProtocol.PStart (fst sample_payment) ph /\ LnProtocol.ln_outcome ph (Ok Success).
Proof.
  split; [vm_compute; reflexivity|].
  apply (ln_payment_protocol sample_settings sample_invoice out_flow sample_wallet).
  replace (Ok Success) with (snd sample_payment) by (vm_compute; reflexivity).
  apply run_exec.
Defined.

Lemma ln_payment_money_witness :
  money_trace (fst sample_payment) =
    [Debited "j1" (mkWallet sample_uuid Usd) (mkBoth (mkAmount 242 Usd) (mkAmount 10500 Btc));
     PayAnswered (Ok (mkPayResult (num 20) (Some "preimage"))); Settled "h1";
     Credited (mkWallet sample_uuid Usd) (mkBoth (mkAmount 11 Usd) (mkAmount 480 Btc))] /\
  LnProtocol.money_outcome out_flow sample_invoice (fst sample_payment) (snd sample_payment).
Proof.
  split; [vm_compute; reflexivity|].
  apply (ln_payment_money sample_settings sample_invoice out_flow sample_wallet).
  apply run_exec.
Defined.

Definition sample_transfer : list event * result PaymentSendStatus :=
  run sample_env (executeWalletIdPayment sample_settings in_flow sample_acc sample_wallet
    (mkAcc "acc2" StatusActive 1 None "user2" true (num 0) (num 0)) (mkWalletRec other_uuid "acc2" Btc) None).

Lemma walletId_transfer_witness :
  snd sample_transfer = Ok Success /\
  Transfers.transfer_outcome sample_settings in_flow sample_wallet false [] (notes (fst sample_transfer))
    (snd sample_transfer).
Proof.
  split; [vm_compute; reflexivity|].
  apply (walletId_transfer sample_settings in_flow sample_acc sample_wallet
    (mkAcc "acc2" StatusActive 1 None "user2" true (num 0) (num 0)) (mkWalletRec other_uuid "acc2" Btc) None).
  apply run_exec.
Defined.

Definition sample_ln_transfer : list event * result PaymentSendStatus :=
  run sample_env (executePaymentViaIntraledger sample_settings in_flow sample_wallet None None).

Lemma ln_intraledger_transfer_witness :
  snd sample_ln_transfer = Ok Success /\
  Transfers.ln_transfer_outcome sample_settings in_flow sample_wallet
    (notes (fst sample_ln_transfer)) (snd sample_ln_transfer).
Proof.
  split; [vm_compute; reflexivity|].
  apply (ln_intraledger_transfer sample_settings in_flow sample_wallet None None).
  apply run_exec.
Defined.

Definition sample_send : list event * result PaymentSendStatus :=
  run sample_env (handler sample_settings sample_acc
    (EIntraledger "h2" other_uuid (num 230) None sample_uuid)).

Lemma only_own_wallets_witness :
  snd sample_send = Ok Success /\ owner_found sample_acc sample_uuid (fst sample_send).
Proof.
  split; [vm_compute; reflexivity|].
  apply (only_own_wallets sample_settings sample_acc
    (EIntraledger "h2" other_uuid (num 230) None sample_uuid) (fst sample_send)
    (snd sample_send)).
  - apply run_exec.
  - vm_compute. discriminate.
Defined.

End PaymentClaims.
