(* ===== verification/Protocols.v ===== *)
(** * Protocols on the money

    Two protocols that the handlers are checked against, with the lemmas that take a
    handler apart: the list of what happened to the money so far, and money that only
    moves after an answer of a given kind. *)

From S2P Require Import Prelude JsNum Errors Money Ledger PaymentFlow Validation Accounts TxMetadata Facade LedgerService LedgerWrites Programs Effects Payments PaymentsSpec.
#[local] Open Scope list_scope.

(** ** The money moved so far, as a protocol *)

Module MoneyProtocol.

Definition step (ph : list money) (ev : event) (ph' : list money) : Prop := ph' = ph ++ money_of ev.

Lemma path_money ph tr ph' : path step ph tr ph' -> ph' = ph ++ money_trace tr.
Proof.
  induction 1 as [ph|ph ev ph1 tr ph2 -> _ ->]; [by rewrite app_nil_r|].
  unfold money_trace. simpl. by rewrite app_assoc.
Qed.

Lemma exec_money {A} (p : prog A) out tr a :
  follows step p [] out -> exec p tr a -> out (money_trace tr) a.
Proof.
  intros Hf He. destruct (follows_exec _ _ _ _ _ _ Hf He) as (ph & Hp & Ho).
  apply path_money in Hp as ->. exact Ho.
Qed.

(** Programs that do not touch the money. *)
Fixpoint quiet {A} (p : prog A) : Prop :=
  match p with
  | Ret _ => True
  | @Call _ _ X c k => (forall x : X, money_of (Ev c x) = []) /\ forall x, quiet (k x)
  end.

Lemma quiet_bind {A B} (p : prog A) (k : A -> prog B) :
  quiet p -> (forall a, quiet (k a)) -> quiet (pbind p k).
Proof.
  induction p as [a|X c f IH]; simpl; [by intros _ Hk|]. intros [Hc Hp] Hk. split; [done|].
  intros x. apply IH; auto.
Qed.

Lemma quiet_await {A B} (p : prog (result A)) (k : A -> prog (result B)) :
  quiet p -> (forall a, quiet (k a)) -> quiet (rpbind p k).
Proof. intros Hp Hk. apply quiet_bind; [done|]. by intros [a|e|e]. Qed.

Lemma quiet_call {X} (c : call X) : sensitive c = false -> quiet (do_call c).
Proof. intros Hc. split; [|done]. intros x. by apply quiet_money. Qed.

(** A quiet part of a program. *)
Lemma quiet_then {A B} (p : prog A) (k : A -> prog B) ph out :
  quiet p -> (forall a, follows step (k a) ph out) -> follows step (pbind p k) ph out.
Proof.
  induction p as [a|X c f IH]; [by intros _ Hk; apply Hk|]. intros [Hc Hp] Hk.
  cbn [pbind follows]. intros x. exists ph.
  split; [unfold step; by rewrite (Hc x), app_nil_r|]. by apply IH.
Qed.

Lemma await_then {A B} (p : prog (result A)) (k : A -> prog (result B)) ph
    (out : list money -> result B -> Prop) :
  quiet p -> (forall r, is_ok r = false -> out ph r) ->
  (forall a, follows step (k a) ph out) -> follows step (rpbind p k) ph out.
Proof. intros Hp He Hk. apply quiet_then; [done|]. intros [a|e|e]; simpl; auto. Qed.

Ltac quiets :=
  repeat (intros; first
    [ apply quiet_await
    | apply quiet_call; reflexivity
    | exact I
    | match goal with
      | |- quiet (if ?b then _ else _) => destruct b
      | |- quiet (match ?r with Ok _ => _ | Er _ => _ | Throw _ => _ end) => destruct r
      end
    | apply quiet_bind ]).

(** A section under a lock. *)
Lemma lock_then {A} resource (body : prog (result A)) ph (out : list money -> result A -> Prop) :
  (forall ph r r', out ph r -> is_ok r' = false -> out ph r') ->
  (forall r, is_ok r = false -> out ph r) ->
  follows step body ph out -> follows step (redlock resource None body) ph out.
Proof.
  intros Herr Hno Hb. eapply follows_redlock; [reflexivity| | |].
  - simpl. rewrite app_nil_r. exact Hb.
  - intros o Ho. eexists. split; [reflexivity|]. intros r Hr. simpl. rewrite app_nil_r. auto.
  - intros ph2 a o Ha. eexists. split; [reflexivity|]. intros r Hr. simpl. rewrite app_nil_r.
    destruct Hr as [[-> _]|[Hr _]]; [done|by eapply Herr].
Qed.

End MoneyProtocol.

(** ** Money that only moves after an answer of a kind, as a protocol *)

Module GuardedMoney.
Import MoneyProtocol.
Section Guarded.
Context (allows : event -> bool).

Definition guarded (ph : bool) (ev : event) (ph' : bool) : Prop :=
  (ph = true \/ money_of ev = []) /\ ph' = ph || allows ev.

Definition keeps_guard {A} (p : prog A) : Prop := follows guarded p false (fun _ _ => True).

Lemma open_follows {A} (p : prog A) : follows guarded p true (fun _ _ => True).
Proof.
  induction p as [a|X c k IH]; [done|]. simpl. intros x. exists true. split; [|apply IH].
  split; [by left|done].
Qed.

Lemma keeps_bind {A B} (p : prog A) (k : A -> prog B) :
  quiet p -> (forall a, keeps_guard (k a)) -> keeps_guard (pbind p k).
Proof.
  induction p as [a|X c f IH]; [by intros _ Hk; apply Hk|]. intros [Hc Hp] Hk.
  unfold keeps_guard. cbn [pbind follows]. intros x. exists (allows (Ev c x)).
  split; [split; [by right|done]|]. destruct (allows (Ev c x)); [apply open_follows|].
  by apply (IH x).
Qed.

Lemma keeps_await {A B} (p : prog (result A)) (k : A -> prog (result B)) :
  quiet p -> (forall a, keeps_guard (k a)) -> keeps_guard (rpbind p k).
Proof. intros Hp Hk. apply keeps_bind; [done|]. by intros [a|e|e]; [apply Hk| |]. Qed.

Lemma keeps_lock {A} resource (body : prog (result A)) :
  keeps_guard body -> keeps_guard (redlock resource None body).
Proof.
  intros Hb. unfold redlock, using_lock. apply keeps_bind; [by split|]. intros o.
  destruct (lock_error o) as [r|]; [done|].
  apply (follows_bind guarded body _ _ (fun _ _ => True) _ Hb). intros ph r _.
  destruct ph; [apply open_follows|]. apply keeps_bind; [by split|]. intros o'.
  by destruct r, (lock_error o').
Qed.

(** Money moves only after the answer came. *)
Lemma guarded_order {A} (p : prog A) tr a : keeps_guard p -> exec p tr a ->
  money_trace tr = [] \/
  exists pre ev post, tr = pre ++ ev :: post /\ money_trace pre = [] /\ allows ev = true.
Proof.
  intros Hk He. destruct (follows_exec _ _ _ _ _ _ Hk He) as (ph & Hp & _).
  remember false as b eqn:Hb. clear Hk He. revert Hb.
  induction Hp as [ph|ph ev ph1 tr ph2 [Hm ->] _ IH]; [by left|]. intros ->.
  destruct Hm as [Hm|Hm]; [done|]. rewrite money_trace_cons, Hm. simpl in IH.
  destruct (allows ev) eqn:Ha; [right; by exists [], ev, tr|].
  destruct (IH eq_refl) as [Hn|(pre & ev' & post & -> & Hpre & Hev)]; [by left|right].
  exists (ev :: pre), ev', post. by rewrite money_trace_cons, Hm.
Qed.

Lemma guarded_exec {A} (p : prog A) tr a : keeps_guard p -> exec p tr a ->
  money_trace tr = [] \/ existsb allows tr = true.
Proof.
  intros Hk He. destruct (guarded_order p tr a Hk He) as [Hn|(pre & ev & post & -> & _ & Hev)]; [by left|right].
  rewrite existsb_app. simpl. rewrite Hev. by rewrite orb_true_r.
Qed.
End Guarded.
End GuardedMoney.
