(* ===== verification/Rewards.v ===== *)
(** * Rewards of the quiz

    [lib/app/accounts/add-earn.js], with the checks of the metadata of phones and
    connections of [lib/domain/users/phone-metadata-validator.js] and
    [lib/domain/users-ips].  Handlers that run at the same time on one repository pay a
    reward at most once. *)

From S2P Require Import Prelude JsNum Errors Money Regex PaymentFlow Validation Accounts TxMetadata Facade LedgerService LedgerWrites RateLimit Programs Effects Persistence Workers Payments PaymentsSpec Protocols AccountRepo AccountHandlers.
From stdpp Require Import list relations.
Import AccountsRepo.
#[local] Open Scope string_scope.
#[local] Open Scope Z_scope.
#[local] Open Scope list_scope.

(** ** The amount of a question *)

(** The own properties of the table; the properties that every object inherits, such as
    [constructor], are not amounts. *)
Definition earn_of (quizQuestionId : string) : option Z :=
  match List.find (fun e => String.eqb (fst e) quizQuestionId) onboardingEarn with
  | Some (_, z) => Some z
  | None => None
  end.

(** ** The checks for rewards *)

Definition to_upper (c : Ascii.ascii) : Ascii.ascii :=
  if is_lower c then Ascii.ascii_of_nat (Ascii.nat_of_ascii c - 32) else c.
Definition toUpperCase (s : string) : string := Usernames.str_map to_upper s.

Record RewardsConfig : Type := mkRewardsConfig {
  denyPhoneCountries : list string;
  allowPhoneCountries : list string;
  denyIPCountries : list string;
  allowIPCountries : list string;
  denyASNs : list string;
  allowASNs : list string
}.

(** [allowed] and not [denied]: an empty list of allowed codes allows all. *)
Definition passes_lists (allow deny : list string) (code : string) : bool :=
  ((Nat.eqb (length allow) 0) || bool_decide (code ∈ allow))
  && negb (bool_decide (code ∈ deny)).

Definition phone_validateForReward (cfg : RewardsConfig) (m : option PhoneMetadata) : result unit :=
  match m with
  | Some (mkPhoneMetadata (Some carrierType) countryCode) =>
      if negb (str_truthy countryCode) then Er (new MissingPhoneMetadataError)
      else if bool_decide (carrierType = Some "voip") then Er (new InvalidPhoneMetadataTypeError)
      else if passes_lists (allowPhoneCountries cfg) (denyPhoneCountries cfg)
                (toUpperCase (match countryCode with Some c => c | None => "" end))
      then Ok tt else Er (new InvalidPhoneMetadataCountryError)
  | _ => Er (new MissingPhoneMetadataError)
  end.

Definition ip_validateForReward (cfg : RewardsConfig) (m : option IPInfo) : result unit :=
  match m with
  | Some i =>
      match ip_isoCode i, ip_asn i with
      | Some (String _ _ as isoCode), Some (String _ _ as asn) =>
          if ip_proxy i then Er (new InvalidIPMetadataProxyError)
          else if negb (passes_lists (allowIPCountries cfg) (denyIPCountries cfg) (toUpperCase isoCode))
          then Er (new InvalidIPMetadataCountryError)
          else if negb (passes_lists (allowASNs cfg) (denyASNs cfg) (toUpperCase asn))
          then Er (new InvalidIPMetadataASNError)
          else Ok tt
      | _, _ => Er (new MissingIPMetadataError)
      end
  | None => Er (new MissingIPMetadataError)
  end.

(** ** [add-earn.js] *)

(** [if (x instanceof Error) return new K(x.name)] *)
Definition or_named {A} (k : ErrClass) (r : result A) : result A :=
  match r with Er e => Er (new_msg k (error_name (error_class e))) | r => r end.

Section Handler.
Context (cfg : Settings) (rewardsConfig : RewardsConfig).

(** [hash] is the random hash of the payment. *)
Definition addEarn (hash quizQuestionId accountId : string) : aprog (result (string * Z)) :=
  match earn_of quizQuestionId with
  | None => Ret (Er (new InvalidQuizQuestionIdError))
  | Some amt =>
      await funderWalletId <- do_call FunderWalletId ;;
      await funderWallet <- base (WalletFindById funderWalletId) ;;
      await funderAccount <- base (AccountFindById (w_accountId funderWallet)) ;;
      await recipientAccount <- base (AccountFindById accountId) ;;
      await user <- base (UserFindById (acc_ownerId recipientAccount)) ;;
      await _ <- Ret (or_named InvalidPhoneMetadataForRewardError
                        (phone_validateForReward rewardsConfig (u_phoneMetadata user))) ;;
      await lastIPs <- do_call (UserIpsFindById (acc_ownerId recipientAccount)) ;;
      await _ <- Ret (or_named InvalidIPMetadataForRewardError
                        (ip_validateForReward rewardsConfig (last lastIPs))) ;;
      await recipientWallets <- base (WalletListByAccountId accountId) ;;
      match List.find (fun w => bool_decide (w_currency w = Btc)) recipientWallets with
      | None => Ret (Er (new NoBtcWalletExistsForAccountError))
      | Some recipientBtcWallet =>
          await _ <- do_call (RewardsAdd accountId quizQuestionId) ;;
          await _ <- lift (intraledgerPaymentSendWalletId cfg hash (w_id recipientBtcWallet)
                             funderAccount (num amt) (Some quizQuestionId) funderWalletId) ;;
          Ret (Ok (quizQuestionId, amt))
      end
  end.

End Handler.

(** ** A reward is paid at most once *)

Module RewardsSpec.

(** A request: the account and the question. *)
Definition request : Type := string * string.

(** The right to one payment is given by the repository and used by a movement of money. *)
Definition granted_by (r : request) (ev : happening acall) : nat :=
  match ev with
  | Ev c x =>
      match c in acall X return X -> nat with
      | RewardsAdd a q => fun x => if is_ok x && bool_decide ((a, q) = r) then 1%nat else 0%nat
      | _ => fun _ => 0%nat
      end x
  end.
Definition moved_by (ev : happening acall) : nat :=
  match ev with
  | Ev c x =>
      match c in acall X return X -> nat with
      | Base c => fun x => length (money_of (Ev c x))
      | _ => fun _ => 0%nat
      end x
  end.

Definition earn_budget (r : request) := budget (granted_by r) moved_by.
Definition within {A} (r : request) (p : aprog A) (n : nat) : Prop :=
  follows (earn_budget r) p n (fun _ _ => True).

(** *** Programs of payments within a budget *)

Definition money_budget := budget (fun _ : event => 0%nat) (fun ev => length (money_of ev)).

Lemma lift_within {A} r (p : prog A) n :
  follows money_budget p n (fun _ _ => True) -> within r (lift p) n.
Proof.
  apply follows_interp. intros X c ph Q HQ x. destruct (HQ x) as (ph' & Hs & Hq).
  exists ph'. split; [exact Hs|done].
Qed.

Lemma quiet_budget {A} (p : prog A) n : MoneyProtocol.quiet p ->
  follows money_budget p n (fun n' _ => n' = n).
Proof.
  induction p as [a|X c k IH]; [done|]. intros [Hc Hk]. simpl. intros x. exists n.
  split; [unfold money_budget, budget; by rewrite (Hc x)|by apply IH].
Qed.

Lemma money_in_notes ev : money_in (notes_of ev) = money_of ev.
Proof.
  unfold notes_of. rewrite !Transfers.money_in_app.
  assert (Hr : money_in (reads_of ev) = []) by (by destruct ev as [X [] x]; simpl; try destruct x).
  rewrite Hr. assert (Hf : money_in (if call_failed ev then [NFailed] else []) = [])
    by by destruct (call_failed ev).
  rewrite Hf. simpl. induction (money_of ev) as [|m l IH]; [done|]. simpl. by f_equal.
Qed.

(** A program whose notes end with one movement at most stays within its budget. *)
Lemma logs_end {A} (p : prog A) n out :
  follows logs p n out -> exists n' a, out (n ++ n') a.
Proof.
  revert n. induction p as [a|X c k IH]; intros n Hf; simpl in Hf; [by exists [], a; rewrite app_nil_r|].
  destruct (Hf (failing_env X c)) as (n1 & Hs & Hk). destruct (IH _ _ Hk) as (n' & a & Ho).
  inversion Hs; subst. exists (notes_of (Ev c (failing_env X c)) ++ n'), a. by rewrite app_assoc.
Qed.

Lemma logs_budget {A} (p : prog A) n out m :
  follows logs p n out -> (forall n' a, out n' a -> (length (money_in n') <= m)%nat) ->
  follows money_budget p (m - length (money_in n))%nat (fun _ _ => True).
Proof.
  revert n. induction p as [a|X c k IH]; intros n Hf Hout; [done|]. simpl in *. intros x.
  destruct (Hf x) as (n1 & Hs & Hk). inversion Hs; subst. eexists. split; [|by apply (IH x _ Hk)].
  destruct (logs_end _ _ _ Hk) as (n' & a & Ho). apply Hout in Ho.
  rewrite !Transfers.money_in_app, !length_app in Ho.
  unfold money_budget, budget. rewrite Transfers.money_in_app, length_app, money_in_notes in *. lia.
Qed.

Lemma transfer_moves_once cfg f sa wallet ra rw memo :
  follows money_budget (executeWalletIdPayment cfg f sa wallet ra rw memo) 1%nat (fun _ _ => True).
Proof.
  refine (logs_budget _ [] _ 1 (Transfers.walletId_transfer_follows cfg f sa wallet ra rw memo) _).
  intros n' a. unfold Transfers.transfer_outcome, Transfers.error_notes.
  destruct a as [[]|e|e]; simpl.
  - intros (v & acc & b & rw' & late & -> & _ & _ & _ & Hl). simpl.
    destruct Hl as [->|(id & x & ->)]; simpl; lia.
  - done.
  - done.
  - intros ->. simpl. lia.
  - intros [->|(x & _ & -> & _)]; simpl; lia.
  - intros [->|(x & _ & -> & _)]; simpl; lia.
Qed.

Lemma budget_bind {A B} (p : prog A) (k : A -> prog B) n :
  MoneyProtocol.quiet p -> (forall a, follows money_budget (k a) n (fun _ _ => True)) ->
  follows money_budget (pbind p k) n (fun _ _ => True).
Proof.
  intros Hp Hk. eapply follows_bind; [by apply quiet_budget|]. intros n' a ->. apply Hk.
Qed.

Lemma budget_done {A B} (p : prog A) (k : A -> prog B) n :
  follows money_budget p n (fun _ _ => True) -> (forall a, MoneyProtocol.quiet (k a)) ->
  follows money_budget (pbind p k) n (fun _ _ => True).
Proof.
  intros Hp Hk. eapply follows_bind; [exact Hp|]. intros n' a _.
  eapply follows_mono; [by apply quiet_budget|done].
Qed.

Lemma payment_moves_once cfg hash rid acc amt memo wid :
  follows money_budget (intraledgerPaymentSendWalletId cfg hash rid acc amt memo wid) 1%nat
    (fun _ _ => True).
Proof.
  unfold intraledgerPaymentSendWalletId. apply budget_bind.
  { unfold validateIntraledgerPaymentInputs, validated_wallet. MoneyProtocol.quiets. }
  intros [i|e|e]; [|done..]. cbv zeta. apply budget_bind; [done|]. intros [b|e|e]; [|done..].
  cbv zeta. destruct (Builder.withoutRoute _) as [f|e|e]; [|by destruct (is_a e _)|done].
  apply budget_done; [apply transfer_moves_once|]. intros [st|e|e]; [|done..].
  case_match; [done|]. apply MoneyProtocol.quiet_bind.
  - unfold addContactsAfterSend, add_contact. case_match; [done|].
    repeat (apply MoneyProtocol.quiet_await; [repeat case_match; MoneyProtocol.quiets|intros]); done.
  - by intros [u|e|e].
Qed.

(** *** The handler *)

Lemma within_await {A B} r n (p : aprog (result A)) (k : A -> aprog (result B)) :
  follows (earn_budget r) p n (fun n' _ => n' = n) ->
  (forall a, within r (k a) n) -> within r (rpbind p k) n.
Proof.
  intros Hp Hk. eapply follows_bind; [exact Hp|]. intros n' [a|e|e] ->; [apply Hk|done..].
Qed.

Lemma still {X} r n (c : acall X) : (forall x, granted_by r (Ev c x) = 0%nat) ->
  (forall x, moved_by (Ev c x) = 0%nat) -> follows (earn_budget r) (do_call c) n (fun n' _ => n' = n).
Proof.
  intros Hg Hm x. exists n. split; [|done]. unfold earn_budget, budget. by rewrite Hg, Hm.
Qed.

(** A movement of money is paid for by the grant of the reward. *)
Lemma addEarn_within cfg rc hash q a : within (a, q) (addEarn cfg rc hash q a) 0.
Proof.
  unfold addEarn. destruct (earn_of q) as [amt|]; [|done].
  do 5 (apply within_await; [by apply still|intros ?]).
  apply within_await; [by eexists|intros ?]. apply within_await; [by apply still|intros ?].
  apply within_await; [by eexists|intros ?]. apply within_await; [by apply still|intros ?].
  destruct (List.find _ _) as [w|]; [|done]. simpl. intros [u|e|e].
  - exists 1%nat. split; [unfold earn_budget, budget; simpl; by rewrite bool_decide_eq_true_2|].
    eapply follows_bind; [apply lift_within, payment_moves_once|]. by intros n' [x|e|e] _.
  - by exists 0%nat.
  - by exists 0%nat.
Qed.

Lemma earn_within cfg rc hash (r : request) : within r (addEarn cfg rc hash r.2 r.1) 0.
Proof. destruct r as [a q]. apply addEarn_within. Qed.

(** *** Handlers on one repository *)

Section Shared.
Context {C : Type} `{Collection C RawAccount} {laws : CollectionLaws C RawAccount}
  (toObjectId : string -> db string).

(** The accounts, the grants of rewards and the movements of money, each with the
    request whose handler it was made by. *)
Record rewards_world : Type := mkWorld {
  rw_accounts : C;
  rw_grants : list request;
  rw_moves : list request
}.

Definition unique_ids (c : C) : Prop :=
  forall id, (length (List.filter (has_id id) (coll_docs c)) <= 1)%nat.
Definition earned (c : C) (id q : string) : Prop :=
  exists d, In d (coll_docs c) /\ has_id id d = true /\ q ∈ ra_earn d.

(** What other updates of the accounts leave: identifiers stay unique, and an earned
    question stays. *)
Definition keeps_earned (c c' : C) : Prop :=
  (unique_ids c -> unique_ids c') /\ forall id q, earned c id q -> earned c' id q.

Definition ans (X : Type) (c : tagged request acall X) (w : rewards_world) : X -> rewards_world -> Prop :=
  match c in tagged _ _ X return X -> rewards_world -> Prop with
  | Tag r c =>
      match c in acall X return X -> rewards_world -> Prop with
      | RewardsAdd a q => fun x w' =>
          (x, rw_accounts w') = rewards_add toObjectId a q (rw_accounts w) /\
          rw_grants w' = replicate (granted_by r (Ev (RewardsAdd a q) x)) r ++ rw_grants w /\
          rw_moves w' = rw_moves w
      | Base c => fun x w' =>
          keeps_earned (rw_accounts w) (rw_accounts w') /\ rw_grants w' = rw_grants w /\
          rw_moves w' = replicate (length (money_of (Ev c x))) r ++ rw_moves w
      | _ => fun _ w' =>
          keeps_earned (rw_accounts w) (rw_accounts w') /\ rw_grants w' = rw_grants w /\
          rw_moves w' = rw_moves w
      end
  end.

Definition occurrences (r : request) (l : list request) : nat :=
  length (List.filter (fun r' => bool_decide (r' = r)) l).

Lemma occurrences_app r l1 l2 : occurrences r (l1 ++ l2) = (occurrences r l1 + occurrences r l2)%nat.
Proof. unfold occurrences. by rewrite List.filter_app, length_app. Qed.

Lemma occurrences_replicate r r' n :
  occurrences r (replicate n r') = if decide (r' = r) then n else 0%nat.
Proof.
  unfold occurrences. induction n as [|n IH]; simpl; [by case_decide|].
  case_bool_decide; case_decide; try done. simpl. by rewrite IH.
Qed.

Lemma counts_follow ev w w' : ev_ans ans ev w w' -> forall j,
  occurrences j (rw_grants w') =
    (occurrences j (rw_grants w) + only granted_by j ev)%nat /\
  occurrences j (rw_moves w') =
    (occurrences j (rw_moves w) + only (fun _ => moved_by) j ev)%nat.
Proof.
  assert (Hplus : forall n j (r : request) l, occurrences j (replicate n r ++ l) =
    (occurrences j l + if decide (r = j) then n else 0)%nat)
    by (intros; rewrite occurrences_app, occurrences_replicate; lia).
  unfold only. destruct ev as [X [Y r c] x]; destruct c; simpl; intros Ha j;
    destruct Ha as (_ & -> & ->); rewrite ?Hplus; split; case_decide; subst; lia.
Qed.

Definition granted_once (w : rewards_world) : Prop :=
  unique_ids (rw_accounts w) /\
  forall a q, (occurrences (a, q) (rw_grants w) <= 1)%nat /\
    (occurrences (a, q) (rw_grants w) = 1%nat ->
     exists oid, toObjectId a = Done oid /\ earned (rw_accounts w) oid q).

(** Pushing a question keeps what was earned, and earns the question. *)
Lemma push_keeps c c' a q r : unique_ids c -> (r, c') = rewards_add toObjectId a q c ->
  keeps_earned c c' /\
  (r = Ok tt -> exists oid, toObjectId a = Done oid /\ ~ earned c oid q /\ earned c' oid q).
Proof.
  intros Hu. unfold rewards_add.
  destruct (toObjectId a) as [oid|m]; [|by intros [= -> <-]; split].
  destruct (coll_findOneAndUpdateOld _ _ _) as [[[d|] c1]|m] eqn:Hf; [| |by intros [= -> <-]; split].
  - apply updateOld_some in Hf as (l1 & l2 & Hc & Hd & Hc1).
    assert (Hkeep : keeps_earned c c1).
    { split.
      - intros _ id. specialize (Hu id). rewrite Hc1. rewrite Hc in Hu.
        rewrite List.filter_app, length_app in *. simpl in *.
        change (has_id id (push_earn q d)) with (has_id id d). by destruct (has_id id d).
      - intros id q' (x & Hx & Hid & Hq). rewrite Hc in Hx. apply in_app_or in Hx.
        unfold earned. rewrite Hc1. destruct Hx as [Hx|[<-|Hx]].
        + exists x. split; [apply in_or_app; by left|done].
        + exists (push_earn q d). split; [apply in_or_app; right; by left|].
          split; [done|]. simpl. apply elem_of_app. by left.
        + exists x. split; [apply in_or_app; right; by right|done]. }
    case_bool_decide as Hq; intros [= -> <-]; (split; [done|]); [done|]. intros _. exists oid.
    split; [done|]. split.
    + intros (x & Hx & Hid & Hxq). specialize (Hu oid). rewrite Hc in Hx, Hu.
      rewrite List.filter_app, length_app in Hu. simpl in Hu. rewrite Hd in Hu. simpl in Hu.
      apply in_app_or in Hx as [Hx|[->|Hx]]; [|done|];
        assert (Hin := proj2 (filter_In (has_id oid) x _) (conj Hx Hid));
        apply in_split in Hin as (? & ? & Heq); rewrite Heq, length_app in Hu; simpl in Hu; lia.
    + exists (push_earn q d). rewrite Hc1. split; [apply in_or_app; right; by left|].
      split; [done|]. simpl. apply elem_of_app. right. by left.
  - apply updateOld_none in Hf as [Hc _]. intros [= -> <-]. split; [|done].
    unfold keeps_earned, unique_ids, earned. by rewrite Hc.
Qed.

Lemma keeps_granted w w' : granted_once w -> keeps_earned (rw_accounts w) (rw_accounts w') ->
  rw_grants w' = rw_grants w -> granted_once w'.
Proof.
  intros [Hu Hg] [Hk1 Hk2] He. split; [auto|]. intros a q. rewrite He.
  destruct (Hg a q) as [H1 H2]. split; [done|]. intros Ho. destruct (H2 Ho) as (oid & ? & ?).
  exists oid. auto.
Qed.

Lemma granted_step X (c : tagged request acall X) w x w' :
  granted_once w -> ans X c w x w' -> granted_once w'.
Proof.
  intros Hw. destruct c as [X r c].
  destruct c; try (intros (Hk & He & _); by eapply keeps_granted).
  simpl. intros (Hx & He & _). destruct (push_keeps _ _ _ _ _ (proj1 Hw) Hx) as [Hk Hok].
  destruct Hw as [Hu Hg]. split; [by apply Hk|]. intros a q.
  rewrite He, occurrences_app, occurrences_replicate. destruct (Hg a q) as [H1 H2].
  assert (Hkept : occurrences (a, q) (rw_grants w) = 1%nat ->
    exists oid, toObjectId a = Done oid /\ earned (rw_accounts w') oid q).
  { intros Ho. destruct (H2 Ho) as (oid & ? & ?). exists oid. split; [done|]. by apply Hk. }
  assert (Hsame : (0 + occurrences (a, q) (rw_grants w) <= 1)%nat /\ ((0 + occurrences (a, q) (rw_grants w) = 1)%nat ->
    exists oid, toObjectId a = Done oid /\ earned (rw_accounts w') oid q)) by (split; [lia|exact Hkept]).
  destruct (decide (r = (a, q))) as [->|Hr]; [|exact Hsame].
  destruct (is_ok x && bool_decide ((accountId, quizQuestionId) = (a, q))) eqn:Hb; [|exact Hsame].
  bool_prop. simplify_eq. destruct x as [[]|e|e]; [|done..].
  destruct (Hok eq_refl) as (oid & Hid & Hnot & Hnow).
  assert (Hnone : occurrences (a, q) (rw_grants w) = 0%nat).
  { destruct (occurrences (a, q) (rw_grants w)) as [|[|n]] eqn:Ho; [done| |lia].
    destruct (H2 eq_refl) as (oid' & Hid' & Hin). congruence. }
  rewrite Hnone. split; [lia|]. intros _. by exists oid.
Qed.

Definition rewards_start (c : C) : rewards_world := mkWorld c [] [].

Lemma granted_invariant {B} (job : request -> program (tagged request acall) (result B))
    requests n c cf : unique_ids c ->
  rtc (wstep ans job) (runInParallel requests n (rewards_start c)) cf ->
  granted_once (world cf).
Proof.
  intros Hu Hr. refine (world_invariant ans job granted_once requests n _ cf granted_step _ Hr).
  split; [done|]. intros a q. unfold occurrences. simpl. split; [lia|done].
Qed.

(** C23. However requests for rewards are interleaved by workers that share the
    accounts, at most one transfer pays an account for a question, and then the
    question is recorded as earned by the account. *)
Theorem rewards_paid_once (cfg : Settings) (rc : RewardsConfig) (hashes : request -> string)
    (requests : list request) (n : nat) (c : C) cf
    (Hids : unique_ids c)
    (Hruns : rtc (wstep ans (fun r => tag r (addEarn cfg rc (hashes r) r.2 r.1)))
               (runInParallel requests n (rewards_start c)) cf)
    (accountId quizQuestionId : string) :
  let paid := occurrences (accountId, quizQuestionId) (rw_moves (world cf)) in
  (paid <= 1)%nat /\
  (paid = 1%nat -> exists oid, toObjectId accountId = Done oid /\
     earned (rw_accounts (world cf)) oid quizQuestionId).
Proof.
  cbv zeta. pose proof (granted_invariant _ _ _ _ _ Hids Hruns) as [_ Hg].
  destruct (Hg accountId quizQuestionId) as [H1 H2].
  pose proof (rights_respected (fun r : request => r) ans
    (fun r => tag r (addEarn cfg rc (hashes r) r.2 r.1))
    (only granted_by) (only (fun _ => moved_by)) (fun w r => occurrences r (rw_grants w))
    (fun w r => occurrences r (rw_moves w)) counts_follow
    (fun r => tag_follows granted_by (fun _ => moved_by) r _ 0
       (earn_within cfg rc (hashes r) r))
    requests n (rewards_start c) cf (fun j => Nat.le_refl _) Hruns
    (accountId, quizQuestionId)) as Hle. simpl in Hle. split; [lia|].
  intros Hp. apply H2. lia.
Qed.

End Shared.

(** *** Two requests for one reward at the same time *)

Definition quiz_account : RawAccount :=
  mkRawAccount "acc1" 0 (Some "w1") (Some "alice") (Some 1) [mkStatusEntry StatusActive None None]
    None None (Some true) [] (num 0) (num 0) RoleUser [] None (Some "+50370000000")
    (Some (mkPhoneMetadata (Some (Some "mobile")) (Some "SV"))) "" [] [].
Definition quiz_rewards : RewardsConfig := mkRewardsConfig [] [] [] [] [] [].
Definition quiz_env (X : Type) (c : call X) : X :=
  match c in call X return X with
  | WalletListByAccountId a => Ok [mkWalletRec PaymentClaims.other_uuid a Btc]
  | UserFindById id => Ok (mkUserRecord [] "" id None (ra_twilio quiz_account) 0)
  | c => PaymentClaims.sample_env _ c
  end.

Definition quiz_answer (X : Type) (c : tagged request acall X) (w : @rewards_world (list RawAccount))
    : X * rewards_world :=
  match c in tagged _ _ X return X * rewards_world with
  | Tag r c =>
      match c in acall X return X * rewards_world with
      | RewardsAdd a q =>
          let '(x, c') := rewards_add Done a q (rw_accounts w) in
          (x, mkWorld c' (replicate (granted_by r (Ev (RewardsAdd a q) x)) r ++ rw_grants w) (rw_moves w))
      | Base c =>
          (quiz_env _ c, mkWorld (rw_accounts w) (rw_grants w)
             (replicate (length (money_of (Ev c (quiz_env _ c)))) r ++ rw_moves w))
      | FunderWalletId => (Ok PaymentClaims.sample_uuid, w)
      | UserIpsFindById _ => (Ok [mkIPInfo "1.2.3.4" (Some "SV") (Some "AS1") false 0 0], w)
      | AccountListUnlocked | AccountListBusinesses | AccountFindByUsername _ | AccountFindByKratosUserId _
      | AccountUpdate _ | AccountPersistNew _ _ _ => (Er (new UnknownRepositoryError), w)
      | RandomInt min _ => (min, w)
      | Now => (0, w)
      | _ => (Er (new UnknownRepositoryError), w)
      end
  end.

Definition quiz_job (r : request) := tag r (addEarn PaymentClaims.sample_settings quiz_rewards "h1" r.2 r.1).
Definition quiz_start : @config (tagged request acall) rewards_world request (string * Z) :=
  runInParallel (I := request) [("acc1", "sat"); ("acc1", "sat")] 2 (rewards_start [quiz_account]).

Lemma quiz_answers X c w : ans Done X c w (fst (quiz_answer X c w)) (snd (quiz_answer X c w)).
Proof.
  destruct c as [X r c]. destruct c; try (by repeat split; simpl; auto).
  cbn [quiz_answer ans]. by destruct (rewards_add Done accountId quizQuestionId (rw_accounts w)).
Qed.

(** The two handlers move in turn, then the first alone. *)
Definition quiz_order : list nat := concat (replicate 11 [0; 1]%nat) ++ replicate 12 0%nat.
Definition quiz_end := default quiz_start (scheduled quiz_answer quiz_job quiz_order quiz_start).

Lemma rewards_paid_once_witness :
  occurrences ("acc1", "sat") (rw_moves (world quiz_end)) = 1%nat /\
  earned (rw_accounts (world quiz_end)) "acc1" "sat".
Proof.
  assert (Hp : occurrences ("acc1", "sat") (rw_moves (world quiz_end)) = 1%nat)
    by (vm_compute; reflexivity).
  split; [exact Hp|].
  assert (Hids : unique_ids [quiz_account])
    by (intros id; simpl; destruct (has_id id quiz_account); simpl; lia).
  assert (Hruns : rtc (wstep (ans Done) quiz_job) quiz_start quiz_end)
    by (apply (scheduled_runs quiz_answer _ _ quiz_order); [exact quiz_answers|vm_compute; reflexivity]).
  destruct (proj2 (rewards_paid_once Done PaymentClaims.sample_settings quiz_rewards (fun _ => "h1")
    [("acc1", "sat"); ("acc1", "sat")] 2 [quiz_account] quiz_end Hids Hruns "acc1" "sat") Hp)
    as (oid & Hid & He).
  injection Hid as <-. exact He.
Defined.

(** The question is recorded again by each request that is refused. *)
Example earn_repeats :
  List.map ra_earn (rw_accounts (world quiz_end)) = [["sat"; "sat"]].
Proof. vm_compute. reflexivity. Qed.
End RewardsSpec.
