(* ===== verification/Login.v ===== *)
(** * Sign-in

    [lib/app/users]: codes sent to phones, sign-in by phone and by email, the language
    and the connections of a user; [lib/domain/users-ips/index.js]; and the on-chain
    addresses of a wallet, [create-on-chain-address.js] and
    [get-last-on-chain-address.js] of [lib/app/wallets].

    A code that was sent is accepted while it is fresh, a session is given only for a
    code that was checked, and handlers that run at the same time try at most as many
    wrong codes for a phone as its limit allows. *)

From S2P Require Import Prelude JsNum Errors Money Regex PaymentFlow Validation Accounts TxMetadata Facade LedgerService LedgerWrites RateLimit Programs Effects Persistence AccountRepo Workers Payments AccountHandlers PaymentsSpec Protocols Rewards.
From stdpp Require Import list relations.
#[local] Open Scope string_scope.
#[local] Open Scope Z_scope.
#[local] Open Scope list_scope.

(** ** [domain/users-ips/index.js] *)

(** The value of a header: absent, repeated or single. *)
Inductive Ips : Type :=
| NoIps
| IpsList (l : list string)
| IpsString (s : string).

Fixpoint str_rev_onto (s acc : string) : string :=
  match s with EmptyString => acc | String c s => str_rev_onto s (String c acc) end.
Definition str_rev (s : string) : string := str_rev_onto s "".
Definition trim (s : string) : string := str_rev (trim_start (str_rev (trim_start s))).

(** [s.split(",")[0]] *)
Fixpoint before_comma (s : string) : string :=
  match s with
  | EmptyString => ""
  | String c s => if Ascii.eqb c (Ascii.ascii_of_nat 44) then "" else String c (before_comma s)
  end.

Definition toIpAddress (ip : string) : option string :=
  if String.eqb ip "" then None
  else if String.eqb (trim ip) "" then None else Some (trim ip).

Definition parseIps (ips : Ips) : option string :=
  match ips with
  | NoIps => None
  | IpsList [] => None
  | IpsList (ip :: _) => toIpAddress ip
  | IpsString s => if String.eqb s "" then None else toIpAddress (before_comma s)
  end.

(** ** [request-phone-code.js] *)

Record LoginSettings : Type := mkLoginSettings {
  galoyInstanceName : string;
  login_testAccounts : list TestAccount;
  login_initialWallets : list WalletCurrency;
  ipRecordingEnabled : bool;
  proxyCheckingEnabled : bool
}.

Definition limited (limit : RateLimitName) (key : string) : aprog (result unit) :=
  base (ConsumeLimiter limit key).

(** [await p], with an answer that is not looked at; a rejection passes through. *)
Definition and_then {A B} (p : aprog (result A)) (k : aprog (result B)) : aprog (result B) :=
  let! r <- p ;;
  match r with Throw e => Ret (Throw e) | _ => k end.

Section Handlers.
Context (cfg : LoginSettings).

Definition code_text (code : string) : string :=
  code +:+ " is your verification code for " +:+ galoyInstanceName cfg.

Definition requestPhoneCode (phone ip : string) : aprog (result unit) :=
  await _ <- limited requestPhoneCodeAttemptPerIp ip ;;
  await _ <- limited requestPhoneCodeAttemptPerPhone phone ;;
  await _ <- limited requestPhoneCodeAttemptPerPhoneMinInterval phone ;;
  if isPhoneValid (login_testAccounts cfg) phone then Ret (Ok tt)
  else
    let! n <- do_call (RandomInt 100000 999999) ;;
    let code := pretty n in
    await _ <- do_call (PhoneCodePersistNew phone code) ;;
    do_call (SendText phone (code_text code)).

Definition requestPhoneCodeWithCaptcha (phone geetestChallenge geetestValidate geetestSeccode ip : string)
    : aprog (result unit) :=
  await _ <- do_call (GeetestValidate geetestChallenge geetestValidate geetestSeccode) ;;
  requestPhoneCode phone ip.

(** ** [login.js] *)

Definition MAX_AGE_TIME_CODE : Z := 20 * 60.

Definition isCodeValid (code phone : string) (age : Z) : aprog (result unit) :=
  if isPhoneAndCodeValid (login_testAccounts cfg) code phone then Ret (Ok tt)
  else do_call (PhoneCodeExistNewerThan phone code age).

(** The session of a phone whose code was checked.  An account that cannot be given its
    identity is only reported. *)
Definition phone_session (phone : string) : aprog (result string) :=
  let! kratosResult <- do_call (KratosLogin phone) ;;
  match kratosResult with
  | Throw e => Ret (Throw e)
  | Ok session => Ret (Ok (ks_sessionToken session))
  | Er e =>
      if negb (is_a e LikelyNoUserWithThisPhoneExistError) then Ret (Er e)
      else
        await session <- do_call (KratosCreateIdentityWithSession phone) ;;
        let! user <- do_call (UserFindByPhone phone) ;;
        match user with
        | Throw e => Ret (Throw e)
        | Er e =>
            if is_a e CouldNotFindUserFromPhoneError then
              await _ <- createAccountWithPhoneIdentifier (login_testAccounts cfg)
                           (ks_kratosUserId session) phone None (login_initialWallets cfg) ;;
              Ret (Ok (ks_sessionToken session))
            else Ret (Er e)
        | Ok user =>
            await account <- base (AccountFindById (u_id user)) ;;
            and_then (do_call (AccountUpdate (set_kratosUserId (ks_kratosUserId session) account)))
              (Ret (Ok (ks_sessionToken session)))
        end
  end.

(** The answers of the rewards are not looked at. *)
Definition loginWithPhone (phone code ip : string) : aprog (result string) :=
  await _ <- limited failedLoginAttemptPerIp ip ;;
  await _ <- limited failedLoginAttemptPerPhone phone ;;
  await _ <- isCodeValid code phone MAX_AGE_TIME_CODE ;;
  and_then (do_call (LimiterReward failedLoginAttemptPerIp ip)) (
  and_then (do_call (LimiterReward failedLoginAttemptPerPhone phone)) (
  phone_session phone)).

Definition loginWithEmail (kratosUserId emailAddress ip : string) : aprog (result string) :=
  await kratosUserIdValid <- Ret (checkedToKratosUserId kratosUserId) ;;
  await emailAddressValid <- Ret (checkedToEmailAddress emailAddress) ;;
  await _ <- limited failedLoginAttemptPerIp ip ;;
  await _ <- limited failedLoginAttemptPerEmailAddress emailAddressValid ;;
  let! found <- do_call (AccountFindByKratosUserId kratosUserIdValid) ;;
  await account <-
    match found with
    | Er e =>
        if is_a e CouldNotFindAccountFromKratosIdError
        then createAccountForEmailIdentifier (login_testAccounts cfg) kratosUserIdValid
               (login_initialWallets cfg)
        else Ret (Er e)
    | r => Ret r
    end ;;
  Ret (Ok (toUpperCase (status_string (acc_status account)))).

(** ** [update-language.js], [get-user.js] *)

Definition set_language (language : string) (u : User) : User :=
  mkUserRecord (u_deviceTokens u) language (u_id u) (u_phone u) (u_phoneMetadata u) (u_createdAt u).

Definition updateLanguage (userId language : string) : aprog (result User) :=
  await checkedLanguage <- Ret (checkedToLanguage language) ;;
  await user <- base (UserFindById userId) ;;
  do_call (UserUpdate (set_language checkedLanguage user)).

Definition touch (now : Z) (i : IPInfo) : IPInfo :=
  mkIPInfo (ip_ip i) (ip_isoCode i) (ip_asn i) (ip_proxy i) (ip_firstConnection i) now.

(** The first record of the address, when there is one, is touched. *)
Fixpoint touch_ip (ip : string) (now : Z) (l : list IPInfo) : option (list IPInfo) :=
  match l with
  | [] => None
  | i :: l =>
      if String.eqb (ip_ip i) ip then Some (touch now i :: l)
      else match touch_ip ip now l with Some l' => Some (i :: l') | None => None end
  end.

Definition updateUserIPsInfo (userId : string) (ip : option string) : aprog (result unit) :=
  let! lastConnection <- do_call Now ;;
  await lastIPs <- do_call (UserIpsFindById userId) ;;
  if negb (str_truthy ip) || negb (ipRecordingEnabled cfg)
  then do_call (UserIpsUpdate userId lastIPs)
  else
    let ip := match ip with Some ip => ip | None => "" end in
    match touch_ip ip lastConnection lastIPs with
    | Some lastIPs' => do_call (UserIpsUpdate userId lastIPs')
    | None =>
        await ipInfo <-
          (if proxyCheckingEnabled cfg then
             await info <- do_call (FetchIPInfo ip) ;;
             Ret (Ok (mkIPInfo ip (ip_isoCode info) (ip_asn info) (ip_proxy info)
                        lastConnection lastConnection))
           else Ret (Ok (mkIPInfo ip None None false lastConnection lastConnection))) ;;
        do_call (UserIpsUpdate userId (lastIPs ++ [ipInfo]))
    end.

(** The user and the update that goes on in the background. *)
Definition getUserForLogin (userId : string) (ip : option string)
    : aprog (result (User * aprog (result unit))) :=
  await user <- base (UserFindById userId) ;;
  Ret (Ok (user, updateUserIPsInfo userId ip)).

(** ** On-chain addresses *)

Definition createOnChainAddress (walletId : string) : aprog (result string) :=
  await wallet <- base (WalletFindById walletId) ;;
  await _ <- limited onChainAddressCreate (w_accountId wallet) ;;
  await _ <- base OnChainService ;;
  await onChainAddress <- do_call OnChainCreateAddress ;;
  await saved <- do_call (AddressPersistNew walletId onChainAddress) ;;
  Ret (Ok (WalletsRepo.ad_address saved)).

Definition getLastOnChainAddress (walletId : string) : aprog (result string) :=
  let! lastOnChainAddress <- do_call (AddressFindLast walletId) ;;
  match lastOnChainAddress with
  | Er e => if is_a e CouldNotFindError then createOnChainAddress walletId else Ret (Er e)
  | Throw e => Ret (Throw e)
  | Ok a => Ret (Ok (WalletsRepo.ad_address a))
  end.

End Handlers.

(** ** A session is given for a code that was checked *)

Module LoginSpec.

(** The calls that create or use an identity, or change an account. *)
Definition gives_access (ev : happening acall) : bool :=
  match ev with
  | Ev c _ =>
      match c with
      | KratosLogin _ | KratosCreateIdentityWithSession _ | AccountPersistNew _ _ _
      | WalletPersistNew _ _ _ | AccountUpdate _ => true
      | _ => false
      end
  end.

Definition consumed (limit : RateLimitName) (key : string) : happening acall :=
  Ev (Base (ConsumeLimiter limit key)) (Ok tt).

(** The limits and the check that come before. *)
Definition code_checked (cfg : LoginSettings) (phone code ip : string) : list (happening acall) :=
  [consumed failedLoginAttemptPerIp ip; consumed failedLoginAttemptPerPhone phone] ++
  (if isPhoneAndCodeValid (login_testAccounts cfg) code phone then []
   else [Ev (PhoneCodeExistNewerThan phone code MAX_AGE_TIME_CODE) (Ok tt)]).

Definition reaches_access {A} (tr : list (happening acall)) (r : result A) : Prop :=
  is_ok r = true \/ existsb gives_access tr = true.

(** A call before the access is answered with a value. *)
Lemma access_await {X B} (c : acall (result X)) (k : X -> aprog (result B)) tr r :
  exec (rpbind (do_call c) k) tr r -> reaches_access tr r -> (forall x, gives_access (Ev c x) = false) ->
  exists a tr', tr = Ev c (Ok a) :: tr' /\ exec (k a) tr' r /\ reaches_access tr' r.
Proof.
  intros (x & tr' & -> & He)%exec_inv Ha Hc. unfold reaches_access in *. cbn [existsb] in Ha.
  rewrite Hc in Ha. destruct x as [a|e|e]; [by exists a, tr'|..];
    apply exec_inv in He as [-> ->]; by destruct Ha.
Qed.

(** C25. In every execution of loginWithPhone in which a session is asked of the
    identity service or the answer is not an error, the first calls were those that
    count the attempt against the limit of the address and of the phone, both
    passed, and, unless phone and code are of a test account, the check that the
    code was sent to the phone within the last twenty minutes. *)
Theorem login_needs_code (cfg : LoginSettings) (phone code ip : string) tr r
    (Hexec : exec (loginWithPhone cfg phone code ip) tr r)
    (Haccess : reaches_access tr r) :
  exists tr', tr = code_checked cfg phone code ip ++ tr'.
Proof.
  unfold loginWithPhone in Hexec.
  apply access_await in Hexec as ([] & tr1 & -> & Hexec & Ha1); [|done..].
  apply access_await in Hexec as ([] & tr2 & -> & Hexec & Ha2); [|done..].
  unfold code_checked, isCodeValid in *. destruct (isPhoneAndCodeValid _ code phone); [by eexists|].
  apply access_await in Hexec as ([] & tr3 & -> & _ & _); [|done..]. by eexists.
Qed.

(** ** The limits and the codes *)

Section World.
Context {S C : Type} `{Limiter S} {limiter_laws : LimiterLaws S}
  `{Collection C PhoneCodesRepo.RawPhoneCode} {code_laws : CollectionLaws C PhoneCodesRepo.RawPhoneCode}
  (castNumber : string -> db Z) (limits : RateLimitSettings).

(** The counters, the stored codes, the time in milliseconds, the texts sent, and what
    happened for each phone: attempts let through, attempts given back and codes refused. *)
Record login_world : Type := mkLogin {
  lg_limits : S;
  lg_codes : C;
  lg_time : Z;
  lg_texts : list (string * string);
  lg_grants : list string;
  lg_returns : list string;
  lg_refusals : list string
}.

Definition granted_to (ev : happening acall) : list string :=
  match ev with
  | Ev c x =>
      match c in acall X return X -> list string with
      | Base c =>
          match c in call X return X -> list string with
          | ConsumeLimiter failedLoginAttemptPerPhone phone => fun x => if is_ok x then [phone] else []
          | _ => fun _ => []
          end
      | _ => fun _ => []
      end x
  end.
Definition returned_to (ev : happening acall) : list string :=
  match ev with
  | Ev c _ => match c with LimiterReward failedLoginAttemptPerPhone phone => [phone] | _ => [] end
  end.
Definition refused_to (ev : happening acall) : list string :=
  match ev with
  | Ev c x =>
      match c in acall X return X -> list string with
      | PhoneCodeExistNewerThan phone _ _ => fun x => if is_ok x then [] else [phone]
      | _ => fun _ => []
      end x
  end.
Definition texts_of (ev : happening acall) : list (string * string) :=
  match ev with
  | Ev c _ => match c with SendText to body => [(to, body)] | _ => [] end
  end.

(** The limiter and the repository answer; the time does not go back. *)
Definition answered (X : Type) (c : acall X) (w : login_world) : X -> S -> C -> Prop :=
  match c in acall X return X -> S -> C -> Prop with
  | Base c =>
      match c in call X return X -> S -> C -> Prop with
      | ConsumeLimiter n key => fun x s' c' =>
          (x, s') = consumeLimiter (RateLimitConfig limits n) key (lg_limits w) /\ c' = lg_codes w
      | _ => fun _ s' c' => s' = lg_limits w /\ c' = lg_codes w
      end
  | LimiterReward n key => fun x s' c' =>
      (x, s') = reward (RateLimitPrefix n) key (lg_limits w) /\ c' = lg_codes w
  | PhoneCodeExistNewerThan phone code age => fun x s' c' =>
      s' = lg_limits w /\
      (x, c') = PhoneCodesRepo.existNewerThan castNumber (lg_time w) phone code age (lg_codes w)
  | PhoneCodePersistNew phone code => fun x s' c' =>
      s' = lg_limits w /\
      (x, c') = PhoneCodesRepo.code_persistNew castNumber (lg_time w) phone code (lg_codes w)
  | RandomInt min max => fun x s' c' => (min < max -> min <= x < max) /\ s' = lg_limits w /\ c' = lg_codes w
  | _ => fun _ s' c' => s' = lg_limits w /\ c' = lg_codes w
  end.

Definition login_ans (X : Type) (c : acall X) (w : login_world) (x : X) (w' : login_world) : Prop :=
  answered X c w x (lg_limits w') (lg_codes w') /\ lg_time w <= lg_time w' /\
  lg_texts w' = texts_of (Ev c x) ++ lg_texts w /\
  lg_grants w' = granted_to (Ev c x) ++ lg_grants w /\
  lg_returns w' = returned_to (Ev c x) ++ lg_returns w /\
  lg_refusals w' = refused_to (Ev c x) ++ lg_refusals w.

Definition count (phone : string) (l : list string) : nat := length (List.filter (String.eqb phone) l).

Lemma count_plus p l1 l2 : count p (l1 ++ l2) = (count p l1 + count p l2)%nat.
Proof. unfold count. by rewrite List.filter_app, length_app. Qed.
Lemma count_same p : count p [p] = 1%nat.
Proof. unfold count. simpl. by rewrite String.eqb_refl. Qed.
Lemma count_other p q : p <> q -> count p [q] = 0%nat.
Proof. intros Hn. unfold count. simpl. by destruct (String.eqb_spec p q). Qed.

(** *** Attempts per phone *)

Definition attempt_gain (p : string) (ev : happening acall) : nat := count p (granted_to ev).
Definition attempt_cost (p : string) (ev : happening acall) : nat :=
  (count p (refused_to ev) + count p (returned_to ev))%nat.
Definition attempt := own_budget attempt_gain attempt_cost.

(** A call that is about no attempt. *)
Definition no_attempt {X} (c : acall X) : Prop :=
  forall x, granted_to (Ev c x) = [] /\ refused_to (Ev c x) = [] /\ returned_to (Ev c x) = [].
Fixpoint idle {A} (p : aprog A) : Prop :=
  match p with Ret _ => True | Call c k => no_attempt c /\ forall x, idle (k x) end.

Lemma idle_bind {A B} (p : aprog A) (k : A -> aprog B) :
  idle p -> (forall a, idle (k a)) -> idle (pbind p k).
Proof. induction p as [a|X c f IH]; simpl; [auto|]. intros [Hc Hf] Hk. split; auto. Qed.

Lemma idle_await {A B} (p : aprog (result A)) (k : A -> aprog (result B)) :
  idle p -> (forall a, idle (k a)) -> idle (rpbind p k).
Proof. intros Hp Hk. apply idle_bind; [done|]. intros [a|e|e]; [apply Hk|done..]. Qed.

Lemma idle_follows {A} (p : aprog A) phone n : idle p ->
  follows (attempt phone) p n (fun _ _ => True).
Proof.
  revert n. induction p as [a|X c k IH]; intros n; simpl; [done|]. intros [Hc Hk] x. exists n.
  destruct (Hc x) as (Hg & Hr & Ht). unfold attempt, own_budget, own, budget, attempt_gain, attempt_cost.
  rewrite Hg, Hr, Ht. split; [by split|by apply IH].
Qed.

Lemma create_wallets_idle id l : forall en, idle (create_wallets id l en).
Proof. induction l as [|c l IH]; intros en; simpl; [done|]. split; [done|]. by intros [a|e|e]; [apply IH|..]. Qed.

Lemma createWithPhone_idle ta k p m l : idle (createAccountWithPhoneIdentifier ta k p m l).
Proof.
  unfold createAccountWithPhoneIdentifier. apply idle_bind.
  - destruct m; [done|]. destruct (str_truthy _); [|done]. split; [done|]. by intros [a|e|e].
  - intros r. apply idle_await; [done|]. intros m'. apply idle_await; [by split|]. intros a.
    unfold initializeCreatedAccount. apply idle_await; [apply create_wallets_idle|].
    intros en. destruct (default_wallet l en); [by split|done].
Qed.

Lemma session_idle cfg phone : idle (phone_session cfg phone).
Proof.
  split; [done|]. intros [x|e|e]; [done| |done]. cbn [pbind].
  destruct (is_a e LikelyNoUserWithThisPhoneExistError); [|done].
  apply idle_await; [by split|]. intros ses. split; [done|]. intros [u|e'|e']; [| |done].
  - apply idle_await; [by split|]. intros a. split; [done|]. by intros [b|e1|e1].
  - cbn [pbind]. destruct (is_a e' CouldNotFindUserFromPhoneError); [|done].
    apply idle_await; [apply createWithPhone_idle|done].
Qed.

(** What the calls of an attempt do to its budget. *)
Definition about (phone : string) (l : list string) (n : nat) : Prop :=
  (l = [] /\ n = 0%nat) \/ (l = [phone] /\ n = 1%nat).

Lemma about_count phone l n : about phone l n -> count phone l = n /\ forall p, p <> phone -> count p l = 0%nat.
Proof.
  intros [[-> ->]|[-> ->]]; [done|]. rewrite count_same. split; [done|]. intros p Hp. by apply count_other.
Qed.

Lemma attempt_call {X} phone (c : acall X) x n g r t :
  about phone (granted_to (Ev c x)) g -> about phone (refused_to (Ev c x)) r ->
  about phone (returned_to (Ev c x)) t -> (r + t <= n + g)%nat ->
  attempt phone n (Ev c x) (n + g - (r + t))%nat.
Proof.
  intros [Hg Hg']%about_count [Hr Hr']%about_count [Ht Ht']%about_count Hle. split.
  - intros p Hp. unfold attempt_gain, attempt_cost. by rewrite Hg', Hr', Ht'.
  - unfold budget, attempt_gain, attempt_cost. rewrite Hg, Hr, Ht. lia.
Qed.

(** One call of an attempt, and the rest of it. *)
Lemma attempt_next {X A} phone (c : acall X) (k : X -> aprog A) n (g r t : X -> nat) out :
  (forall x, about phone (granted_to (Ev c x)) (g x)) -> (forall x, about phone (refused_to (Ev c x)) (r x)) ->
  (forall x, about phone (returned_to (Ev c x)) (t x)) -> (forall x, (r x + t x <= n + g x)%nat) ->
  (forall x, follows (attempt phone) (k x) (n + g x - (r x + t x))%nat out) ->
  follows (attempt phone) (Call c k) n out.
Proof. intros Hg Hr Ht Hle Hk x. eexists. split; [by apply attempt_call|apply Hk]. Qed.

(** An attempt gives back what it was granted, or loses it with a wrong code. *)
Lemma login_attempt cfg phone code ip :
  follows (attempt phone) (loginWithPhone cfg phone code ip) 0%nat (fun _ _ => True).
Proof.
  assert (Hno : about phone [] 0) by by left. assert (Hyes : about phone [phone] 1) by by right.
  unfold loginWithPhone. apply (attempt_next phone _ _ _ (fun _ => 0%nat) (fun _ => 0%nat) (fun _ => 0%nat)); [done..|simpl; lia|].
  intros [[]|e|e]; [|done..].
  apply (attempt_next phone _ _ _ (fun x => if is_ok x then 1%nat else 0%nat) (fun _ => 0%nat) (fun _ => 0%nat)); [|done..|simpl; lia|].
  { by intros [[]|e|e]. }
  intros [[]|e|e]; [|done..]. cbn. apply follows_bind with (mid := fun n r => is_ok r = true -> n = 1%nat).
  - unfold isCodeValid. destruct (isPhoneAndCodeValid _ _ _); [done|].
    apply (attempt_next phone _ _ _ (fun _ => 0%nat) (fun x => if is_ok x then 0%nat else 1%nat) (fun _ => 0%nat)); [done| |done|..].
    + by intros [[]|e|e].
    + intros [[]|e|e]; cbn; lia.
    + by intros [[]|e|e].
  - intros n [[]|e|e] Hn; [|done..]. rewrite (Hn eq_refl).
    assert (Hend : follows (attempt phone) (and_then (do_call (LimiterReward failedLoginAttemptPerPhone phone))
      (phone_session cfg phone)) 1%nat (fun _ _ => True)).
    { apply (attempt_next phone _ _ _ (fun _ => 0%nat) (fun _ => 0%nat) (fun _ => 1%nat)); [done..|simpl; lia|].
      intros [u|e|e]; [apply idle_follows, session_idle..|done]. }
    apply (attempt_next phone _ _ _ (fun _ => 0%nat) (fun _ => 0%nat) (fun _ => 0%nat)); [done..|simpl; lia|].
    by intros [u|e|e].
Qed.


(** *** Attempts let through *)

Definition phone_used (w : login_world) (p : string) : Z :=
  lim_used (lg_limits w) (RateLimitPrefix failedLoginAttemptPerPhone) p.
Definition phone_points : Z := points (loginPerPhone limits).
Definition outstanding (w : login_world) (p : string) : Z :=
  Z.of_nat (count p (lg_grants w)) - Z.of_nat (count p (lg_returns w)).
Definition counted (w : login_world) : Prop := forall p,
  outstanding w p <= phone_used w p /\ outstanding w p <= phone_points.

Lemma prefix_injective n : RateLimitPrefix n = RateLimitPrefix failedLoginAttemptPerPhone ->
  n = failedLoginAttemptPerPhone.
Proof. by destruct n. Qed.

Lemma consumed_used n key s x s' : (x, s') = consumeLimiter (RateLimitConfig limits n) key s ->
  (exists b, lim_consume (rl_limits (RateLimitConfig limits n)) (RateLimitPrefix n) key s = (b, s') /\
     is_ok x = b).
Proof.
  unfold consumeLimiter, consume.
  assert (rl_key (RateLimitConfig limits n) = RateLimitPrefix n) as -> by by destruct n.
  destruct (lim_consume _ _ _ _) as [[] s1]; intros [= -> ->]; by eexists.
Qed.

Lemma rewarded_used n key s x s' : (x, s') = reward (RateLimitPrefix n) key s ->
  exists b, lim_reward (RateLimitPrefix n) key s = (b, s').
Proof. unfold reward. destruct (lim_reward _ _ _) as [[] s1]; intros [= _ ->]; by eexists. Qed.

Lemma counted_logs w w' X (c : acall X) x : login_ans X c w x w' -> forall p,
  outstanding w' p = outstanding w p + Z.of_nat (count p (granted_to (Ev c x)))
                     - Z.of_nat (count p (returned_to (Ev c x))).
Proof. intros (_ & _ & _ & Hg & Hr & _) p. unfold outstanding. rewrite Hg, Hr, !count_plus. lia. Qed.

Lemma counted_consume w w' n key x : counted w ->
  login_ans _ (Base (ConsumeLimiter n key)) w x w' -> counted w'.
Proof.
  intros Hw Ha p. pose proof (counted_logs _ _ _ _ _ Ha p) as Ho. destruct Ha as [[Hx _] _].
  apply consumed_used in Hx as (b & Hc & Hb). destruct (Hw p) as [H1 H2]. unfold phone_used in *.
  destruct (decide ((RateLimitPrefix failedLoginAttemptPerPhone, p) = (RateLimitPrefix n, key))) as [He|He].
  - injection He as Hn <-. symmetry in Hn. apply prefix_injective in Hn as ->.
    simpl in Ho. rewrite Hb in Ho. destruct b.
    + apply consume_resolved in Hc as [Hlt Hs]. rewrite count_same in Ho. simpl in *.
      unfold phone_points in *. lia.
    + apply consume_rejected in Hc. simpl in *. lia.
  - rewrite (consume_other _ _ _ _ _ _ _ _ Hc He).
    assert (Hz : count p (granted_to (Ev (Base (ConsumeLimiter n key)) x)) = 0%nat).
    { simpl. destruct n; try done. destruct (is_ok x); [|done]. apply count_other. congruence. }
    simpl (returned_to _) in Ho. rewrite Hz in Ho. unfold count in Ho. simpl in Ho. lia.
Qed.

Lemma counted_reward w w' n key x : counted w ->
  login_ans _ (LimiterReward n key) w x w' -> counted w'.
Proof.
  intros Hw Ha p. pose proof (counted_logs _ _ _ _ _ Ha p) as Ho. destruct Ha as [[Hx _] _].
  apply rewarded_used in Hx as (b & Hc). destruct (Hw p) as [H1 H2]. unfold phone_used in *.
  destruct (decide ((RateLimitPrefix failedLoginAttemptPerPhone, p) = (RateLimitPrefix n, key))) as [He|He].
  - injection He as Hn <-. symmetry in Hn. apply prefix_injective in Hn as ->.
    apply reward_used in Hc. simpl in Ho. rewrite count_same in Ho. unfold count in Ho. simpl in *. lia.
  - rewrite (reward_other _ _ _ _ _ _ _ Hc He).
    assert (Hz : count p (returned_to (Ev (LimiterReward n key) x)) = 0%nat).
    { simpl. destruct n; try done. apply count_other. congruence. }
    rewrite Hz in Ho. unfold count in Ho. simpl in Ho. lia.
Qed.

Lemma counted_other w w' X (c : acall X) x : counted w -> login_ans X c w x w' ->
  granted_to (Ev c x) = [] -> returned_to (Ev c x) = [] -> lg_limits w' = lg_limits w -> counted w'.
Proof.
  intros Hw Ha Hg Hr Hl p. pose proof (counted_logs _ _ _ _ _ Ha p) as Ho. rewrite Hg, Hr in Ho.
  unfold phone_used. rewrite Hl. destruct (Hw p). unfold phone_used, count in *. simpl in Ho. lia.
Qed.

Lemma counted_step X (c : acall X) w x w' : counted w -> login_ans X c w x w' -> counted w'.
Proof.
  intros Hw Ha. destruct c;
    try (eapply counted_other; [exact Hw|exact Ha|done|done|]; destruct Ha as [Ha _]; simpl in Ha; by intuition).
  - destruct c; try (eapply counted_other; [exact Hw|exact Ha|done|done|]; by destruct Ha as [[Ha _] _]).
    by eapply counted_consume.
  - by eapply counted_reward.
Qed.


Definition login_start (s : S) (c : C) (now : Z) : login_world := mkLogin s c now [] [] [] [].

Record login_request : Type := mkLoginRequest { lr_phone : string; lr_code : string; lr_ip : string }.
Definition login_job (cfg : LoginSettings) (r : login_request) : aprog (result string) :=
  loginWithPhone cfg (lr_phone r) (lr_code r) (lr_ip r).

Lemma attempts_logged ev w w' : ev_ans login_ans ev w w' -> forall p,
  count p (lg_grants w') = (count p (lg_grants w) + attempt_gain p ev)%nat /\
  (count p (lg_refusals w') + count p (lg_returns w') =
   count p (lg_refusals w) + count p (lg_returns w) + attempt_cost p ev)%nat.
Proof.
  destruct ev as [X c x]. intros (_ & _ & _ & Hg & Hr & Hf) p. unfold attempt_gain, attempt_cost.
  rewrite Hg, Hr, Hf, !count_plus. lia.
Qed.

(** C28. However sign-ins are interleaved by workers that share the limits and the
    codes, no more wrong codes are tried for a phone than the points of its limit,
    as long as the window of the limit has not ended. *)
Theorem wrong_codes_bounded (cfg : LoginSettings) (requests : list login_request) (n : nat)
    (s : S) (c : C) (now : Z) cf
    (Hpoints : 0 <= phone_points)
    (Hused : forall p, 0 <= lim_used s (RateLimitPrefix failedLoginAttemptPerPhone) p)
    (Hruns : rtc (wstep login_ans (login_job cfg)) (runInParallel requests n (login_start s c now)) cf)
    (phone : string) :
  Z.of_nat (count phone (lg_refusals (world cf))) <= phone_points.
Proof.
  pose proof (rights_respected lr_phone login_ans (login_job cfg) attempt_gain attempt_cost
    (fun w p => count p (lg_grants w)) (fun w p => count p (lg_refusals w) + count p (lg_returns w))%nat
    attempts_logged (fun r => login_attempt cfg _ _ _) requests n (login_start s c now) cf
    (fun j => Nat.le_refl _) Hruns phone) as Hle. simpl in Hle.
  assert (Hc : counted (world cf)).
  { refine (world_invariant login_ans (login_job cfg) counted requests n _ cf counted_step _ Hruns).
    intros p. split; [apply Hused|apply Hpoints]. }
  destruct (Hc phone) as [_ Hb]. unfold outstanding in Hb. lia.
Qed.

(** *** A code that was sent is accepted *)

(** The number that the package makes of a code written by [String]. *)
Context (Hcast : forall z : Z, 0 <= z -> castNumber (pretty z) = Done z).

Lemma stored_code_found now now' phone (z : Z) age c c' x : 0 <= z ->
  (x, c') = PhoneCodesRepo.code_persistNew castNumber now phone (pretty z) c -> is_ok x = true ->
  now' <= now + age * 1000 -> forall c2, coll_docs c' ⊆ coll_docs c2 ->
  forall e, fst (PhoneCodesRepo.existNewerThan castNumber now' phone (pretty z) age c2) = Er e ->
  is_a e CouldNotFindPhoneCodeError = false.
Proof.
  intros Hz. unfold PhoneCodesRepo.code_persistNew, PhoneCodesRepo.existNewerThan.
  rewrite Hcast by done.
  destruct (coll_save _ _) as [c1|m] eqn:Hs; intros [= -> ->]; [intros _|done].
  intros Hnow c2 Hsub e. apply save_adds in Hs.
  destruct (coll_findOne c2 _) as [[d|]|m] eqn:Hf; [done| |].
  - exfalso. pose proof (findOne_none _ _ Hf (PhoneCodesRepo.mkRawPhoneCode phone z now)) as Hn.
    simpl in Hn. rewrite String.eqb_refl, Z.eqb_refl in Hn. simpl in Hn.
    assert (Hle : (now' - age * 1000 <=? now) = true) by (apply Z.leb_le; lia).
    rewrite Hle in Hn. discriminate Hn. apply list_elem_of_In, Hsub. rewrite Hs.
    apply elem_of_app. right. by left.
  - intros [= <-]. unfold parseRepositoryError. by repeat case_match.
Qed.

(** The world after a request answered [true]: a text was sent with a code of six
    digits, and the check of that code finds it for twenty minutes. *)
Definition code_sent (cfg : LoginSettings) (phone : string) (w w' : login_world) : Prop :=
  exists z : Z, 100000 <= z < 999999 /\ lg_texts w' = (phone, code_text cfg (pretty z)) :: lg_texts w /\
    forall w2 : login_world, coll_docs (lg_codes w') ⊆ coll_docs (lg_codes w2) ->
      lg_time w2 <= lg_time w + MAX_AGE_TIME_CODE * 1000 ->
      always login_ans (isCodeValid cfg (pretty z) phone MAX_AGE_TIME_CODE) w2 (fun r _ =>
        forall e, r = Er e -> is_a e CouldNotFindPhoneCodeError = false).

(** C29. When requestPhoneCode succeeds for a phone that is not of a test account, a
    text with a code of six digits was sent to the phone, and the check of that code
    does not answer that there is no such code for the next twenty minutes. *)
Theorem sent_code_is_accepted (cfg : LoginSettings) (phone ip : string) (w : login_world)
    (Hreal : isPhoneValid (login_testAccounts cfg) phone = false) :
  always login_ans (requestPhoneCode cfg phone ip) w (fun r w' => r = Ok tt -> code_sent cfg phone w w').
Proof.
  unfold requestPhoneCode. rewrite Hreal. simpl.
  intros [[]|e|e] w1 (_ & Ht1 & Hx1 & _); [|done..]. simpl.
  intros [[]|e|e] w2 (_ & Ht2 & Hx2 & _); [|done..]. simpl.
  intros [[]|e|e] w3 (_ & Ht3 & Hx3 & _); [|done..]. simpl.
  intros z w4 ((Hz & _) & Ht4 & Hx4 & _). specialize (Hz ltac:(lia)).
  intros [[]|e|e] w5 ((_ & Hp) & Ht5 & Hx5 & _); [|done..]. simpl.
  intros r w6 ((_ & Hc6) & Ht6 & Hx6 & _) _. simpl in *. exists z. split; [done|]. split; [congruence|].
  intros w' Hsub Htime. unfold isCodeValid.
  destruct (isPhoneAndCodeValid _ _ _); [by intros e|]. intros x w7 ((_ & Hx) & _). simpl. intros e ->.
  refine (stored_code_found (lg_time w4) (lg_time w') phone z MAX_AGE_TIME_CODE _ _ _ _ Hp eq_refl _ (lg_codes w') _ e _).
  - lia.
  - lia.
  - by rewrite <- Hc6.
  - by rewrite <- Hx.
Qed.

End World.

(** ** Witnesses *)

(** The number written by decimal digits. *)
Fixpoint decimal (s : string) (acc : N) : option N :=
  match s with
  | EmptyString => Some acc
  | String c s =>
      let d := Ascii.N_of_ascii c in
      if (48 <=? d)%N && (d <=? 57)%N then decimal s (acc * 10 + (d - 48))%N else None
  end.
Definition cast_decimal (s : string) : db Z :=
  match decimal s 0 with Some n => Done (Z.of_N n) | None => Rejected "Cast to Number failed" end.

Lemma decimal_digit d s acc : (d < 10)%N ->
  decimal (String (pretty_N_char d) s) acc = decimal s (acc * 10 + d)%N.
Proof.
  intros Hd. assert (Hc : d = 0%N \/ d = 1%N \/ d = 2%N \/ d = 3%N \/ d = 4%N \/ d = 5%N \/ d = 6%N \/
    d = 7%N \/ d = 8%N \/ d = 9%N) by lia.
  by repeat (destruct Hc as [->|Hc]; [done|]); subst.
Qed.

Lemma decimal_go x : forall s, decimal (pretty_N_go x s) 0 = decimal s x.
Proof.
  induction (N.lt_wf_0 x) as [x _ IH]. intros s. destruct (decide (x = 0%N)) as [->|Hx].
  - by rewrite pretty_N_go_0.
  - rewrite pretty_N_go_step by lia. rewrite IH by (apply N.div_lt; lia).
    rewrite decimal_digit by (apply N.mod_lt; lia). f_equal.
    pose proof (N.div_mod x 10). lia.
Qed.

Lemma cast_pretty (z : Z) : 0 <= z -> cast_decimal (pretty z) = Done z.
Proof.
  intros Hz. assert (Hp : pretty z = pretty (Z.to_N z)) by by destruct z.
  unfold cast_decimal. rewrite Hp. unfold pretty, pretty_N. case_decide as H0.
  - simpl. f_equal. lia.
  - rewrite decimal_go. simpl. f_equal. lia.
Qed.

Definition sample_limit : LimitOptions := mkLimitOptions 2 60 60.
Definition sample_limits : RateLimitSettings :=
  mkRateLimits sample_limit sample_limit sample_limit sample_limit sample_limit
    (mkLimitOptions 10 60 60) sample_limit sample_limit sample_limit.
Definition sample_login : LoginSettings := mkLoginSettings "Galoy" [] [Btc] true false.
Definition codes : Type := list PhoneCodesRepo.RawPhoneCode.
Definition sample_world : Type := @login_world counters codes.

Definition plain_answer (X : Type) (c : acall X) : X :=
  match c in acall X return X with
  | Base c => failing_env _ c
  | RandomInt min _ => min
  | Now => 0
  | KratosLogin phone => Ok (mkKratosSession "token" phone)
  | GeetestValidate _ _ _ | SendText _ _ => Ok tt
  | _ => Er (new UnknownRepositoryError)
  end.

(** The answers of the services, with their counters and codes. *)
Definition service_answer (X : Type) (c : acall X) (w : sample_world) : X * counters * codes :=
  match c in acall X return X * counters * codes with
  | Base c =>
      match c in call X return X * counters * codes with
      | ConsumeLimiter n key =>
          let '(x, s) := consumeLimiter (RateLimitConfig sample_limits n) key (lg_limits w) in
          (x, s, lg_codes w)
      | c => (failing_env _ c, lg_limits w, lg_codes w)
      end
  | LimiterReward n key =>
      let '(x, s) := reward (RateLimitPrefix n) key (lg_limits w) in (x, s, lg_codes w)
  | PhoneCodeExistNewerThan phone code age =>
      let '(x, c) := PhoneCodesRepo.existNewerThan cast_decimal (lg_time w) phone code age (lg_codes w) in
      (x, lg_limits w, c)
  | PhoneCodePersistNew phone code =>
      let '(x, c) := PhoneCodesRepo.code_persistNew cast_decimal (lg_time w) phone code (lg_codes w) in
      (x, lg_limits w, c)
  | c => (plain_answer _ c, lg_limits w, lg_codes w)
  end.

Definition login_answer (X : Type) (c : acall X) (w : sample_world) : X * sample_world :=
  let '(x, s, d) := service_answer X c w in
  (x, mkLogin s d (lg_time w + 1) (texts_of (Ev c x) ++ lg_texts w) (granted_to (Ev c x) ++ lg_grants w)
        (returned_to (Ev c x) ++ lg_returns w) (refused_to (Ev c x) ++ lg_refusals w)).

Lemma login_answers X c w :
  login_ans cast_decimal sample_limits X c w (fst (login_answer X c w)) (snd (login_answer X c w)).
Proof.
  assert (Hlog : forall x s d, answered cast_decimal sample_limits X c w x s d ->
    service_answer X c w = (x, s, d) ->
    login_ans cast_decimal sample_limits X c w (fst (login_answer X c w)) (snd (login_answer X c w))).
  { intros x s d Ha Hs. unfold login_answer. rewrite Hs. split_and!; simpl; try done. lia. }
  destruct (service_answer X c w) as [[x s] d] eqn:Hs. apply (Hlog x s d); [|done]. revert Hs. clear Hlog.
  destruct c; try (by intros [= <- <- <-]).
  - destruct c; try (by intros [= <- <- <-]). simpl.
    by destruct (consumeLimiter _ _ _) as [y s1]; intros [= <- <- <-].
  - simpl. by destruct (PhoneCodesRepo.existNewerThan _ _ _ _ _ _) as [y s1]; intros [= <- <- <-].
  - simpl. by destruct (PhoneCodesRepo.code_persistNew _ _ _ _ _) as [y s1]; intros [= <- <- <-].
Qed.

(** Three guesses at the same time, with two points. *)
Definition guesses : list login_request :=
  [mkLoginRequest "+50370000000" "111111" "1.1.1.1"; mkLoginRequest "+50370000000" "222222" "2.2.2.2";
   mkLoginRequest "+50370000000" "333333" "3.3.3.3"].
Definition guess_start : sample_world :=
  login_start [] [PhoneCodesRepo.mkRawPhoneCode "+50370000000" 444444 0] 0.
Definition guess_run : @config acall sample_world login_request string :=
  runInParallel guesses 3 guess_start.
Definition guess_order : list nat :=
  concat (replicate 3 [0; 1; 2]%nat) ++ [0; 1]%nat ++ [0; 1; 2]%nat.
Definition guess_end :=
  default guess_run (scheduled login_answer (login_job sample_login) guess_order guess_run).

Lemma wrong_codes_bounded_witness :
  processed guess_end = guesses /\
  Z.of_nat (count "+50370000000" (lg_refusals (world guess_end))) <= 2.
Proof.
  split; [vm_compute; reflexivity|].
  apply (wrong_codes_bounded cast_decimal sample_limits sample_login guesses 3 []
    [PhoneCodesRepo.mkRawPhoneCode "+50370000000" 444444 0] 0 guess_end); [done|done|].
  apply (scheduled_runs login_answer _ _ guess_order); [exact login_answers|vm_compute; reflexivity].
Defined.

(** A request for a code, then the sign-in with it. *)
Definition granting_env (X : Type) (c : acall X) : X :=
  match c in acall X return X with
  | Base c =>
      match c in call X return X with
      | ConsumeLimiter _ _ => Ok tt
      | c => failing_env _ c
      end
  | PhoneCodeExistNewerThan _ _ _ => Ok tt
  | c => plain_answer _ c
  end.

Lemma login_needs_code_witness :
  exists tr', fst (run granting_env (loginWithPhone sample_login "+50370000000" "444444" "1.1.1.1")) =
    code_checked sample_login "+50370000000" "444444" "1.1.1.1" ++ tr'.
Proof.
  apply (login_needs_code sample_login "+50370000000" "444444" "1.1.1.1" _ _
    (run_exec granting_env (loginWithPhone sample_login "+50370000000" "444444" "1.1.1.1"))).
  left. vm_compute. reflexivity.
Defined.

Lemma sent_code_is_accepted_witness :
  always (login_ans cast_decimal sample_limits) (requestPhoneCode sample_login "+50370000000" "1.1.1.1")
    guess_start (fun r w' => r = Ok tt -> code_sent cast_decimal sample_limits sample_login "+50370000000" guess_start w').
Proof.
  apply (sent_code_is_accepted cast_decimal sample_limits cast_pretty sample_login "+50370000000" "1.1.1.1"
    guess_start). reflexivity.
Defined.

(** The first random number is the code that the text has. *)
Example code_is_sent :
  (let start : sample_world := login_start [] [] 0 in
   let job (_ : nat) := requestPhoneCode sample_login "+50370000000" "1.1.1.1" in
   match scheduled login_answer job (replicate 8 0%nat) (runInParallel [0%nat] 1 start) with
   | Some cf => lg_texts (world cf)
   | None => []
   end) = [("+50370000000", "100000 is your verification code for Galoy")].
Proof. vm_compute. reflexivity. Qed.

End LoginSpec.
