(* ===== verification/EndToEnd.v ===== *)
(** * Payments on the ledger

    The payment handlers of [Payments] run against the ledger of [Facade] and
    [LedgerService] instead of arbitrary answers: calls of the ledger are answered by
    the functions that model it, on a book that other handlers change in between.  What
    the others may do is the relation [rely]: the lock of the wallet keeps them from
    debiting it, and the book only grows.  Under it no payment overdraws a wallet. *)

From S2P Require Import Prelude JsNum Errors Money Ledger PaymentFlow Validation Accounts TxMetadata Facade LedgerService LedgerWrites LedgerWritesSpec Programs Effects Payments PaymentsSpec.
Import AmountCalculator PriceRatio EntryBuilderSpec FacadeSpec QuerySpec.
#[local] Open Scope string_scope.
#[local] Open Scope Z_scope.
#[local] Open Scope list_scope.

Section OnLedger.
Context {S E : Type} `{MediciQueries S E} `{!MediciJournals S E}.

(** ** Answers of the ledger *)

Definition rmap {A B} (g : A -> B) (r : result A) : result B :=
  match r with Ok a => Ok (g a) | Er e => Er e | Throw e => Throw e end.

Definition ledger_answer {X} (c : call X) (st : LedgerState S) : option (X * LedgerState S) :=
  match c in call X return option (X * LedgerState S) with
  | FacadeRecordSend d w total fee m => Some (recordSend (E := E) d w total fee m st)
  | FacadeRecordReceive d w amt fee m h pre => Some (recordReceive (E := E) d w amt fee m h pre st)
  | FacadeRecordIntraledger d s r amt m md => Some (recordIntraledger (E := E) d s r amt m md st)
  | FacadeSettlePendingLnSend h => Some (settlePendingLnSend (E := E) h st)
  | FacadeRecordLnSendRevert j h => Some (recordLnSendRevert (E := E) j h st)
  | LedgerWalletBalance w => Some (getWalletBalanceAmount (E := E) w st)
  | LedgerIsLnTxRecorded h => Some (isLnTxRecorded (E := E) (ls_book st) h, st)
  | LedgerTransactionsByHash h =>
      Some (getTransactionsByHash (E := E) (ls_book st) h, st)
  | LedgerPendingPaymentsCount id =>
      Some (getPendingPaymentsCount (E := E) (ls_book st) id, st)
  | LedgerListPendingPayments id => Some (listPendingPayments (E := E) (ls_book st) id, st)
  | LedgerNonEndUserWalletIds =>
      let '(r, c) := Caching.getNonEndUserWalletIds (ls_cache st) in
      Some (rmap (fun ids => let '(a, b, c, d) := ids in [a; b; c; d]) r,
            mkState (ls_book st) c (ls_requests st))
  | LedgerSettlePendingLnPayment h => Some (settlePendingLnPayment (E := E) h st)
  | LedgerRevertLightningPayment j h => Some (revertLightningPayment (E := E) j h st)
  | LedgerVolumeSince g w ts =>
      Some (rmap (fun v => mkVolumeAmount (fst v) (snd v))
              (volumeAmountFn (E := E) (ls_book st) g w ts), st)
  | LedgerTxVolumeSince g id ts =>
      Some (rmap (fun v => mkVolume (fst v) (snd v)) (txVolumeSince (E := E) (ls_book st) g id ts), st)
  | LedgerBalance id => Some (getWalletBalance (E := E) id st)
  | LedgerIsOnChainTxRecorded id h => Some (isOnChainTxRecorded (E := E) (ls_book st) id h, st)
  | LedgerIsToHotWalletTxRecorded h => Some (isToHotWalletTxRecorded (E := E) (ls_book st) h, st)
  | LedgerAddOnChainTxSend a => Some (addOnChainTxSend (E := E) a st)
  | LedgerSetOnChainTxSendHash j h => Some (setOnChainTxSendHash (E := E) j h st)
  | LedgerRevertOnChainPayment j => Some (revertOnChainPayment (E := E) j "Protocol error" st)
  | LedgerAddOnChainIntraledger a display payees sendAll =>
      Some (addOnChainIntraledgerTxTransfer (E := E) a display payees sendAll st)
  | LedgerAddOnChainTxReceive a => Some (addOnChainTxReceive (E := E) a st)
  | LedgerAddColdStorageTxSend a => Some (addColdStorageTxSend (E := E) a st)
  | _ => None
  end.

(** The node charges a fee that is no negative number. *)
Definition sane {X} (c : call X) : X -> Prop :=
  match c in call X return X -> Prop with
  | LndPayViaRoutes _ _ _ => fun r =>
      forall res, r = Ok res -> exists z, roundedUpFee res = num z /\ 0 <= z
  | LndPayViaPaymentDetails _ _ _ => fun r =>
      forall res, r = Ok res -> exists z, roundedUpFee res = num z /\ 0 <= z
  | _ => fun _ => True
  end.

Definition answers {X} (c : call X) (st : LedgerState S) (x : X) (st' : LedgerState S) : Prop :=
  match ledger_answer c st with
  | Some r => r = (x, st')
  | None => st' = st /\ sane c x
  end.

Definition ev_answers (ev : event) (st st' : LedgerState S) : Prop :=
  match ev with Ev c x => answers c st x st' end.

(** ** Executions on the ledger, other handlers acting before each call and at the end *)

Section Executions.
Context (rely : LedgerState S -> LedgerState S -> Prop).

Inductive lexec {A} : LedgerState S -> prog A -> list event -> A -> LedgerState S -> Prop :=
| lx_ret st st' a : rely st st' -> lexec st (Ret a) [] a st'
| lx_call {X} st st0 (c : call X) x st1 k tr a st' :
    rely st st0 -> answers c st0 x st1 -> lexec st1 (k x) tr a st' ->
    lexec st (Call c k) (Ev c x :: tr) a st'.

(** Such an execution is one of the program. *)
Lemma lexec_exec {A} st (p : prog A) tr a st' : lexec st p tr a st' -> exec p tr a.
Proof. induction 1; by constructor. Qed.

(** The execution with the answers of an environment, alone on the book, and the
    states in which it makes its calls. *)
Definition answer_of (env : forall X, call X -> X) {X} (c : call X) (st : LedgerState S)
    : X * LedgerState S :=
  match ledger_answer c st with Some r => r | None => (env X c, st) end.

Fixpoint lrun {A} (env : forall X, call X -> X) (p : prog A) (st : LedgerState S)
    : list event * A * LedgerState S :=
  match p with
  | Ret a => ([], a, st)
  | @Call _ _ X c k =>
      let '(x, st1) := answer_of env c st in
      let '(tr, a, st2) := lrun env (k x) st1 in (Ev c x :: tr, a, st2)
  end.

Fixpoint lstates {A} (env : forall X, call X -> X) (p : prog A) (st : LedgerState S)
    : list (LedgerState S) :=
  st :: match p with
        | Ret a => []
        | @Call _ _ X c k => let '(x, st1) := answer_of env c st in lstates env (k x) st1
        end.

Lemma lrun_lexec {A} env (p : prog A) st :
  (forall X (c : call X), sane c (env X c)) ->
  Forall (fun s => rely s s) (lstates env p st) ->
  lexec st p (fst (fst (lrun env p st))) (snd (fst (lrun env p st))) (snd (lrun env p st)).
Proof.
  intros Henv. revert st. induction p as [a|X c k IH]; intros st Hs; simpl in *.
  - apply lx_ret. by inversion Hs.
  - inversion Hs as [|? ? Hr Hrest]; subst. clear Hs.
    assert (Ha : answers c st (fst (answer_of env c st)) (snd (answer_of env c st))).
    { unfold answers, answer_of. destruct (ledger_answer c st) as [[? ?]|]; [done|]. by split. }
    destruct (answer_of env c st) as [x st1]. simpl in *. specialize (IH x st1 Hrest).
    destruct (lrun env (k x) st1) as [[tr a] st2]. simpl in *. by eapply lx_call.
Qed.

(** An invariant of the phases of a protocol that the calls and the others preserve
    holds in the end. *)
Lemma lexec_inv {A P} (step : P -> event -> P -> Prop) (inv : P -> LedgerState S -> Prop)
    (out : P -> A -> Prop) :
  (forall ph st st', inv ph st -> rely st st' -> inv ph st') ->
  (forall ph st0 st ev ph' st', rely st0 st -> inv ph st -> ev_answers ev st st' ->
     step ph ev ph' -> inv ph' st') ->
  forall st p tr a st', lexec st p tr a st' ->
  forall ph, follows step p ph out -> inv ph st -> exists ph', inv ph' st' /\ out ph' a.
Proof.
  intros Hrely Hstep st p tr a st' He.
  induction He as [st st' a Hr|X st st0 c x st1 k tr a st' Hr Ha _ IH]; intros ph Hf Hi;
    simpl in Hf.
  - exists ph. split; [by eapply Hrely|done].
  - destruct (Hf x) as (ph1 & Hs & Hk). apply (IH ph1 Hk).
    eapply (Hstep ph st st0 (Ev c x)); [exact Hr| |exact Ha|exact Hs]. by eapply Hrely.
Qed.
End Executions.

(** All calls but those that write to the book leave it as it is. *)
Definition keeps_book {X} (c : call X) : bool :=
  match c with
  | FacadeRecordSend _ _ _ _ _ | FacadeRecordReceive _ _ _ _ _ _ _
  | FacadeRecordIntraledger _ _ _ _ _ _ | FacadeSettlePendingLnSend _
  | FacadeRecordLnSendRevert _ _
  | LedgerSettlePendingLnPayment _ | LedgerRevertLightningPayment _ _
  | LedgerAddOnChainTxSend _ | LedgerSetOnChainTxSendHash _ _ | LedgerRevertOnChainPayment _
  | LedgerAddOnChainIntraledger _ _ _ _ | LedgerAddOnChainTxReceive _
  | LedgerAddColdStorageTxSend _ => false
  | _ => true
  end.

Lemma quiet_book {X} (c : call X) st x st' :
  keeps_book c = true -> answers c st x st' -> ls_book st' = ls_book st.
Proof.
  unfold answers. destruct c; simpl; try done; intros _ Ha; try (by injection Ha as _ <-);
    try (destruct Ha; by subst).
  1: { destruct (Caching.getNonEndUserWalletIds (ls_cache st)). by injection Ha as _ <-. }
  - revert Ha. unfold getWalletBalance.
    destruct (book_balance (ls_book st) _) as [b|]; [|by intros [= _ <-]].
    destruct (num_ltb b _); [|by intros [= _ <-]].
    destruct (Caching.cbind _ _ _) as [[?| |] ?]; by intros [= _ <-].
  - revert Ha. unfold getWalletBalanceAmount.
    destruct (book_balance (ls_book st) _) as [b|]; [|by intros [= _ <-]].
    destruct (num_ltb b _); [|by intros [= _ <-]].
    destruct (Caching.getDealerWalletIds _) as [[?| |] ?]; by intros [= _ <-].
Qed.

Lemma sensitive_keeps {X} (c : call X) : sensitive c = false -> keeps_book c = true.
Proof. by destruct c. Qed.

(** ** The wallet of the sender *)

Section Wallet.
Context {elaws : MediciEntryLaws E} {blaws : MediciBookLaws S E} {qlaws : MediciQueriesLaws S E}.
Context (w : WalletDescriptor).

Definition acc : string := toLedgerAccountId (wd_id w).
Definition cur : WalletCurrency := wd_currency w.
Definition wallet_balance (st : LedgerState S) : Z := balance_of (E := E) st acc cur.

(** The account holds the currency of the wallet only, there is no account below it,
    and its balance is exactly representable. *)
Record readable (st : LedgerState S) : Prop := {
  read_currency : Forall (fun t => tx_account (st_tx t) = acc -> tx_in_currency cur (st_tx t) = true)
                    (book_txs (E := E) (ls_book st));
  read_leaf : Forall (fun t => String.prefix (acc +:+ ":") (tx_account (st_tx t)) = false)
                (book_txs (E := E) (ls_book st));
  read_safe : safe (wallet_balance st)
}.

Lemma readable_raw st : readable st -> raw_net acc (lines (E := E) (ls_book st)) = wallet_balance st.
Proof.
  intros [Hc _ _]. unfold raw_net, wallet_balance, balance_of, net_account, lines.
  apply sumZ_ext. intros t Ht. apply list_elem_of_fmap in Ht as (u & -> & Hu).
  unfold tx_net_account, tx_net. destruct (String.eqb_spec (tx_account (st_tx u)) acc) as [Ha|]; [|done].
  rewrite Forall_forall in Hc. by rewrite (Hc u Hu Ha).
Qed.

(** The balance that is read is the balance of the book. *)
Lemma balance_read st b st' :
  readable st -> getWalletBalanceAmount (E := E) w st = (Ok b, st') ->
  b = mkAmount (wallet_balance st) cur.
Proof using qlaws.
  intros Hr. unfold getWalletBalanceAmount.
  destruct (book_balance _ _) as [n|] eqn:Hn; [|done].
  assert (n = num (wallet_balance st)) as ->.
  { rewrite <- (readable_raw st Hr). apply (balance_sums _ _ _ Hn (read_leaf _ Hr)).
    rewrite readable_raw by done. apply read_safe, Hr. }
  assert (Hb : balance_amount (num (wallet_balance st)) cur = Ok (mkAmount (wallet_balance st) cur)).
  { unfold balance_amount, balanceAmountFromNumber, safeBigInt. by rewrite BigInt_num. }
  unfold cur in Hb. destruct (num_ltb _ _).
  - destruct (Caching.getDealerWalletIds _) as [[?| |] ?]; try done. rewrite Hb. by intros [= <- _].
  - rewrite Hb. by intros [= <- _].
Qed.

(** The journal is in the book. *)
Definition known (jid : string) (st : LedgerState S) : Prop :=
  exists t, In t (book_txs (E := E) (ls_book st)) /\ st_journal t = jid.

Definition journal_net (st : LedgerState S) (jid : string) : Z :=
  net_account acc cur (journal (E := E) (ls_book st) jid).

(** What other handlers do while this one holds the lock of the wallet. *)
Record rely (st st' : LedgerState S) : Prop := {
  rely_readable : readable st';
  rely_balance : wallet_balance st <= wallet_balance st';
  rely_journals : forall jid, known jid st -> known jid st' /\ journal_net st' jid = journal_net st jid
}.

(** Doing nothing, committing an entry under a new journal that does not debit the
    wallet, and settling any payment are within it. *)
Lemma rely_refl st : readable st -> rely st st.
Proof. by split. Qed.

Lemma rely_append st st' new jid :
  readable st' ->
  book_txs (E := E) (ls_book st') = book_txs (E := E) (ls_book st) ++ new ->
  Forall (fun t => st_journal t = jid) new ->
  Forall (fun t => st_journal t <> jid) (book_txs (E := E) (ls_book st)) ->
  0 <= net_account acc cur (st_tx <$> new) -> rely st st'.
Proof.
  intros Hr Hs Hnew Hold Hn. split; [done| |].
  - unfold wallet_balance, balance_of, lines. rewrite Hs, fmap_app, net_account_app. lia.
  - intros i (t & Ht & Hi). split.
    + exists t. rewrite Hs. split; [apply in_or_app; by left|done].
    + unfold journal_net, journal. rewrite Hs, List.filter_app, fmap_app, net_account_app.
      rewrite (filter_eq_none jid i new Hnew); [by rewrite Z.add_0_r|].
      intros <-. rewrite Forall_forall in Hold. by apply (Hold t); [apply list_elem_of_In|].
Qed.

(** *** Effects of the facade on the wallet *)

(** A debit of the wallet costs it at most the total, a credit gives it at least
    nothing; both may be less when the wallet is the dealer's. *)
Lemma debit_effect ids total to :
  amounts_ok (send_total total) ZERO_BANK_FEE -> ad_id to <> acc ->
  - debited w total <= transfer ids (send_total total) ZERO_BANK_FEE
                         (toLedgerAccountDescriptor w) to acc cur <= 0.
Proof.
  intros [Hu Hb _ _ Hur Hbr _ _] Hne. simpl in Hu, Hb, Hur, Hbr.
  unfold transfer, debited, move, cents_if, cur, sub. simpl.
  rewrite (proj2 (String.eqb_neq _ _) Hne). fold acc. rewrite String.eqb_refl.
  destruct (wd_currency w), (ad_currency to); simpl; rewrite ?Hu, ?Hb; simpl;
    repeat case_match; simpl in *; lia.
Qed.

(** Whoever is paid. *)
Lemma debit_at_most ids total to :
  amounts_ok (send_total total) ZERO_BANK_FEE ->
  - debited w total <= transfer ids (send_total total) ZERO_BANK_FEE
                         (toLedgerAccountDescriptor w) to acc cur.
Proof.
  intros [Hu Hb _ _ Hur Hbr _ _]. simpl in Hu, Hb, Hur, Hbr.
  unfold transfer, debited, move, cents_if, cur, sub. simpl. fold acc. rewrite String.eqb_refl.
  destruct (wd_currency w), (ad_currency to); simpl; rewrite ?Hu, ?Hb; simpl;
    repeat case_match; simpl in *; lia.
Qed.

Lemma credit_effect ids amt :
  amounts_ok (send_total amt) ZERO_BANK_FEE ->
  0 <= transfer ids (send_total amt) ZERO_BANK_FEE lndLedgerAccountDescriptor
         (toLedgerAccountDescriptor w) acc cur.
Proof.
  intros [Hu Hb _ _ Hur Hbr _ _]. simpl in Hu, Hb, Hur, Hbr.
  assert (Hne : String.eqb (ad_id lndLedgerAccountDescriptor) acc = false)
    by by apply String.eqb_neq.
  unfold transfer, move. rewrite Hne. unfold cents_if, cur, sub. simpl. fold acc.
  rewrite String.eqb_refl.
  destruct (wd_currency w); simpl; rewrite ?Hu, ?Hb; simpl;
    repeat case_match; simpl in *; lia.
Qed.

(** *** Calls that fail *)

Lemma static_ids_fail {A} (k : staticAccountIds -> facade S A) st x st' :
  (forall ids st1 y st2, k ids st1 = (y, st2) -> is_ok y = false -> ls_book st2 = ls_book st1) ->
  with_static_ids k st = (x, st') -> is_ok x = false -> ls_book st' = ls_book st.
Proof.
  intros Hk. unfold with_static_ids.
  destruct (Caching.get_staticAccountIds _) as [[ids|e|e] ca].
  - intros Hr Hx. by rewrite (Hk _ _ _ _ Hr Hx).
  - by intros [= _ <-].
  - by intros [= _ <-].
Qed.

Lemma persist_fail (entry : E) h pre st x st' :
  persistAndReturnEntry (S := S) entry h pre st = (x, st') -> is_ok x = false ->
  ls_book st' = ls_book st.
Proof.
  unfold persistAndReturnEntry. destruct (book_commit _ _) as [[saved b]|]; [|by intros [= _ <-]].
  by intros [= <- _].
Qed.

Lemma record_fail (k : staticAccountIds -> E) h pre st x st' :
  with_static_ids (fun ids => persistAndReturnEntry (S := S) (k ids) h pre) st = (x, st') ->
  is_ok x = false -> ls_book st' = ls_book st.
Proof. apply static_ids_fail. intros ids st1 y st2. apply persist_fail. Qed.

Lemma revert_fail jid h st x st' :
  recordLnSendRevert (E := E) jid h st = (x, st') -> is_ok x = false -> ls_book st' = ls_book st.
Proof.
  unfold recordLnSendRevert. destruct (book_void _ _ _) as [[saved b]|]; [|by intros [= _ <-]].
  by intros [= <- _].
Qed.

(** *** A settlement changes nothing for the wallet *)

Lemma settle_wallet h st x st' jid :
  settlePendingLnSend (E := E) h st = (x, st') ->
  wallet_balance st' = wallet_balance st /\ journal_net st' jid = journal_net st jid /\
  (known jid st -> known jid st').
Proof using blaws.
  intros Hs. split; [by destruct (settle_lines _ _ _ _ Hs acc cur)|].
  split; [by apply (settle_journal _ _ _ _ jid Hs)|].
  intros (t & Ht & Hj). apply settle_book in Hs as [[_ ->]|(n & Hu & _)]; [by exists t|].
  pose proof (updateMany_maps _ _ _ _ _ Hu) as Hm.
  apply list_elem_of_In, list_elem_of_lookup in Ht as (i & Hi).
  destruct (Forall2_lookup_l _ _ _ _ _ Hm Hi) as (t' & Hi' & Ht').
  exists t'. split; [by eapply list_elem_of_In, list_elem_of_lookup_2|].
  by destruct Ht' as [[_ ->]|[_ ->]].
Qed.

Lemma rely_settle h st x st' :
  readable st' -> settlePendingLnSend (E := E) h st = (x, st') -> rely st st'.
Proof using blaws.
  intros Hr Hs. split; [done| |].
  - by destruct (settle_wallet h st x st' "" Hs) as (-> & _).
  - intros jid Hk. destruct (settle_wallet h st x st' jid Hs) as (_ & -> & Hk'). auto.
Qed.

End Wallet.

(** ** Lightning payments *)

(** Flows as the builder makes them. *)
Record flow_ok (f : PaymentFlow) : Prop := {
  flow_btc : currency (pf_btcPaymentAmount f) = Btc;
  flow_usd : currency (pf_usdPaymentAmount f) = Usd;
  flow_btc_pos : 0 < amount (pf_btcPaymentAmount f);
  flow_usd_pos : 0 < amount (pf_usdPaymentAmount f);
  flow_btc_fee : 0 <= amount (pf_btcProtocolFee f) <= amount (pf_btcPaymentAmount f);
  flow_usd_fee : 0 <= amount (pf_usdProtocolFee f);
  flow_btc_safe : safe (amount (pf_btcPaymentAmount f) + amount (pf_btcProtocolFee f));
  flow_usd_safe : safe (amount (pf_usdPaymentAmount f) + amount (pf_usdProtocolFee f))
}.

Lemma total_amounts_ok f : flow_ok f -> amounts_ok (send_total (total_of f)) ZERO_BANK_FEE.
Proof. intros [????????]. split; simpl; try done; lia. Qed.

Lemma amounts_amounts_ok f : flow_ok f ->
  amounts_ok (send_total (mkBoth (pf_usdPaymentAmount f) (pf_btcPaymentAmount f))) ZERO_BANK_FEE.
Proof. intros [????????]. unfold safe in *. split; simpl; unfold safe; try done; lia. Qed.

(** The fee given back is within the amounts of the flow. *)
Lemma refund_amounts_ok f res amt :
  flow_ok f -> (exists z, roundedUpFee res = num z /\ 0 <= z) ->
  LnProtocol.reimburses f res amt -> amounts_ok (send_total amt) ZERO_BANK_FEE.
Proof.
  intros [????[Hf0 Hf1]? Hbs Hus] (z & Hz & Hz0) (fee & diff & r & Hfee & Hr & Hd & ->).
  unfold paymentAmountFromNumber, safeBigInt in Hfee. rewrite Hz, BigInt_num in Hfee.
  simpl in Hfee. injection Hfee as <-.
  apply PriceRatio_ok in Hr as (-> & _ & _).
  unfold FeeReimbursement.getReimbursement in Hd. simpl in Hd.
  destruct (_ <? 0) eqn:Hneg; [done|]. bool_prop.
  set (d := amount (pf_btcProtocolFee f) - z) in *.
  set (u := amount (pf_usdPaymentAmount f)) in *. set (b := amount (pf_btcPaymentAmount f)) in *.
  assert (Hdu : 0 <= d * u) by nia. assert (Hdb : d * u <= u * b) by nia.
  assert (Hu : exists v, diff = FeeReimbursement.mkAmounts (mkAmount d Btc) (mkAmount v Usd) /\ 0 <= v <= u).
  { destruct (z =? 0); simpl in Hd.
    - rewrite convertFromBtc_spec in Hd by (simpl; lia). simpl in Hd. injection Hd as <-.
      eexists. split; [done|]. simpl. fold u b.
      destruct (round_conv_bounds d u b) as (_ & B1 & B2); [lia..|].
      destruct (ceil_quot_least (d * u) b) as (C1 & C2 & C3); [lia..|].
      pose proof (round_conv_nonneg d u b). split; [lia|]. nia.
    - rewrite convertFromBtcToFloor_spec in Hd by (simpl; lia). simpl in Hd. injection Hd as <-.
      eexists. split; [done|]. simpl. fold u b.
      destruct (quot_rem_pos (d * u) b) as (Q1 & Q2 & Q3); [lia..|]. nia. }
  destruct Hu as (v & -> & Hv). unfold safe in *. subst d.
  split; simpl; unfold safe; try done; lia.
Qed.

Section LnPayment.
Context {elaws : MediciEntryLaws E} {blaws : MediciBookLaws S E} {qlaws : MediciQueriesLaws S E}.
Context (cfg : Settings) (invoice : LnInvoice) (f : PaymentFlow) (wallet : Wallet).
Context (Hwallet : descriptor wallet = LnProtocol.sender f) (Hflow : flow_ok f).

#[local] Abbreviation w := (LnProtocol.sender f).

(** The phases in which the wallet is debited and the debit may be taken back. *)
Definition debit_inv (jid : string) (st : LedgerState S) : Prop :=
  0 <= wallet_balance w st /\ known jid st /\ journal_net w st jid <= 0.

Definition fee_sane (r : result PayInvoiceResult) : Prop :=
  forall res, r = Ok res -> exists z, roundedUpFee res = num z /\ 0 <= z.

Definition ln_inv (ph : LnProtocol.phase) (st : LedgerState S) : Prop :=
  match ph with
  | LnProtocol.PFunded => debited w (total_of f) <= wallet_balance w st
  | LnProtocol.PRecorded jid => debit_inv jid st
  | LnProtocol.PPaid jid r | LnProtocol.PSettled jid r => debit_inv jid st /\ fee_sane r
  | _ => 0 <= wallet_balance w st
  end.

Lemma debited_pos : 0 < debited w (total_of f).
Proof using Hflow.
  destruct Hflow. unfold debited, in_currency. destruct (wd_currency w); simpl; lia.
Qed.

Lemma ln_inv_balance ph st : ln_inv ph st -> 0 <= wallet_balance w st.
Proof using Hflow.
  pose proof debited_pos. destruct ph; simpl; unfold debit_inv; try tauto; lia.
Qed.

Lemma ln_inv_book ph st st' : ls_book st' = ls_book st -> ln_inv ph st -> ln_inv ph st'.
Proof.
  intros Hb. unfold ln_inv, debit_inv, wallet_balance, known, journal_net, balance_of.
  by rewrite Hb.
Qed.

Lemma ln_inv_rely ph st st' : ln_inv ph st -> rely w st st' -> ln_inv ph st'.
Proof.
  intros Hi [_ Hb Hj].
  assert (Hd : forall jid, debit_inv jid st -> debit_inv jid st').
  { intros jid (Hd1 & Hd2 & Hd3). destruct (Hj jid Hd2) as [Hk Hn].
    split; [lia|]. split; [done|]. by rewrite Hn. }
  destruct ph; simpl in *; try lia; try (by apply Hd); destruct Hi; auto.
Qed.

(** The check of the balance under the lock. *)
Lemma funded st b st' :
  readable w st -> getWalletBalanceAmount (E := E) (descriptor wallet) st = (Ok b, st') ->
  Flow.checkBalanceForSend f b = Ok tt -> debited w (total_of f) <= wallet_balance w st.
Proof using qlaws Hwallet.
  intros Hr Hb Hc. rewrite Hwallet in Hb. rewrite (balance_read w st b st' Hr Hb) in Hc.
  revert Hc. unfold Flow.checkBalanceForSend, cur. simpl.
  rewrite decide_False by (intros Hne; by apply Hne).
  unfold debited, in_currency, LnProtocol.sender, descriptor. simpl.
  destruct (pf_senderWalletCurrency f); simpl; destruct (_ <? _) eqn:Hlt; try done;
    intros _; bool_prop; simpl in *; lia.
Qed.

Lemma debit_step d md st j st' :
  debited w (total_of f) <= wallet_balance w st ->
  recordSend (E := E) d w (total_of f) None md st = (Ok j, st') -> debit_inv (journalId j) st'.
Proof using elaws blaws Hflow.
  intros Hb Hr. destruct (recordSend_nets d w (total_of f) None md st j st' (total_amounts_ok f Hflow) Hr)
    as [ids Hn].
  destruct (Hn (acc w) (cur w)) as [Hbal Hjn].
  pose proof (debit_effect w ids (total_of f) lndLedgerAccountDescriptor
    (total_amounts_ok f Hflow)) as He.
  specialize (He ltac:(done)). change (actual_fee None) with ZERO_BANK_FEE in *. unfold debit_inv, journal_net, wallet_balance in *.
  split; [lia|]. split; [|lia].
  destruct (recordSend_line _ _ _ _ _ _ _ _ Hr) as (t & Ht & _ & Hj).
  - destruct Hflow. unfold debited, in_currency. destruct (wd_currency w); simpl; done.
  - pose proof debited_pos. lia.
  - by exists t.
Qed.

(** The node's answer leaves the ledger as it is. *)
Lemma pay_answer st r st' :
  answers (pay_call f invoice) st r st' -> st' = st /\ fee_sane r.
Proof. unfold pay_call. by destruct (Flow.routeDetails f) as [[rt|] out]. Qed.

Lemma ln_inv_step ph st0 st ev ph' st' :
  rely w st0 st -> ln_inv ph st -> ev_answers ev st st' ->
  LnProtocol.ln_step cfg f invoice wallet ph ev ph' -> ln_inv ph' st'.
Proof using elaws blaws qlaws Hwallet Hflow.
  intros Hrely Hi Ha Hs. pose proof (ln_inv_balance _ _ Hi) as Hbal.
  assert (Hsame : forall ph, ls_book st' = ls_book st -> ln_inv ph st -> ln_inv ph st')
    by (intros; by eapply ln_inv_book).
  assert (Hrest : ls_book st' = ls_book st -> 0 <= wallet_balance w st').
  { intros Hb. unfold wallet_balance, balance_of. by rewrite Hb. }
  destruct Hs as [ph X c x Hq|ts v Hts|v a r Hr Hc| |o Ho|txs Hp|b Hb|d md j|d md x Hx|jid r|jid r Hr
    |jid r x Hr Hx|jid e|jid e x Hx|jid res amt md h pre j Hrt Hre|jid res amt md h pre x Hx|ph o];
    simpl in Ha.
  - apply Hsame; [|done]. eapply quiet_book; [by apply sensitive_keeps|exact Ha].
  - apply Hrest. by eapply quiet_book; [|exact Ha].
  - apply Hrest. by eapply quiet_book; [|exact Ha].
  - apply Hrest. by destruct Ha as [-> _].
  - apply Hrest. by destruct Ha as [-> _].
  - apply Hrest. by eapply quiet_book; [|exact Ha].
  - simpl. pose proof (funded _ _ _ (rely_readable _ _ _ Hrely) Ha Hb) as Hle.
    unfold wallet_balance, balance_of in *.
    by rewrite (quiet_book (LedgerWalletBalance (descriptor wallet)) st (Ok b) st' eq_refl Ha).
  - cbv beta iota delta [answers ledger_answer] in Ha. eapply debit_step; [exact Hi|exact Ha].
  - cbv beta iota delta [answers ledger_answer] in Ha. apply Hrest. by eapply record_fail; [exact Ha|].
  - destruct (pay_answer _ _ _ Ha) as [-> Hfee]. by split.
  - cbv beta iota delta [answers ledger_answer] in Ha. destruct Hi as [(Hd1 & Hd2 & Hd3) Hfee].
    destruct (settle_wallet w _ _ _ _ jid Ha) as (Hb & Hj & Hk).
    split; [|done]. split; [lia|]. split; [by apply Hk|lia].
  - cbv beta iota delta [answers ledger_answer] in Ha. destruct (settle_wallet w _ _ _ _ jid Ha) as (Hb & _). simpl. lia.
  - cbv beta iota delta [answers ledger_answer] in Ha. destruct Hi as [(Hd1 & Hd2 & Hd3) _]. simpl.
    pose proof (revert_nets _ _ _ _ Ha (acc w) (cur w)) as Hn.
    unfold journal_net, wallet_balance in *. lia.
  - cbv beta iota delta [answers ledger_answer] in Ha. apply Hrest. by eapply revert_fail; [exact Ha|].
  - cbv beta iota delta [answers ledger_answer] in Ha. destruct Hi as [(Hd1 & _) Hfee]. simpl.
    pose proof (refund_amounts_ok f res amt Hflow (Hfee res eq_refl) Hre) as Hok.
    destruct (recordReceive_nets _ _ _ _ _ _ _ _ _ Hok Ha) as [ids Hn].
    pose proof (credit_effect w ids amt Hok) as Hc. specialize (Hn (acc w) (cur w)).
    unfold wallet_balance in *. lia.
  - cbv beta iota delta [answers ledger_answer] in Ha. apply Hrest. by eapply record_fail; [exact Ha|].
  - apply Hrest. by destruct Ha as [-> _].
Qed.

End LnPayment.

(** ** Transfers between wallets *)

Section Transfer.
Context {elaws : MediciEntryLaws E} {blaws : MediciBookLaws S E} {qlaws : MediciQueriesLaws S E}.
Context (cfg : Settings) (f : PaymentFlow) (wallet : Wallet).
Context (Hwallet : descriptor wallet = LnProtocol.sender f) (Hflow : flow_ok f).

#[local] Abbreviation w := (LnProtocol.sender f).

Inductive tphase : Type := TStart | TFunded | TDone.

(** The transfer follows the check of the balance, and nothing else writes. *)
Inductive t_step : tphase -> event -> tphase -> Prop :=
| t_quiet ph X (c : call X) x : keeps_book c = true -> t_step ph (Ev c x) ph
| t_funded b :
    Flow.checkBalanceForSend f b = Ok tt ->
    t_step TStart (Ev (LedgerWalletBalance (descriptor wallet)) (Ok b)) TFunded
| t_move d rw md add x :
    t_step TFunded (Ev (FacadeRecordIntraledger d w rw (Transfers.amounts f) md add) x) TDone.

Definition anyhow {A} (_ : tphase) (_ : A) : Prop := True.

(** Programs that only make calls that keep the book. *)
Fixpoint only_reads {A} (p : prog A) : Prop :=
  match p with
  | Ret _ => True
  | Call c k => keeps_book c = true /\ forall x, only_reads (k x)
  end.

Lemma reads_stay {A} (p : prog A) ph : only_reads p -> follows t_step p ph (fun ph' _ => ph' = ph).
Proof.
  induction p as [a|X c k IH]; simpl; [done|]. intros [Hc Hk] x. exists ph.
  split; [by apply t_quiet|]. by apply IH.
Qed.

Lemma reads_follow {A} (p : prog A) ph : only_reads p -> follows t_step p ph anyhow.
Proof. intros Hr. by eapply follows_mono; [by apply reads_stay|]. Qed.

Ltac read := eexists; split; [by apply t_quiet|simpl].

Lemma walletId_body_t sa ra rw c ru memo :
  follows t_step (walletId_body f sa wallet ra rw c ru memo) TStart anyhow.
Proof.
  unfold walletId_body. simpl. intros [b|e|e]; [|by read..].
  destruct (Flow.checkBalanceForSend f b) as [[]|e|e] eqn:Hb; [|by read..].
  eexists. split; [by apply t_funded|]. simpl.
  destruct (PriceRatio _ _) as [r|e|e]; [|done..]. intros [m|]; [by read|]. read.
  destruct (Flow.recipientWalletDescriptor f) as [rd|]; [|done]. simpl.
  intros j. eexists. split; [apply t_move|]. apply reads_follow.
  destruct j as [j|e|e]; simpl; [|done..]. split; [done|]. intros [u|e|e]; simpl; [|done..].
  by split.
Qed.

Lemma ln_intraledger_body_t rw h pk id c su ru memo :
  follows t_step (ln_intraledger_body f wallet rw h pk id c su ru memo) TStart anyhow.
Proof.
  unfold ln_intraledger_body. simpl. intros [[|]|e|e]; [by read| |by read..]. read.
  intros [b|e|e]; [|by read..].
  destruct (Flow.checkBalanceForSend f b) as [[]|e|e] eqn:Hb; [|by read..].
  eexists. split; [by apply t_funded|]. simpl.
  destruct (PriceRatio _ _) as [r|e|e]; [|done..]. intros [m|]; [by read|]. read.
  destruct (Flow.recipientWalletDescriptor f) as [rd|]; [|done]. simpl.
  intros j. eexists. split; [apply t_move|]. apply reads_follow.
  destruct j as [j|e|e]; simpl; [|done..].
  split; [done|]. intros [?|?|?]; simpl; [|done..].
  split; [done|]. intros [?|?|?]; simpl; [|done..].
  split; [done|]. intros [?|?|?]; simpl; [|done..].
  split; [done|]. intros [?|?|?]; simpl; [|done..].
  split; [done|]. intros [?|?|?]; simpl; [|done..]. by split.
Qed.

Lemma lock_t id (body : prog (result PaymentSendStatus)) :
  follows t_step body TStart anyhow -> follows t_step (lockWalletId id body) TStart anyhow.
Proof.
  intros Hb. eapply follows_redlock; [by apply t_quiet|exact Hb| |].
  - intros o _. eexists. split; [by apply t_quiet|done].
  - intros ph a o _. eexists. split; [by apply t_quiet|done].
Qed.

Lemma limits_t group check amt r (k : prog (result PaymentSendStatus)) :
  follows t_step k TStart anyhow ->
  follows t_step (await _ <- check_limits cfg group check amt wallet r ;; k) TStart anyhow.
Proof.
  intros Hk. eapply (follows_rpbind _ _ _ _ (fun ph _ => ph = TStart)); [|by intros ? ? ->|done..].
  apply reads_stay. unfold check_limits. simpl. split; [done|]. intros [v|e|e]; simpl; [|done..].
  split; [done|]. by intros [a|e|e].
Qed.

Lemma walletId_t sa ra rw memo :
  follows t_step (executeWalletIdPayment cfg f sa wallet ra rw memo) TStart anyhow.
Proof.
  unfold executeWalletIdPayment. destruct (getPriceRatioForLimits cfg f) as [r|e|e]; [|done..].
  destruct (String.eqb _ _); apply limits_t;
    (destruct (Flow.rd_walletId _) as [[|]|]; [done| |done]);
    (destruct (Flow.rd_walletCurrency _); [|done]); apply lock_t, walletId_body_t.
Qed.

Lemma ln_intraledger_t su memo :
  follows t_step (executePaymentViaIntraledger cfg f wallet su memo) TStart anyhow.
Proof.
  unfold executePaymentViaIntraledger.
  destruct (getPriceRatioForLimits cfg f) as [r|e|e]; [|done..].
  destruct (Flow.paymentHashForFlow f) as [h|e|e]; [|done..].
  destruct (Flow.rd_walletId _) as [[|ch id]|]; [done| |done].
  destruct (Flow.rd_walletCurrency _) as [c|]; [|done].
  destruct (Flow.rd_pubkey _) as [[|ch' pk]|]; [done| |done].
  intros [rw|e|e]; (eexists; split; [by apply t_quiet|]); [|done..].
  change (follows t_step
    (await _ <- (if String.eqb (w_accountId wallet) (w_accountId rw)
                 then newCheckTradeIntraAccountLimits cfg else newCheckIntraledgerLimits cfg)
                  (pf_usdPaymentAmount f) wallet r ;;
     lockWalletId (w_id wallet) (ln_intraledger_body f wallet rw h (String ch' pk) (String ch id) c su
       (Flow.rd_username (Flow.recipientDetails f)) memo)) TStart anyhow).
  destruct (String.eqb _ _); apply limits_t, lock_t, ln_intraledger_body_t.
Qed.

Definition t_inv (ph : tphase) (st : LedgerState S) : Prop :=
  match ph with
  | TFunded => debited w (Transfers.amounts f) <= wallet_balance w st /\ 0 <= wallet_balance w st
  | _ => 0 <= wallet_balance w st
  end.

Lemma t_inv_rely ph st st' : t_inv ph st -> rely w st st' -> t_inv ph st'.
Proof. intros Hi [_ Hb _]. destruct ph; simpl in *; lia. Qed.

Lemma t_inv_step ph st0 st ev ph' st' :
  rely w st0 st -> t_inv ph st -> ev_answers ev st st' -> t_step ph ev ph' -> t_inv ph' st'.
Proof using elaws blaws qlaws Hwallet Hflow.
  intros Hrely Hi Ha Hs.
  destruct Hs as [ph X c x Hq|b Hb|d rw md add x]; simpl in Ha.
  - unfold t_inv, wallet_balance, balance_of in *. by rewrite (quiet_book _ _ _ _ Hq Ha).
  - pose proof (funded f wallet Hwallet _ _ _ (rely_readable _ _ _ Hrely) Ha Hb) as Hle.
    assert (Hle' : debited w (Transfers.amounts f) <= debited w (total_of f)).
    { destruct Hflow. unfold debited, in_currency. destruct (wd_currency w); simpl; lia. }
    simpl in *. unfold wallet_balance, balance_of in *.
    rewrite (quiet_book (LedgerWalletBalance (descriptor wallet)) st (Ok b) st' eq_refl Ha). lia.
  - cbv beta iota delta [answers ledger_answer] in Ha. destruct Hi as [Hle Hb].
    assert (Hx : (exists j, x = Ok j) \/ is_ok x = false) by (destruct x; eauto).
    destruct Hx as [[j ->]|Hx].
    + pose proof (amounts_amounts_ok f Hflow) as Hok.
      destruct (recordIntraledger_nets _ _ _ _ _ _ _ _ _ Hok Ha) as [ids Hn].
      pose proof (debit_at_most w ids (Transfers.amounts f) (toLedgerAccountDescriptor rw) Hok) as He.
      specialize (Hn (acc w) (cur w)). simpl. unfold wallet_balance, Transfers.amounts in *. lia.
    + simpl. unfold wallet_balance, balance_of in *.
      by rewrite (record_fail _ _ _ _ _ _ Ha Hx).
Qed.

End Transfer.

End OnLedger.

(** ** Properties *)

Module OverdraftSpec.
Section Spec.
Context {S E : Type} `{MediciQueries S E} `{!MediciJournals S E}.
Context {elaws : MediciEntryLaws E} {blaws : MediciBookLaws S E} {qlaws : MediciQueriesLaws S E}.

(** C2. Run against the ledger, with other handlers changing the book before every call
    in any way that does not debit the wallet, executePaymentViaLn never takes a
    wallet with a non-negative balance below zero, for amounts of the flow that
    numbers hold exactly and whatever the node and the other services answer, the
    fee of the node being a whole number that is not negative. *)
Theorem ln_no_overdraft (cfg : Settings) (invoice : LnInvoice) (f : PaymentFlow) (wallet : Wallet)
    (st st' : LedgerState S) (tr : list event) (r : result PaymentSendStatus)
    (Hwallet : descriptor wallet = LnProtocol.sender f) (Hflow : flow_ok f)
    (Hrun : lexec (E := E) (rely (E := E) (LnProtocol.sender f)) st
              (executePaymentViaLn cfg invoice f wallet) tr r st')
    (Hst : 0 <= wallet_balance (E := E) (LnProtocol.sender f) st) :
  0 <= wallet_balance (E := E) (LnProtocol.sender f) st'.
Proof using elaws blaws qlaws.
  destruct (lexec_inv (rely (LnProtocol.sender f)) (LnProtocol.ln_step cfg f invoice wallet)
    (ln_inv f) LnProtocol.ln_outcome (ln_inv_rely f)
    (ln_inv_step cfg invoice f wallet Hwallet Hflow) _ _ _ _ _ Hrun LnProtocol.PStart
    (LnProtocol.ln_follows cfg f invoice wallet) Hst) as (ph & Hi & _).
  by eapply ln_inv_balance.
Qed.

(** The two handlers of transfers between wallets of the bank. *)
Inductive transfer_handler : Type :=
| ByWalletId (senderAccount recipientAccount : Account) (recipientWallet : Wallet)
    (memo : option string)
| ByInvoice (senderUsername memo : option string).

Definition transfer_prog (cfg : Settings) (f : PaymentFlow) (wallet : Wallet)
    (h : transfer_handler) : prog (result PaymentSendStatus) :=
  match h with
  | ByWalletId sa ra rw memo => executeWalletIdPayment cfg f sa wallet ra rw memo
  | ByInvoice su memo => executePaymentViaIntraledger cfg f wallet su memo
  end.

(** C13. Run against the ledger, with other handlers changing the book before every call
    in any way that does not debit the wallet, neither handler of transfers between
    wallets of the bank takes the wallet of the sender below zero. *)
Theorem transfer_no_overdraft (cfg : Settings) (f : PaymentFlow) (wallet : Wallet)
    (h : transfer_handler) (st st' : LedgerState S) (tr : list event)
    (r : result PaymentSendStatus)
    (Hwallet : descriptor wallet = LnProtocol.sender f) (Hflow : flow_ok f)
    (Hrun : lexec (E := E) (rely (E := E) (LnProtocol.sender f)) st
              (transfer_prog cfg f wallet h) tr r st')
    (Hst : 0 <= wallet_balance (E := E) (LnProtocol.sender f) st) :
  0 <= wallet_balance (E := E) (LnProtocol.sender f) st'.
Proof using elaws blaws qlaws.
  assert (Hf : follows (t_step f wallet) (transfer_prog cfg f wallet h) TStart anyhow)
    by (destruct h; [apply walletId_t|apply ln_intraledger_t]).
  destruct (lexec_inv (rely (LnProtocol.sender f)) (t_step f wallet) (t_inv f) anyhow
    (t_inv_rely f) (t_inv_step f wallet Hwallet Hflow) _ _ _ _ _ Hrun TStart Hf Hst)
    as ([| |] & Hi & _); simpl in Hi; lia.
Qed.

End Spec.
(** *** A funded dollar wallet pays, on the book as a list *)

Definition sample_w : WalletDescriptor := mkWallet PaymentClaims.sample_uuid Usd.

Definition funded_state : LedgerState (list storedTx) :=
  snd (recordReceive (E := list ledgerTx) "deposit" sample_w
         (mkBoth (mkAmount 1000 Usd) (mkAmount 43478 Btc)) None (obj []) None None sample_state).

Definition readable_b (st : LedgerState (list storedTx)) : bool :=
  forallb (fun t => negb (String.eqb (tx_account (st_tx t)) (acc sample_w))
                    || tx_in_currency Usd (st_tx t)) (ls_book st)
  && forallb (fun t => negb (String.prefix (acc sample_w +:+ ":") (tx_account (st_tx t))))
       (ls_book st)
  && bool_decide (safe (wallet_balance (E := list ledgerTx) sample_w st)).

Lemma readable_b_spec st : readable_b st = true -> readable (E := list ledgerTx) sample_w st.
Proof.
  unfold readable_b. intros Hb. apply andb_true_iff in Hb as [[H1 H2]%andb_true_iff H3].
  rewrite forallb_forall in H1, H2. split.
  - apply Forall_forall. intros t Ht Ha. apply list_elem_of_In, H1 in Ht.
    by rewrite Ha, String.eqb_refl in Ht.
  - apply Forall_forall. intros t Ht. apply list_elem_of_In, H2 in Ht. by apply negb_true_iff.
  - by apply bool_decide_eq_true_1 in H3.
Qed.

Lemma readable_all (l : list (LedgerState (list storedTx))) :
  forallb readable_b l = true -> Forall (fun s => rely (E := list ledgerTx) sample_w s s) l.
Proof.
  rewrite forallb_forall. intros Hl. apply Forall_forall. intros s Hs.
  apply rely_refl, readable_b_spec, Hl. by apply list_elem_of_In.
Qed.

Lemma sample_env_sane X (c : call X) : sane c (PaymentClaims.sample_env X c).
Proof.
  destruct c; simpl; try done; intros res [= <-]; by exists 20.
Qed.

Lemma sample_flow_ok : flow_ok PaymentClaims.out_flow.
Proof. split; simpl; unfold safe; try done; lia. Qed.

Definition sample_run := lrun (E := list ledgerTx) PaymentClaims.sample_env
  (executePaymentViaLn PaymentClaims.sample_settings PaymentClaims.sample_invoice
     PaymentClaims.out_flow PaymentClaims.sample_wallet) funded_state.

Lemma ln_no_overdraft_witness :
  snd (fst sample_run) = Ok Success /\
  wallet_balance (E := list ledgerTx) sample_w (snd sample_run) = 769 /\
  0 <= wallet_balance (E := list ledgerTx) sample_w (snd sample_run).
Proof.
  split; [vm_compute; reflexivity|]. split; [vm_compute; reflexivity|].
  refine (ln_no_overdraft PaymentClaims.sample_settings PaymentClaims.sample_invoice
    PaymentClaims.out_flow PaymentClaims.sample_wallet funded_state (snd sample_run)
    (fst (fst sample_run)) (snd (fst sample_run)) eq_refl sample_flow_ok _ _).
  - apply lrun_lexec; [apply sample_env_sane|]. apply readable_all. vm_compute. reflexivity.
  - vm_compute. discriminate.
Defined.

Lemma in_flow_ok : flow_ok PaymentClaims.in_flow.
Proof. split; simpl; unfold safe; try done; lia. Qed.

Definition sample_ledger_transfer := lrun (E := list ledgerTx) PaymentClaims.sample_env
  (transfer_prog PaymentClaims.sample_settings PaymentClaims.in_flow PaymentClaims.sample_wallet
     (ByInvoice None None)) funded_state.

Lemma transfer_no_overdraft_witness :
  snd (fst sample_ledger_transfer) = Ok Success /\
  wallet_balance (E := list ledgerTx) sample_w (snd sample_ledger_transfer) = 770 /\
  0 <= wallet_balance (E := list ledgerTx) sample_w (snd sample_ledger_transfer).
Proof.
  split; [vm_compute; reflexivity|]. split; [vm_compute; reflexivity|].
  refine (transfer_no_overdraft PaymentClaims.sample_settings PaymentClaims.in_flow
    PaymentClaims.sample_wallet (ByInvoice None None) funded_state (snd sample_ledger_transfer)
    (fst (fst sample_ledger_transfer)) (snd (fst sample_ledger_transfer)) eq_refl in_flow_ok _ _).
  - apply lrun_lexec; [apply sample_env_sane|]. apply readable_all. vm_compute. reflexivity.
  - vm_compute. discriminate.
Defined.

End OverdraftSpec.
