(* ===== verification/Invoices.v ===== *)
(** * Lightning invoices of the bank

    An invoice of a wallet is made by [lib/app/wallets/add-invoice-for-wallet.js] with the
    builder of [lib/domain/wallet-invoices], and credited when the node reports it paid
    by [lib/app/wallets/update-pending-invoices.js].  The prices of the dealer are those of
    [Settings]; [sha256] and the clock are parameters. *)

From S2P Require Import Prelude JsNum Errors Money Ledger PaymentFlow Validation Accounts TxMetadata Facade LedgerService RateLimit Programs Effects Payments.
Import AmountCalculator CheckedAmounts.
#[local] Open Scope string_scope.
#[local] Open Scope Z_scope.
#[local] Open Scope list_scope.

(** ** [domain/bitcoin/lightning/invoice-expiration.js] *)

Definition SECS_PER_5_MINS : Z := 60 * 5.
Definition SECS_PER_DAY : Z := 60 * 60 * 24.
Definition defaultTimeToExpiryInSeconds : Z := SECS_PER_5_MINS.

Definition DEFAULT_EXPIRATIONS (c : WalletCurrency) : Z :=
  match c with Btc => SECS_PER_DAY | Usd => defaultTimeToExpiryInSeconds end.

(** Times are in milliseconds. *)
Definition invoiceExpirationForCurrency (c : WalletCurrency) (now : Z) : Z :=
  let delay := DEFAULT_EXPIRATIONS c in
  now + delay * 1000.

(** ** [domain/wallet-invoices/wallet-invoice-builder.js] *)

Module InvoiceBuilder.

Record WIBDescription : Type := mkDescription {
  description : string;
  descriptionHash : option string
}.
Record WIBOrigin : Type := mkOrigin { o_state : WIBDescription; selfGenerated : bool }.
Record WIBRecipient : Type := mkRecipient {
  r_state : WIBOrigin;
  recipientWalletDescriptor : WalletDescriptor
}.
Record WIBAmount : Type := mkWithAmount {
  a_state : WIBRecipient;
  hasAmount : bool;
  btcAmount : PaymentAmount;
  usdAmount : option PaymentAmount;
  invoiceExpiration : Z
}.

Definition withDescription (description : string) (descriptionHash : option string)
    : WIBDescription := mkDescription description descriptionHash.

Definition generatedForRecipient (state : WIBDescription) : WIBOrigin := mkOrigin state false.
Definition generatedForSelf (state : WIBDescription) : WIBOrigin := mkOrigin state true.

Definition withInvoiceRecipient (state : WIBOrigin) (recipientWallet : WalletDescriptor)
    : WIBRecipient := mkRecipient state recipientWallet.

(** [dealerBtcFromUsd] is the price of the dealer, [now] the time of the call. *)
Definition withAmount (dealerBtcFromUsd : PaymentAmount -> result PaymentAmount) (now : Z)
    (state : WIBRecipient) (uncheckedAmount : option number) : result WIBAmount :=
  if decide (wd_currency (recipientWalletDescriptor state) = Usd) then
    let* usdAmount := checkedToUsdPaymentAmount uncheckedAmount in
    let* btcAmount := dealerBtcFromUsd usdAmount in
    let invoiceExpiration := invoiceExpirationForCurrency Usd now in
    Ok (mkWithAmount state true btcAmount (Some usdAmount) invoiceExpiration)
  else
    let invoiceExpiration := invoiceExpirationForCurrency Btc now in
    let* btcAmount := checkedToBtcPaymentAmount uncheckedAmount in
    Ok (mkWithAmount state true btcAmount None invoiceExpiration).

Definition withoutAmount (now : Z) (state : WIBRecipient) : WIBAmount :=
  let invoiceExpiration := invoiceExpirationForCurrency Btc now in
  mkWithAmount state false ZERO_SATS None invoiceExpiration.

(** [getSecretAndPaymentHash] of [domain/bitcoin/lightning/index.js]: random bytes and
    their hash, both written in hexadecimal. *)
Definition getSecretAndPaymentHash (sha256 : string -> string) : prog (string * string) :=
  let! secret <- do_call RandomSecret ;;
  Ret (secret, sha256 secret).

(** The function given as [lnRegisterInvoice] adds the amount as a number of satoshis. *)
Definition registerInvoice (sha256 : string -> string) (state : WIBAmount)
    : prog (result (WalletInvoice * LnInvoice)) :=
  let recipient := a_state state in
  let origin := r_state recipient in
  let descriptions := o_state origin in
  let! (secret, paymentHash) <- getSecretAndPaymentHash sha256 ;;
  await registeredInvoice <- do_call (LndRegisterInvoice
    (mkRegisterArgs paymentHash (description descriptions) (descriptionHash descriptions)
       (btcAmount state) (Number (amount (btcAmount state))) (invoiceExpiration state))) ;;
  if negb (String.eqb paymentHash (inv_paymentHash (reg_invoice registeredInvoice)))
  then Ret (Er (new InvalidWalletInvoiceBuilderStateError))
  else
    let walletInvoice :=
      mkWalletInvoice paymentHash secret (selfGenerated origin) (reg_pubkey registeredInvoice)
        (usdAmount state) (recipientWalletDescriptor recipient) false in
    Ret (Ok (walletInvoice, reg_invoice registeredInvoice)).

End InvoiceBuilder.

(** ** [domain/wallet-invoices/wallet-invoice-receiver.js] *)

Module InvoiceReceiver.

(** The invoice, what its wallet is credited and the bank fee. *)
Record Receiver : Type := mkReceiver {
  rc_invoice : WalletInvoice;
  btcToCreditReceiver : PaymentAmount;
  usdToCreditReceiver : PaymentAmount;
  rc_bankFee : BankFee
}.

Definition WalletInvoiceReceiver (walletInvoice : WalletInvoice) (receivedBtc : PaymentAmount)
    (usdFromBtc usdFromBtcMidPrice : PaymentAmount -> result PaymentAmount) : result Receiver :=
  let btc := receivedBtc in
  if decide (wd_currency (wi_recipient walletInvoice) = Btc) then
    let* usd := usdFromBtcMidPrice btc in
    Ok (mkReceiver walletInvoice btc usd ZERO_BANK_FEE)
  else
    match wi_usdAmount walletInvoice with
    | Some usd => Ok (mkReceiver walletInvoice btc usd ZERO_BANK_FEE)
    | None =>
        let* usd := usdFromBtc btc in
        Ok (mkReceiver walletInvoice btc usd ZERO_BANK_FEE)
    end.

Definition receivedAmount (r : Receiver) : PaymentAmount :=
  if decide (wd_currency (wi_recipient (rc_invoice r)) = Btc) then btcToCreditReceiver r
  else usdToCreditReceiver r.

End InvoiceReceiver.
Import InvoiceBuilder InvoiceReceiver.

Section Handlers.
Context (cfg : Settings) (sha256 : string -> string).

(** ** [app/wallets/add-invoice-for-wallet.js] *)

Definition addInvoice (walletId : string) (limit : RateLimitName)
    (buildWIBWithAmountFn : WalletDescriptor -> result WIBAmount) : prog (result LnInvoice) :=
  await walletIdChecked <- Ret (checkedToWalletId walletId) ;;
  await wallet <- do_call (WalletFindById walletIdChecked) ;;
  await _ <- do_call (ConsumeLimiter limit (w_accountId wallet)) ;;
  await _ <- do_call LndService ;;
  await walletIBWithAmount <- Ret (buildWIBWithAmountFn (descriptor wallet)) ;;
  await (walletInvoice, lnInvoice) <- registerInvoice sha256 walletIBWithAmount ;;
  await _ <- do_call (InvoicePersistNew walletInvoice) ;;
  Ret (Ok lnInvoice).

Definition memo_default (memo : option string) : string :=
  match memo with Some m => m | None => "" end.

Definition dealer_future : PaymentAmount -> result PaymentAmount :=
  Builder.btcFromUsd (set_futureBuyUsd cfg).

Definition addInvoiceForSelf (walletId : string) (amt : option number) (memo : option string)
    : prog (result LnInvoice) :=
  addInvoice walletId invoiceCreate (fun recipientWalletDescriptor =>
    withAmount dealer_future (set_now cfg)
      (withInvoiceRecipient (generatedForSelf (withDescription (memo_default memo) None))
         recipientWalletDescriptor) amt).

Definition addInvoiceNoAmountForSelf (walletId : string) (memo : option string)
    : prog (result LnInvoice) :=
  addInvoice walletId invoiceCreate (fun recipientWalletDescriptor =>
    Ok (withoutAmount (set_now cfg)
      (withInvoiceRecipient (generatedForSelf (withDescription (memo_default memo) None))
         recipientWalletDescriptor))).

Definition addInvoiceForRecipient (recipientWalletId : string) (amt : option number)
    (memo descriptionHash : option string) : prog (result LnInvoice) :=
  addInvoice recipientWalletId invoiceCreateForRecipient (fun recipientWalletDescriptor =>
    withAmount dealer_future (set_now cfg)
      (withInvoiceRecipient
         (generatedForRecipient (withDescription (memo_default memo) descriptionHash))
         recipientWalletDescriptor) amt).

Definition addInvoiceNoAmountForRecipient (recipientWalletId : string) (memo : option string)
    : prog (result LnInvoice) :=
  addInvoice recipientWalletId invoiceCreateForRecipient (fun recipientWalletDescriptor =>
    Ok (withoutAmount (set_now cfg)
      (withInvoiceRecipient (generatedForRecipient (withDescription (memo_default memo) None))
         recipientWalletDescriptor))).

(** ** [app/wallets/update-pending-invoices.js] *)

(** The invoice is not known to the node: it is deleted. *)
Definition delete_unknown (paymentHash : string) : prog (result bool) :=
  await _ <- do_call (InvoiceDeleteByPaymentHash paymentHash) ;;
  Ret (Ok false).

(** The message of [InvalidNonHodlInvoiceError], the hash in JSON, is left out. *)
Definition declineHeldInvoice (pubkey paymentHash : string) : prog (result bool) :=
  await _ <- do_call LndService ;;
  let! lnInvoiceLookup <- do_call (LndLookupInvoice pubkey paymentHash) ;;
  match lnInvoiceLookup with
  | Er e => if is_a e InvoiceNotFoundError then delete_unknown paymentHash else Ret (Er e)
  | Throw e => Ret (Throw e)
  | Ok lookup =>
      if il_isSettled lookup then Ret (Er (new InvalidNonHodlInvoiceError))
      else if negb (il_isHeld lookup) then Ret (Ok false)
      else
        await _ <- do_call (LndCancelInvoice pubkey paymentHash) ;;
        let! isDeleted <- do_call (InvoiceDeleteByPaymentHash paymentHash) ;;
        match isDeleted with
        | Throw e => Ret (Throw e)
        | _ => Ret (Ok true)
        end
  end.

Definition both_of (r : Receiver) : BothAmounts :=
  mkBoth (usdToCreditReceiver r) (btcToCreditReceiver r).

(** The end of the section: the invoice is marked as paid, then its wallet credited. *)
Definition credit_received (walletInvoice : WalletInvoice) (lookup : LnInvoiceLookup)
    (receiver : Receiver) : prog (result bool) :=
  let paymentHash := wi_paymentHash walletInvoice in
  await _ <- do_call (InvoiceMarkAsPaid paymentHash) ;;
  let md := LnReceiveLedgerMetadata paymentHash (btcBankFee (rc_bankFee receiver))
              (Number (amount (usdBankFee (rc_bankFee receiver))))
              (Number (amount (usdToCreditReceiver receiver))) in
  await recipientWallet <- do_call (WalletFindById (wd_id (wi_recipient walletInvoice))) ;;
  await recipientAccount <- do_call (AccountFindById (w_accountId recipientWallet)) ;;
  await _ <- do_call (FacadeRecordReceive (il_description lookup)
                        (wi_recipient (rc_invoice receiver)) (both_of receiver)
                        (Some (mkBoth (usdBankFee (rc_bankFee receiver))
                                      (btcBankFee (rc_bankFee receiver))))
                        md (hash_of md) None) ;;
  let displayPaymentAmount :=
    convertCentsToUsdAsDollars (Number (amount (usdToCreditReceiver receiver))) in
  await recipientUser <- do_call (UserFindById (acc_ownerId recipientAccount)) ;;
  let! _ <- do_call (NotifyTxReceived (w_accountId recipientWallet) (w_id recipientWallet)
                       (receivedAmount receiver) displayPaymentAmount (Some paymentHash)
                       recipientUser) ;;
  Ret (Ok true).

(** The section under the lock of the payment hash. *)
Definition receive_body (walletInvoice : WalletInvoice) (lookup : LnInvoiceLookup)
    (receivedBtc : PaymentAmount) : prog (result bool) :=
  let! invoiceToUpdate <- do_call (InvoiceFindByPaymentHash (wi_paymentHash walletInvoice)) ;;
  match invoiceToUpdate with
  | Er e => if is_a e CouldNotFindError then Ret (Ok false) else Ret (Er e)
  | Throw e => Ret (Throw e)
  | Ok _ =>
      if wi_paid walletInvoice then Ret (Ok true)
      else
        await receiver <- Ret (WalletInvoiceReceiver walletInvoice receivedBtc
                                 (Builder.usdFromBtc (set_hedgeBuyUsd cfg))
                                 (Builder.usdFromBtc (set_mid cfg))) ;;
        await _ <- (if negb (il_isSettled lookup)
                    then do_call (LndSettleInvoice (wi_pubkey walletInvoice)
                                    (wi_secret walletInvoice))
                    else Ret (Ok tt)) ;;
        credit_received walletInvoice lookup receiver
  end.

Definition updatePendingInvoiceBeforeFinally (walletInvoice : WalletInvoice)
    : prog (result bool) :=
  let pubkey := wi_pubkey walletInvoice in
  let paymentHash := wi_paymentHash walletInvoice in
  await _ <- do_call LndService ;;
  let! lnInvoiceLookup <- do_call (LndLookupInvoice pubkey paymentHash) ;;
  match lnInvoiceLookup with
  | Er e => if is_a e InvoiceNotFoundError then delete_unknown paymentHash else Ret (Er e)
  | Throw e => Ret (Throw e)
  | Ok lookup =>
      match checkedToSats (Some (il_roundedDownReceived lookup)) with
      | Throw e => Ret (Throw e)
      | Er _ => declineHeldInvoice pubkey paymentHash
      | Ok roundedDownReceived =>
          if wi_paid walletInvoice then Ret (Ok true)
          else if negb (il_isHeld lookup) && negb (il_isSettled lookup) then Ret (Ok false)
          else
            await receivedBtc <- Ret (paymentAmountFromNumber (Some roundedDownReceived) Btc) ;;
            lockPaymentHash paymentHash (receive_body walletInvoice lookup receivedBtc)
      end
  end.

(** [if (result)]: an error object is truthy. *)
Definition result_truthy (r : result bool) : bool :=
  match r with Ok b => b | Er _ => true | Throw _ => false end.

Definition updatePendingInvoice (walletInvoice : WalletInvoice) : prog (result bool) :=
  let! result <- updatePendingInvoiceBeforeFinally walletInvoice ;;
  if result_truthy result && negb (wi_paid walletInvoice) then
    let! invoicePaid <- do_call (InvoiceMarkAsPaid (wi_paymentHash walletInvoice)) ;;
    match invoicePaid with
    | Er e => if is_a e CouldNotFindWalletInvoiceError then Ret result else Ret (Er e)
    | Throw e => Ret (Throw e)
    | Ok _ => Ret result
    end
  else Ret result.

Definition updatePendingInvoiceByPaymentHash (paymentHash : string) : prog (result bool) :=
  let! walletInvoice <- do_call (InvoiceFindByPaymentHash paymentHash) ;;
  match walletInvoice with
  | Er e => if is_a e CouldNotFindError then Ret (Ok false) else Ret (Er e)
  | Throw e => Ret (Throw e)
  | Ok i => updatePendingInvoice i
  end.

(** What [handleHeldInvoices] runs for each invoice that is not paid. *)
Definition process_held_invoice (walletInvoice : WalletInvoice) : prog (result bool) :=
  if decide (wd_currency (wi_recipient walletInvoice) = Btc)
  then updatePendingInvoice walletInvoice
  else declineHeldInvoice (wi_pubkey walletInvoice) (wi_paymentHash walletInvoice).

End Handlers.
