(* ===== verification/Prices.v ===== *)
(** * Caches and prices

    [lib/services/cache], [lib/services/price], [lib/services/dealer-price], [lib/app/prices]
    and [lib/app/shared/mid-price.js].  The stores of the caches are those of packages,
    [node-cache] and [ioredis-cache], which forget a value when its time is over.

    The current price is one that the price service quoted, kept for ten minutes at
    most, and the conversions at the middle price are those that the builder of payments
    relies on. *)

From S2P Require Import Prelude JsNum Errors Money PaymentFlow Regex Validation LedgerService RateLimit Programs Effects Persistence Workers TxMetadata Accounts Facade LedgerWrites Payments Invoices.
Import PriceRatio Reach.
#[local] Open Scope string_scope.
#[local] Open Scope Z_scope.
#[local] Open Scope list_scope.

(** ** Calls *)

Record Tick : Type := mkTick { tick_date : number; tick_price : number }.

(** What is kept in the caches. *)
Inductive CacheValue : Type :=
| CacheNumber (n : number)
| CacheTicks (l : list Tick)
| CacheChannels (ids : list string).

(** The procedures of the dealer. *)
Inductive DealerMethod : Type :=
| GetCentsFromSatsForImmediateBuy
| GetCentsFromSatsForImmediateSell
| GetCentsFromSatsForFutureBuy
| GetCentsFromSatsForFutureSell
| GetSatsFromCentsForImmediateBuy
| GetSatsFromCentsForImmediateSell
| GetSatsFromCentsForFutureBuy
| GetSatsFromCentsForFutureSell
| GetCentsPerSatsExchangeMidRate.

(** The response of a procedure, or its error with [details] and [message]. *)
Inductive rpc (A : Type) : Type :=
| Replied (a : A)
| RpcFailed (details message : string).
Arguments Replied {A} a.
Arguments RpcFailed {A} details message.

Inductive pcall : Type -> Type :=
| GetPrice : pcall (db number)
| ListPrices (range : string) : pcall (db (list (number * number)))
| DealerRpc (m : DealerMethod) (amount : number) (timeInSeconds : option Z) : pcall (rpc number)
| LocalSet (key : string) (value : CacheValue) (ttlSecs : Z) : pcall (db bool)
| LocalGet (key : string) : pcall (db (option CacheValue))
| LocalDel (key : string) : pcall (db unit)
| RedisSet (key : string) (value : CacheValue) (ttlSecs : Z) : pcall (db (option CacheValue))
| RedisGet (key : string) : pcall (db (option CacheValue))
| RedisDel (key : string) : pcall (db unit).

Abbreviation pprog := (program pcall).

(** ** [domain/cache/index.js] *)

Module CacheKeys.
Definition OffChainBalance := "lnd:offChainBalance".
Definition OffChainChannelBalances := "lnd:offChainChannelBalances".
Definition OnChainBalance := "lnd:onChainBalance".
Definition OpeningChannelBalance := "lnd:openingChannelBalance".
Definition ClosingChannelBalance := "lnd:closingChannelBalance".
Definition CurrentPrice := "price:current".
Definition PriceHistory := "price:history".
Definition LastOnChainTransactions := "bitcoin:lastOnChainTxs".
Definition BlockHeight := "bitcoin:blockHeight".
Definition ClosedChannels := "lnd:closedChannels".
End CacheKeys.

(** ** [services/cache/local-cache.js] *)

Module LocalCacheService.

Definition local_set (key : string) (value : CacheValue) (ttlSecs : Z) : pprog (result CacheValue) :=
  let! res <- do_call (LocalSet key value ttlSecs) ;;
  match res with
  | Done true => Ret (Ok value)
  | Done false => Ret (Er (new CacheNotAvailableError))
  | Rejected m => Ret (Er (new_msg UnknownCacheServiceError m))
  end.

Definition local_get (key : string) : pprog (result CacheValue) :=
  let! value <- do_call (LocalGet key) ;;
  match value with
  | Done (Some v) => Ret (Ok v)
  | Done None => Ret (Er (new CacheUndefinedError))
  | Rejected m => Ret (Er (new_msg UnknownCacheServiceError m))
  end.

(** The answer of [set] is not waited for. *)
Definition local_getOrSet (key : string) (ttlSecs : Z) (getForCaching : pprog (result CacheValue))
    : pprog (result CacheValue) :=
  let! cachedData <- local_get key ;;
  match cachedData with
  | Ok v => Ret (Ok v)
  | Throw e => Ret (Throw e)
  | Er _ =>
      await data <- getForCaching ;;
      let! _ <- local_set key data ttlSecs ;;
      Ret (Ok data)
  end.

Definition local_clear (key : string) : pprog (result unit) :=
  let! res <- do_call (LocalDel key) ;;
  match res with
  | Done _ => Ret (Ok tt)
  | Rejected m => Ret (Er (new_msg UnknownCacheServiceError m))
  end.

End LocalCacheService.

(** ** [services/cache/redis-cache.js] *)

Module RedisCacheService.

Definition redis_set (key : string) (value : CacheValue) (ttlSecs : Z) : pprog (result CacheValue) :=
  let! res <- do_call (RedisSet key value ttlSecs) ;;
  match res with
  | Done (Some v) => Ret (Ok v)
  | Done None => Ret (Er (new CacheNotAvailableError))
  | Rejected m => Ret (Er (new_msg UnknownCacheServiceError m))
  end.

Definition redis_get (key : string) : pprog (result CacheValue) :=
  let! value <- do_call (RedisGet key) ;;
  match value with
  | Done (Some v) => Ret (Ok v)
  | Done None => Ret (Er (new CacheUndefinedError))
  | Rejected m => Ret (Er (new_msg UnknownCacheServiceError m))
  end.

(** [inflate] is applied to what was kept, when it is given. *)
Definition redis_getOrSet (key : string) (ttlSecs : Z) (getForCaching : pprog (result CacheValue))
    (inflate : option (CacheValue -> CacheValue)) : pprog (result CacheValue) :=
  let! cachedData <- redis_get key ;;
  match cachedData with
  | Ok v => Ret (Ok (match inflate with Some f => f v | None => v end))
  | Throw e => Ret (Throw e)
  | Er _ =>
      await data <- getForCaching ;;
      let! _ <- redis_set key data ttlSecs ;;
      Ret (Ok data)
  end.

Definition redis_clear (key : string) : pprog (result unit) :=
  let! res <- do_call (RedisDel key) ;;
  match res with
  | Done _ => Ret (Ok tt)
  | Rejected m => Ret (Er (new_msg UnknownCacheServiceError m))
  end.

End RedisCacheService.

(** ** [services/price/index.js] *)

Module PriceService.

Definition getRealTimePrice : pprog (result number) :=
  let! r <- do_call GetPrice ;;
  match r with
  | Rejected m => Ret (Er (new_msg UnknownPriceServiceError m))
  | Done price =>
      if num_ltb (num 0) price then Ret (Ok (num_div price SATS_PER_BTC))
      else Ret (Er (new PriceNotAvailableError))
  end.

(** The interval is not sent. *)
Definition listHistory (range : string) : pprog (result (list Tick)) :=
  let! r <- do_call (ListPrices range) ;;
  match r with
  | Rejected m => Ret (Er (new_msg UnknownPriceServiceError m))
  | Done priceHistory =>
      Ret (Ok (List.map (fun t => mkTick (num_mul (fst t) (num 1000)) (num_div (snd t) SATS_PER_BTC))
                 priceHistory))
  end.

End PriceService.

(** ** [app/prices] *)

(** What is found under the keys of this file is what it put there; the other values
    have other keys. *)
Definition number_of (v : CacheValue) : result number :=
  match v with CacheNumber n => Ok n | _ => Throw (new JsTypeError) end.
Definition ticks_of (v : CacheValue) : result (list Tick) :=
  match v with CacheTicks l => Ok l | _ => Throw (new JsTypeError) end.

Definition getCachedPrice : pprog (result number) :=
  let! cachedPrice <- LocalCacheService.local_get CacheKeys.CurrentPrice ;;
  match cachedPrice with
  | Er _ => Ret (Er (new PriceNotAvailableError))
  | Throw e => Ret (Throw e)
  | Ok v => Ret (number_of v)
  end.

Definition getCurrentPrice : pprog (result number) :=
  let! realtimePrice <- PriceService.getRealTimePrice ;;
  match realtimePrice with
  | Er _ => getCachedPrice
  | Throw e => Ret (Throw e)
  | Ok price =>
      let! _ <- LocalCacheService.local_set CacheKeys.CurrentPrice (CacheNumber price) 600 ;;
      Ret (Ok price)
  end.

Definition history_key (range interval : string) : string :=
  CacheKeys.PriceHistory +:+ ":" +:+ range +:+ "-" +:+ interval.

Definition getPriceHistory (range interval : string) : pprog (result (list Tick)) :=
  let! cachedPriceHistory <- LocalCacheService.local_get (history_key range interval) ;;
  match cachedPriceHistory with
  | Ok v => Ret (ticks_of v)
  | Throw e => Ret (Throw e)
  | Er _ =>
      await priceHistory <- PriceService.listHistory range ;;
      match priceHistory with
      | [] => Ret (Er (new PriceHistoryNotAvailableError))
      | _ =>
          let! _ <- LocalCacheService.local_set (history_key range interval) (CacheTicks priceHistory) 300 ;;
          Ret (Ok priceHistory)
      end
  end.

(** ** [services/dealer-price/dealer-price.js] *)

(** An exception that is not the error of a procedure has no [details]. *)
Definition parseDealerErrors (details message : string) : error :=
  if String.eqb details "No connection established" then new NoConnectionToDealerError
  else if str_includes "StalePrice" message then new DealerStalePriceError
  else new_msg UnknownDealerPriceServiceError message.

(** [try { read(response) } catch (error) { parseDealerErrors(error) }]; the message of
    an exception of the conversion is left out. *)
Definition dealer_call {A} (m : DealerMethod) (amount : number) (timeInSeconds : option Z)
    (read : number -> result A) : pprog (result A) :=
  let! response <- do_call (DealerRpc m amount timeInSeconds) ;;
  match response with
  | RpcFailed details message => Ret (Er (parseDealerErrors details message))
  | Replied n => Ret (match read n with Throw _ => Er (new UnknownDealerPriceServiceError) | r => r end)
  end.

Definition toCents (n : number) : result number := Ok n.
Definition toSats (n : number) : result number := Ok n.
Definition toCentsPerSatsRatio (n : number) : result number := Ok n.

Module DealerPriceService.
Definition getCentsFromSatsForImmediateBuy (amountInSatoshis : number) :=
  dealer_call GetCentsFromSatsForImmediateBuy amountInSatoshis None toCents.
Definition getCentsFromSatsForImmediateSell (amountInSatoshis : number) :=
  dealer_call GetCentsFromSatsForImmediateSell amountInSatoshis None toCents.
Definition getCentsFromSatsForFutureBuy (amountInSatoshis : number) (timeToExpiryInSeconds : Z) :=
  dealer_call GetCentsFromSatsForFutureBuy amountInSatoshis (Some timeToExpiryInSeconds) toCents.
Definition getCentsFromSatsForFutureSell (amountInSatoshis : number) (timeToExpiryInSeconds : Z) :=
  dealer_call GetCentsFromSatsForFutureSell amountInSatoshis (Some timeToExpiryInSeconds) toCents.
Definition getSatsFromCentsForImmediateBuy (amountInCents : number) :=
  dealer_call GetSatsFromCentsForImmediateBuy amountInCents None toSats.
Definition getSatsFromCentsForImmediateSell (amountInCents : number) :=
  dealer_call GetSatsFromCentsForImmediateSell amountInCents None toSats.
Definition getSatsFromCentsForFutureBuy (amountInCents : number) (timeToExpiryInSeconds : Z) :=
  dealer_call GetSatsFromCentsForFutureBuy amountInCents (Some timeToExpiryInSeconds) toSats.
Definition getSatsFromCentsForFutureSell (amountInCents : number) (timeToExpiryInSeconds : Z) :=
  dealer_call GetSatsFromCentsForFutureSell amountInCents (Some timeToExpiryInSeconds) toSats.
Definition getCentsPerSatsExchangeMidRate :=
  dealer_call GetCentsPerSatsExchangeMidRate (num 0) None toCentsPerSatsRatio.
End DealerPriceService.

Module NewDealerPriceService.
Section Service.
Context (precision : number) (timeToExpiryInSeconds : Z).

Definition cents (n : number) : result PaymentAmount := paymentAmountFromNumber (Some n) Usd.
Definition sats (n : number) : result PaymentAmount := paymentAmountFromNumber (Some n) Btc.

Definition new_getCentsFromSatsForImmediateBuy (btcAmount : PaymentAmount) :=
  dealer_call GetCentsFromSatsForImmediateBuy (Number (amount btcAmount)) None cents.
Definition new_getCentsFromSatsForImmediateSell (btcAmount : PaymentAmount) :=
  dealer_call GetCentsFromSatsForImmediateSell (Number (amount btcAmount)) None cents.
Definition new_getCentsFromSatsForFutureBuy (btcAmount : PaymentAmount) :=
  dealer_call GetCentsFromSatsForFutureBuy (Number (amount btcAmount)) (Some timeToExpiryInSeconds) cents.
Definition new_getCentsFromSatsForFutureSell (btcAmount : PaymentAmount) :=
  dealer_call GetCentsFromSatsForFutureSell (Number (amount btcAmount)) (Some timeToExpiryInSeconds) cents.
Definition new_getSatsFromCentsForImmediateBuy (usdAmount : PaymentAmount) :=
  dealer_call GetSatsFromCentsForImmediateBuy (Number (amount usdAmount)) None sats.
Definition new_getSatsFromCentsForImmediateSell (usdAmount : PaymentAmount) :=
  dealer_call GetSatsFromCentsForImmediateSell (Number (amount usdAmount)) None sats.
Definition new_getSatsFromCentsForFutureBuy (usdAmount : PaymentAmount) :=
  dealer_call GetSatsFromCentsForFutureBuy (Number (amount usdAmount)) (Some timeToExpiryInSeconds) sats.
Definition new_getSatsFromCentsForFutureSell (usdAmount : PaymentAmount) :=
  dealer_call GetSatsFromCentsForFutureSell (Number (amount usdAmount)) (Some timeToExpiryInSeconds) sats.
Definition new_getCentsPerSatsExchangeMidRate : pprog (result priceRatio) :=
  dealer_call GetCentsPerSatsExchangeMidRate (num 0) None (toPriceRatio precision).
End Service.
End NewDealerPriceService.

(** ** [app/shared/mid-price.js], with its calls *)

Module MidPriceCalls.
Section Calls.
Context (precision : number) (usdHedgeEnabled : bool).

(** [NewDealerPriceService()] is made with the default time. *)
Definition dealer_mid : pprog (result priceRatio) :=
  NewDealerPriceService.new_getCentsPerSatsExchangeMidRate precision.

Definition getCurrentPriceInCentsPerSatAsync : pprog (result priceRatio) :=
  await price <- getCurrentPrice ;;
  Ret (toPriceRatio precision (num_mul price CENTS_PER_USD)).

Definition getMidPriceRatioAsync : pprog (result priceRatio) :=
  if usdHedgeEnabled then
    let! priceRatio <- dealer_mid ;;
    match priceRatio with
    | Er _ => getCurrentPriceInCentsPerSatAsync
    | r => Ret r
    end
  else getCurrentPriceInCentsPerSatAsync.

Definition usdFromBtcMidPriceFnAsync (a : PaymentAmount) : pprog (result PaymentAmount) :=
  await midPriceRatio <- getMidPriceRatioAsync ;; Ret (convertFromBtc midPriceRatio a).
Definition btcFromUsdMidPriceFnAsync (a : PaymentAmount) : pprog (result PaymentAmount) :=
  await midPriceRatio <- getMidPriceRatioAsync ;; Ret (convertFromUsd midPriceRatio a).

End Calls.
End MidPriceCalls.

(** ** The caches keep what the services answered *)

Module PricesSpec.

(** The store of the local cache: [tc_entry] is a value with the time, in milliseconds,
    until which it is kept. *)
Class TtlCache (S : Type) : Type := {
  tc_entry : S -> string -> option (CacheValue * Z);
  tc_set : Z -> string -> CacheValue -> Z -> S -> db bool * S;
  tc_get : Z -> string -> S -> db (option CacheValue) * S;
  tc_del : string -> S -> db unit * S
}.

(** Documented of [node-cache]: a value is found until its time is over; it is set for a
    time, and lost at any moment. *)
Class TtlCacheLaws (S : Type) `{TtlCache S} : Prop := {
  get_alive now k s v s' : tc_get now k s = (Done (Some v), s') ->
    exists exp, tc_entry s k = Some (v, exp) /\ now <= exp;
  get_entry now k s r s' j : tc_get now k s = (r, s') ->
    tc_entry s' j = tc_entry s j \/ tc_entry s' j = None;
  set_entry now k v ttl s r s' j : tc_set now k v ttl s = (r, s') ->
    tc_entry s' j = tc_entry s j \/ tc_entry s' j = None \/
    (j = k /\ tc_entry s' j = Some (v, now + ttl * 1000));
  del_entry k s r s' j : tc_del k s = (r, s') ->
    tc_entry s' j = tc_entry s j \/ tc_entry s' j = None
}.

Section World.
Context {S : Type} `{TtlCache S} {cache_laws : TtlCacheLaws S}.

(** The time, the cache, the prices quoted and those kept, and the rates the dealer replied,
    with their times. *)
Record price_world : Type := mkPrices {
  pw_time : Z;
  pw_cache : S;
  pw_quotes : list (Z * number);
  pw_kept : list (Z * number);
  pw_rates : list (Z * number)
}.

Definition quotes_of (now : Z) (X : Type) (c : pcall X) : X -> list (Z * number) :=
  match c in pcall X return X -> list (Z * number) with
  | GetPrice => fun x => match x with Done q => [(now, q)] | Rejected _ => [] end
  | _ => fun _ => []
  end.
Definition kept_by (now : Z) (X : Type) (c : pcall X) : list (Z * number) :=
  match c with
  | LocalSet k (CacheNumber p) _ => if String.eqb k CacheKeys.CurrentPrice then [(now, p)] else []
  | _ => []
  end.

Definition rates_of (now : Z) (X : Type) (c : pcall X) : X -> list (Z * number) :=
  match c in pcall X return X -> list (Z * number) with
  | DealerRpc _ _ _ => fun x => match x with Replied n => [(now, n)] | RpcFailed _ _ => [] end
  | _ => fun _ => []
  end.

(** Only the cache answers as its laws say; the services answer anything. *)
Definition cache_ans (now : Z) (X : Type) (c : pcall X) (s : S) : X -> S -> Prop :=
  match c in pcall X return X -> S -> Prop with
  | LocalSet k v ttl => fun x s' => tc_set now k v ttl s = (x, s')
  | LocalGet k => fun x s' => tc_get now k s = (x, s')
  | LocalDel k => fun x s' => tc_del k s = (x, s')
  | _ => fun _ s' => s' = s
  end.

Definition price_ans (X : Type) (c : pcall X) (w : price_world) (x : X) (w' : price_world) : Prop :=
  pw_time w <= pw_time w' /\ cache_ans (pw_time w') X c (pw_cache w) x (pw_cache w') /\
  pw_quotes w' = quotes_of (pw_time w') X c x ++ pw_quotes w /\
  pw_kept w' = kept_by (pw_time w') X c ++ pw_kept w /\
  pw_rates w' = rates_of (pw_time w') X c x ++ pw_rates w.

(** A price quoted at [t]. *)
Definition quoted (w : price_world) (t : Z) (p : number) : Prop :=
  exists q, In (t, q) (pw_quotes w) /\ num_ltb (num 0) q = true /\ p = num_div q SATS_PER_BTC.

Definition price_entry (w : price_world) (v : CacheValue) (exp : Z) : Prop :=
  exists p t, v = CacheNumber p /\ quoted w t p /\ t <= exp - 600 * 1000 /\
    In (exp - 600 * 1000, p) (pw_kept w).
Definition history_entry (v : CacheValue) : Prop := exists l, v = CacheTicks l /\ l <> [].

Definition prices_ok (w : price_world) : Prop :=
  (forall v exp, tc_entry (pw_cache w) CacheKeys.CurrentPrice = Some (v, exp) -> price_entry w v exp) /\
  (forall range interval v exp,
     tc_entry (pw_cache w) (history_key range interval) = Some (v, exp) -> history_entry v).

Definition prices_grow (w w' : price_world) : Prop :=
  pw_time w <= pw_time w' /\ pw_quotes w ⊆ pw_quotes w' /\ pw_kept w ⊆ pw_kept w' /\
  pw_rates w ⊆ pw_rates w'.

#[global] Instance prices_grow_preorder : PreOrder prices_grow.
Proof.
  split; [by intros w; split_and!|]. intros w w' w'' (? & ? & ? & ?) (? & ? & ? & ?).
  split_and!; [lia|by etransitivity..].
Qed.

Lemma quoted_grows w w' t p : quoted w t p -> prices_grow w w' -> quoted w' t p.
Proof.
  intros (q & Hq & ? & ?) (_ & Hs & _). exists q. split; [|done].
  apply list_elem_of_In. apply Hs. by apply list_elem_of_In.
Qed.

Lemma entry_grows w w' v exp : price_entry w v exp -> prices_grow w w' -> price_entry w' v exp.
Proof.
  intros (p & t & ? & ? & ? & Hk) Hg. exists p, t. split_and!; [done|by eapply quoted_grows|done|].
  destruct Hg as (_ & _ & Hs & _). apply list_elem_of_In, Hs. by apply list_elem_of_In.
Qed.

(** What may be put in the cache, and what is found there. *)
Definition price_pre (X : Type) (c : pcall X) (w : price_world) : Prop :=
  match c with
  | LocalSet k v ttl =>
      (k = CacheKeys.CurrentPrice -> ttl = 600 /\
         exists p t, v = CacheNumber p /\ quoted w t p /\ t <= pw_time w) /\
      (forall range interval, k = history_key range interval -> history_entry v)
  | _ => True
  end.

Definition price_post (X : Type) (c : pcall X) : X -> price_world -> Prop :=
  match c in pcall X return X -> price_world -> Prop with
  | GetPrice => fun x w => match x with Done q => In (pw_time w, q) (pw_quotes w) | _ => True end
  | LocalGet k => fun x w =>
      match x with
      | Done (Some v) =>
          (k = CacheKeys.CurrentPrice -> exists exp, price_entry w v exp /\ pw_time w <= exp) /\
          (forall range interval, k = history_key range interval -> history_entry v)
      | _ => True
      end
  | DealerRpc _ _ _ => fun x w => match x with Replied n => In (pw_time w, n) (pw_rates w) | _ => True end
  | _ => fun _ _ => True
  end.

Lemma price_pre_grows X (c : pcall X) w w' : price_pre X c w -> prices_grow w w' -> price_pre X c w'.
Proof.
  destruct c; try done. simpl. intros [Hp Hh] Hg. split; [|done]. intros Hk.
  destruct (Hp Hk) as (Ht & p & t & ? & ? & ?). split; [done|]. exists p, t.
  split_and!; [done|by eapply quoted_grows|destruct Hg; lia].
Qed.

Lemma ans_grows X (c : pcall X) w x w' : price_ans X c w x w' -> prices_grow w w'.
Proof.
  intros (Ht & _ & Hq & Hk & Hr). split; [done|]. rewrite Hq, Hk, Hr.
  split_and!; intros y Hy; apply elem_of_app; by right.
Qed.

(** The entries of a store are old ones or the one just set. *)
Lemma entries_kept w w' : prices_ok w -> prices_grow w w' ->
  (forall j, tc_entry (pw_cache w') j = tc_entry (pw_cache w) j \/ tc_entry (pw_cache w') j = None) ->
  prices_ok w'.
Proof.
  intros [Hp Hh] Hg Hj. split.
  - intros v exp He. destruct (Hj CacheKeys.CurrentPrice) as [Hs|Hs]; [|congruence].
    eapply entry_grows; [|done]. apply Hp. congruence.
  - intros r i v exp He. destruct (Hj (history_key r i)) as [Hs|Hs]; [|congruence].
    apply (Hh r i v exp). congruence.
Qed.

Lemma set_keeps w w' k v ttl x : prices_ok w -> price_pre _ (LocalSet k v ttl) w ->
  price_ans _ (LocalSet k v ttl) w x w' -> prices_ok w'.
Proof.
  intros Hok [Hp Hh] Ha. pose proof (ans_grows _ _ _ _ _ Ha) as Hg.
  destruct Ha as (Ht & Hs & _ & Hk & _). simpl in Hs. pose proof Hok as [Hop Hoh]. split.
  - intros v' exp He. destruct (set_entry _ _ _ _ _ _ _ CacheKeys.CurrentPrice Hs) as [Hj|[Hj|[<- Hj]]];
      [|congruence|].
    + eapply entry_grows; [|done]. apply Hop. congruence.
    + rewrite He in Hj. injection Hj as -> ->. destruct (Hp eq_refl) as (-> & p & t & -> & Hq & Hle).
      exists p, t. split_and!; [done|by eapply quoted_grows|lia|].
      rewrite Hk. left. simpl. f_equal. lia.
  - intros r i v' exp He. destruct (set_entry _ _ _ _ _ _ _ (history_key r i) Hs) as [Hj|[Hj|[Hkey Hj]]];
      [|congruence|].
    + apply (Hoh r i v' exp). congruence.
    + rewrite He in Hj. injection Hj as -> ->. by apply (Hh r i).
Qed.

Lemma price_sound X (c : pcall X) w x w' : prices_ok w -> price_pre X c w -> price_ans X c w x w' ->
  prices_ok w' /\ prices_grow w w' /\ price_post X c x w'.
Proof.
  intros Hok Hpre Ha. pose proof (ans_grows _ _ _ _ _ Ha) as Hg. pose proof Ha as (Ht & Hc & Hq & Hk & Hr).
  assert (Hsame : pw_cache w' = pw_cache w -> prices_ok w').
  { intros Hs. apply (entries_kept w); [done..|]. intros j. left. by rewrite Hs. }
  destruct c; simpl in Hc.
  - split_and!; [auto|done|]. destruct x as [q|m]; [|done]. simpl in *. rewrite Hq. by left.
  - split_and!; [auto|done|done].
  - split_and!; [auto|done|]. destruct x as [n|d e]; [|done]. simpl in *. rewrite Hr. by left.
  - split_and!; [by eapply set_keeps|done|done].
  - split_and!; [|done|].
    + apply (entries_kept w); [done..|]. intros j. by eapply get_entry.
    + destruct x as [[v|]|m]; [|done..]. destruct (get_alive _ _ _ _ _ Hc) as (exp & He & Hle).
      destruct Hok as [Hp Hh]. split.
      * intros ->. exists exp. split; [|done]. eapply entry_grows; [by apply Hp|done].
      * intros r i ->. by eapply Hh.
  - split_and!; [|done|done]. apply (entries_kept w); [done..|]. intros j. by eapply del_entry.
  - split_and!; [auto|done|done].
  - split_and!; [auto|done|done].
  - split_and!; [auto|done|done].
Qed.

(** ** The handlers *)

Definition held {A} (p : pprog A) (w : price_world) (Q : A -> price_world -> Prop) : Prop :=
  keeps_to prices_ok prices_grow price_pre price_post p w Q.

(** A price that was quoted in this call, or kept for ten minutes at most. *)
Definition recent (now : Z) (p : number) (w : price_world) : Prop :=
  exists t, quoted w t p /\
    (now <= t \/ exists kept, In (kept, p) (pw_kept w) /\ t <= kept /\ now - 600 * 1000 <= kept).

Definition when_ok {A} (P : A -> price_world -> Prop) (r : result A) (w : price_world) : Prop :=
  forall a, r = Ok a -> P a w.

Lemma cached_held w now : now <= pw_time w ->
  held getCachedPrice w (when_ok (recent now)).
Proof.
  intros Hnow. split; [done|]. intros [[v|]|m] w' Hg Hi Hp; [|done..]. cbn.
  destruct Hp as [Hp _]. destruct (Hp eq_refl) as (exp & (p & t & -> & Hq & Hle & Hk) & Hexp).
  intros a [= <-]. exists t. split; [done|]. right. exists (exp - 600 * 1000).
  destruct Hg. split_and!; [done|done|lia].
Qed.

Lemma keys_differ range interval : CacheKeys.CurrentPrice <> history_key range interval.
Proof. intros He. vm_compute in He. discriminate He. Qed.

Lemma realtime_held w : held PriceService.getRealTimePrice w
  (fun r w' => pw_time w <= pw_time w' /\ when_ok (fun p w' => quoted w' (pw_time w') p) r w').
Proof.
  split; [done|]. intros [q|m] w1 [Ht _] _ Hp; [|by split].
  cbn [pbind]. destruct (num_ltb (num 0) q) eqn:Hpos; (split; [done|]); [|done].
  intros p [= <-]. by exists q.
Qed.

Lemma current_held w : held getCurrentPrice w (when_ok (recent (pw_time w))).
Proof.
  apply keeps_to_bind. eapply keeps_to_mono; [apply realtime_held|].
  intros [p|e|e] w1 [Ht Hq]; [|by apply cached_held|done]. specialize (Hq p eq_refl). cbv beta in Hq.
  split.
  { split; [|by intros r i ?%keys_differ]. intros _. split; [done|].
    exists p, (pw_time w1). split_and!; [done|exact Hq|lia]. }
  intros x w2 Hg2 _ _. assert (Hr : recent (pw_time w) p w2).
  { exists (pw_time w1). split; [by eapply quoted_grows|by left]. }
  destruct x as [[]|m']; by intros a [= <-].
Qed.

Lemma history_held w range interval :
  held (getPriceHistory range interval) w (when_ok (fun l _ => l <> [])).
Proof.
  assert (Hask : forall w, held (rpbind (PriceService.listHistory range) (fun priceHistory =>
      match priceHistory with
      | [] => Ret (Er (new PriceHistoryNotAvailableError))
      | _ => pbind (LocalCacheService.local_set (history_key range interval) (CacheTicks priceHistory) 300)
               (fun _ => Ret (Ok priceHistory))
      end)) w (when_ok (fun l _ => l <> []))).
  { clear w. intros w. split; [done|]. intros [l|m] w1 _ _ _; [|done]. cbn.
    destruct (List.map _ l) as [|t l'] eqn:Hl; [done|]. split.
    - split; [by intros Hk; symmetry in Hk; apply keys_differ in Hk|]. intros r i _. by eexists.
    - intros [[]|m] w2 _ _ _; cbn; by intros a [= <-]. }
  split; [done|]. intros [[v|]|m] w1 _ _ Hp; [|apply Hask..]. cbn.
  destruct Hp as [_ Hp]. destruct (Hp range interval eq_refl) as (l & -> & Hl). by intros a [= <-].
Qed.

Definition among := amid price_ans prices_ok prices_grow.

(** Whatever the price service and the cache answer and other handlers do, a current
    price that is answered was quoted by the price service during this call, or was
    kept in the cache at most ten minutes before it. *)
Theorem current_price_recent (w : price_world) :
  always among getCurrentPrice w (fun r w' => forall p, r = Ok p -> recent (pw_time w) p w').
Proof.
  apply (keeps_to_amid _ _ _ _ _ price_pre_grows price_sound), current_held.
Qed.

(** Whatever the price service and the cache answer and other handlers do,
    getPriceHistory never answers an empty history. *)
Theorem price_history_not_empty (range interval : string) (w : price_world) :
  always among (getPriceHistory range interval) w (fun r _ => r <> Ok []).
Proof.
  eapply always_mono.
  - apply (keeps_to_amid _ _ _ _ _ price_pre_grows price_sound), history_held.
  - intros r w' Hr He. by apply (Hr [] He).
Qed.

(** *** The middle price *)

Lemma toPriceRatio_positive pz ratio r : 0 < pz -> nonneg ratio ->
  toPriceRatio (num pz) ratio = Ok r -> positive_ratio r.
Proof.
  intros Hp Hn. unfold toPriceRatio, bigint_or_throw.
  destruct (BigInt (Math_floor _)) as [u|] eqn:Hu; [|done]. cbn [rbind]. rewrite BigInt_num. cbn [rbind].
  apply PriceRatio_positive; [|simpl; lia]. simpl.
  eapply BigInt_floor_nonneg; [|exact Hu]. apply num_mul_nonneg; [done|]. apply nonneg_num. lia.
Qed.

Lemma recent_nonneg now p w : recent now p w -> nonneg p.
Proof.
  intros (t & (q & _ & Hq & ->) & _). apply num_div_nonneg; [|lia]. by apply num_ltb_nonneg.
Qed.

Section MidPrice.
Context (pz : Z) (Hpz : 0 < pz) (usdHedgeEnabled : bool).

(** A ratio at the rate that the dealer replied in this call, which is negative. *)
Definition negative_rate (now : Z) (r : result priceRatio) (w : price_world) : Prop :=
  exists t n, In (t, n) (pw_rates w) /\ now <= t /\ num_ltb n (num 0) = true /\
    usdHedgeEnabled = true /\ r = toPriceRatio (num pz) n.

Definition positive (now : Z) (r : result priceRatio) (w : price_world) : Prop :=
  when_ok (fun ratio _ => positive_ratio ratio) r w \/ negative_rate now r w.

Lemma current_ratio_held w now :
  held (MidPriceCalls.getCurrentPriceInCentsPerSatAsync (num pz)) w (positive now).
Proof.
  apply keeps_to_bind. eapply keeps_to_mono; [apply current_held|].
  intros [p|e|e] w1 Hr; [|by left..]. left. intros r Hto. eapply toPriceRatio_positive; [exact Hpz| |exact Hto].
  apply num_mul_nonneg; [by eapply recent_nonneg, Hr|]. apply nonneg_num. lia.
Qed.

Lemma mid_ratio_held w :
  held (MidPriceCalls.getMidPriceRatioAsync (num pz) usdHedgeEnabled) w (positive (pw_time w)).
Proof.
  unfold MidPriceCalls.getMidPriceRatioAsync. destruct usdHedgeEnabled eqn:Hh; [|apply current_ratio_held].
  split; [done|]. intros [n|d m] w1 [Ht _] _ Hn; [|apply current_ratio_held]. cbn [pbind].
  destruct (toPriceRatio (num pz) n) as [r|e|e] eqn:Hto; [|apply current_ratio_held..].
  destruct (num_ltb n (num 0)) eqn:Hneg.
  - right. exists (pw_time w1), n. by split_and!.
  - left. intros r' [= <-]. eapply toPriceRatio_positive; [done| |exact Hto].
    destruct n as [|[]|q]; simpl in *; try done.
    apply negb_false_iff, Qle_bool_iff in Hneg. exact Hneg.
Qed.

(** What the builder of payments relies on. *)
Lemma positive_converts (r : result priceRatio) :
  (forall ratio, r = Ok ratio -> positive_ratio ratio) ->
  price_ok (Builder.mkPriceFns (MidPrice.usdFromBtcMidPriceFn r) (MidPrice.btcFromUsdMidPriceFn r)).
Proof.
  intros Hr. destruct r as [ratio|e|e]; [|split; by intros a b|split; by intros a b].
  destruct (Hr ratio eq_refl) as [Hu Hb]. split; intros a b Ha; cbn;
    [rewrite convertFromBtc_spec by lia|rewrite convertFromUsd_spec by lia]; intros [= <-];
    (split; [done|]); apply round_conv_nonneg; lia.
Qed.

(** C38. Whatever the dealer, the price service and the cache answer and other handlers
    do, the two conversions at the middle price that the handlers give to the
    payment flow builder, for a precision that is positive, meet its contract: a
    positive amount is converted to an amount of the other currency that is not
    negative, or to an error; the only exception is that hedging is enabled and the
    dealer replied a negative rate during this call, of which the ratio is then
    made. *)
Theorem mid_price_converts (w : price_world) :
  always among (MidPriceCalls.getMidPriceRatioAsync (num pz) usdHedgeEnabled) w (fun r w' =>
    price_ok (Builder.mkPriceFns (MidPrice.usdFromBtcMidPriceFn r) (MidPrice.btcFromUsdMidPriceFn r)) \/
    negative_rate (pw_time w) r w').
Proof.
  eapply always_mono.
  - apply (keeps_to_amid _ _ _ _ _ price_pre_grows price_sound), mid_ratio_held.
  - intros r w' [Hr|Hr]; [left; by apply positive_converts|by right].
Qed.
End MidPrice.

End World.

(** ** A local cache *)

Definition entries : Type := list (string * (CacheValue * Z)).

Fixpoint entry (s : entries) (k : string) : option (CacheValue * Z) :=
  match s with
  | [] => None
  | (k', v) :: s => if String.eqb k' k then Some v else entry s k
  end.

#[global] Instance entries_cache : TtlCache entries := {
  tc_entry := entry;
  tc_set now k v ttl s := (Done true, (k, (v, now + ttl * 1000)) :: s);
  tc_get now k s :=
    (Done (match entry s k with
           | Some (v, exp) => if now <=? exp then Some v else None
           | None => None
           end), s);
  tc_del k s := (Done tt, List.filter (fun e => negb (String.eqb (fst e) k)) s)
}.

Lemma entry_filter s k j :
  entry (List.filter (fun e => negb (String.eqb (fst e) k)) s) j = entry s j \/
  entry (List.filter (fun e => negb (String.eqb (fst e) k)) s) j = None.
Proof.
  destruct (String.eqb_spec j k) as [->|Hn].
  - right. induction s as [|[k' v] s IH]; [done|]. simpl. destruct (String.eqb k' k) eqn:He; simpl; [done|].
    by rewrite He.
  - left. induction s as [|[k' v] s IH]; [done|]. simpl. destruct (String.eqb_spec k' k) as [->|Hk]; simpl.
    + destruct (String.eqb_spec k j) as [->|]; [done|]. exact IH.
    + by rewrite IH.
Qed.

#[global] Instance entries_laws : TtlCacheLaws entries.
Proof.
  split; cbn [tc_entry tc_set tc_get tc_del entries_cache].
  - intros now k s v s' [= Hg <-]. destruct (entry s k) as [[v' exp]|]; [|done].
    destruct (now <=? exp) eqn:Hle; [|done]. injection Hg as ->. bool_prop. by exists exp.
  - intros now k s r s' j [= _ <-]. by left.
  - intros now k v ttl s r s' j [= _ <-]. simpl. destruct (String.eqb_spec k j) as [->|]; [|by left].
    right. right. done.
  - intros k s r s' j [= _ <-]. apply entry_filter.
Qed.

(** The price is asked for, then the service is down for nine minutes, then for two more. *)
Definition sample_answer (price : db number) (elapsed : Z) (X : Type) (c : pcall X)
    (w : @price_world entries) : X * price_world :=
  let now := pw_time w + elapsed in
  let step {Y} (x : Y) (s : entries) (quotes : list (Z * number)) :=
    (x, mkPrices now s (quotes ++ pw_quotes w) (kept_by now X c ++ pw_kept w) (pw_rates w)) in
  match c in pcall X return X * price_world with
  | GetPrice => step price (pw_cache w) (quotes_of now _ GetPrice price)
  | ListPrices _ => step (Rejected "down") (pw_cache w) []
  | DealerRpc _ _ _ => step (RpcFailed "No connection established" "") (pw_cache w) []
  | LocalSet k v ttl => let '(x, s) := tc_set now k v ttl (pw_cache w) in step x s []
  | LocalGet k => let '(x, s) := tc_get now k (pw_cache w) in step x s []
  | LocalDel k => let '(x, s) := tc_del k (pw_cache w) in step x s []
  | RedisSet _ _ _ => step (Rejected "down") (pw_cache w) []
  | RedisGet _ => step (Rejected "down") (pw_cache w) []
  | RedisDel _ => step (Rejected "down") (pw_cache w) []
  end.

Definition ask (price : db number) (elapsed : Z) (w : @price_world entries) : result number * price_world :=
  let cf0 := @runInParallel pcall price_world unit number [tt] 1 w in
  match scheduled (sample_answer price elapsed) (fun _ => getCurrentPrice) (replicate 3 0%nat) cf0 with
  | Some cf => (match workers cf with WBusy _ (Ret r) :: _ => r | _ => Throw (new JsTypeError) end, world cf)
  | None => (Throw (new JsTypeError), w)
  end.

Definition quoted_world : price_world := snd (ask (Done (num 2000000)) 0 (mkPrices 0 [] [] [] [])).

Example price_is_kept :
  fst (ask (Done (num 2000000)) 0 (mkPrices 0 [] [] [] [])) = Ok (num_div (num 2000000) SATS_PER_BTC) /\
  fst (ask (Rejected "down") 270000 quoted_world) = Ok (num_div (num 2000000) SATS_PER_BTC) /\
  fst (ask (Rejected "down") 330000 quoted_world) = Er (new PriceNotAvailableError).
Proof. vm_compute. auto. Qed.

(** A rate of minus two cents per hundred satoshis converts to a negative amount. *)
Example negative_rate_used : exists r, toPriceRatio (num 1000000) (Fin (-2 # 100)) = Ok r /\
  MidPrice.usdFromBtcMidPriceFn (Ok r) (mkAmount 1000 Btc) = Ok (mkAmount (-20) Usd).
Proof. eexists. split; vm_compute; reflexivity. Qed.

Lemma mid_price_converts_witness :
  always (among (S := entries)) (MidPriceCalls.getMidPriceRatioAsync (num 1000000) true) quoted_world
    (fun r w' => price_ok (Builder.mkPriceFns (MidPrice.usdFromBtcMidPriceFn r) (MidPrice.btcFromUsdMidPriceFn r))
      \/ negative_rate 1000000 true (pw_time quoted_world) r w').
Proof. apply (mid_price_converts 1000000). reflexivity. Defined.
End PricesSpec.
