(* ===== verification/Lnd.v ===== *)
(** * The lightning node

    [lib/services/lnd]: the choice of a node and the errors of its package ([utils.js]),
    the payments and invoices of the node ([index.js]) and its on-chain wallet
    ([onchain-service.js]).  The calls are those of the package [lightning]; a node is
    known by its public key. *)

From S2P Require Import Prelude JsNum Errors Money Regex PaymentFlow Validation Accounts TxMetadata Facade LedgerService LedgerWrites RateLimit Programs Effects Persistence Workers Payments Invoices Prices.
Import LocalCacheService.
#[local] Open Scope string_scope.
#[local] Open Scope Z_scope.
#[local] Open Scope list_scope.

(** ** Errors of the package *)

(** [message] is that of an [Error]; the others are parts of the array that the package
    throws: [err[1]], [err[2].err.details] and [err[2].failures[0][2].err.details]. *)
Record LndError : Type := mkLndError {
  le_message : option string;
  le_type : option string;
  le_details : option string;
  le_failureDetails : option string
}.

Definition parseLndErrorDetails (e : LndError) : option string :=
  str_or (le_details e) (str_or (le_failureDetails e) (le_type e)).

(** An exception of the language: it is no array. *)
Definition js_exception : LndError := mkLndError None None None None.
(** The error of [timeout(TIMEOUT_PAYMENT, "Timeout")]. *)
Definition timeout_error : LndError := mkLndError (Some "Timeout") None None None.

(** The regular expressions are parts of the details; the details that are undefined are
    read as the word. *)
Inductive KnownLndErrorDetails : Type :=
| InsufficientBalance | InsufficientBalanceToAttemptPayment | InvoiceNotFound | InvoiceAlreadyPaid
| UnableToFindRoute | UnknownNextPeer | LndDbCorruption | PaymentRejectedByDestination
| UnknownPaymentHash | PaymentAttemptsTimedOut | ProbeForRouteTimedOut | SentPaymentNotFound
| PaymentInTransition | PaymentForDeleteNotFound | SecretDoesNotMatchAnyExistingHodlInvoice
| ConnectionDropped | TemporaryChannelFailure | InvoiceAlreadySettled | NoConnectionEstablished.

Definition known_text (k : KnownLndErrorDetails) : string :=
  match k with
  | InsufficientBalance => "insufficient local balance"
  | InsufficientBalanceToAttemptPayment => "InsufficientBalanceToAttemptPayment"
  | InvoiceNotFound => "unable to locate invoice"
  | InvoiceAlreadyPaid => "invoice is already paid"
  | UnableToFindRoute => "PaymentPathfindingFailedToFindPossibleRoute"
  | UnknownNextPeer => "UnknownNextPeer"
  | LndDbCorruption => "payment isn't initiated"
  | PaymentRejectedByDestination => "PaymentRejectedByDestination"
  | UnknownPaymentHash => "UnknownPaymentHash"
  | PaymentAttemptsTimedOut => "PaymentAttemptsTimedOut"
  | ProbeForRouteTimedOut => "ProbeForRouteTimedOut"
  | SentPaymentNotFound => "SentPaymentNotFound"
  | PaymentInTransition => "payment is in transition"
  | PaymentForDeleteNotFound => "non bucket element in payments bucket"
  | SecretDoesNotMatchAnyExistingHodlInvoice => "SecretDoesNotMatchAnyExistingHodlInvoice"
  | ConnectionDropped => "Connection dropped"
  | TemporaryChannelFailure => "TemporaryChannelFailure"
  | InvoiceAlreadySettled => "invoice already settled"
  | NoConnectionEstablished => "No connection established"
  end.

Definition details_match (e : LndError) (k : KnownLndErrorDetails) : bool :=
  str_includes (known_text k)
    (match parseLndErrorDetails e with Some d => d | None => "undefined" end).

(** A [switch (true)] on the known details: the first case that matches. *)
Fixpoint switch {A} (e : LndError) (cases : list (KnownLndErrorDetails * A)) (other : A) : A :=
  match cases with
  | [] => other
  | (k, a) :: cases => if details_match e k then a else switch e cases other
  end.

(** The messages made by [JSON.stringify] are left out. *)
Definition handleCommonLightningServiceErrors (e : LndError) : error :=
  switch e [(ConnectionDropped, new OffChainServiceUnavailableError);
            (NoConnectionEstablished, new OffChainServiceUnavailableError)]
    (new UnknownLightningServiceError).

Definition handleCommonRouteNotFoundErrors (e : LndError) : error :=
  switch e [(ConnectionDropped, new OffChainServiceUnavailableError);
            (NoConnectionEstablished, new OffChainServiceUnavailableError)]
    (new UnknownRouteNotFoundError).

Definition handleSendPaymentLndErrors (e : LndError) (paymentHash : string) : error :=
  switch e
    [(InvoiceAlreadyPaid, new LnAlreadyPaidError); (UnableToFindRoute, new RouteNotFoundError);
     (UnknownNextPeer, new UnknownNextPeerError);
     (PaymentRejectedByDestination, new_msg InvoiceExpiredOrBadPaymentHashError paymentHash);
     (UnknownPaymentHash, new_msg InvoiceExpiredOrBadPaymentHashError paymentHash);
     (PaymentAttemptsTimedOut, new PaymentAttemptsTimedOutError);
     (PaymentInTransition, new_msg PaymentInTransitionError paymentHash);
     (TemporaryChannelFailure, new_msg TemporaryChannelFailureError paymentHash);
     (InsufficientBalanceToAttemptPayment, new InsufficientBalanceForLnPaymentError)]
    (handleCommonLightningServiceErrors e).

(** ** Calls *)

(** A promise of the package, and the race of one with [timeout]. *)
Inductive reply (A : Type) : Type :=
| Resolved (a : A)
| Refused (e : LndError).
Arguments Resolved {A} a.
Arguments Refused {A} e.

Inductive raced (A : Type) : Type :=
| InTime (r : reply A)
| TimedOut.
Arguments InTime {A} r.
Arguments TimedOut {A}.

Definition race {A} (r : raced A) : reply A :=
  match r with InTime r => r | TimedOut => Refused timeout_error end.

(** A node of the configuration, with its connection and whether it answers. *)
Inductive NodeType : Type := Offchain | Onchain.
#[global] Instance NodeType_eq_dec : EqDecision NodeType.
Proof. solve_decision. Defined.

Record LndNode : Type := mkNode {
  nd_socket : string;
  nd_pubkey : string;
  nd_type : list NodeType;
  nd_active : bool;
  nd_name : string
}.

(** The connection [lnd] of a node is known by its socket. *)
Abbreviation lnd_conn := string (only parsing).

Record ChannelBalance : Type := mkChannelBalance {
  cb_channel_balance : number;
  cb_inbound : option number;
  cb_pending_balance : number
}.
Record PendingChannel : Type := mkPendingChannel {
  pc_is_closing : bool;
  pc_pending_balance : number;
  pc_local_balance : number
}.

(** An invoice as the node has it; the fields that the application reads. *)
Record RawLnInvoice : Type := mkRawLnInvoice {
  rli_id : string;
  rli_is_confirmed : bool;
  rli_is_held : bool;
  rli_is_canceled : bool;
  rli_received : number;
  rli_description : string
}.

(** A payment as the node lists it, or looks it up; the dates are instants. *)
Record RawPayment : Type := mkRawPayment {
  rpm_id : string;
  rpm_created_at : Z;
  rpm_request : option string;
  rpm_mtokens : string;
  rpm_safe_tokens : number;
  rpm_is_confirmed : bool;
  rpm_confirmed_at : Z;
  rpm_destination : string;
  rpm_secret : option string;
  rpm_safe_fee : number;
  rpm_fee_mtokens : string;
  rpm_hops : list string;
  rpm_attempts : list string;
  rpm_timeout : option number
}.
Record RawPending : Type := mkRawPending {
  rpp_id : string;
  rpp_created_at : Z;
  rpp_request : option string;
  rpp_mtokens : string;
  rpp_safe_tokens : number;
  rpp_timeout : option number;
  rpp_paths : list (list string)        (* the channels of the hops of each path *)
}.
Record GetPaymentResult : Type := mkGetPayment {
  gp_is_confirmed : bool;
  gp_is_failed : bool;
  gp_payment : option RawPayment;
  gp_pending : option RawPending
}.

(** A decoded invoice with the fields that finding a route needs. *)
Record RouteHop : Type := mkRouteHop {
  hop_baseFeeMTokens : option string;
  hop_channel : option string;
  hop_cltvDelta : option number;
  hop_feeRate : option number;
  hop_nodePubkey : string
}.
Record Feature : Type := mkFeature { ft_bit : number; ft_isRequired : bool; ft_type : string }.
Record DecodedInvoice : Type := mkDecoded {
  di_destination : string;
  di_paymentHash : string;
  di_amount : option number;
  di_milliSatsAmount : number;
  di_cltvDelta : option number;
  di_features : option (list Feature);
  di_paymentSecret : option string;
  di_routeHints : list (list RouteHop)
}.

(** The arguments of [probeForRoute]; the base fee of a hop is the string that
    [parseFloat] reads and the millisatoshis the number that is printed. *)
Record ProbeArgs : Type := mkProbeArgs {
  pa_destination : string;
  pa_mtokens : number;
  pa_routes : list (list RouteHop);
  pa_cltv_delta : option number;
  pa_features : option (list Feature);
  pa_max_fee : number;
  pa_payment : option string;
  pa_total_mtokens : option number;
  pa_tokens : number
}.
Record DetailsArgs : Type := mkDetailsArgs {
  da_id : string;
  da_destination : string;
  da_mtokens : Z;
  da_payment : option string;
  da_max_fee : number;
  da_cltv_delta : option number;
  da_features : option (list Feature);
  da_routes : list (list RouteHop)
}.
Record HodlInvoiceArgs : Type := mkHodlArgs {
  ha_id : string;
  ha_description : string;
  ha_description_hash : option string;
  ha_tokens : number;
  ha_expires_at : Z
}.

(** A transaction of the on-chain wallet, with its raw transaction when it is known. *)
Record ChainTransaction : Type := mkChainTx {
  ctx_id : string;
  ctx_is_outgoing : bool;
  ctx_transaction : option string;
  ctx_confirmation_count : option number;
  ctx_fee : option number;
  ctx_created_at : Z
}.

(** The channels and forwards that the accounts of the node are made of. *)
Record Channel : Type := mkChannel {
  chan_is_partner_initiated : bool;
  chan_commit_transaction_fee : number;
  chan_transaction_id : string
}.
Record ClosedChannel : Type := mkClosedChannel {
  cc_id : string;
  cc_close_payments : list (bool * number)            (* is_pending, tokens *)
}.
Record Forward : Type := mkForward { fw_created_at : Z; fw_fee_mtokens : number }.
Record WalletInfo : Type := mkWalletInfo {
  wi_current_block_height : number;
  wi_peers_count : number;
  wi_active_channels_count : number;
  wi_public_key : string
}.

Inductive ListKind : Type := SettledPayments | PendingPaymentsKind | FailedPayments.
#[global] Instance ListKind_eq_dec : EqDecision ListKind.
Proof. solve_decision. Defined.

(** The parameters of the nodes are shared with the check of their health; the ledger and
    the metadata of the database are those of [utils.js]. *)
Inductive lcall : Type -> Type :=
| NodeParams : lcall (list LndNode)
| SetNodeActive (socket : string) (active : bool) : lcall unit
| StatusEvent (started : bool) (socket : string) : lcall unit
| LocalCache {X} (c : pcall X) : lcall X
| GetWalletStatus (lnd : lnd_conn) : lcall (reply (bool * bool))
| GetChannelBalance (lnd : lnd_conn) : lcall (reply ChannelBalance)
| GetPendingChannels (lnd : lnd_conn) : lcall (reply (list PendingChannel))
| ProbeForRoute (lnd : lnd_conn) (args : ProbeArgs) : lcall (raced (option RawRoute))
| CreateHodlInvoice (lnd : lnd_conn) (args : HodlInvoiceArgs) : lcall (reply string)
| GetInvoice (lnd : lnd_conn) (id : string) : lcall (reply RawLnInvoice)
| GetInvoices (lnd : lnd_conn) (token : option string)
    : lcall (reply (list RawLnInvoice * option string))
| GetPayment (lnd : lnd_conn) (id : string) : lcall (reply GetPaymentResult)
| GetPaymentsOf (kind : ListKind) (lnd : lnd_conn) (token : option string)
    : lcall (reply (list RawPayment * option string))
| DeletePayment (lnd : lnd_conn) (id : string) : lcall (reply unit)
| DeleteFailedPayAttempts (lnd : lnd_conn) : lcall (reply unit)
| SettleHodlInvoice (lnd : lnd_conn) (secret : string) : lcall (reply unit)
| CancelHodlInvoice (lnd : lnd_conn) (id : string) : lcall (reply unit)
| PayViaRoutes (lnd : lnd_conn) (id : string) (route : RawRoute)
    : lcall (raced (number * option string))
| PayViaPaymentDetails (lnd : lnd_conn) (args : DetailsArgs)
    : lcall (raced (number * option string))
| GetWalletInfo (lnd : lnd_conn) : lcall (reply WalletInfo)
| GetClosedChannels (lnd : lnd_conn) : lcall (reply (list ClosedChannel))
| GetChannels (lnd : lnd_conn) : lcall (reply (list Channel))
| GetForwards (lnd : lnd_conn) (range : option (Z * Z)) (token : option string)
    : lcall (reply (list Forward * option string))
| GetChainBalance (lnd : lnd_conn) : lcall (reply number)
| GetPendingChainBalance (lnd : lnd_conn) : lcall (reply number)
| GetChainTransactions (lnd : lnd_conn) (after : number) : lcall (reply (list ChainTransaction))
| CreateChainAddress (lnd : lnd_conn) : lcall (reply string)
| GetChainFeeEstimate (lnd : lnd_conn) (address : string) (tokens targetConfirmations : number)
    : lcall (reply number)
| SendToChainAddress (lnd : lnd_conn) (address : string) (tokens targetConfirmations : number)
    (description : option string) : lcall (reply string)
| AddLndRoutingRevenue (amt : number) (collectedOn : string) : lcall (result unit)
| UpdateLndEscrow (amt : number) : lcall (result unit)
| AddLndChannelFee (description : string) (fee : number) (txid : string) : lcall (result unit)
| RoutingFeeLastEntry : lcall (db (option Z))
| SetRoutingFeeLastEntry (day : Z) : lcall (db unit).

Abbreviation lprog := (program lcall).

(** [try { const x = await c; ... } catch (err) { return handle(err) }], where nothing
    else of the block raises. *)
Definition tried {A B} (c : lcall (reply A)) (handle : LndError -> result B)
    (k : A -> lprog (result B)) : lprog (result B) :=
  let! r <- do_call c ;;
  match r with
  | Resolved a => k a
  | Refused e => Ret (handle e)
  end.

(** [await c] where the rejection passes through. *)
Definition replied {A B} (c : lcall (reply A)) (k : A -> lprog (reply B)) : lprog (reply B) :=
  let! r <- do_call c ;;
  match r with
  | Resolved a => k a
  | Refused e => Ret (Refused e)
  end.

(** The programs of the local cache. *)
Definition cached {A} (p : pprog A) : lprog A := interp (fun X c => do_call (LocalCache c)) p.

(** [getOrSet] of [services/cache/local-cache.js], for the programs of this file; [value]
    is the value of what is got, when it is kept. *)
Definition getOrSet_with {R} (answer : CacheValue -> R) (value : R -> option CacheValue)
    (key : string) (ttlSecs : Z) (getForCaching : lprog R) : lprog R :=
  let! cachedData <- cached (local_get key) ;;
  match cachedData with
  | Ok v => Ret (answer v)
  | _ =>
      let! data <- getForCaching ;;
      match value data with
      | Some v => let! _ <- cached (local_set key v ttlSecs) ;; Ret data
      | None => Ret data
      end
  end.

Definition reply_value (r : reply CacheValue) : option CacheValue :=
  match r with Resolved v => Some v | Refused _ => None end.

(** ** Nodes: [services/lnd/utils.js] *)

Definition getLnds (type : option NodeType) (active : bool) (params : list LndNode) : list LndNode :=
  let result := match type with
                | Some t => List.filter (fun node => bool_decide (t ∈ nd_type node)) params
                | None => params
                end in
  if active then List.filter nd_active result else result.

Definition getActiveLnd (params : list LndNode) : result LndNode :=
  match getLnds (Some Offchain) true params with
  | [] => Er (new_msg OffChainServiceUnavailableError "no active lightning node (for offchain)")
  | node :: _ => Ok node
  end.

Definition getActiveOnchainLnd (params : list LndNode) : result LndNode :=
  match getLnds (Some Onchain) true params with
  | [] => Er (new_msg OnChainServiceUnavailableError "no active lightning node (for onchain)")
  | node :: _ => Ok node
  end.

Definition getLndFromPubkey (pubkey : string) (params : list LndNode) : result lnd_conn :=
  match List.find (fun node => String.eqb (nd_pubkey node) pubkey) (getLnds None true params) with
  | Some node => Ok (nd_socket node)
  | None => Er (new_msg NoValidNodeForPubkeyError ("lnd with pubkey:" +:+ pubkey +:+ " is offline"))
  end.

(** Reading the nodes. *)
Definition from_nodes {A} (f : list LndNode -> A) : lprog A :=
  let! params <- do_call NodeParams ;; Ret (f params).

(** ** Health of the nodes: [services/lnd/health.js] *)

(** [param] is the node of [unauth.js]: its own flag is returned.  A node whose socket is
    no longer configured raises. *)
Definition isLndUp (param : LndNode) : lprog (result LndNode) :=
  let! status <- do_call (GetWalletStatus (nd_socket param)) ;;
  let active := match status with
                | Resolved (is_active, is_ready) => is_active && is_ready
                | Refused _ => false
                end in
  let! params <- do_call NodeParams ;;
  if existsb (fun p => String.eqb (nd_socket p) (nd_socket param)) params
  then
    let! _ <- do_call (SetNodeActive (nd_socket param) active) ;;
    let! _ <- (if active && negb (nd_active param)
               then do_call (StatusEvent true (nd_socket param)) else Ret tt) ;;
    let! _ <- (if negb active && nd_active param
               then do_call (StatusEvent false (nd_socket param)) else Ret tt) ;;
    Ret (Ok (mkNode (nd_socket param) (nd_pubkey param) (nd_type param) active (nd_name param)))
  else Ret (Throw (new_msg JsError "unreachable: this should not happen, authParam should not be null")).

(** ** Payments and invoices: [services/lnd/index.js]

    The service is made with the active node, whose connection and public key it keeps. *)

(** [LndService()]. *)
Definition LndService_new : lprog (result LndNode) := from_nodes getActiveLnd.

Definition isLocal (pubkey : string) : lprog bool :=
  from_nodes (fun params =>
    existsb (fun item => String.eqb (nd_pubkey item) pubkey) (getLnds (Some Offchain) false params)).
Definition listActivePubkeys (type : NodeType) : lprog (list string) :=
  from_nodes (fun params => List.map nd_pubkey (getLnds (Some type) true params)).
Definition listAllPubkeys : lprog (list string) :=
  from_nodes (fun params => List.map nd_pubkey (getLnds (Some Offchain) false params)).

(** [pubkey ? getLndFromPubkey({ pubkey }) : lnd]. *)
Definition node_for (self : LndNode) (pubkey : option string) : lprog (result lnd_conn) :=
  match pubkey with
  | Some (String _ _ as k) => from_nodes (getLndFromPubkey k)
  | _ => Ret (Ok (nd_socket self))
  end.

(** [lodash.sumby]. *)
Definition sumBy {A} (f : A -> number) (l : list A) : number :=
  match l with
  | [] => num 0
  | x :: xs => fold_left (fun sum y => num_add sum (f y)) xs (f x)
  end.

Section Offchain.
Context (self : LndNode).

Definition lnd_getBalance (pubkey : option string) : lprog (result number) :=
  await lnd <- node_for self pubkey ;;
  tried (GetChannelBalance lnd) (fun e => Er (handleCommonLightningServiceErrors e)) (fun b =>
  Ret (Ok (cb_channel_balance b))).

Record InboundOutbound : Type := mkInboundOutbound {
  io_channelBalance : number;
  io_inbound : number;
  io_outbound : number
}.

Definition details_error (c : ErrClass) (e : LndError) : error :=
  match parseLndErrorDetails e with Some d => new_msg c d | None => new c end.

Definition getInboundOutboundBalance (pubkey : option string) : lprog (result InboundOutbound) :=
  await lnd <- node_for self pubkey ;;
  tried (GetChannelBalance lnd) (fun e => Er (details_error UnknownLightningServiceError e)) (fun b =>
  let inboundBal := default (num 0) (cb_inbound b) in
  let outbound := num_sub (cb_channel_balance b) inboundBal in
  Ret (Ok (mkInboundOutbound (cb_channel_balance b) inboundBal outbound))).

Definition getOpeningChannelsBalance (pubkey : option string) : lprog (result number) :=
  await lnd <- node_for self pubkey ;;
  tried (GetChannelBalance lnd) (fun e => Er (handleCommonLightningServiceErrors e)) (fun b =>
  Ret (Ok (cb_pending_balance b))).

Definition closing_balance (c : PendingChannel) : number :=
  if pc_is_closing c
  then if num_truthy (pc_pending_balance c) then pc_pending_balance c else pc_local_balance c
  else num 0.

Definition getClosingChannelsBalance (pubkey : option string) : lprog (result number) :=
  await lnd <- node_for self pubkey ;;
  tried (GetPendingChannels lnd) (fun e => Er (handleCommonLightningServiceErrors e)) (fun channels =>
  Ret (Ok (sumBy closing_balance channels))).

(** The millisatoshis of the invoice, or those of the amount. *)
Definition probe_mtokens (decodedInvoice : DecodedInvoice) (amt : number) : number :=
  if num_ltb (num 0) (di_milliSatsAmount decodedInvoice) then di_milliSatsAmount decodedInvoice
  else num_mul amt (num 1000).

(** [x || undefined] on numbers. *)
Definition num_or_undefined (n : option number) : option number :=
  match n with Some x => if num_truthy x then Some x else None | None => None end.

Definition probe_args (decodedInvoice : DecodedInvoice) (maxFee amt : number) : ProbeArgs :=
  mkProbeArgs (di_destination decodedInvoice) (probe_mtokens decodedInvoice amt)
    (di_routeHints decodedInvoice) (num_or_undefined (di_cltvDelta decodedInvoice))
    (di_features decodedInvoice) maxFee
    (str_or (di_paymentSecret decodedInvoice) None)
    (if str_truthy (di_paymentSecret decodedInvoice)
     then Some (probe_mtokens decodedInvoice amt) else None)
    amt.

Definition probe_error (e : LndError) : error :=
  if bool_decide (le_message e = Some "Timeout") then new ProbeForRouteTimedOutFromApplicationError
  else switch e [(InsufficientBalance, new InsufficientBalanceForRoutingError);
                 (ProbeForRouteTimedOut, new ProbeForRouteTimedOutError)]
         (handleCommonRouteNotFoundErrors e).

Definition probeForRoute (decodedInvoice : DecodedInvoice) (maxFee amt : number)
    : lprog (result RawRoute) :=
  let! r <- do_call (ProbeForRoute (nd_socket self) (probe_args decodedInvoice maxFee amt)) ;;
  match race r with
  | Refused e => Ret (Er (probe_error e))
  | Resolved None => Ret (Er (new RouteNotFoundError))
  | Resolved (Some route) => Ret (Ok route)
  end.

(** [Number(amount.amount)] when an amount is given, that of the invoice otherwise. *)
Definition route_sats (invoice : DecodedInvoice) (amt : option PaymentAmount) : result number :=
  match amt with
  | Some a => Ok (Number (amount a))
  | None =>
      match di_amount invoice with
      | Some x =>
          if num_truthy x && num_ltb (num 0) x then Ok x
          else Er (new_msg LightningServiceError
                     "No amount invoice passed to method. Expected a valid amount to be present.")
      | None => Er (new_msg LightningServiceError
                      "No amount invoice passed to method. Expected a valid amount to be present.")
      end
  end.

(** The cap of the fees is the default one. *)
Definition findRouteForInvoice (invoice : DecodedInvoice) (amt : option PaymentAmount)
    : lprog (result (string * RawRoute)) :=
  await sats <- Ret (route_sats invoice amt) ;;
  await btcAmount <- Ret (paymentAmountFromNumber (Some sats) Btc) ;;
  await maxFeeAmount <- Ret (LnFees.maxProtocolFee LnFees.FEECAP_BASIS_POINTS btcAmount) ;;
  await rawRoute <- probeForRoute invoice (Number (amount maxFeeAmount)) sats ;;
  Ret (Ok (nd_pubkey self, rawRoute)).

Definition findRouteForNoAmountInvoice (decodedInvoice : DecodedInvoice) (maxFee : number)
    (amt : option number) : lprog (result RawRoute) :=
  match amt with
  | Some x =>
      if num_truthy x && num_ltb (num 0) x then probeForRoute decodedInvoice maxFee x
      else Ret (Er (new_msg LightningServiceError
             "Invalid amount passed to method for invoice with no amount. Expected a valid amount to be passed."))
  | None => Ret (Er (new_msg LightningServiceError
             "Invalid amount passed to method for invoice with no amount. Expected a valid amount to be passed."))
  end.

(** [decodeInvoice] is that of [domain/bitcoin/lightning], which decodes with a package. *)
Definition registerInvoice (decodeInvoice : string -> result LnInvoice) (args : RegisterInvoiceArgs)
    : lprog (result RegisteredInvoice) :=
  let input := mkHodlArgs (ra_paymentHash args) (ra_description args) (ra_descriptionHash args)
                 (ra_sats args) (ra_expiresAt args) in
  tried (CreateHodlInvoice (nd_socket self) input) (fun e => Er (handleCommonLightningServiceErrors e))
    (fun request =>
       match decodeInvoice request with
       | Ok returnedInvoice => Ret (Ok (mkRegistered returnedInvoice (nd_pubkey self)))
       | Er e => Ret (Er (new_msg CouldNotDecodeReturnedPaymentRequest (error_message e)))
       | Throw _ => Ret (Er (handleCommonLightningServiceErrors js_exception))
       end).

End Offchain.

Definition translateLnInvoiceLookup (invoice : RawLnInvoice) : LnInvoiceLookup :=
  mkInvoiceLookup (rli_id invoice) (rli_is_confirmed invoice) (rli_is_held invoice)
    (rli_is_canceled invoice) (rli_received invoice) (rli_description invoice).

Definition lnd_lookupInvoice (pubkey paymentHash : string) : lprog (result LnInvoiceLookup) :=
  await lnd <- from_nodes (getLndFromPubkey pubkey) ;;
  tried (GetInvoice lnd paymentHash)
    (fun e => Er (switch e [(InvoiceNotFound, new InvoiceNotFoundError)]
                    (handleCommonLightningServiceErrors e)))
    (fun invoice => Ret (Ok (translateLnInvoiceLookup invoice))).

Definition lnd_settleInvoice (pubkey secret : string) : lprog (result bool) :=
  await lnd <- from_nodes (getLndFromPubkey pubkey) ;;
  tried (SettleHodlInvoice lnd secret)
    (fun e => Er (switch e [(SecretDoesNotMatchAnyExistingHodlInvoice,
                             new SecretDoesNotMatchAnyExistingHodlInvoiceError)]
                    (handleCommonLightningServiceErrors e)))
    (fun _ => Ret (Ok true)).

Definition lnd_cancelInvoice (pubkey paymentHash : string) : lprog (result bool) :=
  await lnd <- from_nodes (getLndFromPubkey pubkey) ;;
  tried (CancelHodlInvoice lnd paymentHash)
    (fun e => switch e [(InvoiceNotFound, Ok true); (InvoiceAlreadySettled, Ok true)]
                (Er (handleCommonLightningServiceErrors e)))
    (fun _ => Ret (Ok true)).

(** *** Paying *)

Record LndPayResult : Type := mkLndPay {
  lpr_roundedUpFee : number;
  lpr_revealedPreImage : option string;
  lpr_sentFromPubkey : string
}.

Definition pay_error (paymentHash : string) (e : LndError) : error :=
  if bool_decide (le_message e = Some "Timeout") then new LnPaymentPendingError
  else handleSendPaymentLndErrors e paymentHash.

Definition pay_result (paymentHash pubkey : string) (r : raced (number * option string))
    : result LndPayResult :=
  match race r with
  | Resolved (safe_fee, secret) => Ok (mkLndPay safe_fee secret pubkey)
  | Refused e => Er (pay_error paymentHash e)
  end.

Definition payInvoiceViaRoutes (paymentHash : string) (rawRoute : RawRoute) (pubkey : string)
    : lprog (result LndPayResult) :=
  await lnd <- from_nodes (getLndFromPubkey pubkey) ;;
  let! paymentResult <- do_call (PayViaRoutes lnd paymentHash rawRoute) ;;
  Ret (pay_result paymentHash pubkey paymentResult).

Definition payment_details_args (decodedInvoice : DecodedInvoice)
    (btcPaymentAmount maxFeeAmount : PaymentAmount) : DetailsArgs :=
  mkDetailsArgs (di_paymentHash decodedInvoice) (di_destination decodedInvoice)
    (amount btcPaymentAmount * 1000) (di_paymentSecret decodedInvoice) (Number (amount maxFeeAmount))
    (num_or_undefined (di_cltvDelta decodedInvoice)) (di_features decodedInvoice)
    (di_routeHints decodedInvoice).

Definition payInvoiceViaPaymentDetails (self : LndNode) (decodedInvoice : DecodedInvoice)
    (btcPaymentAmount maxFeeAmount : PaymentAmount) : lprog (result LndPayResult) :=
  let! paymentResult <- do_call (PayViaPaymentDetails (nd_socket self)
                          (payment_details_args decodedInvoice btcPaymentAmount maxFeeAmount)) ;;
  Ret (pay_result (di_paymentHash decodedInvoice) (nd_pubkey self) paymentResult).

(** *** Looking up payments *)

Record ConfirmedDetails : Type := mkConfirmed {
  cd_confirmedAt : Z;
  cd_destination : string;
  cd_revealedPreImage : option string;
  cd_roundedUpFee : number;
  cd_milliSatsFee : number;
  cd_hopPubkeys : option (list string)
}.
Record PaymentDetails : Type := mkPaymentDetails {
  pd_createdAt : Z;
  pd_status : PaymentStatus;
  pd_paymentRequest : option string;
  pd_paymentHash : string;
  pd_milliSatsAmount : number;
  pd_roundedUpAmount : number;
  pd_confirmedDetails : option ConfirmedDetails;
  pd_attempts : option (list string)
}.

(** What is known of a payment: its details, or only that it failed. *)
Inductive PaymentLookup : Type :=
| Looked (d : PaymentDetails)
| LookedFailed.

Definition lookup_status (l : PaymentLookup) : PaymentStatus :=
  match l with Looked d => pd_status d | LookedFailed => PaymentFailed end.

Definition toMilliSatsFromString (s : string) : number := parseInt10 s.

(** The values under the two keys are those that this file puts there. *)
Definition current_block_height (lnd : lnd_conn) : lprog (reply number) :=
  let! v <- getOrSet_with Resolved reply_value CacheKeys.BlockHeight SECS_PER_5_MINS
              (replied (GetWalletInfo lnd) (fun i => Ret (Resolved (CacheNumber (wi_current_block_height i))))) ;;
  match v with
  | Resolved (CacheNumber h) => Ret (Resolved h)
  | Resolved _ => Ret (Refused js_exception)
  | Refused e => Ret (Refused e)
  end.

(** Only the identifiers of the closed channels are kept in the model. *)
Definition closed_channels (lnd : lnd_conn) : lprog (reply (list string)) :=
  let! v <- getOrSet_with Resolved reply_value CacheKeys.ClosedChannels SECS_PER_5_MINS
              (replied (GetClosedChannels lnd) (fun l => Ret (Resolved (CacheChannels (List.map cc_id l))))) ;;
  match v with
  | Resolved (CacheChannels ids) => Ret (Resolved ids)
  | Resolved _ => Ret (Refused js_exception)
  | Refused e => Ret (Refused e)
  end.

(** The first channel of every path is closed; a path without hops raises. *)
Fixpoint all_first_closed (closedChannels : list string) (paths : list (list string)) : option bool :=
  match paths with
  | [] => Some true
  | [] :: _ => None
  | (first :: _) :: rest =>
      match all_first_closed closedChannels rest with
      | Some b => Some (existsb (String.eqb first) closedChannels && b)
      | None => None
      end
  end.

(** [pending?.timeout || payment?.timeout]. *)
Definition payment_timeout (result : GetPaymentResult) : option number :=
  let of_pending := match gp_pending result with Some p => rpp_timeout p | None => None end in
  let of_payment := match gp_payment result with Some p => rpm_timeout p | None => None end in
  match num_or_undefined of_pending with
  | Some t => Some t
  | None => num_or_undefined of_payment
  end.

Definition resolvePaymentStatus (lnd : lnd_conn) (result : GetPaymentResult)
    : lprog (reply PaymentStatus) :=
  if gp_is_confirmed result then Ret (Resolved PaymentSettled)
  else if gp_is_failed result then Ret (Resolved PaymentFailed)
  else
    let! currentBlockHeight <- current_block_height lnd ;;
    match currentBlockHeight with
    | Refused e => Ret (Refused e)
    | Resolved height =>
        match payment_timeout result, gp_pending result with
        | Some timeout, Some pending =>
            if num_ltb timeout height then
              let! closedChannels <- closed_channels lnd ;;
              match closedChannels with
              | Refused e => Ret (Refused e)
              | Resolved ids =>
                  match all_first_closed ids (rpp_paths pending) with
                  | None => Ret (Refused js_exception)
                  | Some true => Ret (Resolved PaymentFailed)
                  | Some false => Ret (Resolved PaymentPending)
                  end
              end
            else Ret (Resolved PaymentPending)
        | _, _ => Ret (Resolved PaymentPending)
        end
    end.

(** The details of a payment are given as confirmed whatever its status is. *)
Definition payment_lookup (status : PaymentStatus) (payment : RawPayment) : PaymentLookup :=
  Looked (mkPaymentDetails (rpm_created_at payment) status (str_or (rpm_request payment) None)
            (rpm_id payment) (toMilliSatsFromString (rpm_mtokens payment)) (rpm_safe_tokens payment)
            (Some (mkConfirmed (rpm_confirmed_at payment) (rpm_destination payment) (rpm_secret payment)
                     (rpm_safe_fee payment) (toMilliSatsFromString (rpm_fee_mtokens payment)) None))
            None).

Definition pending_lookup (status : PaymentStatus) (pending : RawPending) : PaymentLookup :=
  Looked (mkPaymentDetails (rpp_created_at pending) status (str_or (rpp_request pending) None)
            (rpp_id pending) (toMilliSatsFromString (rpp_mtokens pending)) (rpp_safe_tokens pending)
            None None).

Definition looked_up (result : GetPaymentResult) (status : PaymentStatus) : Errors.result PaymentLookup :=
  match gp_payment result, gp_pending result with
  | Some payment, _ => Ok (payment_lookup status payment)
  | None, Some pending => Ok (pending_lookup status pending)
  | None, None =>
      if decide (status = PaymentFailed) then Ok LookedFailed else Er (new BadPaymentDataError)
  end.

Definition lookup_error (e : LndError) : error :=
  switch e [(SentPaymentNotFound, new PaymentNotFoundError)] (handleCommonLightningServiceErrors e).

Definition lookupPaymentByPubkeyAndHash (pubkey paymentHash : string) : lprog (result PaymentLookup) :=
  await lnd <- from_nodes (getLndFromPubkey pubkey) ;;
  tried (GetPayment lnd paymentHash) (fun e => Er (lookup_error e)) (fun result =>
  let! status <- resolvePaymentStatus lnd result ;;
  match status with
  | Refused e => Ret (Er (lookup_error e))
  | Resolved status => Ret (looked_up result status)
  end).

(** The first node that knows the payment; the errors of the others are skipped. *)
Fixpoint lookup_each (pubkeys : list string) (paymentHash : string) : lprog (result PaymentLookup) :=
  match pubkeys with
  | [] => Ret (Er (new PaymentNotFoundError))
  | pubkey :: rest =>
      let! payment <- lookupPaymentByPubkeyAndHash pubkey paymentHash ;;
      match payment with
      | Er _ => lookup_each rest paymentHash
      | r => Ret r
      end
  end.

Definition lnd_lookupPayment (pubkey : option string) (paymentHash : string)
    : lprog (result PaymentLookup) :=
  match pubkey with
  | Some (String _ _ as k) => lookupPaymentByPubkeyAndHash k paymentHash
  | _ => let! pubkeys <- listAllPubkeys ;; lookup_each pubkeys paymentHash
  end.

(** *** Lists, by pages *)

Definition translateLnPaymentLookup (p : RawPayment) : PaymentDetails :=
  mkPaymentDetails (rpm_created_at p)
    (if rpm_is_confirmed p then PaymentSettled else PaymentPending)
    (rpm_request p) (rpm_id p) (toMilliSatsFromString (rpm_mtokens p)) (rpm_safe_tokens p)
    (if rpm_is_confirmed p
     then Some (mkConfirmed (rpm_confirmed_at p) (rpm_destination p) (rpm_secret p) (rpm_safe_fee p)
                  (toMilliSatsFromString (rpm_fee_mtokens p)) (Some (rpm_hops p)))
     else None)
    (Some (rpm_attempts p)).

(** A page of payments and the cursor of its end, [None] being [false]. *)
Definition listPaymentsFactory (kind : ListKind) (after : option string) (pubkey : string)
    : lprog (result (list PaymentDetails * option string)) :=
  await lnd <- from_nodes (getLndFromPubkey pubkey) ;;
  tried (GetPaymentsOf kind lnd (str_or after None))
    (fun e => Er (switch e [(LndDbCorruption,
                             new_msg CorruptLndDbError ("Corrupted DB error for node with pubkey: " +:+ pubkey))]
                    (handleCommonRouteNotFoundErrors e)))
    (fun '(payments, next) =>
       Ret (Ok (List.map translateLnPaymentLookup payments, str_or next None))).

Definition with_status (s : PaymentStatus) (p : PaymentDetails) : PaymentDetails :=
  mkPaymentDetails (pd_createdAt p) s (pd_paymentRequest p) (pd_paymentHash p) (pd_milliSatsAmount p)
    (pd_roundedUpAmount p) (pd_confirmedDetails p) (pd_attempts p).

Definition listSettledPayments := listPaymentsFactory SettledPayments.
Definition listPendingPayments := listPaymentsFactory PendingPaymentsKind.
Definition listFailedPayments (after : option string) (pubkey : string)
    : lprog (result (list PaymentDetails * option string)) :=
  await result <- listPaymentsFactory FailedPayments after pubkey ;;
  Ret (Ok (List.map (with_status PaymentFailed) (fst result), snd result)).

(** The loop on the pages of invoices: [None] when [fuel] pages are not the last ones. *)
Fixpoint listInvoices_from (fuel : nat) (lnd : lnd_conn) (after : option string)
    (rawInvoices : list RawLnInvoice) : lprog (option (result (list LnInvoiceLookup))) :=
  match fuel with
  | O => Ret None
  | S fuel =>
      let! page <- do_call (GetInvoices lnd after) ;;
      match page with
      | Refused e => Ret (Some (Er (handleCommonLightningServiceErrors e)))
      | Resolved (invoices, next) =>
          let rawInvoices := (rawInvoices ++ invoices)%list in
          match str_or next None with
          | None => Ret (Some (Ok (List.map translateLnInvoiceLookup rawInvoices)))
          | Some token => listInvoices_from fuel lnd (Some token) rawInvoices
          end
      end
  end.

Definition listInvoices (fuel : nat) (lnd : lnd_conn) : lprog (option (result (list LnInvoiceLookup))) :=
  listInvoices_from fuel lnd None [].

(** *** Deleting payments *)

Definition deletePaymentByPubkeyAndHash (paymentHash pubkey : string) : lprog (result bool) :=
  await lnd <- from_nodes (getLndFromPubkey pubkey) ;;
  tried (DeletePayment lnd paymentHash)
    (fun e => switch e [(PaymentForDeleteNotFound, Ok false)] (Er (handleCommonRouteNotFoundErrors e)))
    (fun _ => Ret (Ok true)).

Fixpoint delete_each (pubkeys : list string) (paymentHash : string) : lprog (result bool) :=
  match pubkeys with
  | [] => Ret (Ok true)
  | pubkey :: rest =>
      await payment <- deletePaymentByPubkeyAndHash paymentHash pubkey ;;
      if (payment : bool) then Ret (Ok payment) else delete_each rest paymentHash
  end.

Definition deletePaymentByHash (paymentHash : string) (pubkey : option string) : lprog (result bool) :=
  match pubkey with
  | Some (String _ _ as k) => delete_each [k] paymentHash
  | _ => let! pubkeys <- listAllPubkeys ;; delete_each pubkeys paymentHash
  end.

(** ** The on-chain wallet: [services/lnd/onchain-service.js] *)

Inductive OnChainErrorDetails : Type :=
| InsufficientFunds | OnChainConnectionDropped | CPFPAncestorLimitReached | OnChainNoConnection.

(** [.] is any character but the ends of lines. *)
Definition not_newline (c : Ascii.ascii) : bool :=
  negb (Nat.eqb (Ascii.nat_of_ascii c) 10) && negb (Nat.eqb (Ascii.nat_of_ascii c) 13).

Definition anything : regex := Star (Cls (fun _ => true)).
Definition cpfp_regex : regex :=
  Cat anything
    (Cat (lit "unmatched backend error: -26: too-long-mempool-chain, too many ")
       (Cat (Star (Cls not_newline))
          (Cat (lit " [limit: ") (Cat (one_or_more (Cls is_digit)) (Cat (lit "]") anything))))).

Definition onchain_match (e : LndError) (k : OnChainErrorDetails) : bool :=
  let details := match parseLndErrorDetails e with Some d => d | None => "undefined" end in
  match k with
  | InsufficientFunds => str_includes "insufficient funds available to construct transaction" details
  | OnChainConnectionDropped => str_includes "Connection dropped" details
  | CPFPAncestorLimitReached => accepts cpfp_regex details
  | OnChainNoConnection => str_includes "No connection established" details
  end.

Fixpoint onchain_switch (e : LndError) (cases : list (OnChainErrorDetails * error)) (other : error) : error :=
  match cases with
  | [] => other
  | (k, a) :: cases => if onchain_match e k then a else onchain_switch e cases other
  end.

Definition handleCommonOnChainServiceErrors (e : LndError) : error :=
  onchain_switch e [(OnChainConnectionDropped, new OnChainServiceUnavailableError);
                    (OnChainNoConnection, new OnChainServiceUnavailableError)]
    (new UnknownOnChainServiceError).

(** [OnChainService(decoder)]. *)
Definition OnChainService_new : lprog (result LndNode) := from_nodes getActiveOnchainLnd.

Definition getCachedHeight : lprog number :=
  let! cachedHeight <- cached (local_get CacheKeys.BlockHeight) ;;
  match cachedHeight with
  | Ok (CacheNumber h) => Ret h
  | _ => Ret (num 0)
  end.

Section Onchain.
(** [decode] is that of the package: the identifier and the outputs of a raw transaction. *)
Context (self : LndNode) (decode : string -> string * list TxOut).

Definition onchain_getBalance (pubkey : option string) : lprog (result number) :=
  await lndInstance <- node_for self pubkey ;;
  tried (GetChainBalance lndInstance) (fun e => Er (details_error OnChainServiceUnavailableError e))
    (fun chain_balance => Ret (Ok chain_balance)).

Definition getPendingBalance (pubkey : option string) : lprog (result number) :=
  await lndInstance <- node_for self pubkey ;;
  tried (GetPendingChainBalance lndInstance) (fun e => Er (details_error OnChainServiceUnavailableError e))
    (fun pending_chain_balance => Ret (Ok pending_chain_balance)).

(** The height of the chain, from the cache unless it is zero. *)
Definition scan_height : lprog (reply number) :=
  let! blockHeight <- getCachedHeight ;;
  if num_truthy blockHeight then Ret (Resolved blockHeight)
  else
    replied (GetWalletInfo (nd_socket self)) (fun i =>
    let! _ <- cached (local_set CacheKeys.BlockHeight (CacheNumber (wi_current_block_height i)) SECS_PER_5_MINS) ;;
    Ret (Resolved (wi_current_block_height i))).

(** The transactions are returned without being awaited, so their error is not caught: it
    passes through, here as a rejection. *)
Definition listTransactions (scanDepth : number) : lprog (result (list ChainTransaction)) :=
  let! blockHeight <- scan_height ;;
  match blockHeight with
  | Refused e => Ret (Er (handleCommonOnChainServiceErrors e))
  | Resolved h =>
      let after := Math_max (num 0) (num_sub h scanDepth) in
      let! txs <- do_call (GetChainTransactions (nd_socket self) after) ;;
      match txs with
      | Resolved l => Ret (Ok l)
      | Refused e => Ret (Throw (details_error JsError e))
      end
  end.

(** [n || 0]. *)
Definition num_or_zero (n : option number) : number := default (num 0) (num_or_undefined n).

Definition extract (outgoing : bool) (txs : list ChainTransaction) : list OnChainTx :=
  List.map (fun tx =>
              let '(txHash, outs) := decode (default "" (ctx_transaction tx)) in
              mkOnChainTx (num_or_zero (ctx_confirmation_count tx)) txHash outs
                (num_or_zero (ctx_fee tx)) (ctx_created_at tx))
    (List.filter (fun tx => Bool.eqb (ctx_is_outgoing tx) outgoing && str_truthy (ctx_transaction tx)) txs).

Definition extractIncomingTransactions := extract false.
Definition extractOutgoingTransactions := extract true.

Definition listIncomingTransactions (scanDepth : number) : lprog (result (list OnChainTx)) :=
  await txs <- listTransactions scanDepth ;;
  Ret (Ok (extractIncomingTransactions txs)).

Definition listOutgoingTransactions (scanDepth : number) : lprog (result (list OnChainTx)) :=
  await txs <- listTransactions scanDepth ;;
  Ret (Ok (extractOutgoingTransactions txs)).

Definition onchain_createAddress : lprog (result (string * string)) :=
  tried (CreateChainAddress (nd_socket self)) (fun e => Er (handleCommonOnChainServiceErrors e))
    (fun address => Ret (Ok (address, nd_pubkey self))).

Definition lookupOnChainFee (txHash : string) (scanDepth : number) : lprog (result number) :=
  await onChainTxs <- listOutgoingTransactions scanDepth ;;
  match List.find (fun tx => String.eqb (oct_txHash tx) txHash) onChainTxs with
  | Some tx =>
      if num_truthy (oct_fee tx) then Ret (Ok (oct_fee tx))
      else Ret (Er (new CouldNotFindOnChainTransactionError))
  | None => Ret (Er (new CouldNotFindOnChainTransactionError))
  end.

Definition lnd_getOnChainFeeEstimate (amt : number) (address : string) (targetConfirmations : number)
    : lprog (result number) :=
  tried (GetChainFeeEstimate (nd_socket self) address amt targetConfirmations)
    (fun e => Er (onchain_switch e [(InsufficientFunds, new InsufficientOnChainFundsError)]
                    (handleCommonOnChainServiceErrors e)))
    (fun fee => Ret (Ok fee)).

Definition payToAddress (amt : number) (address : string) (targetConfirmations : number)
    (description : option string) : lprog (result string) :=
  tried (SendToChainAddress (nd_socket self) address amt targetConfirmations description)
    (fun e => Er (onchain_switch e [(InsufficientFunds, new InsufficientOnChainFundsError);
                                    (CPFPAncestorLimitReached, new CPFPAncestorLimitReachedError)]
                    (handleCommonOnChainServiceErrors e)))
    (fun id => Ret (Ok id)).

End Onchain.

(** ** The accounts of the node: [services/lnd/utils.js] *)

Fixpoint deleteFailedPaymentsAttempt (lnds : list LndNode) : lprog unit :=
  match lnds with
  | [] => Ret tt
  | node :: rest =>
      let! _ <- do_call (DeleteFailedPayAttempts (nd_socket node)) ;;
      deleteFailedPaymentsAttempt rest
  end.

(** The nodes are those of the start of the server. *)
Definition deleteFailedPaymentsAttemptAllLnds (params : list LndNode) : lprog unit :=
  deleteFailedPaymentsAttempt (getLnds (Some Offchain) false params).

Record LndBalances : Type := mkLndBalances {
  lb_total : number;
  lb_onChain : number;
  lb_offChain : number;
  lb_opening_channel_balance : number;
  lb_closing_channel_balance : number
}.

Definition pending_close (c : ClosedChannel) : number :=
  sumBy (fun '(is_pending, tokens) => if (is_pending : bool) then tokens else num 0) (cc_close_payments c).

Definition self_initiated (channels : list Channel) : list Channel :=
  List.filter (fun c => negb (chan_is_partner_initiated c)) channels.

Definition satsAnchorOutput : Z := 330.

Definition node_total (chain_balance anchorBalance channel_balance pending_chain_balance
    opening_channel_balance closing_channel_balance : number) : number :=
  num_add (num_add (num_add (num_add (num_add chain_balance anchorBalance) channel_balance)
    pending_chain_balance) opening_channel_balance) closing_channel_balance.

Definition lndBalances (lnd : lnd_conn) : lprog (reply LndBalances) :=
  replied (GetChainBalance lnd) (fun chain_balance =>
  replied (GetChannelBalance lnd) (fun cb =>
  replied (GetPendingChainBalance lnd) (fun pending_chain_balance =>
  replied (GetClosedChannels lnd) (fun closedChannels =>
  let closing_channel_balance := sumBy pending_close closedChannels in
  replied (GetChannels lnd) (fun channels =>
  let anchorBalance := num_mul (num (Z.of_nat (length (self_initiated channels)))) (num satsAnchorOutput) in
  Ret (Resolved (mkLndBalances
         (node_total chain_balance anchorBalance (cb_channel_balance cb) pending_chain_balance
            (cb_pending_balance cb) closing_channel_balance)
         (num_add chain_balance pending_chain_balance)
         (cb_channel_balance cb) (cb_pending_balance cb) closing_channel_balance))))))).

(** [Promise.all], one node after the other. *)
Fixpoint each_node {A} (f : lnd_conn -> lprog (reply A)) (lnds : list LndNode) : lprog (reply (list A)) :=
  match lnds with
  | [] => Ret (Resolved [])
  | node :: rest =>
      let! r <- f (nd_socket node) ;;
      let! rs <- each_node f rest ;;
      match r, rs with
      | Resolved a, Resolved l => Ret (Resolved (a :: l))
      | Refused e, _ => Ret (Refused e)
      | _, Refused e => Ret (Refused e)
      end
  end.

Definition lndsBalances : lprog (reply LndBalances) :=
  let! lnds <- from_nodes (getLnds None false) ;;
  let! r <- each_node lndBalances lnds ;;
  match r with
  | Refused e => Ret (Refused e)
  | Resolved data =>
      Ret (Resolved (mkLndBalances (sumBy lb_total data) (sumBy lb_onChain data) (sumBy lb_offChain data)
             (sumBy lb_opening_channel_balance data) (sumBy lb_closing_channel_balance data)))
  end.

Definition nodeStats (lnd : lnd_conn) : lprog (reply (number * number * string)) :=
  replied (GetWalletInfo lnd) (fun i =>
  Ret (Resolved (wi_peers_count i, wi_active_channels_count i, wi_public_key i))).

Definition nodesStats (params : list LndNode) : lprog (reply (list (number * number * string))) :=
  each_node nodeStats (getLnds (Some Offchain) false params).

(** *** Revenues *)

(** The loop on the pages of forwards: [None] when [fuel] pages are not the last ones. *)
Fixpoint more_forwards (fuel : nat) (lnd : lnd_conn) (next : option string) (forwards : list Forward)
    : lprog (option (reply (list Forward))) :=
  match str_or next None with
  | None => Ret (Some (Resolved forwards))
  | Some token =>
      match fuel with
      | O => Ret None
      | S fuel =>
          let! page <- do_call (GetForwards lnd None (Some token)) ;;
          match page with
          | Refused e => Ret (Some (Refused e))
          | Resolved (more, next) => more_forwards fuel lnd next (forwards ++ more)%list
          end
      end
  end.

(** [lodash.groupby]: the groups in the order of their first elements. *)
Fixpoint group_add {A} (key : string) (x : A) (groups : list (string * list A)) : list (string * list A) :=
  match groups with
  | [] => [(key, [x])]
  | (k, l) :: rest =>
      if String.eqb k key then (k, (l ++ [x])%list) :: rest else (k, l) :: group_add key x rest
  end.
Definition groupBy {A} (key : A -> string) (l : list A) : list (string * list A) :=
  fold_left (fun groups x => group_add (key x) x groups) l [].

(** The fees of a day, in satoshis. *)
Definition day_fee (forwards : list Forward) : number :=
  num_div (fold_left (fun sum f => num_add sum (fw_fee_mtokens f)) forwards (num 0)) (num 1000).

Section Revenues.
(** [toDateString] of the day of an instant, in the time zone of the server, which is UTC. *)
Context (toDateString : Z -> string).

Definition getRoutingFees (fuel : nat) (lnd : lnd_conn) (before after : Z)
    : lprog (option (reply (list (string * number)))) :=
  let! forwardsList <- do_call (GetForwards lnd (Some (before, after)) None) ;;
  match forwardsList with
  | Refused e => Ret (Some (Refused e))
  | Resolved (forwards, next) =>
      let! all <- (match forwards with
                   | [] => Ret (Some (Resolved []))
                   | _ => more_forwards fuel lnd next forwards
                   end) ;;
      match all with
      | None => Ret None
      | Some (Refused e) => Ret (Some (Refused e))
      | Some (Resolved forwards) =>
          Ret (Some (Resolved (List.map (fun g => (fst g, day_fee (snd g)))
                 (groupBy (fun f => toDateString (fw_created_at f)) forwards))))
      end
  end.

(** [date.setUTCHours(0, 0, 0, 0)]. *)
Definition day_start (t : Z) : Z := MS_PER_DAY * (t / MS_PER_DAY).

(** An error of the ledger is only logged. *)
Fixpoint record_revenues (fees : list (string * number)) : lprog unit :=
  match fees with
  | [] => Ret tt
  | (day, fee) :: rest =>
      let! _ <- do_call (AddLndRoutingRevenue fee day) ;; record_revenues rest
  end.

(** [now] is the current time; [None] when the pages are not finished. *)
Definition updateRoutingRevenues (fuel : nat) (now : Z) : lprog (option (result unit)) :=
  let! dbMetadata <- do_call RoutingFeeLastEntry ;;
  match dbMetadata with
  | Rejected m => Ret (Some (Throw (new_msg JsError m)))
  | Done entry =>
      let lastDate := day_start (default 0 entry) in
      let endDate := day_start (now - MS_PER_DAY) in
      if num_ltb (num_div (num (endDate - lastDate)) (num MS_PER_DAY)) (num 1) then Ret (Some (Ok tt))
      else
        let! activeNode <- from_nodes getActiveLnd ;;
        match activeNode with
        | Er e | Throw e => Ret (Some (Throw e))
        | Ok node =>
            let! forwards <- getRoutingFees fuel (nd_socket node) endDate lastDate ;;
            match forwards with
            | None => Ret None
            | Some (Refused e) => Ret (Some (Throw (details_error JsError e)))
            | Some (Resolved fees) =>
                let! _ <- record_revenues fees ;;
                let! r <- do_call (SetRoutingFeeLastEntry (endDate + MS_PER_DAY)) ;;
                match r with
                | Done _ => Ret (Some (Ok tt))
                | Rejected m => Ret (Some (Throw (new_msg JsError m)))
                end
            end
        end
  end.

End Revenues.

Definition updateEscrows : lprog (result unit) :=
  let! activeNode <- from_nodes getActiveLnd ;;
  match activeNode with
  | Er e | Throw e => Ret (Throw e)
  | Ok node =>
      tried (GetChannels (nd_socket node)) (fun e => Throw (details_error JsError e)) (fun channels =>
      let escrowInLnd := sumBy chan_commit_transaction_fee (self_initiated channels) in
      let! r <- do_call (UpdateLndEscrow escrowInLnd) ;;
      match r with
      | Throw e => Ret (Throw e)
      | _ => Ret (Ok tt)
      end)
  end.

Inductive ChannelChange : Type := ChannelOpened | ChannelClosed.

(** [scanDepth] is [ONCHAIN_SCAN_DEPTH_CHANNEL_UPDATE]; [assert] raises. *)
Definition onChannelUpdated (scanDepth : number) (channel : Channel) (lnd : lnd_conn)
    (stateChange : ChannelChange) : lprog (result unit) :=
  if chan_is_partner_initiated channel then Ret (Ok tt)
  else
    match stateChange with
    | ChannelClosed => Ret (Ok tt)
    | ChannelOpened =>
        tried (GetWalletInfo lnd) (fun e => Throw (details_error JsError e)) (fun info =>
        let after := Math_max (num 0) (num_sub (wi_current_block_height info) scanDepth) in
        tried (GetChainTransactions lnd after) (fun e => Throw (details_error JsError e)) (fun transactions =>
        let tx := List.find (fun t => String.eqb (ctx_id t) (chan_transaction_id channel)) transactions in
        match num_or_undefined (match tx with Some t => ctx_fee t | None => None end) with
        | None => Ret (Ok tt)
        | Some fee =>
            if num_ltb (num 0) fee then
              let! r <- do_call (AddLndChannelFee "channel opened onchain fee" fee (chan_transaction_id channel)) ;;
              match r with
              | Throw e => Ret (Throw e)
              | _ => Ret (Ok tt)
              end
            else Ret (Throw (new JsError))
        end))
    end.

(** ** Programs that only read *)

Definition reads (X : Type) (c : lcall X) : bool :=
  match c with
  | NodeParams | LocalCache _ | GetInvoice _ _ | GetInvoices _ _ | GetPayment _ _
  | GetPaymentsOf _ _ _ | GetWalletInfo _ | GetClosedChannels _ => true
  | _ => false
  end.

Lemma cached_reads {A} (p : pprog A) : calls_only reads (cached p).
Proof. induction p as [a|X c k IH]; [done|]. by split. Qed.

Lemma lookupInvoice_reads pubkey h : calls_only reads (lnd_lookupInvoice pubkey h).
Proof. unfold lnd_lookupInvoice, rpbind, from_nodes, tried. calls_only_tac. Qed.

Lemma resolve_reads lnd g : calls_only reads (resolvePaymentStatus lnd g).
Proof.
  unfold resolvePaymentStatus, current_block_height, closed_channels, getOrSet_with, replied.
  repeat (intros; first [apply cached_reads | apply calls_only_bind | progress calls_only_tac]).
Qed.

Lemma lookup_one_reads pubkey h : calls_only reads (lookupPaymentByPubkeyAndHash pubkey h).
Proof.
  unfold lookupPaymentByPubkeyAndHash, rpbind, from_nodes, tried.
  repeat (intros; first [apply resolve_reads | apply calls_only_bind | progress calls_only_tac]).
Qed.

Lemma lookup_reads pubkey h : calls_only reads (lnd_lookupPayment pubkey h).
Proof.
  assert (Heach : forall ks, calls_only reads (lookup_each ks h)).
  { induction ks as [|k ks IH]; [done|]. apply calls_only_bind; [apply lookup_one_reads|].
    by intros [a|e|e]. }
  unfold lnd_lookupPayment. destruct pubkey as [[|c k]|]; [|apply lookup_one_reads|];
    (split; [done|]; intros; apply Heach).
Qed.

Lemma page_reads kind after pubkey : calls_only reads (listPaymentsFactory kind after pubkey).
Proof. unfold listPaymentsFactory, rpbind, from_nodes, tried. calls_only_tac. Qed.

Lemma failed_page_reads after pubkey : calls_only reads (listFailedPayments after pubkey).
Proof. unfold listFailedPayments. apply calls_only_bind; [apply page_reads|]. by intros [a|e|e]. Qed.
