(* ===== verification/LndSpec.v ===== *)
(** * Properties of the node service

    The lists that the node gives by pages are read to their end, and the dates between
    which the fees of the routed payments are recorded. *)

From S2P Require Import Prelude JsNum Errors Money Regex Programs Effects Persistence Payments Invoices Prices Lnd.
#[local] Open Scope string_scope.
#[local] Open Scope Z_scope.
#[local] Open Scope list_scope.

(** ** Invoices by pages *)

Section Pages.
Context (env : forall X, lcall X -> X) (lnd : string).

(** The pages that the node gives from a token on: each says where the next one is. *)
Inductive served : option string -> list (list RawLnInvoice) -> Prop :=
| served_last after l next :
    env _ (GetInvoices lnd after) = Resolved (l, next) -> str_truthy next = false -> served after [l]
| served_more after l token pages :
    env _ (GetInvoices lnd after) = Resolved (l, Some token) -> str_truthy (Some token) = true ->
    served (Some token) pages -> served after (l :: pages).

Lemma served_from after pages : served after pages -> forall fuel acc, (length pages <= fuel)%nat ->
  snd (run env (listInvoices_from fuel lnd after acc)) =
    Some (Ok (List.map translateLnInvoiceLookup (acc ++ concat pages))).
Proof.
  induction 1 as [after l next Hp Hn|after l token pages Hp Hn Hs IH]; intros fuel acc Hf;
    (destruct fuel as [|fuel]; [simpl in Hf; lia|]); cbn; rewrite Hp; unfold str_or; rewrite Hn; cbn.
  - by rewrite app_nil_r.
  - rewrite app_assoc. simpl in Hf. specialize (IH fuel (acc ++ l) ltac:(lia)).
    destruct (run env (listInvoices_from fuel lnd (Some token) (acc ++ l))) as [tr r]. exact IH.
Qed.

(** When a node serves its invoices in pages, each with the token of the next one and
    the last with none, listInvoices stops and answers the invoices of all the pages
    in their order. *)
Theorem listInvoices_all (pages : list (list RawLnInvoice)) (fuel : nat)
    (Hs : served None pages) (Hf : (length pages <= fuel)%nat) :
  snd (run env (listInvoices fuel lnd)) = Some (Ok (List.map translateLnInvoiceLookup (concat pages))).
Proof. by apply (served_from None pages). Qed.

End Pages.

(** ** The days of the revenues *)

Section Revenues.
Context (toDateString : Z -> string).

(** The interval that is asked of the node, from [after] to [before], and the day that is
    recorded as the last one. *)
Definition asked (ev : happening lcall) : list (Z * Z) :=
  match ev with
  | @Ev _ X c _ =>
      match c with GetForwards _ (Some (before, after)) _ => [(after, before)] | _ => [] end
  end.
Definition noted (ev : happening lcall) : list Z :=
  match ev with @Ev _ X c _ => match c with SetRoutingFeeLastEntry day => [day] | _ => [] end end.

(** The last day that is found. *)
Definition found (ev : happening lcall) : list Z :=
  match ev with
  | @Ev _ X c x =>
      match c in lcall X return X -> list Z with
      | RoutingFeeLastEntry => fun x => match x with Done (Some day) => [day] | _ => [] end
      | _ => fun _ => []
      end x
  end.

Definition plain (X : Type) (c : lcall X) : bool :=
  match c with GetForwards _ (Some _) _ | SetRoutingFeeLastEntry _ | RoutingFeeLastEntry => false | _ => true end.

Lemma plain_trace {A} (p : lprog A) tr a : calls_only plain p -> exec p tr a ->
  tr ≫= asked = [] /\ tr ≫= noted = [] /\ tr ≫= found = [].
Proof.
  intros Hp He. pose proof (exec_calls _ _ _ _ Hp He) as Hf. clear Hp He.
  induction Hf as [|[X c x] tr Hc _ (IH1 & IH2 & IH3)]; [done|]. rewrite !bind_cons, IH1, IH2, IH3.
  destruct c; try done. by destruct range as [[b a']|].
Qed.

Lemma more_plain fuel lnd next l : calls_only plain (more_forwards fuel lnd next l).
Proof.
  revert next l. induction fuel as [|fuel IH]; intros next l; cbn [more_forwards];
    (destruct (str_or next None); [|done]); [done|]. split; [done|]. intros [[more next']|e]; [apply IH|done].
Qed.

Lemma record_plain fees : calls_only plain (record_revenues fees).
Proof. induction fees as [|[d f] fees IH]; [done|]. by split. Qed.

(** A run asks for the days from the recorded one to the day before [now], which is then
    noted with a day more. *)
Definition days_of (now : Z) (entry : option Z) (tr : list (happening lcall)) : Prop :=
  let before := day_start (now - MS_PER_DAY) in
  (tr ≫= asked = [] /\ tr ≫= noted = []) \/
  (tr ≫= asked = [(day_start (default 0 entry), before)] /\
   (tr ≫= noted = [] \/ tr ≫= noted = [before + MS_PER_DAY])).

Lemma fees_trace fuel lnd before after tr r : exec (getRoutingFees toDateString fuel lnd before after) tr r ->
  tr ≫= asked = [(after, before)] /\ tr ≫= noted = [] /\ tr ≫= found = [].
Proof.
  unfold getRoutingFees, do_call. intros He. apply (exec_inv (Call _ _)) in He as (x & tr' & -> & He).
  rewrite !bind_cons. enough (tr' ≫= asked = [] /\ tr' ≫= noted = [] /\ tr' ≫= found = []) as (-> & -> & ->) by done.
  revert He. apply plain_trace. cbn [pbind]. destruct x as [[l next]|e]; [|done].
  apply calls_only_bind; [|by intros [[|]|]]. destruct l; [done|]. apply more_plain.
Qed.

Lemma revenues_trace fuel now tr r : exec (updateRoutingRevenues toDateString fuel now) tr r ->
  exists x tr', tr = Ev RoutingFeeLastEntry x :: tr' /\
    match x with Done entry => days_of now entry tr' | Rejected _ => tr' = [] end /\
    tr' ≫= found = [].
Proof.
  unfold updateRoutingRevenues, do_call. intros He. apply (exec_inv (Call _ _)) in He as (x & tr' & -> & He).
  exists x, tr'. split; [done|]. cbn [pbind] in He.
  destruct x as [entry|m]; [|by apply exec_inv in He as [-> _]].
  destruct (num_ltb _ _); [apply exec_inv in He as [-> _]; split; [by left|done]|].
  apply exec_bind_inv in He as (tr1 & node & tr2 & -> & H1 & He).
  apply (exec_inv (Call _ _)) in H1 as (params & tr1' & -> & H1). apply exec_inv in H1 as [-> _].
  destruct node as [node|e|e]; [|apply exec_inv in He as [-> _]; split; [by left|done]..].
  apply exec_bind_inv in He as (tr3 & fees & tr4 & -> & H3 & He). apply fees_trace in H3 as (Ha & Hn & Hf).
  unfold days_of. rewrite !bind_app, Ha, Hn, Hf. simpl.
  destruct fees as [[fees|e]|]; [|apply exec_inv in He as [-> _]; split; [by right; auto|done]..].
  apply exec_bind_inv in He as (tr5 & [] & tr6 & -> & H5 & He).
  apply (plain_trace _ _ _ (record_plain fees)) in H5 as (Ha5 & Hn5 & Hf5).
  apply (exec_inv (Call _ _)) in He as (y & tr7 & -> & He). rewrite !bind_app, !bind_cons, Ha5, Hn5, Hf5.
  cbn [pbind] in He. destruct y; apply exec_inv in He as [-> _]; split; (auto || done).
Qed.

(** When a run of updateRoutingRevenues asks the node for the forwards up to an instant
    and notes the day it recorded, the next run, which reads that day, asks for the
    forwards from a day after that instant: those of the day in between are never
    recorded. *)
Theorem routing_day_skipped (fuel1 fuel2 : nat) (now1 now2 day after1 before1 after2 before2 : Z)
    (tr1 tr2 : list (happening lcall)) (r1 r2 : option (result unit))
    (H1 : exec (updateRoutingRevenues toDateString fuel1 now1) tr1 r1)
    (H2 : exec (updateRoutingRevenues toDateString fuel2 now2) tr2 r2)
    (Ha1 : tr1 ≫= asked = [(after1, before1)]) (Hn1 : tr1 ≫= noted = [day])
    (Hread : tr2 ≫= found = [day]) (Ha2 : tr2 ≫= asked = [(after2, before2)]) :
  after2 = before1 + MS_PER_DAY.
Proof.
  apply revenues_trace in H1 as (x1 & tr1' & -> & H1 & _), H2 as (x2 & tr2' & -> & H2 & Hf).
  rewrite bind_cons in Ha1. rewrite bind_cons in Hn1. rewrite bind_cons in Hread. rewrite bind_cons in Ha2.
  destruct x1 as [entry1|m]; [|by subst]. destruct x2 as [entry2|m]; [|by subst].
  cbn [asked noted found app] in *. rewrite Hf in Hread. destruct entry2 as [day2|]; [|done].
  injection Hread as ->.
  unfold days_of in *.
  destruct H1 as [[Hx _]|(Hx & [Hy|Hy])]; rewrite ?Hx in Ha1; rewrite ?Hy in Hn1; [done..|].
  destruct H2 as [[Hz _]|(Hz & _)]; rewrite Hz in Ha2; [done|].
  simplify_eq. simpl. unfold day_start.
  replace (MS_PER_DAY * ((now1 - MS_PER_DAY) / MS_PER_DAY) + MS_PER_DAY)
    with (((now1 - MS_PER_DAY) / MS_PER_DAY + 1) * MS_PER_DAY) by ring.
  rewrite Z.div_mul by done. ring.
Qed.

End Revenues.

(** ** Witnesses *)

Module LndExample.

Definition one_node : LndNode := mkNode "127.0.0.1:10009" "pk" [Offchain] true "LND1".
Definition raw_invoice (h : string) : RawLnInvoice := mkRawLnInvoice h true false false (num 1000) "coffee".

(** A node with two pages of invoices, and the last day of the database. *)
Definition page_node (entry : option Z) (X : Type) (c : lcall X) : X :=
  match c in lcall X return X with
  | NodeParams => [one_node]
  | SetNodeActive _ _ | StatusEvent _ _ => tt
  | LocalCache c =>
      match c in pcall X return X with
      | DealerRpc _ _ _ => RpcFailed "" ""
      | _ => Rejected ""
      end
  | GetInvoices _ None => Resolved ([raw_invoice "h1"; raw_invoice "h2"], Some "t1")
  | GetInvoices _ (Some _) => Resolved ([raw_invoice "h3"], None)
  | GetForwards _ _ _ => Resolved ([], None)
  | ProbeForRoute _ _ => TimedOut
  | PayViaRoutes _ _ _ | PayViaPaymentDetails _ _ => TimedOut
  | AddLndRoutingRevenue _ _ | UpdateLndEscrow _ | AddLndChannelFee _ _ _ => Ok tt
  | RoutingFeeLastEntry => Done entry
  | SetRoutingFeeLastEntry _ => Done tt
  | _ => Refused js_exception
  end.

Lemma listInvoices_all_witness :
  snd (run (page_node None) (listInvoices 2 "127.0.0.1:10009")) =
  Some (Ok (List.map translateLnInvoiceLookup [raw_invoice "h1"; raw_invoice "h2"; raw_invoice "h3"])).
Proof.
  apply (listInvoices_all (page_node None) "127.0.0.1:10009"
           [[raw_invoice "h1"; raw_invoice "h2"]; [raw_invoice "h3"]] 2); [|reflexivity].
  eapply served_more; [reflexivity|reflexivity|]. eapply served_last; reflexivity.
Defined.

(** The cron of two days: the days are known by their number. *)
Definition of_day (n : Z) : Z := n * MS_PER_DAY + 1000.
Definition revenues_at (day : Z) (entry : option Z) : list (happening lcall) * option (result unit) :=
  run (page_node entry) (updateRoutingRevenues (fun _ => "day") 1 (of_day day)).

Lemma routing_day_skipped_witness :
  (fst (revenues_at 10 (Some (5 * MS_PER_DAY))) ≫= asked) = [(5 * MS_PER_DAY, 9 * MS_PER_DAY)] /\
  (fst (revenues_at 12 (Some (10 * MS_PER_DAY))) ≫= asked) = [(10 * MS_PER_DAY, 11 * MS_PER_DAY)] /\
  10 * MS_PER_DAY = 9 * MS_PER_DAY + MS_PER_DAY.
Proof.
  split_and!; [vm_compute; reflexivity..|].
  apply (routing_day_skipped (fun _ => "day") 1 1 (of_day 10) (of_day 12) (10 * MS_PER_DAY)
    (5 * MS_PER_DAY) (9 * MS_PER_DAY) (10 * MS_PER_DAY) (11 * MS_PER_DAY)
    (fst (revenues_at 10 (Some (5 * MS_PER_DAY)))) (fst (revenues_at 12 (Some (10 * MS_PER_DAY))))
    _ _ (run_exec _ _) (run_exec _ _)); vm_compute; reflexivity.
Defined.

(** The day after the tenth, nothing is recorded. *)
Example nothing_next_day : fst (revenues_at 11 (Some (10 * MS_PER_DAY))) ≫= asked = [].
Proof. vm_compute. reflexivity. Qed.

End LndExample.
