(* ===== verification/InvoicesSpec.v ===== *)
(** * Properties of invoices

    How an invoice is credited, as a protocol between the handler, the node, the
    repository of invoices and the ledger; what the builder registers; and the handlers
    run on a repository shared by several of them. *)

From S2P Require Import Prelude JsNum Errors Money Ledger PaymentFlow Validation Accounts TxMetadata Facade LedgerService Programs Effects Payments PaymentsSpec Invoices.
From stdpp Require Import gmap.
Import AmountCalculator CheckedAmounts InvoiceBuilder InvoiceReceiver.
#[local] Open Scope string_scope.
#[local] Open Scope Z_scope.
#[local] Open Scope list_scope.

Arguments checkedToSats : simpl never.
Arguments WalletInvoiceReceiver : simpl never.
Arguments is_a : simpl never.

Lemma checkedToSats_id x n : checkedToSats (Some x) = Ok n -> n = x.
Proof.
  unfold checkedToSats. destruct (positive_number _); simpl; [|done].
  destruct (num_gt_bigint _ _); [done|]. by intros [= <-].
Qed.

Module InvoiceProtocol.
Section Protocol.
Context (cfg : Settings) (wi : WalletInvoice).

Definition hash : string := wi_paymentHash wi.
Definition lock_path : string := getPaymentHashLockResource hash.

(** Calls on the invoice, the money and the lock. *)
Definition acts {X} (c : call X) : bool :=
  match c with
  | LndSettleInvoice _ _ | LndCancelInvoice _ _ | InvoiceMarkAsPaid _ | InvoicePersistNew _
  | InvoiceDeleteByPaymentHash _ | LockAcquire _ | LockRelease _ => true
  | c => sensitive c
  end.

Inductive phase : Type :=
| IStart
| ISeen (l : LnInvoiceLookup)                    (* what the node says of the invoice *)
| ILocked (l : LnInvoiceLookup)                  (* the payment hash is locked *)
| IClaimed (l : LnInvoiceLookup)                 (* the node has the money *)
| IMarked (l : LnInvoiceLookup)                  (* the invoice is marked as paid *)
| ICredited (l : LnInvoiceLookup) (r : Receiver) (* the wallet is credited *)
| IDeclined (cancelled deleted : bool)           (* the invoice is given up *)
| IStopped (last : phase)                        (* an act failed *)
| IReleased (last : phase)                       (* the lock is released *)
| IEnded (last : phase).                         (* marked as paid at the end *)

(** What the wallet is credited: the satoshis the node received, and the dollars of
    the invoice or of the price. *)
Definition receives (l : LnInvoiceLookup) (r : Receiver) : Prop :=
  exists btc, paymentAmountFromNumber (Some (il_roundedDownReceived l)) Btc = Ok btc /\
    WalletInvoiceReceiver wi btc (Builder.usdFromBtc (set_hedgeBuyUsd cfg))
      (Builder.usdFromBtc (set_mid cfg)) = Ok r.

Definition paid_to_node (l : LnInvoiceLookup) : Prop :=
  wi_paid wi = false /\ (il_isHeld l || il_isSettled l)%bool = true /\
  is_ok (checkedToSats (Some (il_roundedDownReceived l))) = true.

Inductive step : phase -> event -> phase -> Prop :=
| i_quiet ph X (c : call X) x : acts c = false -> step ph (Ev c x) ph
| i_seen l : step IStart (Ev (LndLookupInvoice (wi_pubkey wi) hash) (Ok l)) (ISeen l)
| i_lock l : paid_to_node l -> step (ISeen l) (Ev (LockAcquire lock_path) LockOk) (ILocked l)
| i_no_lock l o : o <> LockOk -> step (ISeen l) (Ev (LockAcquire lock_path) o) (IStopped (ISeen l))
| i_settle l : il_isSettled l = false ->
    step (ILocked l) (Ev (LndSettleInvoice (wi_pubkey wi) (wi_secret wi)) (Ok tt)) (IClaimed l)
| i_no_settle l x : is_ok x = false ->
    step (ILocked l) (Ev (LndSettleInvoice (wi_pubkey wi) (wi_secret wi)) x) (IStopped (ILocked l))
| i_mark ph l : (ph = IClaimed l \/ (ph = ILocked l /\ il_isSettled l = true)) ->
    step ph (Ev (InvoiceMarkAsPaid hash) (Ok tt)) (IMarked l)
| i_no_mark ph l x : (ph = IClaimed l \/ (ph = ILocked l /\ il_isSettled l = true)) ->
    is_ok x = false -> step ph (Ev (InvoiceMarkAsPaid hash) x) (IStopped ph)
| i_credit l r md j : receives l r ->
    step (IMarked l) (Ev (FacadeRecordReceive (il_description l) (wi_recipient wi) (both_of r)
      (Some (mkBoth ZERO_CENTS ZERO_SATS)) md (Some hash) None) (Ok j)) (ICredited l r)
| i_no_credit l r md x : is_ok x = false ->
    step (IMarked l) (Ev (FacadeRecordReceive (il_description l) (wi_recipient wi) (both_of r)
      (Some (mkBoth ZERO_CENTS ZERO_SATS)) md (Some hash) None) x) (IStopped (IMarked l))
| i_cancel ph x : (ph = IStart \/ exists l, ph = ISeen l) ->
    step ph (Ev (LndCancelInvoice (wi_pubkey wi) hash) x) (IDeclined (is_ok x) false)
| i_delete ph x : (ph = IStart \/ (exists l, ph = ISeen l) \/ ph = IDeclined true false) ->
    step ph (Ev (InvoiceDeleteByPaymentHash hash) x)
      (IDeclined (match ph with IDeclined c _ => c | _ => false end) (is_ok x))
| i_release ph o : step ph (Ev (LockRelease lock_path) o) (IReleased ph)
| i_end ph x : wi_paid wi = false ->
    step ph (Ev (InvoiceMarkAsPaid hash) x) (if is_ok x then IEnded ph else IStopped ph).

(** The acts that took effect, with what they were on. *)
Inductive act : Type :=
| ALocked (path : string)
| AClaimed (pubkey secret : string)
| AMarked (paymentHash : string)
| ACredited (w : WalletDescriptor) (amt : BothAmounts) (paymentHash : option string)
| ACancelled (pubkey paymentHash : string)
| ADeleted (paymentHash : string)
| AReleased (path : string).

Definition acts_of (ev : event) : list act :=
  match ev with
  | Ev c x =>
      match c in call X return X -> list act with
      | LockAcquire path => fun o => if is_lock_ok o then [ALocked path] else []
      | LockRelease path => fun _ => [AReleased path]
      | LndSettleInvoice pubkey secret => fun x => on_ok x (fun _ => [AClaimed pubkey secret])
      | LndCancelInvoice pubkey h => fun x => on_ok x (fun _ => [ACancelled pubkey h])
      | InvoiceMarkAsPaid h => fun x => on_ok x (fun _ => [AMarked h])
      | InvoiceDeleteByPaymentHash h => fun x => on_ok x (fun _ => [ADeleted h])
      | FacadeRecordReceive _ w amt _ _ h _ => fun x => on_ok x (fun _ => [ACredited w amt h])
      | _ => fun _ => []
      end x
  end.

Definition claim (l : LnInvoiceLookup) : list act :=
  ALocked lock_path :: if il_isSettled l then [] else [AClaimed (wi_pubkey wi) (wi_secret wi)].

(** The acts a phase stands for. *)
Fixpoint log (ph : phase) : list act :=
  match ph with
  | IStart | ISeen _ => []
  | ILocked _ => [ALocked lock_path]
  | IClaimed l => [ALocked lock_path; AClaimed (wi_pubkey wi) (wi_secret wi)]
  | IMarked l => claim l ++ [AMarked hash]
  | ICredited l r => claim l ++ [AMarked hash; ACredited (wi_recipient wi) (both_of r) (Some hash)]
  | IDeclined c d => (if c then [ACancelled (wi_pubkey wi) hash] else []) ++ (if d then [ADeleted hash] else [])
  | IStopped p => log p
  | IReleased p => log p ++ [AReleased lock_path]
  | IEnded p => log p ++ [AMarked hash]
  end.

(** What is known in a phase. *)
Fixpoint sound (ph : phase) : Prop :=
  match ph with
  | IStart | ISeen _ | IDeclined _ _ => True
  | ILocked l | IMarked l => paid_to_node l
  | IClaimed l => paid_to_node l /\ il_isSettled l = false
  | ICredited l r => paid_to_node l /\ receives l r
  | IStopped p | IReleased p | IEnded p => sound p
  end.

(** The phase reached before the lock was released and the invoice marked again. *)
Fixpoint base (ph : phase) : phase :=
  match ph with
  | IStopped p | IReleased p | IEnded p => base p
  | _ => ph
  end.

(** Acts that are neither on money nor mark the invoice. *)
Definition harmless (a : act) : bool :=
  match a with ALocked _ | AReleased _ | ADeleted _ => true | _ => false end.

(** What the answer says: true for an invoice processed before, credited now or given
    up, false when nothing was done to it that concerns money. *)
Definition outcome (ph : phase) (r : result bool) : Prop :=
  match r with
  | Ok true => wi_paid wi = true \/ (exists l rc, base ph = ICredited l rc) \/
               (exists d, base ph = IDeclined true d)
  | Ok false => forallb harmless (log ph) = true
  | _ => True
  end.

Ltac quiet := eexists; split; [by apply i_quiet|simpl].

Lemma step_log ph ev ph' : step ph ev ph' -> sound ph -> log ph' = log ph ++ acts_of ev.
Proof.
  destruct 1 as [ph X c x Hq| | |l o Ho| | |ph l Hph|ph l x Hph Hx|l r md j Hr|l r md x Hx
                |ph x Hph|ph x Hph|ph o|ph x Hp]; intros Hs; simpl.
  - destruct c; simpl in *; try done; by rewrite app_nil_r.
  - done.
  - done.
  - by destruct o.
  - done.
  - by destruct x as [[]| |].
  - destruct Hph as [->|[-> Hset]]; simpl in *; unfold claim.
    + destruct Hs as [_ ->]. done.
    + by rewrite Hset.
  - destruct x as [[]| |]; [done|simpl; by rewrite app_nil_r..].
  - unfold claim. destruct (il_isSettled l); done.
  - destruct x; [done|simpl; by rewrite app_nil_r..].
  - destruct Hph as [->|[l ->]]; destruct x as [[]| |]; done.
  - destruct Hph as [->|[[l ->]| ->]]; destruct x as [[]| |]; done.
  - done.
  - destruct x as [[]| |]; simpl; by rewrite ?app_nil_r.
Qed.

Lemma step_sound ph ev ph' : step ph ev ph' -> sound ph -> sound ph'.
Proof.
  destruct 1 as [| | | | | |ph l Hph| | | | |ph x [->|[[l ->]| ->]]|ph o|ph x]; simpl in *; try done.
  - destruct Hph as [->|[-> ?]]; simpl; tauto.
  - by destruct (is_ok x).
Qed.

Lemma path_log ph tr ph' :
  path step ph tr ph' -> sound ph -> sound ph' /\ log ph' = log ph ++ (tr ≫= acts_of).
Proof.
  induction 1 as [ph|ph ev ph1 tr ph2 Hs _ IH]; intros Hp; [by rewrite app_nil_r|].
  destruct (IH (step_sound _ _ _ Hs Hp)) as [Hs2 ->]. split; [done|].
  rewrite (step_log _ _ _ Hs Hp). simpl. by rewrite app_assoc.
Qed.

Arguments rpbind {E A B} p k /.
Arguments do_call {E X} c /.

Lemma receiver_fee btc f g rc :
  WalletInvoiceReceiver wi btc f g = Ok rc -> rc_bankFee rc = ZERO_BANK_FEE /\ rc_invoice rc = wi.
Proof.
  unfold WalletInvoiceReceiver. destruct (decide _).
  - destruct (g btc); simpl; by intros [= <-].
  - destruct (wi_usdAmount wi); [by intros [= <-]|]. destruct (f btc); simpl; by intros [= <-].
Qed.

Lemma credit_received_follows ph l rc :
  receives l rc -> ph = IClaimed l \/ (ph = ILocked l /\ il_isSettled l = true) ->
  follows step (credit_received wi l rc) ph outcome.
Proof.
  intros Hr Hph. unfold credit_received.
  assert (rc_bankFee rc = ZERO_BANK_FEE /\ rc_invoice rc = wi) as [-> ->]
    by (destruct Hr as (btc & _ & Hrc); by eapply receiver_fee).
  simpl. intros [[]|e|e]; [|eexists; split; [by eapply i_no_mark|done]..].
  eexists. split; [by eapply i_mark|]. simpl.
  intros [w|e|e]; [|by quiet..]. quiet. intros [acc|e|e]; [|by quiet..]. quiet.
  intros [j|e|e]; [|eexists; split; [by apply i_no_credit|done]..].
  eexists. split; [by apply i_credit|]. simpl. intros [u|e|e]; [|by quiet..]. quiet.
  intros []. quiet. right. left. by exists l, rc.
Qed.

Arguments credit_received : simpl never.

Lemma receive_body_follows l btc :
  paid_to_node l -> paymentAmountFromNumber (Some (il_roundedDownReceived l)) Btc = Ok btc ->
  follows step (receive_body cfg wi l btc) (ILocked l) outcome.
Proof.
  intros (Hp & _ & _) Hbtc. unfold receive_body. simpl. intros [i|e|e]; [|quiet|by quiet].
  2: by destruct (is_a e _).
  quiet. rewrite Hp.
  destruct (WalletInvoiceReceiver wi btc _ _) as [rc|e|e] eqn:Hrc; simpl; [|done..].
  assert (Hreceives : receives l rc) by by exists btc.
  destruct (il_isSettled l) eqn:Hset; simpl.
  - apply credit_received_follows; eauto.
  - intros [[]|e|e]; [|eexists; split; [by apply i_no_settle|done]..].
    eexists. split; [by apply i_settle|]. apply credit_received_follows; eauto.
Qed.

Lemma delete_follows ph :
  (ph = IStart \/ exists l, ph = ISeen l) -> follows step (delete_unknown hash) ph outcome.
Proof.
  intros Hph. unfold delete_unknown. simpl. intros x. eexists.
  split; [apply i_delete; tauto|]. destruct Hph as [->|[l ->]]; by destruct x as [[]|e|e].
Qed.

Lemma decline_follows l :
  follows step (declineHeldInvoice (wi_pubkey wi) hash) (ISeen l) outcome.
Proof.
  unfold declineHeldInvoice. simpl. intros [n|e|e]; [|by quiet..]. quiet.
  intros [l'|e|e]; quiet; [| |done].
  2: { destruct (is_a e _); [|done]. apply delete_follows. by right; exists l. }
  destruct (il_isSettled l'); [done|]. destruct (il_isHeld l'); [|done]. simpl.
  intros x. eexists. split; [apply i_cancel; by right; exists l|].
  destruct x as [[]|e|e]; simpl; [|done..]. intros y. eexists. split; [apply i_delete; tauto|].
  destruct y as [[]|e|e]; simpl; [|right; right; eauto|done]. right. right. eauto.
Qed.

Arguments receive_body : simpl never.
Arguments declineHeldInvoice : simpl never.
Arguments delete_unknown : simpl never.
Arguments lockPaymentHash : simpl never.

Lemma lock_follows l btc :
  paid_to_node l -> paymentAmountFromNumber (Some (il_roundedDownReceived l)) Btc = Ok btc ->
  follows step (lockPaymentHash hash (receive_body cfg wi l btc)) (ISeen l) outcome.
Proof.
  intros Hp Hb. eapply follows_redlock; [by apply i_lock|by apply receive_body_follows| |].
  - intros o Ho. eexists. split; [by apply i_no_lock|]. by intros [].
  - intros ph a o Ha. eexists. split; [apply i_release|].
    intros r [[-> _]|[Hr _]]; [|by destruct r].
    destruct a as [[]|e|e]; simpl in *; [done| |done..]. by rewrite forallb_app, Ha.
Qed.

(** What is done with the invoice as the node describes it. *)
Definition on_lookup (lookup : LnInvoiceLookup) : prog (result bool) :=
  match checkedToSats (Some (il_roundedDownReceived lookup)) with
  | Throw e => Ret (Throw e)
  | Er _ => declineHeldInvoice (wi_pubkey wi) hash
  | Ok roundedDownReceived =>
      if wi_paid wi then Ret (Ok true)
      else if negb (il_isHeld lookup) && negb (il_isSettled lookup) then Ret (Ok false)
      else
        await receivedBtc <- Ret (paymentAmountFromNumber (Some roundedDownReceived) Btc) ;;
        lockPaymentHash hash (receive_body cfg wi lookup receivedBtc)
  end.

Lemma on_lookup_follows l : follows step (on_lookup l) (ISeen l) outcome.
Proof.
  unfold on_lookup.
  destruct (checkedToSats _) as [n'|e|e] eqn:Hc; [|apply decline_follows|done].
  destruct (wi_paid wi) eqn:Hpaid; [by left|].
  destruct (negb (il_isHeld l) && negb (il_isSettled l))%bool eqn:Hh; [done|].
  apply checkedToSats_id in Hc as Hn. subst n'.
  destruct (paymentAmountFromNumber _ _) as [btc|e|e] eqn:Hb; simpl; [|done..].
  apply lock_follows; [|done]. split; [done|]. rewrite Hc. split; [|done].
  by destruct (il_isHeld l), (il_isSettled l).
Qed.

Lemma before_finally_follows :
  follows step (updatePendingInvoiceBeforeFinally cfg wi) IStart outcome.
Proof.
  unfold updatePendingInvoiceBeforeFinally. simpl. intros [n|e|e]; [|by quiet..]. quiet.
  intros [l|e|e].
  2: { quiet. destruct (is_a e _); [|done]. apply delete_follows. by left. }
  2: by quiet.
  eexists. split; [apply i_seen|]. apply on_lookup_follows.
Qed.

(** The mark at the end. *)
Definition marked_after (r : result bool) : prog (result bool) :=
  if result_truthy r && negb (wi_paid wi) then
    let! invoicePaid <- do_call (InvoiceMarkAsPaid hash) ;;
    match invoicePaid with
    | Er e => if is_a e CouldNotFindWalletInvoiceError then Ret r else Ret (Er e)
    | Throw e => Ret (Throw e)
    | Ok _ => Ret r
    end
  else Ret r.

Lemma marked_follows ph r : outcome ph r -> follows step (marked_after r) ph outcome.
Proof.
  intros Ho. unfold marked_after. destruct (result_truthy r && negb (wi_paid wi))%bool eqn:Ht; [|done].
  apply andb_true_iff in Ht as [Ht Hp%negb_true_iff]. simpl. intros x. eexists.
  split; [by apply i_end|]. destruct x as [[]|e|e]; simpl; [| |done].
  - by destruct r as [[]|e|e].
  - destruct (is_a e _); [|done]. by destruct r as [[]|e'|e'].
Qed.

Lemma update_follows : follows step (updatePendingInvoice cfg wi) IStart outcome.
Proof. eapply follows_bind; [apply before_finally_follows|]. apply marked_follows. Qed.

(** The phases after the node described the invoice. *)
Fixpoint about (l : LnInvoiceLookup) (ph : phase) : Prop :=
  match ph with
  | IStart => False
  | ISeen l' | ILocked l' | IClaimed l' | IMarked l' | ICredited l' _ => l' = l
  | IDeclined _ _ => True
  | IStopped p | IReleased p | IEnded p => about l p
  end.

Lemma path_about l ph tr ph' : path step ph tr ph' -> about l ph -> about l ph'.
Proof.
  induction 1 as [|ph ev ph1 tr ph2 Hs _ IH]; [done|]. intros Ha. apply IH.
  destruct Hs as [| | | | | |ph l' [->|[-> ?]]| | | | | | |ph x]; simpl in *; try done.
  by destruct (is_ok x).
Qed.

Lemma about_base l ph : about l ph -> about l (base ph).
Proof. induction ph; simpl; auto. Qed.

(** An execution starts with the node and its description of the invoice, unless these fail. *)
Lemma update_exec tr r : exec (updatePendingInvoice cfg wi) tr r ->
  (exists n l post, tr = Ev LndService (Ok n) :: Ev (LndLookupInvoice (wi_pubkey wi) hash) (Ok l) :: post /\
     exists ph, path step (ISeen l) post ph /\ outcome ph r) \/
  (forall a, a ∈ tr ≫= acts_of -> a = ADeleted hash \/ a = AMarked hash) /\
  (r = Ok true -> wi_paid wi = true) /\ (r = Ok false -> forallb harmless (tr ≫= acts_of) = true).
Proof.
  intros He. apply exec_bind_inv in He as (tr1 & r1 & tr2 & -> & H1 & H2).
  change (exec (marked_after r1) tr2 r) in H2.
  assert (Hmark : (forall a, a ∈ tr2 ≫= acts_of -> a = AMarked hash) /\ (r = Ok true -> r1 = Ok true) /\
    (r = Ok false -> r1 = Ok false /\ tr2 = [])).
  { revert H2. unfold marked_after. destruct (result_truthy r1 && negb (wi_paid wi))%bool eqn:Ht.
    - intros (x & tr' & -> & He)%exec_inv. apply andb_true_iff in Ht as [Ht _].
      assert (Hr : tr' = [] /\ (r = r1 \/ is_ok r = false)).
      { destruct x as [[]|e|e]; simpl in He; [| |by apply exec_inv in He as [-> ->]; auto].
        - apply exec_inv in He as [-> ->]; auto.
        - destruct (is_a e _); apply exec_inv in He as [-> ->]; auto. }
      destruct Hr as [-> Hr]. split; [|split].
      + intros a. simpl. rewrite app_nil_r. destruct x as [[]|e|e]; simpl; [|by intros ?%not_elem_of_nil..].
        by intros ?%list_elem_of_singleton.
      + intros ->. by destruct Hr as [<-|Hr].
      + intros ->. destruct Hr as [<-|Hr]; done.
    - intros [-> ->]%exec_inv. split; [by intros a ?%not_elem_of_nil|]. done. }
  destruct Hmark as (Ha & Ht & Hf).
  assert (Hstop : forall tr1, (forall a, a ∈ tr1 ≫= acts_of -> a = ADeleted hash) -> r1 <> Ok true ->
    (forall a, a ∈ (tr1 ++ tr2) ≫= acts_of -> a = ADeleted hash \/ a = AMarked hash) /\
    (r = Ok true -> wi_paid wi = true) /\ (r = Ok false -> forallb harmless ((tr1 ++ tr2) ≫= acts_of) = true)).
  { intros tr0 Hdel Hr1. rewrite bind_app. split_and!.
    - intros a [Hin|Hin]%elem_of_app; auto.
    - intros Hr. by destruct Hr1; apply Ht.
    - intros Hr. destruct (Hf Hr) as [_ ->]. simpl. rewrite app_nil_r. apply forallb_forall.
      intros a Hin. apply list_elem_of_In in Hin. by rewrite (Hdel a Hin). }
  assert (Hnone : forall a, a ∈ (@nil act) -> a = ADeleted hash) by (intros a Hin; by apply not_elem_of_nil in Hin).
  apply exec_inv in H1 as (n & tr' & -> & H1). destruct n as [n|e|e];
    [|apply exec_inv in H1 as [-> ->]; right; by apply Hstop..].
  cbn [rpbind pbind] in H1. apply exec_inv in H1 as (x & tr3 & -> & H1).
  destruct x as [l|e|e]; cbn [pbind] in H1.
  - left. exists n, l, (tr3 ++ tr2). split; [done|]. change (exec (on_lookup l) tr3 r1) in H1.
    destruct (follows_exec _ _ _ _ _ _ (on_lookup_follows l) H1) as (ph1 & Hp1 & Ho1).
    destruct (follows_exec _ _ _ _ _ _ (marked_follows ph1 r1 Ho1) H2) as (ph & Hp2 & Ho).
    exists ph. split; [|done]. by eapply path_app.
  - right. destruct (is_a e _); [|by apply exec_inv in H1 as [-> ->]; apply Hstop].
    apply exec_inv in H1 as (y & tr4 & -> & H1).
    destruct y as [[]|e'|e']; apply exec_inv in H1 as [-> ->]; apply Hstop; try done.
    simpl. by intros a ?%list_elem_of_singleton.
  - apply exec_inv in H1 as [-> ->]. right. by apply Hstop.
Qed.

(** The answers that a phase rests on: that of the lookup, and that of the claim. *)
Definition looked (l : LnInvoiceLookup) (tr : list event) : Prop :=
  Ev (LndLookupInvoice (wi_pubkey wi) hash) (Ok l) ∈ tr.
Definition claimed (l : LnInvoiceLookup) (tr : list event) : Prop :=
  il_isSettled l = true \/ Ev (LndSettleInvoice (wi_pubkey wi) (wi_secret wi)) (Ok tt) ∈ tr.

Fixpoint grounds (ph : phase) (tr : list event) : Prop :=
  match ph with
  | IStart | IDeclined _ _ => True
  | ISeen l | ILocked l => looked l tr
  | IClaimed l | IMarked l | ICredited l _ => looked l tr /\ claimed l tr
  | IStopped p | IReleased p | IEnded p => grounds p tr
  end.

Lemma grounds_more ph tr ev : grounds ph tr -> grounds ph (tr ++ [ev]).
Proof.
  unfold looked, claimed. induction ph; simpl; unfold looked, claimed; rewrite ?elem_of_app; intuition.
Qed.

Lemma path_grounds ph tr ph' : path step ph tr ph' -> forall tr0, grounds ph tr0 -> grounds ph' (tr0 ++ tr).
Proof.
  induction 1 as [ph|ph ev ph1 tr ph2 Hs _ IH]; intros tr0 Hg; [by rewrite app_nil_r|].
  replace (tr0 ++ ev :: tr) with ((tr0 ++ [ev]) ++ tr) by (by rewrite <- app_assoc).
  apply IH. pose proof (grounds_more ph tr0 ev Hg) as Hm. clear Hg.
  destruct Hs as [| | | | |? ? ? |ph l [->|[-> ?]]|ph l x [->|[-> ?]]| | | | | |ph x ?];
    simpl in *; unfold looked, claimed in *; rewrite ?elem_of_app, ?list_elem_of_singleton in *;
    try destruct (is_ok x); simpl; intuition.
Qed.

End Protocol.
End InvoiceProtocol.

(** ** Properties *)

Module InvoiceClaims.
Import InvoiceProtocol.

Definition is_credit (a : act) : bool := match a with ACredited _ _ _ => true | _ => false end.

Lemma log_base wi ph : exists rest, log wi ph = log wi (base ph) ++ rest /\
  existsb is_credit rest = false.
Proof.
  induction ph as [| | | | | | |p IH|p IH|p IH]; simpl; try (by exists []; rewrite ?app_nil_r).
  - exact IH.
  - destruct IH as (rest & -> & Hr). exists (rest ++ [AReleased (lock_path wi)]).
    by rewrite app_assoc, existsb_app, Hr.
  - destruct IH as (rest & -> & Hr). exists (rest ++ [AMarked (hash wi)]).
    by rewrite app_assoc, existsb_app, Hr.
Qed.

Lemma sound_base cfg wi ph : sound cfg wi ph -> sound cfg wi (base ph).
Proof. induction ph; simpl; auto. Qed.

Lemma base_flat ph : match base ph with IStopped _ | IReleased _ | IEnded _ => False | _ => True end.
Proof. by induction ph. Qed.

(** The acts of an execution that credits the wallet, after the node described the invoice as
    [l]. *)
Definition credited_once (cfg : Settings) (wi : WalletInvoice) (l : LnInvoiceLookup) (acts : list act) : Prop :=
  exists rc rest,
    acts = claim wi l ++ [AMarked (hash wi); ACredited (wi_recipient wi) (both_of rc) (Some (hash wi))] ++ rest /\
    existsb is_credit rest = false /\ paid_to_node wi l /\ receives cfg wi l rc.

(** An execution that starts with the description of the invoice by the node. *)
Definition described (wi : WalletInvoice) (l : LnInvoiceLookup) (tr : list event) : Prop :=
  exists n post, tr = Ev LndService (Ok n) :: Ev (LndLookupInvoice (wi_pubkey wi) (hash wi)) (Ok l) :: post.

Lemma credit_cases cfg wi l ph : sound cfg wi ph -> about l ph ->
  existsb is_credit (log wi ph) = false \/ credited_once cfg wi l (log wi ph).
Proof.
  intros Hs Ha. destruct (log_base wi ph) as (rest & Hlog & Hr).
  pose proof (sound_base _ _ _ Hs) as Hb. pose proof (base_flat ph) as Hf. apply about_base in Ha.
  rewrite Hlog, existsb_app, Hr, orb_false_r. clear Hlog Hs.
  destruct (base ph) as [|l'|l'|l'|l'|l' rc|c d|p|p|p]; simpl in *; subst; auto.
  - left. by destruct (il_isSettled l).
  - right. destruct Hb as [Hp Hrc]. exists rc, rest. by rewrite <- app_assoc.
  - left. by destruct c, d.
  - done.
  - done.
  - done.
Qed.

(** C9. In every execution of updatePendingInvoice a wallet is credited at most once,
    and then the execution started with the node describing the invoice under its
    hash as held or settled, and what followed was exactly: the lock of the payment
    hash, unless it was settled the claim with the secret of the invoice at the node
    of the invoice, the mark of the invoice as paid, and the credit of the wallet of
    the invoice under its hash, of the satoshis that the node said it received and
    of the dollars of the invoice or of the price. The answer true means that the
    invoice was paid before, was credited now or was cancelled at the node; the
    answer false means that nothing concerning money was done. *)
Theorem invoice_credit_protocol (cfg : Settings) (wi : WalletInvoice) (tr : list event)
    (r : result bool) (He : exec (updatePendingInvoice cfg wi) tr r) :
  let acts := tr ≫= acts_of in
  (existsb is_credit acts = false \/ exists l, described wi l tr /\ credited_once cfg wi l acts) /\
  (r = Ok true -> wi_paid wi = true \/ (ACancelled (wi_pubkey wi) (hash wi) ∈ acts) \/
     existsb is_credit acts = true) /\
  (r = Ok false -> forallb harmless acts = true).
Proof.
  apply update_exec in He as [(n & l & post & -> & ph & Hp & Ho)|(Ha & Ht & Hf)]; cbv zeta.
  - destruct (path_log cfg wi _ _ _ Hp I) as [Hs Hlog]. rewrite !bind_cons.
    change (acts_of _ ++ acts_of _ ++ (post ≫= acts_of)) with (log wi (ISeen l) ++ (post ≫= acts_of)).
    rewrite <- Hlog. pose proof (path_about cfg wi l _ _ _ Hp eq_refl) as Hab. split; [|split].
    + destruct (credit_cases cfg wi l ph Hs Hab) as [|Hc]; [by left|right].
      exists l. split; [by exists n, post|done].
    + intros ->. destruct (log_base wi ph) as (rest & Hl & _). rewrite Hl, existsb_app.
      destruct Ho as [Hw|[(l' & rc & ->)|(d & ->)]]; [by left| |right; left; by left].
      right. right. simpl. apply orb_true_iff. left. unfold claim. by destruct (il_isSettled l').
    + by intros ->.
  - split_and!; [|auto|done]. left. apply not_true_iff_false. intros (a & Hin & Hc)%existsb_exists.
    apply list_elem_of_In in Hin. by destruct (Ha a Hin) as [->| ->].
Qed.

(** An invoice already marked as paid is neither claimed nor credited again. *)
Corollary paid_invoice_untouched (cfg : Settings) (wi : WalletInvoice) (tr : list event)
    (r : result bool) (Hp : wi_paid wi = true) (He : exec (updatePendingInvoice cfg wi) tr r) :
  existsb is_credit (tr ≫= acts_of) = false.
Proof.
  destruct (follows_exec _ _ _ _ _ _ (update_follows cfg wi) He) as (ph & Hpath & Ho).
  destruct (path_log cfg wi _ _ _ Hpath I) as [Hs Hlog]. simpl in Hlog. rewrite <- Hlog.
  destruct (log_base wi ph) as (rest & -> & Hr). rewrite existsb_app, Hr, orb_false_r.
  pose proof (sound_base _ _ _ Hs) as Hb. pose proof (base_flat ph) as Hf.
  destruct (base ph) as [|l'|l'|l'|l'|l' rc|c d|p|p|p]; simpl in *; try done.
  - by destruct (il_isSettled l').
  - destruct Hb as [(Hu & _) _]. congruence.
  - by destruct c, d.
Qed.

(** When the node answers the lookup of an unpaid invoice with an error that does not
    say the invoice is unknown, updatePendingInvoice returns that error and marks
    the invoice as paid, without having credited anything. *)
Theorem lookup_failure_marks_paid (cfg : Settings) (wi : WalletInvoice)
    (env : forall X, call X -> X) (n : LndInfo) (e : error)
    (Hnode : env _ LndService = Ok n)
    (Hlookup : env _ (LndLookupInvoice (wi_pubkey wi) (wi_paymentHash wi)) = Er e)
    (Hclass : is_a e InvoiceNotFoundError = false) (Hunpaid : wi_paid wi = false)
    (Hmark : env _ (InvoiceMarkAsPaid (wi_paymentHash wi)) = Ok tt) :
  run env (updatePendingInvoice cfg wi) =
    ([Ev LndService (Ok n);
      Ev (LndLookupInvoice (wi_pubkey wi) (wi_paymentHash wi)) (Er e);
      Ev (InvoiceMarkAsPaid (wi_paymentHash wi)) (Ok tt)], Er e).
Proof.
  unfold updatePendingInvoice, updatePendingInvoiceBeforeFinally. simpl.
  rewrite Hnode. simpl. rewrite Hlookup. simpl. rewrite Hclass. simpl. rewrite Hunpaid. simpl.
  by rewrite Hmark.
Qed.
(** The answer of a call in an environment that does not fail. *)
Ltac answer H c :=
  let x := fresh "x" in
  pose proof (H _ c) as x; simpl in x;
  match type of x with context [?env _ c] => destruct (env _ c); try discriminate x end;
  clear x; simpl.

Lemma credit_received_runs cfg wi env l rc :
  (forall X (c : call X), answered c (env X c) = true) -> receives cfg wi l rc ->
  snd (run env (credit_received wi l rc)) = Ok true /\
  money_trace (fst (run env (credit_received wi l rc))) = [Credited (wi_recipient wi) (both_of rc)].
Proof.
  intros Hwell (btc & _ & Hrc). apply receiver_fee in Hrc as [Hfee Hwi].
  unfold credit_received. rewrite Hwi. simpl. answer Hwell (InvoiceMarkAsPaid (wi_paymentHash wi)).
  answer Hwell (WalletFindById (wd_id (wi_recipient wi))).
  answer Hwell (AccountFindById (w_accountId a0)).
  match goal with |- context [env _ (FacadeRecordReceive ?d ?w ?b ?f ?m ?h ?p)] =>
    answer Hwell (FacadeRecordReceive d w b f m h p) end.
  by answer Hwell (UserFindById (acc_ownerId a1)).
Qed.

#[local] Opaque credit_received.

Lemma receive_body_runs cfg wi env l rc btc :
  (forall X (c : call X), answered c (env X c) = true) -> wi_paid wi = false ->
  paymentAmountFromNumber (Some (il_roundedDownReceived l)) Btc = Ok btc ->
  WalletInvoiceReceiver wi btc (Builder.usdFromBtc (set_hedgeBuyUsd cfg))
    (Builder.usdFromBtc (set_mid cfg)) = Ok rc ->
  snd (run env (receive_body cfg wi l btc)) = Ok true /\
  money_trace (fst (run env (receive_body cfg wi l btc))) =
    [Credited (wi_recipient wi) (both_of rc)].
Proof.
  intros Hwell Hp Hb Hrc. assert (Hr : receives cfg wi l rc) by by exists btc.
  destruct (credit_received_runs cfg wi env l rc Hwell Hr) as [Hok Hmoney].
  unfold receive_body. simpl. answer Hwell (InvoiceFindByPaymentHash (wi_paymentHash wi)).
  rewrite Hp, Hrc. simpl. destruct (il_isSettled l); simpl.
  - revert Hok Hmoney. by destruct (run env (credit_received wi l rc)).
  - answer Hwell (LndSettleInvoice (wi_pubkey wi) (wi_secret wi)).
    revert Hok Hmoney. by destruct (run env (credit_received wi l rc)).
Qed.

#[local] Opaque receive_body lockPaymentHash.

(** When every service answers, the node holds or has settled the payment of an unpaid
    invoice and the amounts to credit are defined, updatePendingInvoice answers true
    and the money it moved is exactly one credit of those amounts to the wallet of
    the invoice. *)
Theorem held_invoice_credited (cfg : Settings) (wi : WalletInvoice) (env : forall X, call X -> X)
    (l : LnInvoiceLookup) (rc : Receiver)
    (Hwell : forall X (c : call X), answered c (env X c) = true)
    (Hlookup : env _ (LndLookupInvoice (wi_pubkey wi) (wi_paymentHash wi)) = Ok l)
    (Hpaid : paid_to_node wi l) (Hreceives : receives cfg wi l rc) :
  snd (run env (updatePendingInvoice cfg wi)) = Ok true /\
  money_trace (fst (run env (updatePendingInvoice cfg wi))) =
    [Credited (wi_recipient wi) (both_of rc)].
Proof.
  destruct Hpaid as (Hp & Hh & Hs), Hreceives as (btc & Hb & Hrc).
  destruct (receive_body_runs cfg wi env l rc btc Hwell Hp Hb Hrc) as [Hok Hmoney].
  unfold updatePendingInvoice. rewrite run_bind.
  unfold updatePendingInvoiceBeforeFinally. simpl. answer Hwell LndService. rewrite Hlookup.
  destruct (checkedToSats _) as [n'|e|e] eqn:Hc; try done.
  apply checkedToSats_id in Hc as Hn. subst n'. rewrite Hp.
  replace (negb (il_isHeld l) && negb (il_isSettled l))%bool with false
    by by destruct (il_isHeld l), (il_isSettled l).
  rewrite Hb. simpl. rewrite run_lockPaymentHash.
  - rewrite Hok. simpl. answer Hwell (InvoiceMarkAsPaid (wi_paymentHash wi)).
    split; [done|]. unfold money_trace in *. simpl.
    by rewrite !bind_app, Hmoney.
  - by answer Hwell (LockAcquire (getPaymentHashLockResource (wi_paymentHash wi))).
  - by answer Hwell (LockRelease (getPaymentHashLockResource (wi_paymentHash wi))).
  - by rewrite Hok.
Qed.

(** *** An invoice of 1,000 sats that the node holds *)

Definition held_invoice : WalletInvoice :=
  mkWalletInvoice "h1" "s1" true "pk" None (mkWallet "bob" Btc) false.
Definition held_lookup : LnInvoiceLookup := mkInvoiceLookup "h1" false true false (num 1000) "coffee".

(** Every service answers. *)
Definition answering_env (X : Type) (c : call X) : X :=
  match c in call X return X with
  | WalletFindById id => Ok (mkWalletRec id "acc2" Btc)
  | WalletListByAccountId a => Ok [mkWalletRec "bob" a Btc]
  | AccountFindById id => Ok (mkAcc id StatusActive 1 None "user2" true (num 0) (num 0))
  | UserFindById _ => Ok (mkUser [] "")
  | InvoiceFindByPaymentHash _ => Ok held_invoice
  | InvoicePersistNew i => Ok i
  | InvoiceYieldPending => [held_invoice]
  | WalletFindByAddress _ => Ok (mkWalletRec "bob" "acc2" Btc)
  | WalletListByAddresses _ => Ok []
  | FlowPersistNew f => Ok f
  | FlowFindLightning _ _ _ | FlowMarkNotPending _ _ _ => Ok PaymentClaims.out_flow
  | FlowUpdate _ | LnPaymentsPersistNew _ _ _ | FacadeUpdateMetadataByHash _ _
  | NotifyTxReceived _ _ _ _ _ _ => tt
  | LndService => Ok (mkLnd ["pk"] "pk")
  | LndPayViaRoutes _ _ _ | LndPayViaPaymentDetails _ _ _ => Ok (mkPayResult (num 20) None)
  | LndLookupInvoice _ _ => Ok held_lookup
  | LndRegisterInvoice _ => Ok (mkRegistered PaymentClaims.sample_invoice "pk")
  | LndLookupPayment _ _ => Ok (mkPaymentLookup PaymentPending None)
  | LndFindRouteForInvoice _ _ => Ok ("pk", mkRoute (num 20) None)
  | OnChainGetBalance | OnChainGetFeeEstimate _ _ _ | OnChainLookupFee _ | ColdStorageLookupFee _
  | GetCurrentPrice | LedgerBalance _ => Ok (num 1)
  | OnChainPayToAddress _ _ _ _ => Ok "tx1"
  | OnChainListIncoming _ => Ok []
  | ColdStorageIsWithdrawal _ | ColdStorageIsDerivedAddress _ | LedgerIsOnChainTxRecorded _ _
  | LedgerIsToHotWalletTxRecorded _ => Ok false
  | LedgerTxVolumeSince _ _ _ => Ok (mkVolume (num 0) (num 0))
  | LedgerAddOnChainTxSend _ | LedgerAddOnChainIntraledger _ _ _ _ | LedgerAddOnChainTxReceive _
  | LedgerAddColdStorageTxSend _ => Ok (mkJournal "j1" false [])
  | RandomSecret => "s1"
  | LockAcquire _ | LockRelease _ => LockOk
  | SignalAborted => None
  | LedgerVolumeSince _ _ _ => Ok (mkVolumeAmount (mkAmount 0 Btc) (mkAmount 0 Btc))
  | LedgerIsLnTxRecorded _ => Ok false
  | LedgerTransactionsByHash _ | LedgerListPendingPayments _ => Ok []
  | LedgerPendingPaymentsCount _ => Ok 0%nat
  | LedgerWalletIdsWithPendingPayments => []
  | LedgerNonEndUserWalletIds => Ok []
  | LedgerWalletBalance w => Ok (mkAmount 1000 (wd_currency w))
  | FacadeRecordSend _ _ _ _ _ | FacadeRecordReceive _ _ _ _ _ _ _
  | FacadeRecordIntraledger _ _ _ _ _ _ => Ok (mkJournal "j1" false [])
  | _ => Ok tt
  end.

Definition held_receiver : Receiver :=
  match WalletInvoiceReceiver held_invoice (mkAmount 1000 Btc)
    (Builder.usdFromBtc (set_hedgeBuyUsd PaymentClaims.sample_settings))
    (Builder.usdFromBtc (set_mid PaymentClaims.sample_settings)) with
  | Ok r => r
  | _ => mkReceiver held_invoice ZERO_SATS ZERO_CENTS ZERO_BANK_FEE
  end.

Lemma invoice_credit_protocol_witness :
  let tr := fst (run answering_env (updatePendingInvoice PaymentClaims.sample_settings held_invoice)) in
  tr ≫= acts_of = [ALocked "locks:paymenthash:h1"; AClaimed "pk" "s1"; AMarked "h1";
    ACredited (mkWallet "bob" Btc) (mkBoth (mkAmount 23 Usd) (mkAmount 1000 Btc)) (Some "h1");
    AReleased "locks:paymenthash:h1"; AMarked "h1"] /\
  exists l, described held_invoice l tr /\
    credited_once PaymentClaims.sample_settings held_invoice l (tr ≫= acts_of).
Proof.
  split; [vm_compute; reflexivity|].
  destruct (invoice_credit_protocol PaymentClaims.sample_settings held_invoice
    (fst (run answering_env (updatePendingInvoice PaymentClaims.sample_settings held_invoice)))
    (snd (run answering_env (updatePendingInvoice PaymentClaims.sample_settings held_invoice)))
    (run_exec _ _)) as [[Hno|Hyes] _]; [|exact Hyes].
  vm_compute in Hno. discriminate Hno.
Defined.

Definition unknown_env (X : Type) (c : call X) : X :=
  match c in call X return X with
  | LndLookupInvoice _ _ => Er (new UnknownLightningServiceError)
  | c => answering_env _ c
  end.

Lemma lookup_failure_marks_paid_witness :
  snd (run unknown_env (updatePendingInvoice PaymentClaims.sample_settings held_invoice)) =
    Er (new UnknownLightningServiceError).
Proof.
  by rewrite (lookup_failure_marks_paid PaymentClaims.sample_settings held_invoice unknown_env
    (mkLnd ["pk"] "pk") (new UnknownLightningServiceError) eq_refl eq_refl eq_refl eq_refl eq_refl).
Defined.

Lemma held_invoice_credited_witness :
  money_trace (fst (run answering_env
    (updatePendingInvoice PaymentClaims.sample_settings held_invoice))) =
  [Credited (mkWallet "bob" Btc) (mkBoth (mkAmount 23 Usd) (mkAmount 1000 Btc))].
Proof.
  refine (proj2 (held_invoice_credited PaymentClaims.sample_settings held_invoice answering_env
    held_lookup held_receiver _ eq_refl _ _)).
  - intros X c. by destruct c.
  - by split_and!; vm_compute.
  - exists (mkAmount 1000 Btc). split; vm_compute; reflexivity.
Defined.

End InvoiceClaims.
