(* ===== verification/InvoicesShared.v ===== *)
(** * Invoices credited from a shared repository

    The handlers of [update-pending-invoices.js] run on the repository of invoices of
    [Persistence], shared with the others, and a ledger that counts the credits of each
    payment hash.  One after the other they credit an invoice once; two of them at the
    same time can credit it twice, since the section under the lock tests the invoice
    read before the lock was taken. *)

From S2P Require Import Prelude JsNum Errors Money Ledger PaymentFlow Validation Accounts TxMetadata Facade LedgerService Programs Effects Persistence Workers Payments PaymentsSpec Invoices InvoicesSpec.
From stdpp Require Import list relations.
Import InvoiceProtocol PaymentClaims.
#[local] Open Scope string_scope.
#[local] Open Scope list_scope.

Module SharedInvoices.
Section Shared.
Context {C : Type} `{Collection C InvoiceRepo.RawInvoice} {laws : CollectionLaws C InvoiceRepo.RawInvoice}.

(** The stored invoices and the payment hashes credited in the ledger. *)
Record shared : Type := mkShared { sh_invoices : C; sh_credits : list string }.

Definition forget {A} (r : result A) : result unit :=
  match r with Ok _ => Ok tt | Er e => Er e | Throw e => Throw e end.

(** How the repository and the ledger answer; the node, the lock service and the others
    answer anything. *)
Definition ans (X : Type) (c : call X) (w : shared) : X -> shared -> Prop :=
  match c in call X return X -> shared -> Prop with
  | InvoiceFindByPaymentHash h => fun x w' =>
      (x, sh_invoices w') = InvoiceRepo.findByPaymentHash h (sh_invoices w) /\
      sh_credits w' = sh_credits w
  | InvoiceMarkAsPaid h => fun x w' =>
      exists r, (r, sh_invoices w') = InvoiceRepo.markAsPaid h (sh_invoices w) /\
        x = forget r /\ sh_credits w' = sh_credits w
  | InvoiceDeleteByPaymentHash h => fun x w' =>
      (x, sh_invoices w') = InvoiceRepo.deleteByPaymentHash h (sh_invoices w) /\
      sh_credits w' = sh_credits w
  | InvoicePersistNew i => fun x w' =>
      exists now, (x, sh_invoices w') = InvoiceRepo.persistNew now i (sh_invoices w) /\
        sh_credits w' = sh_credits w
  | FacadeRecordReceive _ _ _ _ _ h _ => fun x w' =>
      sh_invoices w' = sh_invoices w /\
      sh_credits w' = match x, h with Ok _, Some h => h :: sh_credits w | _, _ => sh_credits w end
  | _ => fun _ w' => w' = w
  end.

Definition docs (w : shared) (h : string) : list InvoiceRepo.RawInvoice :=
  List.filter (InvoiceRepo.with_id h) (coll_docs (sh_invoices w)).
Definition credits (w : shared) (h : string) : nat :=
  length (List.filter (String.eqb h) (sh_credits w)).

Definition is_paid (d : InvoiceRepo.RawInvoice) : Prop := InvoiceRepo.raw_paid d = true.

(** An invoice is credited once at most, and is marked as paid then. *)
Definition once (w : shared) : Prop :=
  (forall h, length (docs w h) <= 1)%nat /\
  forall h, credits w h = 0%nat \/
    (credits w h = 1%nat /\ Forall is_paid (docs w h)).

(** Handlers run one after the other, each for the invoice of a hash. *)
Inductive serial (cfg : Settings) : shared -> list string -> shared -> Prop :=
| serial_nil w : serial cfg w [] w
| serial_cons w h tr r w1 hs w2 :
    wexec ans w (updatePendingInvoiceByPaymentHash cfg h) tr r w1 ->
    serial cfg w1 hs w2 -> serial cfg w (h :: hs) w2.

(** What is known of the world in a phase. *)
Definition phase_inv (wi : WalletInvoice) (ph : phase) (w : shared) : Prop :=
  once w /\
  match ph with
  | IStart | ISeen _ => wi_paid wi = true \/ credits w (wi_paymentHash wi) = 0%nat
  | ILocked _ | IClaimed _ => credits w (wi_paymentHash wi) = 0%nat
  | IMarked _ => credits w (wi_paymentHash wi) = 0%nat /\
      Forall is_paid (docs w (wi_paymentHash wi))
  | _ => True
  end.

(** Marking keeps the documents of a hash, and marks the one of its own. *)
Lemma mark_docs w w' h r : (r, sh_invoices w') = InvoiceRepo.markAsPaid h (sh_invoices w) ->
  forall h', length (docs w' h') = length (docs w h') /\
    (Forall is_paid (docs w h') -> Forall is_paid (docs w' h')) /\
    (is_ok r = true -> (length (docs w h) <= 1)%nat -> Forall is_paid (docs w' h)).
Proof.
  unfold InvoiceRepo.markAsPaid, docs.
  destruct (coll_findOneAndUpdate _ _ _) as [[[d'|] c']|m] eqn:Hu.
  - apply update_some in Hu as (l1 & d & l2 & Hc & Hd & -> & Hc').
    intros [= -> <-] h'. rewrite Hc, Hc', !List.filter_app. simpl.
    change (InvoiceRepo.with_id h' (InvoiceRepo.set_paid d)) with (InvoiceRepo.with_id h' d).
    change (InvoiceRepo.with_id h (InvoiceRepo.set_paid d)) with (InvoiceRepo.with_id h d).
    rewrite Hd. split; [by destruct (InvoiceRepo.with_id h' d); rewrite !length_app|]. split.
    + destruct (InvoiceRepo.with_id h' d); rewrite !Forall_app; [|done].
      rewrite !Forall_cons. by intros (? & _ & ?).
    + intros _. rewrite length_app. simpl. intros Hlen.
      assert (List.filter (InvoiceRepo.with_id h) l1 = [] /\
              List.filter (InvoiceRepo.with_id h) l2 = []) as [-> ->]
        by (split; apply nil_length_inv; lia).
      by constructor.
  - apply update_none in Hu as [Hc _]. intros [= -> <-] h'. by rewrite Hc.
  - by intros [= -> <-] h'.
Qed.

Lemma delete_docs w w' h r : (r, sh_invoices w') = InvoiceRepo.deleteByPaymentHash h (sh_invoices w) ->
  forall h', (length (docs w' h') <= length (docs w h'))%nat /\
    (Forall is_paid (docs w h') -> Forall is_paid (docs w' h')).
Proof.
  unfold InvoiceRepo.deleteByPaymentHash, docs.
  destruct (coll_deleteOne _ _) as [[n c']|m] eqn:Hu; [|by intros [= -> <-]].
  apply deleteOne_docs in Hu as [(-> & Hc & _)|(l1 & d & l2 & -> & Hc & _ & Hc')];
    intros [= -> <-] h'; [by rewrite Hc|].
  rewrite Hc, Hc', !List.filter_app, !length_app. simpl.
  destruct (InvoiceRepo.with_id h' d); simpl; [|done]. split; [lia|].
  rewrite !Forall_app, Forall_cons. tauto.
Qed.

Lemma found_doc w h i c' : (Ok i, c') = InvoiceRepo.findByPaymentHash h (sh_invoices w) ->
  c' = sh_invoices w /\ wi_paymentHash i = h /\
  exists d, d ∈ docs w h /\ InvoiceRepo.raw_paid d = wi_paid i.
Proof.
  unfold InvoiceRepo.findByPaymentHash.
  destruct (coll_findOne _ _) as [[d|]|m] eqn:Hf; [|by intros [= ]..].
  apply findOne_some in Hf as [Hin Hid]. intros [= Hi ->]. split; [done|].
  assert (Hd : wi_paymentHash i = InvoiceRepo.raw_id d /\ wi_paid i = InvoiceRepo.raw_paid d).
  { unfold InvoiceRepo.caught, InvoiceRepo.walletInvoiceFromRaw in Hi.
    repeat case_match; by simplify_eq. }
  destruct Hd as [-> ->]. split; [by apply String.eqb_eq|]. exists d. split; [|done].
  by apply list_elem_of_In, List.filter_In.
Qed.

(** A change of the documents that adds none of a hash and keeps the marks. *)
Lemma once_docs w w' : once w -> sh_credits w' = sh_credits w ->
  (forall h, (length (docs w' h) <= length (docs w h))%nat /\
     (Forall is_paid (docs w h) -> Forall is_paid (docs w' h))) -> once w'.
Proof.
  intros [Hl Ho] Hc Hd. split; intros h; destruct (Hd h) as [Hd1 Hd2].
  - specialize (Hl h). lia.
  - unfold credits. rewrite Hc. destruct (Ho h) as [|[? ?]]; [by left|right]. auto.
Qed.

Lemma credits_same w w' h : sh_credits w' = sh_credits w -> credits w' h = credits w h.
Proof. unfold credits. by intros ->. Qed.

(** What a call outside the protocol's acts does to the world. *)
Lemma quiet_world X (c : call X) w x w' : acts c = false -> ans X c w x w' ->
  coll_docs (sh_invoices w') = coll_docs (sh_invoices w) /\ sh_credits w' = sh_credits w.
Proof.
  destruct c; simpl; try done; intros _ Ha; try (by subst).
  destruct Ha as [Ha ->]. split; [|done]. unfold InvoiceRepo.findByPaymentHash in Ha.
  by destruct (coll_findOne _ _) as [[d|]|m]; injection Ha as _ ->.
Qed.

Lemma marked_world w h x w' : once w -> ans _ (InvoiceMarkAsPaid h) w x w' ->
  once w' /\ sh_credits w' = sh_credits w /\
  (is_ok x = true -> Forall is_paid (docs w' h)).
Proof.
  intros Ho (r & Hr & -> & Hc). pose proof (mark_docs _ _ _ _ Hr) as Hm. split; [|split; [done|]].
  - eapply once_docs; [done..|]. intros h'. destruct (Hm h') as (-> & ? & _). split; [lia|done].
  - intros Hx. destruct (Hm h) as (_ & _ & Hp). apply Hp; [by destruct r|apply Ho].
Qed.

Lemma credited_world w w' h :
  once w -> credits w h = 0%nat -> Forall is_paid (docs w h) ->
  sh_invoices w' = sh_invoices w ->
  sh_credits w' = sh_credits w \/ sh_credits w' = h :: sh_credits w -> once w'.
Proof.
  intros [Hl Ho] H0 Hp Hi Hc. unfold once, docs, credits in *. rewrite Hi. split; [done|].
  intros h'. destruct Hc as [->| ->]; [apply Ho|]. simpl.
  destruct (String.eqb_spec h' h) as [->|]; [right|apply Ho]. simpl. by rewrite H0.
Qed.

Lemma phase_step cfg wi ph w ev ph' w' :
  phase_inv wi ph w -> ev_ans ans ev w w' -> step cfg wi ph ev ph' -> phase_inv wi ph' w'.
Proof.
  intros [Ho Hph] Ha Hs.
  destruct Hs as [ph X c x Hq|l|l Hp|l o Hno|l Hset|l x Hx|ph l Hl|ph l x Hl Hx|l r md j Hr
                 |l r md x Hx|ph x Hl|ph x Hl|ph o|ph x Hl]; simpl in Ha.
  - destruct (quiet_world X c w x w' Hq Ha) as [Hd Hc].
    assert (Hdocs : forall h, docs w' h = docs w h) by (intros h; unfold docs; by rewrite Hd).
    split; [eapply once_docs; [done..|]; intros h; by rewrite Hdocs|].
    destruct ph; rewrite ?Hdocs, ?(credits_same w w') by done; done.
  - subst w'. by split.
  - subst w'. split; [done|]. simpl in *. destruct Hp as [Hp _]. destruct Hph; congruence.
  - by subst w'.
  - by subst w'.
  - by subst w'.
  - destruct (marked_world _ _ _ _ Ho Ha) as (Ho' & Hc & Hd). split; [done|].
    rewrite (credits_same w w') by done. split; [|auto]. destruct Hl as [->|[-> _]]; exact Hph.
  - by destruct (marked_world _ _ _ _ Ho Ha).
  - destruct Hph as [H0 Hp]. split; [|done]. destruct Ha. by eapply credited_world; eauto.
  - destruct Hph as [H0 Hp]. split; [|done]. destruct Ha. by eapply credited_world; eauto; destruct x; eauto.
  - subst w'. split; [done|]. done.
  - destruct Ha as [Ha Hc]. split; [|done]. eapply once_docs; [exact Ho|done|].
    intros h. by eapply delete_docs.
  - by subst w'.
  - destruct (marked_world _ _ _ _ Ho Ha) as (Ho' & _ & _). by destruct (is_ok x).
Qed.

Lemma find_world w h x w' : ans _ (InvoiceFindByPaymentHash h) w x w' -> w' = w.
Proof.
  intros [Hx Hc]. unfold InvoiceRepo.findByPaymentHash in Hx. destruct w', w; simpl in *.
  by destruct (coll_findOne _ _) as [[d|]|m]; simplify_eq.
Qed.

Lemma update_once cfg w h tr r w' :
  once w -> wexec ans w (updatePendingInvoiceByPaymentHash cfg h) tr r w' -> once w'.
Proof.
  intros Ho He. destruct (wexec_call_inv ans _ _ _ _ _ _ He) as (x & w1 & tr' & Ha & Hk).
  assert (w1 = w) as -> by by eapply find_world. simpl in Hk. destruct x as [i|e|e].
  - destruct Ha as [Hx _]. apply found_doc in Hx as (_ & Hh & d & Hd & Hp).
    destruct (wexec_inv ans (step cfg i) (phase_inv i) (outcome i)
      (phase_step cfg i) _ _ _ _ _ Hk IStart (update_follows cfg i)) as (ph & [Ho' _] & _); [|done].
    split; [done|]. simpl. destruct Ho as [_ Ho]. destruct (Ho h) as [H0|[_ Hall]].
    + right. by rewrite Hh.
    + left. rewrite <- Hp. rewrite Forall_forall in Hall. by apply Hall.
  - destruct (is_a e CouldNotFindError); inversion Hk; by subst.
  - inversion Hk; by subst.
Qed.

Lemma serial_once cfg w hs w' : once w -> serial cfg w hs w' -> once w'.
Proof. intros Ho Hs. induction Hs; eauto using update_once. Qed.

(** C10. Over any sequence of updates of invoices by payment hash that run one after the
    other on a shared repository with at most one document per hash, whatever the
    node and the other services answer, the ledger is credited at most once for a
    payment hash, and a credited invoice is marked as paid in the repository. *)
Theorem serial_updates_credit_once (cfg : Settings) (w w' : shared) (hs : list string)
    (Hids : forall h, (length (docs w h) <= 1)%nat) (Hnone : sh_credits w = [])
    (Hruns : serial cfg w hs w') (h : string) :
  (credits w' h <= 1)%nat /\
  (credits w' h = 1%nat -> forall d, d ∈ docs w' h -> InvoiceRepo.raw_paid d = true).
Proof.
  assert (Ho : once w) by (split; [done|]; intros h'; left; unfold credits; by rewrite Hnone).
  destruct (serial_once _ _ _ _ Ho Hruns) as [_ Ho']. destruct (Ho' h) as [->|[-> Hd]]; [lia|].
  rewrite Forall_forall in Hd. split; [done|auto].
Qed.

(** Every call has an answer in every world. *)
Lemma ans_total X (c : call X) w : exists x w', ans X c w x w'.
Proof.
  assert (Hother : (forall x : X, ans X c w x w) -> exists x w', ans X c w x w')
    by (intros Hx; exists (failing_env X c), w; apply Hx).
  destruct c; try (by apply Hother); clear Hother; destruct w as [l cr]; simpl.
  - destruct (InvoiceRepo.findByPaymentHash hash0 l) as [x l'] eqn:Hx.
    by exists x, (mkShared l' cr).
  - destruct (InvoiceRepo.markAsPaid hash0 l) as [x l'] eqn:Hx.
    exists (forget x), (mkShared l' cr), x. done.
  - destruct (InvoiceRepo.persistNew 0 i l) as [x l'] eqn:Hx.
    exists x, (mkShared l' cr), 0%Z. done.
  - destruct (InvoiceRepo.deleteByPaymentHash hash0 l) as [x l'] eqn:Hx.
    by exists x, (mkShared l' cr).
  - by exists (Er (new UnknownRepositoryError)), (mkShared l cr).
Qed.

(** [handleHeldInvoices]: the invoices that are not paid, for the five workers of
    [runInParallel]; each runs [process_held_invoice]. *)
Definition handleHeldInvoices (w : shared) : @config call shared WalletInvoice bool :=
  runInParallel (InvoiceRepo.yieldPending (sh_invoices w)) 5 w.

(** handleHeldInvoices, with its five workers on the shared repository of invoices, has
    no infinite run, and it stops only when every invoice that was pending at the
    start has been processed exactly once. *)
Theorem held_invoices_all_processed (cfg : Settings) (w : shared) :
  let moves := wstep ans (process_held_invoice cfg) in
  Acc (after moves) (handleHeldInvoices w) /\
  forall cf, rtc moves (handleHeldInvoices w) cf ->
    (exists cf', moves cf cf') \/
    ((forall wk, wk ∈ workers cf -> wk = WDone) /\
     processed cf ≡ₚ InvoiceRepo.yieldPending (sh_invoices w)).
Proof.
  split; [apply config_acc|]. intros cf Hr.
  destruct (progress ans (process_held_invoice cfg) cf ans_total) as [Hs|Hall]; [by left|right].
  split; [done|]. eapply (done_all_processed ans _ _ 5); [lia|exact Hr|exact Hall].
Qed.

End Shared.

(** The node holds an invoice, which is updated twice, one after the other. *)
Definition held_world : @shared (list InvoiceRepo.RawInvoice) :=
  mkShared [InvoiceRepo.raw_of 0 InvoiceClaims.held_invoice] [].

Definition held_answer (X : Type) (c : call X) (w : @shared (list InvoiceRepo.RawInvoice))
    : X * shared :=
  match c in call X return X * shared with
  | InvoiceFindByPaymentHash h => (fst (InvoiceRepo.findByPaymentHash h (sh_invoices w)), w)
  | InvoiceMarkAsPaid h =>
      let '(r, l) := InvoiceRepo.markAsPaid h (sh_invoices w) in
      (forget r, mkShared l (sh_credits w))
  | InvoiceDeleteByPaymentHash h =>
      let '(r, l) := InvoiceRepo.deleteByPaymentHash h (sh_invoices w) in
      (r, mkShared l (sh_credits w))
  | InvoicePersistNew i =>
      let '(r, l) := InvoiceRepo.persistNew 0 i (sh_invoices w) in
      (r, mkShared l (sh_credits w))
  | FacadeRecordReceive _ _ _ _ _ h _ =>
      (Ok (mkJournal "j1" false []),
       mkShared (sh_invoices w) (match h with Some h => h :: sh_credits w | None => sh_credits w end))
  | c => (InvoiceClaims.answering_env _ c, w)
  end.

Lemma held_answer_ans X c w : ans X c w (fst (held_answer X c w)) (snd (held_answer X c w)).
Proof.
  destruct w as [l cr]. destruct c; simpl; try done.
  - split; [|done]. unfold InvoiceRepo.findByPaymentHash.
    by destruct (coll_findOne _ _) as [[d|]|m].
  - destruct (InvoiceRepo.markAsPaid hash0 l) as [r l'] eqn:Hm. by exists r.
  - destruct (InvoiceRepo.persistNew 0 i l) as [r l'] eqn:Hm. by exists 0%Z.
  - by destruct (InvoiceRepo.deleteByPaymentHash hash0 l) as [r l'] eqn:Hm.
Qed.

Definition held_run (w : @shared (list InvoiceRepo.RawInvoice)) :=
  wrun held_answer (updatePendingInvoiceByPaymentHash sample_settings "h1") w.

Lemma serial_updates_credit_once_witness :
  credits (snd (held_run (snd (held_run held_world)))) "h1" = 1%nat /\
  (credits (snd (held_run (snd (held_run held_world)))) "h1" <= 1)%nat.
Proof.
  split; [vm_compute; reflexivity|].
  refine (proj1 (serial_updates_credit_once sample_settings held_world
    (snd (held_run (snd (held_run held_world)))) ["h1"; "h1"] _ eq_refl _ "h1")).
  - intros h. unfold docs. simpl. destruct (InvoiceRepo.with_id h _); simpl; lia.
  - eapply serial_cons; [apply (wrun_wexec held_answer), held_answer_ans|].
    eapply serial_cons; [apply (wrun_wexec held_answer), held_answer_ans|constructor].
Defined.

(** ** Two updates of one invoice *)

(** The invoices, the ledger's credits, whether the node has settled the invoice, and
    the locks that are held. *)
Record race_world : Type := mkRace {
  rw_invoices : list InvoiceRepo.RawInvoice;
  rw_credits : list string;
  rw_settled : bool;
  rw_locks : list string
}.

Definition race_answer (X : Type) (c : call X) (w : race_world) : X * race_world :=
  match c in call X return X * race_world with
  | InvoiceFindByPaymentHash h => (fst (InvoiceRepo.findByPaymentHash h (rw_invoices w)), w)
  | InvoiceMarkAsPaid h =>
      let '(r, l) := InvoiceRepo.markAsPaid h (rw_invoices w) in
      (forget r, mkRace l (rw_credits w) (rw_settled w) (rw_locks w))
  | LndLookupInvoice _ h =>
      (Ok (mkInvoiceLookup h (rw_settled w) (negb (rw_settled w)) false (num 1000) "coffee"), w)
  | LndSettleInvoice _ _ => (Ok tt, mkRace (rw_invoices w) (rw_credits w) true (rw_locks w))
  | LockAcquire p =>
      if existsb (String.eqb p) (rw_locks w) then (LockExecutionError, w)
      else (LockOk, mkRace (rw_invoices w) (rw_credits w) (rw_settled w) (p :: rw_locks w))
  | LockRelease p =>
      (LockOk, mkRace (rw_invoices w) (rw_credits w) (rw_settled w)
                 (List.filter (fun q => negb (String.eqb p q)) (rw_locks w)))
  | FacadeRecordReceive _ _ _ _ _ (Some h) _ =>
      (Ok (mkJournal "j1" false []), mkRace (rw_invoices w) (h :: rw_credits w) (rw_settled w) (rw_locks w))
  | c => (sample_env _ c, w)
  end.

Definition race_start : race_world :=
  mkRace [InvoiceRepo.raw_of 0 (mkWalletInvoice "h1" "s1" true "pk" None (mkWallet "bob" Btc) false)]
    [] false [].

(** The first worker reads the invoice, the second one too, and each goes on by itself. *)
Definition race_order : list nat := [0; 0; 1; 1] ++ repeat 0 14 ++ repeat 1 13.

Definition race_summary (cf : @config call race_world string bool) : list string * list string * list string :=
  (processed cf, rw_locks (world cf), rw_credits (world cf)).

Lemma race_run :
  option_map race_summary
    (scheduled race_answer (updatePendingInvoiceByPaymentHash sample_settings) race_order
      (runInParallel ["h1"; "h1"] 2 race_start)) = Some (["h1"; "h1"], [], ["h1"; "h1"]).
Proof. vm_compute. reflexivity. Qed.

Lemma option_map_inv {A B} (f : A -> B) o y : option_map f o = Some y -> exists x, o = Some x /\ f x = y.
Proof. destruct o as [x|]; simpl; [|done]. intros [= <-]. eauto. Qed.

(** Two updates of one invoice whose first reads come before either takes the lock
    credit the wallet twice: the invoice read again under the lock is not the one
    whose flag is tested. *)
Theorem concurrent_updates_credit_twice :
  exists cf,
    rtc (wstep (answers race_answer) (updatePendingInvoiceByPaymentHash sample_settings))
      (runInParallel ["h1"; "h1"] 2 race_start) cf /\
    processed cf = ["h1"; "h1"] /\ rw_locks (world cf) = [] /\
    rw_credits (world cf) = ["h1"; "h1"].
Proof.
  destruct (option_map_inv _ _ _ race_run) as (cf & He & Hsum). exists cf.
  split; [exact (scheduled_steps race_answer _ race_order _ _ He)|].
  clear He. unfold race_summary in Hsum. by injection Hsum as -> -> ->.
Qed.

End SharedInvoices.
