(* ===== verification/PendingPayments.v ===== *)
(** * Payments that the node has not answered

    The handlers of [lib/app/payments] that find out what became of a payment
    ([update-pending-payments.js]), the flow of a payment rebuilt from its ledger
    transaction ([translations.js]), the refund of a failed dollar payment
    ([lib/app/wallets/reimburse-failed-usd.js]) and the balance of a wallet
    ([get-balance-for-wallet.js]).  [wrapAsyncToRunInSpan] only adds tracing; the level
    [setErrorCritical] gives to an error is left out. *)

From S2P Require Import Prelude JsNum Errors Money Ledger PaymentFlow Validation Accounts TxMetadata Facade LedgerService Programs Effects Workers Payments.
Import AmountCalculator PriceRatio CheckedAmounts.
#[local] Open Scope string_scope.
#[local] Open Scope Z_scope.
#[local] Open Scope list_scope.

(** ** [app/payments/translations.js] *)

(** The currency of a transaction; the schema allows no other. *)
Definition ltx_walletCurrency (t : LedgerTx) : option WalletCurrency :=
  match ltx_currency t with
  | MStr s => if String.eqb s "USD" then Some Usd else if String.eqb s "BTC" then Some Btc else None
  | _ => None
  end.

Definition is_payment (t : LedgerTx) : bool :=
  bool_decide (ltx_type t = MStr (type_string Payment)).

Definition PaymentFlowFromLedgerTransaction (ledgerTxn : LedgerTx) (senderAccountId : string)
    : result PaymentFlow :=
  if negb (is_payment ledgerTxn) then Er (new NonLnPaymentTransactionForPaymentFlowError)
  else
    match ltx_walletId ledgerTxn, ltx_walletCurrency ledgerTxn, ltx_paymentHash ledgerTxn,
          ltx_satsAmount ledgerTxn, ltx_centsAmount ledgerTxn, ltx_satsFee ledgerTxn,
          ltx_centsFee ledgerTxn with
    | Some senderWalletId, Some senderWalletCurrency, Some paymentHash, Some satsAmount,
      Some centsAmount, Some satsFee, Some centsFee =>
        let* btcPaymentAmount := paymentAmountFromNumber (Some satsAmount) Btc in
        let* usdPaymentAmount := paymentAmountFromNumber (Some centsAmount) Usd in
        let* btcProtocolFee := paymentAmountFromNumber (Some satsFee) Btc in
        let* usdProtocolFee := paymentAmountFromNumber (Some centsFee) Usd in
        Ok (mkPaymentFlow (Some paymentHash) None senderWalletId senderWalletCurrency senderAccountId
              None None None None None "" false btcPaymentAmount usdPaymentAmount
              (if decide (senderWalletCurrency = Usd) then amount usdPaymentAmount
               else amount btcPaymentAmount)
              (ltx_timestamp ledgerTxn) true SMLightning PMLightning btcProtocolFee usdProtocolFee
              None None)
    | _, _, _, _, _, _, _ => Er (new MissingPropsInTransactionForPaymentFlowError)
    end.

(** ** [app/wallets/reimburse-failed-usd.js] *)

Definition failed_usd_metadata (f : PaymentFlow) (paymentHash jid : string) (usd : number) : metadata :=
  obj [("hash", MStr paymentHash);
       ("type", MStr (type_string Payment));
       ("pending", MBool false);
       ("related_journal", MStr jid);
       ("usd", MNum usd);
       ("satsAmount", toNum (pf_btcPaymentAmount f));
       ("centsAmount", toNum (pf_usdPaymentAmount f));
       ("satsFee", toNum (pf_btcProtocolFee f));
       ("centsFee", toNum (pf_usdProtocolFee f));
       ("displayAmount", toNum (pf_usdPaymentAmount f));
       ("displayFee", toNum (pf_usdProtocolFee f));
       ("displayCurrency", MStr "USD")].

Definition is_btc (w : Wallet) : bool := bool_decide (w_currency w = Btc).

(** The bitcoin wallet of the account of a wallet. *)
Definition btc_wallet_of (recipientWallet : Wallet) : prog (result Wallet) :=
  if is_btc recipientWallet then Ret (Ok recipientWallet)
  else
    await recipientWallets <- do_call (WalletListByAccountId (w_accountId recipientWallet)) ;;
    match find is_btc recipientWallets with
    | Some w => Ret (Ok w)
    | None => Ret (Er (new CouldNotFindBtcWalletForAccountError))
    end.

Definition reimburseFailedUsdPayment (f : PaymentFlow) (jid : string) : prog (result unit) :=
  await paymentHash <- Ret (Flow.paymentHashForFlow f) ;;
  await usd <- Ret (divFloor (pf_usdPaymentAmount f) 100) ;;
  await recipientWallet <- do_call (WalletFindById (w_id (Flow.senderWalletDescriptor f))) ;;
  await recipientBtcWallet <- btc_wallet_of recipientWallet ;;
  await _ <- do_call (FacadeRecordReceive "Usd payment canceled" (descriptor recipientBtcWallet)
                        (total_of f) None
                        (failed_usd_metadata f paymentHash jid (Number (amount usd)))
                        (Some paymentHash) None) ;;
  Ret (Ok tt).

(** ** [app/payments/update-pending-payments.js] *)

(** The transaction of the wallet of the sender. *)
Definition is_sender_line (nonEndUserWalletIds : list string) (t : LedgerTx) : bool :=
  ltx_pendingConfirmation t && is_payment t && num_ltb (num 0) (ltx_debit t)
  && match ltx_walletId t with
     | Some id => negb (existsb (String.eqb id) nonEndUserWalletIds)
     | None => false
     end.

Definition reconstructPendingPaymentFlow (paymentHash : string) : prog (result PaymentFlow) :=
  await ledgerTxns <- do_call (LedgerTransactionsByHash paymentHash) ;;
  await nonEndUserWalletIds <- do_call LedgerNonEndUserWalletIds ;;
  match find (is_sender_line nonEndUserWalletIds) ledgerTxns with
  | None => Ret (Er (new CouldNotFindTransactionError))
  | Some payment =>
      match ltx_walletId payment with
      | Some (String _ _ as senderWalletId) =>
          await senderWallet <- do_call (WalletFindById senderWalletId) ;;
          await senderAccount <- do_call (AccountFindById (w_accountId senderWallet)) ;;
          Ret (PaymentFlowFromLedgerTransaction payment (acc_id senderAccount))
      | _ => Ret (Er (new MissingPropsInTransactionForPaymentFlowError))
      end
  end.

Definition tx_inputAmount (t : LedgerTx) : result Z :=
  inputAmountFromLedgerTransaction (match ltx_walletCurrency t with Some c => c | None => Btc end)
    (ltx_debit t) (ltx_centsFee t) (ltx_satsFee t).

(** [confirmedDetails?.roundedUpFee || toSats(0)]. *)
Definition confirmed_fee (lookup : LnPaymentLookup) : number :=
  match pl_confirmedDetails lookup with
  | Some d => if num_truthy (roundedUpFee d) then roundedUpFee d else num 0
  | None => num 0
  end.

Definition revealed (lookup : LnPaymentLookup) : option string :=
  match pl_confirmedDetails lookup with Some d => revealedPreImage d | None => None end.

(** The flow of the payment, no longer pending: the stored one, or the one rebuilt from
    the ledger. *)
Definition flow_not_pending (walletId paymentHash : string) (inputAmount : Z)
    : prog (result PaymentFlow) :=
  let! paymentFlow <- do_call (FlowMarkNotPending walletId paymentHash inputAmount) ;;
  match paymentFlow with
  | Er _ => reconstructPendingPaymentFlow paymentHash
  | r => Ret r
  end.

(** The payment has been made. *)
Definition payment_settled (pendingPayment : LedgerTx) (paymentHash : string) (f : PaymentFlow)
    (lookup : LnPaymentLookup) : prog (result unit) :=
  let! _ <- (if str_truthy (revealed lookup)
             then do_call (FacadeUpdateMetadataByHash paymentHash (revealed lookup))
             else Ret tt) ;;
  if ltx_feeKnownInAdvance pendingPayment then Ret (Ok tt)
  else
    match ltx_displayAmount pendingPayment, ltx_displayFee pendingPayment with
    | Some _, Some _ =>
        reimburseFee f (ltx_journalId pendingPayment) (confirmed_fee lookup) (revealed lookup)
    | _, _ => Ret (Er (new UnknownLedgerError))
    end.

(** The payment has failed. *)
Definition payment_failed (pendingPayment : LedgerTx) (paymentHash : string) (f : PaymentFlow)
    : prog (result unit) :=
  if decide (pf_senderWalletCurrency f = Btc)
  then do_call (LedgerRevertLightningPayment (ltx_journalId pendingPayment) paymentHash)
  else reimburseFailedUsdPayment f (ltx_journalId pendingPayment).

(** The section under the lock of the payment hash. *)
Definition update_body (walletId : string) (pendingPayment : LedgerTx) (paymentHash : string)
    (lookup : LnPaymentLookup) : prog (result unit) :=
  await recorded <- do_call (LedgerIsLnTxRecorded paymentHash) ;;
  if (recorded : bool) then Ret (Ok tt)
  else
    await inputAmount <- Ret (tx_inputAmount pendingPayment) ;;
    await paymentFlow <- flow_not_pending walletId paymentHash inputAmount ;;
    await _ <- do_call (LedgerSettlePendingLnPayment paymentHash) ;;
    match pl_status lookup with
    | PaymentSettled => payment_settled pendingPayment paymentHash paymentFlow lookup
    | PaymentFailed => payment_failed pendingPayment paymentHash paymentFlow
    | PaymentPending => Ret (Ok tt)
    end.

(** The answer of the code, when it is no error, is always true. *)
Definition updatePendingPayment (walletId : string) (pendingPayment : LedgerTx) : prog (result unit) :=
  await _ <- do_call LndService ;;
  match ltx_paymentHash pendingPayment, ltx_pubkey pendingPayment with
  | Some (String _ _ as paymentHash), Some (String _ _ as pubkey) =>
      await lnPaymentLookup <- do_call (LndLookupPayment pubkey paymentHash) ;;
      if decide (pl_status lnPaymentLookup = PaymentPending) then Ret (Ok tt)
      else lockPaymentHash paymentHash (update_body walletId pendingPayment paymentHash lnPaymentLookup)
  | Some (String _ _), _ =>
      Ret (Throw (new_msg InconsistentDataError "pubkey missing from payment transaction"))
  | _, _ =>
      Ret (Throw (new_msg InconsistentDataError "paymentHash missing from payment transaction"))
  end.

(** Errors are ignored, a rejection ends the loop. *)
Fixpoint update_each (walletId : string) (pendingPayments : list LedgerTx) : prog (result unit) :=
  match pendingPayments with
  | [] => Ret (Ok tt)
  | p :: rest =>
      let! r <- updatePendingPayment walletId p ;;
      match r with
      | Throw e => Ret (Throw e)
      | _ => update_each walletId rest
      end
  end.

Definition updatePendingPaymentsByWalletId (walletId : string) : prog (result unit) :=
  await count <- do_call (LedgerPendingPaymentsCount walletId) ;;
  if Nat.eqb count 0 then Ret (Ok tt)
  else
    await pendingPayments <- do_call (LedgerListPendingPayments walletId) ;;
    update_each walletId pendingPayments.

(** The wallets with pending payments, for the five workers of [runInParallel]; each runs
    [updatePendingPaymentsByWalletId]. *)
Definition updatePendingPayments {W} (walletIdsWithPendingPayments : list string) (w : W)
    : @config call W string unit :=
  runInParallel walletIdsWithPendingPayments 5 w.

(** ** [app/wallets/get-balance-for-wallet.js] *)

Definition getBalanceForWallet (walletId : string) : prog (result number) :=
  await _ <- updatePendingPaymentsByWalletId walletId ;;
  do_call (LedgerBalance walletId).
