(* ===== verification/PendingPaymentsSpec.v ===== *)
(** * Properties of pending payments

    What finding out about a payment does to the money, whatever the services answer;
    that a payment the node has finished with does not stay pending; and that the flow
    rebuilt from the ledger is the one that was recorded. *)

From S2P Require Import Prelude JsNum Errors Money Ledger PaymentFlow Validation Accounts TxMetadata Facade LedgerService LedgerWrites Programs Effects Workers Payments PaymentsSpec Protocols InvoicesSpec PendingPayments.
Import AmountCalculator PriceRatio CheckedAmounts EntryBuilderSpec FacadeSpec QuerySpec.
#[local] Open Scope string_scope.
#[local] Open Scope Z_scope.
#[local] Open Scope list_scope.

Module PendingSpec.

(** ** The money moved so far and what the node last said, as a protocol *)

Definition saw (ev : event) : option (string * LnPaymentLookup) :=
  match ev with
  | Ev c x =>
      match c in call X return X -> option (string * LnPaymentLookup) with
      | LndLookupPayment _ h => fun x => match x with Ok l => Some (h, l) | _ => None end
      | _ => fun _ => None
      end x
  end.

Definition later (l l' : option (string * LnPaymentLookup)) : option (string * LnPaymentLookup) :=
  match l' with Some _ => l' | None => l end.

Definition seen (tr : list event) : option (string * LnPaymentLookup) :=
  fold_left (fun l ev => later l (saw ev)) tr None.

(** The answers that tell the flow of the payment. *)
Definition tells_flow (ev : event) : list event :=
  match ev with
  | Ev c _ => match c with FlowMarkNotPending _ _ _ | LedgerTransactionsByHash _ => [ev] | _ => [] end
  end.

Definition phase : Type := list money * option (string * LnPaymentLookup) * list event.

Definition step (ph : phase) (ev : event) (ph' : phase) : Prop :=
  ph' = (fst (fst ph) ++ money_of ev, later (snd (fst ph)) (saw ev), snd ph ++ tells_flow ev).

Lemma path_phase ph tr ph' : path step ph tr ph' ->
  ph' = (fst (fst ph) ++ money_trace tr, fold_left (fun l ev => later l (saw ev)) tr (snd (fst ph)),
         snd ph ++ flat_map tells_flow tr).
Proof.
  induction 1 as [[[m l] k]|ph ev ph1 tr ph2 -> _ ->]; simpl; [by rewrite !app_nil_r|].
  unfold money_trace. simpl. by rewrite <- !app_assoc.
Qed.

Lemma tells_flow_in ev tr : ev ∈ flat_map tells_flow tr -> ev ∈ tr.
Proof.
  rewrite !list_elem_of_In, in_flat_map. intros (ev' & Hin & He). destruct ev' as [X c x].
  destruct c; simpl in He; try done; by destruct He as [<-|[]].
Qed.

(** The flow of a pending payment: the stored one of its wallet, hash and amount, or the one
    of a transaction that the ledger has for its hash. *)
Definition flow_known (walletId hash : string) (p : LedgerTx) (tr : list event) (f : PaymentFlow)
    : Prop :=
  (exists z, tx_inputAmount p = Ok z /\ Ev (FlowMarkNotPending walletId hash z) (Ok f) ∈ tr) \/
  (exists ts t accountId, Ev (LedgerTransactionsByHash hash) (Ok ts) ∈ tr /\ In t ts /\
     ltx_pendingConfirmation t = true /\ PaymentFlowFromLedgerTransaction t accountId = Ok f).

Lemma flow_known_more walletId hash p tr tr' f :
  flow_known walletId hash p tr f -> (forall ev, ev ∈ tr -> ev ∈ tr') -> flow_known walletId hash p tr' f.
Proof.
  intros [(z & Hz & Hin)|(ts & t & a & Hin & Ht)] Hsub; [left|right].
  - exists z. split; [done|]. by apply Hsub.
  - exists ts, t, a. split; [by apply Hsub|done].
Qed.

(** The amounts given back when the fee was lower than its bound. *)
Definition reimbursed (f : PaymentFlow) (fee : number) (back : BothAmounts) : Prop :=
  exists actual r diff,
    paymentAmountFromNumber (Some fee) Btc = Ok actual /\
    PriceRatio (pf_usdPaymentAmount f) (pf_btcPaymentAmount f) = Ok r /\
    FeeReimbursement.getReimbursement
      (FeeReimbursement.mkAmounts (pf_btcProtocolFee f) (pf_usdProtocolFee f)) r actual = Ok diff /\
    back = mkBoth (FeeReimbursement.ra_usd diff) (FeeReimbursement.ra_btc diff).

(** What is done with the money of a payment once it is settled in the ledger. *)
Definition refund (p : LedgerTx) (hash : string) (f : PaymentFlow) (l : LnPaymentLookup)
    (done : bool) (ms : list money) : Prop :=
  match pl_status l with
  | PaymentSettled =>
      ms = [] \/
      (ltx_feeKnownInAdvance p = false /\
       exists back, reimbursed f (confirmed_fee l) back /\
         ms = [Credited (descriptor (Flow.senderWalletDescriptor f)) back])
  | PaymentFailed =>
      (done = false /\ ms = []) \/
      (pf_senderWalletCurrency f = Btc /\ ms = [Reverted (ltx_journalId p) hash]) \/
      (pf_senderWalletCurrency f = Usd /\
       exists w, w_currency w = Btc /\ ms = [Credited (descriptor w) (total_of f)])
  | PaymentPending => False
  end.

Definition outcome (walletId : string) (p : LedgerTx) (ph : phase) (r : result unit) : Prop :=
  fst (fst ph) = [] \/
  exists hash f l ms, ltx_paymentHash p = Some hash /\ snd (fst ph) = Some (hash, l) /\
    flow_known walletId hash p (snd ph) f /\
    fst (fst ph) = Settled hash :: ms /\ refund p hash f l (is_ok r) ms.

Arguments rpbind {E A B} p k /.
Arguments do_call {E X} c /.
Arguments paymentAmountFromNumber : simpl never.
Arguments PriceRatio : simpl never.
Arguments divFloor : simpl never.

Ltac go := eexists; split; [reflexivity|]; unfold later; simpl; rewrite ?app_nil_r.

Section Follows.
Context (p : LedgerTx) (hash : string) (l : LnPaymentLookup) (walletId : string).
Context (Hhash : ltx_paymentHash p = Some hash).

Context (known : list event).

Lemma pending_reimburse_follows f jid pre : flow_known walletId hash p known f -> pl_status l = PaymentSettled -> ltx_feeKnownInAdvance p = false ->
  follows step (reimburseFee f jid (confirmed_fee l) pre) ([Settled hash], Some (hash, l), known) (outcome walletId p).
Proof.
  intros Hfl Hst Hknown.
  assert (Hnone : forall r, outcome walletId p ([Settled hash], Some (hash, l), known) r).
  { intros r. right. exists hash, f, l, []. split_and!; [done..|]. unfold refund. rewrite Hst. by left. }
  unfold reimburseFee. simpl.
  destruct (paymentAmountFromNumber _ _) as [actual|e|e] eqn:Ha; simpl; [|done..].
  destruct (PriceRatio _ _) as [r|e|e] eqn:Hr; simpl; [|done..].
  destruct (FeeReimbursement.getReimbursement _ _ _) as [diff|e|e] eqn:Hd; simpl; [|done..].
  destruct (_ =? 0); simpl; [done|].
  destruct (Flow.paymentHashForFlow f) as [h|e|e]; simpl; [|done..].
  intros [j|e|e]; go; [|done..]. right.
  exists hash, f, l, [Credited (descriptor (Flow.senderWalletDescriptor f))
    (mkBoth (FeeReimbursement.ra_usd diff) (FeeReimbursement.ra_btc diff))].
  split_and!; [done..|]. unfold refund. rewrite Hst. right. split; [done|].
  eexists. split; [|done]. by exists actual, r, diff.
Qed.

Lemma settled_follows f : flow_known walletId hash p known f -> pl_status l = PaymentSettled ->
  follows step (payment_settled p hash f l) ([Settled hash], Some (hash, l), known) (outcome walletId p).
Proof.
  intros Hfl Hst.
  assert (Hnone : forall r, outcome walletId p ([Settled hash], Some (hash, l), known) r).
  { intros r. right. exists hash, f, l, []. split_and!; [done..|]. unfold refund. rewrite Hst. by left. }
  unfold payment_settled. apply follows_bind with (mid := fun ph _ => ph = ([Settled hash], Some (hash, l), known)).
  - destruct (str_truthy _); [|done]. simpl. intros []. by go.
  - intros ph _ ->. destruct (ltx_feeKnownInAdvance p) eqn:Hk; [apply Hnone|].
    destruct (ltx_displayAmount p), (ltx_displayFee p); [by apply pending_reimburse_follows|apply Hnone..].
Qed.

Lemma failed_follows f : flow_known walletId hash p known f -> pl_status l = PaymentFailed ->
  follows step (payment_failed p hash f) ([Settled hash], Some (hash, l), known) (outcome walletId p).
Proof.
  intros Hfl Hst.
  assert (Hnone : forall r, is_ok r = false -> outcome walletId p ([Settled hash], Some (hash, l), known) r).
  { intros r Hr. right. exists hash, f, l, []. split_and!; [done..|]. unfold refund.
    rewrite Hst, Hr. by left. }
  unfold payment_failed. destruct (decide _) as [Hc|Hc]; simpl.
  - intros [[]|e|e]; go; [|by apply Hnone..]. right. exists hash, f, l, [Reverted (ltx_journalId p) hash].
    split_and!; [done..|]. unfold refund. rewrite Hst. right. by left.
  - unfold reimburseFailedUsdPayment. simpl.
    destruct (Flow.paymentHashForFlow f) as [h|e|e]; simpl; [|by apply Hnone..].
    intros [w|e|e]; go; [|by apply Hnone..].
    apply follows_bind with (mid := fun ph r => ph = ([Settled hash], Some (hash, l), known) /\
      forall w, r = Ok w -> w_currency w = Btc).
    + unfold btc_wallet_of, is_btc. destruct (bool_decide _) eqn:Hb; simpl.
      { apply bool_decide_eq_true_1 in Hb. split; [done|]. by intros ? [= <-]. }
      intros [ws|e|e]; go; [|by split..].
      destruct (find _ ws) as [w'|] eqn:Hf; split; try done. intros ? [= <-].
      apply find_some in Hf as [_ Hf]. by apply bool_decide_eq_true_1 in Hf.
    + intros ph [w'|e|e] [-> Hw]; simpl; [|by apply Hnone..].
      intros [j|e|e]; go; [|by apply Hnone..]. right.
      exists hash, f, l, [Credited (descriptor w') (total_of f)].
      split_and!; [done..|]. unfold refund. rewrite Hst. right. right.
      split; [by destruct (pf_senderWalletCurrency f)|]. exists w'. auto.
Qed.

(** What the search for the flow leaves: the money and the answer of the node as they were,
    and the flow it returns known. *)
Definition found (m : list money) (o : option (string * LnPaymentLookup)) (ph : phase) (r : result PaymentFlow)
    : Prop :=
  fst ph = (m, o) /\ forall f, r = Ok f -> flow_known walletId hash p (snd ph) f.

Lemma reconstruct_found m o k :
  follows step (reconstructPendingPaymentFlow hash) (m, o, k) (found m o).
Proof.
  unfold reconstructPendingPaymentFlow. simpl.
  intros [ts|e|e]; go; [|by split..]. intros [ids|e|e]; go; [|by split..].
  destruct (find _ ts) as [t|] eqn:Hf; simpl; [|by split]. apply find_some in Hf as [Hin Ht].
  unfold is_sender_line in Ht. bool_prop.
  destruct (ltx_walletId t) as [[|c s]|]; simpl; [by split| |by split].
  intros [w|e|e]; go; [|by split..]. intros [a|e|e]; go; [|by split..].
  split; [done|]. intros f Hf. right. exists ts, t, (acc_id a). split_and!; [|done..].
  apply elem_of_app. right. by left.
Qed.

Lemma flow_found z m o k : tx_inputAmount p = Ok z ->
  follows step (flow_not_pending walletId hash z) (m, o, k) (found m o).
Proof.
  intros Hz. unfold flow_not_pending. simpl. intros [f|e|e]; go; [| |by split].
  - split; [done|]. intros ? [= <-]. left. exists z. split; [done|]. apply elem_of_app. right. by left.
  - apply reconstruct_found.
Qed.

Lemma outcome_error ph r r' : outcome walletId p ph r -> is_ok r' = false -> outcome walletId p ph r'.
Proof.
  intros [Hnone|(h & f & l' & ms & Hh & Hl & Hf & Hm & Hr)] He; [by left|right].
  exists h, f, l', ms. split_and!; [done..|]. unfold refund in *. rewrite He.
  destruct (pl_status l'); [done| |done]. destruct Hr as [[_ ->]|Hr]; auto.
Qed.

End Follows.

Arguments payment_settled : simpl never.
Arguments payment_failed : simpl never.
Arguments flow_not_pending : simpl never.

Lemma pending_body_follows p hash l walletId known :
  ltx_paymentHash p = Some hash -> pl_status l <> PaymentPending ->
  follows step (update_body walletId p hash l) ([], Some (hash, l), known) (outcome walletId p).
Proof.
  intros Hhash Hst. unfold update_body. simpl. intros [b|e|e]; go; [|by left..].
  destruct b; [by left|]. simpl. destruct (tx_inputAmount p) as [z|e|e] eqn:Hz; simpl; [|by left..].
  refine (follows_bind step (flow_not_pending walletId hash z) _ _ _ _
    (flow_found p hash walletId z _ _ _ Hz) _).
  intros [[m o] k] r [[= -> ->] Hk].
  destruct r as [f|e|e]; [|by left..]. specialize (Hk f eq_refl). simpl in *.
  intros [[]|e|e]; go; [|by left..].
  destruct (pl_status l) eqn:Hl; [by apply settled_follows|by apply failed_follows|done].
Qed.

Arguments update_body : simpl never.
Arguments lockPaymentHash : simpl never.

Lemma pending_update_follows walletId p :
  follows step (updatePendingPayment walletId p) ([], None, []) (outcome walletId p).
Proof.
  unfold updatePendingPayment. simpl. intros [n|e|e]; go; [|by left..].
  destruct (ltx_paymentHash p) as [[|c h]|] eqn:Hh; [by left| |by left].
  destruct (ltx_pubkey p) as [[|c' k]|]; [by left| |by left].
  simpl. intros [l|e|e]; go; [|by left..].
  destruct (decide _) as [Hp|Hp]; [by left|].
  eapply follows_redlock; [reflexivity| | |].
  - simpl. unfold later. simpl. by apply pending_body_follows.
  - intros o Ho. eexists. split; [reflexivity|]. intros r Hr. by left.
  - intros ph a o Ha. eexists. split; [reflexivity|]. intros r Hr. simpl. unfold later. simpl.
    rewrite !app_nil_r. destruct ph as [[m s] kn]. simpl.
    destruct Hr as [[-> _]|[He _]]; [done|by eapply outcome_error].
Qed.

(** *** Only a payment that is not recorded *)

(** The ledger says that no settled transaction has the hash of the payment. *)
Definition unrecorded (p : LedgerTx) (ev : event) : bool :=
  match ev with
  | Ev c x =>
      match c in call X return X -> bool with
      | LedgerIsLnTxRecorded hash => fun x =>
          bool_decide (ltx_paymentHash p = Some hash) && match x with Ok false => true | _ => false end
      | _ => fun _ => false
      end x
  end.

Lemma update_guarded walletId p :
  GuardedMoney.keeps_guard (unrecorded p) (updatePendingPayment walletId p).
Proof.
  unfold updatePendingPayment.
  apply GuardedMoney.keeps_await; [by apply MoneyProtocol.quiet_call|]. intros _.
  destruct (ltx_paymentHash p) as [[|c h]|] eqn:Hh; [done| |done].
  destruct (ltx_pubkey p) as [[|c' k]|]; [done| |done].
  apply GuardedMoney.keeps_await; [by apply MoneyProtocol.quiet_call|]. intros l.
  destruct (decide _); [done|]. apply GuardedMoney.keeps_lock. unfold update_body. intros x.
  exists (unrecorded p (Ev (LedgerIsLnTxRecorded (String c h)) x)).
  split; [split; [by right|done]|]. simpl. rewrite Hh, bool_decide_eq_true_2 by done.
  destruct x as [[]|e|e]; [done|apply GuardedMoney.open_follows|done..].
Qed.

(** The last answer of the node is one of the trace. *)
Lemma seen_in tr hash l : seen tr = Some (hash, l) -> exists k, Ev (LndLookupPayment k hash) (Ok l) ∈ tr.
Proof.
  unfold seen. cut (forall o, fold_left (fun l ev => later l (saw ev)) tr o = Some (hash, l) ->
    o = Some (hash, l) \/ exists k, Ev (LndLookupPayment k hash) (Ok l) ∈ tr).
  { intros H Hs. by destruct (H None Hs). }
  induction tr as [|ev tr IH]; intros o Hs; simpl in Hs; [by left|].
  destruct (IH _ Hs) as [Ho|(k & Hk)]; [|right; exists k; by right].
  unfold later in Ho. destruct (saw ev) as [[h x]|] eqn:He; [|by left]. right.
  destruct ev as [X c y]. destruct c; simpl in He; try done. destruct y; [|done..].
  simplify_eq. eexists. by left.
Qed.

(** In every execution of updatePendingPayment either no money is touched, or the ledger
    answered that the hash has no settled transaction, the payment hash of the
    pending transaction is settled once and what follows fits the last answer of the
    node and the stored or rebuilt flow of the payment: after a success at most the
    unused fee is given back to the sender, and only if the fee was not known in
    advance; after a failure the journal of a bitcoin payment is reverted, or the
    bitcoin wallet of the sender is credited the whole amount of a dollar payment,
    unless an error is returned. *)
Theorem pending_payment_money (walletId : string) (p : LedgerTx) (tr : list event)
    (r : result unit) (He : exec (updatePendingPayment walletId p) tr r) :
  money_trace tr = [] \/
  existsb (unrecorded p) tr = true /\
  exists hash f l ms, ltx_paymentHash p = Some hash /\ seen tr = Some (hash, l) /\
    flow_known walletId hash p tr f /\
    money_trace tr = Settled hash :: ms /\ refund p hash f l (is_ok r) ms.
Proof.
  destruct (GuardedMoney.guarded_exec _ _ _ _ (update_guarded walletId p) He) as [Hn|Hu]; [by left|].
  destruct (follows_exec _ _ _ _ _ _ (pending_update_follows walletId p) He) as (ph & Hp & Ho).
  apply path_phase in Hp as ->. simpl in Ho.
  destruct Ho as [Hn|(h & f & l & ms & Hh & Hl & Hf & Hm & Hr)]; [by left|right].
  split; [done|]. exists h, f, l, ms. split_and!; [done..| |done|done].
  eapply flow_known_more; [exact Hf|]. intros ev. apply tells_flow_in.
Qed.

(** ** A payment the node has finished with *)

Lemma run_lock_trace {A} (env : forall X, call X -> X) path (body : prog (result A)) :
  env _ (LockAcquire path) = LockOk ->
  fst (run env (redlock path None body)) =
    Ev (LockAcquire path) LockOk :: fst (run env body) ++
      [Ev (LockRelease path) (env _ (LockRelease path))].
Proof.
  intros Ha. unfold redlock, using_lock. simpl. rewrite Ha. simpl.
  rewrite run_bind. destruct (run env body) as [tr r]. simpl.
  by destruct r, (env _ (LockRelease path)).
Qed.

Ltac answer H c :=
  let x := fresh "x" in
  pose proof (H _ c) as x; simpl in x;
  match type of x with context [?env _ c] => destruct (env _ c); try discriminate x end;
  clear x; simpl.

#[local] Opaque payment_settled.

Lemma body_run env walletId p h l z f :
  (forall X (c : call X), answered c (env X c) = true) -> pl_status l <> PaymentPending ->
  env _ (LedgerIsLnTxRecorded h) = Ok false -> tx_inputAmount p = Ok z ->
  env _ (FlowMarkNotPending walletId h z) = Ok f ->
  exists ms, money_trace (fst (run env (update_body walletId p h l))) = Settled h :: ms /\
    (pl_status l = PaymentFailed -> pf_senderWalletCurrency f = Btc ->
     ms = [Reverted (ltx_journalId p) h]).
Proof.
  intros Hwell Hl Hrec Hz Hf. unfold update_body. simpl. rewrite Hrec, Hz. simpl.
  unfold flow_not_pending. simpl. rewrite Hf. simpl.
  answer Hwell (LedgerSettlePendingLnPayment h). destruct (pl_status l) eqn:Hs; [| |done].
  - destruct (run env (payment_settled p h f l)) as [tr r]. eexists. by split.
  - destruct (run env (payment_failed p h f)) as [tr r] eqn:Hr. eexists. split; [done|].
    intros _ Hc. unfold payment_failed in Hr. rewrite decide_True in Hr by done. simpl in Hr.
    revert Hr. answer Hwell (LedgerRevertLightningPayment (ltx_journalId p) h). by intros [= <- <-].
Qed.

#[local] Opaque update_body redlock.

(** When every service answers and the node says that a pending payment, not recorded as
    settled, has succeeded or failed, updatePendingPayment settles its hash in the
    ledger, and a failed payment of a bitcoin wallet is reverted. *)
Theorem finished_payment_settled (env : forall X, call X -> X) (walletId : string) (p : LedgerTx)
    (h pubkey : string) (l : LnPaymentLookup) (z : Z) (f : PaymentFlow)
    (Hwell : forall X (c : call X), answered c (env X c) = true)
    (Hhash : ltx_paymentHash p = Some h) (Hpubkey : ltx_pubkey p = Some pubkey)
    (Hnonempty : h <> "" /\ pubkey <> "")
    (Hlookup : env _ (LndLookupPayment pubkey h) = Ok l) (Hfinished : pl_status l <> PaymentPending)
    (Hnew : env _ (LedgerIsLnTxRecorded h) = Ok false) (Hamount : tx_inputAmount p = Ok z)
    (Hflow : env _ (FlowMarkNotPending walletId h z) = Ok f) :
  exists ms, money_trace (fst (run env (updatePendingPayment walletId p))) = Settled h :: ms /\
    (pl_status l = PaymentFailed -> pf_senderWalletCurrency f = Btc ->
     ms = [Reverted (ltx_journalId p) h]).
Proof.
  destruct (body_run env walletId p h l z f Hwell Hfinished Hnew Hamount Hflow) as (ms & Hms & Hr).
  exists ms. split; [|done]. unfold updatePendingPayment. simpl. answer Hwell LndService.
  rewrite Hhash, Hpubkey. destruct Hnonempty as [Hh Hk].
  destruct h as [|c h]; [done|]. destruct pubkey as [|c' pubkey]; [done|]. simpl.
  rewrite Hlookup. simpl. rewrite decide_False by done.
  unfold lockPaymentHash.
  match goal with |- context [run env (redlock ?path None ?b)] =>
    pose proof (run_lock_trace env path b) as Htr; destruct (run env (redlock path None b)) as [tr r]
  end.
  simpl in Htr |- *. rewrite Htr.
  - unfold money_trace in *. simpl. rewrite bind_app, Hms. simpl. by rewrite app_nil_r.
  - by answer Hwell (LockAcquire (getPaymentHashLockResource (String c h))).
Qed.

(** ** The flow rebuilt from the ledger *)

Section Rebuilt.
Context {S E : Type} `{MediciQueries S E}.
Context {elaws : MediciEntryLaws E} {blaws : MediciBookLaws S E} {qlaws : MediciQueriesLaws S E}.

Definition exact_amount (c : WalletCurrency) (a : PaymentAmount) : Prop :=
  currency a = c /\ safe (amount a).

(** The amounts of a flow are amounts of their currencies, exact in a number. *)
Record exact_flow (f : PaymentFlow) : Prop := {
  ef_btc : exact_amount Btc (pf_btcPaymentAmount f);
  ef_usd : exact_amount Usd (pf_usdPaymentAmount f);
  ef_btcFee : exact_amount Btc (pf_btcProtocolFee f);
  ef_usdFee : exact_amount Usd (pf_usdProtocolFee f);
  ef_total : safe (debited (descriptor (Flow.senderWalletDescriptor f)) (total_of f));
  ef_positive : 0 < debited (descriptor (Flow.senderWalletDescriptor f)) (total_of f)
}.

Lemma exact_number c a : exact_amount c a -> paymentAmountFromNumber (Some (Number (amount a))) c = Ok a.
Proof.
  intros [<- Hs]. unfold paymentAmountFromNumber, safeBigInt. rewrite Number_safe, BigInt_num by done.
  by destruct a.
Qed.

(** The transaction a recorded send is found as. *)
Lemma sent_transaction d f hash pubkey fd ad dc known st j st1 l :
  exact_flow f ->
  recordSend d (descriptor (Flow.senderWalletDescriptor f)) (total_of f) None
    (LnSendLedgerMetadata hash pubkey f fd ad dc known) st = (Ok j, st1) ->
  getTransactionsByHash (ls_book st1) hash = Ok l ->
  exists t, In (translateToLedgerTx t) l /\ st_journal t = journalId j /\
    st_tx t = sender_line (descriptor (Flow.senderWalletDescriptor f)) (total_of f)
                (LnSendLedgerMetadata hash pubkey f fd ad dc known).
Proof using elaws blaws qlaws.
  intros Hf Hsend Hl. destruct Hf as [_ _ _ _ Hsafe Hpos].
  destruct (recordSend_line _ _ _ _ _ _ _ _ Hsend Hsafe) as (t & Hin & Ht & Hj); [lia|].
  exists t. split; [|done]. revert Hl. unfold getTransactionsByHash, transactions_where, queried.
  destruct (book_ledger _ _) as [res|] eqn:Hq; [|done]. intros [= <-].
  apply in_map, list_elem_of_In. rewrite (ledger_results _ _ _ Hq).
  apply list_elem_of_In, filter_In. split; [done|]. apply andb_true_iff. split.
  - unfold field_is. apply bool_decide_eq_true_2. unfold has_field. simpl. rewrite Ht.
    by rewrite sender_line_meta.
  - by eapply sender_line_liability.
Qed.

(** The flow the ledger transaction of a payment stands for. *)
Definition rebuilt (f : PaymentFlow) (hash accountId : string) (createdAt : Z) : PaymentFlow :=
  mkPaymentFlow (Some hash) None (pf_senderWalletId f) (pf_senderWalletCurrency f) accountId
    None None None None None "" false (pf_btcPaymentAmount f) (pf_usdPaymentAmount f)
    (amount (in_currency (pf_senderWalletCurrency f) (pf_usdPaymentAmount f) (pf_btcPaymentAmount f)))
    createdAt true SMLightning PMLightning (pf_btcProtocolFee f) (pf_usdProtocolFee f) None None.

Lemma send_meta f hash pubkey fd ad dc known :
  let m := LnSendLedgerMetadata hash pubkey f fd ad dc known in
  m !! "type" = Some (MStr (type_string Payment)) /\ m !! "hash" = Some (MStr hash) /\
  m !! "satsAmount" = Some (toNum (pf_btcPaymentAmount f)) /\
  m !! "centsAmount" = Some (toNum (pf_usdPaymentAmount f)) /\
  m !! "satsFee" = Some (toNum (pf_btcProtocolFee f)) /\
  m !! "centsFee" = Some (toNum (pf_usdProtocolFee f)).
Proof. repeat split. Qed.

Lemma rebuilt_line f t w total hash pubkey fd ad dc known accountId :
  st_tx t = sender_line w total (LnSendLedgerMetadata hash pubkey f fd ad dc known) ->
  exact_flow f -> w = descriptor (Flow.senderWalletDescriptor f) -> total = total_of f ->
  hash <> "" -> toWalletId (toLedgerAccountId (pf_senderWalletId f)) = Some (pf_senderWalletId f) ->
  PaymentFlowFromLedgerTransaction (translateToLedgerTx t) accountId =
    Ok (rebuilt f hash accountId (tx_timestamp t)) /\
  tx_inputAmount (translateToLedgerTx t) = Ok (pf_inputAmount (rebuilt f hash accountId 0)) /\
  ltx_walletId (translateToLedgerTx t) = Some (pf_senderWalletId f).
Proof.
  intros Ht [Hb Hu Hbf Huf Hsafe _] -> -> Hh Hid.
  assert (Hm : forall k, k <> "currency" -> meta_of t k =
            default MUndefined (LnSendLedgerMetadata hash pubkey f fd ad dc known !! k))
    by (intros k Hk; unfold meta_of; by rewrite Ht, sender_line_meta).
  assert (Hc : meta_of t "currency" = MStr (currency_string (pf_senderWalletCurrency f))).
  { unfold meta_of. rewrite Ht. unfold sender_line, with_currency. cbn [tx_meta]. rewrite lookup_insert_eq.
    destruct Hb as [Hb _], Hu as [Hu _]. unfold in_currency. simpl.
    destruct (pf_senderWalletCurrency f); simpl; by rewrite ?Hb, ?Hu. }
  assert (Hw : toWalletId (tx_account (st_tx t)) = Some (pf_senderWalletId f)) by by rewrite Ht.
  destruct (send_meta f hash pubkey fd ad dc known) as (M1 & M2 & M3 & M4 & M5 & M6).
  pose proof (Hm "type" ltac:(done)) as N1. rewrite M1 in N1.
  pose proof (Hm "hash" ltac:(done)) as N2. rewrite M2 in N2.
  pose proof (Hm "satsAmount" ltac:(done)) as N3. rewrite M3 in N3.
  pose proof (Hm "centsAmount" ltac:(done)) as N4. rewrite M4 in N4.
  pose proof (Hm "satsFee" ltac:(done)) as N5. rewrite M5 in N5.
  pose proof (Hm "centsFee" ltac:(done)) as N6. rewrite M6 in N6.
  clear M1 M2 M3 M4 M5 M6 Hm. simpl in N1, N2, N3, N4, N5, N6.
  set (m := meta_of t) in *. unfold PaymentFlowFromLedgerTransaction, is_payment, tx_inputAmount,
    ltx_walletCurrency, translateToLedgerTx. fold m.
  cbn [ltx_type ltx_walletId ltx_currency ltx_paymentHash ltx_satsAmount
    ltx_centsAmount ltx_satsFee ltx_centsFee ltx_timestamp ltx_debit].
  rewrite N1, N2, N3, N4, N5, N6, Hc, Hw. clearbody m.
  rewrite bool_decide_eq_true_2 by done. simpl.
  destruct hash as [|x hash]; [done|].
  rewrite (exact_number _ _ Hb), (exact_number _ _ Hu), (exact_number _ _ Hbf), (exact_number _ _ Huf).
  rewrite Ht. unfold sender_line. cbn [tx_debit]. unfold debited in Hsafe. clear Ht.
  destruct Hb as [_ Hb], Hu as [_ Hu], Hbf as [_ Hbf], Huf as [_ Huf].
  simpl. simpl in Hsafe. destruct (pf_senderWalletCurrency f) eqn:Hcur; simpl in *; (split; [unfold rebuilt; by rewrite Hcur|]);
    (split; [|done]); unfold inputAmountFromLedgerTransaction; simpl; rewrite !Number_safe by done;
    rewrite num_sub_safe by (by rewrite Z.add_simpl_r); rewrite Z.add_simpl_r;
    unfold safeBigInt; by rewrite BigInt_num.
Qed.

(** C37. After a lightning send was recorded, the transactions of its hash include the
    one of the wallet of the sender under the journal of the send, and the flow
    rebuilt from that transaction has the wallet, the currency, the amounts, the
    fees and the total of the flow that was sent. *)
Theorem flow_rebuilt_from_ledger (d : string) (f : PaymentFlow) (hash pubkey accountId : string)
    (fd ad : number) (dc : string) (known : bool) (st st1 : LedgerState S) (j : LedgerJournal)
    (l : list LedgerTx) (Hexact : exact_flow f) (Hhash : hash <> "")
    (Hid : toWalletId (toLedgerAccountId (pf_senderWalletId f)) = Some (pf_senderWalletId f))
    (Hsend : recordSend d (descriptor (Flow.senderWalletDescriptor f)) (total_of f) None
       (LnSendLedgerMetadata hash pubkey f fd ad dc known) st = (Ok j, st1))
    (Hfind : getTransactionsByHash (ls_book st1) hash = Ok l) :
  exists t createdAt, In t l /\ ltx_walletId t = Some (pf_senderWalletId f) /\
    ltx_journalId t = journalId j /\
    PaymentFlowFromLedgerTransaction t accountId = Ok (rebuilt f hash accountId createdAt) /\
    total_of (rebuilt f hash accountId createdAt) = total_of f /\
    tx_inputAmount t = Ok (pf_inputAmount (rebuilt f hash accountId createdAt)).
Proof using elaws blaws qlaws.
  destruct (sent_transaction _ _ _ _ _ _ _ _ _ _ _ _ Hexact Hsend Hfind) as (t & Hin & Hj & Ht).
  destruct (rebuilt_line f t _ _ hash pubkey fd ad dc known accountId Ht Hexact eq_refl eq_refl Hhash Hid)
    as (Hr & Hi & Hw).
  exists (translateToLedgerTx t), (tx_timestamp t). by split_and!.
Qed.

End Rebuilt.

(** *** A pending payment of a bitcoin wallet that the node reports as failed *)

Definition btc_flow : PaymentFlow :=
  mkPaymentFlow (Some "h1") None "alice" Btc "a1" None None None None None "coffee" false
    (mkAmount 9900 Btc) (mkAmount 227 Usd) 9900 0 false SMLightning PMLightning
    (mkAmount 100 Btc) (mkAmount 3 Usd) None None.

Definition btc_sent := recordSend (E := list ledgerTx) "coffee" (mkWallet "alice" Btc) (total_of btc_flow)
  None (LnSendLedgerMetadata "h1" "pk" btc_flow (num 3) (num 227) "USD" false) sample_state.
Definition btc_sent_journal : LedgerJournal :=
  match fst btc_sent with Ok j => j | _ => mkJournal "" false [] end.
Definition btc_txs : list LedgerTx :=
  match getTransactionsByHash (E := list ledgerTx) (ls_book (snd btc_sent)) "h1" with
  | Ok l => l
  | _ => []
  end.
Definition btc_pending : LedgerTx :=
  match btc_txs with
  | t :: _ => t
  | [] => translateToLedgerTx (E := list ledgerTx) (mkStored "" "" (mkTx "" (num 0) (num 0) ∅))
  end.

Definition failed_env (X : Type) (c : call X) : X :=
  match c in call X return X with
  | LndLookupPayment _ _ => Ok (mkPaymentLookup PaymentFailed None)
  | FlowMarkNotPending _ _ _ => Ok btc_flow
  | c => InvoiceClaims.answering_env _ c
  end.

Definition failed_update : list event * result unit :=
  run failed_env (updatePendingPayment "alice" btc_pending).

Lemma pending_payment_money_witness :
  money_trace (fst failed_update) =
    [Settled "h1"; Reverted (ltx_journalId btc_pending) "h1"] /\
  (money_trace (fst failed_update) = [] \/
   existsb (unrecorded btc_pending) (fst failed_update) = true /\
   exists hash f l ms, ltx_paymentHash btc_pending = Some hash /\
     seen (fst failed_update) = Some (hash, l) /\
     flow_known "alice" hash btc_pending (fst failed_update) f /\
     money_trace (fst failed_update) = Settled hash :: ms /\
     refund btc_pending hash f l (is_ok (snd failed_update)) ms).
Proof.
  split; [vm_compute; reflexivity|].
  exact (pending_payment_money "alice" btc_pending _ _ (run_exec failed_env _)).
Defined.

Lemma finished_payment_settled_witness :
  exists ms, money_trace (fst (run failed_env (updatePendingPayment "alice" btc_pending))) =
      Settled "h1" :: ms /\
    ms = [Reverted (ltx_journalId btc_pending) "h1"].
Proof.
  destruct (finished_payment_settled failed_env "alice" btc_pending "h1" "pk"
    (mkPaymentLookup PaymentFailed None) 9900 btc_flow) as (ms & Hms & Hr).
  - intros X c. by destruct c.
  - vm_compute. reflexivity.
  - vm_compute. reflexivity.
  - done.
  - reflexivity.
  - done.
  - reflexivity.
  - vm_compute. reflexivity.
  - reflexivity.
  - exists ms. split; [exact Hms|by apply Hr].
Defined.

Lemma flow_rebuilt_from_ledger_witness : exists t createdAt, In t btc_txs /\
  PaymentFlowFromLedgerTransaction t "a1" = Ok (rebuilt btc_flow "h1" "a1" createdAt).
Proof.
  destruct (flow_rebuilt_from_ledger "coffee" btc_flow "h1" "pk" "a1" (num 3) (num 227) "USD" false
    sample_state (snd btc_sent) btc_sent_journal btc_txs) as (t & at_ & Hin & _ & _ & Hf & _).
  - by split.
  - done.
  - vm_compute. reflexivity.
  - vm_compute. reflexivity.
  - vm_compute. reflexivity.
  - exists t, at_. split; [exact Hin|exact Hf].
Defined.

End PendingSpec.
