(* ===== verification/NodeSpec.v ===== *)
(** * The bank with its lightning node

    The handlers of payments and invoices, with the calls to the node made by the node
    service of [lib/services/lnd].  What the handlers do to the money is then justified by
    what the node itself answered: a refund by a failed payment, the end of a payment by an
    answer that came in time, a credit by an invoice that the node settled. *)

From S2P Require Import Prelude JsNum Errors Money Ledger PaymentFlow Regex Validation Accounts TxMetadata Facade LedgerService LedgerWrites RateLimit Programs Effects Persistence Workers Payments PaymentsSpec Protocols Invoices Prices Lnd InvoicesSpec PendingPayments PendingPaymentsSpec.
#[local] Open Scope string_scope.
#[local] Open Scope list_scope.

(** ** What the node says of a payment *)

Abbreviation node_event := (happening lcall).

(** The height of the chain and the closed channels, as they were read. *)
Definition height_read (lnd : string) (height : number) (tr : list node_event) : Prop :=
  Ev (LocalCache (LocalGet CacheKeys.BlockHeight)) (Done (Some (CacheNumber height))) ∈ tr \/
  exists i, Ev (GetWalletInfo lnd) (Resolved i) ∈ tr /\ wi_current_block_height i = height.

Definition closed_read (lnd : string) (ids : list string) (tr : list node_event) : Prop :=
  Ev (LocalCache (LocalGet CacheKeys.ClosedChannels)) (Done (Some (CacheChannels ids))) ∈ tr \/
  exists l, Ev (GetClosedChannels lnd) (Resolved l) ∈ tr /\ List.map cc_id l = ids.

(** The payment is stuck: its time is over and the first channel of every path is closed. *)
Definition stuck (lnd : string) (g : GetPaymentResult) (tr : list node_event) : Prop :=
  exists pending timeout height ids,
    gp_pending g = Some pending /\ payment_timeout g = Some timeout /\
    height_read lnd height tr /\ num_ltb timeout height = true /\ closed_read lnd ids tr /\
    Forall (fun path => exists first rest, path = first :: rest /\ first ∈ ids) (rpp_paths pending).

(** The answers of the node that give a payment its status. *)
Definition node_says (hash : string) (s : PaymentStatus) (tr : list node_event) : Prop :=
  exists lnd g, Ev (GetPayment lnd hash) (Resolved g) ∈ tr /\
    match s with
    | PaymentSettled => gp_is_confirmed g = true
    | PaymentFailed => gp_is_confirmed g = false /\ (gp_is_failed g = true \/ stuck lnd g tr)
    | PaymentPending => gp_is_confirmed g = false /\ gp_is_failed g = false
    end.

Lemma all_first_closed_spec ids paths : all_first_closed ids paths = Some true ->
  Forall (fun path => exists first rest, path = first :: rest /\ first ∈ ids) paths.
Proof.
  induction paths as [|[|first rest] paths IH]; simpl; [constructor|done|].
  destruct (all_first_closed ids paths) as [b|]; [|done]. intros [= Hb]. bool_prop.
  destruct b; [|done]. constructor; [|by apply IH]. exists first, rest. split; [done|].
  match goal with H : existsb _ _ = true |- _ => apply existsb_exists in H as (x & Hx & Heq) end.
  apply String.eqb_eq in Heq as ->. by apply list_elem_of_In.
Qed.

(** Executions, one step at a time. *)
Lemma tried_inv {A B} (c : lcall (reply A)) handle (k : A -> lprog (result B)) tr r :
  exec (tried c handle k) tr r ->
  (exists e, tr = [Ev c (Refused e)] /\ r = handle e) \/
  (exists a tr', tr = Ev c (Resolved a) :: tr' /\ exec (k a) tr' r).
Proof.
  unfold tried. simpl. intros He. apply exec_inv in He as (x & tr' & -> & He).
  destruct x as [a|e]; [right; eauto|left]. apply exec_inv in He as [-> ->]. eauto.
Qed.

Lemma await_node_inv {A B} (f : list LndNode -> result A) (k : A -> lprog (result B)) tr b :
  exec (rpbind (from_nodes f) k) tr (Ok b) ->
  exists params a tr', tr = Ev NodeParams params :: tr' /\ f params = Ok a /\ exec (k a) tr' (Ok b).
Proof.
  unfold rpbind, from_nodes. simpl. intros He. apply exec_inv in He as (params & tr' & -> & He).
  destruct (f params) as [a|e|e] eqn:Hf; [eauto 10| |]; by apply exec_inv in He as [_ He].
Qed.

(** A value that is kept, or got. *)
Lemma kept_inv {A} key ttl (c : lcall (reply A)) (f : A -> CacheValue) tr v :
  exec (getOrSet_with Resolved reply_value key ttl (replied c (fun a => Ret (Resolved (f a))))) tr
    (Resolved v) ->
  Ev (LocalCache (LocalGet key)) (Done (Some v)) ∈ tr \/ exists a, Ev c (Resolved a) ∈ tr /\ f a = v.
Proof.
  unfold getOrSet_with, cached, LocalCacheService.local_get, replied. simpl.
  intros He. apply exec_inv in He as (x & tr' & -> & He).
  destruct x as [[w|]|m]; simpl in He.
  { apply exec_inv in He as [-> [= ->]]. left. by left. }
  all: apply exec_inv in He as (a & tr2 & -> & He); destruct a as [a|e]; simpl in He;
    [|by apply exec_inv in He as [_ He]];
    apply exec_inv in He as (y & tr3 & -> & He); destruct y as [[]|m']; simpl in He;
    apply exec_inv in He as [-> [= ->]]; right; exists a; (split; [right; by left|done]).
Qed.

Lemma height_inv lnd tr h : exec (current_block_height lnd) tr (Resolved h) -> height_read lnd h tr.
Proof.
  unfold current_block_height. intros He. apply exec_bind_inv in He as (tr1 & v & tr2 & -> & H1 & H2).
  destruct v as [[n|l|l]|e]; apply exec_inv in H2 as [-> [= ->]]. rewrite app_nil_r.
  apply kept_inv in H1 as [H|(i & H & [= Hi])]; [by left|right; eauto].
Qed.

Lemma closed_inv lnd tr ids : exec (closed_channels lnd) tr (Resolved ids) -> closed_read lnd ids tr.
Proof.
  unfold closed_channels. intros He. apply exec_bind_inv in He as (tr1 & v & tr2 & -> & H1 & H2).
  destruct v as [[n|l|l]|e]; apply exec_inv in H2 as [-> [= ->]]. rewrite app_nil_r.
  apply kept_inv in H1 as [H|(i & H & [= Hi])]; [by left|right; eauto].
Qed.

Lemma height_read_more lnd h tr tr' :
  height_read lnd h tr -> (forall ev, ev ∈ tr -> ev ∈ tr') -> height_read lnd h tr'.
Proof. intros [H|(i & H & Hi)] Hs; [left|right; exists i]; auto. Qed.
Lemma closed_read_more lnd ids tr tr' :
  closed_read lnd ids tr -> (forall ev, ev ∈ tr -> ev ∈ tr') -> closed_read lnd ids tr'.
Proof. intros [H|(i & H & Hi)] Hs; [left|right; exists i]; auto. Qed.

Lemma node_says_more hash s tr tr' :
  node_says hash s tr -> (forall ev, ev ∈ tr -> ev ∈ tr') -> node_says hash s tr'.
Proof.
  intros (lnd & g & Hin & Hg) Hs. exists lnd, g. split; [auto|]. destruct s; [done| |done].
  destruct Hg as [Hc [Hf|(p & t & h & ids & Hp & Ht & Hh & Hlt & Hc' & Hall)]]; split; [done|auto|done|].
  right. exists p, t, h, ids. split_and!; [done..|by eapply height_read_more|done|by eapply closed_read_more|done].
Qed.

(** The status that is resolved is one that the node justifies. *)
Lemma resolve_inv lnd g tr s : exec (resolvePaymentStatus lnd g) tr (Resolved s) ->
  match s with
  | PaymentSettled => gp_is_confirmed g = true
  | PaymentFailed => gp_is_confirmed g = false /\ (gp_is_failed g = true \/ stuck lnd g tr)
  | PaymentPending => gp_is_confirmed g = false /\ gp_is_failed g = false
  end.
Proof.
  unfold resolvePaymentStatus. intros He.
  destruct (gp_is_confirmed g) eqn:Hc; [by apply exec_inv in He as [_ [= ->]]|].
  destruct (gp_is_failed g) eqn:Hf; [apply exec_inv in He as [_ [= ->]]; auto|].
  apply exec_bind_inv in He as (tr1 & [h|e] & tr2 & -> & H1 & He); [|by apply exec_inv in He as [_ He]].
  destruct (payment_timeout g) as [t|] eqn:Ht; [|by apply exec_inv in He as [_ [= ->]]].
  destruct (gp_pending g) as [p|] eqn:Hp; [|by apply exec_inv in He as [_ [= ->]]].
  destruct (num_ltb t h) eqn:Hlt; [|by apply exec_inv in He as [_ [= ->]]].
  apply exec_bind_inv in He as (tr3 & [ids|e] & tr4 & -> & H2 & He); [|by apply exec_inv in He as [_ He]].
  destruct (all_first_closed ids (rpp_paths p)) as [[]|] eqn:Ha; apply exec_inv in He as [-> He]; simplify_eq; [|done].
  split; [done|]. right. exists p, t, h, ids. split_and!; [done..| |done| |by apply all_first_closed_spec].
  - eapply height_read_more; [by apply height_inv|]. set_solver.
  - eapply closed_read_more; [by apply closed_inv|]. set_solver.
Qed.

Lemma looked_up_status g s l : looked_up g s = Ok l -> lookup_status l = s.
Proof.
  unfold looked_up. destruct (gp_payment g); [by intros [= <-]|]. destruct (gp_pending g); [by intros [= <-]|].
  destruct (decide _) as [->|]; [|done]. by intros [= <-].
Qed.

Lemma lookup_one_inv pubkey hash tr l : exec (lookupPaymentByPubkeyAndHash pubkey hash) tr (Ok l) ->
  node_says hash (lookup_status l) tr.
Proof.
  unfold lookupPaymentByPubkeyAndHash. intros He.
  apply await_node_inv in He as (params & lnd & tr' & -> & _ & He).
  apply tried_inv in He as [(e & _ & He)|(g & tr2 & -> & He)]; [done|].
  apply exec_bind_inv in He as (tr3 & [s|e] & tr4 & -> & H1 & He); apply exec_inv in He as [-> He]; [|done].
  symmetry in He. apply looked_up_status in He as ->. apply resolve_inv in H1.
  exists lnd, g. split; [by right; left|]. destruct s; [done| |done].
  destruct H1 as [Hc [Hf|(p & t & h & ids & Hp & Ht & Hh & Hlt & Hcl & Hall)]]; split; [done|auto|done|].
  right. exists p, t, h, ids. rewrite app_nil_r.
  split_and!; [done..|eapply height_read_more; [done|]; set_solver|done
              |eapply closed_read_more; [done|]; set_solver|done].
Qed.

Lemma lookup_inv pubkey hash tr l : exec (lnd_lookupPayment pubkey hash) tr (Ok l) ->
  node_says hash (lookup_status l) tr.
Proof.
  assert (Heach : forall pubkeys tr, exec (lookup_each pubkeys hash) tr (Ok l) ->
    node_says hash (lookup_status l) tr).
  { induction pubkeys as [|k ks IH]; intros tr' He; cbn [lookup_each] in He; [by apply exec_inv in He as [_ He]|].
    apply exec_bind_inv in He as (tr1 & [a|e|e] & tr2 & -> & H1 & He).
    - apply exec_inv in He as [-> [= ->]]. eapply node_says_more; [by eapply lookup_one_inv|]. set_solver.
    - eapply node_says_more; [by apply IH|]. set_solver.
    - by apply exec_inv in He as [_ He]. }
  unfold lnd_lookupPayment. destruct pubkey as [[|c k]|]; [|apply lookup_one_inv|];
    intros He; apply exec_bind_inv in He as (tr1 & ks & tr2 & -> & _ & He);
    (eapply node_says_more; [by eapply Heach|set_solver]).
Qed.

(** ** The node service as the node of the handlers *)

Inductive ncall : Type -> Type :=
| App {X} (c : call X) : ncall X
| Node {X} (c : lcall X) : ncall X.

Abbreviation nprog := (program ncall).
Abbreviation bank_event := (happening ncall).

Definition at_node {A} (p : lprog A) : nprog A := interp (fun X c => do_call (Node c)) p.

Definition rmap {A B} (f : A -> B) (p : lprog (result A)) : lprog (result B) :=
  await a <- p ;; Ret (Ok (f a)).

(** What the handlers read of the answers of the service. *)
Definition as_lookup (l : PaymentLookup) : LnPaymentLookup :=
  mkPaymentLookup (lookup_status l)
    (match l with
     | Looked d => match pd_confirmedDetails d with
                   | Some c => Some (mkPayResult (cd_roundedUpFee c) (cd_revealedPreImage c))
                   | None => None
                   end
     | LookedFailed => None
     end).
Definition as_paid (p : LndPayResult) : PayInvoiceResult :=
  mkPayResult (lpr_roundedUpFee p) (lpr_revealedPreImage p).

(** The service is made with the node [self]; [decoded] is the whole invoice, of which the
    handlers read some fields.  A route without a public key has no node. *)
Section Service.
Context (self : LndNode) (decoded : LnInvoice -> DecodedInvoice).

Definition node_service (X : Type) (c : call X) : nprog X :=
  match c in call X return nprog X with
  | LndPayViaRoutes hash rawRoute (Some pubkey) =>
      at_node (rmap as_paid (payInvoiceViaRoutes hash rawRoute pubkey))
  | LndPayViaRoutes hash rawRoute None =>
      Ret (Er (new_msg NoValidNodeForPubkeyError "lnd with pubkey:undefined is offline"))
  | LndPayViaPaymentDetails invoice btcPaymentAmount maxFeeAmount =>
      at_node (rmap as_paid (payInvoiceViaPaymentDetails self (decoded invoice) btcPaymentAmount maxFeeAmount))
  | LndCancelInvoice pubkey hash => at_node (rmap (fun _ => tt) (lnd_cancelInvoice pubkey hash))
  | LndLookupInvoice pubkey hash => at_node (lnd_lookupInvoice pubkey hash)
  | LndSettleInvoice pubkey secret => at_node (rmap (fun _ => tt) (lnd_settleInvoice pubkey secret))
  | LndLookupPayment pubkey hash => at_node (rmap as_lookup (lnd_lookupPayment (Some pubkey) hash))
  | c => do_call (App c)
  end.

(** The calls of the handlers, and those of the node, in a trace of the bank. *)
Definition app_of (ev : bank_event) : list event :=
  match ev with
  | @Ev _ X c x =>
      match c in ncall X return X -> list event with
      | App c => fun x => [Ev c x]
      | Node _ => fun _ => []
      end x
  end.
Definition node_of (ev : bank_event) : list node_event :=
  match ev with
  | @Ev _ X c x =>
      match c in ncall X return X -> list node_event with
      | App _ => fun _ => []
      | Node c => fun x => [Ev c x]
      end x
  end.
Definition apps (tr : list bank_event) : list event := tr ≫= app_of.
Definition nodes (tr : list bank_event) : list node_event := tr ≫= node_of.

Lemma at_node_inv {A} (p : lprog A) tr a : exec (at_node p) tr a -> exec p (nodes tr) a /\ apps tr = [].
Proof.
  revert tr. induction p as [b|X c k IH]; intros tr He; simpl in He.
  - apply exec_inv in He as [-> ->]. split; [constructor|done].
  - apply exec_inv in He as (x & tr' & -> & He). apply IH in He as [He Ha].
    split; [by constructor|done].
Qed.

Lemma nodes_more tr tr' : (forall ev, ev ∈ tr -> ev ∈ tr') -> forall ev, ev ∈ nodes tr -> ev ∈ nodes tr'.
Proof.
  intros Hs ev. unfold nodes. rewrite !list_elem_of_bind. intros (e & H1 & H2). exists e. auto.
Qed.

Lemma rmap_inv {A B} (f : A -> B) (p : lprog (result A)) tr b :
  exec (rmap f p) tr (Ok b) -> exists a, exec p tr (Ok a) /\ b = f a.
Proof.
  unfold rmap, rpbind. intros He. apply exec_bind_inv in He as (tr1 & [a|e|e] & tr2 & -> & H1 & He);
    apply exec_inv in He as [-> He]; simplify_eq. rewrite app_nil_r. eauto.
Qed.

(** The money that the handlers record is the same; the payments are those of the node. *)
Definition recorded_money (m : money) : bool := match m with PayAnswered _ => false | _ => true end.

Lemma service_money {X} (c : call X) sub x : exec (node_service X c) sub x ->
  money_trace (apps sub) = List.filter recorded_money (money_of (Ev c x)).
Proof.
  intros He. unfold money_trace.
  destruct c; simpl in He;
    first [ apply at_node_inv in He as [_ ->]; reflexivity
          | destruct pubkey as [pubkey|];
              [apply at_node_inv in He as [_ ->]; reflexivity|apply exec_inv in He as [-> ->]; reflexivity]
          | apply exec_inv in He as (y & tr' & -> & He); apply exec_inv in He as [-> ->]; simpl;
            rewrite ?app_nil_r; try reflexivity; by destruct y ].
Qed.

Lemma unfolds_money tr0 tr : unfolds node_service tr0 tr ->
  money_trace (apps tr) = List.filter recorded_money (money_trace tr0).
Proof.
  induction 1 as [|X c x sub tr0 tr He Hu IH]; [done|].
  unfold apps, money_trace in *. rewrite !bind_app, bind_cons, List.filter_app, IH. f_equal.
  by apply service_money.
Qed.

(** *** Payments of the node *)

Abbreviation pay_answer := (raced (number * option string)).

Definition answer_of (ev : node_event) : list pay_answer :=
  match ev with
  | @Ev _ X c x =>
      match c in lcall X return X -> list pay_answer with
      | PayViaRoutes _ _ _ => fun x => [x]
      | PayViaPaymentDetails _ _ => fun x => [x]
      | _ => fun _ => []
      end x
  end.
Definition pay_answers (tr : list node_event) : list pay_answer := tr ≫= answer_of.

Definition no_pay (X : Type) (c : lcall X) : bool :=
  match c with PayViaRoutes _ _ _ | PayViaPaymentDetails _ _ => false | _ => true end.

Lemma no_pay_answers {A} (p : lprog A) tr a : calls_only no_pay p -> exec p tr a -> pay_answers tr = [].
Proof.
  intros Hp He. pose proof (exec_calls _ _ _ _ Hp He) as Hf. clear Hp He. unfold pay_answers.
  induction Hf as [|[X c x] tr Hc _ IH]; [done|]. rewrite bind_cons, IH, app_nil_r. by destruct c.
Qed.

Lemma cancel_no_pay pubkey h : calls_only no_pay (lnd_cancelInvoice pubkey h).
Proof. unfold lnd_cancelInvoice, rpbind, from_nodes, tried. calls_only_tac. Qed.
Lemma settle_no_pay pubkey s : calls_only no_pay (lnd_settleInvoice pubkey s).
Proof. unfold lnd_settleInvoice, rpbind, from_nodes, tried. calls_only_tac. Qed.

Lemma reads_no_pay {A} (p : lprog A) : calls_only reads p -> calls_only no_pay p.
Proof. apply calls_only_mono. intros X c. by destruct c. Qed.

(** The answer of the node and what the handler is told. *)
Definition told (r : result PayInvoiceResult) (a : list pay_answer) : Prop :=
  (a = [] /\ exists e, r = Er e /\ error_class e = NoValidNodeForPubkeyError) \/
  exists x, a = [x] /\
    match race x with
    | Resolved (fee, secret) => r = Ok (mkPayResult fee secret)
    | Refused e => exists h, r = Er (pay_error h e)
    end.

Lemma told_result h k (x : pay_answer) :
  told (match pay_result h k x with Ok a => Ok (as_paid a) | Er e => Er e | Throw e => Throw e end) [x].
Proof.
  right. exists x. split; [done|]. unfold pay_result. destruct (race x) as [[fee secret]|e]; [done|]. by exists h.
Qed.

Lemma via_routes_told h route k tr r :
  exec (rmap as_paid (payInvoiceViaRoutes h route k)) tr r -> told r (pay_answers tr).
Proof.
  unfold rmap, payInvoiceViaRoutes, rpbind, from_nodes. simpl. intros He.
  apply exec_inv in He as (params & tr' & -> & He).
  destruct (getLndFromPubkey k params) as [lnd|e|e] eqn:Hn; simpl in He.
  - apply exec_inv in He as (x & tr2 & -> & He). pose proof (told_result h k x) as Ht.
    destruct (pay_result h k x); apply exec_inv in He as [-> ->]; done.
  - apply exec_inv in He as [-> ->]. left. split; [done|]. exists e. split; [done|].
    unfold getLndFromPubkey in Hn. destruct (List.find _ _); by simplify_eq.
  - unfold getLndFromPubkey in Hn. by destruct (List.find _ _).
Qed.

Lemma via_details_told d a m tr r :
  exec (rmap as_paid (payInvoiceViaPaymentDetails self d a m)) tr r -> told r (pay_answers tr).
Proof.
  unfold rmap, payInvoiceViaPaymentDetails, rpbind. simpl. intros He.
  apply exec_inv in He as (x & tr2 & -> & He).
  pose proof (told_result (di_paymentHash d) (nd_pubkey self) x) as Ht.
  destruct (pay_result _ _ x); apply exec_inv in He as [-> ->]; done.
Qed.

(** The payments of a trace and the answers of the node, in order. *)
Inductive paid : list money -> list pay_answer -> Prop :=
| paid_nil : paid [] []
| paid_other m ms a : recorded_money m = true -> paid ms a -> paid (m :: ms) a
| paid_node r ms a1 a2 : told r a1 -> paid ms a2 -> paid (PayAnswered r :: ms) (a1 ++ a2).

Lemma nodes_app tr tr' : nodes (tr ++ tr') = nodes tr ++ nodes tr'.
Proof. apply bind_app. Qed.
Lemma pay_answers_app tr tr' : pay_answers (tr ++ tr') = pay_answers tr ++ pay_answers tr'.
Proof. apply bind_app. Qed.

Lemma rmap_no_pay {A B} (f : A -> B) p : calls_only no_pay p -> calls_only no_pay (rmap f p).
Proof. intros Hp. unfold rmap, rpbind. apply calls_only_bind; [done|]. by intros [a|e|e]. Qed.

#[local] Arguments lnd_lookupPayment : simpl never.

(** A call of the service makes no payment, or is a payment. *)
Lemma service_pays {X} (c : call X) sub x : exec (node_service X c) sub x ->
  (pay_answers (nodes sub) = [] /\ forallb recorded_money (money_of (Ev c x)) = true) \/
  (exists r, money_of (Ev c x) = [PayAnswered r] /\ told r (pay_answers (nodes sub))).
Proof.
  intros He. destruct c; simpl in He;
    first
      [ apply at_node_inv in He as [He _]; first
          [ left; split; [|reflexivity]; revert He; apply no_pay_answers; first
              [ apply rmap_no_pay; first [apply cancel_no_pay | apply settle_no_pay | apply reads_no_pay, lookup_reads]
              | apply reads_no_pay, lookupInvoice_reads ]
          | right; eexists; split; [reflexivity|]; by apply via_details_told in He ]
      | destruct pubkey as [pubkey|];
          [ apply at_node_inv in He as [He _]; right; eexists; split; [reflexivity|];
            by apply via_routes_told in He
          | apply exec_inv in He as [-> ->]; right; eexists; split; [reflexivity|]; left; by eauto ]
      | apply exec_inv in He as (y & tr' & -> & He); apply exec_inv in He as [-> ->]; left;
        split; [reflexivity|]; try reflexivity; by destruct y ].
Qed.

Lemma unfolds_pays tr0 tr : unfolds node_service tr0 tr ->
  paid (money_trace tr0) (pay_answers (nodes tr)).
Proof.
  induction 1 as [|X c x sub tr0 tr He Hu IH]; [constructor|].
  rewrite money_trace_cons, nodes_app, pay_answers_app.
  apply service_pays in He as [[-> Hm]|(r & -> & Ht)]; [|by constructor].
  rewrite app_nil_l. induction (money_of (Ev c x)) as [|m ms IHm]; [done|]. simpl in *. bool_prop.
  constructor; auto.
Qed.

(** ** Properties *)

(** A call that the service does not make is in the trace as it is. *)
Lemma app_kept {X} (c : call X) x tr0 tr :
  node_service X c = do_call (App c) -> unfolds node_service tr0 tr -> Ev c x ∈ tr0 -> Ev c x ∈ apps tr.
Proof.
  intros Hc Hu Hin. destruct (unfolds_in _ _ _ _ Hu Hin) as (sub & Hs & Hsub). simpl in Hs.
  rewrite Hc in Hs. apply exec_inv in Hs as (y & tr' & -> & Hs). apply exec_inv in Hs as [-> <-].
  unfold apps. apply list_elem_of_bind. exists (Ev (App c) x). split; [by left|]. apply Hsub. by left.
Qed.

Lemma flow_known_kept walletId hash p f tr0 tr : unfolds node_service tr0 tr ->
  PendingSpec.flow_known walletId hash p tr0 f -> PendingSpec.flow_known walletId hash p (apps tr) f.
Proof.
  intros Hu [(z & Hz & Hin)|(ts & t & a & Hin & Ht)]; [left|right].
  - exists z. split; [done|]. by eapply app_kept.
  - exists ts, t, a. split; [by eapply app_kept|done].
Qed.

(** The money of an update is recorded money. *)
Lemma refund_recorded p hash f l b ms :
  PendingSpec.refund p hash f l b ms -> List.filter recorded_money ms = ms.
Proof.
  unfold PendingSpec.refund. destruct (pl_status l); [| |done].
  - by intros [->|(_ & back & _ & ->)].
  - by intros [[_ ->]|[[_ ->]|(_ & w & _ & ->)]].
Qed.

(** C5. In every execution of updatePendingPayment whose calls to the node are made by
    the node service, whatever the nodes and the other services answer, either no
    money is touched, or the payment hash is settled once and what is given back
    fits a status that the answers of a node support: a success only if the node
    confirmed the payment, a failure only if the node did not confirm it and either
    called it failed or the timeout of the payment is below the height of the chain
    and the first channel of every path of it is closed. *)
Theorem refund_justified (walletId : string) (p : LedgerTx) (tr : list bank_event) (r : result unit)
    (He : exec (interp node_service (updatePendingPayment walletId p)) tr r) :
  money_trace (apps tr) = [] \/
  exists hash f l ms, ltx_paymentHash p = Some hash /\
    PendingSpec.flow_known walletId hash p (apps tr) f /\
    money_trace (apps tr) = Settled hash :: ms /\
    PendingSpec.refund p hash f l (is_ok r) ms /\
    node_says hash (pl_status l) (nodes tr).
Proof.
  apply exec_interp in He as (tr0 & He & Hu). rewrite (unfolds_money _ _ Hu).
  destruct (follows_exec _ _ _ _ _ _ (PendingSpec.pending_update_follows walletId p) He) as (ph & Hp & Ho).
  apply PendingSpec.path_phase in Hp as ->. unfold PendingSpec.outcome in Ho. simpl in Ho.
  destruct Ho as [->|(h & f & l & ms & Hh & Hl & Hf & -> & Hr)]; [by left|right].
  exists h, f, l, ms. split_and!; [done| |by simpl; rewrite (refund_recorded _ _ _ _ _ _ Hr)|done|].
  - eapply flow_known_kept; [done|]. eapply PendingSpec.flow_known_more; [exact Hf|].
    intros ev. apply PendingSpec.tells_flow_in.
  - apply PendingSpec.seen_in in Hl as (k & Hin).
    destruct (unfolds_in _ _ _ _ Hu Hin) as (sub & Hs & Hsub). simpl in Hs.
    apply at_node_inv in Hs as [Hs _]. apply rmap_inv in Hs as (l0 & Hs & ->).
    apply lookup_inv in Hs. eapply node_says_more; [exact Hs|]. by apply nodes_more.
Qed.

(** The answers of the node behind what the handler was told. *)
Lemma paid_none ms a : forallb recorded_money ms = true -> paid ms a -> a = [].
Proof. intros Hf. induction 1; simpl in Hf; bool_prop; auto. done. Qed.

Lemma paid_one m r rest a : recorded_money m = true -> forallb recorded_money rest = true ->
  paid (m :: PayAnswered r :: rest) a -> told r a.
Proof.
  intros Hm Hf Hp. inversion Hp as [|? ? ? _ Hp1|]; subst; [|done]. clear Hp.
  inversion Hp1 as [|? ? ? Hd _|? ? a1 a2 Ht Hp2]; subst; [done|].
  by rewrite (paid_none _ _ Hf Hp2), app_nil_r.
Qed.

Lemma told_late r a : told r a -> TimedOut ∈ a -> r = Er (new LnPaymentPendingError).
Proof.
  intros [[-> _]|(x & -> & Hx)]; [by intros ?%elem_of_nil|]. rewrite list_elem_of_singleton.
  intros <-. by destruct Hx as [h ->].
Qed.
Lemma told_error e a : told (Er e) a -> is_a e LnPaymentPendingError = false ->
  a = [] \/ exists e', a = [InTime (Refused e')].
Proof.
  intros [[-> _]|([rp|] & -> & Hx)] Hp; [by left| |].
  - simpl in Hx. destruct rp as [[fee secret]|e']; [done|]. right. by exists e'.
  - simpl in Hx. destruct Hx as [h [= ->]]. done.
Qed.
Lemma told_ok res a : told (Ok res) a -> exists fee secret, a = [InTime (Resolved (fee, secret))].
Proof.
  intros [[_ (e & [=] & _)]|([[[fee secret]|e]|] & -> & Hx)]; [eauto|..]; by destruct Hx as [h Hx].
Qed.

(** In every phase of a payment, the answers fit what is recorded. *)
Lemma phase_answers f invoice ph a :
  LnProtocol.answer_known ph -> paid (LnProtocol.done_in f invoice ph) a ->
  (TimedOut ∈ a -> exists jid, List.filter recorded_money (LnProtocol.done_in f invoice ph) =
                               [Debited jid (LnProtocol.sender f) (total_of f)]) /\
  (forall jid h, Reverted jid h ∈ List.filter recorded_money (LnProtocol.done_in f invoice ph) ->
     a = [] \/ exists e, a = [InTime (Refused e)]).
Proof.
  induction ph; simpl; try done.
  1-7: intros _ Hp; apply paid_none in Hp as ->; [|done]; split; [by intros ?%elem_of_nil|by left].
  - intros _ _. split; [eauto|]. intros j h Hin. apply list_elem_of_singleton in Hin. done.
  - intros Hk Hp. apply paid_one in Hp; [|done..]. split.
    + intros Hl. by rewrite (told_late _ _ Hp Hl) in Hk.
    + intros j h Hin. rewrite !elem_of_cons in Hin. destruct Hin as [|[|Hin]]; [done..|].
      by apply elem_of_nil in Hin.
  - intros Hk Hp. apply paid_one in Hp; [|done..]. split.
    + intros Hl. apply (told_late _ _ Hp) in Hl as [= ->]. done.
    + intros j h _. by apply told_error in Hp.
  - intros _ Hp. apply paid_one in Hp; [|done..]. split.
    + intros Hl. by apply (told_late _ _ Hp) in Hl.
    + intros j h Hin. rewrite !elem_of_cons in Hin. destruct Hin as [|[|[|Hin]]]; [done..|].
      by apply elem_of_nil in Hin.
Qed.

(** C6. In every execution of executePaymentViaLn whose calls to the node are made by
    the node service: when the time allowed for the answer of the node is over, the
    only thing that happened to the money is the debit of the sender, amount and
    fee; a debit is taken back only if the node was not asked to pay or refused the
    payment; and the sender is told Success only if the node answered in time that
    it paid. *)
Theorem late_answer_pending cfg invoice f wallet tr r
    (He : exec (interp node_service (executePaymentViaLn cfg invoice f wallet)) tr r) :
  let recorded := money_trace (apps tr) in
  let answers := pay_answers (nodes tr) in
  (TimedOut ∈ answers -> exists jid, recorded = [Debited jid (LnProtocol.sender f) (total_of f)]) /\
  (forall jid h, Reverted jid h ∈ recorded -> answers = [] \/ exists e, answers = [InTime (Refused e)]) /\
  (r = Ok Success -> exists fee secret, answers = [InTime (Resolved (fee, secret))]).
Proof.
  apply exec_interp in He as (tr0 & He & Hu). pose proof (unfolds_pays _ _ Hu) as Hpaid.
  rewrite (unfolds_money _ _ Hu). intros recorded answers. subst recorded. fold answers in Hpaid.
  destruct (follows_exec _ _ _ _ _ _ (LnProtocol.ln_follows cfg f invoice wallet) He) as (ph & Hp & Ho).
  pose proof (LnProtocol.ln_path_money _ _ _ _ _ _ _ Hp) as Hm.
  pose proof (LnProtocol.ln_path_known _ _ _ _ _ _ _ Hp I) as Hk.
  pose proof (LnProtocol.ln_money _ _ _ _ _ _ _ Hp Ho) as Hr. simpl in Hm.
  assert (Hs : r = Ok Success -> exists fee secret, answers = [InTime (Resolved (fee, secret))]).
  { intros ->. destruct Hr as (jid & res & [Ht|(amt & _ & Ht)]); rewrite Ht in Hpaid;
      (apply paid_one in Hpaid; [|done..]); by eapply told_ok. }
  rewrite <- Hm in Hpaid |- *.
  destruct (phase_answers f invoice ph answers Hk Hpaid) as [H1 H2]. auto.
Qed.

(** The credit of an invoice and the phase that makes it. *)
Lemma credited_act w amt tr : Credited w amt ∈ money_trace tr ->
  exists h, InvoiceProtocol.ACredited w amt h ∈ (tr ≫= InvoiceProtocol.acts_of).
Proof.
  unfold money_trace. setoid_rewrite list_elem_of_bind. intros ([X c x] & Hin & Htr).
  enough (exists h, InvoiceProtocol.ACredited w amt h ∈ InvoiceProtocol.acts_of (Ev c x)) as [h Hh]
    by (exists h, (Ev c x); done).
  clear Htr. destruct c; simpl in *; unfold on_ok in *;
    try (apply elem_of_nil in Hin; done); repeat case_match; try (apply elem_of_nil in Hin; done);
    apply list_elem_of_singleton in Hin; simplify_eq; eexists; by left.
Qed.

(** Membership in a list of constructors. *)
Ltac members H :=
  unfold InvoiceProtocol.claim in H; simpl in H;
  rewrite ?elem_of_app, ?elem_of_cons, ?elem_of_nil in H; intuition congruence.

Lemma credited_phase wi ph w amt h : InvoiceProtocol.ACredited w amt h ∈ InvoiceProtocol.log wi ph ->
  exists l rc, InvoiceProtocol.base ph = InvoiceProtocol.ICredited l rc /\
    w = wi_recipient wi /\ amt = both_of rc.
Proof.
  induction ph as [|l|l|l|l|l rc|c d|p IH|p IH|p IH]; simpl; intros Hin.
  1-2: by apply elem_of_nil in Hin.
  1-3: exfalso; destruct (il_isSettled l) eqn:Hset; unfold InvoiceProtocol.claim in Hin; rewrite ?Hset in Hin; members Hin.
  - exists l, rc. split; [done|]. destruct (il_isSettled l) eqn:Hset; unfold InvoiceProtocol.claim in Hin; rewrite ?Hset in Hin; members Hin.
  - exfalso. destruct c, d; members Hin.
  - auto.
  - apply elem_of_app in Hin as [Hin|Hin]; [auto|members Hin].
  - apply elem_of_app in Hin as [Hin|Hin]; [auto|members Hin].
Qed.

Lemma grounds_base wi ph tr : InvoiceProtocol.grounds wi ph tr ->
  InvoiceProtocol.grounds wi (InvoiceProtocol.base ph) tr.
Proof. by induction ph. Qed.

Lemma lookupInvoice_inv k h tr l : exec (lnd_lookupInvoice k h) tr (Ok l) ->
  exists lnd raw, Ev (GetInvoice lnd h) (Resolved raw) ∈ tr /\ l = translateLnInvoiceLookup raw.
Proof.
  unfold lnd_lookupInvoice. intros He. apply await_node_inv in He as (params & lnd & tr' & -> & _ & He).
  apply tried_inv in He as [(e & _ & He)|(raw & tr2 & -> & He)]; [done|].
  apply exec_inv in He as [-> [= ->]]. exists lnd, raw. split; [right; by left|done].
Qed.

Lemma settleInvoice_inv k secret tr b : exec (lnd_settleInvoice k secret) tr (Ok b) ->
  exists lnd, Ev (SettleHodlInvoice lnd secret) (Resolved tt) ∈ tr.
Proof.
  unfold lnd_settleInvoice. intros He. apply await_node_inv in He as (params & lnd & tr' & -> & _ & He).
  apply tried_inv in He as [(e & _ & He)|([] & tr2 & -> & He)]; [done|]. exists lnd. right. by left.
Qed.

(** C7. In every execution of updatePendingInvoice whose calls to the node are made by
    the node service, a credit is to the wallet of the invoice, a node described the
    invoice of its hash as confirmed, or as held and then accepted the secret of the
    invoice, and the amounts credited are those that follow from the description
    that the node gave. *)
Theorem credit_justified (cfg : Settings) (wi : WalletInvoice) (tr : list bank_event) (r : result bool)
    (w : WalletDescriptor) (amt : BothAmounts)
    (He : exec (interp node_service (updatePendingInvoice cfg wi)) tr r)
    (Hc : Credited w amt ∈ money_trace (apps tr)) :
  exists lnd raw rc, w = wi_recipient wi /\ amt = both_of rc /\
    Ev (GetInvoice lnd (wi_paymentHash wi)) (Resolved raw) ∈ nodes tr /\
    (rli_is_confirmed raw = true \/
     rli_is_held raw = true /\
     exists lnd', Ev (SettleHodlInvoice lnd' (wi_secret wi)) (Resolved tt) ∈ nodes tr) /\
    InvoiceProtocol.receives cfg wi (translateLnInvoiceLookup raw) rc.
Proof.
  apply exec_interp in He as (tr0 & He & Hu). rewrite (unfolds_money _ _ Hu), list_elem_of_In, filter_In,
    <- list_elem_of_In in Hc. destruct Hc as [Hc _]. apply credited_act in Hc as [h Hc].
  destruct (follows_exec _ _ _ _ _ _ (InvoiceProtocol.update_follows cfg wi) He) as (ph & Hp & _).
  destruct (InvoiceProtocol.path_log cfg wi _ _ _ Hp I) as [Hs Hlog].
  change (InvoiceProtocol.log wi ph = tr0 ≫= InvoiceProtocol.acts_of) in Hlog. rewrite <- Hlog in Hc.
  pose proof (InvoiceProtocol.path_grounds cfg wi _ _ _ Hp [] I) as Hg. rewrite app_nil_l in Hg.
  apply credited_phase in Hc as (l & rc & Hb & -> & ->).
  apply InvoiceClaims.sound_base in Hs. apply grounds_base in Hg. rewrite Hb in Hs, Hg.
  destruct Hs as [(_ & Hpaid & _) Hrc], Hg as [Hl Hcl].
  destruct (unfolds_in _ _ _ _ Hu Hl) as (sub & Hsub & Hin). apply at_node_inv in Hsub as [Hsub _].
  apply lookupInvoice_inv in Hsub as (lnd & raw & Hraw & ->). exists lnd, raw, rc.
  split_and!; [done..|by eapply nodes_more| |done].
  destruct (rli_is_confirmed raw) eqn:Hconf; [by left|right]. simpl in Hpaid. rewrite Hconf, orb_false_r in Hpaid.
  split; [done|]. destruct Hcl as [Hcl|Hcl]; [simpl in Hcl; congruence|].
  destruct (unfolds_in _ _ _ _ Hu Hcl) as (sub2 & Hs2 & Hin2). apply at_node_inv in Hs2 as [Hs2 _].
  apply rmap_inv in Hs2 as (b & Hs2 & _). apply settleInvoice_inv in Hs2 as (lnd' & Hset).
  exists lnd'. by eapply nodes_more.
Qed.

End Service.

(** ** Witnesses *)

Module NodeExample.

Definition the_node : LndNode := mkNode "127.0.0.1:10009" "pk" [Offchain; Onchain] true "LND1".
Definition whole (i : LnInvoice) : DecodedInvoice :=
  mkDecoded (inv_destination i) (inv_paymentHash i) None (num 0) None None None [].

(** A node that holds every invoice, is past the height at which the payments it is asked
    for end, with their channels closed, and is too slow to pay. *)
Definition slow_node (X : Type) (c : lcall X) : X :=
  match c in lcall X return X with
  | NodeParams => [the_node]
  | SetNodeActive _ _ | StatusEvent _ _ => tt
  | LocalCache c =>
      match c in pcall X return X with
      | LocalGet _ => Done None
      | LocalSet _ _ _ => Done true
      | DealerRpc _ _ _ => RpcFailed "" ""
      | _ => Rejected ""
      end
  | GetInvoice _ id => Resolved (mkRawLnInvoice id false true false (num 1000) "coffee")
  | SettleHodlInvoice _ _ => Resolved tt
  | GetPayment _ id =>
      Resolved (mkGetPayment false false None
        (Some (mkRawPending id 0 None "1000" (num 1) (Some (num 700)) [["600x1x1"; "601x1x1"]])))
  | GetWalletInfo _ => Resolved (mkWalletInfo (num 800) (num 1) (num 1) "pk")
  | GetClosedChannels _ => Resolved [mkClosedChannel "600x1x1" []]
  | ProbeForRoute _ _ => TimedOut
  | PayViaRoutes _ _ _ | PayViaPaymentDetails _ _ => TimedOut
  | AddLndRoutingRevenue _ _ | UpdateLndEscrow _ | AddLndChannelFee _ _ _ => Ok tt
  | RoutingFeeLastEntry => Done None
  | SetRoutingFeeLastEntry _ => Done tt
  | _ => Refused js_exception
  end.

Definition bank_env (app : forall X, call X -> X) (X : Type) (c : ncall X) : X :=
  match c in ncall X return X with App c => app _ c | Node c => slow_node _ c end.

Definition run_bank {A} (app : forall X, call X -> X) (p : prog A) : list bank_event * A :=
  run (bank_env app) (interp (node_service the_node whole) p).

Definition stuck_update := run_bank PendingSpec.failed_env (updatePendingPayment "alice" PendingSpec.btc_pending).

Lemma refund_justified_witness :
  money_trace (apps (fst stuck_update)) =
    [Settled "h1"; Reverted (ltx_journalId PendingSpec.btc_pending) "h1"] /\
  exists hash l, ltx_paymentHash PendingSpec.btc_pending = Some hash /\
    node_says hash (pl_status l) (nodes (fst stuck_update)).
Proof.
  split; [vm_compute; reflexivity|].
  destruct (refund_justified the_node whole "alice" PendingSpec.btc_pending _ _
    (run_exec (bank_env PendingSpec.failed_env) _)) as [Hn|(h & f & l & ms & Hh & _ & _ & _ & Hs)].
  - vm_compute in Hn. discriminate Hn.
  - exists h, l. split; [exact Hh|exact Hs].
Defined.

Definition slow_payment := run_bank PaymentClaims.sample_env
  (executePaymentViaLn PaymentClaims.sample_settings PaymentClaims.sample_invoice PaymentClaims.out_flow
     PaymentClaims.sample_wallet).

Lemma late_answer_pending_witness :
  snd slow_payment = Ok Pending /\
  exists jid, money_trace (apps (fst slow_payment)) =
    [Debited jid (LnProtocol.sender PaymentClaims.out_flow) (total_of PaymentClaims.out_flow)].
Proof.
  split; [vm_compute; reflexivity|].
  apply (late_answer_pending the_node whole PaymentClaims.sample_settings PaymentClaims.sample_invoice
    PaymentClaims.out_flow PaymentClaims.sample_wallet _ _ (run_exec (bank_env PaymentClaims.sample_env) _)).
  vm_compute. left.
Defined.

Definition held_update := run_bank InvoiceClaims.answering_env
  (updatePendingInvoice PaymentClaims.sample_settings InvoiceClaims.held_invoice).

Lemma credit_justified_witness :
  money_trace (apps (fst held_update)) =
    [Credited (mkWallet "bob" Btc) (mkBoth (mkAmount 23 Usd) (mkAmount 1000 Btc))] /\
  exists lnd raw, Ev (GetInvoice lnd "h1") (Resolved raw) ∈ nodes (fst held_update).
Proof.
  split; [vm_compute; reflexivity|].
  destruct (credit_justified the_node whole PaymentClaims.sample_settings InvoiceClaims.held_invoice _ _
    (mkWallet "bob" Btc) (mkBoth (mkAmount 23 Usd) (mkAmount 1000 Btc))
    (run_exec (bank_env InvoiceClaims.answering_env) _)) as (lnd & raw & rc & _ & _ & Hin & _).
  - vm_compute. left.
  - exists lnd, raw. exact Hin.
Defined.

End NodeExample.
