(* ===== verification/LnPayments.v ===== *)
(** * Records of the payments of the nodes

    [lib/app/lightning] and [lib/services/mongoose/ln-payments.js]: the payments that the
    nodes list are copied into the database, and deleted at the nodes afterwards; the
    balances of the nodes, kept for a minute; the lookups by payment hash.

    However the updates, the deletions and the payments in progress are interleaved, a payment
    that was deleted at a node has a complete record. *)

From stdpp Require Import gmap strings.
From S2P Require Import Prelude JsNum Errors Money PaymentFlow Regex Validation Accounts TxMetadata Facade LedgerService LedgerWrites RateLimit Programs Effects Persistence Workers Payments Invoices Prices Lnd.
#[local] Open Scope string_scope.
#[local] Open Scope Z_scope.
#[local] Open Scope list_scope.

(** ** Calls *)

(** A document of the collection. *)
Record RawLnPayment : Type := mkRawLnPayment {
  lnp_createdAt : option Z;
  lnp_status : option PaymentStatus;
  lnp_paymentHash : string;
  lnp_paymentRequest : option string;
  lnp_sentFromPubkey : string;
  lnp_milliSatsAmount : option number;
  lnp_roundedUpAmount : option number;
  lnp_confirmedDetails : option ConfirmedDetails;
  lnp_attempts : option (list string);
  lnp_isCompleteRecord : bool
}.

(** The document of a payment that begins. *)
Record NewLnPayment : Type := mkNewLnPayment {
  nlp_paymentHash : string;
  nlp_paymentRequest : option string;
  nlp_sentFromPubkey : string
}.

Inductive mcall : Type -> Type :=
| AtLnd {X} (c : lcall X) : mcall X
| AtApp {X} (c : call X) : mcall X
| LnPaymentFindOne (paymentHash : string) : mcall (db (option RawLnPayment))
| LnPaymentFindIncomplete : mcall (db (list RawLnPayment))
| LnPaymentUpsert (payment : NewLnPayment) : mcall (db RawLnPayment)
| LnPaymentFindOneAndUpdate (payment : RawLnPayment) : mcall (db (option RawLnPayment)).

Abbreviation mprog := (program mcall).

Definition lnd {A} (p : lprog A) : mprog A := interp (fun X c => do_call (AtLnd c)) p.

(** ** [services/mongoose/ln-payments.js] *)

Module LnPaymentsRepository.

(** [toSats(undefined)] is not a number. *)
Definition lnPaymentFromRaw (result : RawLnPayment) : RawLnPayment :=
  mkRawLnPayment (lnp_createdAt result) (lnp_status result) (lnp_paymentHash result)
    (lnp_paymentRequest result) (lnp_sentFromPubkey result) (lnp_milliSatsAmount result)
    (Some (default NaN (lnp_roundedUpAmount result))) (lnp_confirmedDetails result)
    (lnp_attempts result) (lnp_isCompleteRecord result).

Definition lnPaymentPartialFromRaw (result : RawLnPayment) : NewLnPayment :=
  mkNewLnPayment (lnp_paymentHash result) (lnp_paymentRequest result) (lnp_sentFromPubkey result).

Definition findLnPaymentByPaymentHash (paymentHash : string) : mprog (result RawLnPayment) :=
  let! result <- do_call (LnPaymentFindOne paymentHash) ;;
  match result with
  | Rejected m => Ret (Er (parseRepositoryError m))
  | Done None => Ret (Er (new_msg CouldNotFindLnPaymentFromHashError paymentHash))
  | Done (Some r) => Ret (Ok (lnPaymentFromRaw r))
  end.

Definition listIncomplete : mprog (result (list RawLnPayment)) :=
  let! result <- do_call LnPaymentFindIncomplete ;;
  match result with
  | Rejected m => Ret (Er (parseRepositoryError m))
  | Done l => Ret (Ok (List.map lnPaymentFromRaw l))
  end.

Definition persistNewLnPayment (payment : NewLnPayment) : mprog (result (RawLnPayment + NewLnPayment)) :=
  let! result <- do_call (LnPaymentUpsert payment) ;;
  match result with
  | Rejected m => Ret (Er (parseRepositoryError m))
  | Done r => Ret (Ok (if lnp_isCompleteRecord r then inl (lnPaymentFromRaw r)
                       else inr (lnPaymentPartialFromRaw r)))
  end.

Definition updateLnPayment (payment : RawLnPayment) : mprog (result RawLnPayment) :=
  let! result <- do_call (LnPaymentFindOneAndUpdate payment) ;;
  match result with
  | Rejected m => Ret (Er (parseRepositoryError m))
  | Done None => Ret (Er (new CouldNotFindLnPaymentFromHashError))
  | Done (Some r) => Ret (Ok (lnPaymentFromRaw r))
  end.

End LnPaymentsRepository.
Import LnPaymentsRepository.

(** A page of the payments of a node. *)
Definition list_payments (kind : ListKind) (after : option string) (pubkey : string)
    : mprog (result (list PaymentDetails * option string)) :=
  match kind with
  | FailedPayments => lnd (listFailedPayments after pubkey)
  | _ => lnd (listPaymentsFactory kind after pubkey)
  end.

(** [after === endCursor]: [undefined] is not [false]. *)
Definition same_cursor (after endCursor : option string) : bool :=
  match after, endCursor with
  | Some a, Some b => String.eqb a b
  | _, _ => false
  end.

(** ** [app/lightning/update-ln-payments.js]

    The incomplete payments that were read are changed in place, and the array of the
    hashes that are processed grows: both are passed along. *)

Module UpdateLnPayments.

Record progress : Type := mkProgress {
  processedLnPaymentsHashes : list string;
  incompleteLnPayments : list RawLnPayment
}.

(** The record of a payment, with what the node says of it. *)
Definition completed (persisted : RawLnPayment) (payment : PaymentDetails) : RawLnPayment :=
  mkRawLnPayment (Some (pd_createdAt payment)) (Some (pd_status payment)) (lnp_paymentHash persisted)
    (lnp_paymentRequest persisted) (lnp_sentFromPubkey persisted) (Some (pd_milliSatsAmount payment))
    (Some (pd_roundedUpAmount payment)) (pd_confirmedDetails payment) (pd_attempts payment) true.

(** The first incomplete payment of the hash, changed, with the list it is changed in. *)
Fixpoint complete_in (payment : PaymentDetails) (l : list RawLnPayment)
    : option (RawLnPayment * list RawLnPayment) :=
  match l with
  | [] => None
  | elem :: rest =>
      if String.eqb (lnp_paymentHash elem) (pd_paymentHash payment)
      then Some (completed elem payment, completed elem payment :: rest)
      else match complete_in payment rest with
           | Some (changed, rest) => Some (changed, elem :: rest)
           | None => None
           end
  end.

(** The payments of a page; the others are left at the first one that is not incomplete,
    or that cannot be updated. *)
Fixpoint update_payments (lnPayments : list PaymentDetails) (st : progress) : mprog progress :=
  match lnPayments with
  | [] => Ret st
  | payment :: rest =>
      match complete_in payment (incompleteLnPayments st) with
      | None => Ret st
      | Some (persistedPaymentLookup, incomplete) =>
          let! updatedPaymentLookup <- updateLnPayment persistedPaymentLookup ;;
          match updatedPaymentLookup with
          | Ok _ => update_payments rest
                      (mkProgress (processedLnPaymentsHashes st ++ [pd_paymentHash payment]) incomplete)
          | _ => Ret (mkProgress (processedLnPaymentsHashes st) incomplete)
          end
      end
  end.

Definition updateLnPaymentsPaginated (st : progress) (after : option string) (pubkey : string)
    (kind : ListKind) : mprog (result (option string * progress)) :=
  await results <- list_payments kind after pubkey ;;
  let '(lnPayments, endCursor) := results in
  if same_cursor after endCursor then Ret (Er (new UnknownLightningServiceError))
  else
    let! st <- update_payments lnPayments st ;;
    Ret (Ok (endCursor, st)).

(** The loop on the pages: [None] when [fuel] pages are not the last ones. *)
Fixpoint updateLnPaymentsByFunction (fuel : nat) (st : progress) (after : option string)
    (pubkey : string) (kind : ListKind) : mprog (option progress) :=
  if Nat.ltb (length (processedLnPaymentsHashes st)) (length (incompleteLnPayments st)) then
    match fuel with
    | O => Ret None
    | S fuel =>
        let! results <- updateLnPaymentsPaginated st after pubkey kind ;;
        match results with
        | Ok (None, st) => Ret (Some st)
        | Ok (Some token, st) => updateLnPaymentsByFunction fuel st (Some token) pubkey kind
        | _ => Ret (Some st)
        end
    end
  else Ret (Some st).

Fixpoint update_nodes (fuel : nat) (pages : list (ListKind * string)) (st : progress)
    : mprog (option progress) :=
  match pages with
  | [] => Ret (Some st)
  | (kind, pubkey) :: rest =>
      let! r <- updateLnPaymentsByFunction fuel st None pubkey kind ;;
      match r with
      | None => Ret None
      | Some st => update_nodes fuel rest st
      end
  end.

Definition listFns : list ListKind := [SettledPayments; FailedPayments].

Definition updateLnPayments (fuel : nat) : mprog (option (result bool)) :=
  let! incomplete <- listIncomplete ;;
  match incomplete with
  | Er e => Ret (Some (Er e))
  | Throw e => Ret (Some (Throw e))
  | Ok incomplete =>
      let! lndService <- lnd LndService_new ;;
      match lndService with
      | Er e => Ret (Some (Er e))
      | Throw e => Ret (Some (Throw e))
      | Ok _ =>
          let! active <- lnd (listActivePubkeys Offchain) ;;
          let pubkeys := List.filter (fun k => existsb (fun p => String.eqb (lnp_sentFromPubkey p) k)
                                                 incomplete) active in
          let! r <- update_nodes fuel (flat_map (fun kind => List.map (pair kind) pubkeys) listFns)
                      (mkProgress [] incomplete) ;;
          match r with
          | None => Ret None
          | Some _ => Ret (Some (Ok true))
          end
      end
  end.

End UpdateLnPayments.

(** ** [app/lightning/delete-ln-payments.js] *)

Module DeleteLnPayments.

(** The request of the payment, when its details are known. *)
Definition lookup_request (l : PaymentLookup) : option string :=
  match l with Looked d => pd_paymentRequest d | LookedFailed => None end.

(** The deletion at the node is not awaited: its answer is not looked at. *)
Definition checkAndDeletePaymentForHash (paymentHash pubkey : string) : mprog (result bool) :=
  let! lnPayment <- findLnPaymentByPaymentHash paymentHash ;;
  match lnPayment with
  | Throw e => Ret (Throw e)
  | Er e =>
      if is_a e CouldNotFindLnPaymentFromHashError then
        await _ <- lnd LndService_new ;;
        await lnPaymentLookup <- lnd (lnd_lookupPayment (Some pubkey) paymentHash) ;;
        let! _ <- persistNewLnPayment
                    (mkNewLnPayment paymentHash (lookup_request lnPaymentLookup) pubkey) ;;
        Ret (Ok false)
      else Ret (Er e)
  | Ok p =>
      if negb (lnp_isCompleteRecord p) then Ret (Ok false)
      else
        await _ <- lnd LndService_new ;;
        let! _ <- lnd (deletePaymentByHash paymentHash (Some pubkey)) ;;
        Ret (Ok true)
  end.

(** The payments of a page that were made before the date, one after the other. *)
Fixpoint check_page (timestamp : Z) (pubkey : string) (lnPayments : list PaymentDetails)
    : mprog (result unit) :=
  match lnPayments with
  | [] => Ret (Ok tt)
  | payment :: rest =>
      if pd_createdAt payment <? timestamp then
        let! r <- checkAndDeletePaymentForHash (pd_paymentHash payment) pubkey ;;
        match r with
        | Throw e => Ret (Throw e)
        | _ => check_page timestamp pubkey rest
        end
      else check_page timestamp pubkey rest
  end.

(** The pages of a list: what is yielded is treated before the next page is asked for.
    [None] when [fuel] pages are not the last ones. *)
Fixpoint check_pages (fuel : nat) (timestamp : Z) (kind : ListKind) (pubkey : string)
    (after : option string) : mprog (option (result unit)) :=
  match fuel with
  | O => Ret None
  | S fuel =>
      let! page <- list_payments kind after pubkey ;;
      match page with
      | Er e => Ret (Some (Er e))
      | Throw e => Ret (Some (Throw e))
      | Ok (lnPayments, endCursor) =>
          if same_cursor after endCursor then Ret (Some (Er (new UnknownLightningServiceError)))
          else
            let! r <- check_page timestamp pubkey lnPayments ;;
            match r, endCursor with
            | Throw e, _ => Ret (Some (Throw e))
            | _, None => Ret (Some (Ok tt))
            | _, Some token => check_pages fuel timestamp kind pubkey (Some token)
            end
      end
  end.

Fixpoint check_nodes (fuel : nat) (timestamp : Z) (pages : list (string * ListKind))
    : mprog (option (result bool)) :=
  match pages with
  | [] => Ret (Some (Ok true))
  | (pubkey, kind) :: rest =>
      let! r <- check_pages fuel timestamp kind pubkey None ;;
      match r with
      | None => Ret None
      | Some (Ok _) => check_nodes fuel timestamp rest
      | Some (Er e) => Ret (Some (Er e))
      | Some (Throw e) => Ret (Some (Throw e))
      end
  end.

Definition deleteLnPaymentsBefore (fuel : nat) (timestamp : Z) : mprog (option (result bool)) :=
  let! lndService <- lnd LndService_new ;;
  match lndService with
  | Er e => Ret (Some (Er e))
  | Throw e => Ret (Some (Throw e))
  | Ok _ =>
      let! pubkeys <- lnd (listActivePubkeys Offchain) ;;
      check_nodes fuel timestamp
        (flat_map (fun k => List.map (pair k) UpdateLnPayments.listFns) pubkeys)
  end.

End DeleteLnPayments.

(** ** [app/lightning/get-balances.js] *)

Definition sumBalances (balances : list (result number)) : number :=
  fold_left (fun total b => match b with Ok x => num_add total x | _ => total end) balances (num 0).

(** [Promise.all], one after the other. *)
Fixpoint each_pubkey (f : option string -> lprog (result number)) (pubkeys : list string)
    : lprog (list (result number)) :=
  match pubkeys with
  | [] => Ret []
  | k :: rest => let! r <- f (Some k) ;; let! rs <- each_pubkey f rest ;; Ret (r :: rs)
  end.

Definition result_value (r : result CacheValue) : option CacheValue :=
  match r with Ok v => Some v | _ => None end.

Definition SECS_PER_MIN : Z := 60.

(** [cache.getOrSet] of a balance, for a minute. *)
Definition kept_balance (key : string) (getForCaching : lprog (result number)) : lprog (result number) :=
  let! r <- getOrSet_with Ok result_value key SECS_PER_MIN
              (await n <- getForCaching ;; Ret (Ok (CacheNumber n))) ;;
  match r with
  | Ok v => Ret (number_of v)
  | Er e => Ret (Er e)
  | Throw e => Ret (Throw e)
  end.

Definition offchain_sum (f : LndNode -> option string -> lprog (result number)) : lprog (result number) :=
  await offChainService <- LndService_new ;;
  let! pubkeys <- listActivePubkeys Offchain ;;
  let! balances <- each_pubkey (f offChainService) pubkeys ;;
  Ret (Ok (sumBalances balances)).

Definition getOffChainBalance : lprog (result number) :=
  kept_balance CacheKeys.OffChainBalance (offchain_sum lnd_getBalance).
Definition getOpeningChannelBalance : lprog (result number) :=
  kept_balance CacheKeys.OpeningChannelBalance (offchain_sum getOpeningChannelsBalance).
Definition getClosingChannelBalance : lprog (result number) :=
  kept_balance CacheKeys.ClosingChannelBalance (offchain_sum getClosingChannelsBalance).

Definition getOnChainBalance : lprog (result number) :=
  kept_balance CacheKeys.OnChainBalance
    (await onChainService <- OnChainService_new ;;
     let! pubkeys <- listActivePubkeys Onchain ;;
     let! onChainBalances <- each_pubkey (onchain_getBalance onChainService) pubkeys ;;
     let! pendingKeys <- listActivePubkeys Onchain ;;
     let! onChainPendingBalances <- each_pubkey (getPendingBalance onChainService) pendingKeys ;;
     Ret (Ok (num_add (sumBalances onChainBalances) (sumBalances onChainPendingBalances)))).

Definition getTotalBalance : lprog number :=
  let! onChain <- getOnChainBalance ;;
  let! offChain <- getOffChainBalance ;;
  let! opening <- getOpeningChannelBalance ;;
  let! closing <- getClosingChannelBalance ;;
  Ret (sumBalances [onChain; offChain; opening; closing]).

(** ** Lookups of [app/lightning] *)

Definition listNodesPubkeys : lprog (result (list string)) :=
  await _ <- LndService_new ;;
  let! pubkeys <- listAllPubkeys ;;
  Ret (Ok pubkeys).

(** An error of the repository is one of its own classes. *)
Definition lookupInvoiceByHash (paymentHash : string) : mprog (result LnInvoiceLookup) :=
  await _ <- lnd LndService_new ;;
  await walletInvoice <- do_call (AtApp (InvoiceFindByPaymentHash paymentHash)) ;;
  lnd (lnd_lookupInvoice (wi_pubkey walletInvoice) paymentHash).

Definition lookupPaymentByHash (paymentHash : string) : lprog (result PaymentLookup) :=
  await _ <- LndService_new ;;
  lnd_lookupPayment None paymentHash.

(** The hash of the invoice and the function that tells whether it is paid. *)
Definition PaymentStatusChecker (decodeInvoice : string -> result LnInvoice)
    (uncheckedPaymentRequest : string) : result (string * prog (result bool)) :=
  let* decodedInvoice := decodeInvoice uncheckedPaymentRequest in
  let paymentHash := inv_paymentHash decodedInvoice in
  Ok (paymentHash, do_call (LedgerIsLnTxRecorded paymentHash)).

(** ** Deleted payments *)

Module LnPaymentsSpec.
Import UpdateLnPayments DeleteLnPayments.

(** The records of the database and the payments that the nodes have deleted. *)
Record payments_world : Type := mkPayments {
  records : gmap string RawLnPayment;
  deleted : gset string
}.

Definition complete (h : string) (w : payments_world) : Prop :=
  exists r, records w !! h = Some r /\ lnp_isCompleteRecord r = true.

Definition set_record (h : string) (r : RawLnPayment) (w : payments_world) : payments_world :=
  mkPayments (<[h := r]> (records w)) (deleted w).
Definition set_deleted (h : string) (w : payments_world) : payments_world :=
  mkPayments (records w) ({[h]} ∪ deleted w).

(** The answers of the nodes: a deletion that is refused may have been made. *)
Definition node_answers {X} (c : lcall X) (w : payments_world) (x : X) (w' : payments_world) : Prop :=
  match c in lcall X return X -> Prop with
  | DeletePayment _ h => fun x =>
      match x with
      | Resolved _ => w' = set_deleted h w
      | Refused _ => w' = w \/ w' = set_deleted h w
      end
  | _ => fun _ => w' = w
  end x.

(** The answers of the database: a write that is rejected may have been made.  A record keeps
    being complete when the payment begins again, since only its request and the public key
    are written. *)
Definition payments_answer (X : Type) (c : mcall X) (w : payments_world) (x : X) (w' : payments_world) : Prop :=
  match c in mcall X return X -> Prop with
  | AtLnd c => fun x => node_answers c w x w'
  | AtApp _ => fun _ => w' = w
  | LnPaymentFindOne h => fun x =>
      w' = w /\ match x with Done r => r = records w !! h | Rejected _ => True end
  | LnPaymentFindIncomplete => fun _ => w' = w
  | LnPaymentUpsert p => fun _ =>
      w' = w \/ exists r, w' = set_record (nlp_paymentHash p) r w /\
        lnp_isCompleteRecord r = match records w !! nlp_paymentHash p with
                                 | Some old => lnp_isCompleteRecord old
                                 | None => false
                                 end
  | LnPaymentFindOneAndUpdate p => fun _ =>
      w' = w \/ exists old r, records w !! lnp_paymentHash p = Some old /\
        w' = set_record (lnp_paymentHash p) r w /\ lnp_isCompleteRecord r = lnp_isCompleteRecord p
  end x.

(** *** The contracts of the calls *)

Definition recorded (w : payments_world) : Prop := forall h, h ∈ deleted w -> complete h w.
Definition keeps_records (w w' : payments_world) : Prop := forall h, complete h w -> complete h w'.

#[local] Instance keeps_records_preorder : PreOrder keeps_records.
Proof. split; [by intros w h|]. intros w1 w2 w3 H1 H2 h Hh. auto. Qed.

Definition may_delete {X} (c : lcall X) (w : payments_world) : Prop :=
  match c with DeletePayment _ h => complete h w | _ => True end.

Definition payments_pre (X : Type) (c : mcall X) (w : payments_world) : Prop :=
  match c with
  | AtLnd c => may_delete c w
  | LnPaymentFindOneAndUpdate p => lnp_isCompleteRecord p = true
  | _ => True
  end.
Definition payments_post (X : Type) (c : mcall X) (x : X) (w : payments_world) : Prop :=
  match c in mcall X return X -> Prop with
  | LnPaymentFindOne h => fun x =>
      match x with Done (Some r) => lnp_isCompleteRecord r = true -> complete h w | _ => True end
  | _ => fun _ => True
  end x.

Lemma complete_set h h' r w : complete h w -> (h = h' -> lnp_isCompleteRecord r = true) ->
  complete h (set_record h' r w).
Proof.
  intros (r0 & Hr & Hc) Hnew. unfold complete. simpl. destruct (decide (h = h')) as [->|Hne].
  - exists r. rewrite lookup_insert_eq. auto.
  - exists r0. by rewrite lookup_insert_ne.
Qed.

Lemma set_record_kept h r w :
  (complete h w -> lnp_isCompleteRecord r = true) -> recorded w ->
  recorded (set_record h r w) /\ keeps_records w (set_record h r w).
Proof.
  intros Hr Hw. assert (Hk : keeps_records w (set_record h r w)).
  { intros h' Hh'. apply complete_set; [done|]. intros ->. auto. }
  split; [|done]. intros h' Hd. apply Hk, Hw, Hd.
Qed.

Lemma set_deleted_kept h w : complete h w -> recorded w ->
  recorded (set_deleted h w) /\ keeps_records w (set_deleted h w).
Proof.
  intros Hh Hw. split; [|by intros h' H']. intros h' Hd. simpl in Hd.
  apply elem_of_union in Hd as [->%elem_of_singleton|Hd]; [done|by apply Hw].
Qed.

Lemma payments_stable X (c : mcall X) w w' :
  payments_pre X c w -> keeps_records w w' -> payments_pre X c w'.
Proof. intros Hp Hg. destruct c as [Y c| | | | |]; simpl in *; try done. destruct c; simpl in *; auto. Qed.

Lemma payments_answers_kept X (c : mcall X) w x w' :
  recorded w -> payments_pre X c w -> payments_answer X c w x w' ->
  recorded w' /\ keeps_records w w' /\ payments_post X c x w'.
Proof.
  intros Hw Hp Ha.
  assert (Hsame : w' = w -> recorded w' /\ keeps_records w w') by (by intros ->).
  destruct c as [Y c|Y c|h| |p|p]; simpl in *.
  - enough (recorded w' /\ keeps_records w w') as [? ?] by done. destruct c; try (by apply Hsame).
    destruct x; simpl in Ha; [subst; by apply set_deleted_kept|]. destruct Ha as [->| ->]; [done|by apply set_deleted_kept].
  - enough (recorded w' /\ keeps_records w w') as [? ?] by done. by apply Hsame.
  - destruct Ha as [-> Hx]. split_and!; [done..|]. destruct x as [[r|]|m]; [|done..]. intros Hr. by exists r.
  - enough (recorded w' /\ keeps_records w w') as [? ?] by done. by apply Hsame.
  - enough (recorded w' /\ keeps_records w w') as [? ?] by done. destruct Ha as [->|(r & -> & Hr)]; [by apply Hsame|].
    apply set_record_kept; [|done]. intros (r0 & Hr0 & Hc). by rewrite Hr, Hr0.
  - enough (recorded w' /\ keeps_records w w') as [? ?] by done. destruct Ha as [->|(old & r & Ho & -> & Hr)]; [by apply Hsame|].
    apply set_record_kept; [|done]. intros _. by rewrite Hr.
Qed.

(** *** The programs keep to the contracts *)

Abbreviation keeps := (keeps_to recorded keeps_records payments_pre payments_post).

Definition no_delete (X : Type) (c : lcall X) : bool :=
  match c with DeletePayment _ _ => false | _ => true end.
Definition delete_of (h : string) (X : Type) (c : lcall X) : bool :=
  match c with DeletePayment _ h' => String.eqb h' h | _ => true end.

(** The programs of the node service whose deletions are allowed. *)
Lemma keeps_lnd {A B} (P : forall X, lcall X -> bool) (p : lprog A) (k : A -> mprog B) w :
  (forall X (c : lcall X) w', P X c = true -> keeps_records w w' -> may_delete c w') ->
  calls_only P p -> recorded w ->
  (forall a w', keeps_records w w' -> recorded w' -> keeps (k a) w' sure) ->
  keeps (pbind (lnd p) k) w sure.
Proof.
  intros HP. cut (forall w0, keeps_records w w0 -> calls_only P p -> recorded w0 ->
    (forall a w', keeps_records w w' -> recorded w' -> keeps (k a) w' sure) ->
    keeps (pbind (lnd p) k) w0 sure); [intros H; by apply H|].
  induction p as [a|X c f IH]; intros w0 Hg Hp Hw Hk; simpl in *; [auto|]. destruct Hp as [Hc Hf].
  split; [by apply HP|]. intros x w' Hg' Hw' _. apply IH; [by etransitivity|done..|done].
Qed.

Lemma keeps_quiet {A B} (p : lprog A) (k : A -> mprog B) w :
  calls_only no_delete p -> recorded w ->
  (forall a w', keeps_records w w' -> recorded w' -> keeps (k a) w' sure) ->
  keeps (pbind (lnd p) k) w sure.
Proof. apply keeps_lnd. intros X c w' Hc _. by destruct c. Qed.

Lemma keeps_then {A B} (p : mprog A) (k : A -> mprog B) w :
  keeps p w sure -> recorded w -> (forall a w', recorded w' -> keeps (k a) w' sure) ->
  keeps (pbind p k) w sure.
Proof.
  revert w. induction p as [a|X c f IH]; intros w Hp Hw Hk; simpl in *; [auto|].
  destruct Hp as [Hc Hf]. split; [done|]. intros x w' Hg Hw' Hq. apply IH; [by apply Hf|done..].
Qed.

Lemma new_quiet : calls_only no_delete LndService_new.
Proof. by split. Qed.
Lemma active_quiet t : calls_only no_delete (listActivePubkeys t).
Proof. by split. Qed.
Lemma reads_quiet {A} (p : lprog A) : calls_only reads p -> calls_only no_delete p.
Proof. apply calls_only_mono. intros X c. by destruct c. Qed.

(** Awaiting a program of the node service. *)
Lemma keeps_await_quiet {A B} (p : lprog (result A)) (k : A -> mprog (result B)) w :
  calls_only no_delete p -> recorded w ->
  (forall a w', keeps_records w w' -> recorded w' -> keeps (k a) w' sure) ->
  keeps (rpbind (lnd p) k) w sure.
Proof. intros Hp Hw Hk. apply keeps_quiet; [done..|]. intros [a|e|e] w' Hg Hw'; [auto|done..]. Qed.

Lemma delete_calls h k : calls_only (delete_of h) (deletePaymentByHash h (Some k)).
Proof.
  assert (Heach : forall ks, calls_only (delete_of h) (delete_each ks h)).
  { induction ks as [|k' ks IH]; [done|]. apply calls_only_bind.
    - unfold deletePaymentByPubkeyAndHash, rpbind, from_nodes, tried. split; [done|]. intros params.
      cbn. destruct (getLndFromPubkey k' params); cbn; [|done..]. split; [by apply String.eqb_refl|]. by intros [].
    - intros [[]|e|e]; [done|exact IH|done..]. }
  unfold deletePaymentByHash. destruct k; [split; [done|]; intros|]; apply Heach.
Qed.

(** The record of a payment that has none is made. *)
Lemma persist_keeps {B} h pubkey (k : mprog (result B)) w : recorded w ->
  (forall w', recorded w' -> keeps k w' sure) ->
  keeps (await _ <- lnd LndService_new ;;
         await l <- lnd (lnd_lookupPayment (Some pubkey) h) ;;
         let! _ <- persistNewLnPayment (mkNewLnPayment h (lookup_request l) pubkey) ;; k) w sure.
Proof.
  intros Hw Hk. apply keeps_await_quiet; [apply new_quiet|done|]. intros node w2 _ Hw2.
  apply keeps_await_quiet; [apply reads_quiet, lookup_reads|done|]. intros l w3 _ Hw3.
  split; [done|]. intros [r|m] w4 _ Hw4 _; by apply Hk.
Qed.

(** A payment is only deleted after its record was found to be complete. *)
Lemma check_keeps h pubkey w : recorded w -> keeps (checkAndDeletePaymentForHash h pubkey) w sure.
Proof.
  intros Hw. unfold checkAndDeletePaymentForHash, findLnPaymentByPaymentHash.
  split; [done|]. intros x w1 Hg Hw1 Hq. destruct x as [[r|]|m]; simpl in Hq; cbn -[lnd lnd_lookupPayment is_a].
  - destruct (lnp_isCompleteRecord r) eqn:Hr; [|done]. specialize (Hq eq_refl). cbn -[lnd].
    apply keeps_await_quiet; [apply new_quiet|done|]. intros node w2 Hg2 Hw2.
    apply (keeps_lnd (delete_of h)); [|apply delete_calls|done|done].
    intros X c w' Hc Hg'. destruct c; try done. simpl in *. apply String.eqb_eq in Hc as ->. auto.
  - by apply persist_keeps.
  - destruct (is_a _ _); [by apply persist_keeps|done].
Qed.

Lemma list_quiet {B} kind after pubkey (k : result (list PaymentDetails * option string) -> mprog B) w :
  recorded w -> (forall r w', recorded w' -> keeps (k r) w' sure) ->
  keeps (pbind (list_payments kind after pubkey) k) w sure.
Proof.
  intros Hw Hk. unfold list_payments.
  destruct kind; (apply keeps_quiet; [apply reads_quiet; first [apply failed_page_reads|apply page_reads]
                                     |done|by intros; apply Hk]).
Qed.

Lemma page_keeps timestamp pubkey l w : recorded w -> keeps (check_page timestamp pubkey l) w sure.
Proof.
  revert w. induction l as [|p l IH]; intros w Hw; [done|]. cbn [check_page].
  destruct (_ <? _); [|by apply IH]. apply keeps_then; [by apply check_keeps|done|].
  intros [b|e|e] w' Hw'; [by apply IH..|done].
Qed.

Lemma pages_keep fuel timestamp kind pubkey after w :
  recorded w -> keeps (check_pages fuel timestamp kind pubkey after) w sure.
Proof.
  revert after w. induction fuel as [|fuel IH]; intros after w Hw; [done|]. cbn [check_pages].
  apply list_quiet; [done|]. intros [[l next]|e|e] w' Hw'; [|done..].
  destruct (same_cursor after next); [done|].
  apply keeps_then; [by apply page_keeps|done|].
  intros [b|e|e] w2 Hw2; destruct next; try done; by apply IH.
Qed.

Lemma delete_keeps fuel timestamp w : recorded w -> keeps (deleteLnPaymentsBefore fuel timestamp) w sure.
Proof.
  intros Hw. unfold deleteLnPaymentsBefore. apply keeps_quiet; [apply new_quiet|done|].
  intros [node|e|e] w1 _ Hw1; [|done..]. apply keeps_quiet; [apply active_quiet|done|].
  intros ks w2 _ Hw2. generalize (flat_map (fun k => List.map (pair k) listFns) ks). intros pages.
  revert w2 Hw2. induction pages as [|[k kind] pages IH]; intros w2 Hw2; [done|]. cbn [check_nodes].
  apply keeps_then; [by apply pages_keep|done|]. intros [[u|e|e]|] w3 Hw3; [by apply IH|done..].
Qed.

(** Only complete records are written. *)
Lemma complete_in_complete payment l r l' : complete_in payment l = Some (r, l') ->
  lnp_isCompleteRecord r = true.
Proof.
  revert l'. induction l as [|elem l IH]; intros l'; simpl; [done|].
  destruct (String.eqb _ _); [by intros [= <- _]|].
  destruct (complete_in payment l) as [[changed rest]|]; [|done]. intros [= <- _]. by eapply IH.
Qed.

Lemma payments_keep l st w : recorded w -> keeps (update_payments l st) w sure.
Proof.
  revert st w. induction l as [|p l IH]; intros st w Hw; [done|]. cbn [update_payments].
  destruct (complete_in p _) as [[r incomplete]|] eqn:Hc; [|done].
  split; [by eapply complete_in_complete|]. intros [[x|]|m] w' _ Hw' _; [by apply IH|done..].
Qed.

Lemma function_keeps fuel st after pubkey kind w :
  recorded w -> keeps (updateLnPaymentsByFunction fuel st after pubkey kind) w sure.
Proof.
  revert st after w. induction fuel as [|fuel IH]; intros st after w Hw; cbn [updateLnPaymentsByFunction];
    (destruct (Nat.ltb _ _); [|done]); [done|].
  apply keeps_then; [|done|].
  - unfold updateLnPaymentsPaginated. apply list_quiet; [done|].
    intros [[l next]|e|e] w' Hw'; [|done..]. destruct (same_cursor after next); [done|].
    by apply keeps_then; [apply payments_keep|..].
  - intros [[[token|] st']|e|e] w' Hw'; [by apply IH|done..].
Qed.

Lemma update_keeps fuel w : recorded w -> keeps (updateLnPayments fuel) w sure.
Proof.
  intros Hw. unfold updateLnPayments, listIncomplete. split; [done|]. intros [l|m] w1 _ Hw1 _; [|done].
  cbn [pbind]. apply keeps_quiet; [apply new_quiet|done|]. intros [node|e|e] w2 _ Hw2; [|done..].
  apply keeps_quiet; [apply active_quiet|done|]. intros ks w3 _ Hw3.
  apply keeps_then; [|done|by intros [st|]].
  generalize (mkProgress [] (List.map lnPaymentFromRaw l)). generalize (flat_map (fun kind => List.map (pair kind)
    (List.filter (fun k => existsb (fun p => String.eqb (lnp_sentFromPubkey p) k)
       (List.map lnPaymentFromRaw l)) ks)) listFns). intros pages.
  revert w3 Hw3. induction pages as [|[kind k] pages IH]; intros w3 Hw3 st; [done|]. cbn [update_nodes].
  apply keeps_then; [by apply function_keeps|done|]. intros [st'|] w4 Hw4; [by apply IH|done].
Qed.

(** *** The property *)

(** What runs: updates, deletions and payments that begin. *)
Inductive LnJob : Type :=
| UpdateJob (fuel : nat)
| DeleteJob (fuel : nat) (timestamp : Z)
| BeginJob (payment : NewLnPayment).

Definition run_job (j : LnJob) : mprog (result unit) :=
  match j with
  | UpdateJob fuel => let! _ <- updateLnPayments fuel ;; Ret (Ok tt)
  | DeleteJob fuel timestamp => let! _ <- deleteLnPaymentsBefore fuel timestamp ;; Ret (Ok tt)
  | BeginJob payment => let! _ <- persistNewLnPayment payment ;; Ret (Ok tt)
  end.

Lemma jobs_keep j w : recorded w -> keeps (run_job j) w sure.
Proof.
  intros Hw. destruct j as [fuel|fuel ts|p]; cbn [run_job].
  - by apply keeps_then; [apply update_keeps|..].
  - by apply keeps_then; [apply delete_keeps|..].
  - split; [done|]. by intros [r|m] w' _ Hw' _.
Qed.

(** C22. However the updates of the records, the deletions at the nodes and the records
    of payments in progress are interleaved by workers that share the database, a
    payment that was deleted at a node has a complete record in the database, and a
    record that is complete stays complete. *)
Theorem deleted_payments_recorded (jobs : list LnJob) (n : nat) (w : payments_world) cf
    (Hw : recorded w) (Hr : rtc (wstep payments_answer run_job) (runInParallel jobs n w) cf) :
  recorded (world cf) /\ keeps_records w (world cf).
Proof.
  eapply (contracts_kept payments_answer recorded keeps_records payments_pre payments_post
            payments_stable payments_answers_kept run_job jobs_keep); eassumption.
Qed.

(** *** Witness *)

Definition node1 : LndNode := mkNode "127.0.0.1:10009" "pk" [Offchain] true "LND1".
Definition settled_payment : RawPayment :=
  mkRawPayment "h1" 100 None "1000" (num 1) true 200 "dest" (Some "s") (num 0) "0" ["n"] [] None.

(** A node with one settled payment. *)
Definition node_reply (X : Type) (c : lcall X) : X :=
  match c in lcall X return X with
  | NodeParams => [node1]
  | SetNodeActive _ _ | StatusEvent _ _ => tt
  | LocalCache c =>
      match c in pcall X return X with
      | DealerRpc _ _ _ => RpcFailed "" ""
      | _ => Rejected ""
      end
  | GetPaymentsOf kind _ _ =>
      Resolved (if decide (kind = SettledPayments) then ([settled_payment], None) else ([], None))
  | DeletePayment _ _ => Resolved tt
  | ProbeForRoute _ _ => TimedOut
  | PayViaRoutes _ _ _ | PayViaPaymentDetails _ _ => TimedOut
  | AddLndRoutingRevenue _ _ | UpdateLndEscrow _ | AddLndChannelFee _ _ _ => Ok tt
  | RoutingFeeLastEntry => Done None
  | SetRoutingFeeLastEntry _ => Done tt
  | _ => Refused js_exception
  end.

Definition node_effect {X} (c : lcall X) (w : payments_world) : payments_world :=
  match c with DeletePayment _ h => set_deleted h w | _ => w end.

Definition begun (p : NewLnPayment) (complete : bool) : RawLnPayment :=
  mkRawLnPayment None None (nlp_paymentHash p) (nlp_paymentRequest p) (nlp_sentFromPubkey p) None None
    None None complete.

Definition upserted (p : NewLnPayment) (w : payments_world) : RawLnPayment :=
  begun p (match records w !! nlp_paymentHash p with Some old => lnp_isCompleteRecord old | None => false end).

Definition world_answer (X : Type) (c : mcall X) (w : payments_world) : X * payments_world :=
  match c in mcall X return X * payments_world with
  | AtLnd c => (node_reply _ c, node_effect c w)
  | AtApp c => (failing_env _ c, w)
  | LnPaymentFindOne h => (Done (records w !! h), w)
  | LnPaymentFindIncomplete =>
      (Done (List.filter (fun r => negb (lnp_isCompleteRecord r)) (List.map snd (map_to_list (records w)))), w)
  | LnPaymentUpsert p => (Done (upserted p w), set_record (nlp_paymentHash p) (upserted p w) w)
  | LnPaymentFindOneAndUpdate p =>
      match records w !! lnp_paymentHash p with
      | Some _ => (Done (Some p), set_record (lnp_paymentHash p) p w)
      | None => (Done None, w)
      end
  end.

Lemma world_answer_right X (c : mcall X) w :
  payments_answer X c w (fst (world_answer X c w)) (snd (world_answer X c w)).
Proof.
  destruct c as [Y c|Y c|h| |p|p]; simpl; try done.
  - by destruct c.
  - right. by exists (upserted p w).
  - destruct (records w !! lnp_paymentHash p) as [old|] eqn:Ho; simpl; [right; eauto|by left].
Qed.

(** The payment begins, its record is completed, and it is deleted at the node. *)
Definition daily_jobs : list LnJob := [BeginJob (mkNewLnPayment "h1" None "pk"); UpdateJob 1; DeleteJob 1 500].
Definition after_jobs : option (@config mcall payments_world LnJob unit) :=
  scheduled world_answer run_job (List.repeat 0%nat 24) (runInParallel daily_jobs 1 (mkPayments ∅ ∅)).

Lemma deleted_payments_recorded_witness : exists cf, after_jobs = Some cf /\
  "h1" ∈ deleted (world cf) /\ recorded (world cf).
Proof.
  destruct after_jobs as [cf|] eqn:Hs; [|vm_compute in Hs; discriminate Hs].
  exists cf. split; [reflexivity|]. split.
  - vm_compute in Hs. injection Hs as <-. vm_compute. reflexivity.
  - refine (proj1 (deleted_payments_recorded daily_jobs 1 (mkPayments ∅ ∅) cf _ _)).
    + intros h Hh. apply not_elem_of_empty in Hh. destruct Hh.
    + exact (scheduled_runs world_answer payments_answer run_job _ _ _ world_answer_right Hs).
Defined.

End LnPaymentsSpec.
