(* ===== verification/FeeProbe.v ===== *)
(** * Fee probes

    The estimation of the fee of a lightning payment ([lib/app/payments/get-protocol-fee.js],
    [lib/app/partial-result.js]): the flow it stores is the one a payment finds later, and
    the fee it shows is the fee of that flow. *)

From S2P Require Import Prelude JsNum Errors Money Ledger PaymentFlow Validation Accounts TxMetadata Facade LedgerService LedgerWrites Programs Effects Payments PaymentsSpec.
Import AmountCalculator PriceRatio CheckedAmounts.
#[local] Open Scope string_scope.
#[local] Open Scope Z_scope.
#[local] Open Scope list_scope.

(** ** [app/partial-result.js] *)

Record PartialResult (A : Type) : Type := mkPartial {
  pr_result : option A;
  pr_error : option error
}.
Arguments mkPartial {A} pr_result pr_error.
Arguments pr_result {A} p.
Arguments pr_error {A} p.

Definition partial_ok {A} (a : A) : PartialResult A := mkPartial (Some a) None.
Definition partial_partial {A} (a : A) (e : error) : PartialResult A := mkPartial (Some a) (Some e).
Definition partial_err {A} (e : error) : PartialResult A := mkPartial None (Some e).

(** [const x = await p; if (x instanceof Error) return PartialResult.err(x)]. *)
Definition ppbind {A B} (p : prog (result A)) (k : A -> prog (result (PartialResult B)))
    : prog (result (PartialResult B)) :=
  pbind p (fun r => match r with
                    | Ok a => k a
                    | Er e => Ret (Ok (partial_err e))
                    | Throw e => Ret (Throw e)
                    end).
Notation "'awaitP' x '<-' p ';;' k" := (ppbind p (fun x => k))
  (at level 100, x pattern, p at level 99, k at level 200, right associativity) : js_scope.

(** ** [app/payments/get-protocol-fee.js] *)

Section Probe.
Context (cfg : Settings).

(** The prices of a probe are those of a future trade. *)
Definition probe_settings : Settings :=
  mkSettings (set_now cfg) (set_limits cfg) (set_pubkeysToSkipProbe cfg) (set_mid cfg)
    (set_futureBuyUsd cfg) (set_futureSellUsd cfg) (set_futureBuyUsd cfg) (set_futureSellUsd cfg)
    (set_decodeInvoice cfg).

(** A flag of the builder in a condition: the object of an error is truthy. *)
Definition flag (r : result bool) : bool := match r with Ok b => b | _ => true end.

(** The flow is stored and its fee answered. *)
Definition store_and_answer (paymentFlow : PaymentFlow) : prog (result (PartialResult PaymentAmount)) :=
  let! persistedPayment <- do_call (FlowPersistNew paymentFlow) ;;
  match persistedPayment with
  | Ok f => Ret (Ok (partial_ok (Flow.protocolFeeInSenderWalletCurrency f)))
  | Er e => Ret (Ok (partial_partial (Flow.protocolFeeInSenderWalletCurrency paymentFlow) e))
  | Throw e => Ret (Throw e)
  end.

(** A payment to another node: a route is asked for unless the destination is not to be
    probed; without one the flow is stored, not awaited, with the bound of the fee. *)
Definition estimate_with_route (builder : conversion) (invoice : LnInvoice)
    (btcPaymentAmount : PaymentAmount) : prog (result (PartialResult PaymentAmount)) :=
  awaitP _ <- do_call LndService ;;
  let skip := flag (Builder.skipProbeForDestination builder) in
  let! routeResult <- (if skip then Ret (Er (new SkipProbeForPubkeyError))
                       else do_call (LndFindRouteForInvoice invoice btcPaymentAmount)) ;;
  match routeResult with
  | Throw e => Ret (Throw e)
  | Er e =>
      awaitP paymentFlow <- Ret (Builder.withoutRoute builder) ;;
      let! _ <- do_call (FlowPersistNew paymentFlow) ;;
      let fee := Flow.protocolFeeInSenderWalletCurrency paymentFlow in
      Ret (Ok (if is_a e SkipProbeForPubkeyError then partial_ok fee else partial_partial fee e))
  | Ok (pubkey, rawRoute) =>
      awaitP paymentFlow <- Ret (Builder.withRoute builder pubkey rawRoute) ;;
      store_and_answer paymentFlow
  end.

Definition estimateLightningFee (uncheckedSenderWalletId : string) (invoice : LnInvoice)
    (uncheckedAmount : option number) : prog (result (PartialResult PaymentAmount)) :=
  awaitP senderWalletId <- Ret (checkedToWalletId uncheckedSenderWalletId) ;;
  awaitP senderWallet <- do_call (WalletFindById senderWalletId) ;;
  awaitP builder <- constructPaymentFlowBuilder probe_settings senderWallet invoice uncheckedAmount ;;
  awaitP usdPaymentAmount <- Ret (Builder.usdPaymentAmount builder) ;;
  awaitP btcPaymentAmount <- Ret (Builder.btcPaymentAmount builder) ;;
  awaitP priceRatio <- Ret (PriceRatio usdPaymentAmount btcPaymentAmount) ;;
  if flag (Builder.isTradeIntraAccount builder) then
    awaitP _ <- newCheckTradeIntraAccountLimits cfg usdPaymentAmount senderWallet priceRatio ;;
    awaitP paymentFlow <- Ret (Builder.withoutRoute builder) ;;
    store_and_answer paymentFlow
  else if flag (Builder.isIntraLedger builder) then
    awaitP _ <- newCheckIntraledgerLimits cfg usdPaymentAmount senderWallet priceRatio ;;
    awaitP paymentFlow <- Ret (Builder.withoutRoute builder) ;;
    store_and_answer paymentFlow
  else
    awaitP _ <- newCheckWithdrawalLimits cfg usdPaymentAmount senderWallet priceRatio ;;
    estimate_with_route builder invoice btcPaymentAmount.

Definition getLightningFeeEstimation (walletId uncheckedPaymentRequest : string)
    : prog (result (PartialResult PaymentAmount)) :=
  awaitP decodedInvoice <- Ret (set_decodeInvoice cfg uncheckedPaymentRequest) ;;
  match inv_paymentAmount decodedInvoice with
  | None => Ret (Ok (partial_err (new LnPaymentRequestNonZeroAmountRequiredError)))
  | Some _ => estimateLightningFee walletId decodedInvoice None
  end.

Definition getNoAmountLightningFeeEstimation (walletId uncheckedPaymentRequest : string)
    (amt : number) : prog (result (PartialResult PaymentAmount)) :=
  awaitP decodedInvoice <- Ret (set_decodeInvoice cfg uncheckedPaymentRequest) ;;
  if has_positive_amount decodedInvoice
  then Ret (Ok (partial_err (new LnPaymentRequestZeroAmountRequiredError)))
  else estimateLightningFee walletId decodedInvoice (Some amt).

End Probe.

(** ** Properties *)

Module FeeProbeSpec.

(** The flow stored so far, with the answer of the repository. *)
Definition phase : Type := option (PaymentFlow * result PaymentFlow).

Definition stores {X} (c : call X) : bool := match c with FlowPersistNew _ => true | _ => false end.

Inductive step : phase -> event -> phase -> Prop :=
| p_quiet ph X (c : call X) x : sensitive c = false -> stores c = false -> step ph (Ev c x) ph
| p_store f x : step None (Ev (FlowPersistNew f) x) (Some (f, x)).

(** The fee shown is that of the flow that is stored. *)
Definition outcome (ph : phase) (r : result (PartialResult PaymentAmount)) : Prop :=
  match r with
  | Ok p => match pr_result p with
            | Some fee => exists f x, ph = Some (f, x) /\
                (fee = Flow.protocolFeeInSenderWalletCurrency f \/
                 exists g, x = Ok g /\ fee = Flow.protocolFeeInSenderWalletCurrency g)
            | None => True
            end
  | _ => True
  end.

(** Programs that neither touch the money nor store a flow. *)
Fixpoint reads {A} (p : prog A) : Prop :=
  match p with
  | Ret _ => True
  | Call c k => sensitive c = false /\ stores c = false /\ forall x, reads (k x)
  end.

Lemma reads_bind {A B} (p : prog A) (k : A -> prog B) :
  reads p -> (forall a, reads (k a)) -> reads (pbind p k).
Proof.
  induction p as [a|X c f IH]; simpl; [by intros _ Hk|]. intros (Hs & Hf & Hp) Hk.
  split_and!; [done..|]. intros x. apply IH; auto.
Qed.

Lemma reads_follows {A B} (p : prog A) (k : A -> prog B) ph out :
  reads p -> (forall a, follows step (k a) ph out) -> follows step (pbind p k) ph out.
Proof.
  induction p as [a|X c f IH]; simpl; [by intros _ Hk|]. intros (Hs & Hf & Hp) Hk x.
  exists ph. split; [by apply p_quiet|]. by apply IH.
Qed.

(** What is awaited reads only; errors end the estimation. *)
Lemma await_follows {A} (p : prog (result A)) k ph :
  reads p -> (forall a, follows step (k a) ph outcome) -> follows step (ppbind p k) ph outcome.
Proof. intros Hp Hk. apply reads_follows; [done|]. by intros [a|e|e]; simpl. Qed.

Lemma reads_await {A B} (p : prog (result A)) (k : A -> prog (result B)) :
  reads p -> (forall a, reads (k a)) -> reads (rpbind p k).
Proof. intros Hp Hk. apply reads_bind; [done|]. by intros [a|e|e]. Qed.

Lemma reads_call {X} (c : call X) : sensitive c = false -> stores c = false -> reads (do_call c).
Proof. by intros. Qed.

Ltac reads :=
  repeat (intros; first
    [ apply reads_await
    | apply reads_call; reflexivity
    | exact I
    | match goal with |- reads (if ?b then _ else _) => destruct b end ]).

Lemma limits_reads cfg g check amt w r : reads (check_limits cfg g check amt w r).
Proof. unfold check_limits. reads. Qed.

Lemma builder_reads cfg w invoice a : reads (constructPaymentFlowBuilder cfg w invoice a).
Proof.
  unfold constructPaymentFlowBuilder. reads.
  intros b. cbv zeta. destruct (Builder.usdPaymentAmount _) as [u|e|e]; [exact I| |exact I].
  by destruct (is_a e _ && _)%bool.
Qed.

Lemma store_follows f : follows step (store_and_answer f) None outcome.
Proof.
  unfold store_and_answer. simpl. intros x. exists (Some (f, x)). split; [apply p_store|].
  destruct x as [g|e|e]; simpl; [|eauto 6|done]. exists f, (Ok g). eauto.
Qed.

Lemma route_follows b invoice amt : follows step (estimate_with_route b invoice amt) None outcome.
Proof.
  unfold estimate_with_route. apply await_follows; [by apply reads_call|]. intros _.
  apply reads_follows; [by destruct (flag _)|]. intros [[k route]|e|e]; [| |done].
  - apply await_follows; [done|]. intros f. apply store_follows.
  - apply await_follows; [done|]. intros f. simpl. intros x. exists (Some (f, x)).
    split; [apply p_store|]. destruct (is_a e _); simpl; eauto.
Qed.

Lemma estimate_follows cfg id invoice a :
  follows step (estimateLightningFee cfg id invoice a) None outcome.
Proof.
  unfold estimateLightningFee. apply await_follows; [done|]. intros w.
  apply await_follows; [by apply reads_call|]. intros sw.
  apply await_follows; [apply builder_reads|]. intros b.
  do 3 (apply await_follows; [done|]; intros ?).
  destruct (flag _); [|destruct (flag _)];
    (apply await_follows; [apply limits_reads|]; intros _); [| |apply route_follows];
    (apply await_follows; [done|]; intros f; apply store_follows).
Qed.

(** A request of an estimation. *)
Inductive request : Type :=
| WithAmount (walletId paymentRequest : string)
| WithoutAmount (walletId paymentRequest : string) (amt : number).

Definition estimation (cfg : Settings) (q : request) : prog (result (PartialResult PaymentAmount)) :=
  match q with
  | WithAmount id r => getLightningFeeEstimation cfg id r
  | WithoutAmount id r amt => getNoAmountLightningFeeEstimation cfg id r amt
  end.

Lemma estimation_follows cfg q : follows step (estimation cfg q) None outcome.
Proof.
  destruct q as [id r|id r amt]; simpl;
    unfold getLightningFeeEstimation, getNoAmountLightningFeeEstimation;
    (apply await_follows; [done|]; intros inv).
  - destruct (inv_paymentAmount inv); [apply estimate_follows|done].
  - destruct (has_positive_amount inv); [done|apply estimate_follows].
Qed.

Definition is_sensitive (ev : event) : bool := match ev with Ev c _ => sensitive c end.

Lemma path_spec ph tr ph' : path step ph tr ph' ->
  existsb is_sensitive tr = false /\
  (ph' = ph \/ exists f x, ph' = Some (f, x) /\ Ev (FlowPersistNew f) x ∈ tr).
Proof.
  induction 1 as [ph|ph ev ph1 tr ph2 Hs _ [IH1 IH2]]; [by split; [|left]|].
  destruct Hs as [ph X c x Hc Hst|f x]; simpl; rewrite IH1.
  - rewrite Hc. split; [done|]. destruct IH2 as [->|(f & y & -> & Hin)]; [by left|right].
    exists f, y. split; [done|by constructor].
  - split; [done|]. right. destruct IH2 as [->|(g & y & -> & Hin)].
    + exists f, x. split; [done|constructor].
    + exists g, y. split; [done|by constructor].
Qed.

(** No execution of a fee estimation moves money or takes a lock, and a fee shown to the
    client is the protocol fee, in the currency of the wallet, of a payment flow
    handed to the repository, or of the flow that the repository returned for it. *)
Theorem probe_shows_stored_fee (cfg : Settings) (q : request) (tr : list event)
    (r : result (PartialResult PaymentAmount)) (He : exec (estimation cfg q) tr r) :
  existsb is_sensitive tr = false /\
  forall p fee, r = Ok p -> pr_result p = Some fee ->
    exists f x, Ev (FlowPersistNew f) x ∈ tr /\
      (fee = Flow.protocolFeeInSenderWalletCurrency f \/
       exists g, x = Ok g /\ fee = Flow.protocolFeeInSenderWalletCurrency g).
Proof.
  destruct (follows_exec _ _ _ _ _ _ (estimation_follows cfg q) He) as (ph & Hp & Ho).
  destruct (path_spec _ _ _ Hp) as [Hq Hph]. split; [done|].
  intros p fee -> Hfee. simpl in Ho. rewrite Hfee in Ho. destruct Ho as (f & x & -> & Hf).
  destruct Hph as [?|(f' & x' & [= -> ->] & Hin)]; [done|]. by exists f', x'.
Qed.

(** *** A probe of 10,000 sats over a route of 20 sats *)

Definition probe_cfg : Settings :=
  let c := PaymentClaims.sample_settings in
  mkSettings (set_now c) (set_limits c) (set_pubkeysToSkipProbe c) (set_mid c) (set_hedgeBuyUsd c)
    (set_hedgeSellUsd c) (set_futureBuyUsd c) (set_futureSellUsd c)
    (fun _ => Ok PaymentClaims.sample_invoice).

Definition probe_env (X : Type) (c : call X) : X :=
  match c in call X return X with
  | LndFindRouteForInvoice _ _ => Ok ("pk", mkRoute (num 20) (Some "10020000"))
  | c => PaymentClaims.sample_env _ c
  end.

Definition sample_probe : list event * result (PartialResult PaymentAmount) :=
  run probe_env (estimation probe_cfg (WithAmount PaymentClaims.sample_uuid "lnbc1")).

Lemma probe_shows_stored_fee_witness :
  snd sample_probe = Ok (partial_ok (mkAmount 1 Usd)) /\ existsb is_sensitive (fst sample_probe) = false.
Proof.
  split; [vm_compute; reflexivity|].
  exact (proj1 (probe_shows_stored_fee probe_cfg (WithAmount PaymentClaims.sample_uuid "lnbc1")
    (fst sample_probe) (snd sample_probe) (run_exec _ _))).
Defined.

End FeeProbeSpec.
