(* ===== verification/OnChain.v ===== *)
(** * On-chain payments

    The domain of [lib/domain/bitcoin/onchain] (addresses, filters and sums of incoming
    transactions) and the handlers of [lib/app/wallets] that send
    ([send-on-chain.js], [get-on-chain-fee.js], [private/check-limit-helpers.js]) and
    receive ([update-on-chain-receipt.js], [get-pending-onchain-balance-for-wallet.js]). *)

From S2P Require Import Prelude JsNum Errors Money Regex Ledger PaymentFlow Validation Accounts TxMetadata Facade LedgerService LedgerWrites Programs Effects Payments.
From Stdlib Require Import Ascii.
From stdpp Require Import gmap strings.
Import AmountCalculator CheckedAmounts.
#[local] Open Scope string_scope.
#[local] Open Scope Z_scope.
#[local] Open Scope list_scope.

(** ** [domain/bitcoin/onchain/index.js] *)

Inductive BtcNetwork : Type := mainnet | testnet | signet | regtest.

(** [[a-km-zA-HJ-NP-Z1-9]]: letters and digits but 0, l, I and O. *)
Definition base58_char (c : ascii) : bool :=
  in_range "a" "k" c || in_range "m" "z" c || in_range "A" "H" c || in_range "J" "N" c
  || in_range "P" "Z" c || in_range "1" "9" c.
(** [[a-z0-9]] under the [i] flag. *)
Definition alnum_nocase (c : ascii) : bool := nocase (in_range "a" "z") c || in_range "0" "9" c.

Definition legacy_address (first : ascii -> bool) : regex :=
  Cat (Cls first) (rep 26 8 (Cls base58_char)).
Definition bech32_address (prefix : string) : regex :=
  Cat (lit_nocase prefix) (rep 39 20 (Cls alnum_nocase)).

Definition address_regexes (network : BtcNetwork) : list regex :=
  let one_of l := legacy_address (fun c => existsb (Ascii.eqb c) l) in
  match network with
  | mainnet => [one_of ["1"; "3"]%char; bech32_address "bc1"]
  | testnet | signet => [one_of ["m"; "n"; "2"]%char; bech32_address "tb1"]
  | regtest => [bech32_address "bcrt1"]
  end.

Definition checkedToOnChainAddress (network : BtcNetwork) (value : string) : result string :=
  if existsb (fun r => accepts r value) (address_regexes network) then Ok value
  else Er (new InvalidOnChainAddress).

(** One month as the greatest scan depth. *)
Definition checkedToScanDepth (value : number) : result number :=
  if num_truthy value && num_ltb (num 0) value && (num_ltb value (num 4380) || num_eqb value (num 4380)) then Ok value
  else Er (new InvalidScanDepthAmount).

Definition nonempty_address (o : TxOut) : option string :=
  match out_address o with Some (String _ _ as a) => Some a | _ => None end.

Definition includes (a : string) (l : list string) : bool := existsb (String.eqb a) l.

Definition uniqueAddressesForTxn (tx : OnChainTx) : list string :=
  fold_left (fun acc o => match nonempty_address o with
                          | Some a => if includes a acc then acc else acc ++ [a]
                          | None => acc
                          end) (oct_outs tx) [].

(** ** [tx-filter.js] *)

Record TxFilter : Type := mkTxFilter {
  confirmationsLessThan : option number;
  confirmationsGreaterThanOrEqual : option number;
  filter_addresses : option (list string)
}.

Definition opt_number (o : option number) : option number :=
  match o with Some n => if num_truthy n then o else None | None => None end.

Definition tx_passes (f : TxFilter) (tx : OnChainTx) : bool :=
  negb (match opt_number (confirmationsGreaterThanOrEqual f) with
        | Some n => num_ltb (oct_confirmations tx) n
        | None => false
        end)
  && negb (match opt_number (confirmationsLessThan f) with
           | Some n => num_ltb n (oct_confirmations tx) || num_eqb n (oct_confirmations tx)
           | None => false
           end)
  && match filter_addresses f with
     | Some l => existsb (fun o => match out_address o with
                                   | Some a => includes a l
                                   | None => false
                                   end) (oct_outs tx)
     | None => true
     end.

Definition filter_apply (f : TxFilter) (txs : list OnChainTx) : list OnChainTx :=
  List.filter (tx_passes f) txs.

(** ** [incoming-tx-handler.js]: objects keyed by addresses and by wallets *)

Abbreviation balances := (gmap string PaymentAmount).

Definition balance_add (key : string) (a : PaymentAmount) (m : balances) : balances :=
  <[key := add (default ZERO_SATS (m !! key)) a]> m.

Fixpoint balance_outs (outs : list TxOut) (m : balances) : result balances :=
  match outs with
  | [] => Ok m
  | o :: outs =>
      match nonempty_address o with
      | None => balance_outs outs m
      | Some address =>
          let* outAmount := paymentAmountFromNumber (Some (out_sats o)) Btc in
          balance_outs outs (balance_add address outAmount m)
      end
  end.

Definition balanceFromIncomingTx (tx : OnChainTx) : result balances := balance_outs (oct_outs tx) ∅.

Fixpoint merge_balances (l : list (result balances)) (acc : balances) : result balances :=
  match l with
  | [] => Ok acc
  | r :: l => let* m := r in merge_balances l (map_fold balance_add acc m)
  end.

Definition balancesByAddresses (txns : list OnChainTx) : result balances :=
  merge_balances (map balanceFromIncomingTx txns) ∅.

(** The sum of the balances of the addresses of a wallet. *)
Definition wallet_sum (w : AddressedWallet) (m : balances) : PaymentAmount :=
  map_fold (fun address a acc => if includes address (aw_onChainAddresses w) then add acc a else acc)
    ZERO_SATS m.

Definition balanceByWallet (txns : list OnChainTx) (wallets : list AddressedWallet)
    : result balances :=
  let* m := balancesByAddresses txns in
  Ok (fold_left (fun acc w => <[w_id (aw_wallet w) := wallet_sum w m]> acc) wallets ∅).

(** ** Settings *)

(** The configuration the handlers read, and the time. *)
Record OnChainConfig : Type := mkOnChainConfig {
  oc_now : Z;
  oc_limits : LimitsConfig;
  oc_network : BtcNetwork;
  oc_dustThreshold : number;
  oc_withdrawRatio : number;
  oc_withdrawThreshold : number;
  oc_withdrawMethod : WithdrawalFeePriceMethod;
  oc_withdrawDaysLookback : Z;
  oc_withdrawDefaultMin : number;
  oc_minConfirmations : number
}.

Section Handlers.
Context (cfg : OnChainConfig).

(** ** [private/check-limit-helpers.js] *)

(** The amount and the outgoing volume in cents. *)
Definition limitCheckWithCurrencyConversion (price : number) (walletCurrency : WalletCurrency)
    (check : number -> number -> result unit) (amt : number) (walletVolume : Volume) : result unit :=
  match walletCurrency with
  | Usd => check amt (outgoingBaseAmount walletVolume)
  | Btc => check (fromSatsToCents price amt)
             (fromSatsToCents price (outgoingBaseAmount walletVolume))
  end.

Definition check_onchain_limits (group : TxnGroup) (check : AccountLimits -> number -> number -> result unit)
    (amt : number) (wallet : Wallet) (account : Account) (price : number) : prog (result unit) :=
  let limits := getAccountLimits (oc_limits cfg) (acc_level account) in
  await timestamp1DayAgo <- Ret (timestampDaysAgo (oc_now cfg) ONE_DAY) ;;
  await walletVolume <- do_call (LedgerTxVolumeSince group (w_id wallet) timestamp1DayAgo) ;;
  Ret (limitCheckWithCurrencyConversion price (w_currency wallet) (check limits) amt walletVolume).

Definition checkIntraledgerLimits : number -> Wallet -> Account -> number -> prog (result unit) :=
  check_onchain_limits intraledgerTxBaseVolumeSince legacy_checkIntraledger.
Definition checkWithdrawalLimits : number -> Wallet -> Account -> number -> prog (result unit) :=
  check_onchain_limits externalPaymentVolumeSince legacy_checkWithdrawal.

(** ** [imbalance-calculator.js], with the volumes of the ledger *)

Definition net_inbound (group : TxnGroup) (walletId : string) : prog (result number) :=
  let since := oc_now cfg - oc_withdrawDaysLookback cfg * MS_PER_DAY in
  await volume <- do_call (LedgerTxVolumeSince group walletId since) ;;
  Ret (Ok (num_sub (incomingBaseAmount volume) (outgoingBaseAmount volume))).

Definition swapOutImbalance (walletId : string) : prog (result number) :=
  match oc_withdrawMethod cfg with
  | flat => Ret (Ok (num 0))
  | proportionalOnImbalance =>
      await lnNetInbound <- net_inbound lightningTxBaseVolumeSince walletId ;;
      await onChainNetInbound <- net_inbound onChainTxBaseVolumeSince walletId ;;
      Ret (Ok (num_sub lnNetInbound onChainNetInbound))
  end.

Definition withdrawalFee (minerFee amt minBankFee imbalance : number) : OnChainFees.withdrawal_fee :=
  OnChainFees.onChainWithdrawalFee (oc_withdrawThreshold cfg) (oc_withdrawRatio cfg)
    minerFee amt minBankFee imbalance.

(** ** [get-on-chain-fee.js]; the messages with amounts are left out *)

Definition getOnChainFee (walletId : string) (account : Account) (amt : option number)
    (address : string) (targetConfirmations : option number) : prog (result number) :=
  await amountChecked <- Ret (checkedToSats amt) ;;
  await targetConfsChecked <- Ret (checkedToTargetConfs targetConfirmations) ;;
  await walletIdChecked <- Ret (checkedToWalletId walletId) ;;
  await wallet <- do_call (WalletFindById walletIdChecked) ;;
  let minBankFee := acc_withdrawFee account in
  let! payeeWallet <- do_call (WalletFindByAddress address) ;;
  let on_chain : prog (result number) :=
    if num_ltb amountChecked (oc_dustThreshold cfg) then Ret (Er (new LessThanDustThresholdError))
    else
      await balance <- do_call (LedgerBalance (w_id wallet)) ;;
      if num_ltb balance amountChecked
      then Ret (Er (new_msg InsufficientBalanceError "Balance is too low"))
      else
        await _ <- do_call OnChainService ;;
        await minerFee <- do_call (OnChainGetFeeEstimate amountChecked address targetConfsChecked) ;;
        await imbalance <- swapOutImbalance walletId ;;
        Ret (Ok (OnChainFees.totalFee (withdrawalFee minerFee amountChecked minBankFee imbalance))) in
  match payeeWallet with
  | Throw e => Ret (Throw e)
  | Er e =>
      if is_a e UnknownRepositoryError then Ret (Er e)
      else if is_a e CouldNotFindWalletFromOnChainAddressError then on_chain
      else Ret (Ok OnChainFees.onChainIntraLedgerFee)
  | Ok _ => Ret (Ok OnChainFees.onChainIntraLedgerFee)
  end.

(** ** [send-on-chain.js] *)

(** [validatePaymentInput] without a recipient, the wallet read from the repository. *)
Definition validate_input (amt : option number) (uncheckedSenderWalletId : string)
    (senderAccount : Account) : prog (result (number * Wallet)) :=
  await validAmount <- Ret (checkedToCurrencyBaseAmount amt) ;;
  if decide (acc_status senderAccount <> StatusActive)
  then Ret (Er (new_msg InactiveAccountError (acc_id senderAccount)))
  else
    await senderWalletId <- Ret (checkedToWalletId uncheckedSenderWalletId) ;;
    await senderWallet <- do_call (WalletFindById senderWalletId) ;;
    if negb (String.eqb (w_accountId senderWallet) (acc_id senderAccount))
    then Ret (Er (new InvalidWalletId))
    else Ret (Ok (validAmount, senderWallet)).

(** The section of the transfer under the lock of the wallet. *)
Definition intraledger_body (senderAccount : Account) (senderWallet recipientWallet : Wallet)
    (recipientAccount : Account) (amt : number) (address : string) (memo : option string)
    (sendAll : bool) (amountDisplayCurrency : number) : prog (result PaymentSendStatus) :=
  await balance <- do_call (LedgerBalance (w_id senderWallet)) ;;
  if num_ltb balance amt then Ret (Er (new InsufficientBalanceError))
  else
    unless_aborted (
      await _ <- do_call (LedgerAddOnChainIntraledger
        (mkIntraTransfer (descriptor senderWallet) (acc_username senderAccount) "" (Some amt) None
           (descriptor recipientWallet) (acc_username recipientAccount) (memo_or_undefined memo))
        amountDisplayCurrency [address] sendAll) ;;
      await recipientUser <- do_call (UserFindById (acc_ownerId recipientAccount)) ;;
      match BigInt amt with
      | None => Ret (Throw (new JsRangeError))
      | Some sats =>
          let! _ <- do_call (NotifyTxReceived (w_accountId recipientWallet) (w_id recipientWallet)
                               (mkAmount sats (w_currency recipientWallet)) amountDisplayCurrency None
                               recipientUser) ;;
          Ret (Ok Success)
      end).

Definition onchainPaymentViaIntraledger (senderAccount : Account) (senderWallet recipientWallet : Wallet)
    (amt : number) (address : string) (memo : option string) (sendAll : bool)
    : prog (result PaymentSendStatus) :=
  if String.eqb (w_id recipientWallet) (w_id senderWallet) then Ret (Er (new SelfPaymentError))
  else if negb (bool_decide (w_currency recipientWallet = Btc) && bool_decide (w_currency senderWallet = Btc))
  then Ret (Er (new_msg NotImplementedError "USD intraledger"))
  else
    await displayCurrencyPerSat <- do_call GetCurrentPrice ;;
    await _ <- checkIntraledgerLimits amt senderWallet senderAccount displayCurrencyPerSat ;;
    await recipientAccount <- do_call (AccountFindById (w_accountId recipientWallet)) ;;
    lockWalletId (w_id senderWallet)
      (intraledger_body senderAccount senderWallet recipientWallet recipientAccount amt address memo
         sendAll (fromSats displayCurrencyPerSat amt)).

(** After the journal of the send: the node pays, and the journal is reverted when the
    node is known not to have paid. *)
Definition pay_to_address (jid address : string) (amountToSend targetConfirmations : number)
    : prog (result PaymentSendStatus) :=
  let! txHash <- do_call (OnChainPayToAddress address amountToSend targetConfirmations
                            ("journal-" +:+ jid)) ;;
  match txHash with
  | Throw e => Ret (Throw e)
  | Er e =>
      if is_a e InsufficientOnChainFundsError || is_a e CPFPAncestorLimitReachedError then
        await _ <- do_call (LedgerRevertOnChainPayment jid) ;;
        Ret (Er e)
      else Ret (Er e)
  | Ok hash =>
      await _ <- do_call (LedgerSetOnChainTxSendHash jid hash) ;;
      let! finalMinerFee <- do_call (OnChainLookupFee hash) ;;
      match finalMinerFee with
      | Throw e => Ret (Throw e)
      | _ => Ret (Ok Success)
      end
  end.

(** [senderAccount.withdrawFee || feeConfig.withdrawDefaultMin]. *)
Definition min_bank_fee (senderAccount : Account) : number :=
  if num_truthy (acc_withdrawFee senderAccount) then acc_withdrawFee senderAccount
  else oc_withdrawDefaultMin cfg.

(** The section of the send under the lock of the wallet; [estimate] is
    [getFeeEstimate]. *)
Definition onchain_body (senderWallet : Wallet) (senderAccount : Account)
    (estimate : prog (result number)) (amountToSend : number) (address : string)
    (targetConfirmations : number) (memo : option string) (sendAll : bool) (price : number)
    : prog (result PaymentSendStatus) :=
  await balance <- do_call (LedgerBalance (w_id senderWallet)) ;;
  await estimatedFee <- estimate ;;
  if num_ltb balance (num_add amountToSend estimatedFee) then Ret (Er (new InsufficientBalanceError))
  else
    unless_aborted (
      await imbalance <- swapOutImbalance (w_id senderWallet) ;;
      await minerFee <- do_call (OnChainGetFeeEstimate amountToSend address targetConfirmations) ;;
      let fees := withdrawalFee minerFee amountToSend (min_bank_fee senderAccount) imbalance in
      let sats := num_add amountToSend (OnChainFees.totalFee fees) in
      let! temporaryHash <- do_call RandomSecret ;;
      await journal <- do_call (LedgerAddOnChainTxSend
        (mkOnChainSend (w_id senderWallet) (w_currency senderWallet) temporaryHash address
           (or_default memo "") sats (OnChainFees.bankFee fees) (fromSats price sats)
           (OnChainFees.totalFee fees) (fromSats price (OnChainFees.totalFee fees)) sendAll)) ;;
      pay_to_address (journalId journal) address amountToSend targetConfirmations).

Definition onchainPaymentViaOnChain (senderWallet : Wallet) (senderAccount : Account) (amt : number)
    (address : string) (targetConfirmations : number) (memo : option string) (sendAll : bool)
    : prog (result PaymentSendStatus) :=
  if negb (bool_decide (w_currency senderWallet = Btc))
  then Ret (Er (new_msg NotImplementedError "USD Intraledger"))
  else
    await _ <- do_call OnChainService ;;
    await displayCurrencyPerSat <- do_call GetCurrentPrice ;;
    await _ <- checkWithdrawalLimits amt senderWallet senderAccount displayCurrencyPerSat ;;
    let getFeeEstimate := getOnChainFee (w_id senderWallet) senderAccount (Some amt) address
                            (Some targetConfirmations) in
    await onChainAvailableBalance <- do_call OnChainGetBalance ;;
    await estimatedFee <- getFeeEstimate ;;
    let amountToSend := if sendAll then num_sub amt estimatedFee else amt in
    if num_ltb onChainAvailableBalance (num_add amountToSend estimatedFee)
    then Ret (Er (new RebalanceNeededError))
    else if num_ltb amountToSend (oc_dustThreshold cfg)
    then Ret (Er (new LessThanDustThresholdError))
    else
      lockWalletId (w_id senderWallet)
        (onchain_body senderWallet senderAccount getFeeEstimate amountToSend address targetConfirmations
           memo sendAll displayCurrencyPerSat).

Definition payOnChainByWalletId (senderAccount : Account) (senderWalletId : string)
    (amountRaw : option number) (address : string) (targetConfirmations : option number)
    (memo : option string) (sendAll : bool) : prog (result PaymentSendStatus) :=
  await checkedAmount <- (if sendAll then do_call (LedgerBalance senderWalletId)
                          else Ret (checkedToSats amountRaw)) ;;
  await (amt, senderWallet) <- validate_input (Some checkedAmount) senderWalletId senderAccount ;;
  await checkedAddress <- Ret (checkedToOnChainAddress (oc_network cfg) address) ;;
  await checkedTargetConfirmations <- Ret (checkedToTargetConfs targetConfirmations) ;;
  let! recipientWallet <- do_call (WalletFindByAddress checkedAddress) ;;
  match recipientWallet with
  | Throw e => Ret (Throw e)
  | Ok recipient =>
      onchainPaymentViaIntraledger senderAccount senderWallet recipient amt checkedAddress memo sendAll
  | Er _ =>
      onchainPaymentViaOnChain senderWallet senderAccount amt checkedAddress
        checkedTargetConfirmations memo sendAll
  end.

(** ** [update-on-chain-receipt.js] *)

(** One output for the wallet: recorded, then its owner is notified. *)
Definition receive_output (wallet : Wallet) (account : Account) (txHash : string) (price : number)
    (sats : number) (address : string) : prog (result unit) :=
  let fee := OnChainFees.onChainDepositFee sats (acc_depositFeeRatio account) in
  await _ <- do_call (LedgerAddOnChainTxReceive
    (mkOnChainReceive (w_id wallet) (w_currency wallet) txHash sats fee (fromSats price sats)
       (fromSats price fee) address)) ;;
  await recipientAccount <- do_call (AccountFindById (w_accountId wallet)) ;;
  await recipientUser <- do_call (UserFindById (acc_ownerId recipientAccount)) ;;
  match BigInt sats with
  | None => Ret (Throw (new JsRangeError))
  | Some z =>
      let! _ <- do_call (NotifyTxReceived (w_accountId wallet) (w_id wallet)
                           (mkAmount z (w_currency wallet)) (fromSats price sats) (Some txHash)
                           recipientUser) ;;
      Ret (Ok tt)
  end.

Fixpoint receive_outputs (wallet : AddressedWallet) (account : Account) (txHash : string)
    (price : number) (outs : list TxOut) : prog (result unit) :=
  match outs with
  | [] => Ret (Ok tt)
  | o :: outs =>
      match out_address o with
      | Some address =>
          if includes address (aw_onChainAddresses wallet) then
            await _ <- receive_output (aw_wallet wallet) account txHash price (out_sats o) address ;;
            receive_outputs wallet account txHash price outs
          else receive_outputs wallet account txHash price outs
      | None => receive_outputs wallet account txHash price outs
      end
  end.

Definition receive_tx_body (wallet : AddressedWallet) (tx : OnChainTx) (price : number)
    : prog (result unit) :=
  await recorded <- do_call (LedgerIsOnChainTxRecorded (w_id (aw_wallet wallet)) (oct_txHash tx)) ;;
  await account <- do_call (AccountFindById (w_accountId (aw_wallet wallet))) ;;
  if (recorded : bool) then Ret (Ok tt)
  else receive_outputs wallet account (oct_txHash tx) price (oct_outs tx).

Definition processTxForWallet (wallet : AddressedWallet) (tx : OnChainTx) : prog (result unit) :=
  await displayCurrencyPerSat <- do_call GetCurrentPrice ;;
  lockOnChainTxHash (oct_txHash tx) (receive_tx_body wallet tx displayCurrencyPerSat).

(** [tx.fee || await lookupTransactionFee(txHash)], an error being no fee. *)
Definition hot_wallet_fee (tx : OnChainTx) : prog (result number) :=
  if num_truthy (oct_fee tx) then Ret (Ok (oct_fee tx))
  else
    let! fee <- do_call (ColdStorageLookupFee (oct_txHash tx)) ;;
    match fee with
    | Er _ => Ret (Ok (num 0))
    | r => Ret r
    end.

(** The description, with the number of satoshis in it, is left out. *)
Definition record_hot_output (tx : OnChainTx) (price sats : number) (address : string)
    : prog (result unit) :=
  await fee <- hot_wallet_fee tx ;;
  let! journal <- do_call (LedgerAddColdStorageTxSend
    (mkColdStorageTx (oct_txHash tx) address "deposit to hot wallet" sats fee
       (fromSats price sats) (fromSats price fee))) ;;
  match journal with
  | Throw e => Ret (Throw e)
  | _ => Ret (Ok tt)
  end.

Fixpoint hot_outputs (tx : OnChainTx) (price : number) (outs : list TxOut) : prog (result unit) :=
  match outs with
  | [] => Ret (Ok tt)
  | o :: outs =>
      match nonempty_address o with
      | None => hot_outputs tx price outs
      | Some address =>
          let! isColdStorageAddress <- do_call (ColdStorageIsDerivedAddress address) ;;
          match isColdStorageAddress with
          | Throw e => Ret (Throw e)
          | Er _ | Ok true => hot_outputs tx price outs
          | Ok false =>
              await _ <- record_hot_output tx price (out_sats o) address ;;
              hot_outputs tx price outs
          end
      end
  end.

Definition processTxForHotWallet (tx : OnChainTx) : prog (result unit) :=
  await _ <- do_call ColdStorageService ;;
  await isFromColdStorage <- do_call (ColdStorageIsWithdrawal (oct_txHash tx)) ;;
  if negb (isFromColdStorage : bool) then Ret (Ok tt)
  else
    await displayCurrencyPerSat <- do_call GetCurrentPrice ;;
    lockOnChainTxHash (oct_txHash tx) (
      await recorded <- do_call (LedgerIsToHotWalletTxRecorded (oct_txHash tx)) ;;
      if (recorded : bool) then Ret (Ok tt)
      else hot_outputs tx displayCurrencyPerSat (oct_outs tx)).

(** Errors are logged; a rejection ends the loop. *)
Definition logged (p : prog (result unit)) (k : prog (result unit)) : prog (result unit) :=
  let! r <- p ;;
  match r with Throw e => Ret (Throw e) | _ => k end.

Fixpoint receive_for_wallets (tx : OnChainTx) (wallets : list AddressedWallet) (k : prog (result unit))
    : prog (result unit) :=
  match wallets with
  | [] => k
  | w :: wallets => logged (processTxForWallet w tx) (receive_for_wallets tx wallets k)
  end.

Fixpoint receive_txs (txs : list OnChainTx) : prog (result unit) :=
  match txs with
  | [] => Ret (Ok tt)
  | tx :: txs =>
      if num_ltb (oct_confirmations tx) (oc_minConfirmations cfg) then receive_txs txs
      else
        let! wallets <- do_call (WalletListByAddresses (uniqueAddressesForTxn tx)) ;;
        match wallets with
        | Throw e => Ret (Throw e)
        | Er e =>
            if is_a e CouldNotFindWalletFromOnChainAddressesError
            then logged (processTxForHotWallet tx) (receive_txs txs)
            else receive_txs txs
        | Ok wallets => receive_for_wallets tx wallets (receive_txs txs)
        end
  end.

(** The transactions are also put in the cache. *)
Definition updateOnChainReceipt (scanDepth : number) : prog (result nat) :=
  let! onChain <- do_call OnChainService ;;
  let continue :=
    await onChainTxs <- do_call (OnChainListIncoming scanDepth) ;;
    await _ <- receive_txs onChainTxs ;;
    Ret (Ok (length onChainTxs)) in
  match onChain with
  | Er e => if is_a e OnChainError then Ret (Er e) else Ret (Throw (new JsTypeError))
  | Throw e => Ret (Throw e)
  | Ok _ => continue
  end.

(** ** [get-pending-onchain-balance-for-wallet.js]; [onChainTxs] is the answer of
    [getOnChainTxs]: the transactions of the cache, or of the node. *)
Definition getPendingOnChainBalanceForWallets (onChainTxs : result (list OnChainTx))
    (wallets : list AddressedWallet) : result balances :=
  let* txs := onChainTxs in
  let filter := mkTxFilter (Some (oc_minConfirmations cfg)) None
                  (Some (wallets ≫= aw_onChainAddresses)) in
  balanceByWallet (filter_apply filter txs) wallets.

End Handlers.
