(* ===== verification/Scalars.v ===== *)
(** * Scalars of the interface

    [lib/graphql/types/scalar]: what the arguments of a request are read as.  A scalar reads
    the value of a variable ([parseValue]) or a literal of the query ([parseLiteral]); what it
    refuses is an [InputValidationError], which is handed to the resolver as the argument.

    A scalar reads what it gave back, a value it accepts passes the check that the handlers
    make again, and the amounts it accepts are the integers up to the maximum.  Strings are
    sequences of bytes. *)

From Stdlib Require Import Ascii.
From stdpp Require Import strings pretty.
From S2P Require Import Prelude JsNum Errors Money Regex PaymentFlow Validation Accounts TxMetadata Facade LedgerService LedgerWrites RateLimit Programs Effects Persistence Payments OnChain.
#[local] Open Scope string_scope.
#[local] Open Scope Z_scope.
#[local] Open Scope list_scope.

(** ** Values *)

(** The value of a variable: a string, a number, or one of another type. *)
Inductive js_value : Type :=
| VString (s : string)
| VNumber (n : number)
| VOther.

(** A literal of a query, by its kind. *)
Inductive literal : Type :=
| LString (s : string)
| LInt (digits : string)
| LOther.

(** An argument as the resolver gets it: the value, or the [InputValidationError] with its
    message. *)
Inductive input (A : Type) : Type :=
| Valid (a : A)
| Invalid (message : string).
Arguments Valid {A} a.
Arguments Invalid {A} message.

Record Scalar (A : Type) : Type := mkScalar {
  parseValue : js_value -> input A;
  parseLiteral : literal -> input A
}.
Arguments parseValue {A} s v.
Arguments parseLiteral {A} s l.

(** Most scalars read strings, and have one message for a value of another type and one for
    a literal of another kind. *)
Definition string_scalar (badValue badLiteral : string) (valid : string -> input string) : Scalar string :=
  mkScalar string
    (fun v => match v with VString s => valid s | _ => Invalid badValue end)
    (fun l => match l with LString s => valid s | _ => Invalid badLiteral end).

(** The value of a check of the domain, with another message. *)
Definition or_invalid {A} (message : string) (r : result A) : input A :=
  match r with Ok a => Valid a | _ => Invalid message end.

(** An amount that was refused and is used all the same: an object, which is not a number. *)
Definition unchecked_number (x : input number) : number :=
  match x with Valid n => n | Invalid _ => NaN end.

Definition toLowerCase (s : string) : string := Usernames.str_map to_lower s.

(** ** Identifiers and names *)

Definition validWalletIdValue (value : string) : input string :=
  or_invalid "Invalid value for WalletId" (checkedToWalletId value).
Definition WalletId : Scalar string :=
  string_scalar "Invalid type for WalletId" "Invalid type for WalletId" validWalletIdValue.

Definition validUsernameValue (value : string) : input string :=
  if UsernameRegex value then Valid (toLowerCase value) else Invalid "Invalid value for Username".
Definition Username : Scalar string :=
  string_scalar "Invalid type for Username" "Invalid type for Username" validUsernameValue.

Definition validPhoneValue (value : string) : input string :=
  or_invalid "Invalid value for Phone" (checkedToPhoneNumber value).
Definition Phone : Scalar string :=
  string_scalar "Invalid type for Phone" "Invalid type for Phone" validPhoneValue.

Definition validLanguageValue (value : string) : input string :=
  if String.eqb value "" || String.eqb value "DEFAULT" then Valid ""
  else if existsb (String.eqb value) Languages then Valid value
  else Invalid "Invalid value for Language".
Definition Language : Scalar string :=
  string_scalar "Invalid type for OnChainTxHash" "Invalid type for Language" validLanguageValue.

(** [/^[0-9]{6}/i]: six digits, and whatever follows. *)
Definition code_regex : regex := Cat (exactly 6 (Cls is_digit)) (Star any_char).
Definition validOneTimeAuthCodeValue (value : string) : input string :=
  if accepts code_regex value then Valid (toLowerCase value)
  else Invalid "Invalid value for OneTimeAuthCode".
Definition OneTimeAuthCode : Scalar string :=
  string_scalar "Invalid type for OneTimeAuthCode" "Invalid type for OneTimeAuthCode"
    validOneTimeAuthCodeValue.

(** What is shown of a token; it is never read. *)
Definition serializeAuthToken (value : js_value) : string :=
  match value with
  | VString s => if Nat.eqb (String.length s) 32 then s else "Invalid value for AuthToken"
  | _ => "Invalid value for AuthToken"
  end.

(** ** Hashes and payments *)

Definition valid_sha256 (message value : string) : input string :=
  if isSha256Hash value then Valid value else Invalid message.

Definition validPaymentHash := valid_sha256 "Invalid value for PaymentHash".
Definition PaymentHash : Scalar string :=
  string_scalar "Invalid type for PaymentHash" "Invalid type for PaymentHash" validPaymentHash.

Definition validOnChainTxHash := valid_sha256 "Invalid value for OnChainTxHash".
Definition OnChainTxHash : Scalar string :=
  string_scalar "Invalid type for OnChainTxHash" "Invalid type for OnChainTxHash" validOnChainTxHash.

Definition validLnPaymentPreImage := valid_sha256 "Invalid value for LnPaymentPreImage".
Definition LnPaymentPreImage : Scalar string :=
  string_scalar "Invalid type for LnPaymentPreImage" "Invalid type for LnPaymentPreImage"
    validLnPaymentPreImage.

Definition validLnPaymentSecret := valid_sha256 "Invalid value for LnPaymentSecret".
Definition LnPaymentSecret : Scalar string :=
  string_scalar "Invalid type for LnPaymentSecret" "Invalid type for LnPaymentSecret"
    validLnPaymentSecret.

Definition validLnPubkey (value : string) : input string :=
  or_invalid "Invalid value for LnPubkey" (checkedToPubkey value).
Definition LnPubkey : Scalar string :=
  string_scalar "Invalid type for LnPubkey" "Invalid type for LnPubkey" validLnPubkey.

(** [/^ln[a-z0-9]+$/i] *)
Definition payment_request_regex : regex := Cat (lit_nocase "ln") (one_or_more (Cls alnum_nocase)).
Definition validLnPaymentRequest (value : string) : input string :=
  if accepts payment_request_regex value then Valid value
  else Invalid "Invalid value for LnPaymentRequest".
Definition LnPaymentRequest : Scalar string :=
  string_scalar "Invalid type for LnPaymentRequest" "Invalid type for LnPaymentRequest"
    validLnPaymentRequest.

Definition validOnChainAddressValue (network : BtcNetwork) (value : string) : input string :=
  or_invalid "Invalid value for OnChainAddress" (checkedToOnChainAddress network value).
Definition OnChainAddress (network : BtcNetwork) : Scalar string :=
  string_scalar "Invalid type for OnChainAddress" "Invalid type for OnChainAddress"
    (validOnChainAddressValue network).

Definition MAX_BYTES_FOR_MEMO : nat := 639.
Definition validMemo (value : string) : input string :=
  if Nat.leb (String.length value) MAX_BYTES_FOR_MEMO then Valid value else Invalid "Memo is too long".
Definition Memo : Scalar string :=
  string_scalar "Invalid type for Memo" "Invalid type for Memo" validMemo.

(** *** Thirty-two bytes in hexadecimal *)

Definition hex_digit (c : ascii) : option N :=
  if is_digit c then Some (N_of_ascii c - 48)%N
  else if in_range "a" "f" (to_lower c) then Some (N_of_ascii (to_lower c) - 87)%N else None.
Definition hex_char (n : N) : ascii :=
  if (n <? 10)%N then ascii_of_N (n + 48) else ascii_of_N (n + 87).

(** [Buffer.from(s, "hex")]: the bytes of the pairs of digits, up to the first that is not
    one. *)
Fixpoint bytes_of_hex (s : string) : list N :=
  match s with
  | String a (String b s') =>
      match hex_digit a, hex_digit b with
      | Some x, Some y => (16 * x + y)%N :: bytes_of_hex s'
      | _, _ => []
      end
  | _ => []
  end.
(** [bytes.toString("hex")]. *)
Fixpoint hex_of_bytes (l : list N) : string :=
  match l with
  | [] => ""
  | b :: l' => String (hex_char (b / 16)) (String (hex_char (b mod 16)) (hex_of_bytes l'))
  end.

Definition validHex32Bytes (value : string) : input string :=
  let bytes := bytes_of_hex value in
  if negb (String.eqb (hex_of_bytes bytes) value) then Invalid "Hex32Bytes is not valid hex"
  else if negb (Nat.eqb (length bytes) 32) then Invalid "Hex32Bytes is not 32 bytes"
  else Valid value.
Definition Hex32Bytes : Scalar string :=
  string_scalar "Invalid type for Hex32Bytes" "Invalid type for Hex32Bytes" validHex32Bytes.

(** ** Amounts *)

(** A string or a number. *)
Definition amount_scalar (badType : string) (valid : string + number -> input number) : Scalar number :=
  mkScalar number
    (fun v => match v with
              | VString s => valid (inl s)
              | VNumber n => valid (inr n)
              | VOther => Invalid badType
              end)
    (fun l => match l with LInt digits => valid (inl digits) | _ => Invalid badType end).

(** [Math.trunc] *)
Definition Math_trunc (x : number) : number :=
  match x with Fin q => num (if Q_neg q then Qceiling q else Qfloor q) | _ => x end.

Definition within_max (name : string) (max : Z) (intValue : number) : input number :=
  if negb (isInteger intValue && num_leb (num 0) intValue) then Invalid ("Invalid value for " +:+ name)
  else if num_gt_bigint intValue max then Invalid ("Value too big for " +:+ name)
  else Valid intValue.

(** A fraction of a satoshi is dropped, which is reported to the tracing library. *)
Definition validSatAmount (value : string + number) : input number :=
  let intValue := match value with inr n => Math_trunc n | inl s => parseInt10 s end in
  within_max "SatAmount" (amount MAX_SATS) intValue.
Definition SatAmount : Scalar number := amount_scalar "Invalid type for SatAmount" validSatAmount.

Definition validCentAmount (value : string + number) : input number :=
  let intValue := match value with inr n => n | inl s => parseInt10 s end in
  within_max "CentAmount" (amount MAX_CENTS) intValue.
Definition CentAmount : Scalar number := amount_scalar "Invalid type for CentAmount" validCentAmount.

(** The string is handed on as it is. *)
Definition validSignedAmount (value : string) : input string :=
  if isInteger (parseInt10 value) then Valid value else Invalid "Invalid value for SignedAmount".
Definition SignedAmount : Scalar string :=
  mkScalar string
    (fun v => match v with VString s => validSignedAmount s | _ => Invalid "Invalid type for SignedAmount" end)
    (fun l => match l with LInt s => validSignedAmount s | _ => Invalid "Invalid type for SignedAmount" end).

(** A number is written as a string before it is read. *)
Definition validTargetConfirmations (num_toString : number -> string) (value : string + number) : input number :=
  let valueAsString := match value with inl s => s | inr n => num_toString n end in
  or_invalid "Invalid value for TargetConfirmations" (checkedToTargetConfs (Some (parseInt10 valueAsString))).
Definition TargetConfirmations (num_toString : number -> string) : Scalar number :=
  amount_scalar "Invalid type for TargetConfirmations" (validTargetConfirmations num_toString).

(** *** Integers of 53 bits *)

Definition MAX_INT : number := num (2 ^ 53 - 1).
Definition MIN_INT : number := num (1 - 2 ^ 53).

(** [None] when a [ValidationInternalError] is raised; [Number(value) !== value] for every
    value that is not a number, and for NaN. *)
Definition coerceSafeInt (value : js_value) : option number :=
  match value with
  | VNumber n =>
      if negb (num_eqb n n) || num_ltb MAX_INT n || num_ltb n MIN_INT then None
      else if negb (num_eqb (Math_floor n) n) then None
      else Some (Math_floor n)
  | _ => None
  end.

(** [null] for a literal of another kind or out of the range. *)
Definition parseSafeInt (ast : literal) : option number :=
  match ast with
  | LInt digits =>
      let n := parseInt10 digits in
      if num_leb n MAX_INT && num_leb MIN_INT n then Some n else None
  | _ => None
  end.

(** ** Properties *)

Module ScalarsSpec.

(** *** Strings *)

(** A check that gives a value it accepts. *)
Definition stable (valid : string -> input string) : Prop :=
  forall v w, valid v = Valid w -> valid w = Valid w.

(** The scalars that read strings. *)
Definition string_checks (network : BtcNetwork) : list (string -> input string) :=
  [validWalletIdValue; validUsernameValue; validPhoneValue; validLanguageValue;
   validOneTimeAuthCodeValue; validPaymentHash; validOnChainTxHash; validLnPaymentPreImage;
   validLnPaymentSecret; validLnPubkey; validLnPaymentRequest; validOnChainAddressValue network;
   validMemo; validHex32Bytes].

(** A check that gives the string it is given. *)
Definition unchanged (valid : string -> input string) : Prop :=
  forall v w, valid v = Valid w -> w = v.

Lemma unchanged_stable valid : unchanged valid -> stable valid.
Proof. intros H v w Hv. pose proof (H _ _ Hv) as ->. exact Hv. Qed.

(** A check that is a test of the string. *)
Ltac by_test := intros v w Hv; unfold or_invalid in Hv; repeat case_match; simplify_eq; done.

Lemma username_lower v : UsernameRegex (toLowerCase v) = UsernameRegex v.
Proof.
  apply eq_true_iff_eq. unfold toLowerCase.
  rewrite !Usernames.UsernameRegex_spec, Usernames.length_str_map, Usernames.str_forall_lower.
  unfold Usernames.reserved, Usernames.starts_with. by rewrite Usernames.str_map_lower_idem.
Qed.

Lemma lower_stable (test : string -> bool) m :
  (forall v, test (toLowerCase v) = test v) ->
  stable (fun v => if test v then Valid (toLowerCase v) else Invalid m).
Proof.
  intros Ht v w. destruct (test v) eqn:Hv; intros [= <-]. rewrite Ht, Hv.
  unfold toLowerCase. by rewrite Usernames.str_map_lower_idem.
Qed.

(** The derivatives of the pattern of codes see digits only. *)
Lemma digit_lower c : is_digit (to_lower c) = is_digit c.
Proof. by destruct c as [[] [] [] [] [] [] [] []]. Qed.

Fixpoint starts_with_digits (n : nat) (s : string) : bool :=
  match n, s with
  | O, _ => true
  | S n', String c s' => is_digit c && starts_with_digits n' s'
  | S _, EmptyString => false
  end.

Lemma any_accepted s : accepts (Star any_char) s = true.
Proof. apply accepts_spec, Usernames.star_any. Qed.

Lemma cat_digits n s : matches (Cat (exactly n (Cls is_digit)) (Star any_char)) s <->
  starts_with_digits n s = true.
Proof.
  revert s. induction n as [|n IH]; intros s; simpl.
  - split; [done|]. intros _. change s with ("" +:+ s). constructor; [constructor|apply Usernames.star_any].
  - split.
    + intros H. inversion H as [| |? ? a b Ha Hb| | | |]; subst.
      inversion Ha as [| |? ? a1 a2 Ha1 Ha2| | | |]; subst.
      inversion Ha1 as [|? x Hx| | | | |]; subst.
      change ((String x "" +:+ a2) +:+ b) with (String x (a2 +:+ b)). simpl.
      rewrite Hx. apply IH. by constructor.
    + destruct s as [|c s]; [done|]. rewrite andb_true_iff. intros [Hc Hs].
      apply IH in Hs. inversion Hs as [| |? ? a b Ha Hb| | | |]; subst.
      change (String c (a +:+ b)) with ((String c "" +:+ a) +:+ b).
      constructor; [|done]. constructor; [|done]. by constructor.
Qed.

Lemma code_spec v : accepts code_regex v = starts_with_digits 6 v.
Proof. apply eq_true_iff_eq. rewrite accepts_spec. apply cat_digits. Qed.

Lemma digits_lower n s : starts_with_digits n (toLowerCase s) = starts_with_digits n s.
Proof.
  revert s. induction n as [|n IH]; intros [|c s]; simpl; try done.
  rewrite digit_lower. f_equal. apply IH.
Qed.

Lemma language_stable : stable validLanguageValue.
Proof.
  intros v w. unfold validLanguageValue. destruct (_ || _) eqn:He; [by intros [= <-]|].
  destruct (existsb _ _) eqn:Hl; [|done]. intros [= <-]. by rewrite He, Hl.
Qed.

Lemma checks_stable network : Forall stable (string_checks network).
Proof.
  repeat (apply Forall_cons; split); [..|done].
  all: try (apply unchanged_stable;
    unfold unchanged, validWalletIdValue, validPhoneValue, validLnPubkey, validOnChainAddressValue,
      validPaymentHash, validOnChainTxHash, validLnPaymentPreImage, validLnPaymentSecret, valid_sha256,
      checkedToWalletId, checkedToPhoneNumber, checkedToPubkey, checkedToOnChainAddress,
      validLnPaymentRequest, validMemo, validHex32Bytes; by_test).
  - apply (lower_stable UsernameRegex), username_lower.
  - apply language_stable.
  - apply (lower_stable (accepts code_regex)). intros v. rewrite !code_spec. apply digits_lower.
Qed.

(** Whether a value is read from a variable or from the query, and whether it is what the
    scalar gave or what was sent, it is read alike. *)
Theorem scalars_stable (network : BtcNetwork) (valid : string -> input string)
    (badValue badLiteral v w : string) (Hin : valid ∈ string_checks network) :
  let s := string_scalar badValue badLiteral valid in
  parseLiteral s (LString v) = parseValue s (VString v) /\
  (parseValue s (VString v) = Valid w -> parseValue s (VString w) = Valid w).
Proof.
  simpl. split; [done|]. pose proof (checks_stable network) as H.
  rewrite Forall_forall in H. by apply H.
Qed.

(** *** Hexadecimal *)

Lemma hex_char_digit n : (n < 16)%N -> hex_digit (hex_char n) = Some n.
Proof.
  intros Hn. assert (H : n = 0%N \/ n = 1%N \/ n = 2%N \/ n = 3%N \/ n = 4%N \/ n = 5%N \/ n = 6%N \/
    n = 7%N \/ n = 8%N \/ n = 9%N \/ n = 10%N \/ n = 11%N \/ n = 12%N \/ n = 13%N \/ n = 14%N \/ n = 15%N) by lia.
  by repeat (destruct H as [->|H]; [done|]); subst.
Qed.

Lemma hex_roundtrip l : Forall (fun b => (b < 256)%N) l -> bytes_of_hex (hex_of_bytes l) = l.
Proof.
  induction 1 as [|b l Hb _ IH]; [done|]. cbn [hex_of_bytes bytes_of_hex].
  rewrite !hex_char_digit; [|by apply N.mod_lt|by apply N.Div0.div_lt_upper_bound].
  rewrite IH. f_equal. pose proof (N.div_mod b 16). lia.
Qed.

Lemma hex_digit_lt c n : hex_digit c = Some n -> (n < 16)%N.
Proof. by destruct c as [[] [] [] [] [] [] [] []]; vm_compute; intros [= <-]. Qed.

Lemma bytes_lt s : Forall (fun b => (b < 256)%N) (bytes_of_hex s).
Proof.
  assert (H : forall n s, (String.length s <= n)%nat -> Forall (fun b => (b < 256)%N) (bytes_of_hex s)).
  { induction n as [|n IH]; intros [|a [|b s']] Hl; cbn [bytes_of_hex String.length] in *;
      try apply Forall_nil_2; try lia.
    destruct (hex_digit a) as [x|] eqn:Ha; [|apply Forall_nil_2].
    destruct (hex_digit b) as [y|] eqn:Hb; [|apply Forall_nil_2].
    apply Forall_cons. split; [apply hex_digit_lt in Ha, Hb; lia|]. apply IH. lia. }
  by apply (H (String.length s)).
Qed.

(** A string is accepted exactly when it is the hexadecimal of 32 bytes. *)
Theorem hex32_spec (v w : string) : validHex32Bytes v = Valid w <->
  w = v /\ exists bytes, length bytes = 32%nat /\ Forall (fun b => (b < 256)%N) bytes /\
    v = hex_of_bytes bytes.
Proof.
  unfold validHex32Bytes. split.
  - destruct (String.eqb _ _) eqn:He; simpl; [|done].
    destruct (Nat.eqb _ _) eqn:Hl; simpl; [|done]. intros [= <-].
    apply String.eqb_eq in He. apply Nat.eqb_eq in Hl. split; [done|].
    exists (bytes_of_hex v). split_and!; [done|apply bytes_lt|done].
  - intros (-> & bytes & Hl & Hb & ->). rewrite hex_roundtrip by done.
    by rewrite String.eqb_refl, Hl.
Qed.

(** *** Amounts *)

Lemma num_ltb_int q b : (q == inject_Z (Qfloor q))%Q -> num_ltb (Fin q) (num b) = num_ltb (num (Qfloor q)) (num b).
Proof.
  intros Hq. unfold num_ltb, num. apply eq_true_iff_eq.
  by rewrite !negb_true_iff, <- !not_true_iff_false, !Qle_bool_iff, Hq, Qfloor_Z.
Qed.
Lemma int_num_ltb q a : (q == inject_Z (Qfloor q))%Q -> num_ltb (num a) (Fin q) = num_ltb (num a) (num (Qfloor q)).
Proof.
  intros Hq. unfold num_ltb, num. apply eq_true_iff_eq.
  by rewrite !negb_true_iff, <- !not_true_iff_false, !Qle_bool_iff, Hq, Qfloor_Z.
Qed.

Lemma within_max_spec name max x y : within_max name max x = Valid y <->
  y = x /\ exists z, BigInt x = Some z /\ 0 <= z <= max.
Proof.
  unfold within_max, num_gt_bigint. destruct x as [|b|q]; cbn -[num_leb num_ltb].
  - split; [done|]. by intros (_ & z & ? & _).
  - split; [done|]. by intros (_ & z & ? & _).
  - destruct (Q_is_int q) eqn:Hq; cbn -[num_leb num_ltb];
      [|split; [done|by intros (_ & z & ? & _)]].
    assert (Heq : (q == inject_Z (Qfloor q))%Q) by by apply Qeq_bool_iff.
    assert (H0 : num_leb (num 0) (Fin q) = (0 <=? Qfloor q)).
    { change (num_leb (num 0) (Fin q)) with (negb (num_ltb (Fin q) (num 0))).
      rewrite (num_ltb_int q 0 Heq), num_ltb_num. apply eq_true_iff_eq.
      rewrite negb_true_iff, Z.leb_le, Z.ltb_ge. done. }
    rewrite H0, (int_num_ltb q max Heq), num_ltb_num.
    destruct (Z.leb_spec 0 (Qfloor q)); simpl; [destruct (Z.ltb_spec max (Qfloor q)); simpl|];
      split; try done.
    + intros (_ & z & [= <-] & ?). lia.
    + intros [= <-]. split; [done|]. exists (Qfloor q). split; [done|lia].
    + by intros [-> _].
    + intros (_ & z & [= <-] & ?). lia.
Qed.

(** The amounts that are accepted: an integer number up to the maximum, and for satoshis also
    a fraction, which is dropped; a string or a literal by the integer at its start. *)
Theorem amounts_within_bounds (v : js_value) (l : literal) (x : number) :
  (parseValue SatAmount v = Valid x \/ parseLiteral SatAmount l = Valid x ->
   exists z, BigInt x = Some z /\ 0 <= z <= amount MAX_SATS) /\
  (parseValue CentAmount v = Valid x \/ parseLiteral CentAmount l = Valid x ->
   exists z, BigInt x = Some z /\ 0 <= z <= amount MAX_CENTS).
Proof.
  split; intros [H|H]; [destruct v|destruct l|destruct v|destruct l]; simpl in H; try done;
    unfold validSatAmount, validCentAmount in H; apply within_max_spec in H as [-> Hz]; exact Hz.
Qed.

(** *** Printed numbers are read back *)

Lemma parse_digit d s acc : (d < 10)%N ->
  parse_digits (String (pretty_N_char d) s) acc = parse_digits s (Some (10 * default 0 acc + Z.of_N d)).
Proof.
  intros Hd. assert (Hc : d = 0%N \/ d = 1%N \/ d = 2%N \/ d = 3%N \/ d = 4%N \/ d = 5%N \/ d = 6%N \/
    d = 7%N \/ d = 8%N \/ d = 9%N) by lia.
  by repeat (destruct Hc as [->|Hc]; [done|]); subst.
Qed.

Lemma parse_go x : (0 < x)%N -> forall s, parse_digits (pretty_N_go x s) None = parse_digits s (Some (Z.of_N x)).
Proof.
  induction (N.lt_wf_0 x) as [x _ IH]. intros Hx s. rewrite pretty_N_go_step by done.
  destruct (decide (x / 10 = 0)%N) as [H0|H0].
  - rewrite H0, pretty_N_go_0, parse_digit by (by apply N.mod_lt). simpl default.
    do 2 f_equal. pose proof (N.div_mod x 10). lia.
  - rewrite IH; [|by apply N.div_lt|by apply N.neq_0_lt_0].
    rewrite parse_digit by (by apply N.mod_lt). simpl default.
    do 2 f_equal. pose proof (N.div_mod x 10). lia.
Qed.

Lemma go_first x s : (0 < x)%N -> exists d s', (d < 10)%N /\ pretty_N_go x s = String (pretty_N_char d) s'.
Proof.
  revert s. induction (N.lt_wf_0 x) as [x _ IH]. intros s Hx. rewrite pretty_N_go_step by done.
  destruct (decide (x / 10 = 0)%N) as [H0|H0].
  - rewrite H0, pretty_N_go_0. eexists _, _. split; [by apply N.mod_lt|done].
  - apply IH; [by apply N.div_lt|by apply N.neq_0_lt_0].
Qed.

Lemma parseInt10_pretty (z : Z) : 0 <= z -> parseInt10 (pretty z) = Number z.
Proof.
  intros Hz. destruct z as [|p|p]; [done| |lia].
  change (pretty (Z.pos p)) with (pretty (N.pos p)). unfold pretty, pretty_N. rewrite decide_False by done.
  unfold parseInt10. destruct (go_first (N.pos p) "" eq_refl) as (d & s' & Hd & He).
  assert (Ht : trim_start (pretty_N_go (N.pos p) "") = pretty_N_go (N.pos p) "" /\
    match pretty_N_go (N.pos p) "" with
    | String "-"%char s' => (true, s')
    | String "+"%char s' => (false, s')
    | s' => (false, s')
    end = (false, pretty_N_go (N.pos p) "")).
  { rewrite He. assert (Hc : d = 0%N \/ d = 1%N \/ d = 2%N \/ d = 3%N \/ d = 4%N \/ d = 5%N \/ d = 6%N \/
      d = 7%N \/ d = 8%N \/ d = 9%N) by lia.
    by repeat (destruct Hc as [->|Hc]; [done|]); subst. }
  destruct Ht as [-> ->]. by rewrite parse_go.
Qed.

(** What a client prints is read as the amount, from a literal and from a variable. *)
Theorem printed_amount_read (z : Z) (Hz : 0 <= z <= amount MAX_SATS) :
  parseLiteral SatAmount (LInt (pretty z)) = Valid (num z) /\
  parseValue SatAmount (VString (pretty z)) = Valid (num z) /\
  parseValue SatAmount (VNumber (num z)) = Valid (num z) /\
  parseLiteral CentAmount (LInt (pretty z)) = Valid (num z) /\
  parseValue CentAmount (VNumber (num z)) = Valid (num z).
Proof.
  simpl in Hz. assert (Hs : Number z = num z).
  { apply Number_safe. unfold safe, significand_bits. lia. }
  assert (Ht : Math_trunc (num z) = num z).
  { unfold Math_trunc, num. destruct (Q_neg _); by rewrite ?Qceiling_Z, ?Qfloor_Z. }
  simpl. unfold validSatAmount, validCentAmount. rewrite parseInt10_pretty, Hs, Ht by lia.
  assert (Hv : forall name, within_max name (amount MAX_SATS) (num z) = Valid (num z)).
  { intros name. apply within_max_spec. split; [done|]. exists z. by rewrite BigInt_num. }
  change (amount MAX_CENTS) with (amount MAX_SATS). by rewrite !Hv.
Qed.

(** *** What the handlers check again *)

Lemma or_invalid_ok {A} m (r : result A) a : or_invalid m r = Valid a -> r = Ok a.
Proof. destruct r; simpl; [by intros [= ->]|done..]. Qed.

Lemma digit_char d : (d < 10)%N ->
  is_digit (pretty_N_char d) = true /\ to_lower (pretty_N_char d) = pretty_N_char d.
Proof.
  intros Hd. assert (Hc : d = 0%N \/ d = 1%N \/ d = 2%N \/ d = 3%N \/ d = 4%N \/ d = 5%N \/ d = 6%N \/
    d = 7%N \/ d = 8%N \/ d = 9%N) by lia.
  by repeat (destruct Hc as [->|Hc]; [done|]); subst.
Qed.

Lemma fewer_digits k : forall c s, starts_with_digits (S k) (String c s) = true -> starts_with_digits k (String c s) = true.
Proof.
  induction k as [|k IH]; intros c s; [done|]. simpl. rewrite !andb_true_iff.
  intros [Hc Hs]. split; [done|]. destruct s as [|c' s]; [done|]. by apply IH.
Qed.

(** A printed number starts with as many digits as it has. *)
Lemma go_digits x : forall n k s, starts_with_digits k s = true -> (n = 0%nat \/ 10 ^ N.of_nat (n - 1) <= x)%N ->
  starts_with_digits (n + k) (pretty_N_go x s) = true.
Proof.
  induction (N.lt_wf_0 x) as [x _ IH]. intros n k s Hs Hn.
  destruct (decide (x = 0%N)) as [->|Hx].
  { destruct Hn as [->|Hn]; [by rewrite pretty_N_go_0|].
    pose proof (N.pow_nonzero 10 (N.of_nat (n - 1)) ltac:(done)). lia. }
  rewrite pretty_N_go_step by lia.
  assert (Hd : starts_with_digits (S k) (String (pretty_N_char (x `mod` 10)) s) = true).
  { simpl. rewrite Hs, (proj1 (digit_char _ (N.mod_lt x 10 ltac:(done)))). done. }
  destruct n as [|[|n]].
  - apply (IH _ (N.div_lt x 10 ltac:(lia) ltac:(done)) 0%nat k); [by apply fewer_digits|by left].
  - apply (IH _ (N.div_lt x 10 ltac:(lia) ltac:(done)) 0%nat (S k)); [done|by left].
  - replace (S (S n) + k)%nat with (S n + S k)%nat by lia.
    apply IH; [apply N.div_lt; lia|done|]. right. destruct Hn as [|Hn]; [done|].
    apply N.div_le_lower_bound; [done|]. replace (S (S n) - 1)%nat with (S (S n - 1)) in Hn by lia.
    rewrite Nat2N.inj_succ, N.pow_succ_r' in Hn. done.
Qed.

Lemma go_lower x : forall s, toLowerCase s = s -> toLowerCase (pretty_N_go x s) = pretty_N_go x s.
Proof.
  induction (N.lt_wf_0 x) as [x _ IH]. intros s Hs. destruct (decide (x = 0%N)) as [->|Hx]; [done|].
  rewrite pretty_N_go_step by lia. apply IH; [apply N.div_lt; lia|]. unfold toLowerCase in *. simpl.
  by rewrite Hs, (proj2 (digit_char _ (N.mod_lt x 10 ltac:(done)))).
Qed.

Lemma six_digits (z : Z) : 100000 <= z -> validOneTimeAuthCodeValue (pretty z) = Valid (pretty z).
Proof.
  intros Hz. destruct z as [|p|p]; [lia| |lia].
  change (pretty (Z.pos p)) with (pretty (N.pos p)). unfold pretty, pretty_N. rewrite decide_False by done.
  unfold validOneTimeAuthCodeValue. rewrite code_spec, (go_digits _ 6 0 "") by (done || (right; simpl; lia)).
  by rewrite go_lower.
Qed.

(** The checks of the interface agree with those of the domain: a value that a scalar
    accepts is accepted by the check of the domain that the handlers apply to it, so
    that no handler refuses what the interface let through. *)
Theorem accepted_by_domain (v w : string) (z : Z) :
  (validWalletIdValue v = Valid w -> checkedToWalletId w = Ok w) /\
  (validUsernameValue v = Valid w -> checkedToUsername w = Ok w) /\
  (validPhoneValue v = Valid w -> checkedToPhoneNumber w = Ok w) /\
  (validLanguageValue v = Valid w -> checkedToLanguage w = Ok w) /\
  (100000 <= z -> validOneTimeAuthCodeValue (pretty z) = Valid (pretty z)).
Proof.
  split_and!; [..|apply six_digits].
  - unfold validWalletIdValue. intros H%or_invalid_ok. unfold checkedToWalletId in *.
    by destruct (negb _) eqn:E; simplify_eq; rewrite E.
  - unfold validUsernameValue. destruct (UsernameRegex v) eqn:E; [|done]. intros [= <-].
    unfold checkedToUsername. by rewrite username_lower, E.
  - unfold validPhoneValue. intros H%or_invalid_ok. unfold checkedToPhoneNumber in *.
    by destruct (negb _) eqn:E; simplify_eq; rewrite E.
  - intros H. unfold validLanguageValue, checkedToLanguage in *. rewrite (orb_comm (String.eqb v _)) in H.
    destruct (_ || _) eqn:E in H; [by simplify_eq|].
    destruct (existsb _ _) eqn:El; simplify_eq. by rewrite E, El.
Qed.

Lemma accepted_by_domain_witness :
  checkedToUsername "alice" = Ok "alice" /\ validOneTimeAuthCodeValue "321321" = Valid "321321".
Proof.
  destruct (accepted_by_domain "Alice" "alice" 321321) as (_ & H2 & _ & _ & H5).
  split; [exact (H2 eq_refl)|exact (H5 ltac:(lia))].
Defined.

Lemma printed_amount_read_witness :
  parseLiteral SatAmount (LInt "21000") = Valid (num 21000).
Proof. exact (proj1 (printed_amount_read 21000 ltac:(simpl; lia))). Defined.

(** *** Integers of 53 bits *)

Lemma num_ltb_Fin p q : num_ltb (Fin p) (Fin q) = false <-> (q <= p)%Q.
Proof. simpl. rewrite negb_false_iff. apply Qle_bool_iff. Qed.

(** A value is coerced to a safe integer exactly when it is a number that is a whole one of
    at most 53 bits, and it is that number. *)
Theorem safe_int_exact (v : js_value) (m : number) :
  coerceSafeInt v = Some m <->
  exists n z, v = VNumber n /\ BigInt n = Some z /\ - 2 ^ 53 < z < 2 ^ 53 /\ m = num z.
Proof.
  unfold coerceSafeInt, MAX_INT, MIN_INT, num. split.
  - destruct v as [s|[|neg|q]|]; try done; [by destruct neg|].
    destruct (negb _ || _ || _) eqn:E; [done|]. apply orb_false_elim in E as [E1 E3].
    apply orb_false_elim in E1 as [_ E2]. apply num_ltb_Fin in E2, E3.
    destruct (negb _) eqn:E4; [done|]. apply negb_false_iff, Qeq_bool_iff in E4.
    intros [= <-]. exists (Fin q), (Qfloor q). split_and!; [done| | | |done].
    + apply BigInt_Some. exists q. by rewrite E4.
    + rewrite <- E4, <- Zle_Qle in E3. lia.
    + rewrite <- E4, <- Zle_Qle in E2. lia.
  - intros (n & z & -> & Hz & Hr & ->). apply BigInt_Some in Hz as (q & -> & Hq).
    assert (Hf : Qfloor q = z) by (rewrite <- (Qfloor_Z z); by apply Qfloor_comp).
    rewrite (proj2 (num_ltb_Fin _ _)) by (rewrite Hq, <- Zle_Qle; lia).
    rewrite (proj2 (num_ltb_Fin _ _)) by (rewrite Hq, <- Zle_Qle; lia).
    simpl. rewrite Hf, Qeq_bool_refl. simpl. unfold num. simpl.
    rewrite (proj2 (Qeq_bool_iff _ _)) by (by rewrite Hq). done.
Qed.

End ScalarsSpec.
