(* ===== verification/Treasury.v ===== *)
(** * The treasury of the bank

    The cold storage ([lib/services/cold-storage], [lib/app/cold-storage],
    [lib/domain/cold-storage]) and the swaps out of the channels
    ([lib/services/loopd/loop-service.js], [lib/app/swap], [lib/domain/swap]).

    What leaves the hot wallet is what is over its reserve, is sent once and is recorded
    with the hash of its transaction; a swap is only asked for when the hot wallet is low
    and the channels can pay it. *)

From stdpp Require Import strings pretty.
From S2P Require Import Prelude JsNum Errors Money Ledger PaymentFlow Regex Validation Accounts TxMetadata Facade LedgerService LedgerWrites RateLimit Programs Effects Persistence Workers Payments Invoices Prices Lnd LnPayments OnChain.
#[local] Open Scope string_scope.
#[local] Open Scope Z_scope.
#[local] Open Scope list_scope.

(** ** Calls *)

(** A request of a swap, and its response. *)
Record LoopOutRequest : Type := mkLoopOut {
  lo_dest : option string;
  lo_amt : number;
  lo_maxSwapFee : number;
  lo_maxPrepayRoutingFee : number;
  lo_maxPrepayAmt : number;
  lo_maxMinerFee : number;
  lo_publicationDeadline : Z;
  lo_initiator : string;
  lo_htlcConfirmations : option Z;
  lo_sweepConfTarget : option Z
}.
Record SwapOutResult : Type := mkSwapOut {
  so_noOp : bool;
  so_htlcAddress : string;
  so_serverMessage : string;
  so_swapId : string;
  so_swapIdBytes : string
}.
Record LoopQuote : Type := mkQuote {
  lq_cltvDelta : number;
  lq_confTarget : number;
  lq_htlcSweepFeeSat : number;
  lq_prepayAmtSat : number;
  lq_swapFeeSat : number;
  lq_swapPaymentDest : string
}.
Record LoopTerms : Type := mkTerms {
  lt_maxCltvDelta : number;
  lt_maxSwapAmount : number;
  lt_minCltvDelta : number;
  lt_minSwapAmount : number
}.

(** The wallet of a client of [bitcoind] is the one it is made with. *)
Inductive tcall : Type -> Type :=
| NodeService {X} (c : lcall X) : tcall X
| Clock : tcall Z
| NewBitcoind (wallet : option string) : tcall (db unit)
| BitcoindListWallets : tcall (db (list string))
| BitcoindGetBalance (wallet : string) : tcall (db number)
| BitcoindFundPsbt (wallet address : string) (btc targetConfirmations : number) : tcall (db (string * number))
| BitcoindGetNewAddress (wallet : string) : tcall (db string)
| BitcoindAddressIsMine (wallet address : string) : tcall (db bool)
| BitcoindGetTransaction (wallet txHash : string) : tcall (db (number * number))
| LoopTokens (endpoint : string) : tcall (db bool)
| LoopOut (endpoint : string) (request : LoopOutRequest) : tcall (db SwapOutResult)
| LoopOutQuote (endpoint : string) (amt : number) : tcall (db LoopQuote)
| LoopOutTerms (endpoint : string) : tcall (db LoopTerms)
| CurrentPrice : tcall (result number)
| AddColdStorageTxReceive (a : ColdStorageTx) : tcall (result LedgerJournal)
| AddSwapFeeTxSend (r : SwapResult) : tcall (result LedgerJournal).

Abbreviation tprog := (program tcall).

Definition node {A} (p : lprog A) : tprog A := interp (fun X c => do_call (NodeService c)) p.

(** [domain/bitcoin/index.js]. *)
Definition btc2sat (btc : number) : number := Math_round (num_mul btc SATS_PER_BTC).
Definition sat2btc (sat : number) : number := num_div sat SATS_PER_BTC.

(** ** [services/cold-storage/index.js] *)

Record ColdStorageConfig : Type := mkColdConfig {
  cold_minOnChainHotWalletBalance : number;
  cold_minRebalanceSize : number;
  cold_maxHotWalletBalance : number;
  cold_targetConfirmations : number;
  cold_onChainWallet : string;
  cold_walletPattern : string;
  cold_network : BtcNetwork;
  cold_scanDepthOutgoing : number
}.

Section ColdStorage.
Context (cfg : ColdStorageConfig).

(** [try { ... await c ... } catch (err) { return new UnknownColdStorageServiceError(err) }]. *)
Definition cold_try {A B} (c : tcall (db A)) (k : A -> tprog (result B)) : tprog (result B) :=
  let! r <- do_call c ;;
  match r with
  | Done a => k a
  | Rejected m => Ret (Er (new_msg UnknownColdStorageServiceError m))
  end.

Definition getBitcoindClient (wallet : option string) : tprog (result unit) :=
  cold_try (NewBitcoind wallet) (fun _ => Ret (Ok tt)).

(** The wallet of the service: the first one of the pattern with the configured name. *)
Definition getBitcoindCurrentWalletClient : tprog (result string) :=
  await _ <- getBitcoindClient None ;;
  cold_try BitcoindListWallets (fun wallets =>
  match List.find (fun item => str_includes (cold_onChainWallet cfg) item)
          (List.filter (fun item => str_includes (cold_walletPattern cfg) item) wallets) with
  | Some (String _ _ as wallet) => await _ <- getBitcoindClient (Some wallet) ;; Ret (Ok wallet)
  | _ => Ret (Er (new InvalidCurrentColdStorageWalletServiceError))
  end).

(** [ColdStorageService()]: the wallet it works with. *)
Definition ColdStorageService_new : tprog (result string) := getBitcoindCurrentWalletClient.

Definition cold_listWallets : tprog (result (list string)) :=
  await _ <- getBitcoindClient None ;;
  cold_try BitcoindListWallets (fun wallets =>
  Ret (Ok (List.filter (fun item => str_includes (cold_walletPattern cfg) item) wallets))).

(** The wallets without a client are skipped. *)
Fixpoint balances_of (wallets : list string) (balances : list (string * number))
    : tprog (result (list (string * number))) :=
  match wallets with
  | [] => Ret (Ok balances)
  | walletName :: rest =>
      let! client <- getBitcoindClient (Some walletName) ;;
      match client with
      | Ok _ =>
          cold_try (BitcoindGetBalance walletName) (fun b =>
          balances_of rest (balances ++ [(walletName, btc2sat b)]))
      | _ => balances_of rest balances
      end
  end.

Definition cold_getBalances : tprog (result (list (string * number))) :=
  await coldStorageWallets <- cold_listWallets ;;
  balances_of coldStorageWallets [].

(** The error of the client is not returned: its balance is asked for all the same, and
    an error has no such method. *)
Definition cold_getBalance (walletName : string) : tprog (result (string * number)) :=
  let! client <- getBitcoindClient (Some walletName) ;;
  match client with
  | Ok _ => cold_try (BitcoindGetBalance walletName) (fun b => Ret (Ok (walletName, btc2sat b)))
  | _ => Ret (Er (new UnknownColdStorageServiceError))
  end.

Definition createPsbt (walletName onChainAddress : string) (amt targetConfirmations : number)
    : tprog (result (string * number)) :=
  await _ <- getBitcoindClient (Some walletName) ;;
  let! fundedPsbt <- do_call (BitcoindFundPsbt walletName onChainAddress (sat2btc amt) targetConfirmations) ;;
  match fundedPsbt with
  | Done (psbt, fee) => Ret (Ok (psbt, btc2sat fee))
  | Rejected m =>
      if str_includes "Insufficient funds" m
      then Ret (Er (new_msg InsufficientBalanceForRebalanceError m))
      else Ret (Er (new_msg UnknownColdStorageServiceError m))
  end.

Definition cold_createOnChainAddress (wallet : string) : tprog (result string) :=
  cold_try (BitcoindGetNewAddress wallet) (fun value =>
  Ret (checkedToOnChainAddress (cold_network cfg) value)).

Definition isDerivedAddress (wallet address : string) : tprog (result bool) :=
  cold_try (BitcoindAddressIsMine wallet address) (fun isMine => Ret (Ok isMine)).

Definition isWithdrawalTransaction (wallet txHash : string) : tprog (result bool) :=
  let! r <- do_call (BitcoindGetTransaction wallet txHash) ;;
  match r with
  | Done (amt, _) => Ret (Ok (num_ltb amt (num 0)))
  | Rejected m =>
      if String.eqb m "Invalid or non-wallet transaction id"
      then Ret (Er (new_msg InvalidOrNonWalletTransactionError m))
      else Ret (Er (new_msg UnknownColdStorageServiceError m))
  end.

Definition lookupTransactionFee (wallet txHash : string) : tprog (result number) :=
  cold_try (BitcoindGetTransaction wallet txHash) (fun '(_, fee) => Ret (Ok (btc2sat (Math_abs fee)))).

(** ** [app/cold-storage/get-balances.js] *)

Definition coldStorage_getBalance (walletName : string) : tprog (result (string * number)) :=
  await _ <- ColdStorageService_new ;; cold_getBalance walletName.
Definition coldStorage_listWallets : tprog (result (list string)) :=
  await _ <- ColdStorageService_new ;; cold_listWallets.
Definition coldStorage_getBalances : tprog (result (list (string * number))) :=
  await _ <- ColdStorageService_new ;; cold_getBalances.

(** ** [domain/cold-storage/index.js] *)

Definition getWithdrawFromHotWalletAmount (onChainHotWalletBalance offChainHotWalletBalance : number) : number :=
  let totalHotWallet := num_add onChainHotWalletBalance offChainHotWalletBalance in
  if num_ltb (cold_maxHotWalletBalance cfg) totalHotWallet then
    let rebalanceAmount := num_sub onChainHotWalletBalance (cold_minOnChainHotWalletBalance cfg) in
    if num_ltb (cold_minRebalanceSize cfg) rebalanceAmount then rebalanceAmount else num 0
  else num 0.

(** ** [app/cold-storage/rebalance-to-cold-wallet.js] *)

(** The amounts are integers. *)
Definition deposit_description (amt : number) : string :=
  "deposit of " +:+ pretty (num_val amt) +:+ " sats to the cold storage wallet".

(** The fee of a transaction that is not found is taken as zero; [decode] is that of the
    package. *)
Definition rebalanceToColdWallet (decode : string -> string * list TxOut) : tprog (result bool) :=
  await coldWallet <- ColdStorageService_new ;;
  await onChainService <- node OnChainService_new ;;
  await _ <- node LndService_new ;;
  await displayCurrencyPerSat <- do_call CurrentPrice ;;
  await onChainBalance <- node (onchain_getBalance onChainService None) ;;
  await offChainBalance <- node getOffChainBalance ;;
  let rebalanceAmount := getWithdrawFromHotWalletAmount onChainBalance offChainBalance in
  if num_leb rebalanceAmount (num 0) then Ret (Ok false)
  else
    await address <- cold_createOnChainAddress coldWallet ;;
    await txHash <- node (payToAddress onChainService rebalanceAmount address (cold_targetConfirmations cfg) None) ;;
    let! lookedUpFee <- node (lookupOnChainFee onChainService decode txHash (cold_scanDepthOutgoing cfg)) ;;
    match lookedUpFee with
    | Throw e => Ret (Throw e)
    | _ =>
        let fee := match lookedUpFee with Ok fee => fee | _ => num 0 end in
        await _ <- do_call (AddColdStorageTxReceive
                     (mkColdStorageTx txHash address (deposit_description rebalanceAmount) rebalanceAmount fee
                        (fromSats displayCurrencyPerSat rebalanceAmount) (fromSats displayCurrencyPerSat fee))) ;;
        Ret (Ok true)
    end.

(** ** [app/cold-storage/rebalance-to-hot-wallet.js] *)

Definition rebalanceToHotWallet (walletName : string) (amt targetConfirmations : option number)
    : tprog (result (string * number)) :=
  await checkedAmount <- Ret (checkedToSats amt) ;;
  await targetConfs <- Ret (checkedToTargetConfs targetConfirmations) ;;
  await _ <- ColdStorageService_new ;;
  await onChainService <- node OnChainService_new ;;
  await onChainAddress <- node (onchain_createAddress onChainService) ;;
  createPsbt walletName (fst onChainAddress) checkedAmount targetConfs.

End ColdStorage.

(** ** Swaps: [domain/swap] *)

Inductive SwapType : Type := Swapout | UnknownSwap.
Inductive SwapState : Type :=
| SwapInitiated | SwapPreimageRevealed | SwapHtlcPublished | SwapSuccess | SwapFailed | SwapInvoiceSettled.

#[global] Instance SwapType_eq_dec : EqDecision SwapType.
Proof. solve_decision. Defined.
#[global] Instance SwapState_eq_dec : EqDecision SwapState.
Proof. solve_decision. Defined.

Definition getSwapOutAmount (loopOutWhenHotWalletLessThan swapOutAmount : PaymentAmount)
    (currentOnChainHotWalletBalance currentOutboundLiquidityBalance : PaymentAmount) : PaymentAmount :=
  let isOnChainWalletDepleted :=
    amount currentOnChainHotWalletBalance <? amount loopOutWhenHotWalletLessThan in
  let hasEnoughOutboundLiquidity := amount swapOutAmount <? amount currentOutboundLiquidityBalance in
  if negb hasEnoughOutboundLiquidity then ZERO_SATS
  else if isOnChainWalletDepleted && hasEnoughOutboundLiquidity then swapOutAmount
  else ZERO_SATS.

(** ** [services/loopd/loop-service.js] *)

Record SwapServiceConfig : Type := mkSwapService {
  sc_btcNetwork : BtcNetwork;
  sc_grpcEndpoint : string;
  sc_lndInstanceName : string
}.

Module LoopService.
Section Service.
Context (cfg : SwapServiceConfig).

Definition healthCheck : tprog bool :=
  let! resp <- do_call (LoopTokens (sc_grpcEndpoint cfg)) ;;
  match resp with
  | Done b => Ret b
  | Rejected _ => Ret false
  end.

Definition is_regtest : bool := match sc_btcNetwork cfg with regtest => true | _ => false end.

(** The fee of the payment of the swap is not limited: the limit of the swap is set
    twice. *)
Definition loopOutRequest (amt : PaymentAmount) (maxSwapFee : option PaymentAmount)
    (swapDestAddress : option string) (now : Z) : LoopOutRequest :=
  let fee := match maxSwapFee with Some a => Number (amount a) | None => num 20000 end in
  let thirtyMins := 30 * 60 * 1000 in
  mkLoopOut (str_or swapDestAddress None) (Number (amount amt)) fee fee fee fee
    (if is_regtest then 0 else now + thirtyMins)
    ("galoy-" +:+ sc_lndInstanceName cfg)
    (if is_regtest then Some 1 else None) (if is_regtest then Some 2 else None).

Definition loop_swapOut (amt : PaymentAmount) (maxSwapFee : option PaymentAmount)
    (swapDestAddress : option string) : tprog (result SwapOutResult) :=
  let! now <- (if is_regtest then Ret 0 else do_call Clock) ;;
  let! resp <- do_call (LoopOut (sc_grpcEndpoint cfg) (loopOutRequest amt maxSwapFee swapDestAddress now)) ;;
  match resp with
  | Done r => Ret (Ok r)
  | Rejected m =>
      if str_includes "channel balance too low" m then Ret (Er (new_msg SwapErrorChannelBalanceTooLow m))
      else Ret (Er (new_msg SwapServiceError m))
  end.

(** [BigInt] of a number that is no integer raises. *)
Definition sats_of (n : number) : option PaymentAmount :=
  match BigInt n with Some z => Some (mkAmount z Btc) | None => None end.

Record SwapOutQuote : Type := mkSwapQuote {
  sq_cltvDelta : number;
  sq_confTarget : number;
  sq_htlcSweepFeeSat : PaymentAmount;
  sq_prepayAmtSat : PaymentAmount;
  sq_swapFeeSat : PaymentAmount;
  sq_swapPaymentDest : string
}.

Definition swapOutQuote (btcAmount : PaymentAmount) : tprog (result SwapOutQuote) :=
  let! resp <- do_call (LoopOutQuote (sc_grpcEndpoint cfg) (Number (amount btcAmount))) ;;
  match resp with
  | Rejected m => Ret (Er (new_msg UnknownSwapServiceError m))
  | Done q =>
      match sats_of (lq_htlcSweepFeeSat q), sats_of (lq_prepayAmtSat q), sats_of (lq_swapFeeSat q) with
      | Some sweep, Some prepay, Some fee =>
          Ret (Ok (mkSwapQuote (lq_cltvDelta q) (lq_confTarget q) sweep prepay fee (lq_swapPaymentDest q)))
      | _, _, _ => Ret (Er (new UnknownSwapServiceError))
      end
  end.

Definition swapOutTerms : tprog (result (number * PaymentAmount * number * PaymentAmount)) :=
  let! resp <- do_call (LoopOutTerms (sc_grpcEndpoint cfg)) ;;
  match resp with
  | Rejected m => Ret (Er (new_msg UnknownSwapServiceError m))
  | Done t =>
      match sats_of (lt_maxSwapAmount t), sats_of (lt_minSwapAmount t) with
      | Some max, Some min => Ret (Ok (lt_maxCltvDelta t, max, lt_minCltvDelta t, min))
      | _, _ => Ret (Er (new UnknownSwapServiceError))
      end
  end.

End Service.

(** The states and types of the messages of the service, by their numbers. *)
Definition parseState (state : Z) : SwapState :=
  if state =? 0 then SwapInitiated
  else if state =? 3 then SwapSuccess
  else if state =? 1 then SwapPreimageRevealed
  else if state =? 2 then SwapHtlcPublished
  else if state =? 5 then SwapInitiated
  else SwapFailed.

(** A number has no keys. *)
Definition parseMessage (messageCode : Z) : string := "".

Definition parseSwapType (swapType : Z) : SwapType := if swapType =? 0 then Swapout else UnknownSwap.

(** What the listener makes of a message. *)
Record SwapMessage : Type := mkSwapMessage {
  sm_id : string;
  sm_amt : number;
  sm_htlcAddress : string;
  sm_costOffchain : number;
  sm_costOnchain : number;
  sm_costServer : number;
  sm_state : Z;
  sm_failureReason : Z;
  sm_type : Z
}.
Record ParsedSwap : Type := mkParsedSwap {
  ps_id : string;
  ps_amt : Z;
  ps_htlcAddress : string;
  ps_offchainRoutingFee : Z;
  ps_onchainMinerFee : Z;
  ps_serviceProviderFee : Z;
  ps_state : SwapState;
  ps_message : string;
  ps_swapType : SwapType
}.

Definition parsedSwapData (data : SwapMessage) : result ParsedSwap :=
  match BigInt (sm_amt data), BigInt (sm_costOffchain data), BigInt (sm_costOnchain data),
        BigInt (sm_costServer data) with
  | Some amt, Some offchain, Some onchain, Some server =>
      Ok (mkParsedSwap (sm_id data) amt (sm_htlcAddress data) offchain onchain server
            (parseState (sm_state data)) (parseMessage (sm_failureReason data)) (parseSwapType (sm_type data)))
  | _, _, _, _ => Throw (new JsRangeError)
  end.

End LoopService.
Import LoopService.

(** ** [app/swap] *)

Record SwapConfig : Type := mkSwapConfig {
  swap_lnd1 : SwapServiceConfig;
  swap_lnd2 : SwapServiceConfig;
  swap_loopOutWhenHotWalletLessThan : PaymentAmount;
  swap_swapOutAmount : PaymentAmount
}.

(** The class of the error is thrown, and not one of its instances. *)
Definition getActiveLoopd (cfg : SwapConfig) (params : list LndNode) : result SwapServiceConfig :=
  match getActiveLnd params with
  | Ok activeOffChainNode =>
      if String.eqb (nd_name activeOffChainNode) "LND1" then Ok (swap_lnd1 cfg)
      else if String.eqb (nd_name activeOffChainNode) "LND2" then Ok (swap_lnd2 cfg)
      else Throw (new SwapErrorNoActiveLoopdNode)
  | _ => Throw (new SwapErrorNoActiveLoopdNode)
  end.

Definition getSwapDestAddress : tprog (result string) :=
  await onChainService <- node OnChainService_new ;;
  await onChainAddress <- node (onchain_createAddress onChainService) ;;
  Ret (Ok (fst onChainAddress)).

Definition swapNoOp : SwapOutResult := mkSwapOut true "" "" "" "".

(** The answer of the check of health is a promise, which is never false: the check is
    made but not awaited. *)
Definition swapOut (cfg : SwapConfig) : tprog (result SwapOutResult) :=
  await activeLoopdConfig <- node (from_nodes (getActiveLoopd cfg)) ;;
  let! _ <- healthCheck activeLoopdConfig ;;
  await onChainService <- node OnChainService_new ;;
  await onChainBalance <- node (onchain_getBalance onChainService None) ;;
  await offChainService <- node LndService_new ;;
  await offChainChannelBalances <- node (getInboundOutboundBalance offChainService None) ;;
  let outbound := io_outbound offChainChannelBalances in
  match BigInt onChainBalance, BigInt outbound with
  | Some onChain, Some out =>
      let swapOutAmount := getSwapOutAmount (swap_loopOutWhenHotWalletLessThan cfg) (swap_swapOutAmount cfg)
                             (mkAmount onChain Btc) (mkAmount out Btc) in
      if amount swapOutAmount =? 0 then Ret (Ok swapNoOp)
      else if negb (num_gt_bigint outbound (amount swapOutAmount)) then Ret (Ok swapNoOp)
      else
        await swapDestAddress <- getSwapDestAddress ;;
        loop_swapOut activeLoopdConfig swapOutAmount None (Some swapDestAddress)
  | _, _ => Ret (Throw (new JsRangeError))
  end.

(** [swap-listener.js]: the fees of a swap that succeeded are recorded. *)
Definition handleSwapOutCompleted (data : option ParsedSwap) : tprog (result unit) :=
  match data with
  | None => Ret (Ok tt)
  | Some d =>
      let totalFees := ps_onchainMinerFee d + ps_offchainRoutingFee d + ps_serviceProviderFee d in
      if bool_decide (ps_swapType d = Swapout) && bool_decide (ps_state d = SwapSuccess) && (0 <? totalFees)
      then
        let! r <- do_call (AddSwapFeeTxSend
                    (mkSwapResult (ps_id d) (Number (ps_amt d)) (ps_htlcAddress d)
                       (Number (ps_onchainMinerFee d)) (Number (ps_offchainRoutingFee d))
                       (Number (ps_serviceProviderFee d)))) ;;
        match r with
        | Throw e => Ret (Throw e)
        | _ => Ret (Ok tt)
        end
      else Ret (Ok tt)
  end.

(** ** Properties *)

Module TreasurySpec.

(** The transactions that are sent to addresses, and the deposits that are recorded. *)
Definition sent_of (ev : happening tcall) : list (string * number * reply string) :=
  match ev with
  | @Ev _ X c x =>
      match c in tcall X return X -> list (string * number * reply string) with
      | @NodeService X c => fun x =>
          match c in lcall X return X -> list (string * number * reply string) with
          | SendToChainAddress _ address tokens _ _ => fun x => [(address, tokens, x)]
          | _ => fun _ => []
          end x
      | _ => fun _ => []
      end x
  end.
Definition deposit_of (ev : happening tcall) : list ColdStorageTx :=
  match ev with
  | @Ev _ X c x => match c with AddColdStorageTxReceive a => [a] | _ => [] end
  end.
Definition sent (tr : list (happening tcall)) := tr ≫= sent_of.
Definition deposits (tr : list (happening tcall)) := tr ≫= deposit_of.

Definition quiet_node (X : Type) (c : lcall X) : bool :=
  match c with SendToChainAddress _ _ _ _ _ => false | _ => true end.
Definition quiet_call (X : Type) (c : tcall X) : bool :=
  match c with NodeService c => quiet_node _ c | AddColdStorageTxReceive _ => false | _ => true end.

Lemma quiet_trace {A} (p : tprog A) tr a : calls_only quiet_call p -> exec p tr a ->
  sent tr = [] /\ deposits tr = [].
Proof.
  intros Hp He. pose proof (exec_calls _ _ _ _ Hp He) as Hf. clear Hp He. unfold sent, deposits.
  induction Hf as [|[X c x] tr Hc _ [IH1 IH2]]; [done|]. rewrite !bind_cons, IH1, IH2.
  destruct c as [Y c| | | | | | | | | | | | | | |]; try done. by destruct c.
Qed.

Lemma node_quiet {A} (p : lprog A) : calls_only quiet_node p -> calls_only quiet_call (node p).
Proof. induction p as [a|X c k IH]; [done|]. intros [Hc Hk]. split; [done|]. intros x. by apply IH. Qed.

(** An awaited program that neither sends nor records. *)
Lemma await_quiet {A B} (p : tprog (result A)) (k : A -> tprog (result B)) tr r :
  calls_only quiet_call p -> exec (rpbind p k) tr r ->
  (sent tr = [] /\ deposits tr = [] /\ is_ok r = false) \/
  (exists tr1 a tr2, tr = tr1 ++ tr2 /\ exec p tr1 (Ok a) /\ exec (k a) tr2 r /\
     sent tr = sent tr2 /\ deposits tr = deposits tr2).
Proof.
  intros Hq He. apply exec_await_inv in He as [(r' & H1 & _ & Hr)|(tr1 & a & tr2 & -> & H1 & H2)].
  - left. destruct (quiet_trace _ _ _ Hq H1) as [-> ->]. done.
  - right. exists tr1, a, tr2. destruct (quiet_trace _ _ _ Hq H1) as [Hs Hd].
    unfold sent, deposits in *. by rewrite !bind_app, Hs, Hd.
Qed.

Lemma cold_quiet cfg : calls_only quiet_call (ColdStorageService_new cfg).
Proof.
  unfold ColdStorageService_new, getBitcoindCurrentWalletClient, getBitcoindClient, cold_try, rpbind.
  calls_only_tac.
Qed.
Lemma address_quiet cfg w : calls_only quiet_call (cold_createOnChainAddress cfg w).
Proof. unfold cold_createOnChainAddress, cold_try. calls_only_tac. Qed.
Lemma onchain_new_quiet : calls_only quiet_call (node OnChainService_new).
Proof. by split. Qed.
Lemma lnd_new_quiet : calls_only quiet_call (node LndService_new).
Proof. by split. Qed.
Lemma onchain_balance_quiet self : calls_only quiet_call (node (onchain_getBalance self None)).
Proof. apply node_quiet. unfold onchain_getBalance, node_for, rpbind, tried. calls_only_tac. Qed.

Lemma cached_quiet {A} (p : pprog A) : calls_only quiet_node (cached p).
Proof. induction p as [a|X c k IH]; [done|]. by split. Qed.

Lemma each_quiet f ks : (forall k, calls_only quiet_node (f k)) -> calls_only quiet_node (each_pubkey f ks).
Proof.
  intros Hf. induction ks as [|k ks IH]; [done|]. apply calls_only_bind; [done|]. intros r.
  by apply calls_only_bind.
Qed.

Lemma offchain_quiet : calls_only quiet_call (node getOffChainBalance).
Proof.
  apply node_quiet. unfold getOffChainBalance, kept_balance, getOrSet_with, offchain_sum, LndService_new,
    listActivePubkeys, from_nodes.
  repeat (intros; first [apply cached_quiet | apply each_quiet | apply calls_only_bind
    | unfold lnd_getBalance, node_for, from_nodes, rpbind, tried; progress calls_only_tac
    | progress calls_only_tac]).
Qed.

Lemma lookup_fee_quiet self decode h d : calls_only quiet_call (node (lookupOnChainFee self decode h d)).
Proof.
  apply node_quiet. unfold lookupOnChainFee, listOutgoingTransactions, listTransactions, scan_height,
    getCachedHeight, replied, rpbind.
  repeat (intros; first [apply cached_quiet | apply calls_only_bind | progress calls_only_tac]).
Qed.

(** The transaction of a payment. *)
Lemma pay_trace self amt address target tr r :
  exec (node (payToAddress self amt address target None)) tr r ->
  exists x, sent tr = [(address, amt, x)] /\ deposits tr = [] /\
    match x with Resolved id => r = Ok id | Refused _ => is_ok r = false end.
Proof.
  unfold payToAddress, tried. simpl. intros He. apply exec_inv in He as (x & tr' & -> & He). exists x.
  destruct x as [id|e]; apply exec_inv in He as [-> ->]; done.
Qed.

(** The on-chain balance that a service answers is the one its node gave. *)
Lemma node_balance_read self tr b : exec (node (onchain_getBalance self None)) tr (Ok b) ->
  Ev (NodeService (GetChainBalance (nd_socket self))) (Resolved b) ∈ tr.
Proof.
  unfold onchain_getBalance, node_for, rpbind, tried. simpl. intros He.
  apply exec_inv in He as (x & tr' & -> & He). destruct x as [b'|e]; apply exec_inv in He as [-> He]; [|done].
  injection He as ->. by left.
Qed.

Lemma withdrawn_amount cfg on off : num_leb (getWithdrawFromHotWalletAmount cfg on off) (num 0) = false ->
  num_ltb (cold_maxHotWalletBalance cfg) (num_add on off) = true /\
  getWithdrawFromHotWalletAmount cfg on off = num_sub on (cold_minOnChainHotWalletBalance cfg) /\
  num_ltb (cold_minRebalanceSize cfg) (getWithdrawFromHotWalletAmount cfg on off) = true.
Proof.
  unfold getWithdrawFromHotWalletAmount. destruct (num_ltb (cold_maxHotWalletBalance cfg) _); [|done].
  destruct (num_ltb (cold_minRebalanceSize cfg) _) eqn:Hm; [|done]. auto.
Qed.

(** What a rebalance does once the on-chain balance is known: nothing, or one transaction of
    what is over the reserve, which is recorded unless it is refused or the lookup of its fee
    raises. *)
Definition moved (cfg : ColdStorageConfig) (onChain : number) (tr : list (happening tcall))
    (r : result bool) : Prop :=
  (sent tr = [] /\ deposits tr = [] /\ r <> Ok true) \/
  exists offChain address amt x,
    num_ltb (cold_maxHotWalletBalance cfg) (num_add onChain offChain) = true /\
    amt = num_sub onChain (cold_minOnChainHotWalletBalance cfg) /\
    num_ltb (cold_minRebalanceSize cfg) amt = true /\
    sent tr = [(address, amt, x)] /\
    match x with
    | Refused _ => deposits tr = [] /\ is_ok r = false
    | Resolved txHash =>
        (deposits tr = [] /\ exists e, r = Throw e) \/
        exists price fee, deposits tr =
          [mkColdStorageTx txHash address (deposit_description amt) amt fee (fromSats price amt)
             (fromSats price fee)] /\ r <> Ok false
    end.

Lemma moved_skip {A} cfg onChain (p : tprog (result A)) k tr r :
  calls_only quiet_call p -> exec (rpbind p k) tr r ->
  (forall a tr', exec (k a) tr' r -> moved cfg onChain tr' r) -> moved cfg onChain tr r.
Proof.
  intros Hq He Hk. apply await_quiet in He as [(Hs & Hd & Hr)|(tr1 & a & tr2 & -> & _ & He & Hs & Hd)]; [| |done].
  - left. split_and!; [done..|]. by intros ->.
  - unfold moved. rewrite Hs, Hd. by eapply Hk.
Qed.

Definition rebalanced (cfg : ColdStorageConfig) (tr : list (happening tcall)) (r : result bool) : Prop :=
  (sent tr = [] /\ deposits tr = [] /\ r <> Ok true) \/
  exists lnd onChain, Ev (NodeService (GetChainBalance lnd)) (Resolved onChain) ∈ tr /\
    moved cfg onChain tr r.

Lemma rebalanced_skip {A} cfg (p : tprog (result A)) k tr r :
  calls_only quiet_call p -> exec (rpbind p k) tr r ->
  (forall a tr', exec (k a) tr' r -> rebalanced cfg tr' r) -> rebalanced cfg tr r.
Proof.
  intros Hq He Hk. apply await_quiet in He as [(Hs & Hd & Hr)|(tr1 & a & tr2 & -> & _ & He & Hs & Hd)]; [| |done].
  - left. split_and!; [done..|]. by intros ->.
  - destruct (Hk _ _ He) as [Hn|(lnd & on & Hin & Hm)]; [left; by rewrite Hs, Hd|right].
    exists lnd, on. split; [apply elem_of_app; by right|]. unfold moved in *. by rewrite Hs, Hd.
Qed.

(** The part of the handler that sends and records. *)
Lemma deposit_moved cfg decode self wallet price on off tr r :
  let amt := getWithdrawFromHotWalletAmount cfg on off in
  num_leb amt (num 0) = false ->
  exec (await address <- cold_createOnChainAddress cfg wallet ;;
        await txHash <- node (payToAddress self amt address (cold_targetConfirmations cfg) None) ;;
        let! lookedUpFee <- node (lookupOnChainFee self decode txHash (cold_scanDepthOutgoing cfg)) ;;
        match lookedUpFee with
        | Throw e => Ret (Throw e)
        | _ =>
            let fee := match lookedUpFee with Ok fee => fee | _ => num 0 end in
            await _ <- do_call (AddColdStorageTxReceive
                         (mkColdStorageTx txHash address (deposit_description amt) amt fee
                            (fromSats price amt) (fromSats price fee))) ;;
            Ret (Ok true)
        end) tr r -> moved cfg on tr r.
Proof.
  intros amt Hamt He. apply withdrawn_amount in Hamt as (Hmax & Hsub & Hmin). fold amt in Hsub, Hmin.
  eapply (moved_skip cfg on _ _ _ _ (address_quiet cfg wallet) He). clear He tr. intros address tr He.
  right. exists off, address, amt.
  apply exec_await_inv in He as [(r' & H1 & Hr' & Hr)|(tr1 & txHash & tr2 & -> & H1 & He)];
    apply pay_trace in H1 as (x & Hs & Hd & Hx); exists x.
  { rewrite Hs, Hd. split_and!; [done..|]. destruct x as [id|e]; [by rewrite Hx in Hr'|done]. }
  apply exec_bind_inv in He as (tr3 & fee & tr4 & -> & H3 & He).
  apply (quiet_trace _ _ _ (lookup_fee_quiet self decode txHash _)) in H3 as [Hs3 Hd3].
  unfold sent, deposits in *. rewrite !bind_app, Hs, Hd, Hs3, Hd3, !app_nil_l.
  destruct x as [id|e]; [injection Hx as <-|done].
  assert (Hrec : forall f, exec (await _ <- do_call (AddColdStorageTxReceive
      (mkColdStorageTx txHash address (deposit_description amt) amt f (fromSats price amt) (fromSats price f))) ;;
      Ret (Ok true)) tr4 r -> tr4 ≫= sent_of = [] /\ r <> Ok false /\
      tr4 ≫= deposit_of = [mkColdStorageTx txHash address (deposit_description amt) amt f
        (fromSats price amt) (fromSats price f)]).
  { intros f Hf. unfold rpbind in Hf. simpl in Hf. apply exec_inv in Hf as (y & tr5 & -> & Hf).
    destruct y as [j|e|e]; apply exec_inv in Hf as [-> ->]; done. }
  destruct fee as [f|e|e]; [apply Hrec in He as (-> & Hok & ->)|apply Hrec in He as (-> & Hok & ->)|].
  1-2: split_and!; [done..|]; right; eexists _, _; split; [reflexivity|done].
  apply exec_inv in He as [-> ->]. split_and!; [done..|]. left. eauto.
Qed.

(** In every execution of rebalanceToColdWallet either nothing is sent or recorded and
    the answer is not true, or the hot wallet is over its maximum, what is over its
    on-chain reserve and more than the minimal size is sent once, and at most one
    deposit is recorded, of that amount and with the hash that the node gave; true
    is answered only after the deposit was recorded. *)
Theorem rebalance_recorded (cfg : ColdStorageConfig) (decode : string -> string * list TxOut)
    (tr : list (happening tcall)) (r : result bool)
    (He : exec (rebalanceToColdWallet cfg decode) tr r) :
  rebalanced cfg tr r.
Proof.
  unfold rebalanceToColdWallet in He.
  eapply rebalanced_skip; [apply cold_quiet|exact He|]. clear He tr. intros wallet tr He.
  eapply rebalanced_skip; [apply onchain_new_quiet|exact He|]. clear He tr. intros self tr He.
  eapply rebalanced_skip; [apply lnd_new_quiet|exact He|]. clear He tr. intros lnd tr He.
  eapply (rebalanced_skip cfg (do_call CurrentPrice)); [by split|exact He|]. clear He tr. intros price tr He.
  apply await_quiet in He as [(Hs & Hd & Hr)|(tr1 & on & tr2 & -> & H1 & He & Hs & Hd)]; [| |apply onchain_balance_quiet].
  { left. split_and!; [done..|]. by intros ->. }
  right. exists (nd_socket self), on. split; [apply elem_of_app; left; by apply node_balance_read|].
  unfold moved. rewrite Hs, Hd. change (moved cfg on tr2 r).
  eapply moved_skip; [apply offchain_quiet|exact He|]. clear He Hs Hd. intros off tr He. cbv beta in He.
  destruct (num_leb _ (num 0)) eqn:Hl; [apply exec_inv in He as [-> ->]; left; by split_and!|].
  by eapply deposit_moved.
Qed.

(** *** Witness *)

Definition cold_config : ColdStorageConfig :=
  mkColdConfig (num 1000) (num 100) (num 5000) (num 6) "coldstorage" "specter" regtest (num 2).
Definition hot_node : LndNode := mkNode "127.0.0.1:10009" "pk" [Offchain; Onchain] true "LND1".
Definition cold_address : string := "bcrt1qxy2kgdygjrsqtzq2n0yrf2493p83kkfjhx0wlh".

(** The node has 9000 satoshis on the chain and 500 in its channels; [scan] is what it
    answers for its transactions. *)
Definition hot_reply (scan : reply (list ChainTransaction)) (X : Type) (c : lcall X) : X :=
  match c in lcall X return X with
  | NodeParams => [hot_node]
  | SetNodeActive _ _ | StatusEvent _ _ => tt
  | LocalCache c =>
      match c in pcall X return X with
      | LocalGet _ => Done None
      | LocalSet _ _ _ => Done true
      | DealerRpc _ _ _ => RpcFailed "" ""
      | _ => Rejected ""
      end
  | GetChainBalance _ => Resolved (num 9000)
  | GetChannelBalance _ => Resolved (mkChannelBalance (num 500) None (num 0))
  | SendToChainAddress _ _ _ _ _ => Resolved "tx1"
  | GetWalletInfo _ => Resolved (mkWalletInfo (num 800) (num 1) (num 1) "pk")
  | GetChainTransactions _ _ => scan
  | ProbeForRoute _ _ => TimedOut
  | PayViaRoutes _ _ _ | PayViaPaymentDetails _ _ => TimedOut
  | AddLndRoutingRevenue _ _ | UpdateLndEscrow _ | AddLndChannelFee _ _ _ => Ok tt
  | RoutingFeeLastEntry => Done None
  | SetRoutingFeeLastEntry _ => Done tt
  | _ => Refused js_exception
  end.

Definition treasury_env (scan : reply (list ChainTransaction)) (X : Type) (c : tcall X) : X :=
  match c in tcall X return X with
  | NodeService c => hot_reply scan _ c
  | Clock => 0
  | NewBitcoind _ => Done tt
  | BitcoindListWallets => Done ["specter/coldstorage"]
  | BitcoindGetNewAddress _ => Done cold_address
  | CurrentPrice => Ok (num 1)
  | AddColdStorageTxReceive _ | AddSwapFeeTxSend _ => Ok (mkJournal "j1" false [])
  | _ => Rejected ""
  end.

Definition decode_one (hex : string) : string * list TxOut := (hex, []).
Definition rebalance_run (scan : reply (list ChainTransaction)) : list (happening tcall) * result bool :=
  run (treasury_env scan) (rebalanceToColdWallet cold_config decode_one).

Definition scanned : reply (list ChainTransaction) :=
  Resolved [mkChainTx "tx1" true (Some "tx1") (Some (num 1)) (Some (num 150)) 0].

Lemma rebalance_recorded_witness :
  snd (rebalance_run scanned) = Ok true /\
  List.map (fun a => (cs_txHash a, cs_sats a, cs_fee a)) (deposits (fst (rebalance_run scanned))) =
    [("tx1", num 8000, num 150)] /\
  rebalanced cold_config (fst (rebalance_run scanned)) (snd (rebalance_run scanned)).
Proof.
  split; [vm_compute; reflexivity|]. split; [vm_compute; reflexivity|].
  exact (rebalance_recorded cold_config decode_one _ _ (run_exec (treasury_env scanned) _)).
Defined.

(** When the node does not answer for its transactions after the deposit was sent, the
    deposit is not recorded. *)
Example deposit_not_recorded :
  let '(tr, r) := rebalance_run (Refused js_exception) in
  sent tr = [(cold_address, num 8000, Resolved "tx1")] /\ deposits tr = [] /\ is_ok r = false.
Proof. vm_compute. auto. Qed.

End TreasurySpec.
