(* ===== verification/Notifications.v ===== *)
(** * Notifications and subscriptions

    [lib/domain/pubsub], [lib/services/pubsub.js], [lib/domain/notifications],
    [lib/services/notifications] and the subscriptions of [lib/graphql/root/subscription]:
    what is published when a transaction is received or sent, to which channel, and what a
    client that subscribed is shown.  The messages of push notifications are made by the
    translations, a parameter. *)

From S2P Require Import Prelude JsNum Errors ErrorMap Money Regex PaymentFlow Validation Accounts TxMetadata Facade LedgerService LedgerWrites RateLimit Programs Effects Persistence AccountRepo Workers Payments AccountHandlers PaymentsSpec Rewards Login Invoices Prices Lnd PendingPayments LnPayments OnChain Scalars.
#[local] Open Scope string_scope.
#[local] Open Scope Z_scope.
#[local] Open Scope list_scope.

(** ** [domain/notifications/index.js], [domain/pubsub/index.js] *)

Inductive NotificationType : Type :=
| IntraLedgerReceipt | IntraLedgerPayment | OnchainReceipt | OnchainReceiptPending | OnchainPayment
| LnInvoicePaid.
Definition notification_type (t : NotificationType) : string :=
  match t with
  | IntraLedgerReceipt => "intra_ledger_receipt"
  | IntraLedgerPayment => "intra_ledger_payment"
  | OnchainReceipt => "onchain_receipt"
  | OnchainReceiptPending => "onchain_receipt_pending"
  | OnchainPayment => "onchain_payment"
  | LnInvoicePaid => "paid-invoice"
  end.

Inductive PubSubDefaultTriggers : Type := PriceUpdate | UserPriceUpdate | AccountUpdateTrigger | LnPaymentStatus.
Definition default_trigger (t : PubSubDefaultTriggers) : string :=
  match t with
  | PriceUpdate => "PRICE_UPDATE"
  | UserPriceUpdate => "USER_PRICE_UPDATE"
  | AccountUpdateTrigger => "ACCOUNT_UPDATE"
  | LnPaymentStatus => "LN_PAYMENT_STATUS"
  end.
Definition customPubSubTrigger (event : PubSubDefaultTriggers) (suffix : string) : string :=
  default_trigger event +:+ "_" +:+ suffix.

(** ** Payloads *)

(** [{ amount, currency }], shown besides the amount of a transaction. *)
Record DisplayAmount : Type := mkDisplay { da_amount : number; da_currency : string }.

(** The update of a transaction; [up_sats] and [up_cents] are deprecated. *)
Record TxUpdate : Type := mkUpdate {
  up_walletId : string;
  up_type : NotificationType;
  up_amount : Z;
  up_currency : WalletCurrency;
  up_display : option DisplayAmount;
  up_displayCurrencyPerSat : option number;
  up_sats : option number;
  up_cents : option number;
  up_txHash : option string
}.

Inductive PubSubPayload : Type :=
| PStatus (status : string)
| PInvoice (walletId paymentHash status : string)
| PIntraLedger (data : TxUpdate)
| PTransaction (data : TxUpdate)
| PSatPrice (satUsdCentPrice : number)
| PPrice (satUsdCentPrice : number)
| PErrors (messages : list string).

(** A message to devices; [body] is left out when it is empty. *)
Record PushMessage : Type := mkMessage { pm_title : string; pm_body : option string }.

(** ** Calls *)

(** The calls of accounts, the channels, the devices, and what the server of events calls. *)
Inductive ncall : Type -> Type :=
| NBase {X} (c : acall X) : ncall X
| RedisPublish (trigger : string) (payload : PubSubPayload) : ncall (db unit)
| PublishImmediate (trigger : string) (payload : PubSubPayload) : ncall unit
| RedisAsyncIterator (triggers : list string) : ncall (db unit)
| SendToDevice (tokens : list string) (message : PushMessage) : ncall (db unit)
| RandomUUID : ncall string
| CacheClear (key : string) : ncall unit
| LedgerSettlePendingOnChainPayment (txHash : string) : ncall (result unit)
| LedgerWalletIdByTransactionHash (txHash : string) : ncall (result string)
| LndListInvoices (lnd : string) : ncall (result (list LnInvoiceLookup))
| SubscribeToInvoice (lnd paymentHash : string) : ncall unit.

Abbreviation nprog := (program ncall).

Definition nlift {A} (p : aprog A) : nprog A := interp (fun X c => do_call (NBase c)) p.
Definition plift {A} (p : prog A) : nprog A := nlift (lift p).
Definition pbase {X} (c : call X) : nprog X := do_call (NBase (Base c)).

(** ** [services/pubsub.js] *)

Definition createAsyncIterator (triggers : list string) : nprog (result unit) :=
  let! r <- do_call (RedisAsyncIterator triggers) ;;
  Ret match r with Done _ => Ok tt | Rejected m => Er (new_msg UnknownPubSubError m) end.

Definition publish (trigger : string) (payload : PubSubPayload) : nprog (result unit) :=
  let! r <- do_call (RedisPublish trigger payload) ;;
  Ret match r with Done _ => Ok tt | Rejected m => Er (new_msg UnknownPubSubError m) end.

(** Published after two turns of the event loop. *)
Definition publishImmediate (trigger : string) (payload : PubSubPayload) : nprog unit :=
  do_call (PublishImmediate trigger payload).

(** ** [push-notifications.js] *)

Definition DEVICE_TOKEN_LENGTH : nat := 163.

Definition sendNotification (deviceToken : list string) (title body : string) : nprog (result bool) :=
  let message := mkMessage title (if String.eqb body "" then None else Some body) in
  let deviceTokens := List.filter (fun token => Nat.eqb (String.length token) DEVICE_TOKEN_LENGTH) deviceToken in
  if Nat.leb (length deviceTokens) 0 then Ret (Er (new InvalidDeviceNotificationsServiceError))
  else
    let! response <- do_call (SendToDevice deviceTokens message) ;;
    Ret match response with
        | Done _ => Ok true
        | Rejected m => Er (new_msg UnknownNotificationsServiceError m)
        end.

(** ** [create-push-notification-content.js] *)

(** The translations of [i18n.__], by phrase and locale, the printing of numbers in a locale,
    which raises when the locale is not well formed, and the default locale. *)
Record Translations : Type := mkTranslations {
  translate : string -> string -> list (string * string) -> string;
  number_toLocaleString : number -> string -> result string;
  bigint_toLocaleString : Z -> string -> result string;
  defaultLocale : string
}.

Section Content.
Context (i18n : Translations).

(** [name ? ` ${name}` : ""] *)
Definition spaced (name : string) : string := if String.eqb name "" then "" else " " +:+ name.

Definition createPushNotificationContent (type : string) (amt : PaymentAmount)
    (displayAmount : option DisplayAmount) (userLanguage : string) : result (string * string) :=
  let locale := if String.eqb userLanguage "" then defaultLocale i18n else userLanguage in
  let baseCurrency := currency_string (currency amt) in
  let notificationType := if String.eqb type "balance" then type else "transaction." +:+ type in
  let title := translate i18n ("notification." +:+ notificationType +:+ ".title") locale
                 [("walletCurrency", baseCurrency)] in
  let baseCurrencyName := match currency amt with Btc => "sats" | Usd => "" end in
  let baseCurrencySymbol := match currency amt with Usd => "$" | Btc => "" end in
  let* baseCurrencyAmount :=
    match currency amt with
    | Usd => number_toLocaleString i18n (num_div (Number (amount amt)) (num 100)) locale
    | Btc => bigint_toLocaleString i18n (amount amt) locale
    end in
  let baseVars := [("baseCurrencySymbol", baseCurrencySymbol); ("baseCurrencyAmount", baseCurrencyAmount);
                   ("baseCurrencyName", spaced baseCurrencyName)] in
  let body := translate i18n ("notification." +:+ notificationType +:+ ".body") locale baseVars in
  match displayAmount with
  | None => Ok (title, body)
  | Some d =>
      if num_ltb (num 0) (da_amount d) && negb (String.eqb (da_currency d) baseCurrency) then
        let displayCurrencyName :=
          translate i18n ("currency." +:+ da_currency d +:+ ".name") locale [] in
        let displayCurrencySymbol :=
          translate i18n ("currency." +:+ da_currency d +:+ ".symbol") locale [] in
        let* displayCurrencyAmount := number_toLocaleString i18n (da_amount d) locale in
        Ok (title,
            translate i18n ("notification." +:+ notificationType +:+ ".bodyDisplayCurrency") locale
              ([("displayCurrencySymbol", displayCurrencySymbol);
                ("displayCurrencyAmount", displayCurrencyAmount);
                ("displayCurrencyName", spaced displayCurrencyName)] ++ baseVars))
      else Ok (title, body)
  end.

(** ** [services/notifications/index.js] *)

(** What is told of a transaction: the account, the wallet, the amounts, and the devices and
    the language of the user. *)
Record TxNotice : Type := mkNotice {
  no_accountId : string;
  no_walletId : string;
  no_amount : PaymentAmount;
  no_display : option DisplayAmount;
  no_deviceTokens : list string;
  no_language : string
}.

(** The push notification at the end, whose answer is not awaited, and the [catch]. *)
Definition push (type : string) (amt : PaymentAmount) (display : option DisplayAmount)
    (deviceTokens : list string) (language : string) : nprog (result unit) :=
  match deviceTokens with
  | [] => Ret (Ok tt)
  | _ =>
      match createPushNotificationContent type amt display language with
      | Ok (title, body) => let! _ <- sendNotification deviceTokens title body ;; Ret (Ok tt)
      | Er e | Throw e => Ret (Er (new_msg UnknownNotificationsServiceError (error_message e)))
      end
  end.

Definition perSat (n : TxNotice) : option number :=
  match no_display n with
  | Some d => Some (num_div (da_amount d) (Number (amount (no_amount n))))
  | None => None
  end.

Definition lightningTxReceived (n : TxNotice) (paymentHash : string) : nprog (result unit) :=
  let! _ <- publish (customPubSubTrigger LnPaymentStatus paymentHash) (PStatus "PAID") ;;
  let! _ <- publish (customPubSubTrigger AccountUpdateTrigger (no_accountId n))
              (PInvoice (no_walletId n) paymentHash "PAID") ;;
  push (notification_type LnInvoicePaid) (no_amount n) (no_display n) (no_deviceTokens n) (no_language n).

Definition intraLedgerTxReceived (n : TxNotice) : nprog (result unit) :=
  let amt := no_amount n in
  let data := mkUpdate (no_walletId n) IntraLedgerReceipt (amount amt) (currency amt) (no_display n)
                (perSat n)
                (match currency amt with Btc => Some (Number (amount amt)) | Usd => None end)
                (match currency amt with Usd => Some (Number (amount amt)) | Btc => None end) None in
  let! _ <- publish (customPubSubTrigger AccountUpdateTrigger (no_accountId n)) (PIntraLedger data) ;;
  push (notification_type IntraLedgerReceipt) amt (no_display n) (no_deviceTokens n) (no_language n).

Definition sendOnChainNotification (type : NotificationType) (n : TxNotice) (txHash : string)
    : nprog (result unit) :=
  let amt := no_amount n in
  let data := mkUpdate (no_walletId n) type (amount amt) (currency amt) (no_display n) (perSat n)
                None None (Some txHash) in
  let! _ <- publish (customPubSubTrigger AccountUpdateTrigger (no_accountId n)) (PTransaction data) ;;
  push (notification_type type) amt (no_display n) (no_deviceTokens n) (no_language n).

Definition onChainTxReceived := sendOnChainNotification OnchainReceipt.
Definition onChainTxReceivedPending := sendOnChainNotification OnchainReceiptPending.
Definition onChainTxSent := sendOnChainNotification OnchainPayment.

Definition priceUpdate (displayCurrencyPerSat : number) : nprog unit :=
  let satUsdCentPrice := num_mul (num 100) displayCurrencyPerSat in
  let! _ <- publish (default_trigger PriceUpdate) (PSatPrice satUsdCentPrice) ;;
  let! _ <- publish (default_trigger UserPriceUpdate) (PPrice satUsdCentPrice) ;;
  Ret tt.

Definition sendBalance (balanceAmount : PaymentAmount) (recipientDeviceTokens : list string)
    (displayBalanceAmount : option DisplayAmount) (recipientLanguage : string) : nprog (result unit) :=
  push "balance" balanceAmount displayBalanceAmount recipientDeviceTokens recipientLanguage.

End Content.

(** ** [graphql/root/subscription] *)

(** What a resolver shows, or raises: an error of [graphql/error.js], one that [mapError] made, or
    another. *)
Inductive gql_answer (A : Type) : Type :=
| Shown (a : A)
| RaisedGql (e : errData)
| RaisedApollo (e : ApolloError)
| RaisedError (e : error).
Arguments Shown {A} a.
Arguments RaisedGql {A} e.
Arguments RaisedApollo {A} e.
Arguments RaisedError {A} e.

(** The printing of numbers by [toString]. *)
Section Subscriptions.
Context (num_toString : number -> string).

Definition SAT_PRICE_PRECISION_OFFSET : Z := 12.

(** [{ formattedAmount, base, offset, currencyUnit }] *)
Record Price : Type := mkPrice {
  pr_formattedAmount : string;
  pr_base : number;
  pr_offset : Z;
  pr_currencyUnit : string
}.
Definition price_of (offset : Z) (cents : number) : Price :=
  mkPrice (num_toString cents) (Math_round (num_mul cents (num (10 ^ offset)))) offset "USDCENT".

(** *** [my-updates.js] *)

Inductive UserUpdate : Type :=
| UPrice (p : Price)
| ULnUpdate (walletId paymentHash status : string)
| UOnChainUpdate (usdPerSat : option number) (data : TxUpdate)
| UIntraLedgerUpdate (usdPerSat : option number) (data : TxUpdate).

Record MyUpdates : Type := mkMyUpdates {
  mu_errors : list string;
  mu_me : option User;
  mu_update : option UserUpdate
}.

(** The user and the account of a connection. *)
Record Session : Type := mkSession { se_user : User; se_account : Account }.

Definition not_authenticated : errData :=
  mkErrData G_AuthenticationError (Some "Not Authenticated for subscription") None.
Definition undefined_payload (level : option string) : errData :=
  mkErrData G_UnknownClientError
    (Some "Got 'undefined' payload. Check url used to ensure right websocket endpoint was used for subscription.")
    level.

(** [None] is [undefined]; nothing is answered for a payload of another subscription. *)
Definition me_resolve (source : option PubSubPayload) (ctx : option Session) : gql_answer (option MyUpdates) :=
  match ctx with
  | None => RaisedGql not_authenticated
  | Some s =>
      match source with
      | None => RaisedGql (undefined_payload (Some "fatal"))
      | Some (PErrors messages) => Shown (Some (mkMyUpdates messages None None))
      | Some (PPrice satUsdCentPrice) =>
          Shown (Some (mkMyUpdates [] None (Some (UPrice (price_of SAT_PRICE_PRECISION_OFFSET satUsdCentPrice)))))
      | Some (PInvoice walletId paymentHash status) =>
          Shown (Some (mkMyUpdates [] (Some (se_user s)) (Some (ULnUpdate walletId paymentHash status))))
      | Some (PTransaction data) =>
          Shown (Some (mkMyUpdates [] (Some (se_user s))
                   (Some (UOnChainUpdate (up_displayCurrencyPerSat data) data))))
      | Some (PIntraLedger data) =>
          Shown (Some (mkMyUpdates [] (Some (se_user s))
                   (Some (UIntraLedgerUpdate (up_displayCurrencyPerSat data) data))))
      | Some (PStatus _) | Some (PSatPrice _) => Shown None
      end
  end.

Definition me_subscribe (ctx : option Session) : nprog (gql_answer (result unit)) :=
  match ctx with
  | None => Ret (RaisedGql not_authenticated)
  | Some s =>
      let accountUpdatedTrigger := customPubSubTrigger AccountUpdateTrigger (acc_id (se_account s)) in
      let! satUsdPrice <- pbase GetCurrentPrice ;;
      let! _ <- match satUsdPrice with
                | Ok p => publishImmediate accountUpdatedTrigger (PPrice (num_mul (num 100) p))
                | _ => Ret tt
                end ;;
      match satUsdPrice with
      | Throw e => Ret (RaisedError e)
      | _ =>
          let! r <- createAsyncIterator [accountUpdatedTrigger; default_trigger UserPriceUpdate] ;;
          Ret (Shown r)
      end
  end.

(** *** [ln-invoice-payment-status.js] *)

Record PaymentStatus : Type := mkPaymentStatus { ps_errors : list string; ps_status : option string }.

Definition status_resolve (source : option PubSubPayload) : gql_answer PaymentStatus :=
  match source with
  | None => RaisedGql (undefined_payload None)
  | Some (PErrors messages) => Shown (mkPaymentStatus messages None)
  | Some (PStatus status) => Shown (mkPaymentStatus [] (Some status))
  | Some _ => Shown (mkPaymentStatus [] None)
  end.

(** [if (paid)]: an error object is truthy. *)
Definition status_subscribe (decodeInvoice : string -> result LnInvoice) (paymentRequest : input string)
    : nprog (gql_answer (result unit)) :=
  match paymentRequest with
  | Invalid message => Ret (RaisedGql (mkErrData G_InputValidationError (Some message) None))
  | Valid paymentRequest =>
      match PaymentStatusChecker decodeInvoice paymentRequest with
      | Throw e => Ret (RaisedError e)
      | Er e =>
          let trigger := customPubSubTrigger LnPaymentStatus paymentRequest in
          let! _ <- publishImmediate trigger (PErrors [error_message e]) ;;
          let! r <- createAsyncIterator [trigger] ;;
          Ret (Shown r)
      | Ok (paymentHash, invoiceIsPaid) =>
          let trigger := customPubSubTrigger LnPaymentStatus paymentHash in
          let! paid <- plift invoiceIsPaid ;;
          match paid with
          | Throw e => Ret (RaisedError e)
          | _ =>
              let! _ <- match paid with
                        | Er e => publishImmediate trigger (PErrors [error_message e])
                        | _ => Ret tt
                        end ;;
              let! _ <- match paid with
                        | Ok false => Ret tt
                        | _ => publishImmediate trigger (PStatus "PAID")
                        end ;;
              let! r <- createAsyncIterator [trigger] ;;
              Ret (Shown r)
          end
      end
  end.

(** *** [price.js] *)

Record PricePayload : Type := mkPricePayload { pp_errors : list string; pp_price : option Price }.

(** [!source.satUsdCentPrice]: absent, zero or not a number. *)
Definition price_resolve (source : option PubSubPayload) (amt : input number) : gql_answer PricePayload :=
  match source with
  | None => RaisedGql (undefined_payload (Some "fatal"))
  | Some (PErrors messages) => Shown (mkPricePayload messages None)
  | Some (PSatPrice satUsdCentPrice) =>
      if num_truthy satUsdCentPrice
      then Shown (mkPricePayload [] (Some (price_of SAT_PRICE_PRECISION_OFFSET (num_mul (unchecked_number amt) satUsdCentPrice))))
      else Shown (mkPricePayload ["No price info"] None)
  | Some _ => Shown (mkPricePayload ["No price info"] None)
  end.

Definition price_subscribe (amt : input number) (amountCurrencyUnit priceCurrencyUnit : input string)
    : nprog (gql_answer (result unit)) :=
  let! uuid <- do_call RandomUUID ;;
  let immediateTrigger := customPubSubTrigger PriceUpdate uuid in
  let refuse message :=
    let! _ <- publishImmediate immediateTrigger (PErrors [message]) ;;
    let! r <- createAsyncIterator [immediateTrigger] ;;
    Ret (Shown r) in
  match amountCurrencyUnit, priceCurrencyUnit with
  | Invalid message, _ => refuse message
  | Valid _, Invalid message => refuse message
  | Valid amountCurrencyUnit, Valid priceCurrencyUnit =>
      if negb (String.eqb amountCurrencyUnit "BTCSAT") || negb (String.eqb priceCurrencyUnit "USDCENT")
      then refuse "Unsupported exchange unit"
      else if num_leb (num 1000000) (unchecked_number amt) then refuse "Unsupported exchange amount"
      else
        let! satUsdPrice <- pbase GetCurrentPrice ;;
        match satUsdPrice with
        | Throw e => Ret (RaisedError e)
        | _ =>
            let! _ <- match satUsdPrice with
                      | Ok p => publishImmediate immediateTrigger (PSatPrice (num_mul (num 100) p))
                      | _ => Ret tt
                      end ;;
            let! r <- createAsyncIterator [immediateTrigger; default_trigger PriceUpdate] ;;
            Ret (Shown r)
        end
  end.

End Subscriptions.

(** ** Who is told what *)

Module NotificationsSpec.

(** The notifications of the service. *)
Inductive notice : Type :=
| NLightning (n : TxNotice) (paymentHash : string)
| NIntraLedger (n : TxNotice)
| NOnChainReceived (n : TxNotice) (txHash : string)
| NOnChainPending (n : TxNotice) (txHash : string)
| NOnChainSent (n : TxNotice) (txHash : string)
| NPrice (displayCurrencyPerSat : number)
| NBalance (balance : PaymentAmount) (tokens : list string) (display : option DisplayAmount) (language : string).

Definition answered_ok {A} (p : nprog A) : nprog (result unit) := let! _ <- p ;; Ret (Ok tt).

Definition notify (i18n : Translations) (x : notice) : nprog (result unit) :=
  match x with
  | NLightning n h => lightningTxReceived i18n n h
  | NIntraLedger n => intraLedgerTxReceived i18n n
  | NOnChainReceived n h => onChainTxReceived i18n n h
  | NOnChainPending n h => onChainTxReceivedPending i18n n h
  | NOnChainSent n h => onChainTxSent i18n n h
  | NPrice p => answered_ok (priceUpdate p)
  | NBalance b tokens display language => sendBalance i18n b tokens display language
  end.

(** The clients that subscribe. *)
Inductive subscriber : Type :=
| SMe (s : Session)
| SStatus (decodeInvoice : string -> result LnInvoice) (paymentRequest : string)
| SPrice (amt : input number) (amountUnit priceUnit : input string).

Definition subscribe (c : subscriber) : nprog (gql_answer (result unit)) :=
  match c with
  | SMe s => me_subscribe (Some s)
  | SStatus decode request => status_subscribe decode (Valid request)
  | SPrice amt u v => price_subscribe amt u v
  end.

(** What is published, and the channels that are listened to, in an execution. *)
Definition published (ev : happening ncall) : list (string * PubSubPayload) :=
  match ev with
  | Ev c _ => match c with RedisPublish t p => [(t, p)] | _ => [] end
  end.
Definition listens (ev : happening ncall) : list string :=
  match ev with
  | Ev c _ => match c with RedisAsyncIterator ts => ts | _ => [] end
  end.
(** What the device of a user is sent. *)
Definition pushed_to (ev : happening ncall) : list string :=
  match ev with
  | Ev c _ => match c with SendToDevice tokens _ => tokens | _ => [] end
  end.

(** The client is to be told. *)
Definition account_notice (x : notice) : option (TxNotice * PubSubPayload) :=
  let update n type sats cents hash :=
    mkUpdate (no_walletId n) type (amount (no_amount n)) (currency (no_amount n)) (no_display n)
      (perSat n) sats cents hash in
  match x with
  | NLightning n h => Some (n, PInvoice (no_walletId n) h "PAID")
  | NIntraLedger n =>
      Some (n, PIntraLedger (match currency (no_amount n) with
                             | Btc => update n IntraLedgerReceipt (Some (Number (amount (no_amount n)))) None None
                             | Usd => update n IntraLedgerReceipt None (Some (Number (amount (no_amount n)))) None
                             end))
  | NOnChainReceived n h => Some (n, PTransaction (update n OnchainReceipt None None (Some h)))
  | NOnChainPending n h => Some (n, PTransaction (update n OnchainReceiptPending None None (Some h)))
  | NOnChainSent n h => Some (n, PTransaction (update n OnchainPayment None None (Some h)))
  | NPrice _ | NBalance _ _ _ _ => None
  end.

Definition supported (amt : input number) (u v : input string) : bool :=
  match u, v with
  | Valid u, Valid v => String.eqb u "BTCSAT" && String.eqb v "USDCENT" && negb (num_leb (num 1000000) (unchecked_number amt))
  | _, _ => false
  end.

Definition status_suffix (decodeInvoice : string -> result LnInvoice) (request : string) : string :=
  match decodeInvoice request with Ok i => inv_paymentHash i | _ => request end.

(** What a client that subscribed is told of a notification, if anything: the updates of its
    own account, the payment of its own invoice, the price. *)
Definition told (c : subscriber) (x : notice) (p : PubSubPayload) : Prop :=
  match c with
  | SMe s =>
      (exists n, account_notice x = Some (n, p) /\ no_accountId n = acc_id (se_account s)) \/
      (exists price, x = NPrice price /\ p = PPrice (num_mul (num 100) price))
  | SStatus decode request =>
      exists n, x = NLightning n (status_suffix decode request) /\ p = PStatus "PAID"
  | SPrice amt u v =>
      exists price, x = NPrice price /\ supported amt u v = true /\ p = PSatPrice (num_mul (num 100) price)
  end.

#[local] Arguments num : simpl never.
#[local] Arguments num_leb : simpl never.
#[local] Arguments num_mul : simpl never.
#[local] Arguments num_ltb : simpl never.

(** *** Channels *)

Lemma trigger_inj e1 e2 s1 s2 :
  customPubSubTrigger e1 s1 = customPubSubTrigger e2 s2 -> e1 = e2 /\ s1 = s2.
Proof. destruct e1, e2; simpl; intros H; by simplify_eq. Qed.

Lemma trigger_custom e1 e2 s : customPubSubTrigger e1 s <> default_trigger e2.
Proof. by destruct e1, e2. Qed.

Definition announcements (x : notice) : list (string * PubSubPayload) :=
  match x with
  | NLightning n h => [(customPubSubTrigger LnPaymentStatus h, PStatus "PAID")]
  | NPrice price => [(default_trigger PriceUpdate, PSatPrice (num_mul (num 100) price));
                     (default_trigger UserPriceUpdate, PPrice (num_mul (num 100) price))]
  | _ => []
  end ++
  match account_notice x with
  | Some (n, p) => [(customPubSubTrigger AccountUpdateTrigger (no_accountId n), p)]
  | None => []
  end.

Lemma push_quiet i18n type amt display tokens language tr r :
  exec (push i18n type amt display tokens language) tr r ->
  tr ≫= published = [] /\
  forall token, token ∈ tr ≫= pushed_to -> token ∈ tokens /\ String.length token = DEVICE_TOKEN_LENGTH.
Proof.
  unfold push. intros He.
  assert (Hnil : tr = [] -> tr ≫= published = [] /\ forall token, token ∈ tr ≫= pushed_to ->
    token ∈ tokens /\ String.length token = DEVICE_TOKEN_LENGTH).
  { intros ->. split; [done|]. intros token Hin. by apply elem_of_nil in Hin. }
  destruct tokens as [|t0 ts]; [apply exec_inv in He as [-> _]; by apply Hnil|].
  destruct (createPushNotificationContent _ _ _ _ _) as [[title body]|e|e];
    [|apply exec_inv in He as [-> _]; by apply Hnil..].
  unfold sendNotification in He. destruct (Nat.leb _ 0); simpl in He.
  { apply exec_inv in He as [-> _]. by apply Hnil. }
  apply exec_inv in He as (x & tr' & -> & He). apply exec_inv in He as [-> _]. split; [done|].
  intros token Hin. change (token ∈ List.filter (fun token => Nat.eqb (String.length token) DEVICE_TOKEN_LENGTH)
    (t0 :: ts) ++ []) in Hin. rewrite app_nil_r in Hin. apply list_elem_of_In, List.filter_In in Hin as [Hin Hl].
  split; [by apply list_elem_of_In|]. by apply Nat.eqb_eq in Hl.
Qed.

Lemma publish_inv {A} t p (k : result unit -> nprog A) tr r :
  exec (pbind (publish t p) k) tr r ->
  exists x tr' a, tr = Ev (RedisPublish t p) x :: tr' /\ exec (k a) tr' r.
Proof. intros He. apply exec_inv in He as (x & tr' & -> & He). exists x, tr'.
  eexists. split; [done|exact He]. Qed.

Lemma notify_published i18n x tr r : exec (notify i18n x) tr r -> tr ≫= published = announcements x.
Proof.
  unfold announcements. destruct x as [n h|n|n h|n h|n h|price|b tokens display language]; simpl; intros He.
  - apply publish_inv in He as (? & tr1 & ? & -> & He). apply publish_inv in He as (? & tr2 & ? & -> & He).
    apply push_quiet in He as [He _]. by rewrite !bind_cons, He.
  - apply publish_inv in He as (? & tr1 & ? & -> & He). apply push_quiet in He as [He _].
    rewrite !bind_cons, He. by destruct (currency _).
  - apply publish_inv in He as (? & tr1 & ? & -> & He). apply push_quiet in He as [He _]. by rewrite !bind_cons, He.
  - apply publish_inv in He as (? & tr1 & ? & -> & He). apply push_quiet in He as [He _]. by rewrite !bind_cons, He.
  - apply publish_inv in He as (? & tr1 & ? & -> & He). apply push_quiet in He as [He _]. by rewrite !bind_cons, He.
  - repeat (apply exec_inv in He as (? & ? & -> & He)). by apply exec_inv in He as [-> _].
  - by apply push_quiet in He as [He _].
Qed.

(** The rest of an execution without a branch. *)
Ltac finish He := repeat (apply exec_inv in He as (? & ? & -> & He));
  apply exec_inv in He as [-> He]; try done.

(** The channels of a client whose subscription was accepted. *)
Lemma subscribe_listens c tr : exec (subscribe c) tr (Shown (Ok tt)) ->
  match c with
  | SMe s => tr ≫= listens = [customPubSubTrigger AccountUpdateTrigger (acc_id (se_account s));
                              default_trigger UserPriceUpdate]
  | SStatus decode request =>
      tr ≫= listens = [customPubSubTrigger LnPaymentStatus (status_suffix decode request)]
  | SPrice amt u v => exists uuid, tr ≫= listens =
      customPubSubTrigger PriceUpdate uuid :: (if supported amt u v then [default_trigger PriceUpdate] else [])
  end.
Proof.
  destruct c as [s|decode request|amt u v]; simpl; intros He.
  - apply exec_inv in He as (price & tr1 & -> & He). destruct price as [p|e|e]; finish He.
  - unfold status_suffix. destruct (PaymentStatusChecker decode request) as [[h paid]|e|e] eqn:Hc;
      unfold PaymentStatusChecker in Hc; destruct (decode request) as [i|e'|e']; simplify_eq/=.
    + apply exec_inv in He as (a & tr1 & -> & He). destruct a as [[]|e|e]; finish He.
    + finish He.
    + finish He.
  - apply exec_inv in He as (uuid & tr1 & -> & He). exists uuid. unfold supported.
    destruct u as [u|m]; [|finish He]. destruct v as [v|m]; [|finish He].
    destruct (String.eqb u "BTCSAT"), (String.eqb v "USDCENT"); simpl in He |- *; try (finish He).
    destruct (num_leb (num 1000000) (unchecked_number amt)); simpl in He |- *; [finish He|].
    apply exec_inv in He as (price & tr2 & -> & He). destruct price as [p|e|e]; finish He.
Qed.

Definition update_wallet (u : UserUpdate) : option string :=
  match u with
  | UPrice _ => None
  | ULnUpdate w _ _ => Some w
  | UOnChainUpdate _ d | UIntraLedgerUpdate _ d => Some (up_walletId d)
  end.
Definition notice_tokens (x : notice) : list string :=
  match x with
  | NBalance _ tokens _ _ => tokens
  | _ => match account_notice x with Some (n, _) => no_deviceTokens n | None => [] end
  end.

Lemma notify_tokens i18n x tr r token : exec (notify i18n x) tr r -> token ∈ tr ≫= pushed_to ->
  token ∈ notice_tokens x /\ String.length token = DEVICE_TOKEN_LENGTH.
Proof.
  destruct x as [n h|n|n h|n h|n h|price|b tokens display language]; simpl; intros He Hin.
  1: apply publish_inv in He as (? & tr1 & ? & -> & He); rewrite bind_cons in Hin.
  1-5: apply publish_inv in He as (? & tr2 & ? & -> & He); rewrite bind_cons in Hin.
  1-5: by eapply (proj2 (push_quiet _ _ _ _ _ _ _ _ He)).
  - repeat (apply exec_inv in He as (? & ? & -> & He)). apply exec_inv in He as [-> _].
    by apply elem_of_nil in Hin.
  - by eapply (proj2 (push_quiet _ _ _ _ _ _ _ _ He)).
Qed.

(** What is published on a channel. *)
Lemma announced_iff x t p : (t, p) ∈ announcements x <->
  (exists n h, x = NLightning n h /\ t = customPubSubTrigger LnPaymentStatus h /\ p = PStatus "PAID") \/
  (exists price, x = NPrice price /\
     ((t = default_trigger PriceUpdate /\ p = PSatPrice (num_mul (num 100) price)) \/
      (t = default_trigger UserPriceUpdate /\ p = PPrice (num_mul (num 100) price)))) \/
  (exists n, account_notice x = Some (n, p) /\ t = customPubSubTrigger AccountUpdateTrigger (no_accountId n)).
Proof.
  unfold announcements. rewrite elem_of_app.
  assert (Hone : forall q : string * PubSubPayload, (t, p) ∈ [q] <-> (t, p) = q) by (intros q; apply list_elem_of_singleton).
  split.
  - intros [H|H].
    + destruct x; try (by apply elem_of_nil in H); rewrite !elem_of_cons, elem_of_nil in H.
      * destruct H as [[= -> ->]|[]]. left. eauto.
      * destruct H as [[= -> ->]|[[= -> ->]|[]]]; right; left; eauto.
    + destruct (account_notice x) as [[n q]|]; [|by apply elem_of_nil in H].
      apply Hone in H as [= -> ->]. right. right. eauto.
  - intros [(n & h & -> & -> & ->)|[(price & -> & [[-> ->]|[-> ->]])|(n & Hn & ->)]].
    + left. by left.
    + left. by left.
    + left. right. by left.
    + right. rewrite Hn. by left.
Qed.

(** The payloads on the channels of a client. *)
Lemma delivered_told c x p channels :
  match c with
  | SMe s => channels = [customPubSubTrigger AccountUpdateTrigger (acc_id (se_account s));
                         default_trigger UserPriceUpdate]
  | SStatus decode request => channels = [customPubSubTrigger LnPaymentStatus (status_suffix decode request)]
  | SPrice amt u v => exists uuid, channels =
      customPubSubTrigger PriceUpdate uuid :: (if supported amt u v then [default_trigger PriceUpdate] else [])
  end ->
  (exists t, (t, p) ∈ announcements x /\ t ∈ channels) <-> told c x p.
Proof.
  intros Hc. setoid_rewrite announced_iff. destruct c as [s|decode request|amt u v]; cbn [told].
  - subst. setoid_rewrite elem_of_cons. setoid_rewrite list_elem_of_singleton. split.
    + intros (t & [(n & h & -> & -> & ->)|[(price & -> & [[-> ->]|[-> ->]])|(n & Hn & ->)]] & [Ht|Ht]);
        try done; eauto.
      apply trigger_inj in Ht as [_ Ht]. eauto.
    + intros [(n & Hn & Ha)|(price & -> & ->)]; eexists; split; eauto 10. left. by rewrite Ha.
  - subst. setoid_rewrite list_elem_of_singleton. split.
    + intros (t & [(n & h & -> & -> & ->)|[(price & -> & [[-> ->]|[-> ->]])|(n & Hn & ->)]] & Ht); try done.
      apply trigger_inj in Ht as [_ ->]. eauto.
    + intros (n & -> & ->). eexists. split; [left; eauto|done].
  - destruct Hc as [uuid ->]. setoid_rewrite elem_of_cons. split.
    + intros (t & [(n & h & -> & -> & ->)|[(price & -> & [[-> ->]|[-> ->]])|(n & Hn & ->)]] & [Ht|Ht]);
        try done; destruct (supported amt u v); try (by apply elem_of_nil in Ht);
        try (by apply list_elem_of_singleton in Ht). eauto.
    + intros (price & -> & -> & ->). eexists. split; [right; left; eauto 10|]. right. by left.
Qed.

(** *** What arrives *)

(** The payload holds an amount of type BigInt, which [JSON.stringify] refuses. *)
Definition holds_bigint (p : PubSubPayload) : bool :=
  match p with PIntraLedger _ | PTransaction _ => true | _ => false end.
(** [JSON.parse] reads the payload back as it was: a number that is not finite is read as [null]. *)
Definition read_back (p : PubSubPayload) : bool :=
  match p with
  | PSatPrice n | PPrice n => match n with Fin _ => true | _ => false end
  | PIntraLedger _ | PTransaction _ => false
  | _ => true
  end.

(** What the publisher accepted, and on which channel. *)
Definition accepted (ev : happening ncall) : list (string * PubSubPayload) :=
  match ev with
  | Ev c x =>
      match c in ncall X return X -> list (string * PubSubPayload) with
      | RedisPublish t p => fun x => match x with Done _ => [(t, p)] | Rejected _ => [] end
      | _ => fun _ => []
      end x
  end.

(** The publisher serialises with JSON: it rejects a payload that cannot be serialised. *)
Definition json_publisher (tr : list (happening ncall)) : Prop :=
  forall t p a, Ev (RedisPublish t p) a ∈ tr -> holds_bigint p = true -> exists m, a = Rejected m.
(** It rejects nothing else when it is connected. *)
Definition connected (tr : list (happening ncall)) : Prop :=
  forall t p m, Ev (RedisPublish t p) (Rejected m) ∈ tr -> holds_bigint p = true.

(** A payload that was accepted on a channel that the subscriber listens to, read back as it was. *)
Definition receives (tr tr' : list (happening ncall)) (p : PubSubPayload) : Prop :=
  read_back p = true /\ exists t, (t, p) ∈ tr ≫= accepted /\ t ∈ tr' ≫= listens.

Lemma accepted_published tr t p : (t, p) ∈ tr ≫= accepted ->
  (t, p) ∈ tr ≫= published /\ Ev (RedisPublish t p) (Done tt) ∈ tr.
Proof.
  rewrite !list_elem_of_bind. intros (ev & Hin & Hev). destruct ev as [X c a].
  destruct c; try (by apply elem_of_nil in Hin). simpl in Hin. destruct a as [[]|m]; [|by apply elem_of_nil in Hin].
  apply list_elem_of_singleton in Hin as [= <- <-]. split; [|done]. eexists. split; [|exact Hev]. by left.
Qed.

Lemma published_accepted tr t p : connected tr -> holds_bigint p = false ->
  (t, p) ∈ tr ≫= published -> (t, p) ∈ tr ≫= accepted.
Proof.
  intros Hc Hp. rewrite !list_elem_of_bind. intros (ev & Hin & Hev). destruct ev as [X c a].
  destruct c; try (by apply elem_of_nil in Hin). simpl in Hin.
  apply list_elem_of_singleton in Hin as [= <- <-]. destruct a as [[]|m].
  - eexists. split; [|exact Hev]. by left.
  - apply Hc in Hev. congruence.
Qed.

(** C33. When the publisher refuses payloads that JSON cannot serialise, which those
    with an amount of type BigInt cannot, what a client whose subscription was
    accepted receives of a notification is only what concerns it: an update of its
    own account and the price, the payment of its own invoice, or the price. It
    receives all of that which JSON carries unchanged as long as the publisher
    refuses nothing else; the updates of transfers inside the ledger and on chain
    are never accepted. An update of the account that is received is shown with the
    wallet of the notification, and a push goes only to well-formed tokens of the
    devices of the user that is notified. *)
Theorem notices_reach_concerned (i18n : Translations) (num_toString : number -> string) (x : notice)
    (c : subscriber) (tr tr' : list (happening ncall)) (r : result unit)
    (Hn : exec (notify i18n x) tr r) (Hs : exec (subscribe c) tr' (Shown (Ok tt)))
    (Hjson : json_publisher tr) :
  (forall p, receives tr tr' p -> told c x p) /\
  (connected tr -> forall p, told c x p -> read_back p = true -> receives tr tr' p) /\
  (forall t p, holds_bigint p = true -> (t, p) ∉ tr ≫= accepted) /\
  (forall s n p, c = SMe s -> account_notice x = Some (n, p) -> receives tr tr' p -> exists u,
     me_resolve num_toString (Some p) (Some s) = Shown (Some (mkMyUpdates [] (Some (se_user s)) (Some u))) /\
     update_wallet u = Some (no_walletId n)) /\
  (forall token, token ∈ tr ≫= pushed_to ->
     token ∈ notice_tokens x /\ String.length token = DEVICE_TOKEN_LENGTH).
Proof.
  assert (Htold : forall p, (exists t, (t, p) ∈ tr ≫= published /\ t ∈ tr' ≫= listens) <-> told c x p).
  { intros p. rewrite (notify_published _ _ _ _ Hn). apply delivered_told.
    pose proof (subscribe_listens _ _ Hs) as Hc. by destruct c. }
  assert (Hreceived : forall p, receives tr tr' p -> told c x p).
  { intros p (_ & t & Ha & Hl). apply Htold. exists t. by apply accepted_published in Ha as [Ha _]. }
  split_and!; [done| | | |].
  - intros Hc p Hp Hb. split; [done|]. apply Htold in Hp as (t & Ht & Hl). exists t. split; [|done].
    apply published_accepted; [done| |done]. by destruct p.
  - intros t p Hp Ha. apply accepted_published in Ha as [_ Ha]. by destruct (Hjson _ _ _ Ha Hp).
  - intros s n p -> Hx [Hb _]. destruct x; simplify_eq/=; by eexists.
  - intros token Hin. by eapply notify_tokens.
Qed.

(** *** Updates that cannot be serialised *)

Definition delivered (ev : happening ncall) : list PubSubPayload :=
  match ev with
  | Ev c x =>
      match c in ncall X return X -> list PubSubPayload with
      | RedisPublish _ p => fun x => match x with Done _ => [p] | Rejected _ => [] end
      | _ => fun _ => []
      end x
  end.

Lemma push_delivers i18n type amt display tokens language tr r :
  exec (push i18n type amt display tokens language) tr r -> tr ≫= delivered = [].
Proof.
  unfold push, sendNotification. intros He.
  destruct tokens as [|t0 ts]; [by apply exec_inv in He as [-> _]|].
  destruct (createPushNotificationContent _ _ _ _ _) as [[title body]|e|e];
    [|by apply exec_inv in He as [-> _]..].
  destruct (Nat.leb _ 0); simpl in He; [by apply exec_inv in He as [-> _]|].
  apply exec_inv in He as (? & ? & -> & He). by apply exec_inv in He as [-> _].
Qed.

(** When the channel refuses payloads that cannot be serialised, which those with an
    amount of type BigInt cannot, the updates of transfers inside the ledger and on
    chain are never delivered, and the notification answers as if they were. *)
Theorem bigint_updates_lost (i18n : Translations) (x : notice) (n : TxNotice) (p : PubSubPayload)
    (env : forall X, ncall X -> X)
    (Hjson : forall t p, holds_bigint p = true -> exists m, env _ (RedisPublish t p) = Rejected m)
    (Hx : account_notice x = Some (n, p)) (Hp : holds_bigint p = true) (Ht : no_deviceTokens n = []) :
  fst (run env (notify i18n x)) ≫= delivered = [] /\ snd (run env (notify i18n x)) = Ok tt.
Proof.
  assert (Hlost : forall t q type amt display language, holds_bigint q = true ->
    let prog := pbind (publish t q) (fun _ => push i18n type amt display [] language) in
    fst (run env prog) ≫= delivered = [] /\ snd (run env prog) = Ok tt).
  { intros t q type amt display language Hq prog. destruct (Hjson t q Hq) as [m Hm].
    unfold prog. simpl. by rewrite Hm. }
  destruct x; cbn in Hx; simplify_eq; try discriminate; cbn [notify]; unfold intraLedgerTxReceived, onChainTxReceived, onChainTxReceivedPending,
    onChainTxSent, sendOnChainNotification; rewrite Ht; by apply Hlost.
Qed.

(** *** An error shown as a payment *)

Definition immediate (ev : happening ncall) : list (string * PubSubPayload) :=
  match ev with
  | Ev c _ => match c with PublishImmediate t p => [(t, p)] | _ => [] end
  end.

(** When the ledger cannot tell whether an invoice is paid, the subscriber is told the
    error and then that the invoice is paid. *)
Theorem status_error_shown_paid (decodeInvoice : string -> result LnInvoice) (request : string)
    (i : LnInvoice) (e : error) (env : forall X, ncall X -> X)
    (Hi : decodeInvoice request = Ok i)
    (He : env _ (NBase (Base (LedgerIsLnTxRecorded (inv_paymentHash i)))) = Er e) :
  fst (run env (status_subscribe decodeInvoice (Valid request))) ≫= immediate =
    [(customPubSubTrigger LnPaymentStatus (inv_paymentHash i), PErrors [error_message e]);
     (customPubSubTrigger LnPaymentStatus (inv_paymentHash i), PStatus "PAID")].
Proof. unfold status_subscribe, PaymentStatusChecker. rewrite Hi. simpl. by rewrite He. Qed.

(** *** Witnesses *)

Definition plain_translations : Translations :=
  mkTranslations (fun phrase _ _ => phrase) (fun _ _ => Ok "0") (fun _ _ => Ok "0") "en".
Definition sample_notice : TxNotice :=
  mkNotice "acc1" "w1" (mkAmount 1000 Btc) (Some (mkDisplay (num 1) "USD")) [] "".
Definition sample_env (X : Type) (c : ncall X) : X :=
  match c in ncall X return X with
  | NBase c => LoginSpec.plain_answer _ c
  | RedisPublish _ _ | RedisAsyncIterator _ | SendToDevice _ _ => Done tt
  | PublishImmediate _ _ | CacheClear _ | SubscribeToInvoice _ _ => tt
  | RandomUUID => ""
  | LedgerSettlePendingOnChainPayment _ => Ok tt
  | LedgerWalletIdByTransactionHash _ => Er (new CouldNotFindTransactionError)
  | LndListInvoices _ => Ok []
  end.
Definition sample_me : subscriber := SMe (mkSession (mkUser [] "") PaymentClaims.sample_acc).

Definition strict_env (X : Type) (c : ncall X) : X :=
  match c in ncall X return X with
  | RedisPublish _ p => if holds_bigint p then Rejected "Do not know how to serialize a BigInt" else Done tt
  | c => sample_env _ c
  end.

Definition refuses_bigint (ev : happening ncall) : Prop :=
  match ev with
  | Ev c x =>
      match c in ncall X return X -> Prop with
      | RedisPublish _ p => fun x => holds_bigint p = true -> exists m, x = Rejected m
      | _ => fun _ => True
      end x
  end.

Lemma strict_publisher {A} (p : nprog A) : json_publisher (fst (run strict_env p)).
Proof.
  enough (Hall : Forall refuses_bigint (fst (run strict_env p))).
  { intros t q x Hin. rewrite Forall_forall in Hall. exact (Hall _ Hin). }
  induction p as [a|X c k IH]; simpl; [constructor|].
  specialize (IH (strict_env X c)). destruct (run strict_env (k (strict_env X c))) as [tr r].
  constructor; [|exact IH]. destruct c; try done. simpl. intros ->. by eexists.
Qed.

Lemma notices_reach_concerned_witness :
  receives (fst (run strict_env (notify plain_translations (NLightning sample_notice "h1"))))
    (fst (run strict_env (subscribe sample_me))) (PInvoice "w1" "h1" "PAID").
Proof.
  apply (proj1 (proj2 (notices_reach_concerned plain_translations (fun _ => "") (NLightning sample_notice "h1")
    sample_me _ _ _ (run_exec strict_env _) (run_exec strict_env (subscribe sample_me))
    (strict_publisher _)))).
  - intros t p m Hin. apply list_elem_of_In in Hin. simpl in Hin.
    destruct Hin as [Heq|[Heq|[]]]; apply (f_equal accepted) in Heq; discriminate Heq.
  - left. exists sample_notice. by split.
  - reflexivity.
Defined.

Lemma bigint_updates_lost_witness :
  fst (run strict_env (notify plain_translations (NIntraLedger sample_notice))) ≫= delivered = [].
Proof.
  refine (proj1 (bigint_updates_lost plain_translations (NIntraLedger sample_notice) sample_notice _
    strict_env _ eq_refl eq_refl eq_refl)).
  intros t p Hp. exists "Do not know how to serialize a BigInt". simpl. by rewrite Hp.
Defined.

End NotificationsSpec.
