(* ===== verification/Trigger.v ===== *)
(** * The server of events

    [lib/servers/trigger.js]: what is done when the node reports a transaction on chain, a block
    or an invoice, the listeners of invoices and their restart, the price that is published,
    and the balances that [lib/servers/daily-balance-notification.js] sends to the accounts that
    [lib/app/accounts/active-accounts.js] finds active.  A promise that is not awaited is a program
    that the handler answers besides its result. *)

From S2P Require Import Prelude JsNum Errors ErrorMap Money Regex PaymentFlow Validation Accounts TxMetadata Facade LedgerService LedgerWrites RateLimit Programs Effects Persistence AccountRepo Workers Payments AccountHandlers PaymentsSpec Rewards Login Invoices Prices Lnd InvoicesSpec PendingPayments LnPayments OnChain Scalars Notifications.
From stdpp Require Import gmap.
#[local] Open Scope string_scope.
#[local] Open Scope Z_scope.
#[local] Open Scope list_scope.

(** ** Transactions on chain *)

(** A transaction that the node reports. *)
Record ChainTransaction : Type := mkChainTx {
  ct_id : string;
  ct_fee : option number;
  ct_is_outgoing : bool;
  ct_is_confirmed : bool;
  ct_tokens : number;
  ct_output_addresses : list string
}.

(** The answer of a handler, and the programs it does not await. *)
Record Handled (A : Type) : Type := mkHandled {
  hd_answer : result A;
  hd_background : list (nprog (result unit))
}.
Arguments mkHandled {A} _ _.
Arguments hd_answer {A} _.
Arguments hd_background {A} _.

Definition handled {A} (r : result A) : nprog (Handled A) := Ret (mkHandled r []).

(** [const x = await p; if (x instanceof Error) return x] *)
Definition hbind {A B} (p : nprog (result A)) (k : A -> nprog (Handled B)) : nprog (Handled B) :=
  let! r <- p ;;
  match r with Ok a => k a | Er e => handled (Er e) | Throw e => handled (Throw e) end.
Notation "'awaith' x '<-' p ';;' k" := (hbind p (fun x => k))
  (at level 100, x pattern, p at level 99, k at level 200, right associativity).

(** [if (x instanceof Error) return;] *)
Definition or_return {A} (p : nprog (result A)) (k : A -> nprog (Handled unit)) : nprog (Handled unit) :=
  let! r <- p ;;
  match r with Ok a => k a | Er _ => handled (Ok tt) | Throw e => handled (Throw e) end.

Section Trigger.
Context (i18n : Translations) (cfg : Settings) (oc : OnChainConfig).

(** The amount in dollars, when there is a price. *)
Definition display_at (price : result number) (sats : number) : option DisplayAmount :=
  match price with
  | Ok p => if num_truthy p then Some (mkDisplay (fromSats p sats) "USD") else None
  | _ => None
  end.

(** An error of the price is no price. *)
Definition with_price (k : result number -> nprog (Handled unit)) : nprog (Handled unit) :=
  let! price <- pbase GetCurrentPrice ;;
  match price with Throw e => handled (Throw e) | _ => k price end.

Definition notify_sender (tx : ChainTransaction) (walletId : string) (price : result number) : nprog (Handled unit) :=
  let sent := num_sub (ct_tokens tx) (match opt_number (ct_fee tx) with Some f => f | None => num 0 end) in
  awaith senderWallet <- pbase (WalletFindById walletId) ;;
  awaith senderAccount <- pbase (AccountFindById (w_accountId senderWallet)) ;;
  awaith senderUser <- pbase (UserFindById (acc_ownerId senderAccount)) ;;
  match BigInt sent with
  | None => handled (Throw (new JsRangeError))
  | Some z =>
      let! _ <- onChainTxSent i18n
        (mkNotice (w_accountId senderWallet) (w_id senderWallet) (mkAmount z (w_currency senderWallet))
           (display_at price sent) (u_deviceTokens senderUser) (u_language senderUser)) (ct_id tx) ;;
      handled (Ok tt)
  end.

(** What is done for one wallet, not awaited. *)
Definition pending_notice (tx : ChainTransaction) (displayPaymentAmount : option DisplayAmount) (wallet : Wallet)
    : nprog (result unit) :=
  await recipientAccount <- pbase (AccountFindById (w_accountId wallet)) ;;
  await recipientUser <- pbase (UserFindById (acc_ownerId recipientAccount)) ;;
  match BigInt (ct_tokens tx) with
  | None => Ret (Throw (new JsRangeError))
  | Some z =>
      let! _ <- onChainTxReceivedPending i18n
        (mkNotice (w_accountId wallet) (w_id wallet) (mkAmount z (w_currency wallet))
           displayPaymentAmount (u_deviceTokens recipientUser) (u_language recipientUser)) (ct_id tx) ;;
      Ret (Ok tt)
  end.

Definition onchainTransactionEventHandler (tx : ChainTransaction) : nprog (Handled unit) :=
  if ct_is_outgoing tx then
    if negb (ct_is_confirmed tx) then handled (Ok tt)
    else
      or_return (do_call (LedgerSettlePendingOnChainPayment (ct_id tx))) (fun _ =>
      or_return (do_call (LedgerWalletIdByTransactionHash (ct_id tx))) (fun walletId =>
      with_price (notify_sender tx walletId)))
  else
    let! _ <- do_call (CacheClear CacheKeys.LastOnChainTransactions) ;;
    or_return (pbase (WalletListByAddresses (ct_output_addresses tx))) (fun wallets =>
      if negb (ct_is_confirmed tx) then
        with_price (fun price =>
        Ret (mkHandled (Ok tt)
               (List.map (fun w => pending_notice tx (display_at price (ct_tokens tx)) (aw_wallet w)) wallets)))
      else handled (Ok tt)).

(** An error is logged. *)
Definition onchainBlockEventHandler (height : Z) : nprog (result unit) :=
  let scanDepth := num_add (oc_minConfirmations oc) (num 1) in
  let! txNumber <- plift (updateOnChainReceipt oc scanDepth) ;;
  Ret match txNumber with Throw e => Throw e | _ => Ok tt end.

Definition publishSingleCurrentPrice : nprog (result unit) :=
  let! displayCurrencyPerSat <- pbase GetCurrentPrice ;;
  match displayCurrencyPerSat with
  | Er _ => Ret (Ok tt)
  | Throw e => Ret (Throw e)
  | Ok price => let! _ <- priceUpdate price ;; Ret (Ok tt)
  end.

(** ** Invoices *)

(** An invoice that the node reports. *)
Record NodeInvoice : Type := mkNodeInvoice {
  ni_id : string;
  ni_is_held : bool;
  ni_is_confirmed : bool;
  ni_is_canceled : bool
}.

Definition invoiceUpdateEventHandler (invoice : NodeInvoice) : nprog (result bool) :=
  if ni_is_held invoice then plift (updatePendingInvoiceByPaymentHash cfg (ni_id invoice))
  else Ret (Ok false).

(** [listenerHodlInvoice]: the listeners, by the number of their subscription, with the hash of
    their invoice, and whether the subscription to all invoices is listened to. *)
Record Listeners : Type := mkListeners {
  li_all : bool;
  li_next : nat;
  li_invoices : gmap nat string
}.
Definition no_listeners : Listeners := mkListeners true 0 ∅.

Definition listenerHodlInvoice (paymentHash : string) (s : Listeners) : Listeners :=
  mkListeners (li_all s) (S (li_next s)) (<[li_next s := paymentHash]> (li_invoices s)).
Definition removeAllListeners (k : nat) (s : Listeners) : Listeners :=
  mkListeners (li_all s) (li_next s) (delete k (li_invoices s)).

(** The events of the node: an invoice of the subscription to all of them, an update of the
    invoice of a subscription, and the errors of these. *)
Inductive node_event : Type :=
| InvoiceReported (invoice : NodeInvoice)
| InvoicesError
| InvoiceUpdated (k : nat) (invoice : NodeInvoice)
| InvoiceError (k : nat).

(** The listeners after an event, and the handler that it starts. *)
Definition on_event (ev : node_event) (s : Listeners) : Listeners * list (nprog (result bool)) :=
  match ev with
  | InvoiceReported invoice =>
      if li_all s && negb (ni_is_confirmed invoice)
      then (listenerHodlInvoice (ni_id invoice) s, []) else (s, [])
  | InvoicesError => (mkListeners false (li_next s) (li_invoices s), [])
  | InvoiceUpdated k invoice =>
      match li_invoices s !! k with
      | None => (s, [])
      | Some _ =>
          if ni_is_confirmed invoice || ni_is_canceled invoice then (removeAllListeners k s, [])
          else (s, [invoiceUpdateEventHandler invoice])
      end
  | InvoiceError k => (removeAllListeners k s, [])
  end.

Fixpoint on_events (evs : list node_event) (s : Listeners) : Listeners * list (nprog (result bool)) :=
  match evs with
  | [] => (s, [])
  | ev :: evs =>
      let '(s1, started) := on_event ev s in
      let '(s2, rest) := on_events evs s1 in (s2, started ++ rest)
  end.

(** The invoices that are listed when the server starts.  [declineHeldInvoice] is not awaited. *)
Fixpoint listen_existing (lnd pubkey : string) (invoices : list LnInvoiceLookup)
    : nprog (result unit * list (nprog (result bool))) :=
  match invoices with
  | [] => Ret (Ok tt, [])
  | lnInvoice :: invoices =>
      let hash := il_paymentHash lnInvoice in
      let continue := listen_existing lnd pubkey invoices in
      let declined :=
        let! rest <- continue ;;
        Ret (fst rest, plift (declineHeldInvoice pubkey hash) :: snd rest) in
      let listen :=
        if il_isSettled lnInvoice || il_isCanceled lnInvoice then continue
        else let! _ <- do_call (SubscribeToInvoice lnd hash) ;; continue in
      if il_isHeld lnInvoice then
        let! walletInvoice <- pbase (InvoiceFindByPaymentHash hash) ;;
        match walletInvoice with
        | Er e => if is_a e CouldNotFindWalletInvoiceError then declined else continue
        | Throw e => Ret (Throw e, [])
        | Ok wi =>
            if decide (wd_currency (wi_recipient wi) = Btc) then listen else declined
        end
      else listen
  end.

Definition listenerExistingHodlInvoices (lnd pubkey : string)
    : nprog (result unit * list (nprog (result bool))) :=
  let! lndService <- pbase LndService ;;
  match lndService with
  | Er e => Ret (Er e, [])
  | Throw e => Ret (Throw e, [])
  | Ok _ =>
      let! invoices <- do_call (LndListInvoices lnd) ;;
      match invoices with
      | Er e => Ret (Er e, [])
      | Throw e => Ret (Throw e, [])
      | Ok l => listen_existing lnd pubkey l
      end
  end.

(** ** [active-accounts.js], with the checker of [activity-checker.js] *)

Definition MS_PER_30_DAYS : Z := 30 * (24 * (60 * 60 * 1000)).

Fixpoint wallets_volume (price : number) (since : Z) (wallets : list Wallet)
    (outgoingCents incomingCents : number) : aprog (result (number * number)) :=
  match wallets with
  | [] => Ret (Ok (outgoingCents, incomingCents))
  | w :: ws =>
      await volume <- base (LedgerTxVolumeSince allTxBaseVolumeSince (w_id w) since) ;;
      let to_cents x := if decide (w_currency w = Btc) then fromSatsToCents price x else x in
      wallets_volume price since ws
        (num_add outgoingCents (to_cents (outgoingBaseAmount volume)))
        (num_add incomingCents (to_cents (incomingBaseAmount volume)))
  end.

Definition activity_aboveThreshold (price monthlyVolumeThreshold : number) (wallets : list Wallet)
    : aprog (result bool) :=
  let! now <- do_call Now ;;
  await v <- wallets_volume price (now - MS_PER_30_DAYS) wallets (num 0) (num 0) ;;
  Ret (Ok (num_ltb monthlyVolumeThreshold (fst v) || num_ltb monthlyVolumeThreshold (snd v))).

Fixpoint active_of (price monthlyVolumeThreshold : number) (accounts : list Account)
    (activeAccounts : list Account) : aprog (result (list Account)) :=
  match accounts with
  | [] => Ret (Ok activeAccounts)
  | account :: rest =>
      await wallets <- base (WalletListByAccountId (acc_id account)) ;;
      let! volume <- activity_aboveThreshold price monthlyVolumeThreshold wallets ;;
      match volume with
      | Er _ | Ok false => active_of price monthlyVolumeThreshold rest activeAccounts
      | Ok true => active_of price monthlyVolumeThreshold rest (activeAccounts ++ [account])
      | Throw e => Ret (Throw e)
      end
  end.

Definition getRecentlyActiveAccounts (monthlyVolumeThreshold : number) : aprog (result (list Account)) :=
  await unlockedAccounts <- do_call AccountListUnlocked ;;
  await displayCurrencyPerSat <- base GetCurrentPrice ;;
  active_of displayCurrencyPerSat monthlyVolumeThreshold unlockedAccounts [].

(** ** [send-default-wallet-balance-to-users.js] *)

(** No wallet has the identifier [undefined]. *)
Definition find_default_wallet (account : Account) : nprog (result Wallet) :=
  match acc_defaultWalletId account with
  | Some id => pbase (WalletFindById id)
  | None => Ret (Er (new CouldNotFindWalletFromIdError))
  end.

Definition notifyUser (price : result number) (account : Account) : nprog (result unit) :=
  await recipientUser <- pbase (UserFindById (acc_ownerId account)) ;;
  match u_deviceTokens recipientUser with
  | [] => Ret (Ok tt)
  | tokens =>
      await wallet <- find_default_wallet account ;;
      await balanceAmount <- pbase (LedgerWalletBalance (mkWallet (w_id wallet) (w_currency wallet))) ;;
      let displayBalanceAmount :=
        if decide (w_currency wallet = Btc) then display_at price (Number (amount balanceAmount)) else None in
      sendBalance i18n balanceAmount tokens displayBalanceAmount (u_language recipientUser)
  end.

Fixpoint notify_users (price : result number) (accounts : list Account) : nprog (result unit) :=
  match accounts with
  | [] => Ret (Ok tt)
  | account :: rest =>
      let! r <- notifyUser price account ;;
      match r with Throw e => Ret (Throw e) | _ => notify_users price rest end
  end.

(** [throw accounts] *)
Definition sendDefaultWalletBalanceToUsers (monthlyVolumeThreshold : number) : nprog (result unit) :=
  let! accounts <- nlift (getRecentlyActiveAccounts monthlyVolumeThreshold) ;;
  match accounts with
  | Er e | Throw e => Ret (Throw e)
  | Ok accounts =>
      let! price <- pbase GetCurrentPrice ;;
      match price with
      | Throw e => Ret (Throw e)
      | _ => notify_users price accounts
      end
  end.

End Trigger.

(** ** What the server does *)

Module TriggerSpec.
Import InvoiceReceiver InvoiceProtocol InvoiceClaims.

(** *** The calls of payments *)

Definition base_env (env : forall X, ncall X -> X) (X : Type) (c : call X) : X := env X (NBase (Base c)).

Definition base_event (ev : happening ncall) : list event :=
  match ev with
  | Ev c x =>
      match c in ncall X return X -> list event with
      | NBase c => fun x =>
          match c in acall X return X -> list event with
          | Base c => fun x => [Ev c x]
          | _ => fun _ => []
          end x
      | _ => fun _ => []
      end x
  end.

Lemma run_plift {A} (env : forall X, ncall X -> X) (p : prog A) :
  fst (run env (plift p)) ≫= base_event = fst (run (base_env env) p) /\
  snd (run env (plift p)) = snd (run (base_env env) p).
Proof.
  induction p as [a|X c k IH]; [done|]. unfold plift, nlift, lift in *. simpl.
  destruct (IH (base_env env X c)) as [H1 H2].
  change (env X (NBase (Base c))) with (base_env env X c) in *.
  destruct (run env (interp _ (interp _ (k (base_env env X c))))) as [tr r].
  destruct (run (base_env env) (k (base_env env X c))) as [tr' r']. cbn [fst snd] in *.
  by rewrite bind_cons, H1, H2.
Qed.

(** *** The restart *)

Definition listened (ev : happening ncall) : list string :=
  match ev with
  | Ev c _ => match c with SubscribeToInvoice _ h => [h] | _ => [] end
  end.

Section Restart.
Context (env : forall X, ncall X -> X) (lnd pubkey : string).

Definition record_of (i : LnInvoiceLookup) : result WalletInvoice :=
  base_env env _ (InvoiceFindByPaymentHash (il_paymentHash i)).
Definition is_bitcoin (wi : WalletInvoice) : bool := bool_decide (wd_currency (wi_recipient wi) = Btc).

(** An open invoice is listened to, unless it is held and not the one of a bitcoin wallet. *)
Definition to_listen (i : LnInvoiceLookup) : bool :=
  negb (il_isSettled i || il_isCanceled i) &&
  (negb (il_isHeld i) || match record_of i with Ok wi => is_bitcoin wi | _ => false end).
(** A held invoice is declined when it is unknown or the one of a dollar wallet. *)
Definition to_decline (i : LnInvoiceLookup) : bool :=
  il_isHeld i &&
  match record_of i with
  | Ok wi => negb (is_bitcoin wi)
  | Er e => is_a e CouldNotFindWalletInvoiceError
  | Throw _ => false
  end.

Lemma run_existing l : (forall i e, i ∈ l -> record_of i <> Throw e) ->
  fst (run env (listen_existing lnd pubkey l)) ≫= listened = List.map il_paymentHash (List.filter to_listen l) /\
  snd (run env (listen_existing lnd pubkey l)) =
    (Ok tt, List.map (fun i => plift (declineHeldInvoice pubkey (il_paymentHash i))) (List.filter to_decline l)).
Proof.
  induction l as [|i l IH]; intros Hok; [done|].
  destruct IH as [IH1 IH2]; [intros j e Hj; apply Hok; by right|].
  assert (Hi := fun e => Hok i e (list_elem_of_here _ _)).
  set (declines := List.map (fun i => plift (declineHeldInvoice pubkey (il_paymentHash i))) (List.filter to_decline l)) in *.
  set (closed := (il_isSettled i || il_isCanceled i)%bool).
  set (listen := if closed then listen_existing lnd pubkey l
    else pbind (do_call (SubscribeToInvoice lnd (il_paymentHash i))) (fun _ => listen_existing lnd pubkey l)).
  assert (Hlisten : fst (run env listen) ≫= listened =
      (if closed then [] else [il_paymentHash i]) ++ List.map il_paymentHash (List.filter to_listen l) /\
      snd (run env listen) = (Ok tt, declines)).
  { unfold listen. destruct closed; [done|]. simpl. rewrite <- IH1, <- IH2.
    by destruct (run env (listen_existing lnd pubkey l)). }
  set (declined := pbind (listen_existing lnd pubkey l) (fun rest =>
    Ret (fst rest, plift (declineHeldInvoice pubkey (il_paymentHash i)) :: snd rest))).
  assert (Hdeclined : fst (run env declined) ≫= listened = List.map il_paymentHash (List.filter to_listen l) /\
      snd (run env declined) = (Ok tt, plift (declineHeldInvoice pubkey (il_paymentHash i)) :: declines)).
  { unfold declined. rewrite run_bind, IH2. simpl. by rewrite app_nil_r. }
  cbn [listen_existing List.filter]. fold closed listen declined.
  unfold to_listen at 1 3, to_decline at 1 3. destruct (il_isHeld i); cbn [negb orb andb].
  - rewrite run_bind. cbn [fst snd run do_call pbase].
    change (env _ (NBase (Base (InvoiceFindByPaymentHash (il_paymentHash i))))) with (record_of i).
    rewrite bind_app. cbn [app mbind list_bind listened].
    destruct (record_of i) as [wi|e|e] eqn:Hr; [| |by destruct (Hi e)].
    + unfold is_bitcoin. destruct (decide _) as [Hb|Hb]; [rewrite bool_decide_eq_true_2 by done|
        rewrite bool_decide_eq_false_2 by done]; cbn [negb].
      * rewrite andb_true_r. fold closed. destruct Hlisten as [-> ->]. by destruct closed.
      * by rewrite andb_false_r.
    + rewrite andb_false_r. by destruct (is_a e _).
  - rewrite andb_true_r. fold closed. destruct Hlisten as [-> ->]. by destruct closed.
Qed.
End Restart.

(** The listeners that the subscriptions of a restart make. *)
Definition listening (hashes : list string) (s : Listeners) : Listeners :=
  fold_left (fun s h => listenerHodlInvoice h s) hashes s.
Definition fresh (s : Listeners) : Prop := forall k h, li_invoices s !! k = Some h -> (k < li_next s)%nat.

Lemma listen_fresh h s : fresh s -> fresh (listenerHodlInvoice h s).
Proof.
  intros Hf k h' Hk. simpl in *. apply lookup_insert_Some in Hk as [[<- _]|[_ Hk]]; [lia|].
  apply Hf in Hk. lia.
Qed.

Lemma listening_live hashes s : fresh s ->
  (forall k h, li_invoices s !! k = Some h -> li_invoices (listening hashes s) !! k = Some h) /\
  (forall h, h ∈ hashes -> exists k, li_invoices (listening hashes s) !! k = Some h).
Proof.
  revert s. induction hashes as [|h0 hashes IH]; intros s Hf; simpl.
  - split; [done|]. intros h Hh. by apply elem_of_nil in Hh.
  - destruct (IH (listenerHodlInvoice h0 s) (listen_fresh h0 s Hf)) as [IH1 IH2]. split.
    + intros k h Hk. apply IH1. simpl. rewrite lookup_insert_ne; [done|]. apply Hf in Hk. lia.
    + intros h [->|Hh]%elem_of_cons; [|by apply IH2]. exists (li_next s). apply IH1. simpl.
      by rewrite lookup_insert_eq.
Qed.

(** C21. When the server of events restarts, every service answers and the node lists an
    open invoice that it holds and that is recorded for a bitcoin wallet, the
    restart subscribes to it, and the first update that says it is held starts a
    handler that answers true and moves exactly one credit, of the amounts of the
    invoice, to its wallet. *)
Theorem restart_credits_held_invoices (cfg : Settings) (env : forall X, ncall X -> X) (lnd pubkey : string)
    (l : list LnInvoiceLookup) (i : LnInvoiceLookup) (wi : WalletInvoice) (rc : Receiver)
    (Hwell : forall X (c : call X), answered c (base_env env X c) = true)
    (Hlist : env _ (LndListInvoices lnd) = Ok l) (Hin : i ∈ l)
    (Hopen : il_isHeld i = true /\ il_isSettled i = false /\ il_isCanceled i = false)
    (Hrecord : record_of env i = Ok wi) (Hhash : wi_paymentHash wi = il_paymentHash i)
    (Hbitcoin : wd_currency (wi_recipient wi) = Btc)
    (Hlookup : base_env env _ (LndLookupInvoice (wi_pubkey wi) (wi_paymentHash wi)) = Ok i)
    (Hpaid : paid_to_node wi i) (Hreceives : receives cfg wi i rc) :
  let start := run env (listenerExistingHodlInvoices lnd pubkey) in
  let s := listening (fst start ≫= listened) no_listeners in
  fst (snd start) = Ok tt /\
  exists k, li_invoices s !! k = Some (il_paymentHash i) /\
  exists handler, on_event cfg (InvoiceUpdated k (mkNodeInvoice (il_paymentHash i) true false false)) s = (s, [handler]) /\
    snd (run env handler) = Ok true /\
    money_trace (fst (run env handler) ≫= base_event) = [Credited (wi_recipient wi) (both_of rc)].
Proof.
  destruct Hopen as (Hheld & Hsettled & Hcanceled).
  assert (Hnode : exists info, base_env env _ LndService = Ok info).
  { specialize (Hwell _ LndService). destruct (base_env env _ LndService); [by eexists|done..]. }
  destruct Hnode as [info Hnode]. unfold base_env in Hnode.
  assert (Hstart : run env (listenerExistingHodlInvoices lnd pubkey) =
    (Ev (NBase (Base LndService)) (Ok info) :: Ev (LndListInvoices lnd) (Ok l) :: fst (run env (listen_existing lnd pubkey l)),
     snd (run env (listen_existing lnd pubkey l)))).
  { unfold listenerExistingHodlInvoices. simpl. rewrite Hnode. simpl. rewrite Hlist.
    by destruct (run env (listen_existing lnd pubkey l)). }
  destruct (run_existing env lnd pubkey l) as [H1 H2].
  { intros j e _ Ht. specialize (Hwell _ (InvoiceFindByPaymentHash (il_paymentHash j))).
    unfold record_of in Ht. by rewrite Ht in Hwell. }
  cbv zeta. rewrite Hstart. cbn [fst snd]. rewrite !bind_cons. cbn [listened app].
  rewrite H1, H2. split; [done|].
  destruct (proj2 (listening_live (List.map il_paymentHash (List.filter (to_listen env) l)) no_listeners ltac:(done))
    (il_paymentHash i)) as [k Hk].
  { apply list_elem_of_In, in_map, List.filter_In. split; [by apply list_elem_of_In|]. unfold to_listen.
    rewrite Hsettled, Hcanceled, Hheld, Hrecord. unfold is_bitcoin. by rewrite bool_decide_eq_true_2. }
  exists k. split; [done|]. eexists. split; [simpl; rewrite Hk; reflexivity|].
  unfold invoiceUpdateEventHandler. cbn [ni_is_held ni_id].
  destruct (run_plift env (updatePendingInvoiceByPaymentHash cfg (il_paymentHash i))) as [-> ->].
  unfold updatePendingInvoiceByPaymentHash. simpl. unfold record_of in Hrecord. rewrite Hrecord.
  destruct (held_invoice_credited cfg wi (base_env env) i rc Hwell Hlookup Hpaid Hreceives) as [Hr Hm].
  destruct (run (base_env env) (updatePendingInvoice cfg wi)) as [tr r]. cbn [fst snd] in *. by rewrite Hr.
Qed.

(** *** Transactions on chain *)

Import NotificationsSpec.

(** The settlements that are asked for. *)
Definition settles (ev : happening ncall) : list string :=
  match ev with Ev c _ => match c with LedgerSettlePendingOnChainPayment h => [h] | _ => [] end end.

(** An update of a transaction of [tx] for a wallet, of an amount, on the channel of its account. *)
Definition tells (tx : ChainTransaction) (type : NotificationType) (w : Wallet) (sats : number)
    (t : string) (p : PubSubPayload) : Prop :=
  t = customPubSubTrigger AccountUpdateTrigger (w_accountId w) /\
  exists d, p = PTransaction d /\ up_walletId d = w_id w /\ up_type d = type /\
    BigInt sats = Some (up_amount d) /\ up_currency d = w_currency w /\ up_txHash d = Some (ct_id tx).

Definition net_tokens (tx : ChainTransaction) : number :=
  num_sub (ct_tokens tx) (match opt_number (ct_fee tx) with Some f => f | None => num 0 end).

(** What the account of a wallet is told: its account and the user of the account are asked for, and
    when both are found and the amount is whole, one update is published, and none otherwise. *)
Definition owner_told (tx : ChainTransaction) (type : NotificationType) (w : Wallet) (sats : number)
    (calls : list event) (updates : list (string * PubSubPayload)) : Prop :=
  exists a rest, calls = Ev (AccountFindById (w_accountId w)) a :: rest /\
    match a with
    | Ok acc => exists u, rest = [Ev (UserFindById (acc_ownerId acc)) u] /\
        match u, BigInt sats with
        | Ok _, Some _ => exists t p, updates = [(t, p)] /\ tells tx type w sats t p
        | _, _ => updates = []
        end
    | _ => rest = [] /\ updates = []
    end.

(** A task that tells the account of a wallet that the transaction is pending, and settles nothing. *)
Definition pending_task (tx : ChainTransaction) (w : Wallet) (task : nprog (result unit)) : Prop :=
  forall tr r, exec task tr r -> tr ≫= settles = [] /\
    owner_told tx OnchainReceiptPending w (ct_tokens tx) (tr ≫= base_event) (tr ≫= published).

(** The tasks due for an incoming transaction, from the wallets found for the addresses of its
    outputs: one for each wallet, in their order, unless it is confirmed or the price threw. *)
Definition tasks_due (tx : ChainTransaction) (calls : list event) (tasks : list (nprog (result unit))) : Prop :=
  exists found rest, calls = Ev (WalletListByAddresses (ct_output_addresses tx)) found :: rest /\
    match found with
    | Ok l =>
        if ct_is_confirmed tx then rest = [] /\ tasks = []
        else exists price, rest = [Ev GetCurrentPrice price] /\
          match price with
          | Throw _ => tasks = []
          | _ => Forall2 (pending_task tx) (List.map aw_wallet l) tasks
          end
    | _ => rest = [] /\ tasks = []
    end.

Lemma push_settles i18n type amt display tokens language tr r :
  exec (push i18n type amt display tokens language) tr r -> tr ≫= settles = [] /\ tr ≫= base_event = [].
Proof.
  unfold push, sendNotification. intros He. destruct tokens; [by apply exec_inv in He as [-> _]|].
  destruct (createPushNotificationContent _ _ _ _ _) as [[]|e|e]; [|by apply exec_inv in He as [-> _]..].
  destruct (Nat.leb _ 0); simpl in He; [by apply exec_inv in He as [-> _]|].
  apply exec_inv in He as (? & ? & -> & He). by apply exec_inv in He as [-> _].
Qed.

(** The notification of a transaction on chain, then an answer. *)
Lemma chain_notice_told {B} i18n tx type w z display tokens language (b : B) sats tr r :
  BigInt sats = Some z ->
  exec (let! _ <- sendOnChainNotification i18n type
          (mkNotice (w_accountId w) (w_id w) (mkAmount z (w_currency w)) display tokens language) (ct_id tx) ;;
        Ret b) tr r ->
  r = b /\ tr ≫= settles = [] /\ tr ≫= base_event = [] /\
  exists t p, tr ≫= published = [(t, p)] /\ tells tx type w sats t p.
Proof.
  intros Hz He. apply exec_bind_inv in He as (tr1 & a & tr2 & -> & H1 & H2).
  apply exec_inv in H2 as [-> ->]. rewrite app_nil_r.
  apply publish_inv in H1 as (x & tr' & ? & -> & H1). rewrite !bind_cons.
  destruct (push_quiet _ _ _ _ _ _ _ _ H1) as [-> _].
  destruct (push_settles _ _ _ _ _ _ _ _ H1) as [-> ->].
  split_and!; [done..|]. do 2 eexists. split; [reflexivity|]. split; [done|]. by eexists.
Qed.

(** An execution that stops here. *)
Ltac stops He := apply exec_inv in He as [-> ->].

Lemma with_price_inv k tr h : exec (with_price k) tr h -> exists price tr',
  tr = Ev (NBase (Base GetCurrentPrice)) price :: tr' /\
  match price with Throw _ => tr' = [] /\ hd_background h = [] | _ => exec (k price) tr' h end.
Proof.
  intros He. apply exec_inv in He as (price & tr' & -> & He). exists price, tr'. split; [done|].
  destruct price; [done..|]. by apply exec_inv in He as [-> ->].
Qed.

Lemma no_account_told tx type w sats a : (forall acc, a <> Ok acc) ->
  owner_told tx type w sats [Ev (AccountFindById (w_accountId w)) a] [].
Proof. intros Ha. do 2 eexists. split; [done|]. destruct a; [by edestruct Ha|done..]. Qed.

Lemma owner_not_told tx type w sats acc u :
  (forall user z, u = Ok user -> BigInt sats <> Some z) ->
  owner_told tx type w sats [Ev (AccountFindById (w_accountId w)) (Ok acc); Ev (UserFindById (acc_ownerId acc)) u] [].
Proof.
  intros Hu. do 2 eexists. split; [done|]. eexists. split; [done|].
  destruct u; [|done..]. destruct (BigInt sats); [by edestruct Hu|done].
Qed.

Lemma pending_told i18n tx display w : pending_task tx w (pending_notice i18n tx display w).
Proof.
  unfold pending_notice, pbase. intros tr r He.
  apply exec_inv in He as (a & tr1 & -> & He). rewrite !bind_cons. cbn [settles published base_event app].
  destruct a as [acc|e|e]; [|stops He; split; [done|by apply no_account_told]..].
  apply exec_inv in He as (u & tr2 & -> & He). rewrite !bind_cons. cbn [settles published base_event app].
  cbn [rpbind pbind] in He. destruct u as [u|e|e]; [|stops He; split; [done|by apply owner_not_told]..].
  destruct (BigInt (ct_tokens tx)) as [z|] eqn:Hz;
    [|stops He; split; [done|apply owner_not_told; by rewrite Hz]].
  apply (chain_notice_told _ _ _ _ _ _ _ _ _ _ _ _ Hz) in He as (-> & -> & -> & Ht).
  split; [done|]. do 2 eexists. split; [done|]. eexists. split; [done|]. by rewrite Hz.
Qed.

(** What is published for the sender, the wallet with this identifier. *)
Definition sender_told (tx : ChainTransaction) (id : string) (calls : list event)
    (updates : list (string * PubSubPayload)) : Prop :=
  exists found rest, calls = Ev (WalletFindById id) found :: rest /\
    match found with
    | Ok w => owner_told tx OnchainPayment w (net_tokens tx) rest updates
    | _ => rest = [] /\ updates = []
    end.

(** An outgoing transaction that is confirmed: it is settled, the wallet of its hash is asked for, and
    the price, before the sender is told. *)
Definition sent_told (tx : ChainTransaction) (tr : list (happening ncall)) : Prop :=
  exists settlement tr1, tr = Ev (LedgerSettlePendingOnChainPayment (ct_id tx)) settlement :: tr1 /\
    match settlement with
    | Ok _ =>
        exists found tr2, tr1 = Ev (LedgerWalletIdByTransactionHash (ct_id tx)) found :: tr2 /\
          match found with
          | Ok id =>
              exists price tr3, tr2 = Ev (NBase (Base GetCurrentPrice)) price :: tr3 /\
                match price with
                | Throw _ => tr3 = []
                | _ => sender_told tx id (tr3 ≫= base_event) (tr3 ≫= published)
                end
          | _ => tr2 = []
          end
    | _ => tr1 = []
    end.

Lemma sender_notified i18n tx id price tr h : exec (notify_sender i18n tx id price) tr h ->
  tr ≫= settles = [] /\ hd_background h = [] /\ sender_told tx id (tr ≫= base_event) (tr ≫= published).
Proof.
  unfold notify_sender, hbind, pbase. fold (net_tokens tx). intros He.
  apply exec_inv in He as (w & tr1 & -> & He). rewrite !bind_cons. cbn [settles published base_event app].
  destruct w as [w|e|e]; [|stops He; split_and!; [done..|]; do 2 eexists; by split..].
  apply exec_inv in He as (a & tr2 & -> & He). rewrite !bind_cons. cbn [settles published base_event app].
  assert (Hsent : forall calls updates, owner_told tx OnchainPayment w (net_tokens tx) calls updates ->
    sender_told tx id (Ev (WalletFindById id) (Ok w) :: calls) updates)
    by (intros; do 2 eexists; by split).
  destruct a as [acc|e|e]; [|stops He; split_and!; [done..|]; by apply Hsent, no_account_told..].
  apply exec_inv in He as (u & tr3 & -> & He). rewrite !bind_cons. cbn [settles published base_event app].
  cbn [pbind] in He. destruct u as [u|e|e]; [|stops He; split_and!; [done..|]; by apply Hsent, owner_not_told..].
  destruct (BigInt (net_tokens tx)) as [z|] eqn:Hz;
    [|stops He; split_and!; [done..|]; apply Hsent, owner_not_told; by rewrite Hz].
  apply (chain_notice_told _ _ _ _ _ _ _ _ _ _ _ _ Hz) in He as (-> & -> & -> & Ht).
  split_and!; [done..|]. apply Hsent. do 2 eexists. split; [done|]. eexists. split; [done|]. by rewrite Hz.
Qed.

(** C34. When the node reports an outgoing transaction, nothing is done unless it is
    confirmed; then its settlement is asked for once and, when that succeeded, the
    wallet of its hash was found and the price did not raise, the wallet, its
    account and its user are looked up and exactly one update of the tokens less the
    fee is asked to be published to that account when all were found and the amount
    is whole, and none otherwise. When it reports an incoming one, nothing is
    settled or published, the wallets of the addresses of its outputs are looked up
    and, exactly if they were found, it is unconfirmed and the price did not raise,
    there is one task for each of them, in order, which looks up the account and the
    user of the wallet and asks for exactly one pending update of the tokens to that
    account when both were found and the amount is whole, and none otherwise. *)
Theorem chain_events_told (i18n : Translations) (tx : ChainTransaction) (tr : list (happening ncall))
    (h : Handled unit) (He : exec (onchainTransactionEventHandler i18n tx) tr h) :
  tr ≫= settles = (if ct_is_outgoing tx && ct_is_confirmed tx then [ct_id tx] else []) /\
  (if ct_is_outgoing tx then
     hd_background h = [] /\ (if ct_is_confirmed tx then sent_told tx tr else tr = [])
   else tr ≫= published = [] /\ tasks_due tx (tr ≫= base_event) (hd_background h)).
Proof.
  unfold onchainTransactionEventHandler, or_return, sent_told in *.
  destruct (ct_is_outgoing tx); [destruct (ct_is_confirmed tx)|]; cbn [negb andb] in *.
  - apply exec_inv in He as (s & tr1 & -> & He). rewrite bind_cons.
    destruct s as [[]|e|e]; [|stops He; split_and!; [done..|]; do 2 eexists; by split..].
    apply exec_inv in He as (id & tr2 & -> & He). rewrite bind_cons.
    destruct id as [id|e|e]; [|stops He; split_and!; [done..|]; do 2 eexists; (split; [done|]);
      do 2 eexists; by split..].
    cbn [pbind] in He. apply with_price_inv in He as (price & tr3 & -> & He). rewrite bind_cons.
    destruct price as [p|e|e]; [apply sender_notified in He as (-> & -> & Ht)..|destruct He as [-> ->]];
      (split_and!; [done..|]; do 2 eexists; (split; [done|]); do 2 eexists; (split; [done|]);
       do 2 eexists; by split).
  - by stops He.
  - apply exec_inv in He as ([] & tr1 & -> & He).
    apply exec_inv in He as (found & tr2 & -> & He). rewrite !bind_cons. cbn [settles published base_event app].
    destruct found as [l|e|e]; [|stops He; split_and!; [done..|]; do 2 eexists; by split..].
    unfold tasks_due. destruct (ct_is_confirmed tx); cbn [negb] in He;
      [stops He; split_and!; [done..|]; do 2 eexists; by split|].
    cbn [pbind] in He. apply with_price_inv in He as (price & tr3 & -> & He).
    assert (Hall : forall display, Forall2 (pending_task tx) (List.map aw_wallet l)
      (List.map (fun w => pending_notice i18n tx display (aw_wallet w)) l)).
    { intros display. clear. induction l as [|w l IH]; constructor; [apply pending_told|exact IH]. }
    destruct price as [p|e|e]; [stops He..|destruct He as [-> ->]];
      (split_and!; [done..|]; do 2 eexists; (split; [reflexivity|]); eexists; (split; [reflexivity|]);
       first [done|apply Hall]).
Qed.

(** *** Listeners of invoices *)

Section Listening.
Context (cfg : Settings).

Lemma on_events_app evs1 evs2 s :
  on_events cfg (evs1 ++ evs2) s =
    (fst (on_events cfg evs2 (fst (on_events cfg evs1 s))),
     snd (on_events cfg evs1 s) ++ snd (on_events cfg evs2 (fst (on_events cfg evs1 s)))).
Proof.
  revert s. induction evs1 as [|ev evs1 IH]; intros s; simpl; [by destruct (on_events _ _ _)|].
  destruct (on_event cfg ev s) as [s1 p1]. rewrite IH.
  destruct (on_events cfg evs1 s1) as [s2 p2]. simpl.
  destruct (on_events cfg evs2 s2) as [s3 p3]. simpl. by rewrite app_assoc.
Qed.

(** A subscription that was closed starts nothing any more: its number is not used again. *)
Definition closed (k : nat) (s : Listeners) : Prop := (k < li_next s)%nat /\ li_invoices s !! k = None.

Lemma closed_event k ev s : closed k s -> closed k (fst (on_event cfg ev s)).
Proof.
  intros [Hk Hs]. unfold closed. destruct ev as [i| |j i|j]; simpl.
  - destruct (_ && _)%bool; simpl; [|done]. split; [lia|]. rewrite lookup_insert_ne; [done|lia].
  - done.
  - destruct (li_invoices s !! j); [|done]. destruct (_ || _)%bool; simpl; [|done].
    split; [done|]. by rewrite lookup_delete_None; right.
  - split; [done|]. by rewrite lookup_delete_None; right.
Qed.

Lemma closed_events k evs s : closed k s -> closed k (fst (on_events cfg evs s)).
Proof.
  revert s. induction evs as [|ev evs IH]; intros s Hs; simpl; [done|].
  pose proof (closed_event k ev s Hs) as H1. destruct (on_event cfg ev s) as [s1 p1].
  specialize (IH s1 H1). by destruct (on_events cfg evs s1).
Qed.

Lemma fresh_event ev s : fresh s -> fresh (fst (on_event cfg ev s)).
Proof.
  intros Hf. destruct ev as [i| |j i|j]; simpl; [|done| |].
  - destruct (_ && _)%bool; [by apply listen_fresh|done].
  - destruct (li_invoices s !! j); [|done]. destruct (_ || _)%bool; [|done].
    intros k h Hk. simpl in Hk. apply lookup_delete_Some in Hk as [_ Hk]. by eapply Hf.
  - intros k h Hk. simpl in Hk. apply lookup_delete_Some in Hk as [_ Hk]. by eapply Hf.
Qed.

Lemma fresh_events evs s : fresh s -> fresh (fst (on_events cfg evs s)).
Proof.
  revert s. induction evs as [|ev evs IH]; intros s Hs; simpl; [done|].
  pose proof (fresh_event ev s Hs) as H1. destruct (on_event cfg ev s) as [s1 p1].
  specialize (IH s1 H1). by destruct (on_events cfg evs s1).
Qed.

(** The event ends the subscription. *)
Definition ends (k : nat) (ev : node_event) : bool :=
  match ev with
  | InvoiceUpdated j i => Nat.eqb j k && (ni_is_confirmed i || ni_is_canceled i)
  | InvoiceError j => Nat.eqb j k
  | _ => false
  end.

Lemma ended_closed k ev s : fresh s -> is_Some (li_invoices s !! k) -> ends k ev = true ->
  closed k (fst (on_event cfg ev s)).
Proof.
  intros Hf [h Hk] He. pose proof (Hf _ _ Hk) as Hlt.
  destruct ev as [i| |j i|j]; simpl in He; try done.
  - apply andb_true_iff in He as [->%Nat.eqb_eq He]. simpl. rewrite Hk, He. simpl. unfold closed. simpl.
    by rewrite lookup_delete_eq.
  - apply Nat.eqb_eq in He as ->. unfold closed. simpl. by rewrite lookup_delete_eq.
Qed.

(** While a subscription to an invoice is open, an update that neither confirms nor
    cancels the invoice starts its handler; after an update that does, or an error,
    no later update of the subscription starts anything. *)
Theorem listeners_until_done (s : Listeners) (pre post : list node_event) (k : nat) (ev : node_event)
    (invoice : NodeInvoice) (Hfresh : fresh s)
    (Hlive : is_Some (li_invoices (fst (on_events cfg pre s)) !! k)) :
  let s1 := fst (on_events cfg pre s) in
  (ends k (InvoiceUpdated k invoice) = false ->
     on_event cfg (InvoiceUpdated k invoice) s1 = (s1, [invoiceUpdateEventHandler cfg invoice])) /\
  (ends k ev = true ->
     snd (on_event cfg ev s1) = [] /\
     on_event cfg (InvoiceUpdated k invoice) (fst (on_events cfg (ev :: post) s1)) =
       (fst (on_events cfg (ev :: post) s1), [])).
Proof.
  intros s1. split.
  - simpl. rewrite Nat.eqb_refl. destruct Hlive as [h Hk]. unfold s1. rewrite Hk. simpl. by intros ->.
  - intros He. split.
    + destruct ev as [i| |j i|j]; simpl in *; try done. apply andb_true_iff in He as [->%Nat.eqb_eq He].
      destruct Hlive as [h Hk]. unfold s1. by rewrite Hk, He.
    + assert (Hc : closed k (fst (on_events cfg (ev :: post) s1))).
      { pose proof (ended_closed k ev s1 (fresh_events pre s Hfresh) Hlive He) as H1. simpl.
        destruct (on_event cfg ev s1) as [s2 p2]. pose proof (closed_events k post s2 H1) as H2.
        by destruct (on_events cfg post s2). }
      destruct Hc as [_ Hc]. simpl in Hc |- *. by rewrite Hc.
Qed.

End Listening.

(** *** A restart with a held invoice *)

Definition trigger_env (X : Type) (c : ncall X) : X :=
  match c in ncall X return X with
  | NBase c =>
      match c in acall X return X with
      | Base c =>
          match c in call X return X with
          | WalletListByAddresses addresses => Ok [mkAddressed (mkWalletRec "bob" "acc2" Btc) addresses]
          | c => answering_env _ c
          end
      | c => LoginSpec.plain_answer _ c
      end
  | LndListInvoices _ => Ok [held_lookup]
  | LedgerWalletIdByTransactionHash _ => Ok "bob"
  | c => NotificationsSpec.sample_env _ c
  end.

Lemma restart_credits_held_invoices_witness :
  exists k handler, snd (run trigger_env handler) = Ok true /\
    on_event PaymentClaims.sample_settings (InvoiceUpdated k (mkNodeInvoice "h1" true false false))
      (listening ["h1"] no_listeners) = (listening ["h1"] no_listeners, [handler]).
Proof.
  destruct (restart_credits_held_invoices PaymentClaims.sample_settings trigger_env "127.0.0.1" "pk" [held_lookup]
    held_lookup held_invoice held_receiver) as [_ (k & _ & handler & H1 & H2 & _)].
  - intros X c. by destruct c.
  - reflexivity.
  - left.
  - by split_and!.
  - reflexivity.
  - reflexivity.
  - reflexivity.
  - reflexivity.
  - by split_and!; vm_compute.
  - exists (mkAmount 1000 Btc). split; vm_compute; reflexivity.
  - exists k, handler. split; [exact H2|exact H1].
Defined.

Definition sent_tx : ChainTransaction := mkChainTx "tx1" (Some (num 200)) true true (num 5200) [].

Definition pending_tx : ChainTransaction := mkChainTx "tx2" None false false (num 5000) ["bc1w1"].

Lemma chain_events_told_witness :
  sent_told sent_tx (fst (run trigger_env (onchainTransactionEventHandler plain_translations sent_tx))) /\
  length (fst (run trigger_env (onchainTransactionEventHandler plain_translations sent_tx)) ≫= published) = 1%nat /\
  length (hd_background (snd (run trigger_env (onchainTransactionEventHandler plain_translations pending_tx)))) = 1%nat.
Proof.
  split; [|split; vm_compute; reflexivity].
  exact (proj2 (proj2 (chain_events_told plain_translations sent_tx _ _ (run_exec trigger_env _)))).
Defined.

Lemma listeners_until_done_witness :
  on_event PaymentClaims.sample_settings (InvoiceUpdated 0 (mkNodeInvoice "h1" true false false))
    (fst (on_events PaymentClaims.sample_settings [InvoiceError 0; InvoicesError] (listening ["h1"] no_listeners))) =
  (fst (on_events PaymentClaims.sample_settings [InvoiceError 0; InvoicesError] (listening ["h1"] no_listeners)), []).
Proof.
  refine (proj2 (proj2 (listeners_until_done PaymentClaims.sample_settings (listening ["h1"] no_listeners) []
    [InvoicesError] 0 (InvoiceError 0) (mkNodeInvoice "h1" true false false) _ _) eq_refl)).
  - apply listen_fresh. done.
  - by eexists.
Defined.

End TriggerSpec.
