(* ===== verification/Resolvers.v ===== *)
(** * Resolvers of the interface

    [lib/graphql/root/mutation], [lib/graphql/admin/root/mutation] and
    [lib/graphql/helpers.js].  A resolver refuses the arguments that the scalars refused,
    calls a handler of the application and makes a payload of its answer: the errors that
    the client is told, and what it asked for.

    An error that [mapError] has no case for makes the resolver raise ([Throw]). *)

From S2P Require Import Prelude JsNum Errors ErrorMap Money Regex PaymentFlow Validation Accounts TxMetadata Facade LedgerService LedgerWrites RateLimit Programs Effects Persistence AccountRepo Workers Payments AccountHandlers Rewards Login Invoices Prices Lnd LnPayments PendingPayments FeeProbe OnChain Scalars Treasury.
#[local] Open Scope string_scope.
#[local] Open Scope Z_scope.
#[local] Open Scope list_scope.

(** ** Payloads *)

(** An error of a payload: a message, or what [mapAndParseErrorForGqlResponse] gives. *)
Inductive GqlError : Type :=
| Message (message : string)
| Mapped (e : IError).

Record Payload (A : Type) : Type := mkPayload {
  pl_errors : list GqlError;
  pl_data : option A
}.
Arguments mkPayload {A} _ _.
Arguments pl_errors {A} _.
Arguments pl_data {A} _.

(** [{ amount, currencyUnit }] *)
Inductive ExchangeCurrencyUnit : Type := BtcSat | UsdCent.
Definition normalizePaymentAmount (a : PaymentAmount) : number * ExchangeCurrencyUnit :=
  (Number (amount a), match currency a with Usd => UsdCent | Btc => BtcSat end).

Section Resolvers.
Context (dust : string).

Definition refused {E A} (message : string) : program E (result (Payload A)) :=
  Ret (Ok (mkPayload [Message message] None)).

(** [if (x instanceof Error) return { errors: [{ message: x.message }] }] *)
Definition checked_arg {E A B} (x : input A) (k : A -> program E (result (Payload B)))
    : program E (result (Payload B)) :=
  match x with Valid a => k a | Invalid message => refused message end.

Notation "'arg' a '<-' x ';;' k" := (checked_arg x (fun a => k))
  (at level 100, a pattern, x at level 99, k at level 200, right associativity).

(** [{ errors: [mapAndParseErrorForGqlResponse(e)], ...data }] *)
Definition failed {A} (data : option A) (e : error) : result (Payload A) :=
  let* ie := mapAndParseErrorForGqlResponse dust e in Ok (mkPayload [Mapped ie] data).

(** The payload of an answer; [data] is what is given besides an error. *)
Definition respond {E A B} (data : option B) (p : program E (result A)) (k : A -> B)
    : program E (result (Payload B)) :=
  let! r <- p ;;
  Ret match r with
      | Ok a => Ok (mkPayload [] (Some (k a)))
      | Er e => failed data e
      | Throw e => Throw e
      end.

(** ** [graphql/helpers.js] *)

Definition MutationDoesNotMatchWalletCurrencyError : string :=
  "MutationDoesNotMatchWalletCurrencyError".

(** The errors of a wallet that a mutation does not fit, none for [true]. *)
Definition validate_currency (other : WalletCurrency) (walletId : string)
    : aprog (result (list GqlError)) :=
  let! wallet <- base (WalletFindById walletId) ;;
  Ret match wallet with
      | Er e => let* ie := mapAndParseErrorForGqlResponse dust e in Ok [Mapped ie]
      | Throw e => Throw e
      | Ok w => if bool_decide (w_currency w = other)
                then Ok [Message MutationDoesNotMatchWalletCurrencyError] else Ok []
      end.
Definition validateIsBtcWalletForMutation := validate_currency Usd.
Definition validateIsUsdWalletForMutation := validate_currency Btc.

(** [if (validated != true) return validated] *)
Definition checked_wallet {A} (validated : aprog (result (list GqlError)))
    (k : aprog (result (Payload A))) : aprog (result (Payload A)) :=
  await errors <- validated ;;
  match errors with
  | [] => k
  | _ => Ret (Ok (mkPayload errors None))
  end.

(** ** Payments *)

Section Payments.
Context (cfg : Settings) (oc : OnChainConfig) (domainAccount : Account).

(** The answer of a payment: the status is ["failed"] besides an error. *)
Definition send_payload (p : prog (result PaymentSendStatus)) : aprog (result (Payload PaymentSendStatus)) :=
  respond (Some Failure) (lift p) (fun status => status).

Definition LnInvoicePaymentSendMutation (walletId paymentRequest : input string)
    (memo : input (option string)) : aprog (result (Payload PaymentSendStatus)) :=
  arg walletId <- walletId ;;
  arg paymentRequest <- paymentRequest ;;
  arg memo <- memo ;;
  send_payload (payInvoiceByWalletId cfg paymentRequest memo walletId domainAccount).

Definition noamount_payment (validate : string -> aprog (result (list GqlError)))
    (walletId paymentRequest : input string) (amt : input number) (memo : input (option string))
    : aprog (result (Payload PaymentSendStatus)) :=
  arg walletId <- walletId ;;
  arg paymentRequest <- paymentRequest ;;
  arg amt <- amt ;;
  arg memo <- memo ;;
  checked_wallet (validate walletId) (
    send_payload (payNoAmountInvoiceByWalletId cfg paymentRequest amt memo walletId domainAccount)).
Definition LnNoAmountInvoicePaymentSendMutation := noamount_payment validateIsBtcWalletForMutation.
Definition LnNoAmountUsdInvoicePaymentSendMutation := noamount_payment validateIsUsdWalletForMutation.

(** The hash of a payment inside the ledger is drawn by the handler. *)
Definition intraledger_payment (validate : string -> aprog (result (list GqlError))) (hash : string)
    (walletId recipientWalletId : input string) (amt : input number) (memo : input (option string))
    : aprog (result (Payload PaymentSendStatus)) :=
  arg walletId <- walletId ;;
  arg recipientWalletId <- recipientWalletId ;;
  arg amt <- amt ;;
  arg memo <- memo ;;
  match checkedToWalletId walletId with
  | Er e => Ret (failed None e)
  | Throw e => Ret (Throw e)
  | Ok _ =>
      checked_wallet (validate walletId) (
        match checkedToWalletId recipientWalletId with
        | Er e => Ret (failed None e)
        | Throw e => Ret (Throw e)
        | Ok recipientWalletIdChecked =>
            let! recipientUsername <- getUsernameFromWalletId recipientWalletIdChecked ;;
            match recipientUsername with
            | Er e => Ret (failed None e)
            | Throw e => Ret (Throw e)
            | Ok _ =>
                send_payload (intraledgerPaymentSendWalletId cfg hash recipientWalletId domainAccount
                                amt memo walletId)
            end
        end)
  end.
Definition IntraLedgerPaymentSendMutation := intraledger_payment validateIsBtcWalletForMutation.
Definition IntraLedgerUsdPaymentSendMutation := intraledger_payment validateIsUsdWalletForMutation.

Definition OnChainPaymentSendMutation (walletId address : input string) (amt : input number)
    (memo : input (option string)) (targetConfirmations : input (option number))
    : aprog (result (Payload PaymentSendStatus)) :=
  arg walletId <- walletId ;;
  arg address <- address ;;
  arg memo <- memo ;;
  arg targetConfirmations <- targetConfirmations ;;
  checked_wallet (validateIsBtcWalletForMutation walletId) (
    send_payload (payOnChainByWalletId oc domainAccount walletId (Some (unchecked_number amt)) address
                    targetConfirmations memo false)).

Definition OnChainPaymentSendAllMutation (walletId address : input string)
    (memo : input (option string)) (targetConfirmations : input (option number))
    : aprog (result (Payload PaymentSendStatus)) :=
  arg walletId <- walletId ;;
  arg address <- address ;;
  arg memo <- memo ;;
  arg targetConfirmations <- targetConfirmations ;;
  checked_wallet (validateIsBtcWalletForMutation walletId) (
    send_payload (payOnChainByWalletId oc domainAccount walletId (Some (num 0)) address
                    targetConfirmations memo true)).

End Payments.

(** ** Invoices *)

Section Invoices.
Context (cfg : Settings) (sha256 : string -> string).

Definition invoice_create (validate : string -> aprog (result (list GqlError))) (walletId : input string)
    (memo : input (option string)) (amt : input number) : aprog (result (Payload LnInvoice)) :=
  arg walletId <- walletId ;;
  arg memo <- memo ;;
  arg amt <- amt ;;
  checked_wallet (validate walletId) (
    respond None (lift (addInvoiceForSelf cfg sha256 walletId (Some amt) memo)) (fun lnInvoice => lnInvoice)).
Definition LnInvoiceCreateMutation := invoice_create validateIsBtcWalletForMutation.
Definition LnUsdInvoiceCreateMutation := invoice_create validateIsUsdWalletForMutation.

Definition recipient_invoice_create (validate : string -> aprog (result (list GqlError)))
    (recipientWalletId : input string) (amt : input number) (memo descriptionHash : input (option string))
    : aprog (result (Payload LnInvoice)) :=
  arg recipientWalletId <- recipientWalletId ;;
  arg amt <- amt ;;
  arg memo <- memo ;;
  arg descriptionHash <- descriptionHash ;;
  checked_wallet (validate recipientWalletId) (
    respond None (lift (addInvoiceForRecipient cfg sha256 recipientWalletId (Some amt) memo descriptionHash))
      (fun invoice => invoice)).
Definition LnInvoiceCreateOnBehalfOfRecipientMutation :=
  recipient_invoice_create validateIsBtcWalletForMutation.
Definition LnUsdInvoiceCreateOnBehalfOfRecipientMutation :=
  recipient_invoice_create validateIsUsdWalletForMutation.

Definition LnNoAmountInvoiceCreateMutation (walletId : input string) (memo : input (option string))
    : aprog (result (Payload LnInvoice)) :=
  arg walletId <- walletId ;;
  arg memo <- memo ;;
  respond None (lift (addInvoiceNoAmountForSelf cfg sha256 walletId memo)) (fun lnInvoice => lnInvoice).

(** The request, the hash and the secret are shown; the model of an invoice has the first two. *)
Definition LnNoAmountInvoiceCreateOnBehalfOfRecipientMutation (recipientWalletId : input string)
    (memo : input (option string)) : aprog (result (Payload (string * string))) :=
  arg recipientWalletId <- recipientWalletId ;;
  arg memo <- memo ;;
  respond None (lift (addInvoiceNoAmountForRecipient cfg sha256 recipientWalletId memo))
    (fun result => (inv_paymentRequest result, inv_paymentHash result)).

(** *** Fees *)

(** The payload of a fee that may come with an error. *)
Definition fee_payload (p : prog (result (PartialResult PaymentAmount)))
    : aprog (result (Payload (number * ExchangeCurrencyUnit))) :=
  await partial <- lift p ;;
  Ret match pr_result partial, pr_error partial with
      | Some feeSatAmount, Some e => failed (Some (normalizePaymentAmount feeSatAmount)) e
      | None, Some e => failed None e
      | None, None => failed None (new InvalidFeeProbeStateError)
      | Some feeSatAmount, None => Ok (mkPayload [] (Some (normalizePaymentAmount feeSatAmount)))
      end.

Definition LnInvoiceFeeProbeMutation (walletId paymentRequest : input string)
    : aprog (result (Payload (number * ExchangeCurrencyUnit))) :=
  arg walletId <- walletId ;;
  arg paymentRequest <- paymentRequest ;;
  checked_wallet (validateIsBtcWalletForMutation walletId) (
    fee_payload (getLightningFeeEstimation cfg walletId paymentRequest)).

Definition LnUsdInvoiceFeeProbeMutation (walletId paymentRequest : input string)
    : aprog (result (Payload (number * ExchangeCurrencyUnit))) :=
  arg walletId <- walletId ;;
  arg paymentRequest <- paymentRequest ;;
  match checkedToWalletId walletId with
  | Er e => refused (error_message e)
  | Throw e => Ret (Throw e)
  | Ok walletIdChecked =>
      checked_wallet (validateIsUsdWalletForMutation walletIdChecked) (
        fee_payload (getLightningFeeEstimation cfg walletId paymentRequest))
  end.

Definition noamount_fee_probe (validate : string -> aprog (result (list GqlError)))
    (walletId paymentRequest : input string) (amt : input number)
    : aprog (result (Payload (number * ExchangeCurrencyUnit))) :=
  arg walletId <- walletId ;;
  arg paymentRequest <- paymentRequest ;;
  arg amt <- amt ;;
  checked_wallet (validate walletId) (
    fee_payload (getNoAmountLightningFeeEstimation cfg walletId paymentRequest amt)).
Definition LnNoAmountInvoiceFeeProbeMutation := noamount_fee_probe validateIsBtcWalletForMutation.
Definition LnNoAmountUsdInvoiceFeeProbeMutation := noamount_fee_probe validateIsUsdWalletForMutation.

End Invoices.

(** ** Addresses *)

Definition OnChainAddressCreateMutation (walletId : input string) : aprog (result (Payload string)) :=
  arg walletId <- walletId ;;
  checked_wallet (validateIsBtcWalletForMutation walletId) (
    respond None (createOnChainAddress walletId) (fun address => address)).
Definition OnChainAddressCurrentMutation (walletId : input string) : aprog (result (Payload string)) :=
  arg walletId <- walletId ;;
  checked_wallet (validateIsBtcWalletForMutation walletId) (
    respond None (getLastOnChainAddress walletId) (fun address => address)).

(** ** Accounts and users *)

Definition AccountUpdateDefaultWalletIdMutation (domainAccount : Account) (walletId : input string)
    : aprog (result (Payload Account)) :=
  arg walletId <- walletId ;;
  respond None (updateDefaultWalletId (acc_id domainAccount) walletId) (fun result => result).

(** The error of the handler is shown as it is. *)
Definition UserContactUpdateAliasMutation (domainAccount : Account) (username alias : input string)
    : aprog (result (Payload Contact)) :=
  arg username <- username ;;
  arg alias <- alias ;;
  let! contact <- updateContactAlias (acc_id domainAccount) username alias ;;
  match contact with
  | Ok contact => Ret (Ok (mkPayload [] (Some contact)))
  | Er e => refused (error_message e)
  | Throw e => Ret (Throw e)
  end.

(** A user whose name is set is shown besides the error. *)
Definition UserUpdateUsernameMutation (domainAccount : Account) (domainUser : User) (username : input string)
    : aprog (result (Payload (User + Account))) :=
  arg username <- username ;;
  let! r <- setUsername (acc_id domainAccount) username ;;
  Ret match r with
      | Ok a => Ok (mkPayload [] (Some (inr a)))
      | Er e => failed (if is_a e UsernameIsImmutableError then Some (inl domainUser) else None) e
      | Throw e => Throw e
      end.

Definition UserUpdateLanguageMutation (domainUser : User) (language : input string)
    : aprog (result (Payload User)) :=
  arg language <- language ;;
  respond None (updateLanguage (u_id domainUser) language) (fun result => result).

(** The question, with its reward, is shown as completed. *)
Definition UserQuizQuestionUpdateCompletedMutation (cfg : Settings) (rc : RewardsConfig) (hash : string)
    (domainAccount : Account) (id : string) : aprog (result (Payload (string * Z))) :=
  respond None (addEarn cfg rc hash id (acc_id domainAccount)) (fun question => question).

(** *** Sign-in *)

Section SignIn.
Context (ls : LoginSettings) (captchaMandatory : bool).

(** [if (ip === undefined) return ...] *)
Definition known_ip {A} (ip : option string) (k : string -> aprog (result (Payload A)))
    : aprog (result (Payload A)) :=
  match ip with Some ip => k ip | None => refused "ip is undefined" end.

Definition UserLoginMutation (ip : option string) (phone code : input string)
    : aprog (result (Payload string)) :=
  arg phone <- phone ;;
  arg code <- code ;;
  known_ip ip (fun ip => respond None (loginWithPhone ls phone code ip) (fun authToken => authToken)).

Definition UserRequestAuthCodeMutation (ip : option string) (phone : input string)
    : aprog (result (Payload bool)) :=
  if captchaMandatory then refused "use captcha endpoint to request auth code"
  else
    arg phone <- phone ;;
    known_ip ip (fun ip => respond None (requestPhoneCode ls phone ip) (fun _ => true)).

Definition CaptchaRequestAuthCodeMutation (ip : option string)
    (phone challengeCode validationCode secCode : input string) : aprog (result (Payload bool)) :=
  arg phone <- phone ;;
  arg geetestChallenge <- challengeCode ;;
  arg geetestValidate <- validationCode ;;
  arg geetestSeccode <- secCode ;;
  known_ip ip (fun ip =>
    respond (Some false)
      (requestPhoneCodeWithCaptcha ls phone geetestChallenge geetestValidate geetestSeccode ip) (fun _ => true)).

End SignIn.

(** ** Administration: [graphql/admin/root/mutation] *)

Definition AccountUpdateLevelMutation (uid : input string) (level : input Z) : aprog (result (Payload Account)) :=
  arg uid <- uid ;;
  arg level <- level ;;
  respond None (updateAccountLevel uid level) (fun account => account).

Definition AccountUpdateStatusMutation (domainUser : User) (uid status : input string)
    (comment : input (option string)) : aprog (result (Payload Account)) :=
  arg uid <- uid ;;
  arg status <- status ;;
  arg comment <- comment ;;
  respond None (updateAccountStatus uid status (Some (u_id domainUser)) comment) (fun account => account).

Definition BusinessUpdateMapInfoMutation (username title : input string) (latitude longitude : input number)
    : aprog (result (Payload Account)) :=
  arg username <- username ;;
  arg title <- title ;;
  arg latitude <- latitude ;;
  arg longitude <- longitude ;;
  respond None (updateBusinessMapInfo username latitude longitude title) (fun account => account).

Definition ColdStorageRebalanceToHotWalletMutation (cold : ColdStorageConfig) (walletName : input string)
    (amt targetConfirmations : input number) : tprog (result (Payload (string * number))) :=
  arg walletName <- walletName ;;
  arg amt <- amt ;;
  arg targetConfirmations <- targetConfirmations ;;
  respond None (rebalanceToHotWallet cold walletName (Some amt) (Some targetConfirmations))
    (fun result => result).

End Resolvers.
