(* ===== verification/OnChainSpec.v ===== *)
(** * Properties of on-chain payments

    What sending and receiving on chain do to the money whatever the services answer,
    when a send is covered by the balance, and the sums of pending transactions. *)

From S2P Require Import Prelude JsNum Errors Money Regex Ledger PaymentFlow Validation Accounts TxMetadata Facade LedgerService LedgerWrites LedgerWritesSpec Programs Effects Payments PaymentsSpec Protocols EndToEnd InvoicesSpec OnChain.
From stdpp Require Import gmap strings.
Import AmountCalculator CheckedAmounts.
#[local] Open Scope string_scope.
#[local] Open Scope Z_scope.
#[local] Open Scope list_scope.

(** ** Receiving *)

Module ReceiveSpec.
Import MoneyProtocol.

(** The credits of the outputs of a transaction that belong to a wallet. *)
Definition receipt (wallet : Wallet) (account : Account) (txHash : string) (price sats : number)
    (address : string) : OnChainReceive :=
  let fee := OnChainFees.onChainDepositFee sats (acc_depositFeeRatio account) in
  mkOnChainReceive (w_id wallet) (w_currency wallet) txHash sats fee (fromSats price sats)
    (fromSats price fee) address.

Definition own (w : AddressedWallet) (o : TxOut) : bool :=
  match out_address o with Some a => includes a (aw_onChainAddresses w) | None => false end.

Definition credits (w : AddressedWallet) (account : Account) (tx : OnChainTx) (price : number)
    (outs : list TxOut) : list money :=
  (fun o => OnChainReceived (receipt (aw_wallet w) account (oct_txHash tx) price (out_sats o)
                               (default "" (out_address o)))) <$> List.filter (own w) outs.

Lemma output_follows w account tx price o a ph (out : list money -> result unit -> Prop)
    (k : prog (result unit)) :
  out_address o = Some a ->
  let ms := [OnChainReceived (receipt (aw_wallet w) account (oct_txHash tx) price (out_sats o) a)] in
  (forall r, is_ok r = false -> out ph r /\ out (ph ++ ms) r) ->
  follows step k (ph ++ ms) out ->
  follows step (rpbind (receive_output (aw_wallet w) account (oct_txHash tx) price (out_sats o) a)
                  (fun _ => k)) ph out.
Proof.
  intros Ha ms Herr Hk. unfold receive_output. simpl.
  intros x. exists (ph ++ on_ok x (fun _ => ms)). split; [done|].
  destruct x as [j|e|e]; simpl; [|rewrite app_nil_r; by apply Herr..].
  intros y. exists (ph ++ ms). split; [unfold step; by rewrite app_nil_r|].
  destruct y as [acc|e|e]; simpl; [|by apply Herr..].
  intros y. exists (ph ++ ms). split; [unfold step; by rewrite app_nil_r|].
  destruct y as [u|e|e]; simpl; [|by apply Herr..].
  destruct (BigInt (out_sats o)); simpl; [|by apply Herr].
  intros []. exists (ph ++ ms). split; [unfold step; by rewrite app_nil_r|]. exact Hk.
Qed.

Lemma outputs_follow w account tx price done rest :
  oct_outs tx = done ++ rest ->
  follows step (receive_outputs w account (oct_txHash tx) price rest)
    (credits w account tx price done)
    (fun ms r => ms `prefix_of` credits w account tx price (oct_outs tx) /\
       (r = Ok tt -> ms = credits w account tx price (oct_outs tx))).
Proof.
  revert done. induction rest as [|o rest IH]; intros dn Hd; simpl.
  { rewrite Hd, app_nil_r. done. }
  assert (Hnext : forall ms, ms = (if own w o then
      [OnChainReceived (receipt (aw_wallet w) account (oct_txHash tx) price (out_sats o)
                          (default "" (out_address o)))] else []) ->
    follows step (receive_outputs w account (oct_txHash tx) price rest)
      (credits w account tx price dn ++ ms)
      (fun ms r => ms `prefix_of` credits w account tx price (oct_outs tx) /\
         (r = Ok tt -> ms = credits w account tx price (oct_outs tx)))).
  { intros ms ->. replace (credits w account tx price dn ++ _) with (credits w account tx price (dn ++ [o])).
    - apply IH. by rewrite Hd, <- app_assoc.
    - unfold credits. rewrite List.filter_app, fmap_app. simpl. by destruct (own w o). }
  assert (Hprefix : forall ms, ms = [] \/ ms = (if own w o then
      [OnChainReceived (receipt (aw_wallet w) account (oct_txHash tx) price (out_sats o)
                          (default "" (out_address o)))] else []) ->
    credits w account tx price dn ++ ms `prefix_of` credits w account tx price (oct_outs tx)).
  { intros ms Hms. rewrite Hd. unfold credits. rewrite List.filter_app, fmap_app. apply prefix_app.
    simpl. destruct Hms as [->| ->]; [apply prefix_nil|].
    destruct (own w o); [|apply prefix_nil]. simpl. apply prefix_cons, prefix_nil. }
  unfold own in *. destruct (out_address o) as [a|] eqn:Ha;
    [|specialize (Hnext [] eq_refl); by rewrite app_nil_r in Hnext].
  destruct (includes a _); [|specialize (Hnext [] eq_refl); by rewrite app_nil_r in Hnext].
  apply output_follows; [done| |by apply Hnext].
  intros r Hr. split; (split; [|by intros ->]).
  - specialize (Hprefix [] (or_introl eq_refl)). by rewrite app_nil_r in Hprefix.
  - apply Hprefix. by right.
Qed.

(** The receipt is recorded for the wallet, as the ledger answers. *)
Definition recorded_answer (w : AddressedWallet) (tx : OnChainTx) (b : bool) : event :=
  Ev (LedgerIsOnChainTxRecorded (w_id (aw_wallet w)) (oct_txHash tx)) (Ok b).

(** The calls before the first credit: the price, the lock of the transaction, whether it is
    recorded for the wallet, and the account of the wallet. *)
Definition before_credit (w : AddressedWallet) (tx : OnChainTx) (price : number) (account : Account)
    : list event :=
  [Ev GetCurrentPrice (Ok price); Ev (LockAcquire (getOnChainTxHashLockResource (oct_txHash tx))) LockOk;
   recorded_answer w tx false; Ev (AccountFindById (w_accountId (aw_wallet w))) (Ok account)].

Lemma body_exec w tx price tr r : exec (receive_tx_body w tx price) tr r ->
  (money_trace tr = [] /\ (r = Ok tt -> recorded_answer w tx true ∈ tr)) \/
  exists account post,
    tr = recorded_answer w tx false :: Ev (AccountFindById (w_accountId (aw_wallet w))) (Ok account) :: post /\
    money_trace post `prefix_of` credits w account tx price (oct_outs tx) /\
    (r = Ok tt -> money_trace post = credits w account tx price (oct_outs tx)).
Proof.
  intros He. apply exec_inv in He as (x & tr1 & -> & He).
  destruct x as [recorded|e|e]; [|apply exec_inv in He as [-> ->]; by left..]. cbn [rpbind pbind] in He.
  apply exec_inv in He as (y & tr2 & -> & He).
  destruct y as [account|e|e]; [|apply exec_inv in He as [-> ->]; by left..]. cbn [rpbind pbind] in He.
  destruct recorded.
  - apply exec_inv in He as [-> ->]. left. split; [done|]. intros _. by left.
  - right. exists account, tr2. split; [done|].
    exact (exec_money _ _ _ _ (outputs_follow w account tx price [] (oct_outs tx) eq_refl) He).
Qed.

(** C17. In every execution of processTxForWallet nothing is credited, and then success
    is told only if the ledger answered that the transaction is recorded for the
    wallet; or the execution started with the price, the lock of the transaction,
    the answer that it is not recorded for the wallet and the account found for the
    wallet, and the credits recorded are, in order and without repetition, those of
    the first outputs of the transaction that pay an address of the wallet, each of
    its satoshis with the deposit fee of that account and at that price; when it
    answers without an error all such outputs were credited. *)
Theorem receipt_credits_outputs (w : AddressedWallet) (tx : OnChainTx) (tr : list event)
    (r : result unit) (He : exec (processTxForWallet w tx) tr r) :
  (money_trace tr = [] /\ (r = Ok tt -> recorded_answer w tx true ∈ tr)) \/
  exists price account post,
    tr = before_credit w tx price account ++ post /\
    money_trace post `prefix_of` credits w account tx price (oct_outs tx) /\
    (r = Ok tt -> money_trace post = credits w account tx price (oct_outs tx)).
Proof.
  apply exec_inv in He as (x & tr1 & -> & He).
  destruct x as [price|e|e]; [|apply exec_inv in He as [-> ->]; by left..]. cbn [rpbind pbind] in He.
  apply exec_redlock_inv in He as [(o & -> & Hr)|(tr' & r' & o & -> & Hb & Hr)].
  { left. split; [done|]. by intros ->. }
  assert (Hok : r = Ok tt -> r' = Ok tt) by (intros ->; by destruct Hr as [<-|Hr]).
  rewrite !money_trace_cons, money_trace_app. simpl. rewrite app_nil_r.
  apply body_exec in Hb as [[Hm Hrec]|(account & post & -> & Hp & Hall)].
  - left. split; [done|]. intros Hr'. do 2 right. apply elem_of_app. left. by apply Hrec, Hok.
  - right. exists price, account, (post ++ [Ev (LockRelease (getOnChainTxHashLockResource (oct_txHash tx))) o]).
    split; [done|]. rewrite money_trace_app. simpl. rewrite app_nil_r. by split; [|auto].
Qed.

(** *** A transaction with two outputs for a wallet *)

Definition two_outputs : OnChainTx :=
  mkOnChainTx (num 6) "tx1" [mkTxOut (num 1000) (Some "bc1qa"); mkTxOut (num 500) None;
    mkTxOut (num 2000) (Some "bc1qb")] (num 100) 1600000000000.
Definition bob : AddressedWallet := mkAddressed (mkWalletRec "bob" "acc2" Btc) ["bc1qb"; "bc1qa"].

Definition bob_account : Account := mkAcc "acc2" StatusActive 1 None "user2" true (num 0) (num 0).

Definition receipt_run : list event * result unit :=
  run InvoiceClaims.answering_env (processTxForWallet bob two_outputs).

Lemma receipt_credits_outputs_witness :
  money_trace (fst receipt_run) = credits bob bob_account two_outputs (num 1) (oct_outs two_outputs) /\
  exists price account post,
    fst receipt_run = before_credit bob two_outputs price account ++ post /\
    money_trace post = credits bob account two_outputs price (oct_outs two_outputs).
Proof.
  split; [vm_compute; reflexivity|].
  destruct (receipt_credits_outputs bob two_outputs (fst receipt_run) (Ok tt)
    (run_exec InvoiceClaims.answering_env _)) as [[Hm _]|(price & account & post & H1 & _ & H3)].
  - vm_compute in Hm. discriminate Hm.
  - exists price, account, post. split; [exact H1|exact (H3 eq_refl)].
Defined.

(** The user cannot be read the first time. *)
Definition user_unknown (X : Type) (c : call X) : X :=
  match c in call X return X with
  | UserFindById _ => Er (new UnknownRepositoryError)
  | c => InvoiceClaims.answering_env _ c
  end.

Definition first_try := lrun (E := list ledgerTx) user_unknown (processTxForWallet bob two_outputs)
  FacadeSpec.sample_state.
Definition second_try := lrun (E := list ledgerTx) InvoiceClaims.answering_env
  (processTxForWallet bob two_outputs) (snd first_try).

(** When the lookup of the user fails after the first of two outputs was credited, the
    next run finds the transaction recorded and never credits the second. *)
Theorem interrupted_receipt_not_resumed :
  snd (fst first_try) = Er (new UnknownRepositoryError) /\
  snd (fst second_try) = Ok tt /\
  FacadeSpec.balance_of (E := list ledgerTx) (snd second_try) "Liabilities:bob" Btc = 1000.
Proof. split_and!; vm_compute; reflexivity. Qed.

End ReceiveSpec.

(** ** Sending *)

Module SendSpec.
Import MoneyProtocol.

Definition known_unpaid (e : error) : bool :=
  is_a e InsufficientOnChainFundsError || is_a e CPFPAncestorLimitReachedError.

(** What is done to the money for the amount and the wallet of a request, given what was
    answered to the search for a wallet with the address: nothing; when one was found, a
    transfer inside the ledger of the amount to that wallet, which is another one; when none
    was, a debit of the wallet, what is paid and the fees, with one attempt of the node to pay
    that to the address, taken back only when the node is known not to have paid.  When the
    whole balance is sent, a fee is taken off the amount before it is paid. *)
Section Sent.
Context (w : Wallet) (address : string) (amt : number) (sendAll : bool) (found : result Wallet).

Definition paid_of (paid : number) : Prop :=
  if sendAll then exists fee, paid = num_sub amt fee else paid = amt.

Definition sent (ms : list money) (r : result PaymentSendStatus) : Prop :=
  (ms = [] /\ is_ok r = false) \/
  (exists a rw, found = Ok rw /\ ms = [OnChainTransferred a] /\
     it_sender a = descriptor w /\ it_recipient a = descriptor rw /\ w_id rw <> w_id w /\
     it_sats a = Some amt) \/
  exists jid a paid x rest, is_ok found = false /\ paid_of paid /\
    ms = OnChainDebited jid a :: OnChainPaid address paid x :: rest /\
    os_walletId a = w_id w /\ os_payeeAddress a = address /\ os_sats a = num_add paid (os_totalFee a) /\
    (is_ok r = true -> is_ok x = true) /\
    (rest = [] \/ (rest = [OnChainReverted jid] /\ exists e, x = Er e /\ known_unpaid e = true)).

Lemma sent_error ms r r' : sent ms r -> is_ok r' = false -> sent ms r'.
Proof.
  intros [[-> _]|[Ht|(jid & a & paid & x & rest & Hf & Hpaid & Hm & Hid & Hp & Hs & _ & Hr)]] He;
    [by left|by right; left|].
  right. right. exists jid, a, paid, x, rest. split_and!; [done..| |done]. by rewrite He.
Qed.

Lemma nothing_sent r : is_ok r = false -> sent [] r.
Proof. by left. Qed.

Lemma pay_follows jid a paid t : is_ok found = false -> paid_of paid -> os_walletId a = w_id w ->
  os_payeeAddress a = address -> os_sats a = num_add paid (os_totalFee a) ->
  follows step (pay_to_address jid address paid t) [OnChainDebited jid a] sent.
Proof.
  intros Hf Hpaid Hid Hp Hs. unfold pay_to_address. simpl. intros x. eexists. split; [reflexivity|].
  assert (Hend : forall r, (is_ok r = true -> is_ok x = true) ->
    sent ([OnChainDebited jid a] ++ money_of (Ev (OnChainPayToAddress address paid t
      ("journal-" +:+ jid)) x)) r).
  { intros r Hr. right. right. exists jid, a, paid, x, []. split_and!; auto. }
  destruct x as [h|e|e]; [| |by apply Hend].
  - simpl. intros y. eexists. split; [reflexivity|]. destruct y as [[]|e|e]; [|by apply Hend..].
    simpl. intros z. eexists. split; [reflexivity|]. destruct z; by apply Hend.
  - fold (known_unpaid e). destruct (known_unpaid e) eqn:Hk; [|by apply Hend]. simpl.
    intros y. eexists. split; [reflexivity|]. destruct y as [[]|e'|e']; [|by apply Hend..].
    right. right. exists jid, a, paid, (Er e), [OnChainReverted jid]. split_and!; [done..|].
    right. split; [done|]. by exists e.
Qed.
End Sent.

Section Sends.
Context (cfg : OnChainConfig).

Lemma imbalance_quiet id : quiet (swapOutImbalance cfg id).
Proof. unfold swapOutImbalance. destruct (oc_withdrawMethod cfg); [done|]. unfold net_inbound. quiets. Qed.

Lemma fee_quiet id acc amt address t : quiet (getOnChainFee cfg id acc amt address t).
Proof.
  unfold getOnChainFee. do 4 (apply quiet_await; [try exact I; by apply quiet_call|]; intros ?).
  apply quiet_bind; [by apply quiet_call|]. intros r. cbv zeta.
  assert (Hon : forall (w : Wallet) a t', quiet
    (if num_ltb a (oc_dustThreshold cfg) then Ret (Er (new LessThanDustThresholdError))
     else rpbind (do_call (LedgerBalance (w_id w))) (fun balance =>
       if num_ltb balance a then Ret (Er (new_msg InsufficientBalanceError "Balance is too low"))
       else rpbind (do_call OnChainService) (fun _ =>
         rpbind (do_call (OnChainGetFeeEstimate a address t')) (fun minerFee =>
         rpbind (swapOutImbalance cfg id) (fun imbalance =>
         Ret (Ok (OnChainFees.totalFee (withdrawalFee cfg minerFee a (acc_withdrawFee acc) imbalance))))))))).
  { intros w a' t'. destruct (num_ltb _ _); [done|]. apply quiet_await; [by apply quiet_call|].
    intros b. destruct (num_ltb _ _); [done|]. apply quiet_await; [by apply quiet_call|]. intros _.
    apply quiet_await; [by apply quiet_call|]. intros m.
    apply quiet_await; [apply imbalance_quiet|]. done. }
  destruct r as [w|e|e]; [done| |done]. destruct (is_a e _); [done|]. destruct (is_a e _); [|done].
  apply Hon.
Qed.

Lemma limits_quiet g check amt w acc price : quiet (check_onchain_limits cfg g check amt w acc price).
Proof. unfold check_onchain_limits. quiets. Qed.

Lemma aborted_then {A} (k : prog (result A)) ph (out : list money -> result A -> Prop) :
  (forall r, is_ok r = false -> out ph r) -> follows step k ph out ->
  follows step (unless_aborted k) ph out.
Proof.
  intros He Hk. apply quiet_then; [by apply quiet_call|]. intros [m|]; [by apply He|done].
Qed.

Lemma body_follows w acc estimate amt paid address t memo all price found : quiet estimate ->
  is_ok found = false -> paid_of amt all paid ->
  follows step (onchain_body cfg w acc estimate paid address t memo all price) []
    (sent w address amt all found).
Proof.
  intros Hq Hf Hpaid. unfold onchain_body.
  apply await_then; [by apply quiet_call|apply nothing_sent|]. intros b.
  apply await_then; [done|apply nothing_sent|]. intros f.
  destruct (num_ltb _ _); [by apply nothing_sent|].
  apply aborted_then; [apply nothing_sent|].
  apply await_then; [apply imbalance_quiet|apply nothing_sent|]. intros i.
  apply await_then; [by apply quiet_call|apply nothing_sent|]. intros m. cbv zeta.
  apply quiet_then; [by apply quiet_call|]. intros h. simpl.
  intros [j|e|e]; eexists; (split; [reflexivity|]); [|by apply nothing_sent..].
  simpl. by apply (pay_follows _ _ _ _ _ _ (mkOnChainSend _ _ _ _ _ _ _ _ _ _ _)).
Qed.

Lemma intraledger_follows acc w rw racc amt address memo all display :
  w_id rw <> w_id w ->
  follows step (intraledger_body acc w rw racc amt address memo all display) []
    (sent w address amt all (Ok rw)).
Proof.
  intros Hne. unfold intraledger_body.
  assert (Hdone : forall a r, it_sender a = descriptor w -> it_recipient a = descriptor rw ->
    it_sats a = Some amt -> sent w address amt all (Ok rw) [OnChainTransferred a] r).
  { intros a r H1 H2 H3. right. left. by exists a, rw. }
  apply await_then; [by apply quiet_call|apply nothing_sent|]. intros b.
  destruct (num_ltb _ _); [by apply nothing_sent|].
  apply aborted_then; [apply nothing_sent|]. simpl.
  intros [j|e|e]; eexists; (split; [reflexivity|]); [|by apply nothing_sent..]. simpl.
  intros [u|e|e]; eexists; (split; [reflexivity|]); [|by apply Hdone..]. simpl.
  destruct (BigInt amt); [|by apply Hdone]. simpl.
  intros []. eexists. split; [reflexivity|]. by apply Hdone.
Qed.

Lemma validate_quiet amt id acc : quiet (validate_input amt id acc).
Proof.
  unfold validate_input. apply quiet_await; [done|]. intros v. destruct (decide _); [done|].
  apply quiet_await; [done|]. intros i. apply quiet_await; [by apply quiet_call|]. intros w.
  by destruct (negb _).
Qed.

(** The amount, and a wallet that was found under the id and is of the active account. *)
Lemma validate_exec x id acc tr r : exec (validate_input (Some x) id acc) tr r ->
  (is_ok r = false /\ money_trace tr = []) \/
  exists w, tr = [Ev (WalletFindById id) (Ok w)] /\ r = Ok (x, w) /\
    w_accountId w = acc_id acc /\ acc_status acc = StatusActive.
Proof.
  unfold validate_input.
  destruct (checkedToCurrencyBaseAmount (Some x)) as [v|e|e] eqn:Hv; [|intros [-> ->]%exec_inv; by left..].
  apply InputSpec.checkedToCurrencyBaseAmount_ok in Hv as [[= ->] _]. cbn [rpbind pbind].
  destruct (decide _) as [|Hs]; [intros [-> ->]%exec_inv; by left|]. apply dec_stable in Hs.
  destruct (checkedToWalletId id) as [i|e|e] eqn:Hi; [|intros [-> ->]%exec_inv; by left..].
  apply AccountPath.checkedToWalletId_ok in Hi as [-> _]. cbn [rpbind pbind].
  intros (y & tr1 & -> & He)%exec_inv. destruct y as [w|e|e]; [|apply exec_inv in He as [-> ->]; by left..].
  cbn [rpbind pbind] in He. destruct (String.eqb_spec (w_accountId w) (acc_id acc)) as [Hw|];
    apply exec_inv in He as [-> ->]; [right|by left]. by exists w.
Qed.

(** Once the wallet with the address was searched for. *)
Lemma transfer_follows acc w rw amt address memo all :
  follows step (onchainPaymentViaIntraledger cfg acc w rw amt address memo all) []
    (sent w address amt all (Ok rw)).
Proof.
  unfold onchainPaymentViaIntraledger.
  destruct (String.eqb_spec (w_id rw) (w_id w)); [by apply nothing_sent|].
  destruct (negb _); [by apply nothing_sent|].
  apply await_then; [by apply quiet_call|apply nothing_sent|]. intros p.
  apply await_then; [apply limits_quiet|apply nothing_sent|]. intros _.
  apply await_then; [by apply quiet_call|apply nothing_sent|]. intros racc.
  apply lock_then; [apply sent_error|apply nothing_sent|by apply intraledger_follows].
Qed.

Lemma onchain_follows w acc amt address t memo all found : is_ok found = false ->
  follows step (onchainPaymentViaOnChain cfg w acc amt address t memo all) []
    (sent w address amt all found).
Proof.
  intros Hf. unfold onchainPaymentViaOnChain. destruct (negb _); [by apply nothing_sent|].
  do 2 (apply await_then; [by apply quiet_call|apply nothing_sent|]; intros ?).
  apply await_then; [apply limits_quiet|apply nothing_sent|]. intros _.
  apply await_then; [by apply quiet_call|apply nothing_sent|]. intros ?.
  apply await_then; [apply fee_quiet|apply nothing_sent|]. intros ?. cbv zeta.
  destruct (num_ltb _ _); [by apply nothing_sent|].
  destruct (num_ltb _ _); [by apply nothing_sent|].
  apply lock_then; [apply sent_error|apply nothing_sent|].
  apply body_follows; [apply fee_quiet|done|]. destruct all; [by eexists|done].
Qed.

(** Where the amount comes from: the whole balance of the wallet, or the request. *)
Definition amount_read (id : string) (asked : option number) (sendAll : bool) (amt : number) (tr : list event)
    : Prop :=
  if sendAll then tr = [Ev (LedgerBalance id) (Ok amt)] else tr = [] /\ asked = Some amt.

Lemma amount_exec id asked (all : bool) tr r :
  exec (if all then do_call (LedgerBalance id) else Ret (checkedToSats asked)) tr r ->
  money_trace tr = [] /\ forall amt, r = Ok amt -> amount_read id asked all amt tr.
Proof.
  destruct all; simpl.
  - intros (x & tr1 & -> & He)%exec_inv. apply exec_inv in He as [-> ->]. split; [done|]. by intros amt ->.
  - intros [-> ->]%exec_inv. split; [done|]. intros amt Ha. split; [done|].
    destruct asked as [x|]; [|done]. by rewrite (checkedToSats_id _ _ Ha).
Qed.

(** C8. In every execution of payOnChainByWalletId nothing moved and an error is
    returned, or the wallet with the identifier of the request was found and belongs
    to the active account of the caller, and the address was then looked up among
    the wallets. Then nothing moved and an error is returned; or the address was
    found to be of another wallet and one transfer of the amount from the sender to
    that wallet was recorded; or no wallet was found for it, the sender was debited
    once, the amount plus the total fee, after which the node was asked once to pay
    that amount to the address, the debit being taken back only if the node is known
    not to have paid and success being told only if the node paid. The amount is the
    one asked for or, when everything is sent, the balance that the ledger answered
    for the wallet, less a fee when it is sent on chain. *)
Theorem onchain_send_money (senderAccount : Account) (senderWalletId : string) (asked : option number)
    (address : string) (confs : option number) (memo : option string) (sendAll : bool)
    (tr : list event) (r : result PaymentSendStatus)
    (He : exec (payOnChainByWalletId cfg senderAccount senderWalletId asked address confs memo sendAll)
            tr r) :
  (money_trace tr = [] /\ is_ok r = false) \/
  exists amt w found pre post,
    tr = pre ++ Ev (WalletFindById senderWalletId) (Ok w) :: Ev (WalletFindByAddress address) found :: post /\
    amount_read senderWalletId asked sendAll amt pre /\
    w_accountId w = acc_id senderAccount /\ acc_status senderAccount = StatusActive /\
    sent w address amt sendAll found (money_trace post) r.
Proof.
  apply exec_bind_inv in He as (tr1 & amt & tr2 & -> & H1 & He). apply amount_exec in H1 as [Hm1 Ha].
  destruct amt as [amt|e|e]; [|apply exec_inv in He as [-> ->]; left; by rewrite app_nil_r..].
  specialize (Ha amt eq_refl). apply exec_bind_inv in He as (tr3 & v & tr4 & -> & H3 & He).
  apply validate_exec in H3 as [[Hr Hm3]|(w & -> & -> & Hw & Hs)].
  { destruct v as [[]|e|e]; [done|apply exec_inv in He as [-> ->]; left; by rewrite !money_trace_app, Hm1, Hm3..]. }
  assert (Hno : tr4 = [] /\ is_ok r = false -> money_trace (tr1 ++ [Ev (WalletFindById senderWalletId) (Ok w)] ++ tr4)
    = [] /\ is_ok r = false).
  { intros [-> Hr]. split; [|done]. by rewrite money_trace_app, Hm1. }
  unfold checkedToOnChainAddress in He. cbn [rpbind pbind] in He.
  destruct (existsb _ _); [|apply exec_inv in He as [-> ->]; left; by apply Hno].
  cbn [rpbind pbind] in He.
  destruct (checkedToTargetConfs confs) as [t|e|e]; [|apply exec_inv in He as [-> ->]; left; by apply Hno..].
  apply exec_inv in He as (found & post & -> & He). right. exists amt, w, found, tr1, post.
  split_and!; [done..|]. destruct found as [rw|e|e].
  - exact (exec_money _ _ _ _ (transfer_follows _ _ _ _ _ _ _) He).
  - exact (exec_money _ _ _ _ (onchain_follows _ _ _ _ _ _ _ (Er e) eq_refl) He).
  - apply exec_inv in He as [-> ->]. by left.
Qed.

(** *** The balance covers what is debited *)

Section Covered.
Context (env : forall X, call X -> X) (address : string) (e0 : error).
Context (Hunknown : env _ (WalletFindByAddress address) = Er e0)
  (Hclass : is_a e0 CouldNotFindWalletFromOnChainAddressError = true)
  (Hclass' : is_a e0 UnknownRepositoryError = false).

(** The balance the ledger answers is not below the satoshis debited. *)
Definition covered (a : OnChainSend) : Prop :=
  exists b, env _ (LedgerBalance (os_walletId a)) = Ok b /\ num_ltb b (os_sats a) = false.

Definition debits {A} (p : prog A) : Prop := forall jid a,
  OnChainDebited jid a ∈ money_trace (fst (run env p)) -> covered a.

Lemma run_quiet {A} (p : prog A) : quiet p -> money_trace (fst (run env p)) = [].
Proof.
  induction p as [a|X c k IH]; [done|]. intros [Hc Hk]. cbn [run].
  specialize (IH (env X c) (Hk (env X c))). destruct (run env (k (env X c))) as [tr a].
  simpl fst in *. rewrite money_trace_cons, IH, Hc. done.
Qed.

Lemma debits_quiet {A} (p : prog A) : quiet p -> debits p.
Proof. intros Hq jid a. rewrite run_quiet by done. by intros ?%not_elem_of_nil. Qed.

Lemma debits_bind {A B} (p : prog A) (k : A -> prog B) :
  debits p -> debits (k (snd (run env p))) -> debits (pbind p k).
Proof.
  intros Hp Hk jid a. rewrite run_bind. simpl. unfold money_trace. rewrite bind_app.
  intros [Hin|Hin]%elem_of_app; [by eapply Hp|by eapply Hk].
Qed.

Lemma debits_await {A B} (p : prog (result A)) (k : A -> prog (result B)) :
  debits p -> (forall a, snd (run env p) = Ok a -> debits (k a)) -> debits (rpbind p k).
Proof.
  intros Hp Hk. apply debits_bind; [done|]. destruct (snd (run env p)) as [a|e|e] eqn:Hr;
    [by apply Hk|by apply debits_quiet..].
Qed.

Lemma debits_lock {A} path (body : prog (result A)) : debits body -> debits (redlock path None body).
Proof.
  intros Hb. unfold redlock, using_lock. apply debits_bind; [by apply debits_quiet|].
  destruct (lock_error _); [by apply debits_quiet|]. apply debits_bind; [done|].
  apply debits_bind; [by apply debits_quiet|].
  apply debits_quiet. by destruct (snd (run env body)), (lock_error _).
Qed.

Lemma run_call {X} (c : call X) : snd (run env (do_call c)) = env _ c.
Proof. done. Qed.

(** The calls after the debit make no other one. *)
Lemma pay_debits jid addr amt t : debits (pay_to_address jid addr amt t).
Proof.
  unfold pay_to_address. apply debits_bind.
  { intros j a. simpl. intros [H|H]%elem_of_cons; [done|by apply not_elem_of_nil in H]. }
  rewrite run_call.
  destruct (env _ (OnChainPayToAddress _ _ _ _)) as [h|e|e]; [| |by apply debits_quiet].
  - apply debits_await; [by apply debits_quiet|]. intros ? _.
    apply debits_bind; [by apply debits_quiet|]. apply debits_quiet. by destruct (snd _).
  - destruct (_ || _)%bool; [|by apply debits_quiet].
    apply debits_await; [|by intros; apply debits_quiet].
    intros j a. simpl. destruct (env _ (LedgerRevertOnChainPayment jid)) as [[]|e'|e']; simpl;
      try (by intros ?%not_elem_of_nil).
    intros [H|H]%elem_of_cons; [done|by apply not_elem_of_nil in H].
Qed.

(** The fee estimated for a send is the one charged, when the fee of the account is set. *)
Lemma estimate_is_charged id acc amt t fee :
  num_truthy (acc_withdrawFee acc) = true ->
  snd (run env (getOnChainFee cfg id acc (Some amt) address (Some t))) = Ok fee ->
  forall imbalance minerFee,
    snd (run env (swapOutImbalance cfg id)) = Ok imbalance ->
    env _ (OnChainGetFeeEstimate amt address t) = Ok minerFee ->
    fee = OnChainFees.totalFee (withdrawalFee cfg minerFee amt (min_bank_fee cfg acc) imbalance).
Proof using Hunknown Hclass Hclass'.
  intros Hfee Hrun imbalance minerFee Himb Hm. unfold min_bank_fee. rewrite Hfee.
  revert Hrun. unfold getOnChainFee, rpbind, do_call.
  destruct (checkedToSats (Some amt)) as [a|e|e] eqn:Ha; [|done..].
  apply checkedToSats_id in Ha as ->.
  destruct (checkedToTargetConfs (Some t)) as [t'|e|e] eqn:Ht; [|done..].
  assert (t' = t) as ->.
  { revert Ht. unfold checkedToTargetConfs. by destruct (negb _); intros [= <-]. }
  destruct (checkedToWalletId id) as [i|e|e]; [|done..]. simpl.
  destruct (env _ (WalletFindById i)) as [w|e|e]; [|done..]. simpl.
  rewrite Hunknown. simpl. rewrite Hclass', Hclass.
  destruct (num_ltb amt _); [done|]. simpl.
  destruct (env _ (LedgerBalance (w_id w))) as [b|e|e]; [|done..]. simpl.
  destruct (num_ltb b amt); [done|]. simpl.
  destruct (env _ OnChainService) as [[]|e|e]; [|done..]. simpl.
  rewrite Hm. simpl. rewrite run_bind.
  destruct (run env (swapOutImbalance cfg id)) as [tr r]. simpl in Himb |- *. subst r. simpl.
  by intros [= <-].
Qed.


#[local] Opaque getOnChainFee.

Lemma body_debits w acc amt t memo price :
  num_truthy (acc_withdrawFee acc) = true ->
  debits (onchain_body cfg w acc (getOnChainFee cfg (w_id w) acc (Some amt) address (Some t)) amt
            address t memo false price).
Proof using Hunknown Hclass Hclass'.
  intros Hfee. unfold onchain_body.
  apply debits_await; [by apply debits_quiet, quiet_call|]. intros b Hb. rewrite run_call in Hb.
  apply debits_await; [apply debits_quiet, fee_quiet|]. intros fee Hest.
  destruct (num_ltb b (num_add amt fee)) eqn:Hlow; [by apply debits_quiet|].
  unfold unless_aborted. apply debits_bind; [by apply debits_quiet|].
  destruct (snd (run env (do_call SignalAborted))); [by apply debits_quiet|].
  apply debits_await; [apply debits_quiet, imbalance_quiet|]. intros imbalance Himb.
  apply debits_await; [by apply debits_quiet, quiet_call|]. intros minerFee Hm. rewrite run_call in Hm.
  rewrite (estimate_is_charged _ _ _ _ _ Hfee Hest _ _ Himb Hm) in Hlow. cbv zeta.
  apply debits_bind; [by apply debits_quiet, quiet_call|].
  apply debits_await; [|intros j _; apply pay_debits].
  intros jid a. simpl. destruct (env _ (LedgerAddOnChainTxSend _)) as [j|e|e]; simpl;
    try (by intros ?%not_elem_of_nil).
  intros [Hin|Hin]%elem_of_cons; [|by apply not_elem_of_nil in Hin].
  injection Hin as -> ->. exists b. split; [exact Hb|exact Hlow].
Qed.

Lemma onchain_debits w acc amt t memo :
  num_truthy (acc_withdrawFee acc) = true ->
  debits (onchainPaymentViaOnChain cfg w acc amt address t memo false).
Proof using Hunknown Hclass Hclass'.
  intros Hfee. unfold onchainPaymentViaOnChain. destruct (negb _); [by apply debits_quiet|].
  do 2 (apply debits_await; [by apply debits_quiet, quiet_call|]; intros ? _).
  apply debits_await; [apply debits_quiet, limits_quiet|]. intros _ _.
  apply debits_await; [by apply debits_quiet, quiet_call|]. intros available _.
  apply debits_await; [apply debits_quiet, fee_quiet|]. intros fee _. cbv zeta.
  destruct (num_ltb _ _); [by apply debits_quiet|].
  destruct (num_ltb _ _); [by apply debits_quiet|].
  apply debits_lock. by apply body_debits.
Qed.

(** C18. When the services answer the same to the same call, the address is of no wallet
    and the withdrawal fee of the account is not zero, a send of a given amount
    never debits more satoshis than the balance of the wallet. *)
Theorem onchain_send_covered (senderAccount : Account) (senderWalletId : string)
    (amt : option number) (confs : option number) (memo : option string) (jid : string)
    (a : OnChainSend) (Hfee : num_truthy (acc_withdrawFee senderAccount) = true)
    (Hdebit : OnChainDebited jid a ∈ money_trace (fst (run env
       (payOnChainByWalletId cfg senderAccount senderWalletId amt address confs memo false)))) :
  exists b, env _ (LedgerBalance (os_walletId a)) = Ok b /\ num_ltb b (os_sats a) = false.
Proof using Hunknown Hclass Hclass'.
  revert jid a Hdebit.
  change (debits (payOnChainByWalletId cfg senderAccount senderWalletId amt address confs memo false)).
  unfold payOnChainByWalletId.
  apply debits_await; [by apply debits_quiet|]. intros n _.
  apply debits_await; [apply debits_quiet|]. { apply validate_quiet. }
  intros [v w] _. apply debits_await; [by apply debits_quiet|]. intros ad Had.
  assert (ad = address) as ->.
  { revert Had. simpl. unfold checkedToOnChainAddress. by destruct (existsb _ _); intros [= <-]. }
  apply debits_await; [by apply debits_quiet|]. intros t _.
  apply debits_bind; [by apply debits_quiet, quiet_call|]. rewrite run_call, Hunknown.
  by apply onchain_debits.
Qed.

End Covered.

End Sends.

(** *** A send of 10,000 sats, the miner taking 300 *)

Definition sample_cfg : OnChainConfig :=
  mkOnChainConfig 1700000000000
    (mkLimitsConfig (fun _ => 1000000000) (fun _ => 1000000000) (fun _ => 1000000000)) mainnet
    (num 1000) (num 0) (num 0) flat 30 (num 2000) (num 2).
Definition sample_address : string := "bc1qar0srrr7xfkvy5l643lydnw9re59gtzzwf5mdq".
Definition sender_account (withdrawFee : number) : Account :=
  mkAcc "acc1" StatusActive 1 (Some "alice") "user1" true withdrawFee (num 0).

Definition send_env (balance : number) (X : Type) (c : call X) : X :=
  match c in call X return X with
  | WalletFindById id => Ok (mkWalletRec id "acc1" Btc)
  | WalletFindByAddress _ => Er (new CouldNotFindWalletFromOnChainAddressError)
  | LedgerBalance _ => Ok balance
  | OnChainGetFeeEstimate _ _ _ => Ok (num 300)
  | OnChainGetBalance => Ok (num 100000000)
  | c => InvoiceClaims.answering_env _ c
  end.

Definition sample_send (balance withdrawFee : number) : list event * result PaymentSendStatus :=
  run (send_env balance) (payOnChainByWalletId sample_cfg (sender_account withdrawFee)
    PaymentClaims.sample_uuid (Some (num 10000)) sample_address (Some (num 1)) None false).

Definition debited_by (ms : list money) : list number :=
  ms ≫= (fun m => match m with OnChainDebited _ a => [os_sats a] | _ => [] end).

Lemma onchain_send_money_witness :
  snd (sample_send (num 11000) (num 500)) = Ok Success /\
  exists amt w found pre post,
    fst (sample_send (num 11000) (num 500)) =
      pre ++ Ev (WalletFindById PaymentClaims.sample_uuid) (Ok w) ::
        Ev (WalletFindByAddress sample_address) found :: post /\
    sent w sample_address amt false found (money_trace post) (Ok Success).
Proof.
  split; [vm_compute; reflexivity|].
  destruct (onchain_send_money sample_cfg (sender_account (num 500)) PaymentClaims.sample_uuid
    (Some (num 10000)) sample_address (Some (num 1)) None false (fst (sample_send (num 11000) (num 500)))
    (Ok Success) (run_exec (send_env (num 11000)) _)) as [[_ Hr]|(amt & w & found & pre & post & H1 & _ & _ & _ & H5)].
  - discriminate Hr.
  - exists amt, w, found, pre, post. split; [exact H1|exact H5].
Defined.

Definition sample_debit : OnChainSend :=
  mkOnChainSend PaymentClaims.sample_uuid Btc "s1" sample_address "" (num 10800) (num 500)
    (num 10800) (num 800) (num 800) false.

Lemma onchain_send_covered_witness :
  exists b, send_env (num 11000) _ (LedgerBalance (os_walletId sample_debit)) = Ok b /\
    num_ltb b (os_sats sample_debit) = false.
Proof.
  apply (onchain_send_covered sample_cfg (send_env (num 11000)) sample_address
    (new CouldNotFindWalletFromOnChainAddressError) eq_refl eq_refl eq_refl (sender_account (num 500))
    PaymentClaims.sample_uuid (Some (num 10000)) (Some (num 1)) None "j1" sample_debit).
  - reflexivity.
  - apply list_elem_of_In. vm_compute. left. reflexivity.
Defined.

(** An account without a withdrawal fee of its own passes the check of the balance with
    a fee of zero and is debited the default fee, more than its balance. *)
Theorem zero_withdraw_fee_overdraws :
  snd (sample_send (num 10400) (num 0)) = Ok Success /\
  debited_by (money_trace (fst (sample_send (num 10400) (num 0)))) = [num 12300].
Proof. split; vm_compute; reflexivity. Qed.

End SendSpec.
