(* ===== verification/ResolversSpec.v ===== *)
(** * What the interface promises

    The mutations of [Resolvers], with the handlers they call.  Money moves only in the
    mutations that send a payment and in the one that rewards a question; a payment is from a
    wallet that the request names and that was found to belong to the active account of the
    caller, in the currency of the mutation, before any money moves.  A payload shows an error
    or a status, and an argument that a scalar refused ends the request before any call. *)

From S2P Require Import Prelude JsNum Errors ErrorMap Money Regex PaymentFlow Validation Accounts TxMetadata Facade LedgerService LedgerWrites RateLimit Programs Effects Persistence AccountRepo Workers Payments AccountHandlers PaymentsSpec Protocols Rewards Login Invoices Prices Lnd LnPayments PendingPayments FeeProbe OnChain Scalars Treasury OnChainSpec Resolvers.
#[local] Open Scope string_scope.
#[local] Open Scope Z_scope.
#[local] Open Scope list_scope.

(** ** The calls of payments in an execution *)

Definition base_of (ev : happening acall) : list event :=
  match ev with
  | Ev c x =>
      match c in acall X return X -> list event with
      | Base c => fun x => [Ev c x]
      | _ => fun _ => []
      end x
  end.
Definition bases (tr : list (happening acall)) : list event := tr ≫= base_of.

Lemma bases_app tr1 tr2 : bases (tr1 ++ tr2) = bases tr1 ++ bases tr2.
Proof. apply bind_app. Qed.

Lemma exec_lift {A} (p : prog A) tr a : exec (lift p) tr a -> exec p (bases tr) a.
Proof.
  revert tr. induction p as [b|X c k IH]; intros tr He; simpl in He.
  - apply exec_inv in He as [-> ->]. constructor.
  - apply exec_inv in He as (x & tr' & -> & He). simpl. constructor. by apply IH.
Qed.

(** ** Programs that move no money *)

Definition idle_call (X : Type) (c : acall X) : bool :=
  match c with Base c => negb (sensitive c) | _ => true end.
Abbreviation idle := (calls_only idle_call).

Lemma idle_money {A} (p : aprog A) tr a : idle p -> exec p tr a -> money_trace (bases tr) = [].
Proof.
  intros Hi He. pose proof (exec_calls _ _ _ _ Hi He) as Hall. clear Hi He.
  induction Hall as [|[X c x] tr Hc _ IH]; [done|].
  change (Ev c x :: tr) with ([Ev c x] ++ tr). rewrite bases_app, money_trace_app, IH, app_nil_r.
  destruct c; try done. simpl in Hc. apply negb_true_iff in Hc.
  change (money_trace [Ev c x] = []). by rewrite money_trace_cons, quiet_money.
Qed.

(** *** A request that is authorised: the wallet is found to be one of the active account
    before any money moves *)

Definition owns (acc : Account) (id : string) (ev : event) : bool :=
  match ev with
  | Ev c x =>
      match c in call X return X -> bool with
      | WalletFindById i => fun x =>
          match x with
          | Ok w => String.eqb i id && String.eqb (w_accountId w) (acc_id acc)
                    && bool_decide (acc_status acc = StatusActive)
          | _ => false
          end
      | _ => fun _ => false
      end x
  end.

Definition authorised (acc : Account) (id : string) (tr : list event) : Prop :=
  money_trace tr = [] \/
  exists pre ev post, tr = pre ++ ev :: post /\ money_trace pre = [] /\ owns acc id ev = true.

Definition safe {A} (acc : Account) (id : string) (p : aprog A) : Prop :=
  forall tr a, exec p tr a -> authorised acc id (bases tr).

Lemma authorised_after acc id tr1 tr2 :
  money_trace tr1 = [] -> authorised acc id tr2 -> authorised acc id (tr1 ++ tr2).
Proof.
  intros H1 [H2|(pre & ev & post & -> & Hpre & Hev)]; [left; by rewrite money_trace_app, H1|right].
  exists (tr1 ++ pre), ev, post. by rewrite <- app_assoc, money_trace_app, H1.
Qed.

Lemma idle_safe {A} acc id (p : aprog A) : idle p -> safe acc id p.
Proof. intros Hi tr a He. left. by eapply idle_money. Qed.

Lemma safe_after {A B} acc id (p : aprog A) (k : A -> aprog B) :
  idle p -> (forall a, safe acc id (k a)) -> safe acc id (pbind p k).
Proof.
  intros Hi Hk tr b He. apply exec_bind_inv in He as (tr1 & a & tr2 & -> & H1 & H2).
  rewrite bases_app. apply authorised_after; [by eapply idle_money|by eapply Hk].
Qed.

(** What only makes a payload of the answer. *)
Lemma safe_respond {A B} acc id dust (data : option B) (p : aprog (result A)) (k : A -> B) :
  safe acc id p -> safe acc id (respond dust data p k).
Proof.
  intros Hp tr b He. apply exec_bind_inv in He as (tr1 & a & tr2 & -> & H1 & H2).
  apply exec_inv in H2 as [-> _]. rewrite app_nil_r. by eapply Hp.
Qed.

Lemma safe_arg {A B} acc id (x : input A) (k : A -> aprog (result (Payload B))) :
  (forall a, x = Valid a -> safe acc id (k a)) -> safe acc id (checked_arg x k).
Proof. intros Hk. destruct x; simpl; [by apply Hk|by apply idle_safe]. Qed.

Lemma validate_idle dust other id : idle (validate_currency dust other id).
Proof. split; [done|]. done. Qed.

Lemma safe_wallet {A} acc id (v : aprog (result (list GqlError))) (k : aprog (result (Payload A))) :
  idle v -> safe acc id k -> safe acc id (checked_wallet v k).
Proof.
  intros Hv Hk. apply safe_after; [done|]. intros [[|e l]|e|e]; [done|by apply idle_safe..].
Qed.

(** *** The handlers *)

Lemma handler_safe cfg acc e : safe acc (entry_walletId e) (lift (handler cfg acc e)).
Proof.
  intros tr r He%exec_lift. destruct (money_trace (bases tr)) as [|m l] eqn:Hm; [by left|right].
  destruct (handler_owner cfg acc e _ _ He) as (w & tr' & -> & Hw & Hs); [by rewrite Hm|].
  eexists [], _, tr'. split_and!; [done|done|]. simpl. rewrite Hw, !String.eqb_refl.
  by rewrite bool_decide_eq_true_2.
Qed.

Section OnChain.
Context (oc : OnChainConfig) (acc : Account).
Import MoneyProtocol GuardedMoney.

Lemma input_guarded {B} x id (k : number * Wallet -> prog (result B)) :
  keeps_guard (owns acc id) (rpbind (validate_input x id acc) k).
Proof.
  unfold validate_input. destruct (checkedToCurrencyBaseAmount x) as [v|e|e]; [|done..]. cbn [rpbind pbind].
  destruct (decide _) as [Hs|Hs]; [done|].
  destruct (checkedToWalletId id) as [i|e|e] eqn:Hi; [|done..]. cbn [rpbind pbind].
  apply AccountPath.checkedToWalletId_ok in Hi as [-> _].
  intros [w|e|e]; eexists; (split; [split; [by right|reflexivity]|]); [|exact I..].
  cbn. destruct (String.eqb (w_accountId w) (acc_id acc)) eqn:Hw; cbn; [|exact I].
  rewrite String.eqb_refl. cbn [andb]. rewrite bool_decide_eq_true_2; [apply open_follows|].
  destruct (decide (acc_status acc = StatusActive)); [done|by destruct Hs].
Qed.

Lemma onchain_safe id amt address t memo all :
  safe acc id (lift (payOnChainByWalletId oc acc id amt address t memo all)).
Proof.
  intros tr r He%exec_lift. eapply guarded_order; [|exact He].
  unfold payOnChainByWalletId. apply keeps_await; [by destruct all; [apply quiet_call|]|].
  intros a. apply input_guarded.
Qed.

End OnChain.

(** ** The mutations that send a payment *)

Inductive payment_mutation : Type :=
| MLnInvoice (walletId paymentRequest : input string) (memo : input (option string))
| MLnNoAmount (currency : WalletCurrency) (walletId paymentRequest : input string) (amt : input number)
    (memo : input (option string))
| MIntraLedger (currency : WalletCurrency) (hash : string) (walletId recipientWalletId : input string)
    (amt : input number) (memo : input (option string))
| MOnChain (walletId address : input string) (amt : input number) (memo : input (option string))
    (targetConfirmations : input (option number))
| MOnChainAll (walletId address : input string) (memo : input (option string))
    (targetConfirmations : input (option number)).

Section Payments.
Context (dust : string) (cfg : Settings) (oc : OnChainConfig) (domainAccount : Account).

Definition resolve (m : payment_mutation) : aprog (result (Payload PaymentSendStatus)) :=
  match m with
  | MLnInvoice w p memo => LnInvoicePaymentSendMutation dust cfg domainAccount w p memo
  | MLnNoAmount Btc w p a memo => LnNoAmountInvoicePaymentSendMutation dust cfg domainAccount w p a memo
  | MLnNoAmount Usd w p a memo => LnNoAmountUsdInvoicePaymentSendMutation dust cfg domainAccount w p a memo
  | MIntraLedger Btc h w rw a memo => IntraLedgerPaymentSendMutation dust cfg domainAccount h w rw a memo
  | MIntraLedger Usd h w rw a memo => IntraLedgerUsdPaymentSendMutation dust cfg domainAccount h w rw a memo
  | MOnChain w ad a memo t => OnChainPaymentSendMutation dust oc domainAccount w ad a memo t
  | MOnChainAll w ad memo t => OnChainPaymentSendAllMutation dust oc domainAccount w ad memo t
  end.

(** The wallet of the request, and the currency of the mutation. *)
Definition mutation_wallet (m : payment_mutation) : input string :=
  match m with
  | MLnInvoice w _ _ | MLnNoAmount _ w _ _ _ | MIntraLedger _ _ w _ _ _ | MOnChain w _ _ _ _
  | MOnChainAll w _ _ _ => w
  end.
Definition mutation_currency (m : payment_mutation) : option WalletCurrency :=
  match m with
  | MLnInvoice _ _ _ => None
  | MLnNoAmount c _ _ _ _ | MIntraLedger c _ _ _ _ _ => Some c
  | MOnChain _ _ _ _ _ | MOnChainAll _ _ _ _ => Some Btc
  end.

(** An error or a status: a payload without errors shows a status, and one with an error
    shows none or failure. *)
Definition shows (r : result (Payload PaymentSendStatus)) : Prop :=
  match r with
  | Ok p => (pl_errors p = [] /\ exists status, pl_data p = Some status) \/
            (exists e, pl_errors p = [e] /\ (pl_data p = None \/ pl_data p = Some Failure))
  | Er _ => False
  | Throw _ => True
  end.

Definition shown (p : aprog (result (Payload PaymentSendStatus))) : Prop :=
  forall tr r, exec p tr r -> shows r.

Lemma shown_ret r : shows r -> shown (Ret r).
Proof. intros Hr tr r' He. by apply exec_inv in He as [_ ->]. Qed.

Lemma shown_bind {A} (p : aprog A) k : (forall a, shown (k a)) -> shown (pbind p k).
Proof. intros Hk tr r He. apply exec_bind_inv in He as (tr1 & a & tr2 & _ & _ & H2). by eapply Hk. Qed.

Lemma failed_shows data e : data = None \/ data = Some Failure -> shows (failed dust data e).
Proof.
  intros Hd. unfold failed, mapAndParseErrorForGqlResponse. destruct (mapError dust e) as [a|x|x] eqn:He; simpl; [|
    |done].
  - right. by eexists.
  - exfalso. revert He. unfold mapError. destruct (find_case _); [|done].
    destruct (newApollo _ _); done.
Qed.

Lemma refused_shown message : shown (refused message).
Proof. apply shown_ret. right. eexists. split; [done|by left]. Qed.

Lemma send_shown p : shown (send_payload dust p).
Proof.
  apply shown_bind. intros [s|e|e]; apply shown_ret; [left; eauto|apply failed_shows; by right|done].
Qed.

Lemma arg_shown {A} (x : input A) k : (forall a, shown (k a)) -> shown (checked_arg x k).
Proof. intros Hk. destruct x; [apply Hk|apply refused_shown]. Qed.

Lemma wallet_shown other id k : shown k -> shown (checked_wallet (validate_currency dust other id) k).
Proof.
  intros Hk tr r He. apply exec_bind_inv in He as (tr1 & v & tr2 & _ & H1 & H2).
  apply exec_inv in H1 as (x & tr' & _ & H1). apply exec_inv in H1 as [_ ->].
  destruct x as [w|e|e]; simpl in H2.
  - destruct (bool_decide _); simpl in H2; [apply exec_inv in H2 as [_ ->]|by eapply Hk].
    right. eexists. split; [done|by left].
  - unfold mapAndParseErrorForGqlResponse, mapError in H2. destruct (find_case _); simpl in H2.
    + destruct (newApollo _ _); simpl in H2; apply exec_inv in H2 as [_ ->]; [|done].
      right. eexists. split; [done|by left].
    + by apply exec_inv in H2 as [_ ->].
  - by apply exec_inv in H2 as [_ ->].
Qed.

(** *** The wallet has the currency of the mutation *)

Definition fits (c : WalletCurrency) (id : string) (tr : list event) : Prop :=
  money_trace tr = [] \/
  exists w tr', tr = Ev (WalletFindById id) (Ok w) :: tr' /\ w_currency w = c.

Lemma wallet_fits {A} c other id (k : aprog (result (Payload A))) tr r :
  c <> other -> exec (checked_wallet (validate_currency dust other id) k) tr r -> fits c id (bases tr).
Proof.
  intros Hc He. apply exec_bind_inv in He as (tr1 & v & tr2 & -> & H1 & H2).
  apply exec_inv in H1 as (x & tr' & -> & H1). apply exec_inv in H1 as [-> ->].
  rewrite bases_app.
  assert (Hstop : tr2 = [] -> fits c id (bases [Ev (Base (WalletFindById id)) x] ++ bases tr2)).
  { intros ->. left. by destruct x. }
  destruct x as [w|e|e]; simpl in H2.
  - case_bool_decide as Ho; simpl in H2; [apply Hstop; by apply exec_inv in H2 as [-> _]|].
    right. exists w, (bases tr2). split; [done|]. by destruct (w_currency w), c, other.
  - apply Hstop. unfold mapAndParseErrorForGqlResponse, mapError in H2.
    destruct (find_case _); simpl in H2; [destruct (newApollo _ _); simpl in H2|]; by apply exec_inv in H2 as [-> _].
  - apply Hstop. by apply exec_inv in H2 as [-> _].
Qed.

Lemma fits_arg {A B} c id (x : input A) (k : A -> aprog (result (Payload B))) tr r :
  (forall a, x = Valid a -> exec (k a) tr r -> fits c id (bases tr)) -> exec (checked_arg x k) tr r -> fits c id (bases tr).
Proof.
  intros Hk He. destruct x; simpl in He; [by eapply Hk|]. apply exec_inv in He as [-> _]. by left.
Qed.

(** *** The mutations *)

Lemma send_safe acc id p : safe acc id (lift p) -> safe acc id (send_payload dust p).
Proof. apply safe_respond. Qed.

Lemma username_idle id : idle (getUsernameFromWalletId id).
Proof. unfold getUsernameFromWalletId. calls_only_tac. Qed.

Lemma resolve_shown m : shown (resolve m).
Proof.
  assert (Hs : forall p, shown (send_payload dust p)) by apply send_shown.
  assert (Hf : forall e, shown (Ret (failed dust None e)))
    by (intros e; apply shown_ret, failed_shows; by left).
  assert (Ht : forall e, shown (Ret (Throw e))) by (intros e; by apply shown_ret).
  destruct m as [| [] | [] | |]; simpl; repeat (apply arg_shown; intros ?);
    try (apply wallet_shown); try apply Hs.
  all: destruct (checkedToWalletId _) as [i|e|e]; [|apply Hf|apply Ht]; apply wallet_shown.
  all: destruct (checkedToWalletId _) as [i'|e|e]; [|apply Hf|apply Ht].
  all: apply shown_bind; intros [u|e|e]; [apply Hs|apply Hf|apply Ht].
Qed.

Lemma intra_safe validate h rw a memo id : (forall i, idle (validate i)) ->
  safe domainAccount id
    (intraledger_payment dust cfg domainAccount validate h (Valid id) rw a memo).
Proof.
  intros Hv. unfold intraledger_payment. cbn [checked_arg]. do 3 (apply safe_arg; intros ? _).
  destruct (checkedToWalletId id) as [i|e|e]; [|by apply idle_safe..].
  apply safe_wallet; [done|]. destruct (checkedToWalletId _) as [i'|e|e]; [|by apply idle_safe..].
  apply safe_after; [apply username_idle|]. intros [u|e|e]; [|by apply idle_safe..].
  apply send_safe, (handler_safe cfg domainAccount (EIntraledger _ _ _ _ _)).
Qed.

Lemma resolve_safe m id : mutation_wallet m = Valid id -> safe domainAccount id (resolve m).
Proof.
  intros Hid. destruct m as [w p memo|[] w p a memo|[] h w rw a memo|w ad a memo t|w ad memo t];
    simpl in Hid; subst w; cbn [resolve]; try (apply intra_safe, validate_idle).
  all: repeat (apply safe_arg; intros ? ?); simplify_eq; try (apply safe_wallet; [apply validate_idle|]);
    apply send_safe; try apply onchain_safe.
  - apply (handler_safe cfg domainAccount (EInvoice _ _ _)).
  - apply (handler_safe cfg domainAccount (ENoAmountInvoice _ _ _ _)).
  - apply (handler_safe cfg domainAccount (ENoAmountInvoice _ _ _ _)).
Qed.

Lemma resolve_fits m id c tr r : mutation_wallet m = Valid id -> mutation_currency m = Some c ->
  exec (resolve m) tr r -> fits c id (bases tr).
Proof.
  intros Hid Hc He. destruct m as [w p memo|[] w p a memo|[] h w rw a memo|w ad a memo t|w ad memo t];
    simpl in Hid, Hc; subst w; simplify_eq; cbn [resolve] in He; revert He.
  all: repeat (apply fits_arg; intros ? ?); simplify_eq.
  all: try (by apply wallet_fits).
  all: destruct (checkedToWalletId _) as [i|e|e];
    [by apply wallet_fits|intros [-> _]%exec_inv; by left..].
Qed.

(** C19. In every execution of a mutation that sends a payment, the payload shows a
    status and no error, or one error and no status other than failure; and if money
    moves, the request named a wallet that was found, before any money moved, to
    belong to the active account of the caller and, when the mutation is for one
    currency, to be in that currency. *)
Theorem payment_mutations (m : payment_mutation) (tr : list (happening acall))
    (r : result (Payload PaymentSendStatus)) (He : exec (resolve m) tr r) :
  shows r /\
  (money_trace (bases tr) <> [] -> exists id, mutation_wallet m = Valid id /\
     (exists pre ev post, bases tr = pre ++ ev :: post /\ money_trace pre = [] /\
        owns domainAccount id ev = true) /\
     forall c, mutation_currency m = Some c ->
       exists w tr', bases tr = Ev (WalletFindById id) (Ok w) :: tr' /\ w_currency w = c).
Proof.
  split; [by eapply resolve_shown|]. intros Hm. destruct (mutation_wallet m) as [id|message] eqn:Hid.
  - exists id. split; [done|]. split.
    + by destruct (resolve_safe m id Hid tr r He).
    + intros c Hc. by destruct (resolve_fits m id c tr r Hid Hc He).
  - exfalso. apply Hm. destruct m as [| [] | [] | |]; simpl in *; subst; apply exec_inv in He as [-> _]; done.
Qed.

End Payments.

(** ** The other mutations *)

Definition insensitive (X : Type) (c : call X) : bool := negb (sensitive c).

Lemma lift_idle {A} (p : prog A) : calls_only insensitive p -> idle (lift p).
Proof. induction p as [a|X c k IH]; simpl; [done|]. intros [Hc Hk]. split; [done|]. intros x. by apply IH. Qed.

Lemma respond_idle {A B} dust (data : option B) (p : aprog (result A)) (k : A -> B) :
  idle p -> idle (respond dust data p k).
Proof. intros Hp. apply calls_only_bind; [done|]. by intros [a|e|e]. Qed.

Lemma arg_idle {A B} (x : input A) (k : A -> aprog (result (Payload B))) :
  (forall a, idle (k a)) -> idle (checked_arg x k).
Proof. intros Hk. destruct x; [apply Hk|done]. Qed.

Lemma wallet_idle {A} dust other id (k : aprog (result (Payload A))) :
  idle k -> idle (checked_wallet (validate_currency dust other id) k).
Proof.
  intros Hk. apply calls_only_bind; [apply validate_idle|]. intros [[|e l]|e|e]; [done|done..].
Qed.

Section Others.
Context (dust : string) (cfg : Settings) (sha256 : string -> string) (ls : LoginSettings)
  (captcha : bool) (acc : Account) (user : User).

Inductive other_mutation : forall {A}, aprog (result (Payload A)) -> Prop :=
| O_invoice w memo a : other_mutation (LnInvoiceCreateMutation dust cfg sha256 w memo a)
| O_usd_invoice w memo a : other_mutation (LnUsdInvoiceCreateMutation dust cfg sha256 w memo a)
| O_for_recipient w a memo d :
    other_mutation (LnInvoiceCreateOnBehalfOfRecipientMutation dust cfg sha256 w a memo d)
| O_usd_for_recipient w a memo d :
    other_mutation (LnUsdInvoiceCreateOnBehalfOfRecipientMutation dust cfg sha256 w a memo d)
| O_noamount_invoice w memo : other_mutation (LnNoAmountInvoiceCreateMutation dust cfg sha256 w memo)
| O_noamount_for_recipient w memo :
    other_mutation (LnNoAmountInvoiceCreateOnBehalfOfRecipientMutation dust cfg sha256 w memo)
| O_probe w p : other_mutation (LnInvoiceFeeProbeMutation dust cfg w p)
| O_usd_probe w p : other_mutation (LnUsdInvoiceFeeProbeMutation dust cfg w p)
| O_noamount_probe w p a : other_mutation (LnNoAmountInvoiceFeeProbeMutation dust cfg w p a)
| O_usd_noamount_probe w p a : other_mutation (LnNoAmountUsdInvoiceFeeProbeMutation dust cfg w p a)
| O_address w : other_mutation (OnChainAddressCreateMutation dust w)
| O_last_address w : other_mutation (OnChainAddressCurrentMutation dust w)
| O_default w : other_mutation (AccountUpdateDefaultWalletIdMutation dust acc w)
| O_alias n a : other_mutation (UserContactUpdateAliasMutation acc n a)
| O_username n : other_mutation (UserUpdateUsernameMutation dust acc user n)
| O_language l : other_mutation (UserUpdateLanguageMutation dust user l)
| O_login ip p c : other_mutation (UserLoginMutation dust ls ip p c)
| O_code ip p : other_mutation (UserRequestAuthCodeMutation dust ls captcha ip p)
| O_captcha_code ip p a b c : other_mutation (CaptchaRequestAuthCodeMutation dust ls ip p a b c)
| O_level u l : other_mutation (AccountUpdateLevelMutation dust u l)
| O_status u s c : other_mutation (AccountUpdateStatusMutation dust user u s c)
| O_map n t a b : other_mutation (BusinessUpdateMapInfoMutation dust n t a b).

Lemma invoice_idle w limit f : idle (lift (addInvoice sha256 w limit f)).
Proof. apply lift_idle. unfold addInvoice, registerInvoice. calls_only_tac. Qed.

Lemma estimate_idle w i a : calls_only insensitive (estimateLightningFee cfg w i a).
Proof. unfold estimateLightningFee, estimate_with_route, store_and_answer. calls_only_tac. Qed.

Lemma fee_idle p : calls_only insensitive p -> idle (fee_payload dust p).
Proof.
  intros Hp. apply calls_only_bind; [by apply lift_idle|]. intros [f|e|e]; [|done..]. done.
Qed.

Lemma code_idle phone ip : idle (requestPhoneCode ls phone ip).
Proof. unfold requestPhoneCode, limited. calls_only_tac. Qed.

Lemma wallets_idle id l enabled : idle (create_wallets id l enabled).
Proof. revert enabled. induction l as [|c l IH]; intros enabled; [done|]. split; [done|]. intros [w|e|e]; [apply IH|done..]. Qed.

Lemma login_idle phone code ip : idle (loginWithPhone ls phone code ip).
Proof.
  unfold loginWithPhone, phone_session, isCodeValid, limited, and_then,
    createAccountWithPhoneIdentifier, initializeCreatedAccount.
  calls_only_tac; apply wallets_idle.
Qed.

Lemma others_idle {A} (p : aprog (result (Payload A))) : other_mutation p -> idle p.
Proof.
  destruct 1; repeat (apply arg_idle; intros ?).
  all: try apply wallet_idle; try (apply respond_idle).
  all: try apply invoice_idle.
  all: try (apply fee_idle; unfold getLightningFeeEstimation, getNoAmountLightningFeeEstimation;
    repeat (apply calls_only_bind || case_match || intros ? || apply estimate_idle || exact I)).
  all: try (unfold createOnChainAddress, getLastOnChainAddress, updateDefaultWalletId, updateLanguage,
    updateAccountLevel, updateAccountStatus, updateBusinessMapInfo; calls_only_tac; done).
  - destruct (checkedToWalletId _) as [i|e|e]; [|done..]. apply wallet_idle, fee_idle.
    unfold getLightningFeeEstimation. apply calls_only_bind; [done|]. intros [d|e|e]; [|done..].
    destruct (inv_paymentAmount d); [apply estimate_idle|done].
  - destruct ip; [|done]. apply respond_idle, login_idle.
  - unfold UserRequestAuthCodeMutation. destruct captcha; [done|]. apply arg_idle. intros ?.
    destruct ip; [|done]. apply respond_idle, code_idle.
  - destruct ip; [|done]. apply respond_idle. split; [done|]. intros [u|e|e]; [apply code_idle|done..].
Qed.

(** No execution of the other mutations, which create invoices, estimate fees, create
    addresses, change accounts and users or sign in, moves money. *)
Theorem other_mutations_move_nothing {A} (p : aprog (result (Payload A))) (tr : list (happening acall))
    (r : result (Payload A)) (Hp : other_mutation p) (He : exec p tr r) : money_trace (bases tr) = [].
Proof. exact (idle_money p tr r (others_idle p Hp) He). Qed.

End Others.

(** ** Witnesses *)

Module ResolversExample.
Import PaymentClaims.

Definition api_env (X : Type) (c : acall X) : X :=
  match c in acall X return X with
  | Base c => sample_env _ c
  | c => LoginSpec.plain_answer _ c
  end.

Definition dollar_transfer : payment_mutation :=
  MIntraLedger Usd "h2" (parseValue WalletId (VString sample_uuid))
    (parseValue WalletId (VString other_uuid)) (parseValue CentAmount (VNumber (num 230))) (Valid None).
Definition sample_mutation :=
  run api_env (resolve "5460" sample_settings SendSpec.sample_cfg sample_acc dollar_transfer).

Lemma payment_mutations_witness :
  snd sample_mutation = Ok (mkPayload [] (Some Success)) /\
  shows (snd sample_mutation) /\
  exists id, mutation_wallet dollar_transfer = Valid id /\
    exists w tr', bases (fst sample_mutation) = Ev (WalletFindById id) (Ok w) :: tr' /\ w_currency w = Usd.
Proof.
  destruct (payment_mutations "5460" sample_settings SendSpec.sample_cfg sample_acc dollar_transfer _ _
    (run_exec api_env _)) as [H1 H2].
  split; [vm_compute; reflexivity|]. split; [exact H1|].
  destruct H2 as (id & Hid & _ & Hc); [vm_compute; discriminate|].
  exists id. split; [exact Hid|]. apply Hc. reflexivity.
Defined.

Definition sample_probe :=
  LnUsdInvoiceFeeProbeMutation "5460" sample_settings (parseValue WalletId (VString sample_uuid))
    (parseValue LnPaymentRequest (VString "lnbc1")).

Lemma other_mutations_move_nothing_witness :
  money_trace (bases (fst (run api_env sample_probe))) = [].
Proof.
  apply (other_mutations_move_nothing "5460" sample_settings (fun s => s) LoginSpec.sample_login false
    sample_acc (mkUser [] "") sample_probe _ (snd (run api_env sample_probe))).
  - exact (O_usd_probe _ _ _ _ _ _ _ _ _).
  - apply run_exec.
Defined.

End ResolversExample.
