(* ===== verification/Server.v ===== *)
(** * The servers of the interface

    [lib/servers/graphql-server.js], [graphql-main-server.js] and [graphql-admin-server.js], with
    [lib/servers/middlewares] and the identity service of [lib/services/kratos]: who a request is
    from, what it may ask for, and the wallet it may name.  A request is the session of its token,
    the rules of its field, the check of its wallet and then its resolver. *)

From S2P Require Import Prelude JsNum Errors ErrorMap Money Regex PaymentFlow Validation Accounts TxMetadata Facade LedgerService LedgerWrites RateLimit Programs Effects Persistence AccountRepo Workers Payments AccountHandlers PaymentsSpec Protocols Rewards Login Invoices Prices Lnd LnPayments PendingPayments FeeProbe OnChain Scalars Treasury OnChainSpec Resolvers ResolversSpec.
#[local] Open Scope string_scope.
#[local] Open Scope Z_scope.
#[local] Open Scope list_scope.

(** ** [services/kratos] *)

Module Kratos.

(** An identity and a session of the identity service. *)
Record Identity : Type := mkIdentity { id_id : string; id_phone : string; id_schema_id : string }.
Record KSession : Type := mkKSession { kse_id : string; kse_expires_at : option string; kse_identity : Identity }.

Inductive kcall : Type -> Type :=
| InitLoginFlow : kcall (db string)
| SubmitLoginFlow (flow identifier password : string) : kcall (db KratosSession)
| InitRegistrationFlow : kcall (db string)
| SubmitRegistrationFlow (flow phone password : string) : kcall (db KratosSession)
| AdminCreateIdentity (phone password : string) : kcall (db string)
| AdminGetIdentity (kratosUserId : string) : kcall (db Identity)
| AdminUpdateIdentity (kratosUserId : string) (identity : Identity) (password : string) : kcall (db Identity)
| AdminListIdentitySessions (userId : string) : kcall (db (option (list KSession)))
| AdminExtendSession (id : string) : kcall (db unit)
| ToSession (token : string) : kcall (db KSession).

Abbreviation kprog := (program kcall).

Definition status_400 := "Request failed with status code 400".
Definition status_401 := "Request failed with status code 401".

(** A rejection outside of a [try]. *)
Definition unguarded {A B} (p : kprog (db A)) (k : A -> kprog (result B)) : kprog (result B) :=
  let! r <- p ;;
  match r with Done a => k a | Rejected m => Ret (Throw (new_msg JsError m)) end.

Section Auth.
Context (password : string).

Definition login (phone : string) : kprog (result KratosSession) :=
  unguarded (do_call InitLoginFlow) (fun flow =>
  let! result <- do_call (SubmitLoginFlow flow phone password) ;;
  Ret match result with
      | Done session => Ok session
      | Rejected m =>
          Er (if String.eqb m status_400 then new_msg LikelyNoUserWithThisPhoneExistError m
              else if String.eqb m status_401 then new_msg AuthenticationKratosError m
              else new_msg UnknownKratosError m)
      end).

Definition likely_exists (m : string) : error :=
  if String.eqb m status_400 then new_msg LikelyUserAlreadyExistError m else new_msg UnknownKratosError m.

Definition createIdentityWithSession (phone : string) : kprog (result KratosSession) :=
  unguarded (do_call InitRegistrationFlow) (fun flow =>
  let! result <- do_call (SubmitRegistrationFlow flow phone password) ;;
  Ret match result with Done session => Ok session | Rejected m => Er (likely_exists m) end).

Definition createIdentityNoSession (phone : string) : kprog (result string) :=
  let! identity <- do_call (AdminCreateIdentity phone password) ;;
  Ret match identity with Done kratosUserId => Ok kratosUserId | Rejected m => Er (likely_exists m) end.

Definition upgradeToPhoneWithPasswordSchema (kratosUserId newPassword : string) : kprog (result (string * string)) :=
  let! identity <- do_call (AdminGetIdentity kratosUserId) ;;
  match identity with
  | Rejected m => Ret (Er (likely_exists m))
  | Done identity =>
      if negb (String.eqb (id_schema_id identity) "phone_no_password_v0")
      then Ret (Er (new IncompatibleSchemaUpgradeError))
      else
        unguarded
          (do_call (AdminUpdateIdentity kratosUserId
             (mkIdentity (id_id identity) (id_phone identity) "phone_with_password_v0") newPassword))
          (fun newIdentity => Ret (Ok (id_id newIdentity, id_phone newIdentity)))
  end.

End Auth.

(** A session without an end raises. *)
Definition toDomainSession (s : KSession) : result (string * (string * string)) :=
  if str_truthy (kse_expires_at s)
  then Ok (kse_id s, (id_id (kse_identity s), id_phone (kse_identity s)))
  else Throw (new MissingExpiredAtKratosError).

(** What is raised inside the [try] is an unknown error. *)
Definition validateKratosToken (SessionToken : string) : kprog (result string) :=
  let! data <- do_call (ToSession SessionToken) ;;
  Ret match data with
      | Rejected m =>
          Er (if String.eqb m status_401 then new_msg AuthenticationKratosError m else new_msg UnknownKratosError m)
      | Done data =>
          match toDomainSession data with
          | Ok s => Ok (fst (snd s))
          | Er e | Throw e => Er (new_msg UnknownKratosError (error_message e))
          end
      end.

Definition listSessionsInternal (userId : string) : kprog (result (list KSession)) :=
  let! res <- do_call (AdminListIdentitySessions userId) ;;
  Ret match res with
      | Done None => Ok []
      | Done (Some l) => Ok l
      | Rejected m => Er (new_msg UnknownKratosError m)
      end.

Fixpoint domain_sessions (l : list KSession) : result (list (string * (string * string))) :=
  match l with
  | [] => Ok []
  | s :: l => let* d := toDomainSession s in let* rest := domain_sessions l in Ok (d :: rest)
  end.
Definition listSessions (userId : string) : kprog (result (list (string * (string * string)))) :=
  await res <- listSessionsInternal userId ;;
  Ret (domain_sessions res).

Definition schemaIdsToExtend : list string := ["phone_no_password_v0"].
Definition extendSession (session : KSession) : kprog (result unit) :=
  if negb (existsb (String.eqb (id_schema_id (kse_identity session))) schemaIdsToExtend) then Ret (Ok tt)
  else unguarded (do_call (AdminExtendSession (kse_id session))) (fun _ => Ret (Ok tt)).

End Kratos.

(** ** Sessions: [graphql-server.js] *)

(** What a resolver is given. *)
Record GqlContext : Type := mkContext {
  cx_domainUser : option User;
  cx_domainAccount : option Account;
  cx_ip : option string
}.

Section Server.
Context (ls : LoginSettings).

(** A request without a subject that can be one of the identity service is anonymous.  The
    connection of a user is recorded in the background.  An account that is not found raises the
    class [Error] itself, a user that is not found an [ApolloError]. *)
Definition sessionContext (sub ip : option string) : aprog (result (GqlContext * list (aprog (result unit)))) :=
  match checkedToKratosUserId (match sub with Some s => s | None => "" end) with
  | Throw e => Ret (Throw e)
  | Er _ => Ret (Ok (mkContext None None ip, []))
  | Ok userId =>
      let! account <- getAccountFromKratosUserId userId ;;
      match account with
      | Er _ => Ret (Throw (new JsError))
      | Throw e => Ret (Throw e)
      | Ok account =>
          let! loggedInUser <- getUserForLogin ls (acc_id account) ip ;;
          match loggedInUser with
          | Er _ => Ret (Throw (new_msg JsError "Invalid user authentication"))
          | Throw e => Ret (Throw e)
          | Ok (user, background) => Ret (Ok (mkContext (Some user) (Some account) ip, [background]))
          end
      end
  end.

(** The headers of a request that name its address. *)
Definition setGqlContext (isDev : bool) (sub : option string) (reqIp realIp forwardedFor : Ips)
    : aprog (result (GqlContext * list (aprog (result unit)))) :=
  let ipString :=
    if isDev then reqIp
    else match realIp with NoIps => forwardedFor | IpsString "" => forwardedFor | ips => ips end in
  sessionContext sub (parseIps ipString).

(** ** Rules: [graphql-main-server.js], [graphql-admin-server.js] *)

(** A rule answers nothing when it allows, the error it answers or the error it raises. *)
Inductive verdict : Type := Allowed | Denied (e : errData) | RuleRaised (e : error).
Definition rule := GqlContext -> verdict.

Definition isAuthenticated : rule := fun ctx =>
  match cx_domainAccount ctx with
  | Some _ => Allowed
  | None => Denied (mkErrData G_AuthenticationError None None)
  end.
Definition isEditor : rule := fun ctx =>
  match cx_domainAccount ctx with
  | Some a => if acc_isEditor a then Allowed else Denied (mkErrData G_AuthorizationError None None)
  | None => RuleRaised (new JsTypeError)
  end.

(** The rules of the fields; those of a conjunction are all asked. *)
Definition mainQueryRules (field : string) : option (list rule) :=
  if existsb (String.eqb field) ["me"; "onChainTxFee"] then Some [isAuthenticated] else None.
Definition mainMutationRules (field : string) : option (list rule) :=
  if existsb (String.eqb field)
       ["userQuizQuestionUpdateCompleted"; "deviceNotificationTokenCreate"; "userUpdateUsername";
        "userUpdateLanguage"; "accountUpdateDefaultWalletId"; "userContactUpdateAlias"; "lnInvoiceFeeProbe";
        "lnNoAmountInvoiceFeeProbe"; "lnInvoiceCreate"; "lnUsdInvoiceCreate"; "lnNoAmountInvoiceCreate";
        "lnInvoicePaymentSend"; "lnNoAmountInvoicePaymentSend"; "lnNoAmountUsdInvoicePaymentSend";
        "intraLedgerPaymentSend"; "intraLedgerUsdPaymentSend"; "onChainAddressCreate";
        "onChainAddressCurrent"; "onChainPaymentSend"; "onChainPaymentSendAll"]
  then Some [isAuthenticated] else None.
Definition adminQueryRules (field : string) : option (list rule) :=
  if existsb (String.eqb field)
       ["allLevels"; "accountDetailsByUserPhone"; "accountDetailsByUsername"; "transactionById";
        "transactionsByHash"; "lightningInvoice"; "lightningPayment"; "wallet"; "listWalletIds"]
  then Some [isAuthenticated; isEditor] else None.
Definition adminMutationRules (field : string) : option (list rule) :=
  if existsb (String.eqb field)
       ["accountUpdateStatus"; "accountUpdateLevel"; "businessUpdateMapInfo"; "coldStorageRebalanceToHotWallet"]
  then Some [isAuthenticated; isEditor] else None.

(** The fields of the two schemas: [graphql/main], [graphql/admin]. *)
Definition mainMutations : list string :=
  ["userRequestAuthCode"; "userLogin"; "captchaCreateChallenge"; "captchaRequestAuthCode";
   "lnInvoiceCreateOnBehalfOfRecipient"; "lnUsdInvoiceCreateOnBehalfOfRecipient";
   "lnNoAmountInvoiceCreateOnBehalfOfRecipient";
   "userQuizQuestionUpdateCompleted"; "deviceNotificationTokenCreate"; "userUpdateLanguage"; "userUpdateUsername";
   "accountUpdateDefaultWalletId"; "userContactUpdateAlias"; "lnInvoiceFeeProbe"; "lnUsdInvoiceFeeProbe";
   "lnNoAmountInvoiceFeeProbe"; "lnNoAmountUsdInvoiceFeeProbe"; "lnInvoiceCreate"; "lnUsdInvoiceCreate";
   "lnNoAmountInvoiceCreate"; "lnInvoicePaymentSend"; "lnNoAmountInvoicePaymentSend";
   "lnNoAmountUsdInvoicePaymentSend"; "intraLedgerPaymentSend"; "intraLedgerUsdPaymentSend";
   "onChainAddressCreate"; "onChainAddressCurrent"; "onChainPaymentSend"; "onChainPaymentSendAll"].
Definition adminMutations : list string :=
  ["userRequestAuthCode"; "userLogin"; "captchaCreateChallenge"; "captchaRequestAuthCode";
   "accountUpdateLevel"; "accountUpdateStatus"; "accountsAddUsdWallet"; "businessUpdateMapInfo";
   "coldStorageRebalanceToHotWallet"].
Definition adminQueries : list string :=
  ["allLevels"; "accountDetailsByUserPhone"; "accountDetailsByUsername"; "transactionById";
   "transactionsByHash"; "lightningInvoice"; "lightningPayment"; "listWalletIds"; "wallet"].

(** ** [middlewares/wallet-id.js] *)

(** The mutations whose wallet is checked. *)
Definition walletIdMutations : list string :=
  ["intraLedgerPaymentSend"; "lnInvoiceFeeProbe"; "lnNoAmountInvoiceFeeProbe"; "lnInvoiceCreate";
   "lnUsdInvoiceCreate"; "lnNoAmountInvoiceCreate"; "lnInvoicePaymentSend"; "lnNoAmountInvoicePaymentSend";
   "lnNoAmountUsdInvoicePaymentSend"; "onChainAddressCreate"; "onChainAddressCurrent"; "onChainPaymentSend";
   "onChainPaymentSendAll"].

Section WalletId.
Context (dust : string).

(** The error that is returned, or what the resolver answers. *)
Definition validateWalletId {A} (walletId : option (input string)) (ctx : GqlContext)
    (resolve : aprog (result A)) : aprog (result (string + A)) :=
  match walletId with
  | None => Ret (Ok (inl "Invalid wallet"))
  | Some (Invalid message) => Ret (Ok (inl message))
  | Some (Valid "") => Ret (Ok (inl "Invalid wallet"))
  | Some (Valid walletId) =>
      match cx_domainAccount ctx with
      | None => Ret (Ok (inl "Invalid Account"))
      | Some a =>
          let! permitted <- hasPermissions (acc_id a) walletId ;;
          match permitted with
          | Er e =>
              Ret (let* apollo := mapError dust e in Ok (inl (ae_message apollo)))
          | Throw e => Ret (Throw e)
          | Ok false => Ret (Ok (inl "Invalid wallet"))
          | Ok true => let! r <- resolve ;; Ret (let* a := r in Ok (inr a))
          end
      end
  end.

Definition validateWalletIdMutation {A} (walletId : option (input string)) (ctx : GqlContext)
    (resolve : aprog (result (Payload A))) : aprog (result (Payload A)) :=
  await r <- validateWalletId walletId ctx resolve ;;
  match r with
  | inl message => refused message
  | inr payload => Ret (Ok payload)
  end.
Definition validateWalletIdQuery {A} (walletId : option (input string)) (ctx : GqlContext)
    (resolve : aprog (result A)) : aprog (result A) :=
  await r <- validateWalletId walletId ctx resolve ;;
  match r with
  | inl message => Ret (Throw (new_msg JsError message))
  | inr a => Ret (Ok a)
  end.

Definition walletIdMiddleware {A} (field : string) (walletId : option (input string)) (ctx : GqlContext)
    (resolve : aprog (result (Payload A))) : aprog (result (Payload A)) :=
  if existsb (String.eqb field) walletIdMutations
  then validateWalletIdMutation walletId ctx resolve else resolve.

End WalletId.
End Server.

(** ** Tokens: [auth-router.js], [update-token.js] *)

Module Tokens.

Inductive scall : Type -> Type :=
| SBase {X} (c : acall X) : scall X
| ValidateKratosToken (token : string) : scall (result string)
| KratosCreateIdentityNoSession (phone : string) : scall (result string)
| TokenCacheGet (key : string) : scall (result string)
| TokenCacheSet (key value : string) (ttlSecs : Z) : scall (result unit)
| BrowserSession (cookie : string) : scall (db (string * string)).
Abbreviation sprog := (program scall).
Definition sbase {X} (c : call X) : sprog X := do_call (SBase (Base c)).
Definition slift {A} (p : aprog A) : sprog A := interp (fun X c => do_call (SBase c)) p.

(** What [jwt.verify] makes of a token: it raises, or the payload is a string or an object. *)
Inductive verified : Type := TokenRejected | StringPayload | ObjectPayload (uid : string).

Section Tokens.
Context (verify : string -> verified).

(** [authz.slice(7)] *)
Definition bearer (authz : string) : string := String.substring 7 (String.length authz - 7) authz.
Definition is_kratos_token (rawToken : string) : bool := Nat.eqb (String.length rawToken) 32.

(** A status of 401 with an error, or the subject of the token. *)
Inductive TokenAnswer : Type := Unauthorized (message : string) | Subject (sub : option string).
Definition unauthorized (e : error) : TokenAnswer :=
  Unauthorized (error_name (error_class e) +:+ " " +:+ error_message e).

(** The identity of an account that has none: the one made for its phone when there is none, and
    nothing when there is one. *)
Definition identity_of (account : Account) : sprog (result (TokenAnswer + option string)) :=
  let! user <- sbase (UserFindById (acc_id account)) ;;
  match user with
  | Er e => Ret (Ok (inl (unauthorized e)))
  | Throw e => Ret (Throw e)
  | Ok user =>
      match u_phone user with
      | None | Some "" => Ret (Ok (inl (Unauthorized "phone is missing")))
      | Some phone =>
          let! kratosRes <- do_call (SBase (KratosLogin phone)) ;;
          match kratosRes with
          | Throw e => Ret (Throw e)
          | Ok _ => Ret (Ok (inr None))
          | Er e =>
              if is_a e LikelyNoUserWithThisPhoneExistError then
                let! created <- do_call (KratosCreateIdentityNoSession phone) ;;
                match created with
                | Er e => Ret (Ok (inl (unauthorized e)))
                | Throw e => Ret (Throw e)
                | Ok kratosUserId =>
                    let! accountRes <- do_call (SBase (AccountUpdate (set_kratosUserId kratosUserId account))) ;;
                    match accountRes with
                    | Er e => Ret (Ok (inl (unauthorized e)))
                    | Throw e => Ret (Throw e)
                    | Ok _ => Ret (Ok (inr (Some kratosUserId)))
                    end
                end
              else Ret (Ok (inr None))
          end
      end
  end.

Definition validatetoken (authorization : option string) : sprog (result TokenAnswer) :=
  match authorization with
  | None | Some "" => Ret (Ok (Unauthorized "Missing token"))
  | Some authz =>
      let rawToken := bearer authz in
      if is_kratos_token rawToken then
        let! kratosRes <- do_call (ValidateKratosToken rawToken) ;;
        Ret match kratosRes with
            | Ok kratosUserId => Ok (Subject (Some kratosUserId))
            | Er e => Ok (if is_a e KratosError then unauthorized e else Subject None)
            | Throw e => Throw e
            end
      else
        match verify rawToken with
        | TokenRejected => Ret (Ok (Unauthorized "Token validation error"))
        | StringPayload => Ret (Ok (Unauthorized "tokenPayload should be an object"))
        | ObjectPayload uid =>
            let! account <- sbase (AccountFindById uid) ;;
            match account with
            | Er e => Ret (Ok (unauthorized e))
            | Throw e => Ret (Throw e)
            | Ok account =>
                if str_truthy (acc_kratosUserId account) then Ret (Ok (Subject (acc_kratosUserId account)))
                else
                  await r <- identity_of account ;;
                  match r with
                  | inl answer => Ret (Ok answer)
                  | inr kratosUserId => Ret (Ok (Subject (str_or kratosUserId (acc_kratosUserId account))))
                  end
            end
        end
  end.

Definition twoMonths : Z := 60 * 60 * 24 * 30.

(** The token that is put in the header [kratos-session-token] of the response, if any. *)
Definition updateToken (orgauthorization : option string) : sprog (result (option string)) :=
  match orgauthorization with
  | None | Some "" => Ret (Ok None)
  | Some authz =>
      let rawToken := bearer authz in
      if is_kratos_token rawToken then Ret (Ok None)
      else
        match verify rawToken with
        | TokenRejected | StringPayload => Ret (Ok None)
        | ObjectPayload uid =>
            let! user <- sbase (UserFindById uid) ;;
            match user with
            | Er _ => Ret (Ok None)
            | Throw e => Ret (Throw e)
            | Ok user =>
                match u_phone user with
                | None | Some "" => Ret (Ok None)
                | Some phone =>
                    let! cacheRes <- do_call (TokenCacheGet rawToken) ;;
                    match cacheRes with
                    | Ok kratosToken => Ret (Ok (Some kratosToken))
                    | Throw e => Ret (Throw e)
                    | Er _ =>
                        let! loggedIn <- do_call (SBase (KratosLogin phone)) ;;
                        let! kratosResult <-
                          match loggedIn with
                          | Er e => if is_a e LikelyNoUserWithThisPhoneExistError
                                    then do_call (SBase (KratosCreateIdentityWithSession phone))
                                    else Ret loggedIn
                          | r => Ret r
                          end ;;
                        match kratosResult with
                        | Er _ => Ret (Ok None)
                        | Throw e => Ret (Throw e)
                        | Ok session =>
                            let! account <- sbase (AccountFindById uid) ;;
                            match account with
                            | Er _ => Ret (Ok None)
                            | Throw e => Ret (Throw e)
                            | Ok account =>
                                let! updated <- do_call (SBase (AccountUpdate
                                  (set_kratosUserId (ks_kratosUserId session) account))) ;;
                                match updated with
                                | Throw e => Ret (Throw e)
                                | _ =>
                                    let! _ <- do_call (TokenCacheSet rawToken (ks_sessionToken session) twoMonths) ;;
                                    Ret (Ok (Some (ks_sessionToken session)))
                                end
                            end
                        end
                    end
                end
            end
        end
  end.

End Tokens.

(** The route [/browser]: the session of a cookie, then the sign-in by email; what is raised in
    between is caught. *)
Inductive BrowserAnswer : Type :=
| BrowserFailed (e : ApolloError)
| BrowserAuthError
| BrowserLoggedIn (kratosUserId accountStatus : string).

Definition browser (ls : LoginSettings) (dust : string) (isDev : bool) (reqIp realIp : Ips) (cookie : string)
    : sprog (result BrowserAnswer) :=
  match parseIps (if isDev then reqIp else realIp) with
  | None => Ret (Throw (new_msg JsError "IP is not defined"))
  | Some ip =>
      let! data <- do_call (BrowserSession cookie) ;;
      match data with
      | Rejected _ => Ret (Ok BrowserAuthError)
      | Done (kratosUserId, emailAddress) =>
          let! kratosLoginResp <- slift (loginWithEmail ls kratosUserId emailAddress ip) ;;
          Ret (Ok match kratosLoginResp with
                  | Ok accountStatus => BrowserLoggedIn kratosUserId accountStatus
                  | Er e => match mapError dust e with Ok a => BrowserFailed a | _ => BrowserAuthError end
                  | Throw _ => BrowserAuthError
                  end)
      end
  end.

End Tokens.

(** ** Who may do what *)

Module ServerSpec.

(** *** The library of rules *)

(** [shield]: the resolver of a field under its rules. *)
Class Shield : Type :=
  shield : forall {A : Type}, option (list rule) -> GqlContext -> aprog (result A) -> aprog (result A).

(** As documented: a field without a rule is open, one whose rules all allow is resolved, and
    another one raises without being resolved. *)
Class ShieldLaws `{Shield} : Prop := {
  shield_open : forall A ctx (k : aprog (result A)), shield None ctx k = k;
  shield_allows : forall A rules ctx (k : aprog (result A)),
    Forall (fun r : rule => r ctx = Allowed) rules -> shield (Some rules) ctx k = k;
  shield_denies : forall A rules ctx (k : aprog (result A)),
    Exists (fun r : rule => r ctx <> Allowed) rules -> exists e, shield (Some rules) ctx k = Ret (Throw e)
}.

(** *** Requests *)

Definition field_of (m : payment_mutation) : string :=
  match m with
  | MLnInvoice _ _ _ => "lnInvoicePaymentSend"
  | MLnNoAmount Btc _ _ _ _ => "lnNoAmountInvoicePaymentSend"
  | MLnNoAmount Usd _ _ _ _ => "lnNoAmountUsdInvoicePaymentSend"
  | MIntraLedger Btc _ _ _ _ _ => "intraLedgerPaymentSend"
  | MIntraLedger Usd _ _ _ _ _ => "intraLedgerUsdPaymentSend"
  | MOnChain _ _ _ _ _ => "onChainPaymentSend"
  | MOnChainAll _ _ _ _ => "onChainPaymentSendAll"
  end.

(** A resolver that reads the account of the context. *)
Definition with_account {A} (ctx : GqlContext) (k : Account -> aprog (result A)) : aprog (result A) :=
  match cx_domainAccount ctx with Some a => k a | None => Ret (Throw (new JsTypeError)) end.

Section Requests.
Context `{ShieldLaws} (ls : LoginSettings) (dust : string) (cfg : Settings) (oc : OnChainConfig).

Definition serve_payment (sub ip : option string) (m : payment_mutation)
    : aprog (result (Payload PaymentSendStatus)) :=
  await session <- sessionContext ls sub ip ;;
  let ctx := fst session in
  shield (mainMutationRules (field_of m)) ctx
    (walletIdMiddleware dust (field_of m) (Some (mutation_wallet m)) ctx
       (with_account ctx (fun acc => resolve dust cfg oc acc m))).

(** The account of the subject of a token. *)
Definition account_found (ev : happening acall) : list (string * Account) :=
  match ev with
  | Ev c x =>
      match c in acall X return X -> list (string * Account) with
      | AccountFindByKratosUserId id => fun x => match x with Ok a => [(id, a)] | _ => [] end
      | _ => fun _ => []
      end x
  end.

Lemma session_account sub ip tr r : exec (sessionContext ls sub ip) tr r ->
  money_trace (bases tr) = [] /\
  forall ctx bg acc, r = Ok (ctx, bg) -> cx_domainAccount ctx = Some acc ->
  exists userId, sub = Some userId /\ (userId, acc) ∈ tr ≫= account_found.
Proof.
  unfold sessionContext, getAccountFromKratosUserId, getUserForLogin. intros He.
  destruct (checkedToKratosUserId _) as [userId|e|e] eqn:Hc;
    [|apply exec_inv in He as [-> ->]; split; [done|]; intros ? ? ? [= <- <-] [=]|
      apply exec_inv in He as [-> ->]; by split].
  assert (Hsub : sub = Some userId).
  { revert Hc. unfold checkedToKratosUserId. destruct (accepts _ _) eqn:Ha; [|done]. simpl. intros [= <-].
    by destruct sub. }
  apply exec_inv in He as (x & tr1 & -> & He). destruct x as [acc|e|e].
  - apply exec_inv in He as (y & tr2 & -> & He). destruct y as [u|e|e];
      apply exec_inv in He as [-> ->]; (split; [done|]); intros ctx bg acc'; [|done..].
    intros [= <- <-] [= <-]. exists userId. split; [done|]. left.
  - apply exec_inv in He as [-> ->]. by split.
  - apply exec_inv in He as [-> ->]. by split.
Qed.

Lemma safe_then {A B} acc id (p : aprog A) (k : A -> aprog B) :
  safe acc id p -> (forall a, exists b, k a = Ret b) -> safe acc id (pbind p k).
Proof.
  intros Hp Hk tr b He. apply exec_bind_inv in He as (tr1 & a & tr2 & -> & H1 & H2).
  destruct (Hk a) as [b' Hb]. rewrite Hb in H2. apply exec_inv in H2 as [-> _]. rewrite app_nil_r.
  by eapply Hp.
Qed.

Lemma middleware_safe acc ctx field m id :
  cx_domainAccount ctx = Some acc -> mutation_wallet m = Valid id ->
  safe acc id (walletIdMiddleware dust field (Some (mutation_wallet m)) ctx
                 (with_account ctx (fun acc => resolve dust cfg oc acc m))).
Proof.
  intros Ha Hid. unfold walletIdMiddleware, with_account. rewrite Ha, Hid.
  pose proof (resolve_safe dust cfg oc acc m id Hid) as Hs.
  destruct (existsb _ _); [|done]. unfold validateWalletIdMutation, validateWalletId. rewrite Ha.
  apply safe_then; [|by intros [[message|payload]|e|e]; eexists].
  destruct id as [|c id]; [by apply idle_safe|].
  apply safe_after; [unfold hasPermissions; calls_only_tac|].
  intros [[]|e|e]; [|by apply idle_safe..]. apply safe_then; [done|]. by eexists.
Qed.

(** C4. When money moves in an execution of a request for a payment, from the token to
    the resolver, the token has a subject, an account was found for that subject,
    the request names a wallet, and that wallet was found to belong to that account,
    which is active, before any money moved; the rules of the fields are applied by
    a library that behaves as documented. *)
Theorem request_authorised (sub ip : option string) (m : payment_mutation) (tr : list (happening acall))
    (r : result (Payload PaymentSendStatus)) (He : exec (serve_payment sub ip m) tr r)
    (Hm : money_trace (bases tr) <> []) :
  exists userId acc id, sub = Some userId /\ (userId, acc) ∈ tr ≫= account_found /\
    mutation_wallet m = Valid id /\
    exists pre ev post, bases tr = pre ++ ev :: post /\ money_trace pre = [] /\ owns acc id ev = true.
Proof.
  unfold serve_payment in He. apply exec_bind_inv in He as (tr1 & session & tr2 & -> & H1 & H2).
  apply session_account in H1 as [Hq Hs].
  assert (Hstop : tr2 <> []).
  { intros ->. apply Hm. by rewrite bases_app, money_trace_app, Hq. }
  destruct session as [[ctx bg]|e|e]; [|by apply exec_inv in H2 as [-> _]..]. cbn [fst] in H2.
  assert (Hrules : mainMutationRules (field_of m) = Some [isAuthenticated]) by by destruct m as [|[]|[]| |].
  rewrite Hrules in H2. destruct (cx_domainAccount ctx) as [acc|] eqn:Ha.
  - rewrite shield_allows in H2; [|constructor; [|done]; unfold isAuthenticated; by rewrite Ha].
    destruct (Hs ctx bg acc eq_refl Ha) as (userId & Hsub & Hin).
    destruct (mutation_wallet m) as [id|message] eqn:Hid.
    + exists userId, acc, id. split_and!; [done|rewrite bind_app; apply elem_of_app; by left|done|].
      pose proof (middleware_safe acc ctx (field_of m) m id Ha Hid) as Hsafe. rewrite Hid in Hsafe.
      apply Hsafe in H2. destruct (authorised_after _ _ _ _ Hq H2) as [Hn|Hp];
        rewrite <- bases_app in *; [by destruct Hm|done].
    + exfalso. apply Hm. rewrite bases_app, money_trace_app, Hq.
      unfold walletIdMiddleware, with_account in H2. rewrite Ha in H2.
      destruct (existsb _ _); [by apply exec_inv in H2 as [-> _]|].
      destruct m as [|[]|[]| |]; simpl in *; subst; by apply exec_inv in H2 as [-> _].
  - destruct (shield_denies _ [isAuthenticated] ctx
      (walletIdMiddleware dust (field_of m) (Some (mutation_wallet m)) ctx
         (with_account ctx (fun acc => resolve dust cfg oc acc m)))) as [e Hd].
    { constructor. unfold isAuthenticated. by rewrite Ha. }
    rewrite Hd in H2. by apply exec_inv in H2 as [-> _].
Qed.

Definition is_editor (ctx : GqlContext) : bool :=
  match cx_domainAccount ctx with Some a => acc_isEditor a | None => false end.

(** The mutations of the administration that need no session. *)
Definition openAdminMutations : list string :=
  ["userRequestAuthCode"; "userLogin"; "captchaCreateChallenge"; "captchaRequestAuthCode"; "accountsAddUsdWallet"].

Lemma rules_deny {A} ctx (k : aprog (result A)) : is_editor ctx = false ->
  exists e, shield (Some [isAuthenticated; isEditor]) ctx k = Ret (Throw e).
Proof.
  intros He. apply shield_denies. right. left. unfold isEditor, is_editor in *.
  destruct (cx_domainAccount ctx); [by rewrite He|done].
Qed.

(** C27. For a caller who is an editor the rules of the administration resolve every
    field. For a caller who is not, every query of the administration raises without
    being resolved, and so does every mutation, other than the four that sign in and
    accountsAddUsdWallet, which are resolved for everyone. *)
Theorem admin_needs_editor (ctx : GqlContext) (A : Type) (k : aprog (result A)) :
  (is_editor ctx = true -> forall field,
     shield (adminQueryRules field) ctx k = k /\ shield (adminMutationRules field) ctx k = k) /\
  (is_editor ctx = false ->
     (forall field, field ∈ adminQueries -> exists e, shield (adminQueryRules field) ctx k = Ret (Throw e)) /\
     (forall field, field ∈ adminMutations ->
        if existsb (String.eqb field) openAdminMutations
        then shield (adminMutationRules field) ctx k = k
        else exists e, shield (adminMutationRules field) ctx k = Ret (Throw e))).
Proof.
  split.
  - intros He field. unfold adminQueryRules, adminMutationRules.
    assert (Hrules : Forall (fun r : rule => r ctx = Allowed) [isAuthenticated; isEditor]).
    { unfold is_editor in He. destruct (cx_domainAccount ctx) as [a|] eqn:Ha; [|done].
      constructor; [unfold isAuthenticated; by rewrite Ha|]. constructor; [|done].
      unfold isEditor. by rewrite Ha, He. }
    split; destruct (existsb _ _); auto using shield_allows, shield_open.
  - intros He. split; intros field Hf; unfold adminQueries, adminMutations in Hf;
      rewrite !elem_of_cons, elem_of_nil in Hf; destruct_or? Hf; subst; cbn;
      first [by apply rules_deny|by apply shield_open|done].
Qed.

End Requests.

(** *** Subjects of tokens *)

Section Subjects.
Import Tokens.
Context (verify : string -> verified).

(** An execution that has ended. *)
Ltac over He := apply exec_inv in He as [-> He]; simplify_eq/=.

(** C26. When the validation of a token answers a subject that is not empty, the header
    held a token, and either it has the length of a session token and the identity
    service answered that subject for it, or it was verified and names an account
    that was found, and the subject is the identity of that account, or one that was
    made for the phone of its user and stored in the account. *)
Theorem token_subject (authorization : option string) (tr : list (happening scall)) (sub : string)
    (He : exec (validatetoken verify authorization) tr (Ok (Subject (Some sub)))) (Hsub : sub <> "") :
  exists authz, authorization = Some authz /\
  ((is_kratos_token (bearer authz) = true /\ tr = [Ev (ValidateKratosToken (bearer authz)) (Ok sub)]) \/
   exists uid a, verify (bearer authz) = ObjectPayload uid /\
     ((tr = [Ev (SBase (Base (AccountFindById uid))) (Ok a)] /\ acc_kratosUserId a = Some sub) \/
      exists u phone e a', u_phone u = Some phone /\
        tr = [Ev (SBase (Base (AccountFindById uid))) (Ok a); Ev (SBase (Base (UserFindById (acc_id a)))) (Ok u);
              Ev (SBase (KratosLogin phone)) (Er e); Ev (KratosCreateIdentityNoSession phone) (Ok sub);
              Ev (SBase (AccountUpdate (set_kratosUserId sub a))) (Ok a')])).
Proof.
  assert (Hnone : forall o, str_truthy o = false -> o <> Some sub).
  { intros o Ho ->. by destruct sub. }
  destruct authorization as [[|c authz]|]; [by apply exec_inv in He as [_ He]| |by apply exec_inv in He as [_ He]].
  exists (String c authz). split; [done|]. cbn [validatetoken] in He.
  destruct (is_kratos_token _) eqn:Hk.
  { apply exec_inv in He as ([s|e|e] & tr1 & -> & He); over He; [by left|].
    by destruct (is_a e KratosError). }
  right. destruct (verify _) as [| |uid]; [over He..|]. exists uid.
  apply exec_inv in He as ([a|e|e] & tr1 & -> & He); [|over He..]. exists a. split; [done|]. cbn [pbind] in He.
  destruct (str_truthy (acc_kratosUserId a)) eqn:Ht; [left; over He; by split|].
  apply exec_inv in He as ([u|e|e] & tr2 & -> & He); [|over He..]. cbn [pbind rpbind] in He.
  destruct (u_phone u) as [[|c' phone]|] eqn:Hp; [over He| |over He].
  apply exec_inv in He as ([s|e|e] & tr3 & -> & He); cbn [pbind rpbind] in He.
  - over He. by destruct (Hnone _ Ht).
  - destruct (is_a e _).
    + apply exec_inv in He as ([i|e'|e'] & tr4 & -> & He); [|over He..]. cbn [pbind rpbind] in He.
      apply exec_inv in He as ([a'|e'|e'] & tr5 & -> & He); [|over He..]. right.
      exists u, (String c' phone), e, a'. split; [done|]. apply exec_inv in He as [-> He].
      unfold str_or in He. destruct (str_truthy (Some i)) eqn:Hi; simplify_eq/=; [done|].
      by destruct (Hnone _ Ht).
    + over He. by destruct (Hnone _ Ht).
  - over He.
Qed.

(** When a verified token names an account without an identity and the identity service
    knows its phone already, the validation answers no subject. *)
Theorem subject_lost (env : forall X, scall X -> X) (authz uid : string) (a : Account) (u : User) (phone : string)
    (session : KratosSession)
    (Hkind : is_kratos_token (bearer authz) = false) (Hverify : verify (bearer authz) = ObjectPayload uid)
    (Hnew : acc_kratosUserId a = None) (Hphone : u_phone u = Some phone)
    (Haccount : env _ (SBase (Base (AccountFindById uid))) = Ok a)
    (Huser : env _ (SBase (Base (UserFindById (acc_id a)))) = Ok u)
    (Hlogin : env _ (SBase (KratosLogin phone)) = Ok session)
    (Hstrings : authz <> "" /\ phone <> "") :
  snd (run env (validatetoken verify (Some authz))) = Ok (Subject None).
Proof.
  destruct Hstrings as [H1 H2]. destruct authz as [|c authz]; [done|].
  cbn [validatetoken]. rewrite Hkind, Hverify. simpl. rewrite Haccount. simpl. rewrite Hnew. simpl.
  rewrite Huser. simpl. rewrite Hphone. destruct phone as [|c' phone]; [done|]. simpl. by rewrite Hlogin.
Qed.

End Subjects.

(** *** Witnesses *)

Module ServerExample.
Import PaymentClaims ResolversExample.

Definition allows (ctx : GqlContext) (r : rule) : bool := match r ctx with Allowed => true | _ => false end.
Definition plain_shield : Shield := fun A rules ctx k =>
  match rules with
  | None => k
  | Some rules => if forallb (allows ctx) rules then k else Ret (Throw (new JsError))
  end.
Lemma plain_shield_laws : @ShieldLaws plain_shield.
Proof.
  split; intros A; unfold shield, plain_shield.
  - done.
  - intros rules ctx k Hr. replace (forallb (allows ctx) rules) with true; [done|]. symmetry.
    apply forallb_forall. intros r Hin. unfold allows. rewrite Forall_forall in Hr.
    by rewrite Hr by by apply list_elem_of_In.
  - intros rules ctx k Hr. exists (new JsError). replace (forallb (allows ctx) rules) with false; [done|].
    symmetry. induction Hr as [r rules Hr|r rules Hr IH]; simpl.
    + unfold allows at 1. by destruct (r ctx).
    + by rewrite IH, andb_false_r.
Qed.

Definition server_env (X : Type) (c : acall X) : X :=
  match c in acall X return X with
  | AccountFindByKratosUserId _ => Ok sample_acc
  | c => api_env _ c
  end.
Definition sample_request :=
  run server_env (@serve_payment plain_shield LoginSpec.sample_login "5460" sample_settings SendSpec.sample_cfg
    (Some sample_uuid) None dollar_transfer).

Lemma request_authorised_witness :
  snd sample_request = Ok (mkPayload [] (Some Success)) /\
  exists userId acc id, Some sample_uuid = Some userId /\ (userId, acc) ∈ fst sample_request ≫= account_found /\
    mutation_wallet dollar_transfer = Valid id.
Proof.
  split; [vm_compute; reflexivity|].
  destruct (@request_authorised plain_shield plain_shield_laws LoginSpec.sample_login "5460" sample_settings
    SendSpec.sample_cfg (Some sample_uuid) None dollar_transfer _ _ (run_exec server_env _))
    as (userId & acc & id & H1 & H2 & H3 & _).
  - vm_compute. discriminate.
  - exists userId, acc, id. split; [exact H1|]. split; [exact H2|exact H3].
Defined.

Lemma admin_needs_editor_witness :
  exists e, @shield plain_shield _ (adminMutationRules "accountUpdateStatus") (mkContext None None None)
    (Ret (Ok tt)) = Ret (Throw e).
Proof.
  destruct (@admin_needs_editor plain_shield plain_shield_laws (mkContext None None None) unit (Ret (Ok tt))) as [_ H].
  apply (proj2 (H eq_refl) "accountUpdateStatus"). right. right. right. right. right. left.
Defined.

Definition sample_verify (token : string) : Tokens.verified := Tokens.ObjectPayload "acc1".
Definition token_env (X : Type) (c : Tokens.scall X) : X :=
  match c in Tokens.scall X return X with
  | Tokens.SBase c =>
      match c in acall X return X with
      | Base c =>
          match c in call X return X with
          | AccountFindById _ => Ok (set_kratosUserId "kratos1" sample_acc)
          | c => sample_env _ c
          end
      | c => api_env _ c
      end
  | Tokens.ValidateKratosToken _ => Ok "kratos1"
  | Tokens.KratosCreateIdentityNoSession _ => Ok "kratos2"
  | Tokens.TokenCacheGet _ => Er (new UnknownRepositoryError)
  | Tokens.TokenCacheSet _ _ _ => Ok tt
  | Tokens.BrowserSession _ => Rejected ""
  end.

Lemma token_subject_witness :
  exists authz, Some "Bearer legacy" = Some authz /\ sample_verify (Tokens.bearer authz) = Tokens.ObjectPayload "acc1".
Proof.
  destruct (token_subject sample_verify (Some "Bearer legacy") _ "kratos1"
    (run_exec token_env (Tokens.validatetoken sample_verify (Some "Bearer legacy")))) as (authz & H & _).
  - discriminate.
  - exists authz. split; [exact H|reflexivity].
Defined.

End ServerExample.
End ServerSpec.
