(* ===== verification/Jobs.v ===== *)
(** * Scheduled jobs

    [lib/servers/cron.js], the extension of sessions ([lib/app/auth/index.js] with the list of
    identities of [lib/services/kratos/identity.js]), the health route
    ([lib/servers/middlewares/healthz.js]) and the export of the transactions of an account
    ([lib/app/accounts/get-csv-for-account.js], [lib/services/ledger/csv-wallet-export.js]).

    A run of the cron calls every task, whatever became of those before, and its exit code tells
    whether all of them succeeded.  The identities are read page by page, and every session that
    may be extended is, unless an extension is refused, which ends the run. *)

From Stdlib Require Import Ascii.
From stdpp Require Import gmap strings pretty.
From S2P Require Import Prelude JsNum Errors ErrorMap Money Regex PaymentFlow Validation Accounts TxMetadata Facade LedgerService LedgerWrites RateLimit Programs Effects Persistence AccountRepo Workers Payments AccountHandlers Login Scalars Server.
#[local] Open Scope string_scope.
#[local] Open Scope Z_scope.
#[local] Open Scope list_scope.

Import Kratos.

(** ** The list of identities: [services/kratos/identity.js] *)

(** The text before the first occurrence of [sep], and the text after it. *)
Fixpoint cut (sep s : string) : option (string * string) :=
  if String.prefix sep s
  then Some ("", String.substring (String.length sep) (String.length s - String.length sep) s)
  else match s with
       | "" => None
       | String c s' => match cut sep s' with
                        | Some (a, b) => Some (String c a, b)
                        | None => None
                        end
       end.

(** [s.split(sep)[1]], for a separator that is not empty. *)
Definition second_piece (sep s : string) : option string :=
  match cut sep s with
  | None => None
  | Some (_, rest) => Some (match cut sep rest with Some (piece, _) => piece | None => rest end)
  end.

Definition includes (part s : string) : bool := bool_decide (is_Some (cut part s)).

(** [s.replace(/\D+/g, "")] *)
Fixpoint only_digits (s : string) : string :=
  match s with
  | "" => ""
  | String c s' => if is_digit c then String c (only_digits s') else only_digits s'
  end.

(** [+s] of a string of digits; the empty string is zero. *)
Definition digits_number (s : string) : number := Number (default 0 (parse_digits s None)).

Definition quotation_mark : string := String (ascii_of_nat 34) "".
Definition rel_next : string := "rel=" +:+ quotation_mark +:+ "next" +:+ quotation_mark.

(** A link without a page raises. *)
Definition getNextPage (link : string) : result (option number) :=
  match List.find (includes rel_next) (split_on ","%char link) with
  | None => Ok None
  | Some next =>
      match second_piece "page=" next with
      | None => Throw (new JsError)
      | Some piece => Ok (Some (digits_number (only_digits piece)))
      end
  end.

(** The answer for a page: its identities, and the headers [x-total-count] and [link]. *)
Record IdentityPage : Type := mkPage {
  pg_data : list Identity;
  pg_total : number;
  pg_link : option string
}.

Inductive icall : Type -> Type :=
| IKratos {X} (c : kcall X) : icall X
| AdminListIdentities (perPage page : number) : icall (db IdentityPage).
Abbreviation iprog := (program icall).

Definition kratos {A} (p : kprog A) : iprog A := interp (fun X c => do_call (IKratos c)) p.

Definition perPage (isDev : bool) : number := num (if isDev then 3 else 50).

(** The first of the identities with the same id. *)
Fixpoint unique_from (seen : list string) (l : list Identity) : list Identity :=
  match l with
  | [] => []
  | i :: l => if existsb (String.eqb (id_id i)) seen then unique_from seen l
              else i :: unique_from (id_id i :: seen) l
  end.

Definition toDomainIdentityPhone (i : Identity) : string * string := (id_id i, id_phone i).

Section Jobs.
Context (isDev : bool).

(** The loop on the pages from [page] on: [None] when [fuel] pages are not the last ones.
    Everything that is raised is an unknown error. *)
Fixpoint list_pages (fuel : nat) (page : number) (identities : list Identity)
    : iprog (option (result (list Identity))) :=
  match fuel with
  | O => Ret None
  | S fuel =>
      let! res <- do_call (AdminListIdentities (perPage isDev) page) ;;
      match res with
      | Rejected m => Ret (Some (Er (new_msg UnknownKratosError m)))
      | Done res =>
          let identities := identities ++ pg_data res in
          match pg_link res with
          | None => Ret (Some (Er (new UnknownKratosError)))
          | Some link =>
              match getNextPage link with
              | Er e | Throw e => Ret (Some (Er (new_msg UnknownKratosError (error_message e))))
              | Ok None => Ret (Some (Ok identities))
              | Ok (Some page) =>
                  if num_eqb (pg_total res) (num 0) then Ret (Some (Ok identities))
                  else list_pages fuel page identities
              end
          end
      end
  end.

(** The count is only compared in an assertion of the console, which raises nothing. *)
Definition listIdentities (fuel : nat) : iprog (option (result (list (string * string)))) :=
  let! r <- list_pages fuel (num 0) [] ;;
  Ret match r with
      | None => None
      | Some (Ok identities) => Some (Ok (List.map toDomainIdentityPhone (unique_from [] identities)))
      | Some (Er e) => Some (Er e)
      | Some (Throw e) => Some (Throw e)
      end.

(** ** [app/auth/index.js] *)

(** The sessions of a user.  A refused extension is not returned as an error but raised. *)
Fixpoint extend_each (sessions : list KSession) : iprog (result unit) :=
  match sessions with
  | [] => Ret (Ok tt)
  | session :: sessions =>
      let! res <- kratos (extendSession session) ;;
      match res with
      | Throw e => Ret (Throw e)
      | Ok _ | Er _ => extend_each sessions
      end
  end.

(** A user whose sessions cannot be listed is passed over. *)
Fixpoint extend_users (users : list (string * string)) : iprog (result unit) :=
  match users with
  | [] => Ret (Ok tt)
  | user :: users =>
      let! sessions <- kratos (listSessionsInternal (fst user)) ;;
      match sessions with
      | Er _ => extend_users users
      | Throw e => Ret (Throw e)
      | Ok sessions =>
          await _ <- extend_each sessions ;;
          extend_users users
      end
  end.

Definition extendSessions (fuel : nat) : iprog (option (result unit)) :=
  let! users <- listIdentities fuel ;;
  match users with
  | None => Ret None
  | Some (Er e) | Some (Throw e) => Ret (Some (Throw e))
  | Some (Ok users) => let! r <- extend_users users ;; Ret (Some r)
  end.

End Jobs.

(** ** [servers/cron.js] *)

(** What the tasks call; the timestamp is in milliseconds. *)
Inductive operation : Type :=
| ReconnectNodes
| RebalancingInternalChannels
| UpdateEscrows
| HandleHeldInvoices
| UpdatePendingPayments
| UpdateLnPayments
| UpdateRoutingRevenues
| UpdateOnChainReceipt
| RebalanceToColdWallet
| SwapOut
| DeleteExpiredLightningPaymentFlows
| DeleteExpiredWalletInvoice
| DeleteLnPaymentsBefore (timestamp : Z)
| DeleteFailedPaymentsAttemptAllLnds
| ExtendSessions.

(** The value an operation gives is not used, only whether it is an error. *)
Inductive jcall : Type -> Type :=
| Perform (o : operation) : jcall (result unit).
Abbreviation jprog := (program jcall).

(** What an operation returns is not looked at. *)
Definition performed_only (o : operation) : jprog (result unit) :=
  let! r <- do_call (Perform o) ;;
  Ret match r with Throw e => Throw e | _ => Ok tt end.

(** [if (result instanceof Error) throw result] *)
Definition or_throw (o : operation) : jprog (result unit) :=
  let! r <- do_call (Perform o) ;;
  Ret match r with Ok _ => Ok tt | Er e | Throw e => Throw e end.

Definition rebalance := or_throw RebalanceToColdWallet.
Definition updatePendingLightningInvoices := performed_only HandleHeldInvoices.
Definition updatePendingLightningPayments := performed_only UpdatePendingPayments.
Definition cron_updateOnChainReceipt := or_throw UpdateOnChainReceipt.
Definition deleteExpiredInvoices := performed_only DeleteExpiredWalletInvoice.
Definition deleteExpiredPaymentFlows := performed_only DeleteExpiredLightningPaymentFlows.
Definition updateLnPaymentsCollection := or_throw UpdateLnPayments.
Definition TWO_MONTHS_IN_MS : Z := 60 * 24 * 60 * 60 * 1000.
Definition deleteLndPaymentsBefore2Months (now : Z) := or_throw (DeleteLnPaymentsBefore (now - TWO_MONTHS_IN_MS)).
Definition swapOutJob := or_throw SwapOut.

Record CronConfig : Type := mkCronConfig {
  cron_signet : bool;
  cron_rebalanceEnabled : bool;
  cron_swapEnabled : bool
}.

Definition tasks (cfg : CronConfig) (now : Z) : list (jprog (result unit)) :=
  [performed_only ReconnectNodes]
  ++ (if cron_signet cfg then [] else [performed_only RebalancingInternalChannels])
  ++ [performed_only UpdateEscrows;
      updatePendingLightningInvoices;
      updatePendingLightningPayments;
      updateLnPaymentsCollection;
      performed_only UpdateRoutingRevenues;
      cron_updateOnChainReceipt]
  ++ (if cron_rebalanceEnabled cfg then [rebalance] else [])
  ++ (if cron_swapEnabled cfg then [swapOutJob] else [])
  ++ [deleteExpiredPaymentFlows;
      deleteExpiredInvoices;
      deleteLndPaymentsBefore2Months now;
      performed_only DeleteFailedPaymentsAttemptAllLnds;
      performed_only ExtendSessions].

Fixpoint run_tasks (l : list (jprog (result unit))) (results : list bool) : jprog (list bool) :=
  match l with
  | [] => Ret results
  | task :: l =>
      let! r <- task ;;
      run_tasks l (results ++ [match r with Throw _ => false | _ => true end])
  end.

(** The exit code; the connection to the database is opened before and closed after. *)
Definition cron_main (cfg : CronConfig) (now : Z) : jprog Z :=
  let! results <- run_tasks (tasks cfg now) [] ;;
  Ret (if forallb id results then 0 else 99).

(** ** [servers/middlewares/healthz.js] *)

(** The events of the health check of the nodes. *)
Record StatusEvent : Type := mkStatusEvent { se_pubkey : string; se_active : bool }.

(** [lndStatus[pubkey] = active] *)
Definition on_status (lndStatus : gmap string bool) (ev : StatusEvent) : gmap string bool :=
  <[se_pubkey ev := se_active ev]> lndStatus.

Definition isRedisAvailable (ping : db string) : bool :=
  match ping with Done answer => String.eqb answer "PONG" | Rejected _ => false end.

(** The status of the answer, after the events that came since the start. *)
Definition healthz (checkDbConnectionStatus checkRedisStatus checkLndsStatus : bool)
    (events : list StatusEvent) (readyState : Z) (ping : db string) : Z :=
  let lndStatus := if checkLndsStatus then foldl on_status ∅ events else ∅ in
  let isMongoAlive := negb checkDbConnectionStatus || (readyState =? 1) in
  let isRedisAlive := negb checkRedisStatus || isRedisAvailable ping in
  let statuses := (map_to_list lndStatus).*2 in
  let areLndsAlive := negb checkLndsStatus || (Nat.ltb 0 (length statuses) && existsb id statuses) in
  if isMongoAlive && isRedisAlive && areLndsAlive then 200 else 503.

(** ** The export of an account *)

Inductive xcall : Type -> Type :=
| XBase {X} (c : call X) : xcall X
| LedgerTransactionsByWalletId (walletId : string) : xcall (result (list LedgerTx)).
Abbreviation xprog := (program xcall).

Definition headers_field : list string :=
  ["id"; "walletId"; "type"; "credit"; "debit"; "fee"; "currency"; "timestamp"; "pendingConfirmation";
   "journalId"; "lnMemo"; "usd"; "feeUsd"; "recipientWalletId"; "username"; "memoFromPayer"; "paymentHash";
   "pubkey"; "feeKnownInAdvance"; "address"; "txHash"].

(** [Buffer.from(s, "utf8").toString("base64")] of the bytes of a string. *)
Definition base64_char (n : N) : ascii :=
  ascii_of_N (if n <? 26 then 65 + n else if n <? 52 then 71 + n else if n <? 62 then n - 4
              else if n =? 62 then 43 else 47)%N.
Fixpoint base64 (s : string) : string :=
  match s with
  | "" => ""
  | String a "" =>
      let n := (N_of_ascii a * 65536)%N in
      String (base64_char (n / 262144)) (String (base64_char (n / 4096 mod 64)) "==")
  | String a (String b "") =>
      let n := (N_of_ascii a * 65536 + N_of_ascii b * 256)%N in
      String (base64_char (n / 262144)) (String (base64_char (n / 4096 mod 64))
        (String (base64_char (n / 64 mod 64)) "="))
  | String a (String b (String c s)) =>
      let n := (N_of_ascii a * 65536 + N_of_ascii b * 256 + N_of_ascii c)%N in
      String (base64_char (n / 262144)) (String (base64_char (n / 4096 mod 64))
        (String (base64_char (n / 64 mod 64)) (String (base64_char (n mod 64)) (base64 s))))
  end.

Section CsvExport.
(** The stringifier of the csv-writer package: the line of the headers and those of the records. *)
Context (getHeaderString : list string -> string).
Context (stringifyRecords : list string -> list LedgerTx -> string).

Definition getBase64 (entries : list LedgerTx) : string :=
  base64 (getHeaderString headers_field +:+ stringifyRecords headers_field entries).

Definition CsvWalletsExport_addWallet (entries : list LedgerTx) (walletId : string) : xprog (result unit * list LedgerTx) :=
  let! txs <- do_call (LedgerTransactionsByWalletId walletId) ;;
  Ret match txs with
      | Ok txs => (Ok tt, entries ++ txs)
      | Er e => (Er e, entries)
      | Throw e => (Throw e, entries)
      end.

(** The error that [addWallet] returns is not looked at. *)
Fixpoint add_wallets (wallets : list Wallet) (entries : list LedgerTx) : xprog (result (list LedgerTx)) :=
  match wallets with
  | [] => Ret (Ok entries)
  | wallet :: wallets =>
      let! r <- CsvWalletsExport_addWallet entries (w_id wallet) ;;
      match fst r with
      | Throw e => Ret (Throw e)
      | Ok _ | Er _ => add_wallets wallets (snd r)
      end
  end.

Definition getCSVForAccount (accountId : string) : xprog (result string) :=
  await wallets <- do_call (XBase (WalletListByAccountId accountId)) ;;
  await entries <- add_wallets wallets [] ;;
  Ret (Ok (getBase64 entries)).

End CsvExport.

(** ** Properties *)

Module JobsSpec.

(** *** The pages of identities *)

(** A link to the next page as the service writes it. *)
Definition next_link (path : string) (page size : Z) : string :=
  "<" +:+ path +:+ "?page=" +:+ pretty page +:+ "&per_page=" +:+ pretty size +:+ ">; " +:+ rel_next.

Example next_page_read : getNextPage (next_link "/identities" 12 50) = Ok (Some (num 12)).
Proof. vm_compute. reflexivity. Qed.
Example last_page_read : getNextPage ("</identities?page=0&per_page=50>; rel=first") = Ok None.
Proof. vm_compute. reflexivity. Qed.
Example base64_man : base64 "Many" = "TWFueQ==".
Proof. vm_compute. reflexivity. Qed.

(** The service has these pages, and says on each but the last which is the next. *)
Definition serves (isDev : bool) (env : forall X, icall X -> X) (pages : list (list Identity)) : Prop :=
  forall n l, pages !! n = Some l -> exists total link,
    env _ (AdminListIdentities (perPage isDev) (num (Z.of_nat n))) = Done (mkPage l total (Some link)) /\
    num_eqb total (num 0) = false /\
    getNextPage link = Ok (if decide (S n < length pages)%nat then Some (num (Z.of_nat (S n))) else None).

Lemma unique_spec seen l :
  NoDup (id_id <$> unique_from seen l) /\ unique_from seen l ⊆ l /\
  (forall x, x ∈ id_id <$> unique_from seen l <-> x ∈ id_id <$> l /\ x ∉ seen).
Proof.
  revert seen. induction l as [|i l IH]; intros seen; simpl.
  { split_and!; [constructor|done|]. intros x. rewrite !elem_of_nil. tauto. }
  destruct (existsb (String.eqb (id_id i)) seen) eqn:Hs.
  - assert (Hin : id_id i ∈ seen).
    { apply existsb_exists in Hs as (y & Hy & He). apply String.eqb_eq in He as ->. by apply list_elem_of_In. }
    destruct (IH seen) as (H1 & H2 & H3). split_and!; [done|intros x Hx; right; by apply H2|].
    intros x. rewrite H3, elem_of_cons. split; [tauto|]. intros [[->|Hx] Hn]; [done|tauto].
  - assert (Hout : id_id i ∉ seen).
    { intros Hin. apply list_elem_of_In in Hin. apply not_true_iff_false in Hs. apply Hs, existsb_exists.
      exists (id_id i). by rewrite String.eqb_refl. }
    destruct (IH (id_id i :: seen)) as (H1 & H2 & H3). rewrite !fmap_cons. split_and!.
    + constructor; [|done]. rewrite H3. intros [_ Hn]. apply Hn. left.
    + intros x Hx. apply elem_of_cons in Hx as [->|Hx]; [left|right; by apply H2].
    + intros x. rewrite !elem_of_cons, H3, not_elem_of_cons.
      destruct (decide (x = id_id i)) as [->|Hx]; tauto.
Qed.

Lemma pages_listed isDev env pages (Hs : serves isDev env pages) : forall rest fuel n acc,
  drop n pages = rest -> rest <> [] -> (length rest <= fuel)%nat ->
  snd (run env (list_pages isDev fuel (num (Z.of_nat n)) acc)) = Some (Ok (acc ++ concat rest)).
Proof.
  induction rest as [|l rest IH]; intros fuel n acc Hd Hn Hf; [done|].
  destruct fuel as [|fuel]; [simpl in Hf; lia|].
  assert (Hl : pages !! n = Some l) by (by rewrite <- (Nat.add_0_r n), <- lookup_drop, Hd).
  assert (Hrest : drop (S n) pages = rest).
  { rewrite <- Nat.add_1_r, <- drop_drop, Hd. done. }
  destruct (Hs _ _ Hl) as (total & link & Henv & Ht & Hnext).
  cbn [list_pages]. rewrite run_bind. cbn [run do_call fst snd]. rewrite Henv. cbn [pg_link pg_total pg_data].
  rewrite Hnext. assert (Hlen : length pages = (n + S (length rest))%nat).
  { apply (f_equal length) in Hd. rewrite length_drop in Hd. apply lookup_lt_Some in Hl. simpl in Hd. lia. }
  destruct rest as [|l' rest].
  - rewrite decide_False by (simpl in Hlen; lia). simpl. by rewrite app_nil_r.
  - rewrite decide_True by (simpl in Hlen; lia). rewrite Ht. simpl in Hf.
    rewrite (IH fuel (S n)); [|done|done|simpl; lia]. by rewrite <- app_assoc.
Qed.

(** When the identity service has some pages of identities and says on each which is the next,
    the list of identities is read completely, in as many requests as there are pages: it holds
    the identities of the pages, each once, also when a page is answered twice. *)
Theorem identities_listed (isDev : bool) (env : forall X, icall X -> X) (pages : list (list Identity)) (fuel : nat)
    (Hs : serves isDev env pages) (Hn : pages <> []) (Hf : (length pages <= fuel)%nat) :
  exists l, snd (run env (listIdentities isDev fuel)) = Some (Ok l) /\ NoDup l.*1 /\
    (forall x, x ∈ l -> exists i, i ∈ concat pages /\ x = toDomainIdentityPhone i) /\
    forall i, i ∈ concat pages -> id_id i ∈ l.*1.
Proof.
  unfold listIdentities. rewrite run_bind. cbn [snd].
  pose proof (pages_listed isDev env pages Hs pages fuel O [] eq_refl Hn Hf) as Hl.
  change (num (Z.of_nat 0)) with (num 0) in Hl. rewrite Hl. simpl.
  destruct (unique_spec [] (concat pages)) as (H1 & H2 & H3).
  assert (Hids : forall l, (List.map toDomainIdentityPhone l).*1 = id_id <$> l).
  { intros l. induction l as [|i l IH]; [done|]. cbn [List.map]. by rewrite !fmap_cons, IH. }
  eexists. split; [reflexivity|]. rewrite Hids. split_and!; [done| |].
  - intros x Hx. apply list_elem_of_In, in_map_iff in Hx as (i & <- & Hi). exists i. split; [|done].
    apply H2. by apply list_elem_of_In.
  - intros i Hi. apply H3. split; [by apply list_elem_of_fmap_2|apply not_elem_of_nil].
Qed.

(** A service of two pages that answers the first also for the second. *)
Definition ann : Identity := mkIdentity "a" "+1" "phone_no_password_v0".
Definition bob : Identity := mkIdentity "b" "+2" "email_password".
Definition ann_session : KSession := mkKSession "s1" (Some "t") ann.
Definition bob_session : KSession := mkKSession "s2" (Some "t") bob.
Definition sample_pages : list (list Identity) := [[ann]; [ann]; [bob]].

Definition kratos_answers (extended : string -> db unit) X (c : kcall X) : X :=
  match c with
  | AdminListIdentitySessions userId =>
      Done (if String.eqb userId "a" then Some [ann_session; bob_session; ann_session] else None)
  | AdminExtendSession id => extended id
  | InitLoginFlow | SubmitLoginFlow _ _ _ | InitRegistrationFlow | SubmitRegistrationFlow _ _ _
  | AdminCreateIdentity _ _ | AdminGetIdentity _ | AdminUpdateIdentity _ _ _ | ToSession _ => Rejected ""
  end.
Definition identity_env (extended : string -> db unit) X (c : icall X) : X :=
  match c with
  | IKratos c => kratos_answers extended _ c
  | AdminListIdentities _ page =>
      Done (if num_eqb page (num 0) then mkPage [ann] (num 2) (Some (next_link "/i" 1 50))
            else if num_eqb page (num 1) then mkPage [ann] (num 2) (Some (next_link "/i" 2 50))
            else mkPage [bob] (num 2) (Some "</i?page=0>; rel=first"))
  end.

Definition granted (id : string) : db unit := Done tt.

Lemma identities_listed_witness :
  serves false (identity_env granted) sample_pages /\
  exists l, snd (run (identity_env granted) (listIdentities false 3)) = Some (Ok l) /\ "b" ∈ l.*1.
Proof.
  assert (Hs : serves false (identity_env granted) sample_pages).
  { intros [|[|[|n]]] l [= <-]; eexists _, _; (split; [reflexivity|]); split; vm_compute; reflexivity. }
  split; [exact Hs|].
  destruct (identities_listed false (identity_env granted) sample_pages 3 Hs ltac:(discriminate) ltac:(simpl; lia))
    as (l & H1 & _ & _ & H4).
  exists l. split; [exact H1|]. apply (H4 bob). simpl. do 2 right. left.
Defined.

(** *** The extension of sessions *)

(** The sessions that were extended, those that were listed, and the users whose sessions
    were asked for. *)
Definition extends (ev : happening icall) : list string :=
  match ev with Ev (IKratos (AdminExtendSession id)) _ => [id] | _ => [] end.
Definition extension_refused (ev : happening icall) : bool :=
  match ev with
  | Ev (IKratos c) x =>
      match c in kcall X return X -> bool with
      | AdminExtendSession _ => fun x => match x with Rejected _ => true | Done _ => false end
      | _ => fun _ => false
      end x
  | _ => false
  end.
Definition sessions_of (ev : happening icall) : list (string * list KSession) :=
  match ev with
  | Ev (IKratos c) x =>
      match c in kcall X return X -> list (string * list KSession) with
      | AdminListIdentitySessions userId => fun x =>
          match x with Done (Some l) => [(userId, l)] | Done None => [(userId, [])] | Rejected _ => [] end
      | _ => fun _ => []
      end x
  | _ => []
  end.
Definition asked_for (ev : happening icall) : list string :=
  match ev with Ev (IKratos (AdminListIdentitySessions userId)) _ => [userId] | _ => [] end.

Definition to_extend (s : KSession) : bool :=
  existsb (String.eqb (id_schema_id (kse_identity s))) schemaIdsToExtend.

(** The run ended with an extension that was refused. *)
Definition stopped {A} (tr : list (happening icall)) (r : result A) : Prop :=
  exists tr' ev e, tr = tr' ++ [ev] /\ extension_refused ev = true /\ r = Throw e.

Lemma stopped_app {A} tr1 tr2 (r : result A) : stopped tr2 r -> stopped (tr1 ++ tr2) r.
Proof. intros (tr & ev & e & -> & H1 & H2). exists (tr1 ++ tr), ev, e. by rewrite app_assoc. Qed.

(** The sessions of one user. *)
Lemma each_extended sessions tr r : exec (extend_each sessions) tr r ->
  stopped tr r \/
  (r = Ok tt /\ tr ≫= asked_for = [] /\ tr ≫= sessions_of = [] /\
   tr ≫= extends = kse_id <$> List.filter to_extend sessions).
Proof.
  revert tr. induction sessions as [|s sessions IH]; intros tr He.
  { apply exec_inv in He as [-> ->]. by right. }
  cbn [extend_each List.filter] in *. unfold extendSession in He. fold (to_extend s) in He.
  destruct (to_extend s); cbn [negb] in He; [|by apply IH].
  apply exec_inv in He as ([u|m] & tr1 & -> & He); simpl in He.
  - destruct (IH _ He) as [Hs|(-> & H1 & H2 & H3)]; [left; by apply (stopped_app [_])|right].
    rewrite !bind_cons, H1, H2, H3. done.
  - apply exec_inv in He as [-> ->]. left. by eexists [], _, _.
Qed.

Lemma users_extended users tr r : exec (extend_users users) tr r ->
  stopped tr r \/
  (r = Ok tt /\ tr ≫= asked_for = users.*1 /\
   tr ≫= extends = (tr ≫= sessions_of) ≫= (fun p => kse_id <$> List.filter to_extend (snd p))).
Proof.
  revert tr. induction users as [|u users IH]; intros tr He.
  { apply exec_inv in He as [-> ->]. by right. }
  apply exec_inv in He as (x & tr1 & -> & He). simpl in He.
  assert (Hgo : forall l tr1, x = Done l ->
    exec (await _ <- extend_each (default [] l) ;; extend_users users) tr1 r ->
    stopped (Ev (IKratos (AdminListIdentitySessions (fst u))) x :: tr1) r \/
    (r = Ok tt /\ (Ev (IKratos (AdminListIdentitySessions (fst u))) x :: tr1) ≫= asked_for = (u :: users).*1 /\
     (Ev (IKratos (AdminListIdentitySessions (fst u))) x :: tr1) ≫= extends =
       ((Ev (IKratos (AdminListIdentitySessions (fst u))) x :: tr1) ≫= sessions_of)
         ≫= (fun p => kse_id <$> List.filter to_extend (snd p)))).
  { clear He tr1. intros l tr1 -> He. apply exec_bind_inv in He as (tr2 & r1 & tr3 & -> & H1 & H2).
    apply each_extended in H1 as [Hs|(-> & H3 & H4 & H5)].
    - left. destruct Hs as (tr' & ev & e & -> & Hev & ->). apply exec_inv in H2 as [-> ->].
      rewrite app_nil_r. by exists (Ev (IKratos (AdminListIdentitySessions u.1)) (Done l) :: tr'), ev, e.
    - destruct (IH _ H2) as [Hs|(-> & H6 & H7)]; [left; by apply (stopped_app (_ :: _))|right].
      rewrite !bind_cons, !bind_app, H3, H4, H5, H6, H7. split_and!; [done..|].
      destruct l; simpl; [by rewrite app_nil_r|done]. }
  destruct x as [[l|]|m]; [by apply (Hgo (Some l))|by apply (Hgo None)|].
  destruct (IH _ He) as [Hs|(-> & H6 & H7)]; [left; by apply (stopped_app [_])|right].
  by rewrite !bind_cons, H6, H7.
Qed.

(** A run of the extension of sessions that lists the identities asks for the sessions of every
    identity, and among those it gets it extends exactly the sessions of the schemas that are
    extended, in order; an identity whose sessions cannot be listed stops nothing.  Or else an
    extension was refused, which raises and was the last thing that happened. *)
Theorem sessions_extended (isDev : bool) (fuel : nat) (tr : list (happening icall)) (r : result unit)
    (He : exec (extendSessions isDev fuel) tr (Some r)) :
  exists tr1 tr2 listed, tr = tr1 ++ tr2 /\ exec (listIdentities isDev fuel) tr1 (Some listed) /\
  match listed with
  | Ok users =>
      stopped tr2 r \/
      (r = Ok tt /\ tr2 ≫= asked_for = users.*1 /\
       tr2 ≫= extends = (tr2 ≫= sessions_of) ≫= (fun p => kse_id <$> List.filter to_extend (snd p)))
  | Er e | Throw e => tr2 = [] /\ r = Throw e
  end.
Proof.
  apply exec_bind_inv in He as (tr1 & l & tr2 & -> & H1 & H2).
  destruct l as [[users|e|e]|]; [| | |by apply exec_inv in H2 as [_ H2]];
    exists tr1, tr2; [exists (Ok users)|exists (Er e)|exists (Throw e)]; (split; [done|]; split; [done|]).
  - apply exec_bind_inv in H2 as (tr3 & r' & tr4 & -> & H2 & H3). apply exec_inv in H3 as [-> [= ->]].
    rewrite app_nil_r. by apply users_extended.
  - by apply exec_inv in H2 as [-> [= ->]].
  - by apply exec_inv in H2 as [-> [= ->]].
Qed.

Definition refused_always (id : string) : db unit := Rejected "refused".
Definition extension_run (extended : string -> db unit) := run (identity_env extended) (extendSessions false 3).

(** The sessions of [ann] after the one that is refused are not extended, those of [bob] not
    listed. *)
Lemma sessions_extended_witness :
  fst (extension_run granted) ≫= extends = ["s1"; "s1"] /\
  fst (extension_run refused_always) ≫= extends = ["s1"] /\
  exists tr1 tr2 users, fst (extension_run granted) = tr1 ++ tr2 /\
    exec (listIdentities false 3) tr1 (Some (Ok users)) /\ tr2 ≫= asked_for = users.*1.
Proof.
  split; [vm_compute; reflexivity|]. split; [vm_compute; reflexivity|].
  destruct (sessions_extended false 3 (fst (extension_run granted)) (Ok tt)
    (run_exec (identity_env granted) (extendSessions false 3))) as (tr1 & tr2 & [users|e|e] & H1 & H2 & H3);
    [|by destruct H3 as [_ H3]..].
  exists tr1, tr2, users. destruct H3 as [(tr' & ev & e & _ & _ & H3)|(_ & H3 & _)]; [done|].
  split; [exact H1|]. split; [exact H2|exact H3].
Defined.

(** *** The cron *)

(** What is to be done in a run, and the operations whose returned errors are reported. *)
Definition scheduled (cfg : CronConfig) (now : Z) : list operation :=
  [ReconnectNodes] ++ (if cron_signet cfg then [] else [RebalancingInternalChannels])
  ++ [UpdateEscrows; HandleHeldInvoices; UpdatePendingPayments; UpdateLnPayments; UpdateRoutingRevenues;
      UpdateOnChainReceipt]
  ++ (if cron_rebalanceEnabled cfg then [RebalanceToColdWallet] else [])
  ++ (if cron_swapEnabled cfg then [SwapOut] else [])
  ++ [DeleteExpiredLightningPaymentFlows; DeleteExpiredWalletInvoice;
      DeleteLnPaymentsBefore (now - TWO_MONTHS_IN_MS); DeleteFailedPaymentsAttemptAllLnds; ExtendSessions].

Definition reported (o : operation) : bool :=
  match o with
  | UpdateLnPayments | UpdateOnChainReceipt | RebalanceToColdWallet | SwapOut | DeleteLnPaymentsBefore _ => true
  | _ => false
  end.

Definition done_op (ev : happening jcall) : operation :=
  match ev with Ev (Perform o) _ => o end.
Definition op_failed (ev : happening jcall) : bool :=
  match ev with
  | Ev c x => match c in jcall X return X -> bool with
              | Perform o => fun x => match x with Ok _ => false | Er _ => reported o | Throw _ => true end
              end x
  end.

(** A task performs one operation and raises when that failed. *)
Definition performs (task : jprog (result unit)) (o : operation) : Prop :=
  forall tr r, exec task tr r -> exists ev, tr = [ev] /\ done_op ev = o /\
    (match r with Throw _ => false | _ => true end) = negb (op_failed ev).

Lemma performed_only_performs o : reported o = false -> performs (performed_only o) o.
Proof.
  intros Ho tr r He. apply exec_inv in He as (x & tr1 & -> & He). apply exec_inv in He as [-> ->].
  eexists. split_and!; [done..|]. simpl. rewrite Ho. by destruct x.
Qed.
Lemma or_throw_performs o : reported o = true -> performs (or_throw o) o.
Proof.
  intros Ho tr r He. apply exec_inv in He as (x & tr1 & -> & He). apply exec_inv in He as [-> ->].
  eexists. split_and!; [done..|]. simpl. rewrite Ho. by destruct x.
Qed.

Lemma tasks_scheduled cfg now : Forall2 performs (tasks cfg now) (scheduled cfg now).
Proof.
  unfold tasks, scheduled. destruct cfg as [[] [] []]; simpl;
    repeat (constructor; [first [by apply performed_only_performs|by apply or_throw_performs]|]); constructor.
Qed.

Lemma run_tasks_all l ops results tr out : Forall2 performs l ops -> exec (run_tasks l results) tr out ->
  done_op <$> tr = ops /\ out = results ++ (negb ∘ op_failed <$> tr).
Proof.
  intros Hl. revert results tr. induction Hl as [|task o l ops Ht _ IH]; intros results tr He.
  { apply exec_inv in He as [-> ->]. by rewrite app_nil_r. }
  apply exec_bind_inv in He as (tr1 & r & tr2 & -> & H1 & H2).
  destruct (Ht _ _ H1) as (ev & -> & <- & Hr). rewrite Hr in H2.
  destruct (IH _ _ H2) as [<- ->]. split; [done|]. by rewrite <- app_assoc.
Qed.

(** Every run of the cron performs all the operations of its configuration, in order and each
    once, whatever the ones before answered; it exits with 0 if no operation raised and no
    operation of those that report their errors returned one, and with 99 otherwise. *)
Theorem cron_runs_all (cfg : CronConfig) (now : Z) (tr : list (happening jcall)) (code : Z)
    (He : exec (cron_main cfg now) tr code) :
  done_op <$> tr = scheduled cfg now /\ code = if existsb op_failed tr then 99 else 0.
Proof.
  apply exec_bind_inv in He as (tr1 & out & tr2 & -> & H1 & H2). apply exec_inv in H2 as [-> ->].
  destruct (run_tasks_all _ _ _ _ _ (tasks_scheduled cfg now) H1) as [<- ->]. rewrite app_nil_r.
  split; [done|]. simpl. clear H1. induction tr1 as [|ev tr1 IH]; [done|]. simpl.
  by destruct (op_failed ev).
Qed.

Definition swap_fails X (c : jcall X) : X :=
  match c with Perform SwapOut => Er (new JsError) | Perform _ => Ok tt end.

Lemma cron_runs_all_witness :
  snd (run swap_fails (cron_main (mkCronConfig true false true) 0)) = 99 /\
  done_op <$> fst (run swap_fails (cron_main (mkCronConfig true false true) 0)) =
    scheduled (mkCronConfig true false true) 0.
Proof.
  split; [vm_compute; reflexivity|].
  exact (proj1 (cron_runs_all (mkCronConfig true false true) 0 _ _
    (run_exec swap_fails (cron_main (mkCronConfig true false true) 0)))).
Defined.

(** *** The health route *)

(** What the last event of a node said. *)
Fixpoint last_status (pubkey : string) (events : list StatusEvent) : option bool :=
  match events with
  | [] => None
  | ev :: events =>
      match last_status pubkey events with
      | Some b => Some b
      | None => if String.eqb (se_pubkey ev) pubkey then Some (se_active ev) else None
      end
  end.

Lemma status_lookup events m pubkey :
  foldl on_status m events !! pubkey = match last_status pubkey events with Some b => Some b | None => m !! pubkey end.
Proof.
  revert m. induction events as [|ev events IH]; intros m; [done|]. simpl. rewrite IH.
  destruct (last_status pubkey events); [done|]. unfold on_status.
  destruct (String.eqb_spec (se_pubkey ev) pubkey) as [<-|Hne]; [by rewrite lookup_insert_eq|by rewrite lookup_insert_ne].
Qed.

(** A server that checks everything is healthy exactly when the database is connected, redis
    answers, and some node was active in its last event. *)
Theorem healthz_exact (events : list StatusEvent) (readyState : Z) (ping : db string) :
  healthz true true true events readyState ping = 200 <->
  readyState = 1 /\ ping = Done "PONG" /\ exists pubkey, last_status pubkey events = Some true.
Proof.
  unfold healthz. simpl.
  assert (Hn : forall m : gmap string bool, Nat.ltb 0 (length (map_to_list m).*2) && existsb id (map_to_list m).*2 = true <->
    exists pubkey, m !! pubkey = Some true).
  { intros m. rewrite andb_true_iff, existsb_exists. split.
    - intros [_ ([] & Hin & Hb)]; [|done]. apply list_elem_of_In, list_elem_of_fmap in Hin as ([k b] & -> & Hin).
      exists k. by apply elem_of_map_to_list.
    - intros [k Hk]. apply elem_of_map_to_list in Hk. split.
      + destruct (map_to_list m); [by apply not_elem_of_nil in Hk|done].
      + exists true. split; [|done]. apply list_elem_of_In, (list_elem_of_fmap_2 snd _ _ Hk). }
  assert (Hp : isRedisAvailable ping = true <-> ping = Done "PONG").
  { destruct ping as [answer|m]; simpl; [|by split]. rewrite String.eqb_eq. split; [by intros ->|by intros [= ->]]. }
  assert (Hk : forall pubkey, foldl on_status ∅ events !! pubkey = last_status pubkey events).
  { intros pubkey. rewrite status_lookup. by destruct (last_status _ _). }
  setoid_rewrite <- Hk. rewrite <- Hn, <- Hp, <- (Z.eqb_eq readyState 1).
  destruct (readyState =? 1), (isRedisAvailable ping), (Nat.ltb _ _ && existsb _ _); simpl;
    clear; intuition discriminate.
Qed.

(** *** The export *)

Definition readable (ev : happening xcall) : list LedgerTx :=
  match ev with
  | Ev c x => match c in xcall X return X -> list LedgerTx with
              | LedgerTransactionsByWalletId _ => fun x => match x with Ok l => l | _ => [] end
              | XBase _ => fun _ => []
              end x
  end.
Definition read_wallet (ev : happening xcall) : list string :=
  match ev with Ev (LedgerTransactionsByWalletId id) _ => [id] | _ => [] end.

Lemma wallets_exported wallets entries tr l : exec (add_wallets wallets entries) tr (Ok l) ->
  l = entries ++ (tr ≫= readable) /\ tr ≫= read_wallet = w_id <$> wallets.
Proof.
  revert entries tr. induction wallets as [|w wallets IH]; intros entries tr He.
  { apply exec_inv in He as [-> [= ->]]. by rewrite app_nil_r. }
  apply exec_inv in He as ([txs|e|e] & tr1 & -> & He); simpl in He;
    [| |by apply exec_inv in He as [_ He]]; apply IH in He as [-> H2];
    rewrite !bind_cons, fmap_cons, <- H2; simpl; by rewrite <- ?app_assoc.
Qed.

(** An export that is given holds the transactions of the wallets of the account, read wallet
    after wallet; a wallet that cannot be read is left out without an error. *)
Theorem csv_of_account (getHeaderString : list string -> string) (stringifyRecords : list string -> list LedgerTx -> string)
    (accountId : string) (tr : list (happening xcall)) (csv : string)
    (He : exec (getCSVForAccount getHeaderString stringifyRecords accountId) tr (Ok csv)) :
  exists wallets tr', tr = Ev (XBase (WalletListByAccountId accountId)) (Ok wallets) :: tr' /\
    tr' ≫= read_wallet = w_id <$> wallets /\
    csv = getBase64 getHeaderString stringifyRecords (tr' ≫= readable).
Proof.
  apply exec_inv in He as ([wallets|e|e] & tr' & -> & He); [|by apply exec_inv in He as [_ He]..]. cbn [rpbind pbind] in He.
  exists wallets, tr'. split; [done|]. apply exec_bind_inv in He as (tr1 & [l|e|e] & tr2 & -> & H1 & H2);
    apply exec_inv in H2 as [-> H2]; [|done..]. rewrite app_nil_r.
  apply wallets_exported in H1 as [-> H1]. by simplify_eq.
Qed.

End JobsSpec.
