(* ===== verification/History.v ===== *)
(** * The history of a wallet

    [lib/domain/wallets/tx-history.js]: the transactions of the ledger as they are shown
    to users, with the incoming on-chain transactions that are not confirmed yet, and the
    queries of [lib/app/wallets] that return them ([get-transactions-for-wallet.js],
    [get-transactions-by-addresses.js], [get-transactions-by-hash.js],
    [get-transaction-by-id.js]).  The queries only read: the answers of the ledger, of
    [getOnChainTxs] and of the price service are arguments. *)

From S2P Require Import Prelude JsNum Errors Money Regex Ledger PaymentFlow Validation Accounts TxMetadata Facade LedgerService LedgerWrites Programs Effects Payments PaymentsSpec FeeProbe OnChain.
From stdpp Require Import gmap strings.
Import AmountCalculator CheckedAmounts Caching.
#[local] Open Scope string_scope.
#[local] Open Scope Z_scope.
#[local] Open Scope list_scope.

(** ** Transactions of a wallet; [null] and [undefined] are both [None] *)

Inductive TxStatus : Type := TxPending | TxSuccess | TxFailure.

Inductive InitiationVia : Type :=
| IVIntraLedger (counterPartyWalletId counterPartyUsername : option string)
| IVOnChain (address : string)
| IVLightning (paymentHash pubkey : option string).

Inductive SettlementVia : Type :=
| SVIntraLedger (counterPartyWalletId counterPartyUsername : option string)
| SVOnChain (transactionHash : option string)
| SVLightning (revealedPreImage : option string).

Record WalletTransaction : Type := mkWalletTx {
  wt_id : string;
  wt_walletId : option string;
  settlementAmount : number;
  settlementFee : number;
  settlementCurrency : metaval;
  displayCurrencyPerSettlementCurrencyUnit : number;
  wt_status : TxStatus;
  wt_memo : option string;
  wt_createdAt : Z;
  initiationVia : InitiationVia;
  settlementVia : SettlementVia
}.

Record MemoConfig : Type := mkMemoConfig {
  MEMO_SHARING_SATS_THRESHOLD : number;
  MEMO_SHARING_CENTS_THRESHOLD : number
}.

(** Objects whose keys are enumerated in the order in which they were first set, as they
    are for keys that are no array index, such as the ids of wallets. *)
Definition obj_set {A} (k : string) (v : A) (o : list (string * A)) : list (string * A) :=
  if existsb (fun kv => String.eqb (fst kv) k) o
  then map (fun kv => if String.eqb (fst kv) k then (k, v) else kv) o
  else o ++ [(k, v)].

Definition obj_get {A} (k : string) (o : list (string * A)) : option A :=
  option_map snd (List.find (fun kv => String.eqb (fst kv) k) o).

(** A loop that pushes results until one is thrown. *)
Fixpoint collect {A} (l : list (result A)) : result (list A) :=
  match l with
  | [] => Ok []
  | r :: l => let* a := r in let* rest := collect l in Ok (a :: rest)
  end.

(** ** [filterPendingIncoming] *)

Definition pending_entry (details : list (string * WalletCurrency)) (price : number) (tx : OnChainTx)
    (o : TxOut) (address walletId : string) : result WalletTransaction :=
  match obj_get walletId details with
  | None => Throw (new JsTypeError)
  | Some c =>
      Ok (mkWalletTx (oct_txHash tx) (Some walletId) (out_sats o) (num 0) (MStr (currency_string c))
            price TxPending None (oct_createdAt tx) (IVOnChain address)
            (SVOnChain (Some (oct_txHash tx))))
  end.

Definition pending_of_output (addressesByWalletId : list (string * list string))
    (details : list (string * WalletCurrency)) (price : number) (tx : OnChainTx) (o : TxOut)
    : list (result WalletTransaction) :=
  match nonempty_address o with
  | None => []
  | Some address =>
      map (fun kv => pending_entry details price tx o address (fst kv))
        (List.filter (fun kv => includes address (snd kv)) addressesByWalletId)
  end.

Definition filterPendingIncoming (pendingIncoming : list OnChainTx)
    (addressesByWalletId : list (string * list string)) (details : list (string * WalletCurrency))
    (displayCurrencyPerSat : number) : result (list WalletTransaction) :=
  collect (flat_map (fun tx => flat_map
    (pending_of_output addressesByWalletId details displayCurrencyPerSat tx) (oct_outs tx))
    pendingIncoming).

(** ** [translateLedgerTxnToWalletTxn] *)

Definition isAuthorizedMemo (memo : option string) : bool :=
  match memo with
  | Some (String _ _ as m) => existsb (String.eqb m) (map fst onboardingEarn)
  | _ => false
  end.

Definition is_btc_value (currency : metaval) : bool :=
  bool_decide (currency = MStr (currency_string Btc)).

Section Translation.
Context (cfg : MemoConfig).

Definition shouldDisplayMemo (memo : option string) (credit : number) (currency : metaval) : bool :=
  if isAuthorizedMemo memo || num_eqb credit (num 0) then true
  else if is_btc_value currency then num_leb (MEMO_SHARING_SATS_THRESHOLD cfg) credit
  else num_leb (MEMO_SHARING_CENTS_THRESHOLD cfg) credit.

(** [a || b] on texts, and [a || null]. *)
Definition or_text (a b : option string) : option string :=
  match a with Some (String _ _) => a | _ => b end.
Definition or_null (a : option string) : option string := or_text a None.

Definition translateMemo (memoFromPayer lnMemo : option string) (credit : number) (currency : metaval)
    : option string :=
  let memo := or_text memoFromPayer lnMemo in
  if shouldDisplayMemo memo credit currency then or_null memo else None.

Definition displayCurrencyPerBaseUnitFromAmounts (displayAmount settlement : number) : number :=
  if num_eqb settlement (num 0) then num 0 else Math_abs (num_div displayAmount settlement).

(** The transactions of the ledger carry no id of the other wallet: [translateToLedgerTx]
    sets no [recipientWalletId]. *)
Definition ltx_recipientWalletId (t : LedgerTx) : option string := None.

Definition ty_is (ty : LedgerTransactionType) (v : metaval) : bool :=
  bool_decide (v = MStr (type_string ty)).

(** The two sides of a transaction, by its type. *)
Definition vias (t : LedgerTx) : InitiationVia * SettlementVia :=
  let txType := if ty_is IntraLedger (ltx_type t) && bool_decide (or_null (ltx_paymentHash t) <> None)
                then MStr (type_string LnIntraLedger) else ltx_type t in
  let other := ltx_recipientWalletId t in
  let username := ltx_username t in
  let address := default "<no-address>" (or_null (ltx_address t)) in
  if ty_is IntraLedger txType || ty_is WalletIdTradeIntraAccount txType
  then (IVIntraLedger other username, SVIntraLedger other username)
  else if ty_is OnchainIntraLedger txType || ty_is OnChainTradeIntraAccount txType
  then (IVOnChain address, SVIntraLedger other (or_null username))
  else if ty_is OnchainPayment txType || ty_is OnchainReceipt txType
  then (IVOnChain address, SVOnChain (ltx_txHash t))
  else if ty_is LnIntraLedger txType || ty_is LnTradeIntraAccount txType
  then (IVLightning (ltx_paymentHash t) (ltx_pubkey t), SVIntraLedger other (or_null username))
  else if ty_is Payment txType || ty_is Invoice txType
  then (IVLightning (ltx_paymentHash t) (ltx_pubkey t), SVLightning None)
  else (IVIntraLedger other username, SVIntraLedger other (or_null username)).

Definition settlement_fee (t : LedgerTx) : number :=
  if is_btc_value (ltx_currency t)
  then (if num_truthy (ltx_fee t) then ltx_fee t else num 0)
  else if num_truthy (ltx_feeUsd t) then Math_floor (num_mul (ltx_feeUsd t) (num 100)) else num 0.

Definition translateLedgerTxnToWalletTxn (txn : LedgerTx) : WalletTransaction :=
  let settlement := num_sub (ltx_credit txn) (ltx_debit txn) in
  let v := vias txn in
  mkWalletTx (ltx_id txn) (ltx_walletId txn) settlement (settlement_fee txn) (ltx_currency txn)
    (displayCurrencyPerBaseUnitFromAmounts (ltx_usd txn) settlement)
    (if ltx_pendingConfirmation txn then TxPending else TxSuccess)
    (translateMemo (ltx_memoFromPayer txn) (ltx_lnMemo txn) (ltx_credit txn) (ltx_currency txn))
    (ltx_timestamp txn) (fst v) (snd v).

Definition fromLedger (ledgerTransactions : list LedgerTx) : list WalletTransaction :=
  map translateLedgerTxnToWalletTxn ledgerTransactions.

Definition addPendingIncoming (transactions : list WalletTransaction) (pendingIncoming : list OnChainTx)
    (addressesByWalletId : list (string * list string)) (details : list (string * WalletCurrency))
    (price : number) : result (list WalletTransaction) :=
  let* pending := filterPendingIncoming pendingIncoming addressesByWalletId details price in
  Ok (pending ++ transactions).

(** ** The queries *)

(** The objects [addressesByWalletId] and [walletDetailsByWalletId]. *)
Definition addresses_by_id (wallets : list AddressedWallet) : list (string * list string) :=
  fold_left (fun o w => obj_set (w_id (aw_wallet w)) (aw_onChainAddresses w) o) wallets [].
Definition details_by_id (wallets : list AddressedWallet) : list (string * WalletCurrency) :=
  fold_left (fun o w => obj_set (w_id (aw_wallet w)) (w_currency (aw_wallet w)) o) wallets [].

Definition price_or_nan (price : result number) : result number :=
  match price with Er _ => Ok NaN | p => p end.

(** The confirmed history, followed by what the chain adds to it. *)
Definition with_incoming (minConfirmations : number) (wallets : list AddressedWallet)
    (addresses : list string) (confirmed : list WalletTransaction)
    (onChainTxs : result (list OnChainTx)) (price : result number)
    : result (PartialResult (list WalletTransaction)) :=
  match onChainTxs with
  | Er e => Ok (partial_partial confirmed e)
  | Throw e => Throw e
  | Ok txs =>
      let filter := mkTxFilter (Some minConfirmations) None (Some addresses) in
      let* p := price_or_nan price in
      let* l := addPendingIncoming confirmed (filter_apply filter txs) (addresses_by_id wallets)
                  (details_by_id wallets) p in
      Ok (partial_ok l)
  end.

Definition ledger_error_only {A} (e : error) : result (PartialResult A) :=
  if is_a e LedgerError then Ok (partial_err e) else Throw (new JsTypeError).

Definition getTransactionsForWallets (minConfirmations : number) (wallets : list AddressedWallet)
    (ledgerTransactions : result (list LedgerTx)) (onChainTxs : result (list OnChainTx))
    (price : result number) : result (PartialResult (list WalletTransaction)) :=
  match ledgerTransactions with
  | Er e => ledger_error_only e
  | Throw e => Throw e
  | Ok txs =>
      with_incoming minConfirmations wallets (flat_map aw_onChainAddresses wallets) (fromLedger txs)
        onChainTxs price
  end.

Definition getTransactionsForWalletsByAddresses (minConfirmations : number)
    (wallets : list AddressedWallet) (addresses : list string)
    (ledgerTransactions : result (list LedgerTx)) (onChainTxs : result (list OnChainTx))
    (price : result number) : result (PartialResult (list WalletTransaction)) :=
  match ledgerTransactions with
  | Er e => ledger_error_only e
  | Throw e => Throw e
  | Ok txs =>
      let of_addresses := List.filter (fun t => match or_null (ltx_address t) with
                                                | Some a => includes a addresses
                                                | None => false
                                                end) txs in
      let allAddresses := flat_map aw_onChainAddresses wallets in
      with_incoming minConfirmations wallets
        (List.filter (fun a => includes a allAddresses) addresses) (fromLedger of_addresses)
        onChainTxs price
  end.

Definition walletTransactionsByHash (ledgerTransactions : result (list LedgerTx))
    : result (list WalletTransaction) :=
  let* txs := ledgerTransactions in Ok (fromLedger txs).

Definition walletTransactionById (id : string) (lookup : string -> result LedgerTx)
    : result WalletTransaction :=
  let* ledgerTxId := checkedToLedgerTransactionId (Some id) in
  let* txn := lookup ledgerTxId in
  Ok (translateLedgerTxnToWalletTxn txn).

End Translation.

(** ** Properties *)

Module HistorySpec.
Import EntryBuilderSpec FacadeSpec QuerySpec.

(** *** The history of a wallet and its balance *)

Section Balance.
Context {S E : Type} `{MediciQueries S E}.
Context {elaws : MediciEntryLaws E} {blaws : MediciBookLaws S E} {qlaws : MediciQueriesLaws S E}.
Context (cfg : MemoConfig).

(** A line with whole amounts whose difference is exact. *)
Definition whole_line (t : ledgerTx) : Prop :=
  exists c d, tx_credit t = num c /\ tx_debit t = num d /\ safe (c - d).

Lemma whole_settlement t : whole_line (st_tx t) ->
  num_val (settlementAmount (translateLedgerTxnToWalletTxn cfg (translateToLedgerTx t))) =
  num_val (tx_credit (st_tx t)) - num_val (tx_debit (st_tx t)).
Proof.
  intros (c & d & Hc & Hd & Hs). cbn [settlementAmount translateLedgerTxnToWalletTxn].
  cbn [ltx_credit ltx_debit translateToLedgerTx]. rewrite Hc, Hd, num_sub_safe by done.
  by rewrite !num_val_num.
Qed.

(** The lines of a wallet in a book with whole amounts, no account of which lies below the account of the
    wallet, add up to the balance that the ledger reports. *)
Definition whole_book (acc : string) (s : S) : Prop :=
  Forall (fun t => whole_line (st_tx t)) (book_txs (E := E) s) /\
  Forall (fun t => String.prefix (acc +:+ ":") (tx_account (st_tx t)) = false) (book_txs (E := E) s) /\
  safe (raw_net acc (lines (E := E) s)).

Lemma ledger_history_sums (walletId : string) (st st' : LedgerState S) txs b :
  whole_book (toLiabilitiesWalletId walletId) (ls_book st) ->
  getTransactionsByWalletIds (ls_book st) [walletId] = Ok txs ->
  getWalletBalance (E := E) walletId st = (Ok b, st') ->
  b = num (sumZ (fun t => num_val (settlementAmount t)) (fromLedger cfg txs)).
Proof using qlaws.
  intros (Hwhole & Hbelow & Hsafe) Htxs Hbal. set (acc := toLiabilitiesWalletId walletId) in *.
  assert (Hb : book_balance (E := E) (ls_book st) acc = Some b).
  { revert Hbal. unfold getWalletBalance. fold acc. destruct (book_balance _ _) as [n|]; [|done].
    destruct (num_ltb n _); [|by intros [= -> _]].
    destruct (cbind _ _ _) as [[] ?]; [by intros [= -> _]|done|done]. }
  rewrite (balance_sums _ _ _ Hb Hbelow Hsafe). f_equal.
  revert Htxs. unfold getTransactionsByWalletIds, transactions_where, queried. fold acc.
  destruct (book_ledger _ _) as [l|] eqn:Hl; [|done]. intros [= <-].
  apply ledger_results in Hl. unfold fromLedger. rewrite map_map, sumZ_map.
  rewrite (sumZ_perm _ _ _ Hl). unfold raw_net, lines. rewrite sumZ_map.
  cbn [map existsb]. fold acc. clear - Hwhole Hbelow. clearbody acc. induction (book_txs (ls_book st)) as [|t l IH]; [done|].
  inversion_clear Hwhole as [|? ? Ht Hl]. inversion_clear Hbelow as [|? ? Hp Hb].
  specialize (IH Hl Hb). cbn [List.filter]. unfold under_account at 1.
  rewrite sumZ_cons, Hp, !orb_false_r.
  destruct (String.eqb _ acc) eqn:He; rewrite ?sumZ_cons, ?whole_settlement, IH by done; lia.
Qed.

(** *** A lightning payment in the history of the sender *)

(** The entry of a payment: what it took, over lightning. *)
Definition shows_payment (w : WalletDescriptor) (total : BothAmounts) (hash : string)
    (status : TxStatus) (l : list WalletTransaction) : Prop :=
  exists t, In t l /\ wt_walletId t = toWalletId (toLedgerAccountId (wd_id w)) /\
    settlementAmount t = num (- debited w total) /\ wt_status t = status /\
    settlementVia t = SVLightning None /\
    exists pubkey, initiationVia t = IVLightning (str_or_undefined (MStr hash)) pubkey.

Lemma wallet_history s walletId txs (t : storedTx) :
  getTransactionsByWalletIds s [walletId] = Ok txs -> In t (book_txs (E := E) s) ->
  tx_account (st_tx t) = toLedgerAccountId walletId ->
  In (translateLedgerTxnToWalletTxn cfg (translateToLedgerTx t)) (fromLedger cfg txs).
Proof using qlaws.
  unfold getTransactionsByWalletIds, transactions_where, queried.
  destruct (book_ledger s _) as [l|] eqn:Hl; [|done]. intros [= <-] Hin Ha.
  apply ledger_results in Hl. apply in_map, in_map, list_elem_of_In. rewrite Hl.
  apply list_elem_of_In, filter_In. split; [done|]. simpl. unfold under_account. rewrite Ha.
  change (toLiabilitiesWalletId walletId) with (toLedgerAccountId walletId).
  by rewrite String.eqb_refl.
Qed.

(** The entry that a line of a payment gives. *)
Lemma payment_line_shown w total m hash pubkey pending (t : storedTx) :
  safe (debited w total) ->
  tx_account (st_tx t) = toLedgerAccountId (wd_id w) ->
  tx_credit (st_tx t) = num 0 -> tx_debit (st_tx t) = num (debited w total) ->
  tx_meta (st_tx t) = m ->
  m !! "type" = Some (MStr (type_string Payment)) -> m !! "hash" = Some (MStr hash) ->
  m !! "pubkey" = Some (MStr pubkey) -> m !! "pending" = Some (MBool pending) ->
  let t' := translateLedgerTxnToWalletTxn cfg (translateToLedgerTx t) in
  wt_walletId t' = toWalletId (toLedgerAccountId (wd_id w)) /\
  settlementAmount t' = num (- debited w total) /\
  wt_status t' = (if pending then TxPending else TxSuccess) /\
  settlementVia t' = SVLightning None /\
  initiationVia t' = IVLightning (str_or_undefined (MStr hash)) (str_or_undefined (MStr pubkey)).
Proof.
  intros Hs Ha Hc Hd Hm Hty Hh Hpk Hp. cbn zeta.
  unfold translateLedgerTxnToWalletTxn, translateToLedgerTx.
  cbn [wt_walletId settlementAmount wt_status settlementVia initiationVia
       ltx_walletId ltx_credit ltx_debit ltx_pendingConfirmation].
  unfold meta_of. rewrite Ha, Hc, Hd, Hm, Hp.
  rewrite num_sub_safe by (unfold safe in *; lia).
  unfold vias. cbn [ltx_type ltx_paymentHash ltx_pubkey ltx_address ltx_txHash ltx_username].
  rewrite Hty, Hh, Hpk. done.
Qed.

(** After a lightning send of a positive amount was recorded, the history of the wallet
    of the sender shows a pending lightning payment of its hash that takes exactly
    the total debited, and after the send was settled the payment is shown as
    successful. *)
Theorem sent_payment_in_history d w total hash pubkey f fd ad dc known st j st1
    (Hsafe : safe (debited w total)) (Hpos : 0 < debited w total)
    (Hsend : recordSend d w total None (LnSendLedgerMetadata hash pubkey f fd ad dc known) st
             = (Ok j, st1)) :
  (forall txs, getTransactionsByWalletIds (ls_book st1) [wd_id w] = Ok txs ->
     shows_payment w total hash TxPending (fromLedger cfg txs)) /\
  (forall st2 txs, settlePendingLnSend (E := E) hash st1 = (Ok tt, st2) ->
     getTransactionsByWalletIds (ls_book st2) [wd_id w] = Ok txs ->
     shows_payment w total hash TxSuccess (fromLedger cfg txs)).
Proof using elaws blaws qlaws.
  destruct (recordSend_line _ _ _ _ _ _ _ _ Hsend Hsafe) as (t & Hin & Ht & _); [lia|].
  set (m := LnSendLedgerMetadata hash pubkey f fd ad dc known) in *.
  assert (Hshow : forall t' b s txs, In t' (book_txs (E := E) s) ->
    tx_account (st_tx t') = tx_account (st_tx t) -> tx_credit (st_tx t') = tx_credit (st_tx t) ->
    tx_debit (st_tx t') = tx_debit (st_tx t) ->
    tx_meta (st_tx t') = <["pending" := MBool b]> (tx_meta (st_tx t)) ->
    getTransactionsByWalletIds s [wd_id w] = Ok txs ->
    shows_payment w total hash (if b then TxPending else TxSuccess) (fromLedger cfg txs)).
  { intros t' b s txs Hin' Ha Hc Hd Hm Htxs. rewrite Ht in Ha, Hc, Hd, Hm. simpl in Ha, Hc, Hd.
    fold (debited w total) in Hd. rewrite Number_safe in Hd by done.
    eexists. split; [by eapply wallet_history|].
    eapply payment_line_shown in Hm as (-> & -> & -> & -> & ->); try done; [by split_and!; [..|eexists]|..];
      rewrite ?lookup_insert_eq, ?lookup_insert_ne by done; try done;
      unfold with_currency; by rewrite lookup_insert_ne. }
  split.
  - intros txs Htxs. eapply (Hshow t true); [done..| |done].
    rewrite insert_id; [done|]. rewrite Ht. by rewrite sender_line_meta.
  - intros st2 txs Hs Htxs. apply settle_book in Hs as [[? _]|(n & Hu & _)]; [done|].
    pose proof (updateMany_maps _ _ _ _ _ Hu) as Hmaps.
    apply list_elem_of_In, list_elem_of_lookup in Hin as (i & Hi).
    destruct (Forall2_lookup_l _ _ _ _ _ Hmaps Hi) as (t' & Hi' & [[_ ->]|[Hno _]]).
    + eapply (Hshow _ false); [by eapply list_elem_of_In, list_elem_of_lookup_2|done..].
    + destruct Hno. unfold has_field. rewrite Ht. by apply sender_line_meta.
Qed.

End Balance.

(** *** Pending on-chain balances *)

(** The balance that a map of amounts by address gives to a wallet. *)
Definition wallet_total (w : AddressedWallet) (m : gmap string PaymentAmount) : Z :=
  amount (wallet_sum w m).

(** The part of an address in the balance of a wallet. *)
Definition part (w : AddressedWallet) (address : string) (z : Z) : Z :=
  if includes address (aw_onChainAddresses w) then z else 0.

Definition output_part (w : AddressedWallet) (o : TxOut) : Z :=
  match nonempty_address o with
  | Some address => part w address (num_val (out_sats o))
  | None => 0
  end.

Lemma wallet_total_insert w k a m : m !! k = None ->
  wallet_sum w (<[k := a]> m) =
    (if includes k (aw_onChainAddresses w) then add (wallet_sum w m) a else wallet_sum w m).
Proof.
  intros Hk. unfold wallet_sum. rewrite map_fold_insert_L; [done| |done].
  intros j1 j2 z1 z2 y _ _ _.
  destruct (includes j1 _), (includes j2 _); unfold add; f_equal; simpl; lia.
Qed.

Lemma wallet_total_split w k m :
  wallet_total w m = wallet_total w (delete k m) + part w k (amount (default ZERO_SATS (m !! k))).
Proof.
  unfold wallet_total, part. destruct (m !! k) as [a|] eqn:Hk; simpl.
  - rewrite <- (insert_delete_id m k a) at 1 by done.
    rewrite wallet_total_insert by apply lookup_delete_eq. by destruct (includes _ _); simpl; lia.
  - rewrite delete_id by done. destruct (includes _ _); lia.
Qed.

Lemma wallet_total_add w k a m : wallet_total w (balance_add k a m) = wallet_total w m + part w k (amount a).
Proof.
  rewrite (wallet_total_split w k (balance_add k a m)), (wallet_total_split w k m).
  unfold balance_add. rewrite delete_insert_eq, lookup_insert_eq. unfold part. simpl.
  destruct (includes _ _); lia.
Qed.

Lemma wallet_total_merge w m acc :
  wallet_total w (map_fold balance_add acc m) = wallet_total w acc + wallet_total w m.
Proof.
  induction m as [|k a m Hk Hfold IH] using map_first_key_ind.
  - rewrite map_fold_empty. unfold wallet_total at 3, wallet_sum. rewrite map_fold_empty. simpl. lia.
  - rewrite map_fold_insert_first_key by done. rewrite wallet_total_add, IH.
    rewrite (wallet_total_split w k (<[k:=a]> m)), lookup_insert_eq, delete_insert_id by done. simpl. lia.
Qed.

Lemma wallet_sum_btc w m : currency (wallet_sum w m) = Btc.
Proof.
  unfold wallet_sum. induction m as [|k a m Hk Hfold IH] using map_first_key_ind.
  - by rewrite map_fold_empty.
  - rewrite map_fold_insert_first_key by done. by destruct (includes _ _).
Qed.

Lemma amount_num_val x c a : paymentAmountFromNumber (Some x) c = Ok a -> amount a = num_val x.
Proof.
  unfold paymentAmountFromNumber, safeBigInt, num_val. destruct (BigInt x); [|by repeat case_match].
  by intros [= <-].
Qed.

Lemma balance_outs_total w outs m m' : balance_outs outs m = Ok m' ->
  wallet_total w m' = wallet_total w m + sumZ (output_part w) outs.
Proof.
  revert m. induction outs as [|o outs IH]; intros m; simpl.
  - intros [= <-]. change (sumZ _ []) with 0. lia.
  - rewrite sumZ_cons. unfold output_part at 1. destruct (nonempty_address o) as [address|].
    + destruct (paymentAmountFromNumber _ _) as [a| |] eqn:Ha; [|done..]. simpl. intros Hm.
      rewrite (IH _ Hm), wallet_total_add, (amount_num_val _ _ _ Ha). lia.
    + intros Hm. rewrite (IH _ Hm). lia.
Qed.

Lemma merge_total w txs acc m : merge_balances (map balanceFromIncomingTx txs) acc = Ok m ->
  wallet_total w m = wallet_total w acc + sumZ (fun tx => sumZ (output_part w) (oct_outs tx)) txs.
Proof.
  revert acc. induction txs as [|tx txs IH]; intros acc; simpl.
  - intros [= <-]. change (sumZ _ []) with 0. lia.
  - unfold balanceFromIncomingTx at 1. destruct (balance_outs _ _) as [b| |] eqn:Hb; [|done..].
    simpl. intros Hm. rewrite sumZ_cons, (IH _ Hm), wallet_total_merge, (balance_outs_total w _ _ _ Hb).
    unfold wallet_total at 2, wallet_sum. rewrite map_fold_empty. simpl. lia.
Qed.

(** *** Objects made from distinct wallets *)

Abbreviation id_of w := (w_id (aw_wallet w)).

Lemma fold_insert_other {A} (f : AddressedWallet -> A) ws (acc : gmap string A) k :
  k ∉ map (fun w => id_of w) ws ->
  fold_left (fun m w => <[id_of w := f w]> m) ws acc !! k = acc !! k.
Proof.
  revert acc. induction ws as [|w ws IH]; intros acc; [done|]. simpl. rewrite not_elem_of_cons.
  intros [Hne Hk]. by rewrite IH, lookup_insert_ne.
Qed.

Lemma fold_insert_found {A} (f : AddressedWallet -> A) ws (acc : gmap string A) w :
  NoDup (map (fun w => id_of w) ws) -> w ∈ ws ->
  fold_left (fun m w => <[id_of w := f w]> m) ws acc !! id_of w = Some (f w).
Proof.
  revert acc. induction ws as [|w' ws IH]; intros acc; simpl; [intros _ Hin; inversion Hin|].
  intros [Hn Hnd]%NoDup_cons Hin. apply elem_of_cons in Hin as [->|Hin]; [|by apply IH].
  by rewrite fold_insert_other, lookup_insert_eq.
Qed.

Lemma obj_fold {A} (f : AddressedWallet -> A) ws (o : list (string * A)) :
  NoDup (map fst o ++ map (fun w => id_of w) ws) ->
  fold_left (fun o w => obj_set (id_of w) (f w) o) ws o = o ++ map (fun w => (id_of w, f w)) ws.
Proof.
  revert o. induction ws as [|w ws IH]; intros o; simpl; [intros _; by rewrite app_nil_r|].
  intros Hnd. unfold obj_set at 2.
  destruct (existsb _ o) eqn:He.
  - apply existsb_exists in He as ([k v] & Hin & Heq%String.eqb_eq). simpl in Heq. subst k.
    apply NoDup_app in Hnd as (_ & Hnd & _). destruct (Hnd (id_of w)); [|by left].
    apply list_elem_of_In, in_map_iff. by exists (id_of w, v).
  - rewrite IH; [by rewrite <- app_assoc|]. rewrite map_app, <- app_assoc. exact Hnd.
Qed.

Lemma obj_get_found {A} (f : AddressedWallet -> A) ws w :
  NoDup (map (fun w => id_of w) ws) -> w ∈ ws ->
  obj_get (id_of w) (map (fun w => (id_of w, f w)) ws) = Some (f w).
Proof.
  unfold obj_get. induction ws as [|w' ws IH]; simpl; [intros _ Hin; inversion Hin|].
  intros [Hn Hnd]%NoDup_cons Hin. apply elem_of_cons in Hin as [->|Hin].
  - by rewrite String.eqb_refl.
  - destruct (String.eqb_spec (id_of w') (id_of w)) as [He|]; [|by apply IH].
    destruct Hn. rewrite He. by apply list_elem_of_In, (in_map (fun w => id_of w)), list_elem_of_In.
Qed.

(** *** The pending part of the history *)

Definition pending_tx (price : number) (tx : OnChainTx) (o : TxOut) (address : string)
    (w : AddressedWallet) : WalletTransaction :=
  mkWalletTx (oct_txHash tx) (Some (id_of w)) (out_sats o) (num 0)
    (MStr (currency_string (w_currency (aw_wallet w)))) price TxPending None (oct_createdAt tx)
    (IVOnChain address) (SVOnChain (Some (oct_txHash tx))).

Definition pending_outputs (price : number) (ws : list AddressedWallet) (tx : OnChainTx) (o : TxOut)
    : list WalletTransaction :=
  match nonempty_address o with
  | None => []
  | Some address =>
      map (pending_tx price tx o address)
        (List.filter (fun w => includes address (aw_onChainAddresses w)) ws)
  end.

Definition pending_list (price : number) (ws : list AddressedWallet) (txs : list OnChainTx)
    : list WalletTransaction :=
  flat_map (fun tx => flat_map (pending_outputs price ws tx) (oct_outs tx)) txs.

Lemma collect_ok {A} (l : list A) : collect (map Ok l) = Ok l.
Proof. induction l as [|a l IH]; [done|]. simpl. by rewrite IH. Qed.

Lemma pending_of_output_ok price ws tx o : NoDup (map (fun w => id_of w) ws) ->
  pending_of_output (map (fun w => (id_of w, aw_onChainAddresses w)) ws)
    (map (fun w => (id_of w, w_currency (aw_wallet w))) ws) price tx o
  = map Ok (pending_outputs price ws tx o).
Proof.
  intros Hnd. unfold pending_of_output, pending_outputs.
  destruct (nonempty_address o) as [address|]; [|done].
  set (details := map (fun w => (id_of w, w_currency (aw_wallet w))) ws).
  assert (Hget : forall w, w ∈ ws -> pending_entry details price tx o address (id_of w)
                                     = Ok (pending_tx price tx o address w)).
  { intros w Hw. unfold pending_entry, details.
    by rewrite (obj_get_found (fun w => w_currency (aw_wallet w))). }
  clearbody details. clear Hnd. induction ws as [|w ws IH]; [done|]. simpl.
  assert (IH' := IH (fun w' Hw' => Hget w' ltac:(by right))).
  destruct (includes _ _); [|done]. simpl. rewrite Hget by by left. by f_equal.
Qed.

Lemma filterPendingIncoming_ok price ws txs : NoDup (map (fun w => id_of w) ws) ->
  filterPendingIncoming txs (addresses_by_id ws) (details_by_id ws) price
  = Ok (pending_list price ws txs).
Proof.
  intros Hnd. unfold filterPendingIncoming, addresses_by_id, details_by_id, pending_list.
  rewrite !obj_fold by done. rewrite <- collect_ok. f_equal. simpl.
  induction txs as [|tx txs IH]; [done|]. simpl. rewrite map_app, IH. f_equal. clear IH.
  induction (oct_outs tx) as [|o outs IH]; [done|]. simpl.
  by rewrite map_app, IH, pending_of_output_ok.
Qed.

(** What the pending part gives to a wallet. *)
Definition given_to (w : AddressedWallet) (t : WalletTransaction) : Z :=
  if bool_decide (wt_walletId t = Some (id_of w)) then num_val (settlementAmount t) else 0.

Lemma filter_only (q : AddressedWallet -> bool) ws w z :
  NoDup (map (fun w => id_of w) ws) -> w ∈ ws ->
  sumZ (fun w' => if bool_decide (Some (id_of w') = Some (id_of w)) then z else 0) (List.filter q ws)
  = if q w then z else 0.
Proof.
  assert (Hnone : forall l, id_of w ∉ map (fun w => id_of w) l ->
    sumZ (fun w' => if bool_decide (Some (id_of w') = Some (id_of w)) then z else 0) (List.filter q l) = 0).
  { induction l as [|w' l IH]; [done|]. simpl. rewrite not_elem_of_cons. intros [Hne Hl].
    destruct (q w'); rewrite ?sumZ_cons, IH by done; [|done]. by rewrite bool_decide_eq_false_2 by congruence. }
  induction ws as [|w' ws IH]; simpl; [intros _ Hin; inversion Hin|].
  intros [Hn Hnd]%NoDup_cons Hin. apply elem_of_cons in Hin as [->|Hin].
  - destruct (q w'); rewrite ?sumZ_cons, Hnone by done; [|done].
    rewrite bool_decide_eq_true_2 by done. lia.
  - assert (id_of w' <> id_of w).
    { intros He. apply Hn. rewrite He.
      by apply list_elem_of_In, (in_map (fun w => id_of w)), list_elem_of_In. }
    destruct (q w'); rewrite ?sumZ_cons, IH by done; [|done].
    by rewrite bool_decide_eq_false_2 by congruence.
Qed.

Lemma pending_total price ws txs w : NoDup (map (fun w => id_of w) ws) -> w ∈ ws ->
  sumZ (given_to w) (pending_list price ws txs) =
  sumZ (fun tx => sumZ (output_part w) (oct_outs tx)) txs.
Proof.
  intros Hnd Hw. unfold pending_list. rewrite sumZ_flat_map. apply sumZ_ext. intros tx _.
  rewrite sumZ_flat_map. apply sumZ_ext. intros o _. unfold pending_outputs, output_part.
  destruct (nonempty_address o) as [address|]; [|done]. rewrite sumZ_map. unfold given_to. simpl.
  apply (filter_only (fun w => includes address (aw_onChainAddresses w)) ws w); done.
Qed.

(** The history of wallets when the chain is known. *)
Lemma history_parts (oc : OnChainConfig) (cfg : MemoConfig) (wallets : list AddressedWallet) ledgerTxs txs price p
    (filter := mkTxFilter (Some (oc_minConfirmations oc)) None (Some (flat_map aw_onChainAddresses wallets))) :
  NoDup (map (fun w => id_of w) wallets) -> price_or_nan price = Ok p ->
  getTransactionsForWallets cfg (oc_minConfirmations oc) wallets (Ok ledgerTxs) (Ok txs) price
    = Ok (partial_ok (pending_list p wallets (filter_apply filter txs) ++ fromLedger cfg ledgerTxs)).
Proof.
  intros Hids Hp. unfold getTransactionsForWallets, with_incoming, addPendingIncoming. fold filter.
  rewrite Hp. cbn [rbind]. by rewrite filterPendingIncoming_ok.
Qed.

Lemma pending_balance_sums (oc : OnChainConfig) (wallets : list AddressedWallet) txs balances p w
    (filter := mkTxFilter (Some (oc_minConfirmations oc)) None (Some (flat_map aw_onChainAddresses wallets))) :
  NoDup (map (fun w => id_of w) wallets) ->
  getPendingOnChainBalanceForWallets oc (Ok txs) wallets = Ok balances -> w ∈ wallets ->
  balances !! w_id (aw_wallet w) =
    Some (mkAmount (sumZ (given_to w) (pending_list p wallets (filter_apply filter txs))) Btc).
Proof.
  intros Hids Hbal Hw. revert Hbal. unfold getPendingOnChainBalanceForWallets, balanceByWallet. simpl.
  replace (wallets ≫= aw_onChainAddresses) with (flat_map aw_onChainAddresses wallets)
    by (clear; induction wallets; [done|]; simpl; by f_equal).
  fold filter. destruct (balancesByAddresses _) as [m| |] eqn:Hm; [|done..]. intros [= <-].
  rewrite (fold_insert_found (fun w => wallet_sum w m)) by done. f_equal.
  apply (merge_total w) in Hm. rewrite pending_total by done.
  unfold wallet_total, wallet_sum at 2 in Hm. rewrite map_fold_empty in Hm. simpl in Hm.
  pose proof (wallet_sum_btc w m). destruct (wallet_sum w m); simpl in *. by f_equal.
Qed.

(** A pending transaction is one of the wallets'. *)
Lemma pending_of_wallets price ws txs t : t ∈ pending_list price ws txs ->
  wt_status t = TxPending /\ exists w, w ∈ ws /\ wt_walletId t = Some (id_of w).
Proof.
  intros Ht. apply list_elem_of_In in Ht. unfold pending_list in Ht.
  apply in_flat_map in Ht as (tx & _ & Ht). apply in_flat_map in Ht as (o & _ & Ht).
  unfold pending_outputs in Ht. destruct (nonempty_address o); [|done].
  apply in_map_iff in Ht as (w & <- & Hw). split; [done|]. exists w. split; [|done].
  apply List.filter_In in Hw as [Hw _]. by apply list_elem_of_In.
Qed.

(** C36. For wallets with distinct ids, whenever the pending on-chain balances are
    defined, the history of the wallets is defined too, whether or not the price is,
    and it consists of pending transactions followed by those of the ledger; the
    pending balance of each wallet, computed by address, is the sum of the
    settlement amounts of its pending transactions, computed by output. *)
Theorem pending_balance_in_history (oc : OnChainConfig) (cfg : MemoConfig)
    (wallets : list AddressedWallet) ledgerTxs txs price balances
    (Hids : NoDup (map (fun w => id_of w) wallets))
    (Hprice : is_ok (price_or_nan price) = true)
    (Hbal : getPendingOnChainBalanceForWallets oc (Ok txs) wallets = Ok balances) :
  exists pending,
    getTransactionsForWallets cfg (oc_minConfirmations oc) wallets (Ok ledgerTxs) (Ok txs) price
      = Ok (partial_ok (pending ++ fromLedger cfg ledgerTxs)) /\
    Forall (fun t => wt_status t = TxPending) pending /\
    forall w, w ∈ wallets ->
      balances !! w_id (aw_wallet w) = Some (mkAmount (sumZ (given_to w) pending) Btc).
Proof.
  destruct (price_or_nan price) as [p| |] eqn:Hp; [|done..].
  eexists. split_and!; [by apply history_parts| |].
  - apply Forall_forall. intros t Ht. by apply pending_of_wallets in Ht as [Ht _].
  - intros w Hw. by apply pending_balance_sums.
Qed.

(** *** The whole history and the balances *)

Section Shown.
Context {S E : Type} `{MediciQueries S E}.
Context {elaws : MediciEntryLaws E} {blaws : MediciBookLaws S E} {qlaws : MediciQueriesLaws S E}.

Definition settled_by (history : list WalletTransaction) : Z :=
  sumZ (fun t => num_val (settlementAmount t)) history.

(** C35. When the transactions of a wallet can be read from the ledger, its book has
    whole amounts whose sum a number holds exactly and no account below the one of
    the wallet, the settlement amounts of the whole history that
    getTransactionsForWallets answers, pending deposits included, add up to the
    balance that the ledger reports plus the pending on-chain balance whenever that
    is defined, whether or not there is a price, as long as asking for it does not
    raise; and when the chain cannot be read, the history that is answered with the
    error adds up to the balance. *)
Theorem history_sums_to_balance (oc : OnChainConfig) (cfg : MemoConfig) (w : AddressedWallet)
    (st st' : LedgerState S) (b : number) (price : result number)
    (walletId := w_id (aw_wallet w)) (ledgerTxs := getTransactionsByWalletIds (E := E) (ls_book st) [walletId])
    (Hbook : whole_book (E := E) (toLiabilitiesWalletId walletId) (ls_book st))
    (Htxs : is_ok ledgerTxs = true) (Hprice : is_ok (price_or_nan price) = true)
    (Hbal : getWalletBalance (E := E) walletId st = (Ok b, st')) :
  (forall txs balances, getPendingOnChainBalanceForWallets oc (Ok txs) [w] = Ok balances ->
     exists history confirmed pending,
       getTransactionsForWallets cfg (oc_minConfirmations oc) [w] ledgerTxs (Ok txs) price
         = Ok (partial_ok history) /\
       b = num confirmed /\ balances !! walletId = Some (mkAmount pending Btc) /\
       settled_by history = confirmed + pending) /\
  (forall e, exists history,
     getTransactionsForWallets cfg (oc_minConfirmations oc) [w] ledgerTxs (Er e) price
       = Ok (partial_partial history e) /\
     b = num (settled_by history)).
Proof using qlaws.
  destruct ledgerTxs as [ledger| |] eqn:Hl; [|done..]. destruct (price_or_nan price) as [p| |] eqn:Hp; [|done..].
  pose proof (ledger_history_sums cfg walletId st st' ledger b Hbook Hl Hbal) as Hb. split.
  - intros txs balances Hpend.
    assert (Hone : NoDup (map (fun w => id_of w) [w])) by apply NoDup_singleton.
    do 3 eexists. split_and!; [exact (history_parts oc cfg [w] ledger txs price p Hone Hp)|exact Hb| |].
    + exact (pending_balance_sums oc [w] txs balances p w Hone Hpend (list_elem_of_here _ _)).
    + unfold settled_by. rewrite sumZ_app, Z.add_comm. f_equal. apply sumZ_ext. intros t Ht.
      apply pending_of_wallets in Ht as (_ & w' & Hw & Ht). apply list_elem_of_singleton in Hw as ->.
      unfold given_to. by rewrite bool_decide_eq_true_2.
  - intros e. by eexists.
Qed.
End Shown.

(** *** Witnesses *)

Definition sample_memo : MemoConfig := mkMemoConfig (num 1000) (num 50).

Definition sample_history : list LedgerTx :=
  match getTransactionsByWalletIds (ls_book sample_sent_state) ["alice"] with Ok l => l | _ => [] end.

Definition sample_balance := getWalletBalance (E := list ledgerTx) "alice" sample_sent_state.

(** Checks of the lines of a book. *)
Definition whole_lineb (t : ledgerTx) : bool :=
  bool_decide (tx_credit t = num (num_val (tx_credit t))) &&
  bool_decide (tx_debit t = num (num_val (tx_debit t))) &&
  (Z.abs (num_val (tx_credit t) - num_val (tx_debit t)) <=? 2 ^ significand_bits).

Lemma whole_lines_check (l : list storedTx) :
  forallb (fun t => whole_lineb (st_tx t)) l = true -> Forall (fun t => whole_line (st_tx t)) l.
Proof.
  rewrite forallb_forall. intros Hl. apply Forall_forall. intros t Ht.
  apply list_elem_of_In, Hl in Ht. unfold whole_lineb in Ht. bool_prop.
  eexists _, _. split_and!; [done..|]. unfold safe. lia.
Qed.

Lemma leaf_check acc (l : list storedTx) :
  forallb (fun t => negb (String.prefix (acc +:+ ":") (tx_account (st_tx t)))) l = true ->
  Forall (fun t => String.prefix (acc +:+ ":") (tx_account (st_tx t)) = false) l.
Proof.
  rewrite forallb_forall. intros Hl. apply Forall_forall. intros t Ht.
  by apply list_elem_of_In, Hl, negb_true_iff in Ht.
Qed.

Lemma sent_payment_in_history_witness :
  shows_payment (mkWallet "alice" Usd) sample_both "h1" TxPending (fromLedger sample_memo sample_history).
Proof.
  refine (proj1 (sent_payment_in_history (S := list storedTx) (E := list ledgerTx) sample_memo "coffee"
    (mkWallet "alice" Usd) sample_both "h1" "pk" _
    (num 3) (num 227) "USD" false sample_state sample_sent_journal sample_sent_state
    _ _ sample_sent_ok) _ _).
  - vm_compute. discriminate.
  - vm_compute. reflexivity.
  - vm_compute. reflexivity.
Defined.

(** A transaction with one confirmation that pays two addresses of a wallet. *)
Definition sample_incoming : OnChainTx :=
  mkOnChainTx (num 1) "tx1" [mkTxOut (num 1000) (Some "bc1qa"); mkTxOut (num 500) None;
    mkTxOut (num 2000) (Some "bc1qb")] (num 100) 1600000000000.
Definition sample_wallet : AddressedWallet :=
  mkAddressed (mkWalletRec "bob" "acc2" Btc) ["bc1qb"; "bc1qa"].
Definition sample_onchain : OnChainConfig :=
  mkOnChainConfig 1700000000000
    (mkLimitsConfig (fun _ => 1000000000) (fun _ => 1000000000) (fun _ => 1000000000)) mainnet
    (num 1000) (num 0) (num 0) flat 30 (num 2000) (num 2).
Definition sample_pending : gmap string PaymentAmount :=
  match getPendingOnChainBalanceForWallets sample_onchain (Ok [sample_incoming]) [sample_wallet] with
  | Ok m => m
  | _ => ∅
  end.

Definition sample_alice : AddressedWallet :=
  mkAddressed (mkWalletRec "alice" "acc1" Usd) ["bc1qb"; "bc1qa"].
Definition sample_total : gmap string PaymentAmount :=
  match getPendingOnChainBalanceForWallets sample_onchain (Ok [sample_incoming]) [sample_alice] with
  | Ok m => m
  | _ => ∅
  end.

Lemma history_sums_to_balance_witness :
  exists history,
    getTransactionsForWallets sample_memo (num 2) [sample_alice]
      (getTransactionsByWalletIds (E := list ledgerTx) (ls_book sample_sent_state) ["alice"])
      (Ok [sample_incoming]) (Ok (num 1)) = Ok (partial_ok history) /\
    settled_by history = -230 + 3000.
Proof.
  destruct (proj1 (history_sums_to_balance (S := list storedTx) (E := list ledgerTx) sample_onchain sample_memo
    sample_alice sample_sent_state (snd sample_balance) (num (-230)) (Ok (num 1))
    ltac:(split_and!; [apply whole_lines_check; vm_compute; reflexivity
                      |apply leaf_check; vm_compute; reflexivity|vm_compute; discriminate])
    ltac:(vm_compute; reflexivity) eq_refl ltac:(vm_compute; reflexivity)) [sample_incoming] sample_total
    ltac:(vm_compute; reflexivity)) as (history & confirmed & pending & H1 & H2 & H3 & H4).
  exists history. split; [exact H1|]. rewrite H4. f_equal.
  - apply (f_equal num_val) in H2. rewrite !num_val_num in H2. by rewrite <- H2.
  - vm_compute in H3. by injection H3 as <-.
Defined.

Lemma pending_balance_in_history_witness :
  sample_pending !! "bob" = Some (mkAmount 3000 Btc) /\
  exists pending,
    getTransactionsForWallets sample_memo (num 2) [sample_wallet] (Ok []) (Ok [sample_incoming])
      (Er (new UnknownPriceServiceError)) = Ok (partial_ok (pending ++ fromLedger sample_memo [])) /\
    Forall (fun t => wt_status t = TxPending) pending /\
    forall w, w ∈ [sample_wallet] ->
      sample_pending !! w_id (aw_wallet w) = Some (mkAmount (sumZ (given_to w) pending) Btc).
Proof.
  split; [vm_compute; reflexivity|].
  refine (pending_balance_in_history sample_onchain sample_memo [sample_wallet] [] [sample_incoming]
    (Er (new UnknownPriceServiceError)) sample_pending _ _ _).
  - apply NoDup_singleton.
  - reflexivity.
  - vm_compute. reflexivity.
Defined.
End HistorySpec.
