(* ===== verification/Queries.v ===== *)
(** * Queries of the interface

    [lib/graphql/root/query], [lib/graphql/admin/root/query] and the fields of
    [lib/graphql/types/object] that are resolved by a handler.  A query shows what the handler
    answers and raises its error, mapped or as it is. *)

From S2P Require Import Prelude JsNum Errors ErrorMap Connections Money Regex PaymentFlow Validation Accounts TxMetadata Facade LedgerService LedgerWrites RateLimit Programs Effects Persistence AccountRepo Workers Payments AccountHandlers PaymentsSpec Protocols Rewards Login Invoices Prices Lnd PendingPayments LnPayments FeeProbe OnChain Scalars Treasury Notifications Resolvers OnChainSpec ResolversSpec History.
Import AccountsRepo.
#[local] Open Scope string_scope.
#[local] Open Scope Z_scope.
#[local] Open Scope list_scope.

Section Queries.
Context (dust : string) (num_toString : number -> string).

(** [throw mapError(e)] *)
Definition raise_mapped {A} (e : error) : gql_answer A :=
  match mapError dust e with
  | Ok a => RaisedApollo a
  | Er e | Throw e => RaisedError e
  end.

(** [if (x instanceof Error) throw mapError(x)] and [throw x] *)
Definition shown_mapped {E A B} (p : program E (result A)) (k : A -> program E (gql_answer B))
    : program E (gql_answer B) :=
  let! r <- p ;;
  match r with Ok a => k a | Er e => Ret (raise_mapped e) | Throw e => Ret (RaisedError e) end.
Definition shown_raw {E A B} (p : program E (result A)) (k : A -> program E (gql_answer B))
    : program E (gql_answer B) :=
  let! r <- p ;;
  match r with Ok a => k a | Er e | Throw e => Ret (RaisedError e) end.
(** [if (x instanceof Error) throw x], of an argument *)
Definition valid_arg {E A B} (x : input A) (k : A -> program E (gql_answer B)) : program E (gql_answer B) :=
  match x with
  | Valid a => k a
  | Invalid message => Ret (RaisedGql (mkErrData G_InputValidationError (Some message) None))
  end.

(** ** Payments *)

Definition LnInvoicePaymentStatusQuery (decodeInvoice : string -> result LnInvoice) (paymentRequest : input string)
    : prog (gql_answer string) :=
  valid_arg paymentRequest (fun paymentRequest =>
  shown_mapped (Ret (PaymentStatusChecker decodeInvoice paymentRequest)) (fun checker =>
  shown_mapped (snd checker) (fun paid => Ret (Shown (if (paid : bool) then "PAID" else "PENDING"))))).

(** The fee with its target, or the errors of a wallet that does not fit. *)
Definition OnChainTxFeeQuery (oc : OnChainConfig) (domainAccount : Account) (walletId address : input string)
    (amt targetConfirmations : input number)
    : aprog (gql_answer (list GqlError + number * number)) :=
  valid_arg walletId (fun walletId =>
  valid_arg address (fun address =>
  valid_arg amt (fun amt =>
  valid_arg targetConfirmations (fun target =>
  shown_raw (validateIsBtcWalletForMutation dust walletId) (fun errors =>
  match errors with
  | [] =>
      shown_mapped (lift (getOnChainFee oc walletId domainAccount (Some amt) address (Some target)))
        (fun fee => Ret (Shown (inr (fee, target))))
  | _ => Ret (Shown (inl errors))
  end))))).

(** ** Accounts *)

Definition AccountDefaultWalletIdQuery (username : input string) : aprog (gql_answer (option string)) :=
  valid_arg username (fun username =>
  shown_mapped (do_call (AccountFindByUsername username)) (fun account =>
  Ret (Shown (acc_defaultWalletId account)))).

Definition AccountDefaultWalletQuery (username : input string) (walletCurrency : option WalletCurrency)
    : aprog (gql_answer (option Wallet)) :=
  valid_arg username (fun username =>
  shown_mapped (do_call (AccountFindByUsername username)) (fun account =>
  shown_raw (base (WalletListByAccountId (acc_id account))) (fun wallets =>
  match walletCurrency with
  | None => Ret (Shown (List.find (fun w => bool_decide (Some (w_id w) = acc_defaultWalletId account)) wallets))
  | Some c =>
      match List.find (fun w => bool_decide (w_currency w = c)) wallets with
      | Some w => Ret (Shown (Some w))
      | None => Ret (raise_mapped (new_msg CouldNotFindWalletFromUsernameAndCurrencyError username))
      end
  end))).

Definition UsernameAvailableQuery (username : input string) : aprog (gql_answer bool) :=
  valid_arg username (fun username =>
  shown_raw (usernameAvailable username) (fun available => Ret (Shown available))).

Definition BusinessMapMarkersQuery : aprog (gql_answer (list BusinessMarker)) :=
  shown_raw getBusinessMapMarkers (fun businesses => Ret (Shown businesses)).

(** [app/admin/index.js]; the default account of a user has its own identifier. *)
Definition getAccountByUsername (username : string) : aprog (result Account) :=
  await usernameValid <- Ret (checkedToUsername username) ;;
  do_call (AccountFindByUsername usernameValid).
Definition getAccountByUserPhone (phone : string) : aprog (result Account) :=
  await user <- do_call (UserFindByPhone phone) ;;
  base (AccountFindById (u_id user)).

Definition AccountDetailsByUserPhoneQuery (phone : input string)
    : aprog (gql_answer Account) :=
  valid_arg phone (fun phone =>
  shown_raw (getAccountByUserPhone phone) (fun account => Ret (Shown account))).
Definition AccountDetailsByUsernameQuery (username : input string) : aprog (gql_answer Account) :=
  valid_arg username (fun username =>
  shown_raw (getAccountByUsername username) (fun account => Ret (Shown account))).

(** [graphql-user.js] *)
Definition user_username (domainAccount : option Account) (source : option string) : option string :=
  str_or (match domainAccount with Some a => acc_username a | None => None end) source.
Definition user_contactByUsername (domainAccount : option Account) (username : input string) : gql_answer Contact :=
  match domainAccount with
  | None => RaisedGql (mkErrData G_UnknownClientError (Some "Something went wrong") None)
  | Some account =>
      match username with
      | Invalid message => RaisedGql (mkErrData G_InputValidationError (Some message) None)
      | Valid username =>
          match getContactByUsername account username with
          | Ok contact => Shown contact
          | Er e | Throw e => RaisedError e
          end
      end
  end.

(** ** Wallets: [btc-wallet.js], [usd-wallet.js] *)

Definition BtcWallet_balance (cfg : Settings) (source : Wallet) : prog (gql_answer number) :=
  shown_mapped (getBalanceForWallet (w_id source)) (fun balanceSats => Ret (Shown balanceSats)).
Definition UsdWallet_balance (cfg : Settings) (source : Wallet) : prog (gql_answer number) :=
  shown_mapped (getBalanceForWallet (w_id source)) (fun balanceCents => Ret (Shown (Math_floor balanceCents))).

(** The transactions of a wallet, when the history came without an error; [id] is that of a
    transaction. *)
Definition wallet_transactions (history : result (PartialResult (list WalletTransaction)))
    (args : ConnectionArgs) : gql_answer (Connection (A := WalletTransaction)) :=
  match history with
  | Er e | Throw e => RaisedError e
  | Ok partial =>
      match pr_error partial, pr_result partial with
      | Some e, _ => raise_mapped e
      | None, None => RaisedError (new JsError)
      | None, Some transactions =>
          match connectionFromArray wt_id transactions args with
          | Ok c => Shown c
          | Er e | Throw e => RaisedError e
          end
      end
  end.

(** [transaction.js] *)
Definition transaction_settlementPrice (source : WalletTransaction) : Price :=
  price_of num_toString SAT_PRICE_PRECISION_OFFSET
    (num_mul (displayCurrencyPerSettlementCurrencyUnit source) (num 100)).
Inductive TxDirection : Type := SEND | RECEIVE.
Definition transaction_direction (source : WalletTransaction) : TxDirection :=
  if num_ltb (num 0) (settlementAmount source) then RECEIVE else SEND.

(** ** Prices *)

Definition BTC_PRICE_PRECISION_OFFSET : Z := 4.

Definition BtcPriceQuery : pprog (gql_answer Price) :=
  shown_raw getCurrentPrice (fun satUsdPrice =>
  Ret (Shown (price_of num_toString SAT_PRICE_PRECISION_OFFSET (num_mul (num 100) satUsdPrice)))).

Definition parseRange (range : string) : option string :=
  if String.eqb range "ONE_DAY" then Some "OneDay"
  else if String.eqb range "ONE_WEEK" then Some "OneWeek"
  else if String.eqb range "ONE_MONTH" then Some "OneMonth"
  else if String.eqb range "ONE_YEAR" then Some "OneYear"
  else if String.eqb range "FIVE_YEARS" then Some "FiveYears"
  else None.
(** The milliseconds of the interval, printed. *)
Definition parseInterval (range : string) : option string :=
  if String.eqb range "ONE_DAY" then Some "3600000"
  else if String.eqb range "ONE_WEEK" then Some "14400000"
  else if String.eqb range "ONE_MONTH" then Some "86400000"
  else if String.eqb range "ONE_YEAR" then Some "604800000"
  else if String.eqb range "FIVE_YEARS" then Some "2592000000"
  else None.

(** [price * 100 * SATS_PER_BTC] *)
Definition price_point (timestamp price : number) : number * Price :=
  (timestamp, price_of num_toString BTC_PRICE_PRECISION_OFFSET (num_mul (num_mul price (num 100)) SATS_PER_BTC)).

(** [now] is the time at which the list is answered. *)
Definition BtcPriceListQuery (now : number) (range : string) : pprog (gql_answer (list (number * Price))) :=
  match parseRange range, parseInterval range with
  | Some r, Some interval =>
      shown_mapped (getPriceHistory r interval) (fun hourlyPrices =>
      let prices := List.map (fun t => price_point (Math_floor (num_div (tick_date t) (num 1000))) (tick_price t))
                      hourlyPrices in
      let! currentPrice <- getCurrentPrice ;;
      match currentPrice with
      | Ok p => Ret (Shown (prices ++ [price_point (Math_round (num_div now (num 1000))) p]))
      | Er _ => Ret (Shown prices)
      | Throw e => Ret (RaisedError e)
      end)
  | _, _ => Ret (RaisedGql (mkErrData G_InputValidationError (Some "Invalid value for 'range'.") None))
  end.

End Queries.

(** ** Histories of an account *)

(** [get-transactions-for-account.js]: the wallets whose history is shown, or an error. *)
Fixpoint wallets_of_account (account : Account) (walletIds : list string) (wallets : list Wallet)
    : aprog (result (PartialResult (list Wallet))) :=
  match walletIds with
  | [] => Ret (Ok (partial_ok wallets))
  | walletId :: rest =>
      let! wallet <- base (WalletFindById walletId) ;;
      match wallet with
      | Er e => if is_a e RepositoryError then Ret (Ok (partial_err e)) else Ret (Throw (new JsTypeError))
      | Throw e => Ret (Throw e)
      | Ok w =>
          match AccountValidator account with
          | Er e => Ret (Ok (partial_err e))
          | Throw e => Ret (Throw e)
          | Ok accountValidator =>
              match validateWalletForAccount accountValidator w with
              | Er e => Ret (Ok (partial_err e))
              | Throw e => Ret (Throw e)
              | Ok _ => wallets_of_account account rest (wallets ++ [w])
              end
          end
      end
  end.

(** [consumer-account.js]: without wallets, those of the account are listed; the error of that list is
    read from the missing argument, which raises. *)
Definition account_wallets (source : Account) (walletIds : option (input (list string)))
    : aprog (result (string + PartialResult (list Wallet))) :=
  match walletIds with
  | Some (Invalid message) => Ret (Ok (inl message))
  | Some (Valid ids) => await r <- wallets_of_account source ids [] ;; Ret (Ok (inr r))
  | None =>
      let! wallets <- base (WalletListByAccountId (acc_id source)) ;;
      match wallets with
      | Ok l => await r <- wallets_of_account source (List.map w_id l) [] ;; Ret (Ok (inr r))
      | Er _ => Ret (Throw (new JsTypeError))
      | Throw e => Ret (Throw e)
      end
  end.

(** [get-account-transactions-for-contact.js] *)
Fixpoint contact_transactions (cfg : MemoConfig) (lookup : string -> result (list LedgerTx))
    (wallets : list Wallet) (transactions : list WalletTransaction) : result (list WalletTransaction) :=
  match wallets with
  | [] => Ok transactions
  | wallet :: rest =>
      match lookup (w_id wallet) with
      | Er e => if is_a e LedgerError then Er e else Throw (new JsTypeError)
      | Throw e => Throw e
      | Ok ledgerTransactions =>
          contact_transactions cfg lookup rest (transactions ++ fromLedger cfg ledgerTransactions)
      end
  end.
Definition getAccountTransactionsForContact (cfg : MemoConfig) (account : Account)
    (lookup : string -> result (list LedgerTx)) : aprog (result (list WalletTransaction)) :=
  await wallets <- base (WalletListByAccountId (acc_id account)) ;;
  Ret (contact_transactions cfg lookup wallets []).

(** ** What is shown *)

Module QueriesSpec.

(** The wallets that were looked up, in order. *)
Definition wallet_read (ev : event) : list (string * Wallet) :=
  match ev with
  | Ev c x =>
      match c in call X return X -> list (string * Wallet) with
      | WalletFindById id => fun x => match x with Ok w => [(id, w)] | _ => [] end
      | _ => fun _ => []
      end x
  end.

Lemma wallets_read account ids acc tr r : exec (wallets_of_account account ids acc) tr r ->
  money_trace (bases tr) = [] /\
  forall l, r = Ok (partial_ok l) -> exists found, l = acc ++ found /\
    bases tr ≫= wallet_read = zip ids found /\ length found = length ids /\
    Forall (fun w => w_accountId w = acc_id account) found /\ (ids = [] \/ acc_status account = StatusActive).
Proof.
  revert acc tr. induction ids as [|id ids IH]; intros acc tr He; simpl in He.
  - apply exec_inv in He as [-> ->]. split; [done|]. intros l [= <-]. exists [].
    split_and!; [by rewrite app_nil_r|done|done|done|by left].
  - apply exec_inv in He as (x & tr1 & -> & He). destruct x as [w|e|e].
    + cbn [pbind] in He. unfold AccountValidator in He. destruct (decide _) as [Hd|Hd].
      { apply exec_inv in He as [-> ->]. by split. }
      unfold validateWalletForAccount in He. destruct (String.eqb_spec (w_accountId w) (acc_id account)) as [Hw|Hw]; cbn in He;
        [|apply exec_inv in He as [-> ->]; by split].
      apply IH in He as [H1 H2]. split; [exact H1|]. intros l Hl.
      destruct (H2 l Hl) as (found & -> & H3 & H4 & H5 & _). exists (w :: found).
      split_and!; [by rewrite <- app_assoc| |simpl; by rewrite H4|by constructor|].
      { unfold bases in *. rewrite !bind_cons. cbn [base_of app]. by rewrite bind_cons, H3. }
      right. by destruct (decide (acc_status account = StatusActive)).
    + cbn in He. destruct (is_a e _); apply exec_inv in He as [-> ->]; by split.
    + apply exec_inv in He as [-> ->]. by split.
Qed.

(** The wallets whose history is shown for an account are those that were asked for, or
    all of the account, each looked up once and found to belong to it; unless there
    are none the account is active. *)
Theorem account_history_own (source : Account) (walletIds : option (input (list string)))
    (tr : list (happening acall)) (l : list Wallet)
    (He : exec (account_wallets source walletIds) tr (Ok (inr (partial_ok l)))) :
  money_trace (bases tr) = [] /\
  Forall (fun w => w_accountId w = acc_id source) l /\ (l = [] \/ acc_status source = StatusActive) /\
  exists ids, bases tr ≫= wallet_read = zip ids l /\ length ids = length l /\
    forall asked, walletIds = Some (Valid asked) -> ids = asked.
Proof.
  assert (Hread : forall ids tr', exec (await r <- wallets_of_account source ids [] ;;
           Ret (Ok (inr r)) : aprog (result (string + PartialResult (list Wallet)))) tr'
      (Ok (inr (partial_ok l))) ->
    money_trace (bases tr') = [] /\ Forall (fun w => w_accountId w = acc_id source) l /\
    (l = [] \/ acc_status source = StatusActive) /\ bases tr' ≫= wallet_read = zip ids l /\ length ids = length l).
  { intros ids tr' He'. apply exec_bind_inv in He' as (tr1 & a & tr2 & -> & H1 & H2).
    assert (Ha : a = Ok (partial_ok l) /\ tr2 = []).
    { destruct a as [p|e|e]; apply exec_inv in H2 as [-> H2]; [|done..]. by simplify_eq. }
    destruct Ha as [-> ->]. rewrite app_nil_r. apply wallets_read in H1 as [Hm Hl].
    destruct (Hl l eq_refl) as (found & -> & H3 & H4 & H5 & H6). simpl. split_and!; [done|done| |done|done].
    destruct H6 as [->|H6]; [left; by apply nil_length_inv|by right]. }
  destruct walletIds as [[ids|message]|]; simpl in He.
  - destruct (Hread ids tr He) as (H1 & H2 & H3 & H4 & H5). split_and!; [done..|]. exists ids.
    split_and!; [done|done|]. by intros asked [= <-].
  - by apply exec_inv in He as [_ He].
  - apply exec_inv in He as (x & tr' & -> & He). destruct x as [ws|e|e];
      [|by apply exec_inv in He as [_ He]..].
    destruct (Hread _ tr' He) as (H1 & H2 & H3 & H4 & H5). split_and!; [done..|].
    exists (List.map w_id ws). by split_and!.
Qed.

(** The status that the query of a payment shows is that of the ledger; an error is
    raised, and never shown as a status. *)
Theorem status_query_exact (dust : string) (decodeInvoice : string -> result LnInvoice) (request status : string)
    (tr : list event) (He : exec (LnInvoicePaymentStatusQuery dust decodeInvoice (Valid request)) tr (Shown status)) :
  exists i recorded, decodeInvoice request = Ok i /\
    tr = [Ev (LedgerIsLnTxRecorded (inv_paymentHash i)) (Ok recorded)] /\
    status = if recorded then "PAID" else "PENDING".
Proof.
  assert (Hraise : forall e, @raise_mapped dust string e <> Shown status).
  { intros e. unfold raise_mapped. by destruct (mapError dust e). }
  unfold LnInvoicePaymentStatusQuery, PaymentStatusChecker in He. cbn in He.
  destruct (decodeInvoice request) as [i|e|e]; cbn in He;
    [|apply exec_inv in He as [_ He]; by destruct (Hraise e)|by apply exec_inv in He as [_ He]].
  apply exec_inv in He as (x & tr1 & -> & He). exists i. cbn in He. destruct x as [recorded|e|e].
  - apply exec_inv in He as [-> [= ->]]. by exists recorded.
  - apply exec_inv in He as [_ He]. by destruct (Hraise e).
  - by apply exec_inv in He as [_ He].
Qed.

(** *** Witnesses *)

Import PaymentClaims ResolversExample.

Definition own_history := account_wallets sample_acc (Some (Valid [sample_uuid])).

Lemma account_history_own_witness :
  snd (run api_env own_history) = Ok (inr (partial_ok [sample_wallet])) /\
  Forall (fun w => w_accountId w = acc_id sample_acc) [sample_wallet].
Proof.
  split; [vm_compute; reflexivity|].
  refine (proj1 (proj2 (account_history_own sample_acc (Some (Valid [sample_uuid]))
    (fst (run api_env own_history)) [sample_wallet] _))).
  exact (run_exec api_env own_history).
Defined.

End QueriesSpec.
